(* ===== verification/_CoqProject ===== *)
-Q . S2P
Prelude.v
PyDecimal.v
Scheduling.v
Accounting.v
Policy.v
PyValue.v
Json.v
Strict.v
CpuWorkload.v
Chunks.v
Safetensors.v
WorkerModels.v
Security.v
Cursors.v
Leadership.v
Persistence.v
Journal.v
PendingOps.v
Database.v
Sorting.v
Ledger.v
RateLimit.v
Windows.v
Authority.v
Capabilities.v
Training.v
CheckpointManifest.v
Restore.v
Eligibility.v
Idempotency.v
Identity.v
Dispatch.v
Cleanup.v
Retry.v
Snapshot.v
Coordinator.v
PyFloat.v
JobSpecs.v
Control.v
Admission.v
Workers.v
PolicyService.v
WorkerSession.v
Checkpoint.v
Fencing.v
View.v
Lifecycle.v
System.v
Schema.v
PolicyChanges.v
Submission.v
Ticks.v
Limits.v
Capacity.v
Sessions.v
