(* ===== verification/Prelude.v ===== *)
(** * nexa: a verification development

    nexa runs batch jobs of several tenants on a worker machine.  An API process
    accepts jobs and control requests, one coordinator process at a time schedules
    them, a worker process runs each attempt in a container and reports back through
    authenticated callbacks.  Everything they share is in a PostgreSQL database and in
    a store of artifacts.  This development models the parts of the program that decide
    who may act, what is admitted, charged and dispatched, and what is durable, and
    proves what they promise.  Paths below are under [src/src/nexa/].

    ** The parts, and the files that model them

    - Python.  [Prelude] has exceptions, dictionaries, sorting and the state and error
      monad; [PyDecimal] decimal arithmetic at a given precision; [PyFloat] binary
      floating point; [PyValue] and [Json] JSON values, [json.loads] and [json.dumps];
      [Strict] the canonical documents of [workloads/canonical_json.py] and patterns.
    - Scheduling.  [Scheduling] has the types of [domain/scheduling.py],
      [Accounting] the functions of [scheduler/accounting.py], [Policy] those of
      [scheduler/policy.py].  A snapshot and a time go in, a decision or a declared
      error comes out.
    - Workloads.  [CpuWorkload] is the CPU workload with its state file
      ([workloads/cpu_*.py]), [Chunks] the inference state and chunk manifests,
      [Safetensors] the file format, [Training] training states and launch
      specifications ([training_state.py], [adapter_launch.py], [pytorch_arch.py]).
    - The worker's durable state.  [WorkerModels] has the value objects of
      [worker/models.py], [Journal] the record per attempt of [worker/journal.py],
      [PendingOps] the callbacks of [worker/state.py].  Every method is one atomic step
      on a map of files, and a write error may strike before or after the file is
      replaced.
    - Foundations.  [Persistence] has the identifiers of
      [infrastructure/persistence/ids.py] and the retry loop of [transactions.py];
      [Security] and [Cursors] the secrets and signed cursors of
      [infrastructure/security.py]; [Leadership] the leadership row of
      [coordinator/service.py].
    - The database.  [Database] has one record per table the modelled code uses,
      a state-and-error monad [Tx] with the statements (select, insert, update) the
      code issues, and the symbolic execution lemmas and tactics for it.  [Schema]
      has CHECK constraints of [schema_v1.py] and [schema_v16.py].
    - The coordinator.  [Windows] and [Snapshot] are [coordinator/snapshot.py], [Ledger]
      is [accounting.py], [Dispatch] is [dispatch.py] and [reaper.py] with
      [application/job_recovery.py], [Retry] is [retry.py], [Eligibility] is
      [eligibility.py]; [Coordinator] is [service.py] with [retention.py] and
      [artifact_quota.py]: every transaction and the tick that chains them.
      [Capabilities] is [domain/workload_adapters.py] and the compatibility checks of
      [application/job_service.py].
    - Jobs.  [JobSpecs] validates and dumps specifications ([api/schemas.py]),
      [RateLimit] is the token bucket and [Admission] the submission of
      [application/job_service.py] with [storage_pressure.py] and the retry of
      [job_control.py]; [Control] cancels, pauses and resumes
      ([job_control.py], [preconditions.py]); [Idempotency] is [idempotency.py].
    - Workers.  [WorkerSession] has incarnations, reconciliation, heartbeats, polls and
      the health sweep of [application/worker_service.py], enabling a worker
      ([admin_workers.py]) and the proof of readiness ([readiness_proof.py]);
      [Authority] has authentication, receipts, authority resolution, renewal and
      adoption, and result reservation and start of [execution_service.py]; [Cleanup]
      is [execution_cleanup.py]; [Checkpoint] reserves checkpoints
      ([checkpoint_service.py]); [CheckpointManifest] and [Restore] validate and select
      checkpoints ([checkpoint_validation.py], [checkpoint_restore.py]); [Workers]
      drains and disables a worker.
    - Users and policy.  [Identity] is [domain/identity.py] with the sessions and tokens
      of [application/identity_service.py]; [PolicyService] is
      [application/policy_service.py] with [domain/policy.py].
    - The whole.  [Fencing] is an abstract protocol of who may act for a job, [View]
      what the protocol sees of a database, [Lifecycle] shows that each operation
      refines it, and [System] composes all operations in any order.  [Ticks],
      [Limits], [Capacity], [Submission], [PolicyChanges] and [Sessions] state what the
      services guarantee together.

    ** What the theorems show

    - [System] and [Submission]: every run of committed transactions refines the
      authority protocol; a job has at most one live grant, lease and unreleased
      allocation; an authority whose fence was passed is never accepted again; a
      submission is a step of that system.
    - [Capacity]: over every sequence of transactions of users, administrators, workers
      and the coordinator, what a worker holds fits its current inventory.
    - [Ticks]: what a tick dispatches fits the worker, the tenant's quota and the active
      limits, under live leadership and in normal mode; a tick writes nothing while
      writes are frozen.
    - [Limits], [Submission], [RateLimit]: outstanding jobs stay within the limits of
      the policies in force; a submission creates exactly the job it was asked for and
      a retry the job that failed; the limiter is an exact token bucket and the time it
      asks a client to wait suffices.
    - [Sessions], [PolicyChanges]: a worker is READY only with every allocation
      accounted for; the operational mode moves along its state machine with the
      evidence each edge needs; policies never undercut what is in use.
    - [Windows]: the merged bounded streams of the queue are one sort of it.
    - [Schema]: no operation writes a job, spec, attempt, retry schedule or allocation
      that breaks its CHECK constraints.
    - [Policy] and [Accounting]: dispatches are safe and fair, the policy is work
      conserving, reserves for overdue work, is total; charges only move forward.
    - [Ledger]: after a rebase exactly the held allocations are charged, boundaries
      stay consistent over every history, and what one charge does to each row.
    - [Leadership]: epochs fence, live leases exclude, an expired lease is taken over.
    - [Identity], [Idempotency], [Security], [Cursors], [Persistence]: tokens do not
      escalate, resolve when fresh, and never after revocation; a request runs once;
      secrets and cursors round trip; identifiers increase; a transaction is atomic
      over its retries.
    - [Capabilities] and [Eligibility]: version comparison agrees with its
      definition, and the caches of an eligibility batch do not change its result.
    - [Journal] and [PendingOps]: well-formedness, crash consistency, finality of
      tombstones, refinement of the attempt state machine, recovery after restarts.
    - [CpuWorkload], [Chunks], [Safetensors], [Training], [CheckpointManifest],
      [Restore]: interrupted runs agree with uninterrupted ones, files read back, what
      is accepted is complete, and the newest valid checkpoint is restored.

    ** Conventions and bounds

    A Python function is a function here; an exception is a [Raise] of [outcome]; a
    transaction body is a [Tx] computation, which runs alone (the code takes the row
    locks that make this so), and whose caller discards the database of a body that
    raised.  Clock readings, random draws and hash functions are arguments.  UUIDs are
    canonical strings, times are microseconds, integers are unbounded ([Persistence]
    keeps the 48, 74 and 128 bits of an identifier, [Safetensors] the 64 of a length).
    Fuel appears where recursion is not structural, always with a bound that suffices:
    the tenants of the heap in [Policy.serve] ([decide_total] shows that a result is
    always returned), the binary length of a number and the exponent gap in
    [PyDecimal], the length of the text in [Security.remove_text] and in [Json.loads]
    ([enough]), the recursion limit of the interpreter where the code runs into it,
    one step per job in [Admission.lineage], one page per allocation in
    [WorkerSession.unreleased_pages] ([Sessions] shows that they list them all), and
    the attempts of [run_transaction], which are the code's own.

    ** Not modelled

    Completing an attempt and publishing a checkpoint verify manifests in the artifact
    store; the state changes they make appear in [System] as the abstract step
    [sys_recognize], and everything that leaves the authority view alone, claiming an
    attempt included, as [sys_unseen].  Triggers of the database are not modelled: the
    tables they derive from the queue ([queue_heads], [queue_submitters],
    [queue_request_sizes], [quota_headroom_steps]) are read as they are.  Rows that
    [SKIP LOCKED] leaves out, statement timeouts and deadlocks belong to the database.
    Login with its password hashing, tenant and user administration, templates, sweeps
    and list queries are not reached.  The artifact store, the HTTP layer, the command
    line, the worker's Docker loop, the code inside containers, logging and metrics are
    I/O around what is modelled. *)

From stdpp Require Export base tactics gmap strings list sorting relations.
From Stdlib Require Export ZArith Lia Bool.

(** ** Outcomes of Python code

    A function that may raise returns an [outcome]: a value, or the exception's
    class and message.  stdpp's monad notations ([x ← m; k], [mret]) thread it. *)

Record exn := Exn { exn_class : string; exn_message : string }.

#[export] Instance exn_eq_dec : EqDecision exn.
Proof. solve_decision. Defined.

Inductive outcome (E A : Type) :=
| Ret (a : A)
| Raise (e : E).
Arguments Ret {E A} a.
Arguments Raise {E A} e.

#[export] Instance outcome_ret E : MRet (outcome E) := λ A a, Ret a.
#[export] Instance outcome_bind E : MBind (outcome E) := λ A B f m,
  match m with Ret a => f a | Raise e => Raise e end.

#[export] Instance outcome_fmap E : FMap (outcome E) := λ A B f m,
  match m with Ret a => Ret (f a) | Raise e => Raise e end.

(** [if b: raise e] followed by the rest of the function. *)
Definition raise_when {E} (b : bool) (e : E) : outcome E () :=
  if b then Raise e else Ret ().

(** [d[k]] on a dict raises when the key is absent. *)
Definition or_raise {E A} (o : option A) (e : E) : outcome E A :=
  match o with Some a => Ret a | None => Raise e end.

(** [for x in xs: body], the body threading a state and able to raise. *)
Fixpoint for_each {E A S : Type} (xs : list A) (body : S → A → outcome E S) (s : S)
    : outcome E S :=
  match xs with
  | [] => Ret s
  | x :: xs => s' ← body s x; for_each xs body s'
  end.

(** [any(f(x) for x in xs)], stopping at the first true element. *)
Fixpoint anyM {E A : Type} (f : A → outcome E bool) (xs : list A) : outcome E bool :=
  match xs with
  | [] => Ret false
  | x :: xs => b ← f x; if (b : bool) then Ret true else anyM f xs
  end.

(** [(x for x in xs if f(x))] with a test that can raise. *)
Fixpoint filterM {E A : Type} (f : A → outcome E bool) (xs : list A) : outcome E (list A) :=
  match xs with
  | [] => Ret []
  | x :: xs => b ← f x; ys ← filterM f xs; Ret (if (b : bool) then x :: ys else ys)
  end.

Lemma bind_Ret {E A B} (m : outcome E A) (f : A → outcome E B) b :
  m ≫= f = Ret b ↔ ∃ a, m = Ret a ∧ f a = Ret b.
Proof. destruct m; naive_solver. Qed.

Lemma bind_Raise {E A B} (m : outcome E A) (f : A → outcome E B) e :
  m ≫= f = Raise e ↔ m = Raise e ∨ ∃ a, m = Ret a ∧ f a = Raise e.
Proof. destruct m; naive_solver. Qed.

Lemma raise_when_Ret {E} b (e : E) u : raise_when b e = Ret u ↔ b = false.
Proof. destruct b, u; naive_solver. Qed.

Lemma raise_when_Raise {E} b (e e' : E) : raise_when b e = Raise e' ↔ b = true ∧ e = e'.
Proof. destruct b; naive_solver. Qed.

Lemma or_raise_Ret {E A} (o : option A) (e : E) a : or_raise o e = Ret a ↔ o = Some a.
Proof. destruct o; naive_solver. Qed.

Lemma or_raise_Raise {E A} (o : option A) (e e' : E) :
  or_raise o e = Raise e' ↔ o = None ∧ e = e'.
Proof. destruct o; naive_solver. Qed.

Lemma mret_Ret {E A} (a b : A) : mret (M:=outcome E) a = Ret b ↔ a = b.
Proof. unfold mret, outcome_ret. naive_solver. Qed.

(** Under a pure test the monadic loops are the list functions. *)
Lemma anyM_pure {E A} (g : A → bool) (f : A → outcome E bool) xs :
  (∀ x, x ∈ xs → f x = Ret (g x)) → anyM f xs = Ret (existsb g xs).
Proof.
  induction xs as [|x xs IH]; simpl; intros Hf; [done|].
  rewrite Hf by set_solver. simpl. destruct (g x); [done|]. apply IH. set_solver.
Qed.

Lemma filterM_pure {E A} (g : A → bool) (f : A → outcome E bool) xs :
  (∀ x, x ∈ xs → f x = Ret (g x)) → filterM f xs = Ret (List.filter g xs).
Proof.
  induction xs as [|x xs IH]; simpl; intros Hf; [done|].
  rewrite Hf by set_solver. simpl. rewrite IH by set_solver. simpl. by destruct (g x).
Qed.

Lemma mapM_pure {E A B} (g : A → B) (f : A → outcome E B) xs :
  (∀ x, x ∈ xs → f x = Ret (g x)) → mapM f xs = Ret (g <$> xs).
Proof.
  induction xs as [|x xs IH]; simpl; intros Hf; [done|].
  rewrite Hf by set_solver. simpl. rewrite IH by set_solver. done.
Qed.

Lemma mapM_omap {E A B} (h : A → option B) (f : A → outcome E B) xs :
  (∀ x, x ∈ xs → ∃ y, f x = Ret y ∧ h x = Some y) → mapM f xs = Ret (omap h xs).
Proof.
  induction xs as [|x xs IH]; simpl; intros Hf; [done|].
  destruct (Hf x) as (y & -> & ->); [left|]. simpl.
  rewrite IH by (intros; apply Hf; by right). done.
Qed.

(** An invariant of the loop body is an invariant of the loop. *)
Lemma for_each_inv {E A S} (P : S → Prop) (body : S → A → outcome E S) xs s s' :
  (∀ s x s', x ∈ xs → P s → body s x = Ret s' → P s') →
  P s → for_each xs body s = Ret s' → P s'.
Proof.
  revert s. induction xs as [|x xs IH]; simpl; intros s Hb HP Hf; [naive_solver|].
  apply bind_Ret in Hf as (s1 & H1 & H2).
  eapply (IH s1); [|eapply (Hb s x); [set_solver|done|done]|done].
  intros ??? Hx; apply Hb. set_solver.
Qed.

(** The same with the processed prefix in view. *)
Lemma for_each_prefix {E A S} (P : list A → S → Prop) (body : S → A → outcome E S) pre xs s s' :
  (∀ pre x s s', P pre s → body s x = Ret s' → P (pre ++ [x]) s') →
  P pre s → for_each xs body s = Ret s' → P (pre ++ xs) s'.
Proof.
  intros Hb. revert pre s. induction xs as [|x xs IH]; simpl; intros pre s HP Hf.
  { rewrite app_nil_r. naive_solver. }
  apply bind_Ret in Hf as (s1 & H1 & H2).
  rewrite cons_middle, app_assoc. eapply IH; eauto.
Qed.

Lemma for_each_unit {E A} (body : () → A → outcome E ()) xs u :
  for_each xs body () = Ret u → ∀ x, x ∈ xs → body () x = Ret ().
Proof.
  induction xs as [|x xs IH]; simpl; intros Hf y Hy; [set_solver|].
  apply bind_Ret in Hf as ([] & H1 & H2). apply elem_of_cons in Hy as [->|Hy]; eauto.
Qed.

(** A loop whose body never fails on the states it reaches returns. *)
Lemma for_each_total {E A S} (P : S → Prop) (body : S → A → outcome E S) xs s :
  (∀ s x, x ∈ xs → P s → ∃ s', body s x = Ret s' ∧ P s') →
  P s → ∃ s', for_each xs body s = Ret s' ∧ P s'.
Proof.
  revert s. induction xs as [|x xs IH]; simpl; intros s Hb HP; [eauto|].
  destruct (Hb s x) as (s1 & H1 & HP1); [by left|done|]. rewrite H1. simpl.
  apply IH; [|done]. intros s2 y Hy. apply Hb. by right.
Qed.

(** Exceptions outside a class [Q] never come out of a loop whose body has none. *)
Lemma for_each_raise {E A S} (Q : E → Prop) (P : S → Prop) (body : S → A → outcome E S) xs s :
  (∀ s x, x ∈ xs → P s → match body s x with Ret s' => P s' | Raise e => Q e end) →
  P s → match for_each xs body s with Ret s' => P s' | Raise e => Q e end.
Proof.
  revert s. induction xs as [|x xs IH]; simpl; intros s Hb HP; [done|].
  pose proof (Hb s x ltac:(by left) HP) as Hx. destruct (body s x); simpl; [|done].
  apply IH; [|done]. intros s2 y Hy. apply Hb. by right.
Qed.

(** ** Ordered dictionaries

    A Python dict iterates in insertion order; assigning to an existing key
    keeps its position.  An association list with distinct keys has both. *)

Section dict.
Context {K V : Type} `{EqDecision K}.
Implicit Types (d : list (K * V)) (k : K) (v : V).

Fixpoint dict_get (k : K) (d : list (K * V)) : option V :=
  match d with
  | [] => None
  | (k', v) :: d => if decide (k = k') then Some v else dict_get k d
  end.

Fixpoint dict_set (k : K) (v : V) (d : list (K * V)) : list (K * V) :=
  match d with
  | [] => [(k, v)]
  | (k', v') :: d => if decide (k = k') then (k', v) :: d else (k', v') :: dict_set k v d
  end.

Fixpoint dict_del (k : K) (d : list (K * V)) : list (K * V) :=
  match d with
  | [] => []
  | (k', v') :: d => if decide (k = k') then d else (k', v') :: dict_del k d
  end.

Definition dict_mem k d : bool := match dict_get k d with Some _ => true | None => false end.

(** [d.update(e)], and [dict(pairs)] / [{k: v for ...}]. *)
Definition dict_update (d e : list (K * V)) : list (K * V) :=
  foldl (λ d kv, dict_set kv.1 kv.2 d) d e.
Definition dict_of (kvs : list (K * V)) : list (K * V) := dict_update [] kvs.

Lemma dict_get_set k k' v d :
  dict_get k (dict_set k' v d) = if decide (k = k') then Some v else dict_get k d.
Proof.
  induction d as [|[k'' v''] d IH]; simpl; [done|].
  destruct (decide (k' = k'')) as [->|]; simpl; repeat case_decide; congruence.
Qed.

Lemma dict_get_set_eq k v d : dict_get k (dict_set k v d) = Some v.
Proof. rewrite dict_get_set. by case_decide. Qed.

Lemma dict_get_set_ne k k' v d : k ≠ k' → dict_get k (dict_set k' v d) = dict_get k d.
Proof. rewrite dict_get_set. by case_decide. Qed.

Lemma dict_get_elem k v d : dict_get k d = Some v → (k, v) ∈ d.
Proof.
  induction d as [|[k' v'] d IH]; simpl; [done|].
  destruct (decide (k = k')); set_solver.
Qed.

Lemma dict_get_keys k d : is_Some (dict_get k d) ↔ k ∈ d.*1.
Proof.
  induction d as [|[k' v'] d IH]; simpl.
  - split; [by intros []|set_solver].
  - destruct (decide (k = k')) as [->|]; [|rewrite IH]; set_solver.
Qed.

Lemma dict_get_None k d : dict_get k d = None ↔ k ∉ d.*1.
Proof. rewrite <- dict_get_keys, eq_None_not_Some. done. Qed.

Lemma dict_elem_get k v d : NoDup d.*1 → (k, v) ∈ d → dict_get k d = Some v.
Proof.
  induction d as [|[k' v'] d IH]; simpl; [set_solver|].
  intros [Hk Hd]%NoDup_cons [Heq|Hin]%elem_of_cons; case_decide; simplify_eq; try done.
  - exfalso. apply Hk. apply list_elem_of_fmap. by exists (k', v).
  - by apply IH.
Qed.

Lemma dict_mem_spec k d : dict_mem k d = true ↔ k ∈ d.*1.
Proof. rewrite <- dict_get_keys. unfold dict_mem. destruct (dict_get k d); naive_solver. Qed.

Lemma dict_mem_false k d : dict_mem k d = false ↔ k ∉ d.*1.
Proof. rewrite <- dict_mem_spec. destruct (dict_mem k d); naive_solver. Qed.

Lemma dict_set_keys k v d :
  (dict_set k v d).*1 = if decide (k ∈ d.*1) then d.*1 else d.*1 ++ [k].
Proof.
  induction d as [|[k' v'] d IH]; [by rewrite decide_False by set_solver|].
  cbn [dict_set]. destruct (decide (k = k')) as [->|Hk].
  - by rewrite decide_True by set_solver.
  - rewrite !fmap_cons, IH.
    destruct (decide (k ∈ d.*1)); [rewrite decide_True|rewrite decide_False]; set_solver.
Qed.

Lemma dict_set_keys_old k v d : k ∈ d.*1 → (dict_set k v d).*1 = d.*1.
Proof. intros. by rewrite dict_set_keys, decide_True. Qed.

Lemma dict_set_elem_keys k k' v d : k' ∈ (dict_set k v d).*1 ↔ k' = k ∨ k' ∈ d.*1.
Proof. rewrite dict_set_keys. case_decide; set_solver. Qed.

Lemma dict_set_NoDup k v d : NoDup d.*1 → NoDup (dict_set k v d).*1.
Proof.
  intros Hd. rewrite dict_set_keys. case_decide; [done|].
  apply NoDup_app; split_and!; [done|set_solver|apply NoDup_singleton].
Qed.

Lemma dict_set_fresh k v d : k ∉ d.*1 → dict_set k v d = d ++ [(k, v)].
Proof.
  induction d as [|[k' v'] d IH]; simpl; [done|]. intros Hk.
  rewrite decide_False by set_solver. rewrite IH by set_solver. done.
Qed.

Lemma dict_update_NoDup d e : NoDup d.*1 → NoDup (dict_update d e).*1.
Proof.
  unfold dict_update. revert d.
  induction e as [|[k v] e IH]; simpl; intros d Hd; [done|]. by apply IH, dict_set_NoDup.
Qed.

Lemma dict_update_app d e : NoDup (d.*1 ++ e.*1) → dict_update d e = d ++ e.
Proof.
  unfold dict_update. revert d.
  induction e as [|[k v] e IH]; simpl; intros d Hd; [by rewrite app_nil_r|].
  assert (k ∉ d.*1).
  { apply NoDup_app in Hd as (_ & Hd & _). intros Hk. eapply Hd; set_solver. }
  rewrite dict_set_fresh by done. rewrite IH; [by rewrite <- app_assoc|].
  by rewrite fmap_app, <- app_assoc.
Qed.

Lemma dict_of_NoDup kvs : NoDup (dict_of kvs).*1.
Proof. apply dict_update_NoDup. constructor. Qed.

Lemma dict_of_id kvs : NoDup kvs.*1 → dict_of kvs = kvs.
Proof. intros. unfold dict_of. by rewrite dict_update_app. Qed.

Lemma dict_update_elem_keys k d e : k ∈ (dict_update d e).*1 ↔ k ∈ d.*1 ∨ k ∈ e.*1.
Proof.
  unfold dict_update. revert d.
  induction e as [|[k' v] e IH]; simpl; intros d; [set_solver|].
  rewrite IH, dict_set_elem_keys. set_solver.
Qed.

Lemma dict_of_elem_keys k kvs : k ∈ (dict_of kvs).*1 ↔ k ∈ kvs.*1.
Proof. unfold dict_of. rewrite dict_update_elem_keys. set_solver. Qed.

Lemma dict_update_elem kv d e : kv ∈ dict_update d e → kv ∈ d ∨ kv ∈ e.
Proof.
  unfold dict_update. revert d.
  induction e as [|[k' v] e IH]; simpl; intros d Hin; [by left|].
  apply IH in Hin as [Hin|Hin]; [|set_solver].
  assert (∀ d, kv ∈ dict_set k' v d → kv ∈ d ∨ kv = (k', v)) as Hset.
  { clear. induction d as [|[k'' v''] d IH]; simpl; [set_solver|].
    case_decide; [subst; set_solver|]. set_solver. }
  apply Hset in Hin. set_solver.
Qed.

(** Comparing the length of a dict with that of the list it was built from is
    how the code detects duplicate keys. *)
Lemma dict_set_length k v d :
  length (dict_set k v d) = if decide (k ∈ d.*1) then length d else S (length d).
Proof.
  induction d as [|[k' v'] d IH]; [by rewrite decide_False by set_solver|].
  cbn [dict_set]. destruct (decide (k = k')) as [->|Hk].
  - by rewrite decide_True by set_solver.
  - rewrite !length_cons, IH.
    destruct (decide (k ∈ d.*1)); [rewrite decide_True|rewrite decide_False]; set_solver.
Qed.

Lemma dict_update_length_le d e : (length (dict_update d e) ≤ length d + length e)%nat.
Proof.
  unfold dict_update. revert d.
  induction e as [|[k v] e IH]; simpl; intros d; [lia|].
  etrans; [apply IH|]. rewrite dict_set_length. case_decide; lia.
Qed.

Lemma dict_update_length_NoDup d e :
  NoDup d.*1 → length (dict_update d e) = (length d + length e)%nat → NoDup (d.*1 ++ e.*1).
Proof.
  unfold dict_update. revert d.
  induction e as [|[k v] e IH]; simpl; intros d Hd Hlen; [by rewrite app_nil_r|].
  pose proof (dict_update_length_le (dict_set k v d) e) as Hle.
  rewrite dict_set_length in Hle. unfold dict_update in Hle.
  case_decide as Hk; [lia|].
  specialize (IH (dict_set k v d)). rewrite dict_set_keys, decide_False in IH by done.
  rewrite <- app_assoc in IH. apply IH.
  - apply NoDup_app; split_and!; [done|set_solver|apply NoDup_singleton].
  - rewrite dict_set_length, decide_False by done. lia.
Qed.

Lemma dict_of_length_NoDup kvs : length (dict_of kvs) = length kvs → NoDup kvs.*1.
Proof. intros H. apply (dict_update_length_NoDup []); [constructor|done]. Qed.
End dict.

Lemma dict_of_fmap_keys {K A} `{EqDecision K} (f : A → K) (xs : list A) :
  NoDup (f <$> xs) → dict_of ((λ x, (f x, x)) <$> xs) = (λ x, (f x, x)) <$> xs.
Proof.
  intros H. apply dict_of_id. by rewrite <- list_fmap_compose.
Qed.

Lemma fst_fmap_pair {K A} (f : A → K) (xs : list A) : ((λ x, (f x, x)) <$> xs).*1 = f <$> xs.
Proof. by rewrite <- list_fmap_compose. Qed.

Lemma dict_get_fmap {K V W} `{EqDecision K} (f : K → V → W) k (d : list (K * V)) :
  dict_get k ((λ kv, (kv.1, f kv.1 kv.2)) <$> d) = f k <$> dict_get k d.
Proof. induction d as [|[k' v] d IH]; simpl; [done|]. case_decide; by subst. Qed.

Lemma fmap_fst_map {K V W} (f : K → V → W) (d : list (K * V)) :
  ((λ kv, (kv.1, f kv.1 kv.2)) <$> d).*1 = d.*1.
Proof. by rewrite <- list_fmap_compose. Qed.

(** ** Sorting and minima

    [sorted] is stable; [min(xs, key=...)] returns the first minimal element.
    Both are given by the boolean order the keys induce. *)

Section sorted.
Context {A : Type}.

Fixpoint py_insert (leb : A → A → bool) (x : A) (l : list A) : list A :=
  match l with
  | [] => [x]
  | y :: l => if leb x y then x :: y :: l else y :: py_insert leb x l
  end.

Fixpoint py_sorted (leb : A → A → bool) (l : list A) : list A :=
  match l with
  | [] => []
  | x :: l => py_insert leb x (py_sorted leb l)
  end.

Definition py_min_by (ltb : A → A → bool) (x : A) (l : list A) : A :=
  foldl (λ m y, if ltb y m then y else m) x l.

Lemma py_insert_perm leb x l : py_insert leb x l ≡ₚ x :: l.
Proof.
  induction l as [|y l IH]; simpl; [done|]. destruct (leb x y); [done|].
  rewrite IH. apply Permutation_swap.
Qed.

Lemma py_sorted_perm leb l : py_sorted leb l ≡ₚ l.
Proof. induction l as [|x l IH]; simpl; [done|]. by rewrite py_insert_perm, IH. Qed.

Lemma py_sorted_length leb l : length (py_sorted leb l) = length l.
Proof. apply Permutation_length, py_sorted_perm. Qed.

Lemma py_sorted_elem leb x l : x ∈ py_sorted leb l ↔ x ∈ l.
Proof. by rewrite py_sorted_perm. Qed.

Section total.
Context (leb : A → A → bool).
Context (Htotal : ∀ x y, leb x y = true ∨ leb y x = true).
Context (Htrans : ∀ x y z, leb x y = true → leb y z = true → leb x z = true).

Lemma py_insert_sorted x l :
  StronglySorted (λ a b, leb a b = true) l →
  StronglySorted (λ a b, leb a b = true) (py_insert leb x l).
Proof.
  induction l as [|y l IH]; simpl; intros Hs; [repeat constructor|].
  apply StronglySorted_cons in Hs as [Hy Hs].
  destruct (leb x y) eqn:Hxy; apply StronglySorted_cons; split.
  - apply Forall_cons; split; [done|]. eapply Forall_impl; [done|]. eauto.
  - apply StronglySorted_cons. done.
  - assert (leb y x = true) by (destruct (Htotal x y); congruence).
    rewrite py_insert_perm. by apply Forall_cons.
  - by apply IH.
Qed.

Lemma py_sorted_sorted l : StronglySorted (λ a b, leb a b = true) (py_sorted leb l).
Proof. induction l; simpl; [constructor|]. by apply py_insert_sorted. Qed.
End total.

Lemma py_min_by_elem ltb x l : py_min_by ltb x l = x ∨ py_min_by ltb x l ∈ l.
Proof.
  unfold py_min_by. revert x. induction l as [|y l IH]; simpl; intros x; [by left|].
  destruct (IH (if ltb y x then y else x)) as [->|]; [|set_solver].
  destruct (ltb y x); set_solver.
Qed.

(** With a strict weak order nothing in the list is below the minimum. *)
Lemma py_min_by_least (P : A → Prop) ltb x l :
  (∀ a, ltb a a = false) →
  (∀ a b c, P a → P b → P c → ltb b a = false → ltb c b = false → ltb c a = false) →
  (∀ a b, P a → P b → ltb a b = true → ltb b a = false) →
  (∀ y, y ∈ x :: l → P y) →
  ∀ y, y ∈ x :: l → ltb y (py_min_by ltb x l) = false.
Proof.
  intros Hirr Htr Has. unfold py_min_by. revert x.
  induction l as [|z l IH]; simpl; intros x HP y Hy.
  { apply list_elem_of_singleton in Hy. by subst. }
  set (m := if ltb z x then z else x) in *.
  assert (P x ∧ P z) as [Px Pz] by (split; apply HP; [left|right; left]).
  assert (P m) as Pm by (unfold m; by destruct (ltb z x)).
  assert (∀ y, y ∈ m :: l → P y) as HP'.
  { intros u [->|Hu]%elem_of_cons; [done|]. apply HP. right. by right. }
  assert (ltb m (foldl (λ m y, if ltb y m then y else m) m l) = false) as Hm
    by (apply IH; [done|left]).
  assert (ltb x m = false ∧ ltb z m = false) as [Hx Hz].
  { unfold m. destruct (ltb z x) eqn:Hzx; auto. }
  assert (P (foldl (λ m y, if ltb y m then y else m) m l)) as Pf.
  { apply HP'. apply elem_of_cons. apply (py_min_by_elem ltb m l). }
  apply elem_of_cons in Hy as [->|[->|Hy]%elem_of_cons]; [by eapply (Htr _ m)..|].
  apply IH; [done|]. by right.
Qed.
End sorted.

(** Tuples compare lexicographically: the later relation decides when the
    earlier one holds both ways. *)
Definition lex {A} (R1 R2 : relation A) : relation A := λ x y, R1 x y ∧ (R1 y x → R2 x y).

#[export] Instance lex_trans {A} (R1 R2 : relation A) :
  Transitive R1 → Transitive R2 → Transitive (lex R1 R2).
Proof. intros T1 T2 x y z [Hxy Hxy'] [Hyz Hyz']. split; [by etrans|]. intros Hzx. etrans; eauto. Qed.

Lemma lex_total {A} (R1 R2 : relation A) x y :
  (R1 x y ∨ R1 y x) → (R1 x y ∨ ¬ R1 x y) → (R1 y x ∨ ¬ R1 y x) → (R2 x y ∨ R2 y x) →
  lex R1 R2 x y ∨ lex R1 R2 y x.
Proof. unfold lex. tauto. Qed.

Lemma string_leb_total s t : String.leb s t = true ∨ String.leb t s = true.
Proof. apply String.leb_total. Qed.

Lemma string_leb_trans s t u :
  String.leb s t = true → String.leb t u = true → String.leb s u = true.
Proof.
  intros H1 H2. apply Is_true_true. eapply (transitivity (R:=String.le) (y:=t)); by apply Is_true_true.
Qed.

Lemma string_leb_antisym s t : String.leb s t = true → String.leb t s = true → s = t.
Proof. apply String.leb_antisym. Qed.

Lemma string_leb_refl s : String.leb s s = true.
Proof. by destruct (string_leb_total s s). Qed.

(** ** State and exceptions

    Code that mutates state and may raise: an exception leaves the state as the
    mutations before it made it. *)

Definition SE (S E A : Type) : Type := S → outcome E A * S.

#[export] Instance se_ret S E : MRet (SE S E) := λ A a s, (Ret a, s).
#[export] Instance se_bind S E : MBind (SE S E) := λ A B f m s,
  match m s with
  | (Ret a, s') => f a s'
  | (Raise e, s') => (Raise e, s')
  end.

Definition se_get {S E} : SE S E S := λ s, (Ret s, s).
Definition se_put {S E} (s : S) : SE S E () := λ _, (Ret (), s).
Definition se_raise {S E A} (e : E) : SE S E A := λ s, (Raise e, s).
Definition se_lift {S E A} (m : outcome E A) : SE S E A := λ s, (m, s).
Definition se_when {S E} (b : bool) (e : E) : SE S E () := se_lift (raise_when b e).

Lemma se_bind_inv {S E A B} (m : SE S E A) (f : A → SE S E B) s r s' :
  (m ≫= f) s = (r, s') →
  (∃ a s1, m s = (Ret a, s1) ∧ f a s1 = (r, s')) ∨ (∃ e, m s = (Raise e, s') ∧ r = Raise e).
Proof.
  unfold mbind, se_bind. destruct (m s) as [[a|e] s1] eqn:Hm; intros H; [left; eauto|right].
  simplify_eq. eauto.
Qed.

(** What the file system does to one write of a file by temporary file and
    [os.replace]: nothing wrong, an [OSError] before the replace, or one after
    it (fsync of the directory). *)
Inductive WriteFault := NoFault | BeforeReplace | AfterReplace.

(** ** Automation *)

(** Turns boolean tests of the code into propositions. *)
Ltac bool_simpl_hyp H :=
  lazymatch type of H with
  | (_ && _) = true => apply andb_true_iff in H as [? ?]
  | (_ || _) = false => apply orb_false_iff in H as [? ?]
  | negb _ = true => apply negb_true_iff in H
  | negb _ = false => apply negb_false_iff in H
  | Z.leb _ _ = true => apply Z.leb_le in H
  | Z.leb _ _ = false => apply Z.leb_gt in H
  | Z.ltb _ _ = true => apply Z.ltb_lt in H
  | Z.ltb _ _ = false => apply Z.ltb_ge in H
  | Z.eqb _ _ = true => apply Z.eqb_eq in H
  | Z.eqb _ _ = false => apply Z.eqb_neq in H
  | Nat.ltb _ _ = false => apply Nat.ltb_ge in H
  | Nat.ltb _ _ = true => apply Nat.ltb_lt in H
  | Nat.leb _ _ = false => apply Nat.leb_gt in H
  | Nat.leb _ _ = true => apply Nat.leb_le in H
  | Nat.eqb _ _ = true => apply Nat.eqb_eq in H
  | Nat.eqb _ _ = false => apply Nat.eqb_neq in H
  | bool_decide _ = true => apply bool_decide_eq_true in H
  | bool_decide _ = false => apply bool_decide_eq_false in H
  | dict_mem _ _ = true => apply dict_mem_spec in H
  | dict_mem _ _ = false => apply dict_mem_false in H
  end.
Ltac bool_simpl := repeat match goal with H : _ = (_ : bool) |- _ => bool_simpl_hyp H end.

(** Collects the tests a returning computation has passed. *)
Ltac peel H :=
  repeat lazymatch type of H with
  | (raise_when _ _ ≫= _) = Ret _ =>
      let Hc := fresh "Hc" in
      apply bind_Ret in H as ([] & Hc & H); apply raise_when_Ret in Hc
  end.

(** Runs a computation that is known to return (or to raise). *)
Ltac run H :=
  repeat first
    [ progress simplify_eq/=
    | apply bind_Ret in H as (? & ? & H)
    | progress case_match ].

Create HintDb nexa.
#[export] Hint Resolve dict_of_NoDup dict_set_NoDup dict_get_set_eq string_leb_refl : nexa.
#[export] Hint Rewrite @dict_get_set_eq @fst_fmap_pair @bind_Ret @or_raise_Ret : nexa.
