(* ===== verification/PyDecimal.v ===== *)
(** * Decimal arithmetic

    The scheduler, the coordinator's ledgers and the policy compute with
    [decimal.Decimal] inside [localcontext()] blocks that set [prec = 50] and
    [ROUND_HALF_EVEN].  This file models what they use of that arithmetic:
    construction from an int, [+], [-], [*], [/], comparison, [max], [min].  The
    operations take the precision of the context ([dec_add_at]); the plain names are
    those at 50 digits, and admission computes at the default of 28.

    A finite decimal is [coef * 10 ^ exp]; [Special] stands for the infinities
    and NaN, which the code rejects with [is_finite()] before it computes.  The
    exponent is unbounded (Python's limits are at 10^999999).  Equal values may
    have different representations, as in Python, so order and equality compare
    values. *)

From S2P Require Import Prelude.

Local Open Scope Z_scope.

Inductive decimal :=
| Finite (coef exp : Z)
| Special.

#[export] Instance decimal_eq_dec : EqDecision decimal.
Proof. solve_decision. Defined.

Definition is_finite (d : decimal) : bool :=
  match d with Finite _ _ => true | Special => false end.

Definition prec : Z := 50.

(** Number of decimal digits of [n >= 0], [len(str(n))]. *)
Fixpoint ndigits_fuel (fuel : nat) (n : Z) : Z :=
  match fuel with
  | O => 1
  | S fuel => if n <? 10 then 1 else 1 + ndigits_fuel fuel (n / 10)
  end.
Definition ndigits (n : Z) : Z := ndigits_fuel (Z.to_nat (Z.log2 n)) n.

(** [n / 10^k] rounded half to even. *)
Definition round_half_even (n k : Z) : Z :=
  let q := n / 10 ^ k in
  let r := n mod 10 ^ k in
  if 2 * r <? 10 ^ k then q
  else if 10 ^ k <? 2 * r then q + 1
  else if Z.even q then q else q + 1.

(** The context's rounding of an exact result ([Decimal._fix]). *)
Definition dec_fix_at (prec c e : Z) : decimal :=
  let n := Z.abs c in
  let k := ndigits n - prec in
  if k <=? 0 then Finite c e
  else
    let q := round_half_even n k in
    if q =? 10 ^ prec then Finite (Z.sgn c * 10 ^ (prec - 1)) (e + k + 1)
    else Finite (Z.sgn c * q) (e + k).

Definition dec_of_Z (n : Z) : decimal := Finite n 0.
Definition dec_zero : decimal := dec_of_Z 0.

Definition dec_add_at (prec : Z) (a b : decimal) : decimal :=
  match a, b with
  | Finite c1 e1, Finite c2 e2 =>
      let m := Z.min e1 e2 in
      dec_fix_at prec (c1 * 10 ^ (e1 - m) + c2 * 10 ^ (e2 - m)) m
  | _, _ => Special
  end.

Definition dec_neg (a : decimal) : decimal :=
  match a with Finite c e => Finite (- c) e | Special => Special end.
Definition dec_sub_at (prec : Z) (a b : decimal) : decimal := dec_add_at prec a (dec_neg b).

Definition dec_mul_at (prec : Z) (a b : decimal) : decimal :=
  match a, b with
  | Finite c1 e1, Finite c2 e2 => dec_fix_at prec (c1 * c2) (e1 + e2)
  | _, _ => Special
  end.

(** Trailing zeros of an exact quotient are dropped down to the ideal exponent. *)
Fixpoint strip_zeros (fuel : nat) (c e ideal : Z) : Z * Z :=
  match fuel with
  | O => (c, e)
  | S fuel =>
      if (e <? ideal) && (c mod 10 =? 0) then strip_zeros fuel (c / 10) (e + 1) ideal
      else (c, e)
  end.

(** Division of magnitudes: enough digits for correct rounding, the last one
    made sticky when the quotient is inexact.  Division by zero is trapped by
    the default context; the code divides by positive numbers only. *)
Definition dec_div_at (prec : Z) (a b : decimal) : decimal :=
  match a, b with
  | Finite c1 e1, Finite c2 e2 =>
      if c2 =? 0 then Special
      else if c1 =? 0 then Finite 0 (e1 - e2)
      else
        let n1 := Z.abs c1 in
        let n2 := Z.abs c2 in
        let s := Z.sgn c1 * Z.sgn c2 in
        let shift := ndigits n2 - ndigits n1 + prec + 1 in
        let exp := e1 - e2 - shift in
        let num := if 0 <=? shift then n1 * 10 ^ shift else n1 in
        let den := if 0 <=? shift then n2 else n2 * 10 ^ (- shift) in
        let q := num / den in
        if num mod den =? 0 then
          let '(q, exp) := strip_zeros (Z.to_nat (e1 - e2 - exp)) q exp (e1 - e2) in
          dec_fix_at prec (s * q) exp
        else dec_fix_at prec (s * (if q mod 5 =? 0 then q + 1 else q)) exp
  | _, _ => Special
  end.

Notation dec_fix := (dec_fix_at prec).
Notation dec_add := (dec_add_at prec).
Notation dec_sub := (dec_sub_at prec).
Notation dec_mul := (dec_mul_at prec).
Notation dec_div := (dec_div_at prec).

(** Comparison by value. *)
Definition dec_leb (a b : decimal) : bool :=
  match a, b with
  | Finite c1 e1, Finite c2 e2 =>
      let m := Z.min e1 e2 in c1 * 10 ^ (e1 - m) <=? c2 * 10 ^ (e2 - m)
  | _, _ => false
  end.
Definition dec_ltb (a b : decimal) : bool :=
  match a, b with
  | Finite c1 e1, Finite c2 e2 =>
      let m := Z.min e1 e2 in c1 * 10 ^ (e1 - m) <? c2 * 10 ^ (e2 - m)
  | _, _ => false
  end.
Definition dec_eqb (a b : decimal) : bool := dec_leb a b && dec_leb b a.

(** [max(a, b)] and [min(a, b)] keep the first argument on a tie. *)
Definition dec_max (a b : decimal) : decimal := if dec_ltb a b then b else a.
Definition dec_min (a b : decimal) : decimal := if dec_ltb b a then b else a.

(** ** Digits *)

Lemma pow10_pos k : 0 ≤ k → 0 < 10 ^ k.
Proof. intros. by apply Z.pow_pos_nonneg. Qed.
#[export] Hint Resolve pow10_pos : nexa.

Lemma pow10_add a b : 0 ≤ a → 0 ≤ b → 10 ^ (a + b) = 10 ^ a * 10 ^ b.
Proof. intros. by apply Z.pow_add_r. Qed.

Lemma ndigits_fuel_spec fuel n :
  0 < n → n < 10 ^ (Z.of_nat fuel + 1) →
  1 ≤ ndigits_fuel fuel n ∧ 10 ^ (ndigits_fuel fuel n - 1) ≤ n < 10 ^ ndigits_fuel fuel n.
Proof.
  revert n. induction fuel as [|fuel IH]; intros n Hn Hlt; simpl in *; [lia|].
  destruct (Z.ltb_spec n 10); [lia|].
  assert (0 < n / 10) by (apply Z.div_str_pos; lia).
  assert (n / 10 < 10 ^ (Z.of_nat fuel + 1)) as Hlt'.
  { apply Z.div_lt_upper_bound; [lia|].
    replace (Z.of_nat (S fuel) + 1) with (1 + (Z.of_nat fuel + 1)) in Hlt by lia.
    rewrite pow10_add in Hlt by lia. lia. }
  destruct (IH (n / 10)) as (H1 & H2 & H3); [done|done|].
  set (d := ndigits_fuel fuel (n / 10)) in *.
  split; [lia|]. replace (1 + d - 1) with (1 + (d - 1)) by lia.
  rewrite !pow10_add by lia.
  pose proof (Z.div_mod n 10 ltac:(lia)). pose proof (Z.mod_pos_bound n 10 ltac:(lia)). lia.
Qed.

Lemma log2_lt_pow10 n : 0 < n → n < 10 ^ (Z.of_nat (Z.to_nat (Z.log2 n)) + 1).
Proof.
  intros Hn. pose proof (Z.log2_nonneg n). rewrite Z2Nat.id by done.
  eapply Z.lt_le_trans; [apply (Z.log2_spec n Hn)|].
  rewrite <- Z.add_1_r. apply Z.pow_le_mono_l. lia.
Qed.

Lemma ndigits_spec n :
  0 < n → 1 ≤ ndigits n ∧ 10 ^ (ndigits n - 1) ≤ n < 10 ^ ndigits n.
Proof. intros. apply ndigits_fuel_spec; [done|]. by apply log2_lt_pow10. Qed.

Lemma ndigits_le n k : 0 ≤ n → 1 ≤ k → n < 10 ^ k → ndigits n ≤ k.
Proof.
  intros Hn Hk Hlt. destruct (decide (n = 0)) as [->|]; [by change (ndigits 0) with 1|].
  destruct (ndigits_spec n) as (? & Hle & ?); [lia|].
  destruct (Z.le_gt_cases (ndigits n) k); [done|].
  assert (10 ^ k ≤ 10 ^ (ndigits n - 1)) by (apply Z.pow_le_mono_r; lia). lia.
Qed.

Lemma ndigits_mono a b : 0 < a → a ≤ b → ndigits a ≤ ndigits b.
Proof.
  intros. destruct (ndigits_spec b) as (? & ? & ?); [lia|]. apply ndigits_le; lia.
Qed.

(** ** Order *)

(** [d] as an integer number of units [10 ^ m]. *)
Definition units (c e m : Z) : Z := c * 10 ^ (e - m).

Lemma units_shift c e m m' : m' ≤ m → m ≤ e → units c e m' = units c e m * 10 ^ (m - m').
Proof.
  intros. unfold units. replace (e - m') with ((e - m) + (m - m')) by lia.
  rewrite pow10_add by lia. lia.
Qed.

Lemma units_le c1 e1 c2 e2 m m' :
  m' ≤ m → m ≤ e1 → m ≤ e2 →
  units c1 e1 m ≤ units c2 e2 m ↔ units c1 e1 m' ≤ units c2 e2 m'.
Proof.
  intros. rewrite (units_shift c1 e1 m m'), (units_shift c2 e2 m m') by lia.
  apply Z.mul_le_mono_pos_r. apply pow10_pos. lia.
Qed.

Lemma dec_leb_units c1 e1 c2 e2 m :
  m ≤ e1 → m ≤ e2 →
  dec_leb (Finite c1 e1) (Finite c2 e2) = true ↔ units c1 e1 m ≤ units c2 e2 m.
Proof.
  intros. unfold dec_leb. rewrite Z.leb_le. apply (units_le _ _ _ _ (Z.min e1 e2) m); lia.
Qed.

Lemma dec_ltb_negb a b :
  is_finite a = true → is_finite b = true → dec_ltb a b = negb (dec_leb b a).
Proof.
  destruct a, b; try done. intros _ _. unfold dec_ltb, dec_leb.
  rewrite Z.min_comm. by rewrite Z.ltb_antisym.
Qed.

Lemma dec_ltb_leb a b : dec_ltb a b = true → dec_leb a b = true.
Proof.
  destruct a, b; try done. unfold dec_ltb, dec_leb. rewrite Z.ltb_lt, Z.leb_le. lia.
Qed.

Lemma dec_ltb_finite a b : dec_ltb a b = true → is_finite a = true ∧ is_finite b = true.
Proof. by destruct a, b. Qed.

Lemma dec_leb_finite a b : dec_leb a b = true → is_finite a = true ∧ is_finite b = true.
Proof. by destruct a, b. Qed.

Lemma dec_leb_refl a : is_finite a = true → dec_leb a a = true.
Proof. destruct a; [|done]. intros _. unfold dec_leb. apply Z.leb_le. lia. Qed.

Lemma dec_leb_trans a b c : dec_leb a b = true → dec_leb b c = true → dec_leb a c = true.
Proof.
  destruct a as [c1 e1|], b as [c2 e2|], c as [c3 e3|]; try done.
  set (m := Z.min e1 (Z.min e2 e3)).
  rewrite !(dec_leb_units _ _ _ _ m) by lia. lia.
Qed.

Lemma dec_leb_total a b :
  is_finite a = true → is_finite b = true → dec_leb a b = true ∨ dec_leb b a = true.
Proof.
  destruct a as [c1 e1|], b as [c2 e2|]; try done. intros _ _.
  rewrite !(dec_leb_units _ _ _ _ (Z.min e1 e2)) by lia. lia.
Qed.

Lemma dec_ltb_irrefl a : dec_ltb a a = false.
Proof. destruct a; [|done]. unfold dec_ltb. apply Z.ltb_ge. lia. Qed.

Lemma dec_max_l a b : is_finite a = true → is_finite b = true → dec_leb a (dec_max a b) = true.
Proof.
  intros. unfold dec_max. destruct (dec_ltb a b) eqn:E; [by apply dec_ltb_leb|by apply dec_leb_refl].
Qed.

Lemma dec_max_r a b : is_finite a = true → is_finite b = true → dec_leb b (dec_max a b) = true.
Proof.
  intros. unfold dec_max. destruct (dec_ltb a b) eqn:E; [by apply dec_leb_refl|].
  rewrite dec_ltb_negb in E by done. by destruct (dec_leb b a).
Qed.

Lemma dec_max_finite a b :
  is_finite a = true → is_finite b = true → is_finite (dec_max a b) = true.
Proof. unfold dec_max. by destruct (dec_ltb a b). Qed.

(** ** Rounding *)

Definition dec_nonneg (d : decimal) : bool :=
  match d with Finite c _ => 0 <=? c | Special => false end.

Lemma dec_nonneg_leb d : dec_nonneg d = true ↔ dec_leb dec_zero d = true.
Proof.
  destruct d as [c e|]; [|done]. unfold dec_nonneg, dec_zero, dec_of_Z.
  rewrite Z.leb_le, (dec_leb_units _ _ _ _ (Z.min 0 e)) by lia. unfold units.
  rewrite Z.mul_0_l. pose proof (pow10_pos (e - Z.min 0 e) ltac:(lia)). nia.
Qed.

Lemma dec_nonneg_finite d : dec_nonneg d = true → is_finite d = true.
Proof. by destruct d. Qed.

(** Rounding to [k] fewer digits is within half a unit of the last place. *)
Lemma round_half_even_error n k :
  0 ≤ k → 2 * Z.abs (round_half_even n k * 10 ^ k - n) ≤ 10 ^ k.
Proof.
  intros Hk. pose proof (pow10_pos k Hk) as Hp. unfold round_half_even.
  pose proof (Z.div_mod n (10 ^ k) ltac:(lia)) as Hdm.
  pose proof (Z.mod_pos_bound n (10 ^ k) Hp) as Hm.
  set (p := 10 ^ k) in *. set (q := n / p) in *. set (r := n mod p) in *.
  destruct (Z.ltb_spec (2 * r) p); [lia|].
  destruct (Z.ltb_spec p (2 * r)); [lia|]. destruct (Z.even q); lia.
Qed.

Lemma round_half_even_bounds n k :
  n / 10 ^ k ≤ round_half_even n k ≤ n / 10 ^ k + 1.
Proof. unfold round_half_even. repeat case_match; lia. Qed.

(** A result that is a multiple of the unit does not move. *)
Lemma round_half_even_upper n k q : 0 ≤ k → n ≤ q * 10 ^ k → round_half_even n k ≤ q.
Proof.
  intros Hk Hle. pose proof (pow10_pos k Hk) as Hp. unfold round_half_even.
  pose proof (Z.div_mod n (10 ^ k) ltac:(lia)) as Hdm.
  pose proof (Z.mod_pos_bound n (10 ^ k) Hp) as Hm.
  set (p := 10 ^ k) in *. set (d := n / p) in *. set (r := n mod p) in *.
  assert (d ≤ q) by nia. assert (r ≠ 0 → d + 1 ≤ q) by nia.
  destruct (Z.ltb_spec (2 * r) p); [lia|].
  destruct (Z.ltb_spec p (2 * r)); [lia|]. destruct (Z.even d); lia.
Qed.

Lemma strip_zeros_nonneg fuel c e ideal :
  0 ≤ c → 0 ≤ (strip_zeros fuel c e ideal).1.
Proof.
  revert c e. induction fuel as [|fuel IH]; simpl; intros c e Hc; [done|].
  case_match; [|done]. apply IH. apply Z.div_pos; lia.
Qed.

(** Dropping trailing zeros keeps the value. *)
Lemma strip_zeros_value fuel c e ideal c' e' :
  strip_zeros fuel c e ideal = (c', e') → e ≤ e' ∧ units c' e' e = c.
Proof.
  revert c e. induction fuel as [|fuel IH]; simpl; intros c e Hs.
  { simplify_eq. unfold units. rewrite Z.sub_diag. lia. }
  destruct ((e <? ideal) && (c mod 10 =? 0)) eqn:E.
  - bool_simpl. apply IH in Hs as [He Hu]. split; [lia|].
    rewrite (units_shift c' e' (e + 1) e), Hu by lia.
    replace (e + 1 - e) with 1 by lia. change (10 ^ 1) with 10.
    pose proof (Z.div_mod c 10 ltac:(lia)). lia.
  - simplify_eq. unfold units. rewrite Z.sub_diag. lia.
Qed.

(** A decimal fits a precision when its coefficient has at most that many digits. *)
Definition fits_at (p : Z) (d : decimal) : bool :=
  match d with Finite c _ => Z.abs c <? 10 ^ p | Special => false end.
Notation fits_prec := (fits_at prec).

Section at_precision.
Context (p : Z) (Hp1 : 1 ≤ p).

Lemma pow10_pred : 10 ^ p = 10 ^ (p - 1) * 10.
Proof. change 10 with (10 ^ 1) at 3. rewrite <- pow10_add by lia. f_equal. lia. Qed.

Lemma pow10_pred_lt : 0 < 10 ^ (p - 1) < 10 ^ p.
Proof. rewrite pow10_pred. pose proof (pow10_pos (p - 1) ltac:(lia)). lia. Qed.

(** The shape of a rounded result: a coefficient of at most [p] digits in a
    coarser unit, at least the truncated and at most the next coefficient. *)
Lemma dec_fix_at_shape c e :
  0 ≤ c →
  (c < 10 ^ p ∧ dec_fix_at p c e = Finite c e) ∨
  (∃ k q c' e',
     0 < k ∧ dec_fix_at p c e = Finite c' e' ∧ 0 < c' < 10 ^ p ∧ e + k ≤ e' ∧
     units c' e' (e + k) = q ∧ q = round_half_even c k ∧
     10 ^ (p - 1) ≤ c / 10 ^ k ∧ q ≤ 10 ^ p).
Proof.
  intros Hc. unfold dec_fix_at. rewrite Z.abs_eq by done.
  destruct (Z.leb_spec (ndigits c - p) 0) as [Hk|Hk].
  { left. split; [|done]. destruct (decide (c = 0)) as [->|]; [apply pow10_pos; lia|].
    destruct (ndigits_spec c) as (? & ? & ?); [lia|].
    eapply Z.lt_le_trans; [done|]. apply Z.pow_le_mono_r; lia. }
  right. assert (0 < c) as Hc0.
  { destruct (decide (c = 0)) as [->|]; [change (ndigits 0) with 1 in Hk; lia|lia]. }
  destruct (ndigits_spec c) as (Hd & Hlo & Hhi); [done|].
  set (k := ndigits c - p) in *. rewrite Z.sgn_pos by done.
  assert (10 ^ (p - 1) ≤ c / 10 ^ k) as Hq1.
  { apply Z.div_le_lower_bound; [auto with nexa lia|].
    rewrite <- pow10_add by lia.
    replace (k + (p - 1)) with (ndigits c - 1) by (unfold k; lia). done. }
  assert (round_half_even c k ≤ 10 ^ p) as Hq2.
  { apply round_half_even_upper; [lia|]. rewrite <- pow10_add by lia.
    replace (p + k) with (ndigits c) by (unfold k; lia). lia. }
  pose proof (round_half_even_bounds c k) as Hb.
  pose proof pow10_pred_lt as Hp.
  destruct (Z.eqb_spec (round_half_even c k) (10 ^ p)) as [Heq|Hne].
  - exists k, (10 ^ p), (10 ^ (p - 1)), (e + k + 1). rewrite Z.mul_1_l.
    split_and!; try done; try lia.
    unfold units. replace (e + k + 1 - (e + k)) with 1 by lia. by rewrite pow10_pred.
  - exists k, (round_half_even c k), (round_half_even c k), (e + k). rewrite Z.mul_1_l.
    split_and!; try done; try lia. unfold units. rewrite Z.sub_diag. lia.
Qed.

Lemma dec_fix_at_finite c e : is_finite (dec_fix_at p c e) = true.
Proof. unfold dec_fix_at. by repeat case_match. Qed.

Lemma dec_fix_at_nonneg c e : 0 ≤ c → dec_nonneg (dec_fix_at p c e) = true.
Proof.
  intros Hc. destruct (dec_fix_at_shape c e Hc) as [[? ->]|(?&?&c'&?&?&->&?&_)];
    unfold dec_nonneg; apply Z.leb_le; lia.
Qed.

Lemma dec_fix_at_fits c e : 0 ≤ c → fits_at p (dec_fix_at p c e) = true.
Proof.
  intros Hc. destruct (dec_fix_at_shape c e Hc) as [[? ->]|(?&?&c'&?&?&->&?&_)];
    unfold fits_at; apply Z.ltb_lt; lia.
Qed.

(** Rounding is monotone against numbers that fit the precision. *)
Lemma dec_fix_at_lower x c e :
  0 ≤ c → fits_at p x = true → dec_leb x (Finite c e) = true → dec_leb x (dec_fix_at p c e) = true.
Proof.
  intros Hc Hx Hle. destruct (dec_fix_at_shape c e Hc) as [[_ ->]|(k&q&c'&e'&Hk&->&Hc'&He'&Hq&Hr&Hlo&_)];
    [done|]. destruct x as [cx ex|]; [|done]. apply Z.ltb_lt in Hx.
  set (m := Z.min ex e).
  apply (dec_leb_units _ _ _ _ m) in Hle; [|lia..]. apply (dec_leb_units _ _ _ _ m); [lia..|].
  rewrite (units_shift c' e' (e + k) m), Hq by lia.
  pose proof (round_half_even_bounds c k) as [Hb _]. rewrite <- Hr in Hb.
  assert (0 < 10 ^ (e + k - m)) as Hp by (apply pow10_pos; lia).
  enough (units cx ex m ≤ c / 10 ^ k * 10 ^ (e + k - m)) by nia.
  destruct (Z.le_gt_cases (e + k) ex) as [Hex|Hex].
  - (* x is a multiple of the coarse unit *)
    rewrite (units_shift cx ex (e + k) m) by lia. apply Z.mul_le_mono_nonneg_r; [lia|].
    apply Z.div_le_lower_bound; [auto with nexa lia|].
    apply (units_le _ _ _ _ e m) in Hle; [|lia..].
    rewrite (units_shift cx ex (e + k) e) in Hle by lia.
    replace (e + k - e) with k in Hle by lia.
    unfold units in Hle at 2. rewrite Z.sub_diag, Z.mul_1_r in Hle. lia.
  - (* x is below the smallest such coefficient of the coarse unit *)
    etrans; [|apply Z.mul_le_mono_nonneg_r; [lia|exact Hlo]].
    replace (e + k - m) with ((e + k - ex - 1) + (1 + (ex - m))) by lia.
    rewrite !pow10_add by lia. unfold units.
    rewrite pow10_pred in Hx.
    pose proof (pow10_pos (ex - m) ltac:(lia)). pose proof (pow10_pos (e + k - ex - 1) ltac:(lia)).
    pose proof pow10_pred_lt.
    set (P := 10 ^ (p - 1)) in *. set (A := 10 ^ (ex - m)) in *.
    set (B := 10 ^ (e + k - ex - 1)) in *.
    assert (cx * A ≤ P * 10 * A) by nia. assert (P * 10 * A ≤ P * (B * (10 * A))) by nia.
    change (10 ^ 1) with 10. lia.
Qed.

Lemma dec_fix_at_upper x c e :
  0 ≤ c → fits_at p x = true → dec_leb (Finite c e) x = true → dec_leb (dec_fix_at p c e) x = true.
Proof.
  intros Hc Hx Hle. destruct (dec_fix_at_shape c e Hc) as [[_ ->]|(k&q&c'&e'&Hk&->&Hc'&He'&Hq&Hr&Hlo&_)];
    [done|]. destruct x as [cx ex|]; [|done]. apply Z.ltb_lt in Hx.
  set (m := Z.min ex e).
  apply (dec_leb_units _ _ _ _ m) in Hle; [|lia..]. apply (dec_leb_units _ _ _ _ m); [lia..|].
  rewrite (units_shift c' e' (e + k) m), Hq by lia.
  assert (0 < 10 ^ (e + k - m)) as Hp by (apply pow10_pos; lia).
  destruct (Z.le_gt_cases (e + k) ex) as [Hex|Hex].
  - rewrite (units_shift cx ex (e + k) m) by lia. apply Z.mul_le_mono_nonneg_r; [lia|].
    rewrite Hr. apply round_half_even_upper; [lia|].
    apply (units_le _ _ _ _ e m) in Hle; [|lia..].
    rewrite (units_shift cx ex (e + k) e) in Hle by lia.
    replace (e + k - e) with k in Hle by lia.
    unfold units in Hle at 1. rewrite Z.sub_diag, Z.mul_1_r in Hle. lia.
  - (* impossible: such an x is below the unrounded value *)
    exfalso. apply (units_le _ _ _ _ m m) in Hle; [|lia..].
    assert (10 ^ (p - 1) * 10 ^ k ≤ c) as Hc2.
    { pose proof (Z.mul_div_le c (10 ^ k) (pow10_pos k ltac:(lia))).
      pose proof (pow10_pos k ltac:(lia)). nia. }
    unfold units in Hle. pose proof (pow10_pos (ex - m) ltac:(lia)) as HA.
    assert (10 ^ (e - m) * 10 ^ k = 10 ^ (e + k - ex - 1) * 10 * 10 ^ (ex - m)) as Hpow.
    { change (10 ^ (e + k - ex - 1) * 10) with (10 ^ (e + k - ex - 1) * 10 ^ 1).
      rewrite <- !pow10_add by lia. f_equal. lia. }
    pose proof (pow10_pos (e + k - ex - 1) ltac:(lia)).
    rewrite pow10_pred in Hx.
    pose proof pow10_pred_lt.
    pose proof (pow10_pos (e - m) ltac:(lia)).
    set (P := 10 ^ (p - 1)) in *. set (A := 10 ^ (ex - m)) in *.
    set (B := 10 ^ (e + k - ex - 1)) in *. set (E := 10 ^ (e - m)) in *. set (K := 10 ^ k) in *.
    assert (P * K * E ≤ c * E) by nia.
    assert (P * (B * 10 * A) ≤ cx * A) by nia.
    assert (cx * A < P * 10 * A) by nia. nia.
Qed.

(** Nothing is rounded while the digits fit. *)
Lemma dec_fix_at_exact c e : Z.abs c < 10 ^ p → dec_fix_at p c e = Finite c e.
Proof.
  intros Hc. unfold dec_fix_at. pose proof (ndigits_le (Z.abs c) p ltac:(lia) Hp1 Hc).
  by destruct (Z.leb_spec (ndigits (Z.abs c) - p) 0); [|lia].
Qed.
(** A quotient is not rounded below a number that fits the precision. *)
Lemma dec_div_at_lower c1 e1 c2 e2 k m :
  let shift := ndigits c2 - ndigits c1 + p + 1 in
  0 < c1 → 0 < c2 → 0 ≤ shift → e1 - e2 - shift ≤ m → fits_at p (Finite k m) = true →
  k * 10 ^ (m - (e1 - e2 - shift)) * c2 ≤ c1 * 10 ^ shift →
  dec_leb (Finite k m) (dec_div_at p (Finite c1 e1) (Finite c2 e2)) = true.
Proof.
  intros shift Hc1 Hc2 Hs Hm Hfit Hle. unfold dec_div_at.
  destruct (Z.eqb_spec c2 0); [lia|]. destruct (Z.eqb_spec c1 0); [lia|].
  rewrite !Z.sgn_pos, !Z.abs_eq, Z.mul_1_l by lia. fold shift. cbv zeta.
  destruct (Z.leb_spec 0 shift); [|lia]. set (E := e1 - e2 - shift) in *. set (q := c1 * 10 ^ shift / c2).
  pose proof (pow10_pos shift Hs).
  assert (k * 10 ^ (m - E) ≤ q) as Hq by (apply Z.div_le_lower_bound; lia).
  assert (0 ≤ q) as Hq0 by (apply Z.div_pos; nia).
  assert (∀ c e, 0 ≤ c → E ≤ e → q ≤ units c e E → dec_leb (Finite k m) (dec_fix_at p c e) = true) as Hfix.
  { intros c e Hc0 He Hc. apply dec_fix_at_lower; [done..|]. apply (dec_leb_units _ _ _ _ E); [lia..|].
    unfold units in *. lia. }
  destruct (_ =? 0).
  - destruct (strip_zeros _ _ _ _) as [q' e'] eqn:Hst. rewrite Z.mul_1_l.
    pose proof (strip_zeros_nonneg (Z.to_nat (e1 - e2 - E)) q E (e1 - e2) Hq0) as Hn. rewrite Hst in Hn.
    apply strip_zeros_value in Hst as [He Hv]. apply Hfix; [done|lia|lia].
  - rewrite Z.mul_1_l. apply Hfix; [destruct (_ =? 0); lia|lia|]. unfold units. rewrite Z.sub_diag. destruct (_ =? 0); lia.
Qed.
End at_precision.

Lemma dec_fix_finite c e : is_finite (dec_fix c e) = true.
Proof. apply dec_fix_at_finite. Qed.
Lemma dec_fix_nonneg c e : 0 ≤ c → dec_nonneg (dec_fix c e) = true.
Proof. by apply dec_fix_at_nonneg. Qed.
Lemma dec_fix_fits c e : 0 ≤ c → fits_prec (dec_fix c e) = true.
Proof. by apply dec_fix_at_fits. Qed.
Lemma dec_fix_lower x c e :
  0 ≤ c → fits_prec x = true → dec_leb x (Finite c e) = true → dec_leb x (dec_fix c e) = true.
Proof. by apply dec_fix_at_lower. Qed.
Lemma dec_fix_upper x c e :
  0 ≤ c → fits_prec x = true → dec_leb (Finite c e) x = true → dec_leb (dec_fix c e) x = true.
Proof. by apply dec_fix_at_upper. Qed.

(** ** Operations on non-negative decimals *)

Lemma dec_add_nonneg a b :
  dec_nonneg a = true → dec_nonneg b = true → dec_nonneg (dec_add a b) = true.
Proof.
  destruct a as [c1 e1|], b as [c2 e2|]; try done. unfold dec_nonneg at 1 2.
  rewrite !Z.leb_le. intros. apply dec_fix_nonneg.
  pose proof (pow10_pos (e1 - Z.min e1 e2) ltac:(lia)).
  pose proof (pow10_pos (e2 - Z.min e1 e2) ltac:(lia)). nia.
Qed.

Lemma dec_add_fits a b :
  dec_nonneg a = true → dec_nonneg b = true → fits_prec (dec_add a b) = true.
Proof.
  destruct a as [c1 e1|], b as [c2 e2|]; try done. unfold dec_nonneg.
  rewrite !Z.leb_le. intros. apply dec_fix_fits.
  pose proof (pow10_pos (e1 - Z.min e1 e2) ltac:(lia)).
  pose proof (pow10_pos (e2 - Z.min e1 e2) ltac:(lia)). nia.
Qed.

(** Adding a charge never lowers a score that fits the precision. *)
Lemma dec_add_ge_l a b :
  dec_nonneg a = true → fits_prec a = true → dec_nonneg b = true →
  dec_leb a (dec_add a b) = true.
Proof.
  destruct a as [c1 e1|], b as [c2 e2|]; try done. unfold dec_nonneg.
  rewrite !Z.leb_le. intros Ha Hf Hb. set (m := Z.min e1 e2).
  pose proof (pow10_pos (e1 - m) ltac:(lia)). pose proof (pow10_pos (e2 - m) ltac:(lia)).
  apply dec_fix_lower; [fold m; nia|done|]. fold m.
  apply (dec_leb_units _ _ _ _ m); [lia..|]. unfold units. rewrite Z.sub_diag. nia.
Qed.

Lemma dec_mul_nonneg a b :
  dec_nonneg a = true → dec_nonneg b = true → dec_nonneg (dec_mul a b) = true.
Proof.
  destruct a as [c1 e1|], b as [c2 e2|]; try done. unfold dec_nonneg at 1 2.
  rewrite !Z.leb_le. intros. apply dec_fix_nonneg. nia.
Qed.

Definition dec_pos (d : decimal) : bool :=
  match d with Finite c _ => 0 <? c | Special => false end.

Lemma dec_pos_ltb d : is_finite d = true → dec_ltb dec_zero d = dec_pos d.
Proof.
  destruct d as [c e|]; [|done]. intros _. unfold dec_ltb, dec_zero, dec_of_Z, dec_pos.
  rewrite Z.mul_0_l. pose proof (pow10_pos (e - Z.min 0 e) ltac:(lia)).
  apply eq_true_iff_eq. rewrite !Z.ltb_lt. nia.
Qed.

Lemma dec_div_nonneg a b :
  dec_nonneg a = true → dec_pos b = true → dec_nonneg (dec_div a b) = true.
Proof.
  destruct a as [c1 e1|], b as [c2 e2|]; try done. unfold dec_nonneg at 1, dec_pos.
  rewrite Z.leb_le, Z.ltb_lt. intros Ha Hb. unfold dec_div_at.
  destruct (Z.eqb_spec c2 0); [lia|]. destruct (Z.eqb_spec c1 0); [done|].
  rewrite !Z.sgn_pos, Z.mul_1_l, !Z.abs_eq by lia.
  set (sh := ndigits c2 - ndigits c1 + prec + 1). cbv zeta.
  set (num := if 0 <=? sh then c1 * 10 ^ sh else c1).
  set (den := if 0 <=? sh then c2 else c2 * 10 ^ (- sh)).
  assert (0 ≤ num / den) as Hq.
  { unfold num, den. destruct (Z.leb_spec 0 sh).
    - apply Z.div_pos; [pose proof (pow10_pos sh ltac:(lia)); nia|lia].
    - apply Z.div_pos; [lia|]. pose proof (pow10_pos (- sh) ltac:(lia)). nia. }
  destruct (num mod den =? 0).
  - destruct (strip_zeros _ _ _ _) as [q' e'] eqn:Hs. apply dec_fix_nonneg.
    pose proof (strip_zeros_nonneg (Z.to_nat (e1 - e2 - (e1 - e2 - sh))) (num / den)
                  (e1 - e2 - sh) (e1 - e2) Hq) as H. rewrite Hs in H. simpl in H. lia.
  - apply dec_fix_nonneg. destruct (_ =? 0); lia.
Qed.

Lemma dec_div_finite a b :
  is_finite a = true → dec_pos b = true → is_finite (dec_div a b) = true.
Proof.
  destruct a as [c1 e1|], b as [c2 e2|]; try done. unfold dec_pos. rewrite Z.ltb_lt. intros _ Hb.
  unfold dec_div_at. destruct (Z.eqb_spec c2 0); [lia|]. cbv zeta.
  repeat case_match; try done; apply dec_fix_finite.
Qed.

(** A share of at most the whole is at most one, after rounding too. *)
Lemma dec_div_int_le_one u a :
  0 ≤ u ≤ a → 0 < a → dec_leb (dec_div (dec_of_Z u) (dec_of_Z a)) (dec_of_Z 1) = true.
Proof.
  intros [Hu Hle] Ha. unfold dec_of_Z, dec_div_at.
  destruct (Z.eqb_spec a 0); [lia|]. destruct (Z.eqb_spec u 0); [done|].
  rewrite !Z.sgn_pos, Z.mul_1_l, !Z.abs_eq by lia.
  pose proof (ndigits_mono u a ltac:(lia) Hle) as Hd.
  set (sh := ndigits a - ndigits u + prec + 1). assert (0 < sh) by (unfold sh, prec; lia).
  cbv zeta. destruct (Z.leb_spec 0 sh); [|lia].
  pose proof (pow10_pos sh ltac:(lia)) as Hp.
  assert (0 ≤ u * 10 ^ sh / a ≤ 10 ^ sh) as [Hq0 Hq].
  { split; [apply Z.div_pos; nia|]. apply Z.div_le_upper_bound; nia. }
  assert (∀ q, q ≤ 10 ^ sh → dec_leb (Finite q (0 - 0 - sh)) (Finite 1 0) = true) as Hone.
  { intros q Hq'. apply (dec_leb_units _ _ _ _ (- sh)); [lia..|]. unfold units.
    replace (0 - 0 - sh - - sh) with 0 by lia. replace (0 - - sh) with sh by lia. lia. }
  destruct (Z.eqb_spec (u * 10 ^ sh mod a) 0) as [Hr|Hr].
  - destruct (strip_zeros _ _ _ _) as [q' e'] eqn:Hs.
    pose proof (strip_zeros_nonneg (Z.to_nat (0 - 0 - (0 - 0 - sh))) _ (0 - 0 - sh) (0 - 0) Hq0) as Hq'.
    rewrite Hs in Hq'. simpl in Hq'. apply strip_zeros_value in Hs as [He Hv].
    apply dec_fix_upper; [lia|done|]. rewrite Z.mul_1_l.
    apply (dec_leb_units _ _ _ _ (- sh)); [lia..|].
    replace (- sh) with (0 - 0 - sh) by lia. rewrite Hv. unfold units.
    replace (0 - (0 - 0 - sh)) with sh by lia. lia.
  - assert (u * 10 ^ sh / a < 10 ^ sh) as Hlt.
    { pose proof (Z.div_mod (u * 10 ^ sh) a ltac:(lia)).
      pose proof (Z.mod_pos_bound (u * 10 ^ sh) a Ha). nia. }
    rewrite Z.mul_1_l. apply dec_fix_upper; [destruct (_ =? 0); lia|done|].
    apply Hone. destruct (_ =? 0); lia.
Qed.

#[export] Hint Resolve dec_add_nonneg dec_mul_nonneg dec_div_nonneg dec_nonneg_finite
  dec_leb_refl dec_add_fits dec_max_l dec_max_r : nexa.

Example dec_div_third :
  dec_div (dec_of_Z 1) (dec_of_Z 3) = Finite 33333333333333333333333333333333333333333333333333 (-50).
Proof. reflexivity. Qed.

Example dec_div_exact : dec_div (dec_of_Z 1) (dec_of_Z 8) = Finite 125 (-3).
Proof. reflexivity. Qed.

Example dec_add_halfway :
  dec_add (dec_of_Z (10 ^ 50 + 5)) (dec_of_Z 0) = Finite (10 ^ 49) 1.
Proof. vm_compute. reflexivity. Qed.
