(* ===== verification/Scheduling.v ===== *)
(** * The scheduling domain

    The value types of [src/nexa/domain/scheduling.py]: resources, candidates,
    windows, the snapshot the policy reads, the decisions it takes and the
    errors it reports.  [ResourceCapacity] and [ResourceRequest] have the same
    three fields and are used interchangeably by the arithmetic helpers, so one
    record models both. *)

From S2P Require Import Prelude PyDecimal.

Local Open Scope string_scope.
Local Open Scope list_scope.
Local Open Scope Z_scope.

Record Resources := {
  cpu_millis : Z;
  memory_bytes : Z;
  gpu_count : Z;
}.

Inductive AllocationState := HELD | QUARANTINED.

Record HeldAllocation := {
  ha_allocation_id : string;
  ha_tenant_id : string;
  ha_resources : Resources;
  ha_gpu_uuids : list string;
  ha_state : AllocationState;
}.

Record TenantLedger := {
  tl_tenant_id : string;
  virtual_score : decimal;
  accounted_through_ms : Z;
  had_eligible_demand : bool;
}.

Record TenantPolicySnapshot := {
  tp_tenant_id : string;
  weight : decimal;
  resource_quota : Resources;
  max_active_attempts : Z;
  max_user_active_attempts : Z;
  artifact_quota_available : bool;
}.

Inductive CandidateState := QUEUED | CANCELLED.

Record Candidate := {
  job_id : string;
  tenant_id : string;
  user_id : string;
  job_version : Z;
  ready_sequence : Z;
  resources : Resources;
  base_priority : Z;
  eligible_wait_seconds : Z;
  retry_ready_at_ms : Z;
  template_version : Z;
  required_capabilities : gset string;
  tenant_active_attempts : Z;
  user_active_attempts : Z;
  state : CandidateState;
  template_compatible : bool;
  capabilities_compatible : bool;
  policy_compatible : bool;
}.

Record CandidateWindow := {
  normal : list Candidate;
  oldest_eligible : option Candidate;
  continuation_cursor : option string;
}.

Record ReservationSnapshot := {
  rs_reservation_id : string;
  rs_job_id : string;
  rs_tenant_id : string;
  rs_policy_version : Z;
  rs_invalid_reason : option string;
}.

Record SchedulingSnapshot := {
  policy_version : Z;
  allocatable_capacity : Resources;
  held_allocations : list HeldAllocation;
  tenant_ledgers : list TenantLedger;
  tenant_limits : list TenantPolicySnapshot;
  candidates_by_tenant : list (string * CandidateWindow);
  active_reservation : option ReservationSnapshot;
  virtual_floor : decimal;
}.

(** [Dispatch], [CreateReservation], [DrainForReservation],
    [InvalidateReservation] and [NoDecision]. *)
Inductive SchedulingDecision :=
| Dispatch (job_id : string) (expected_job_version expected_policy_version : Z)
    (reservation_id : option string)
| CreateReservation (job_id tenant_id reason : string)
| DrainForReservation (reservation_id job_id : string)
| InvalidateReservation (reservation_id reason : string)
| NoDecision (reason : string) (continuation_cursors : list (string * string)).

Inductive PolicyError :=
| InvalidSnapshot (reason : string)
| AccountingRegression (tenant_id : string) (accounted_through_ms now_ms : Z)
| DuplicateGpuUuid (gpu_uuid : string)
| NonPositiveWeight (tenant_id : string) (weight : decimal)
| CandidateBoundExceeded (tenant_id : string) (count : Z).

(** How a policy function ends when it does not produce a value: it returns
    [Err(error)], or a Python exception escapes ([KeyError] on a missing key).
    [Ok(value)] is [Ret value]. *)
Inductive Fault :=
| Err (error : PolicyError)
| Crash (e : exn).

Definition KeyError : Fault := Crash (Exn "KeyError" "").

#[export] Instance Resources_eq_dec : EqDecision Resources.
Proof. solve_decision. Defined.
#[export] Instance AllocationState_eq_dec : EqDecision AllocationState.
Proof. solve_decision. Defined.
#[export] Instance CandidateState_eq_dec : EqDecision CandidateState.
Proof. solve_decision. Defined.
#[export] Instance Candidate_eq_dec : EqDecision Candidate.
Proof. solve_decision. Defined.
#[export] Instance SchedulingDecision_eq_dec : EqDecision SchedulingDecision.
Proof. solve_decision. Defined.
#[export] Instance PolicyError_eq_dec : EqDecision PolicyError.
Proof. solve_decision. Defined.

(** ** Sums and bounds of resource vectors *)

Definition res_zero : Resources := {| cpu_millis := 0; memory_bytes := 0; gpu_count := 0 |}.
Definition res_add (l r : Resources) : Resources :=
  {| cpu_millis := cpu_millis l + cpu_millis r;
     memory_bytes := memory_bytes l + memory_bytes r;
     gpu_count := gpu_count l + gpu_count r |}.

(** Componentwise order, the specification of the [_fits] tests. *)
Definition res_le (l r : Resources) : Prop :=
  cpu_millis l ≤ cpu_millis r ∧ memory_bytes l ≤ memory_bytes r ∧ gpu_count l ≤ gpu_count r.

Definition res_sum (l : list Resources) : Resources := foldr res_add res_zero l.

Lemma res_ext l r :
  cpu_millis l = cpu_millis r → memory_bytes l = memory_bytes r → gpu_count l = gpu_count r → l = r.
Proof. destruct l, r; simpl; naive_solver. Qed.

Lemma res_add_comm l r : res_add l r = res_add r l.
Proof. apply res_ext; simpl; lia. Qed.

Lemma res_add_assoc a b c : res_add a (res_add b c) = res_add (res_add a b) c.
Proof. apply res_ext; simpl; lia. Qed.

Lemma res_add_zero_l r : res_add res_zero r = r.
Proof. by apply res_ext. Qed.

Lemma res_add_zero_r r : res_add r res_zero = r.
Proof. apply res_ext; simpl; lia. Qed.

#[export] Instance res_le_preorder : PreOrder res_le.
Proof. split; [intros x|intros x y z]; unfold res_le; intuition lia. Qed.

#[export] Instance res_add_proper : Proper (res_le ==> res_le ==> res_le) res_add.
Proof. intros a b Hab c d Hcd. unfold res_le in *. simpl. lia. Qed.

Lemma res_sum_cons x l : res_sum (x :: l) = res_add x (res_sum l).
Proof. done. Qed.

Lemma res_sum_app l r : res_sum (l ++ r) = res_add (res_sum l) (res_sum r).
Proof.
  induction l as [|x l IH]; simpl; [by rewrite res_add_zero_l|].
  by rewrite IH, res_add_assoc.
Qed.

#[export] Instance res_sum_perm : Proper ((≡ₚ) ==> (=)) res_sum.
Proof.
  intros l r H. induction H as [|x l r _ IH|x y l|]; simpl; [done|by rewrite IH| |congruence].
  by rewrite !res_add_assoc, (res_add_comm y x).
Qed.

#[export] Hint Rewrite res_add_zero_l res_add_zero_r : nexa.

(** A snapshot to evaluate the policy on: tenant [a] holds half the machine,
    tenant [b] nothing, and both have one runnable candidate. *)
Definition sample_candidate (j t : string) (sequence wait cpu : Z) : Candidate :=
  {| job_id := j; tenant_id := t; user_id := "u"; job_version := 1; ready_sequence := sequence;
     resources := {| cpu_millis := cpu; memory_bytes := 100; gpu_count := 0 |};
     base_priority := 0; eligible_wait_seconds := wait; retry_ready_at_ms := 0;
     template_version := 1; required_capabilities := ∅; tenant_active_attempts := 0;
     user_active_attempts := 0; state := QUEUED; template_compatible := true;
     capabilities_compatible := true; policy_compatible := true |}.

Definition sample_window (c : Candidate) : CandidateWindow :=
  {| normal := [c]; oldest_eligible := Some c; continuation_cursor := None |}.

Definition sample_snapshot (wait cpu : Z) (reservation : option ReservationSnapshot)
    : SchedulingSnapshot :=
  let whole := {| cpu_millis := 4000; memory_bytes := 1000; gpu_count := 1 |} in
  let limit t := {| tp_tenant_id := t; weight := dec_of_Z 1; resource_quota := whole;
                    max_active_attempts := 4; max_user_active_attempts := 2;
                    artifact_quota_available := true |} in
  let ledger t score := {| tl_tenant_id := t; virtual_score := dec_of_Z score;
                           accounted_through_ms := 0; had_eligible_demand := true |} in
  {| policy_version := 1; allocatable_capacity := whole;
     held_allocations := [{| ha_allocation_id := "x"; ha_tenant_id := "a";
       ha_resources := {| cpu_millis := 2000; memory_bytes := 100; gpu_count := 1 |};
       ha_gpu_uuids := ["gpu-0"]; ha_state := HELD |}];
     tenant_ledgers := [ledger "a" 0; ledger "b" 0];
     tenant_limits := [limit "a"; limit "b"];
     candidates_by_tenant := [("a", sample_window (sample_candidate "ja" "a" 1 wait cpu));
                              ("b", sample_window (sample_candidate "jb" "b" 2 wait cpu))];
     active_reservation := reservation; virtual_floor := dec_zero |}.

Definition sample_reservation : ReservationSnapshot :=
  {| rs_reservation_id := "r"; rs_job_id := "jb"; rs_tenant_id := "b";
     rs_policy_version := 1; rs_invalid_reason := None |}.
