(* ===== verification/Accounting.v ===== *)
(** * Weighted dominant resource-time accounting

    [src/nexa/scheduler/accounting.py]: the eligibility rules of a candidate,
    the validation of a snapshot and [advance_accounting], which charges every
    tenant for the dominant share it held since its ledger was last accounted,
    lifts tenants that return with demand to the virtual floor, and advances
    the floor. *)

From S2P Require Import Prelude PyDecimal Scheduling.

Local Open Scope string_scope.
Local Open Scope list_scope.
Local Open Scope Z_scope.

Record AccountingState := {
  as_tenant_ledgers : list TenantLedger;
  as_virtual_floor : decimal;
  held_resources_by_tenant : list (string * Resources);
  dominant_shares : list (string * decimal);
  eligible_tenant_ids : list string;
}.

Definition _zero_resources : Resources :=
  {| cpu_millis := 0; memory_bytes := 0; gpu_count := 0 |}.

Definition _add_resources (left right : Resources) : Resources :=
  {| cpu_millis := cpu_millis left + cpu_millis right;
     memory_bytes := memory_bytes left + memory_bytes right;
     gpu_count := gpu_count left + gpu_count right |}.

Definition _fits (request capacity : Resources) : bool :=
  (cpu_millis request <=? cpu_millis capacity)
  && (memory_bytes request <=? memory_bytes capacity)
  && (gpu_count request <=? gpu_count capacity).

(** [max(shares, default=Decimal(0))] over the axes with capacity. *)
Definition _dominant_share (resources capacity : Resources) : decimal :=
  let shares :=
    (λ '(used, available), dec_div (dec_of_Z used) (dec_of_Z available)) <$>
    List.filter (λ '(_, available), 0 <? available)
      [ (cpu_millis resources, cpu_millis capacity);
        (memory_bytes resources, memory_bytes capacity);
        (gpu_count resources, gpu_count capacity) ] in
  match shares with
  | [] => dec_zero
  | share :: shares => foldl dec_max share shares
  end.

Definition candidate_ineligibility_reason (candidate : Candidate) (now_ms : Z)
    (capacity held : Resources) (limits : TenantPolicySnapshot) : option string :=
  if bool_decide (state candidate ≠ QUEUED) then Some "cancelled"
  else if now_ms <? retry_ready_at_ms candidate then Some "retry_not_ready"
  else if negb (template_compatible candidate) then Some "template_incompatible"
  else if negb (capabilities_compatible candidate) then Some "capability_incompatible"
  else if negb (policy_compatible candidate) then Some "policy_incompatible"
  else if negb (artifact_quota_available limits) then Some "artifact_quota_exhausted"
  else if negb (_fits (resources candidate) capacity) then Some "request_exceeds_capacity"
  else if negb (_fits (_add_resources held (resources candidate)) (resource_quota limits))
  then Some "request_exceeds_quota"
  else if max_active_attempts limits <=? tenant_active_attempts candidate
  then Some "tenant_concurrency"
  else if max_user_active_attempts limits <=? user_active_attempts candidate
  then Some "user_concurrency"
  else None.

Definition _invalid_resource_capacity (capacity : Resources) : bool :=
  (cpu_millis capacity <? 0) || (memory_bytes capacity <? 0) || (gpu_count capacity <? 0).

Definition _invalid_request (request : Resources) : bool :=
  (cpu_millis request <=? 0) || (memory_bytes request <=? 0)
  || negb ((gpu_count request =? 0) || (gpu_count request =? 1)).

Definition invalid (reason : string) : Fault := Err (InvalidSnapshot reason).

Definition check_ledger (_ : ()) (item : string * TenantLedger) : outcome Fault () :=
  let '(tenant_id, ledger) := item in
  raise_when (negb (is_finite (virtual_score ledger))
              || dec_ltb (virtual_score ledger) dec_zero)
    (invalid ("tenant " +:+ tenant_id +:+ " virtual_score must be finite and non-negative"));;
  raise_when (accounted_through_ms ledger <? 0)
    (invalid ("tenant " +:+ tenant_id +:+ " accounted_through_ms must be non-negative")).

Definition check_limit (_ : ()) (item : string * TenantPolicySnapshot) : outcome Fault () :=
  let '(tenant_id, limit) := item in
  raise_when (negb (is_finite (weight limit)) || dec_leb (weight limit) dec_zero)
    (Err (NonPositiveWeight tenant_id (weight limit)));;
  raise_when (_invalid_resource_capacity (resource_quota limit))
    (invalid ("tenant " +:+ tenant_id +:+ " quota must be non-negative"));;
  raise_when ((max_active_attempts limit <=? 0) || (max_user_active_attempts limit <=? 0))
    (invalid ("tenant " +:+ tenant_id +:+ " concurrency limits must be positive")).

(** Accumulator of the loop over held allocations. *)
Record Aggregate := {
  agg_held : list (string * Resources);
  agg_total : Resources;
  agg_gpus : gset string;
}.

Definition see_gpu (seen : gset string) (gpu_uuid : string) : outcome Fault (gset string) :=
  raise_when (bool_decide (gpu_uuid ∈ seen)) (Err (DuplicateGpuUuid gpu_uuid));;
  Ret ({[gpu_uuid]} ∪ seen).

Definition aggregate_allocation (acc : Aggregate) (allocation : HeldAllocation)
    : outcome Fault Aggregate :=
  raise_when (negb (dict_mem (ha_tenant_id allocation) (agg_held acc)))
    (invalid "held allocation references an unknown tenant");;
  raise_when (_invalid_request (ha_resources allocation))
    (invalid "held allocation contains an invalid resource vector");;
  raise_when (negb (Z.of_nat (length (ha_gpu_uuids allocation))
                    =? gpu_count (ha_resources allocation)))
    (invalid "held allocation GPU UUID count does not match request");;
  seen ← for_each (ha_gpu_uuids allocation) see_gpu (agg_gpus acc);
  old ← or_raise (dict_get (ha_tenant_id allocation) (agg_held acc)) KeyError;
  Ret {| agg_held := dict_set (ha_tenant_id allocation)
                       (_add_resources old (ha_resources allocation)) (agg_held acc);
         agg_total := _add_resources (agg_total acc) (ha_resources allocation);
         agg_gpus := seen |}.

Definition check_held_quota (limits : list (string * TenantPolicySnapshot)) (_ : ())
    (item : string * Resources) : outcome Fault () :=
  let '(tenant_id, resources) := item in
  limit ← or_raise (dict_get tenant_id limits) KeyError;
  raise_when (negb (_fits resources (resource_quota limit)))
    (invalid ("tenant " +:+ tenant_id +:+ " held resources exceed quota")).

Record Validated := {
  v_ledgers : list (string * TenantLedger);
  v_limits : list (string * TenantPolicySnapshot);
  v_held : list (string * Resources);
}.

Definition _validate_and_aggregate (snapshot : SchedulingSnapshot) : outcome Fault Validated :=
  raise_when (policy_version snapshot <=? 0) (invalid "policy_version must be positive");;
  raise_when (negb (is_finite (virtual_floor snapshot))
              || dec_ltb (virtual_floor snapshot) dec_zero)
    (invalid "virtual_floor must be finite and non-negative");;
  raise_when (_invalid_resource_capacity (allocatable_capacity snapshot))
    (invalid "allocatable capacity must be non-negative");;
  let ledgers := dict_of ((λ ledger, (tl_tenant_id ledger, ledger)) <$> tenant_ledgers snapshot) in
  let limits := dict_of ((λ limit, (tp_tenant_id limit, limit)) <$> tenant_limits snapshot) in
  raise_when (negb (length ledgers =? length (tenant_ledgers snapshot))%nat)
    (invalid "tenant ledgers contain duplicate tenant IDs");;
  raise_when (negb (length limits =? length (tenant_limits snapshot))%nat)
    (invalid "tenant limits contain duplicate tenant IDs");;
  raise_when (bool_decide ((list_to_set ledgers.*1 : gset string) ≠ list_to_set limits.*1))
    (invalid "tenant ledger and limit sets differ");;
  for_each ledgers check_ledger ();;
  for_each limits check_limit ();;
  acc ← for_each (held_allocations snapshot) aggregate_allocation
    {| agg_held := (λ '(tenant_id, _), (tenant_id, _zero_resources)) <$> ledgers;
       agg_total := _zero_resources;
       agg_gpus := ∅ |};
  raise_when (negb (_fits (agg_total acc) (allocatable_capacity snapshot)))
    (invalid "held allocations exceed allocatable capacity");;
  for_each (agg_held acc) (check_held_quota limits) ();;
  Ret {| v_ledgers := ledgers; v_limits := limits; v_held := agg_held acc |}.

(** [dominant_share * Decimal(elapsed_ms) / Decimal(1000) / weight]. *)
Definition charge_of (share : decimal) (elapsed_ms : Z) (w : decimal) : decimal :=
  dec_div (dec_div (dec_mul share (dec_of_Z elapsed_ms)) (dec_of_Z 1000)) w.

Definition charge_ledger (now_ms : Z) (shares : list (string * decimal))
    (limits : list (string * TenantPolicySnapshot))
    (updated : list (string * TenantLedger)) (item : string * TenantLedger)
    : outcome Fault (list (string * TenantLedger)) :=
  let '(tenant_id, ledger) := item in
  raise_when (now_ms <? accounted_through_ms ledger)
    (Err (AccountingRegression tenant_id (accounted_through_ms ledger) now_ms));;
  let elapsed_ms := now_ms - accounted_through_ms ledger in
  share ← or_raise (dict_get tenant_id shares) KeyError;
  limit ← or_raise (dict_get tenant_id limits) KeyError;
  let charge := charge_of share elapsed_ms (weight limit) in
  Ret (dict_set tenant_id
    {| tl_tenant_id := tl_tenant_id ledger;
       virtual_score := dec_add (virtual_score ledger) charge;
       accounted_through_ms := now_ms;
       had_eligible_demand := had_eligible_demand ledger |} updated).

Definition collect_window (limits : list (string * TenantPolicySnapshot))
    (windows : list (string * CandidateWindow)) (item : string * CandidateWindow)
    : outcome Fault (list (string * CandidateWindow)) :=
  let '(tenant_id, window) := item in
  raise_when (dict_mem tenant_id windows)
    (invalid "candidate windows contain duplicate tenant IDs");;
  raise_when (negb (dict_mem tenant_id limits))
    (invalid "candidate window references an unknown tenant");;
  Ret (dict_set tenant_id window windows).

(** The candidates of a window by job ID: the normal ones, then the oldest. *)
Definition unique_candidates (window : CandidateWindow) : list (string * Candidate) :=
  dict_of ((λ c, (job_id c, c)) <$> normal window ++ option_list (oldest_eligible window)).

(** The eligibility test of one candidate, with the dict lookups it makes. *)
Definition eligible (now_ms : Z) (capacity : Resources) (held : list (string * Resources))
    (limits : list (string * TenantPolicySnapshot)) (tenant_id : string) (candidate : Candidate)
    : outcome Fault bool :=
  h ← or_raise (dict_get tenant_id held) KeyError;
  l ← or_raise (dict_get tenant_id limits) KeyError;
  Ret (bool_decide (candidate_ineligibility_reason candidate now_ms capacity h l = None)).

Definition collect_eligible (now_ms : Z) (capacity : Resources)
    (held : list (string * Resources)) (limits : list (string * TenantPolicySnapshot))
    (eligible_tenants : list string) (item : string * CandidateWindow)
    : outcome Fault (list string) :=
  let '(tenant_id, window) := item in
  some ← anyM (eligible now_ms capacity held limits tenant_id) (unique_candidates window).*2;
  Ret (if (some : bool) then eligible_tenants ++ [tenant_id] else eligible_tenants).

(** Demand transition: a tenant that comes back with demand starts at the floor. *)
Definition demand_transition (floor : decimal) (eligible_tenants : list string)
    (tenant_id : string) (ledger : TenantLedger) : TenantLedger :=
  let has_demand := bool_decide (tenant_id ∈ eligible_tenants) in
  {| tl_tenant_id := tl_tenant_id ledger;
     virtual_score :=
       if has_demand && negb (had_eligible_demand ledger)
       then dec_max (virtual_score ledger) floor else virtual_score ledger;
     accounted_through_ms := accounted_through_ms ledger;
     had_eligible_demand := has_demand |}.

(** [min(updated[t].virtual_score for t in eligible_tenants)], nonempty. *)
Definition min_score (scores : list decimal) : option decimal :=
  match scores with
  | [] => None
  | score :: scores => Some (foldl dec_min score scores)
  end.

Definition advance_accounting (snapshot : SchedulingSnapshot) (now_ms : Z)
    : outcome Fault AccountingState :=
  raise_when (now_ms <? 0) (invalid "now_ms must be a non-negative integer");;
  validated ← _validate_and_aggregate snapshot;
  let ledgers := v_ledgers validated in
  let limits := v_limits validated in
  let held := v_held validated in
  let capacity := allocatable_capacity snapshot in
  let shares := (λ item, (item.1, _dominant_share item.2 capacity)) <$> held in
  updated ← for_each ledgers (charge_ledger now_ms shares limits) [];
  windows ← for_each (candidates_by_tenant snapshot) (collect_window limits) [];
  eligible_tenants ← for_each windows (collect_eligible now_ms capacity held limits) [];
  let updated :=
    (λ item, (item.1, demand_transition (virtual_floor snapshot) eligible_tenants item.1 item.2))
    <$> updated in
  scores ← mapM (λ t, virtual_score <$> or_raise (dict_get t updated) KeyError) eligible_tenants;
  let floor :=
    match min_score scores with
    | Some score => dec_max (virtual_floor snapshot) score
    | None => virtual_floor snapshot
    end in
  let tenant_order := py_sorted String.leb updated.*1 in
  final ← mapM (λ t, or_raise (dict_get t updated) KeyError) tenant_order;
  held_out ← mapM (λ t, r ← or_raise (dict_get t held) KeyError; Ret (t, r)) tenant_order;
  shares_out ← mapM (λ t, d ← or_raise (dict_get t shares) KeyError; Ret (t, d)) tenant_order;
  Ret {| as_tenant_ledgers := final;
         as_virtual_floor := floor;
         held_resources_by_tenant := held_out;
         dominant_shares := shares_out;
         eligible_tenant_ids := py_sorted String.leb eligible_tenants |}.

(** ** What a validated snapshot guarantees *)

Definition request_ok (r : Resources) : Prop :=
  0 < cpu_millis r ∧ 0 < memory_bytes r ∧ (gpu_count r = 0 ∨ gpu_count r = 1).

(** Resources a tenant holds, as the specification counts them. *)
Definition held_by (t : string) (allocations : list HeldAllocation) : Resources :=
  res_sum (ha_resources <$> List.filter (λ a, bool_decide (ha_tenant_id a = t)) allocations).

Definition held_in_all (allocations : list HeldAllocation) : Resources :=
  res_sum (ha_resources <$> allocations).

Record snapshot_ok (s : SchedulingSnapshot) (v : Validated) : Prop := {
  so_ledgers : v_ledgers v = (λ l, (tl_tenant_id l, l)) <$> tenant_ledgers s;
  so_ledgers_nodup : NoDup (tl_tenant_id <$> tenant_ledgers s);
  so_limits : v_limits v = (λ p, (tp_tenant_id p, p)) <$> tenant_limits s;
  so_limits_nodup : NoDup (tp_tenant_id <$> tenant_limits s);
  so_same : ∀ t, t ∈ (v_ledgers v).*1 ↔ t ∈ (v_limits v).*1;
  so_floor : dec_nonneg (virtual_floor s) = true;
  so_capacity : res_le res_zero (allocatable_capacity s);
  so_score : ∀ l, l ∈ tenant_ledgers s →
    dec_nonneg (virtual_score l) = true ∧ 0 ≤ accounted_through_ms l;
  so_weight : ∀ p, p ∈ tenant_limits s →
    dec_pos (weight p) = true ∧ res_le res_zero (resource_quota p) ∧
    0 < max_active_attempts p ∧ 0 < max_user_active_attempts p;
  so_held_keys : (v_held v).*1 = (v_ledgers v).*1;
  so_held : ∀ t, t ∈ (v_held v).*1 → dict_get t (v_held v) = Some (held_by t (held_allocations s));
  so_requests : ∀ a, a ∈ held_allocations s → request_ok (ha_resources a);
  so_gpus : NoDup (held_allocations s ≫= ha_gpu_uuids);
  so_owners : ∀ a, a ∈ held_allocations s → ha_tenant_id a ∈ tl_tenant_id <$> tenant_ledgers s;
  so_total : res_le (held_in_all (held_allocations s)) (allocatable_capacity s);
  so_quota : ∀ t p, dict_get t (v_limits v) = Some p →
    res_le (held_by t (held_allocations s)) (resource_quota p);
}.

Lemma _fits_spec a b : _fits a b = true ↔ res_le a b.
Proof. unfold _fits, res_le. rewrite !andb_true_iff, !Z.leb_le. tauto. Qed.

Lemma _fits_false a b : _fits a b = false ↔ ¬ res_le a b.
Proof. rewrite <- _fits_spec. by destruct (_fits a b). Qed.

Lemma _invalid_request_spec r : _invalid_request r = false ↔ request_ok r.
Proof.
  unfold _invalid_request, request_ok.
  rewrite !orb_false_iff, negb_false_iff, orb_true_iff, !Z.leb_gt, !Z.eqb_eq. tauto.
Qed.

Lemma _invalid_resource_capacity_spec r :
  _invalid_resource_capacity r = false ↔ res_le res_zero r.
Proof.
  unfold _invalid_resource_capacity, res_le. rewrite !orb_false_iff, !Z.ltb_ge. simpl. tauto.
Qed.

Lemma nonneg_check d : negb (is_finite d) || dec_ltb d dec_zero = false → dec_nonneg d = true.
Proof.
  destruct d as [c e|]; [|done]. simpl. unfold dec_nonneg. rewrite Z.mul_0_l, Z.ltb_ge, Z.leb_le.
  pose proof (pow10_pos (e - Z.min e 0) ltac:(lia)). nia.
Qed.

Lemma positive_check d : negb (is_finite d) || dec_leb d dec_zero = false → dec_pos d = true.
Proof.
  intros H. apply orb_false_iff in H as [Hf Hl]. apply negb_false_iff in Hf.
  rewrite <- dec_pos_ltb, dec_ltb_negb, Hl by done. done.
Qed.

Lemma held_by_snoc t allocations a :
  held_by t (allocations ++ [a]) =
  if decide (ha_tenant_id a = t) then res_add (held_by t allocations) (ha_resources a)
  else held_by t allocations.
Proof.
  unfold held_by. rewrite List.filter_app, fmap_app, res_sum_app. simpl.
  case_bool_decide as Hd; simpl; rewrite ?res_add_zero_r.
  - by rewrite decide_True.
  - by rewrite decide_False.
Qed.

Lemma held_in_all_snoc allocations a :
  held_in_all (allocations ++ [a]) = res_add (held_in_all allocations) (ha_resources a).
Proof. unfold held_in_all. rewrite fmap_app, res_sum_app. simpl. by rewrite res_add_zero_r. Qed.

(** Every allocation belongs to one of the tenants, so the tenants' shares add
    up to the total. *)
Lemma held_by_partition ts allocations :
  NoDup ts → (∀ a, a ∈ allocations → ha_tenant_id a ∈ ts) →
  res_sum ((λ t, held_by t allocations) <$> ts) = held_in_all allocations.
Proof.
  intros Hnd. induction allocations as [|a l IH] using rev_ind; intros Hin.
  { clear. induction ts as [|t ts IH]; [done|]. by rewrite fmap_cons, res_sum_cons, IH. }
  rewrite held_in_all_snoc, <- IH by (intros; apply Hin; set_solver).
  specialize (Hin a ltac:(set_solver)). clear -Hin Hnd.
  induction ts as [|t ts IH]; [set_solver|]. apply NoDup_cons in Hnd as [Ht Hnd].
  rewrite !fmap_cons, !res_sum_cons, held_by_snoc. case_decide as Heq.
  - rewrite <- !res_add_assoc, (res_add_comm _ (ha_resources a)). do 3 f_equal.
    apply list_fmap_ext. intros i t' Hi. rewrite held_by_snoc, decide_False; [done|].
    intros Heq'. apply Ht. rewrite <- Heq, Heq'. by eapply list_elem_of_lookup_2.
  - rewrite IH by (done || set_solver). by rewrite res_add_assoc.
Qed.

Lemma see_gpus_ok uuids seen seen' :
  for_each uuids see_gpu seen = Ret seen' →
  NoDup uuids ∧ (∀ u, u ∈ uuids → u ∉ seen) ∧ ∀ u, u ∈ seen' ↔ u ∈ uuids ∨ u ∈ seen.
Proof.
  revert seen. induction uuids as [|u uuids IH]; simpl; intros seen Hf.
  { simplify_eq. split_and!; [constructor|set_solver|set_solver]. }
  apply bind_Ret in Hf as (s1 & H1 & H2). unfold see_gpu in H1.
  apply bind_Ret in H1 as ([] & H1 & [= <-]). apply raise_when_Ret in H1. bool_simpl.
  apply IH in H2 as (H2 & H3 & H4).
  split_and!; [apply NoDup_cons; split; [|done]; intros Hu; apply (H3 u Hu); set_solver| |].
  - intros w [->|Hw]%elem_of_cons; [done|]. specialize (H3 w Hw). set_solver.
  - intros w. rewrite H4. set_solver.
Qed.

(** The loop over held allocations keeps exact per-tenant and total sums and
    admits no GPU twice. *)
Definition aggregate_inv (tenants : list string) (pre : list HeldAllocation) (acc : Aggregate) : Prop :=
  (agg_held acc).*1 = tenants ∧
  (∀ t, t ∈ tenants → dict_get t (agg_held acc) = Some (held_by t pre)) ∧
  agg_total acc = held_in_all pre ∧
  (∀ a, a ∈ pre → request_ok (ha_resources a)) ∧
  NoDup (pre ≫= ha_gpu_uuids) ∧
  (∀ u, u ∈ agg_gpus acc ↔ u ∈ pre ≫= ha_gpu_uuids) ∧
  (∀ a, a ∈ pre → ha_tenant_id a ∈ tenants).

Lemma aggregate_step tenants pre a acc acc' :
  aggregate_inv tenants pre acc → aggregate_allocation acc a = Ret acc' →
  aggregate_inv tenants (pre ++ [a]) acc'.
Proof.
  intros (Hk & Hg & Ht & Hr & Hn & Hu & Ho) Ha. unfold aggregate_allocation in Ha.
  apply bind_Ret in Ha as ([] & H1 & Ha). apply raise_when_Ret in H1.
  apply bind_Ret in Ha as ([] & H2 & Ha). apply raise_when_Ret in H2.
  apply bind_Ret in Ha as ([] & H3 & Ha). apply raise_when_Ret in H3.
  apply bind_Ret in Ha as (seen & H4 & Ha). apply bind_Ret in Ha as (old & H5 & [= <-]).
  apply or_raise_Ret in H5. bool_simpl. apply _invalid_request_spec in H2.
  apply see_gpus_ok in H4 as (G1 & G2 & G3).
  assert (ha_tenant_id a ∈ tenants) as Hin by (rewrite <- Hk; done).
  assert (old = held_by (ha_tenant_id a) pre) as -> by (rewrite Hg in H5; naive_solver).
  unfold aggregate_inv; simpl. rewrite bind_app; simpl; rewrite app_nil_r. split_and!.
  - by rewrite dict_set_keys_old, Hk.
  - intros t Htt. rewrite dict_get_set, held_by_snoc.
    repeat case_decide; simplify_eq; auto.
  - by rewrite held_in_all_snoc, Ht.
  - intros b [Hb| ->%list_elem_of_singleton]%elem_of_app; auto.
  - apply NoDup_app. split_and!; [done| |done].
    intros u Hu1 Hu2. apply (G2 u Hu2). by apply Hu.
  - intros u. rewrite G3, Hu, elem_of_app. tauto.
  - intros b [Hb| ->%list_elem_of_singleton]%elem_of_app; auto.
Qed.

Lemma check_ledger_ok l t :
  check_ledger () (t, l) = Ret () →
  dec_nonneg (virtual_score l) = true ∧ 0 ≤ accounted_through_ms l.
Proof.
  simpl. intros H. peel H. apply raise_when_Ret in H. bool_simpl.
  split; [by apply nonneg_check, orb_false_iff; rewrite H0, H1|done].
Qed.

Lemma check_limit_ok p t :
  check_limit () (t, p) = Ret () →
  dec_pos (weight p) = true ∧ res_le res_zero (resource_quota p) ∧
  0 < max_active_attempts p ∧ 0 < max_user_active_attempts p.
Proof.
  simpl. intros H. peel H. apply raise_when_Ret in H. apply positive_check in Hc.
  apply _invalid_resource_capacity_spec in Hc0. bool_simpl. done.
Qed.

Lemma check_held_quota_ok limits t r p :
  dict_get t limits = Some p → check_held_quota limits () (t, r) = Ret () →
  res_le r (resource_quota p).
Proof.
  simpl. intros -> H. simpl in H. apply raise_when_Ret in H. bool_simpl. by apply _fits_spec.
Qed.

Lemma _validate_and_aggregate_ok s v : _validate_and_aggregate s = Ret v → snapshot_ok s v.
Proof.
  unfold _validate_and_aggregate. intros H. peel H. cbv zeta in H. peel H.
  apply bind_Ret in H as ([] & HL & H). apply bind_Ret in H as ([] & HP & H).
  apply bind_Ret in H as (acc & HA & H). peel H. apply bind_Ret in H as ([] & HQ & [= <-]).
  apply nonneg_check in Hc0. apply _invalid_resource_capacity_spec in Hc1. bool_simpl.
  set (kl := (λ l, (tl_tenant_id l, l)) <$> tenant_ledgers s) in *.
  set (kp := (λ p, (tp_tenant_id p, p)) <$> tenant_limits s) in *.
  assert (NoDup (tl_tenant_id <$> tenant_ledgers s)) as Nl.
  { rewrite <- (fst_fmap_pair tl_tenant_id). apply dict_of_length_NoDup.
    fold kl. unfold kl at 2. by rewrite length_fmap. }
  assert (NoDup (tp_tenant_id <$> tenant_limits s)) as Np.
  { rewrite <- (fst_fmap_pair tp_tenant_id). apply dict_of_length_NoDup.
    fold kp. unfold kp at 2. by rewrite length_fmap. }
  assert (dict_of kl = kl) as El by (by apply dict_of_fmap_keys).
  assert (dict_of kp = kp) as Ep by (by apply dict_of_fmap_keys).
  rewrite El in *. rewrite Ep in *.
  assert (aggregate_inv kl.*1 ([] ++ held_allocations s) acc) as (Ak & Ag & At & Ar & An & _ & Ao).
  { eapply (for_each_prefix (aggregate_inv kl.*1)); [intros; by eapply aggregate_step| |exact HA].
    unfold aggregate_inv; simpl. split_and!; try set_solver; [| |constructor].
    - rewrite <- list_fmap_compose. apply list_fmap_ext. by intros ? [].
    - intros t Ht. clear -Ht. induction kl as [|[t' l] kl IH]; simpl in *; [set_solver|].
      case_decide; [done|]. apply IH. set_solver. }
  assert (∀ t, t ∈ kl.*1 ↔ t ∈ kp.*1) as Hsame.
  { intros t. rewrite <- !(elem_of_list_to_set (C:=gset string)). by rewrite (dec_stable Hc4). }
  simpl in *. split; simpl; try done.
  - intros l Hl. apply (check_ledger_ok l (tl_tenant_id l)). eapply for_each_unit; [exact HL|].
    apply list_elem_of_fmap. by exists l.
  - intros p Hp. apply (check_limit_ok p (tp_tenant_id p)). eapply for_each_unit; [exact HP|].
    apply list_elem_of_fmap. by exists p.
  - intros t Ht. apply Ag. by rewrite <- Ak.
  - intros a Hin. specialize (Ao a Hin). unfold kl in Ao. by rewrite fst_fmap_pair in Ao.
  - rewrite <- At. by apply _fits_spec.
  - intros t p Hp. assert (t ∈ kl.*1) as Ht by (apply Hsame, dict_get_keys; by exists p).
    eapply (check_held_quota_ok kp t); [done|]. eapply for_each_unit; [exact HQ|].
    apply dict_get_elem. by apply Ag.
Qed.

(** ** The accounting step as a function of the snapshot *)

Section accounting_spec.
Context (s : SchedulingSnapshot) (now_ms : Z).

Definition limit_of (t : string) : option TenantPolicySnapshot :=
  dict_get t ((λ p, (tp_tenant_id p, p)) <$> tenant_limits s).

Definition share_of (t : string) : decimal :=
  _dominant_share (held_by t (held_allocations s)) (allocatable_capacity s).

Definition weight_of (t : string) : decimal := default dec_zero (weight <$> limit_of t).

(** A candidate the tenant may run now. *)
Definition is_eligible (t : string) (c : Candidate) : bool :=
  match limit_of t with
  | Some p => bool_decide (candidate_ineligibility_reason c now_ms (allocatable_capacity s)
                (held_by t (held_allocations s)) p = None)
  | None => false
  end.

Definition has_demand (window : CandidateWindow) (t : string) : bool :=
  existsb (is_eligible t) (unique_candidates window).*2.

Definition demanding : list string :=
  (List.filter (λ item, has_demand item.2 item.1) (candidates_by_tenant s)).*1.

(** The ledger of a tenant after its charge up to [now_ms]. *)
Definition charged (l : TenantLedger) : TenantLedger :=
  {| tl_tenant_id := tl_tenant_id l;
     virtual_score := dec_add (virtual_score l)
       (charge_of (share_of (tl_tenant_id l)) (now_ms - accounted_through_ms l)
          (weight_of (tl_tenant_id l)));
     accounted_through_ms := now_ms;
     had_eligible_demand := had_eligible_demand l |}.

Definition advanced (l : TenantLedger) : TenantLedger :=
  demand_transition (virtual_floor s) demanding (tl_tenant_id l) (charged l).

(** Scores of the tenants with demand, in window order. *)
Definition demanding_scores : list decimal :=
  omap (λ t, virtual_score <$> dict_get t ((λ l, (tl_tenant_id l, advanced l)) <$> tenant_ledgers s))
    demanding.

Definition advanced_floor : decimal :=
  match min_score demanding_scores with
  | Some score => dec_max (virtual_floor s) score
  | None => virtual_floor s
  end.

(** The guards [advance_accounting] has passed when it returns [Ok]. *)
Record accountable (v : Validated) : Prop := {
  ac_ok : snapshot_ok s v;
  ac_now : 0 ≤ now_ms;
  ac_monotone : ∀ l, l ∈ tenant_ledgers s → accounted_through_ms l ≤ now_ms;
  ac_windows : NoDup (candidates_by_tenant s).*1;
  ac_known : ∀ t, t ∈ (candidates_by_tenant s).*1 → t ∈ tp_tenant_id <$> tenant_limits s;
}.

Context (v : Validated) (Hok : snapshot_ok s v).

Lemma limits_lookup t : dict_get t (v_limits v) = limit_of t.
Proof using Hok. unfold limit_of. by rewrite (so_limits s v Hok). Qed.

Lemma tenants_keys t : t ∈ tl_tenant_id <$> tenant_ledgers s ↔ t ∈ (v_held v).*1.
Proof using Hok.
  rewrite (so_held_keys s v Hok), (so_ledgers s v Hok). by rewrite fst_fmap_pair.
Qed.

Lemma limit_keys t : is_Some (limit_of t) ↔ t ∈ tl_tenant_id <$> tenant_ledgers s.
Proof using Hok.
  unfold limit_of. rewrite dict_get_keys, <- (so_limits s v Hok), <- (so_same s v Hok).
  by rewrite (so_ledgers s v Hok), fst_fmap_pair.
Qed.

Lemma held_lookup t :
  t ∈ tl_tenant_id <$> tenant_ledgers s →
  dict_get t (v_held v) = Some (held_by t (held_allocations s)).
Proof using Hok. rewrite tenants_keys. apply (so_held s v Hok). Qed.

Lemma share_lookup t :
  t ∈ tl_tenant_id <$> tenant_ledgers s →
  dict_get t ((λ item, (item.1, _dominant_share item.2 (allocatable_capacity s))) <$> v_held v)
  = Some (share_of t).
Proof using Hok.
  intros Ht. by rewrite (dict_get_fmap (λ _ r, _dominant_share r (allocatable_capacity s))),
    held_lookup.
Qed.

Lemma weight_of_pos t : t ∈ tl_tenant_id <$> tenant_ledgers s → dec_pos (weight_of t) = true.
Proof using Hok.
  intros Ht. apply limit_keys in Ht as [p Hp]. unfold weight_of. rewrite Hp. simpl.
  apply (so_weight s v Hok). apply dict_get_elem, list_elem_of_fmap in Hp as (p' & [=] & Hp).
  by subst.
Qed.

Lemma eligible_lookup t c :
  t ∈ tl_tenant_id <$> tenant_ledgers s →
  eligible now_ms (allocatable_capacity s) (v_held v) (v_limits v) t c = Ret (is_eligible t c).
Proof using Hok.
  intros Ht. unfold eligible, is_eligible. rewrite held_lookup, limits_lookup by done.
  apply limit_keys in Ht as [p ->]. done.
Qed.

Lemma charge_loop updated :
  for_each (v_ledgers v) (charge_ledger now_ms
    ((λ item, (item.1, _dominant_share item.2 (allocatable_capacity s))) <$> v_held v)
    (v_limits v)) [] = Ret updated →
  (∀ l, l ∈ tenant_ledgers s → accounted_through_ms l ≤ now_ms) ∧
  updated = (λ l, (tl_tenant_id l, charged l)) <$> tenant_ledgers s.
Proof using Hok.
  rewrite (so_ledgers s v Hok). intros H.
  set (kl := λ l : TenantLedger, (tl_tenant_id l, l)).
  assert (∀ done todo acc, tenant_ledgers s = done ++ todo →
    acc = (λ l, (tl_tenant_id l, charged l)) <$> done →
    for_each (kl <$> todo) (charge_ledger now_ms
      ((λ item, (item.1, _dominant_share item.2 (allocatable_capacity s))) <$> v_held v)
      (v_limits v)) acc = Ret updated →
    (∀ l, l ∈ todo → accounted_through_ms l ≤ now_ms) ∧
    updated = (λ l, (tl_tenant_id l, charged l)) <$> tenant_ledgers s) as Hgen.
  { clear H. intros dn todo. revert dn. induction todo as [|l todo IH]; simpl; intros dn acc Hs Hacc H.
    { rewrite Hs, app_nil_r. simplify_eq. split; [set_solver|done]. }
    apply bind_Ret in H as (acc1 & H1 & H2). peel H1.
    assert (tl_tenant_id l ∈ tl_tenant_id <$> tenant_ledgers s) as Hin
      by (rewrite Hs, fmap_app; set_solver).
    rewrite share_lookup, limits_lookup in H1 by done. simpl in H1.
    apply bind_Ret in H1 as (p & Hp & [= <-]). apply or_raise_Ret in Hp. bool_simpl.
    eapply (IH (dn ++ [l])) in H2 as [H2 ->].
    - split; [|done]. intros l' [->|Hl']%elem_of_cons; auto.
    - by rewrite Hs, <- app_assoc.
    - rewrite dict_set_fresh.
      + rewrite fmap_app. simpl. unfold charged, weight_of. by rewrite Hacc, Hp.
      + rewrite Hacc, <- list_fmap_compose. simpl.
        pose proof (so_ledgers_nodup s v Hok) as Hnd. rewrite Hs, fmap_app in Hnd.
        apply NoDup_app in Hnd as (_ & Hnd & _). intros Hd. eapply Hnd; [exact Hd|]. simpl. left. }
  by eapply (Hgen []).
Qed.

Lemma window_loop windows :
  for_each (candidates_by_tenant s) (collect_window (v_limits v)) [] = Ret windows →
  NoDup (candidates_by_tenant s).*1 ∧
  (∀ t, t ∈ (candidates_by_tenant s).*1 → t ∈ tp_tenant_id <$> tenant_limits s) ∧
  windows = candidates_by_tenant s.
Proof using Hok.
  intros H.
  set (P := λ (pre : list (string * CandidateWindow)) w, w = pre ∧ NoDup pre.*1 ∧
    ∀ t, t ∈ pre.*1 → t ∈ tp_tenant_id <$> tenant_limits s).
  eapply (for_each_prefix P) with (pre:=[]) in H as (-> & ? & ?); [done| |].
  - clear H. intros pre [t w] s1 s2 (-> & Hnd & Hk) H. simpl in H. peel H. bool_simpl. simplify_eq.
    rewrite (so_limits s v Hok), fst_fmap_pair in Hc0.
    unfold P. rewrite dict_set_fresh, fmap_app by done. split_and!; [done| |set_solver].
    apply NoDup_app. split_and!; [done|set_solver|apply NoDup_singleton].
  - unfold P. split_and!; [done|constructor|set_solver].
Qed.

Lemma eligible_loop :
  (∀ t, t ∈ (candidates_by_tenant s).*1 → t ∈ tl_tenant_id <$> tenant_ledgers s) →
  for_each (candidates_by_tenant s)
    (collect_eligible now_ms (allocatable_capacity s) (v_held v) (v_limits v)) []
  = Ret demanding.
Proof using Hok.
  intros Hk. unfold demanding. change demanding with ([] ++ demanding).
  assert (∀ acc, for_each (candidates_by_tenant s)
    (collect_eligible now_ms (allocatable_capacity s) (v_held v) (v_limits v)) acc
    = Ret (acc ++ (List.filter (λ item, has_demand item.2 item.1) (candidates_by_tenant s)).*1)) as ->;
    [|done].
  induction (candidates_by_tenant s) as [|[t w] ws IH]; simpl in *; intros acc; [by rewrite app_nil_r|].
  rewrite (anyM_pure (is_eligible t)).
  - simpl. rewrite IH by set_solver. unfold has_demand at 2. simpl.
    destruct (existsb _ _); simpl; [by rewrite <- app_assoc|done].
  - intros c _. apply eligible_lookup. apply Hk. left.
Qed.
End accounting_spec.

(** The state [advance_accounting] returns. *)
Definition accounted_state (s : SchedulingSnapshot) (now_ms : Z) : AccountingState :=
  let order := py_sorted String.leb (tl_tenant_id <$> tenant_ledgers s) in
  let ledgers := (λ l, (tl_tenant_id l, advanced s now_ms l)) <$> tenant_ledgers s in
  {| as_tenant_ledgers := omap (λ t, dict_get t ledgers) order;
     as_virtual_floor := advanced_floor s now_ms;
     held_resources_by_tenant := (λ t, (t, held_by t (held_allocations s))) <$> order;
     dominant_shares := (λ t, (t, share_of s t)) <$> order;
     eligible_tenant_ids := py_sorted String.leb (demanding s now_ms) |}.

Lemma demanding_known s v :
  snapshot_ok s v →
  (∀ t, t ∈ (candidates_by_tenant s).*1 → t ∈ tp_tenant_id <$> tenant_limits s) →
  ∀ t, t ∈ (candidates_by_tenant s).*1 → t ∈ tl_tenant_id <$> tenant_ledgers s.
Proof.
  intros Hok Hk t Ht. apply (limit_keys s v Hok), dict_get_keys.
  rewrite fst_fmap_pair. by apply Hk.
Qed.

Lemma demanding_windows s now_ms t :
  t ∈ demanding s now_ms → t ∈ (candidates_by_tenant s).*1.
Proof.
  unfold demanding. rewrite !list_elem_of_fmap. intros (item & -> & Hi).
  exists item. split; [done|]. rewrite list_elem_of_In in Hi |- *. by apply List.filter_In in Hi as [? _].
Qed.

Lemma advance_accounting_ret s now_ms v :
  0 ≤ now_ms → _validate_and_aggregate s = Ret v → accountable s now_ms v →
  advance_accounting s now_ms = Ret (accounted_state s now_ms).
Proof.
  intros Hnow Hv [Hok _ Hmono Hnd Hk]. unfold advance_accounting.
  destruct (Z.ltb_spec now_ms 0); [lia|]. rewrite Hv. simpl.
  pose proof (demanding_known s v Hok Hk) as Hk'.
  assert (∃ u, for_each (v_ledgers v) (charge_ledger now_ms
    ((λ item, (item.1, _dominant_share item.2 (allocatable_capacity s))) <$> v_held v)
    (v_limits v)) [] = Ret u ∧ True) as (u & Hu & _).
  { apply for_each_total; [|done]. rewrite (so_ledgers s v Hok). intros acc item Hin _.
    apply list_elem_of_fmap in Hin as (l & -> & Hl). simpl.
    rewrite (proj2 (Z.ltb_ge _ _)) by auto. simpl.
    assert (tl_tenant_id l ∈ tl_tenant_id <$> tenant_ledgers s) as Ht by (by apply list_elem_of_fmap_2).
    rewrite (share_lookup s v Hok), (limits_lookup s v Hok) by done. simpl.
    apply (limit_keys s v Hok) in Ht as [p ->]. simpl. eauto. }
  rewrite Hu. simpl. apply (charge_loop s now_ms v Hok) in Hu as [_ ->].
  assert (∃ w, for_each (candidates_by_tenant s) (collect_window (v_limits v)) [] = Ret w) as [w Hw].
  { clear -Hok Hnd Hk. assert (∀ pre todo, candidates_by_tenant s = pre ++ todo →
      ∃ w, for_each todo (collect_window (v_limits v)) pre = Ret w) as Hgen; [|by apply (Hgen [])].
    intros pre todo. revert pre. induction todo as [|[t w] todo IH]; simpl; intros pre Hs; [eauto|].
    rewrite Hs, fmap_app in Hnd. apply NoDup_app in Hnd as (_ & Hnd & _).
    assert (t ∉ pre.*1) as Ht by (intros Ht; eapply Hnd; [exact Ht|left]).
    rewrite (proj2 (dict_mem_false t pre)) by done. simpl.
    rewrite (proj2 (dict_mem_spec t (v_limits v))).
    - simpl. rewrite dict_set_fresh by done. apply IH. by rewrite Hs, <- app_assoc.
    - rewrite (so_limits s v Hok), fst_fmap_pair. apply Hk. rewrite Hs, fmap_app. set_solver. }
  rewrite Hw. simpl. apply (window_loop s v Hok) in Hw as (_ & _ & ->).
  rewrite (eligible_loop s now_ms v Hok) by done. simpl.
  set (led := (λ l, (tl_tenant_id l, advanced s now_ms l)) <$> tenant_ledgers s).
  assert ((λ item, (item.1, demand_transition (virtual_floor s) (demanding s now_ms) item.1 item.2))
          <$> ((λ l, (tl_tenant_id l, charged s now_ms l)) <$> tenant_ledgers s) = led) as ->
    by (by rewrite <- list_fmap_compose).
  assert (led.*1 = tl_tenant_id <$> tenant_ledgers s) as Hled
    by (unfold led; by rewrite <- list_fmap_compose).
  rewrite Hled.
  assert (∀ t, t ∈ py_sorted String.leb (tl_tenant_id <$> tenant_ledgers s) →
            t ∈ tl_tenant_id <$> tenant_ledgers s) as Hord by (intros t; by rewrite py_sorted_elem).
  assert (mapM (λ t, virtual_score <$> or_raise (dict_get t led) KeyError) (demanding s now_ms)
          = Ret (demanding_scores s now_ms)) as ->.
  { apply mapM_omap. fold led. intros t Ht.
    assert (is_Some (dict_get t led)) as [l ->]; [|simpl; eauto].
    apply dict_get_keys. rewrite Hled. apply Hk'. by eapply demanding_windows. }
  simpl. rewrite (mapM_omap (λ t, dict_get t led)).
  2:{ intros t Ht. assert (is_Some (dict_get t led)) as [l ->]; [|simpl; eauto].
      apply dict_get_keys. rewrite Hled. auto. }
  simpl. rewrite (mapM_pure (λ t, (t, held_by t (held_allocations s)))).
  2:{ intros t Ht. rewrite (held_lookup s v Hok) by auto. done. }
  simpl. rewrite (mapM_pure (λ t, (t, share_of s t))).
  2:{ intros t Ht. rewrite (share_lookup s v Hok) by auto. done. }
  done.
Qed.

Lemma advance_accounting_inv s now_ms st :
  advance_accounting s now_ms = Ret st →
  ∃ v, _validate_and_aggregate s = Ret v ∧ accountable s now_ms v ∧ st = accounted_state s now_ms.
Proof.
  intros H. assert (∃ v, _validate_and_aggregate s = Ret v ∧ accountable s now_ms v) as (v & Hv & Ha).
  { unfold advance_accounting in H. peel H. apply bind_Ret in H as (v & Hv & H). cbv zeta in H.
    apply bind_Ret in H as (u & Hu & H). apply bind_Ret in H as (w & Hw & _). exists v. split; [done|].
    pose proof (_validate_and_aggregate_ok s v Hv) as Hok. bool_simpl.
    apply (charge_loop s now_ms v Hok) in Hu as [? _].
    apply (window_loop s v Hok) in Hw as (? & ? & _). by split. }
  exists v. split_and!; [done|done|].
  rewrite (advance_accounting_ret s now_ms v (ac_now s now_ms v Ha) Hv Ha) in H. naive_solver.
Qed.

(** ** No lookup of the accounting step misses *)

Definition no_crash {A} (m : outcome Fault A) : Prop := ∀ e, m ≠ Raise (Crash e).

Lemma no_crash_bind {A B} (m : outcome Fault A) (f : A → outcome Fault B) :
  no_crash m → (∀ a, m = Ret a → no_crash (f a)) → no_crash (m ≫= f).
Proof. unfold no_crash. intros Hm Hf e. destruct m; naive_solver. Qed.

Lemma no_crash_Ret {A} (a : A) : no_crash (Ret a).
Proof. by intros e. Qed.

Lemma no_crash_raise_when b e : no_crash (raise_when b (Err e)).
Proof. intros x. by destruct b. Qed.

Lemma no_crash_Err {A} e : no_crash (A:=A) (Raise (Err e)).
Proof. by intros x. Qed.

Lemma no_crash_or_raise {A} (o : option A) e : is_Some o → no_crash (or_raise o e).
Proof. by intros [a ->]. Qed.

Lemma no_crash_for_each {A S} (P : S → Prop) (body : S → A → outcome Fault S) xs s :
  (∀ s x, x ∈ xs → P s → no_crash (body s x)) →
  (∀ s x s', x ∈ xs → P s → body s x = Ret s' → P s') →
  P s → no_crash (for_each xs body s).
Proof.
  revert s. induction xs as [|x xs IH]; simpl; intros s Hb Hp HP; [by intros e|].
  apply no_crash_bind; [apply Hb; [left|done]|]. intros s' Hs'.
  apply IH; [intros; apply Hb; [by right|done]|intros; eapply Hp; [by right|done|done]|].
  eapply Hp; [left|done|done].
Qed.

Lemma no_crash_invalid b reason : no_crash (raise_when b (invalid reason)).
Proof. apply no_crash_raise_when. Qed.

#[export] Hint Resolve no_crash_Ret no_crash_raise_when no_crash_invalid no_crash_Err : nexa.

Ltac no_crash_step :=
  first [ done
        | apply no_crash_bind;
          [solve [auto with nexa]
          |let Hc := fresh "Hc" in intros [] Hc; apply raise_when_Ret in Hc]
        | solve [auto with nexa] ].

Lemma validate_no_crash s : no_crash (_validate_and_aggregate s).
Proof.
  unfold _validate_and_aggregate. repeat no_crash_step. cbv zeta. repeat no_crash_step.
  set (kl := dict_of _) in *. set (kp := dict_of _) in *.
  apply bool_decide_eq_false, dec_stable in Hc4 as Hsame.
  apply no_crash_bind; [apply (no_crash_for_each (λ _, True)); [|done..]|intros [] _].
  { intros [] [t l] _ _. simpl. repeat no_crash_step. }
  apply no_crash_bind; [apply (no_crash_for_each (λ _, True)); [|done..]|intros [] _].
  { intros [] [t l] _ _. simpl. repeat no_crash_step. }
  apply no_crash_bind.
  { apply (no_crash_for_each (λ _, True)); [|done..]. intros acc a _ _. unfold aggregate_allocation.
    repeat no_crash_step. apply no_crash_bind.
    { apply (no_crash_for_each (λ _, True)); [|done..]. intros seen u _ _. unfold see_gpu.
      repeat no_crash_step. }
    intros seen _. apply no_crash_bind; [|intros; apply no_crash_Ret].
    bool_simpl. by apply no_crash_or_raise, dict_get_keys. }
  intros acc Hacc. repeat no_crash_step. apply no_crash_bind; [|intros; apply no_crash_Ret].
  assert ((agg_held acc).*1 = kl.*1) as Hk.
  { eapply (for_each_inv (λ acc, (agg_held acc).*1 = kl.*1)) in Hacc; [done| |].
    - clear. intros acc a acc' _ Hk H. unfold aggregate_allocation in H. peel H.
      apply bind_Ret in H as (? & _ & H). apply bind_Ret in H as (? & _ & [= <-]). simpl.
      rewrite dict_set_keys_old; [done|]. bool_simpl. done.
    - simpl. rewrite <- list_fmap_compose. apply list_fmap_ext. by intros ? []. }
  apply (no_crash_for_each (λ _, True)); [|done..]. intros [] [t r] Hin _. unfold check_held_quota.
  apply no_crash_bind; [|intros; auto with nexa].
  apply no_crash_or_raise, dict_get_keys.
  rewrite <- (elem_of_list_to_set (C:=gset string)), <- Hsame, elem_of_list_to_set, <- Hk.
  apply list_elem_of_fmap. by exists (t, r).
Qed.

Lemma advance_accounting_no_crash s now_ms : no_crash (advance_accounting s now_ms).
Proof.
  intros e Hall. pose proof Hall as Hrun. unfold advance_accounting in Hrun.
  apply bind_Raise in Hrun as [Hrun|([] & Hn & Hrun)]; [by apply no_crash_raise_when in Hrun|].
  apply raise_when_Ret in Hn. bool_simpl.
  apply bind_Raise in Hrun as [Hrun|(v & Hv & Hrun)]; [by apply validate_no_crash in Hrun|].
  pose proof (_validate_and_aggregate_ok s v Hv) as Hok. cbv zeta in Hrun.
  apply bind_Raise in Hrun as [Hrun|(u & Hu & Hrun')].
  { revert Hrun. apply (no_crash_for_each (λ _, True)); [|done..]. intros acc [t l] Hin _.
    rewrite (so_ledgers s v Hok) in Hin. apply list_elem_of_fmap in Hin as (l' & [= -> ->] & Hl).
    simpl. no_crash_step.
    assert (tl_tenant_id l' ∈ tl_tenant_id <$> tenant_ledgers s) as Ht by (by apply list_elem_of_fmap_2).
    rewrite (share_lookup s v Hok), (limits_lookup s v Hok) by done. simpl.
    apply no_crash_bind; [|intros; apply no_crash_Ret].
    apply no_crash_or_raise. by apply (limit_keys s v Hok). }
  apply bind_Raise in Hrun' as [Hrun'|(w & Hw & _)].
  { revert Hrun'. apply (no_crash_for_each (λ _, True)); [|done..]. intros acc [t w] _ _.
    simpl. repeat no_crash_step. }
  apply (charge_loop s now_ms v Hok) in Hu as [Hm _].
  apply (window_loop s v Hok) in Hw as (Hnd & Hk & _).
  rewrite (advance_accounting_ret s now_ms v) in Hall; [done|done|done|by split].
Qed.

(** ** Shares, charges and scores *)

Lemma res_le_zero_sum l :
  (∀ r, r ∈ l → res_le res_zero r) → res_le res_zero (res_sum l).
Proof.
  induction l as [|r l IH]; intros Hl; [done|]. rewrite res_sum_cons.
  rewrite <- (res_add_zero_l res_zero). f_equiv; [apply Hl; left|].
  apply IH. intros. apply Hl. by right.
Qed.

Lemma held_by_le_all t l :
  (∀ a, a ∈ l → request_ok (ha_resources a)) →
  res_le res_zero (held_by t l) ∧ res_le (held_by t l) (held_in_all l).
Proof.
  induction l as [|a l IH] using rev_ind; intros Hl; [done|].
  rewrite held_by_snoc, held_in_all_snoc.
  destruct IH as [IH1 IH2]; [intros; apply Hl; set_solver|].
  assert (res_le res_zero (ha_resources a)) as Ha.
  { destruct (Hl a) as (? & ? & ?); [set_solver|]. unfold res_le; simpl; lia. }
  case_decide; split; try done; unfold res_le in *; simpl in *; lia.
Qed.

Lemma dec_max_bounds a b lo hi :
  dec_leb lo a = true → dec_leb lo b = true → dec_leb a hi = true → dec_leb b hi = true →
  dec_leb lo (dec_max a b) = true ∧ dec_leb (dec_max a b) hi = true.
Proof. intros. unfold dec_max. by destruct (dec_ltb a b). Qed.

Lemma foldl_dec_max_bounds lo hi l a :
  (∀ d, d ∈ a :: l → dec_leb lo d = true ∧ dec_leb d hi = true) →
  dec_leb lo (foldl dec_max a l) = true ∧ dec_leb (foldl dec_max a l) hi = true.
Proof.
  revert a. induction l as [|b l IH]; simpl; intros a Hb; [apply Hb; left|].
  destruct (Hb a) as [??]; [left|]. destruct (Hb b) as [??]; [right; left|].
  apply IH. intros d [->|Hd]%elem_of_cons; [by apply dec_max_bounds|]. apply Hb. right. by right.
Qed.

(** A dominant share lies between zero and one. *)
Lemma _dominant_share_bounds r capacity :
  res_le res_zero r → res_le r capacity →
  dec_leb dec_zero (_dominant_share r capacity) = true ∧
  dec_leb (_dominant_share r capacity) (dec_of_Z 1) = true.
Proof.
  intros H0 Hle. unfold _dominant_share.
  match goal with |- context [match ?l with [] => _ | _ => _ end] => set (shares := l) end.
  assert (∀ d, d ∈ shares → dec_leb dec_zero d = true ∧ dec_leb d (dec_of_Z 1) = true) as Hs.
  { unfold shares. intros d ([used available] & -> & Hin)%list_elem_of_fmap.
    apply list_elem_of_In, List.filter_In in Hin as [Hin Hpos]. apply Z.ltb_lt in Hpos.
    assert (0 ≤ used ≤ available) as Hb.
    { destruct H0 as (?&?&?), Hle as (?&?&?). simpl in *. naive_solver. }
    split; [|by apply dec_div_int_le_one].
    apply dec_nonneg_leb, dec_div_nonneg; unfold dec_nonneg, dec_pos; simpl;
      [apply Z.leb_le|apply Z.ltb_lt]; lia. }
  clearbody shares. destruct shares as [|a l]; [done|]. by apply foldl_dec_max_bounds.
Qed.

Section scores.
Context (s : SchedulingSnapshot) (now_ms : Z) (v : Validated) (Hacc : accountable s now_ms v).
Let Hok : snapshot_ok s v := ac_ok s now_ms v Hacc.

Lemma share_of_bounds t :
  dec_leb dec_zero (share_of s t) = true ∧ dec_leb (share_of s t) (dec_of_Z 1) = true.
Proof using Hacc.
  destruct (held_by_le_all t (held_allocations s)) as [H0 H1]; [apply (so_requests s v Hok)|].
  apply _dominant_share_bounds; [done|]. etrans; [done|]. apply (so_total s v Hok).
Qed.

Lemma share_of_nonneg t : dec_nonneg (share_of s t) = true.
Proof using Hacc. apply dec_nonneg_leb, share_of_bounds. Qed.

Lemma charge_nonneg l :
  l ∈ tenant_ledgers s →
  dec_nonneg (charge_of (share_of s (tl_tenant_id l)) (now_ms - accounted_through_ms l)
    (weight_of s (tl_tenant_id l))) = true.
Proof using Hacc.
  intros Hl. unfold charge_of. apply dec_div_nonneg.
  - apply dec_div_nonneg; [|done]. apply dec_mul_nonneg; [apply share_of_nonneg|].
    apply Z.leb_le. pose proof (ac_monotone s now_ms v Hacc l Hl). lia.
  - apply (weight_of_pos s v Hok). by apply list_elem_of_fmap_2.
Qed.

Lemma charged_nonneg l : l ∈ tenant_ledgers s → dec_nonneg (virtual_score (charged s now_ms l)) = true.
Proof using Hacc.
  intros Hl. apply dec_add_nonneg; [by apply (so_score s v Hok)|by apply charge_nonneg].
Qed.

Lemma advanced_score l :
  virtual_score (advanced s now_ms l) = virtual_score (charged s now_ms l) ∨
  virtual_score (advanced s now_ms l) = virtual_floor s.
Proof.
  unfold advanced, demand_transition, dec_max. simpl.
  destruct (_ && _); [|by left]. destruct (dec_ltb _ _); auto.
Qed.

Lemma advanced_nonneg l : l ∈ tenant_ledgers s → dec_nonneg (virtual_score (advanced s now_ms l)) = true.
Proof using Hacc.
  intros Hl. destruct (advanced_score l) as [->| ->]; [by apply charged_nonneg|].
  apply (so_floor s v Hok).
Qed.

Lemma charged_le_advanced l :
  l ∈ tenant_ledgers s →
  dec_leb (virtual_score (charged s now_ms l)) (virtual_score (advanced s now_ms l)) = true.
Proof using Hacc.
  intros Hl. apply charged_nonneg, dec_nonneg_finite in Hl as Hf.
  pose proof (dec_nonneg_finite _ (so_floor s v Hok)) as Hfl.
  unfold advanced, demand_transition. cbn [virtual_score].
  destruct (_ && _); [by apply dec_max_l|by apply dec_leb_refl].
Qed.

Lemma ledgers_perm :
  as_tenant_ledgers (accounted_state s now_ms) ≡ₚ advanced s now_ms <$> tenant_ledgers s.
Proof using Hacc.
  pose proof (so_ledgers_nodup s v Hok) as Hnd. clear Hok. simpl. rewrite py_sorted_perm.
  assert (∀ l0 ls, NoDup (tl_tenant_id <$> (l0 ++ ls)) →
    omap (λ t, dict_get t ((λ l, (tl_tenant_id l, advanced s now_ms l)) <$> (l0 ++ ls)))
      (tl_tenant_id <$> ls) = advanced s now_ms <$> ls) as Hgen; [|by rewrite <- (Hgen [] _ Hnd)].
  intros l0 ls. revert l0. clear. induction ls as [|l ls IH]; [done|]. intros l0 Hnd. simpl.
  rewrite (dict_elem_get _ (advanced s now_ms l)).
  - f_equal. specialize (IH (l0 ++ [l])). rewrite <- app_assoc in IH. by apply IH.
  - by rewrite <- list_fmap_compose.
  - apply list_elem_of_fmap. exists l. split; [done|]. set_solver.
Qed.
End scores.

(** ** The eligibility rules *)

(** What a candidate needs to run now for a tenant holding [held]. *)
Record may_run (c : Candidate) (now_ms : Z) (capacity held : Resources)
    (limits : TenantPolicySnapshot) : Prop := {
  mr_queued : state c = QUEUED;
  mr_retry : retry_ready_at_ms c ≤ now_ms;
  mr_template : template_compatible c = true;
  mr_capabilities : capabilities_compatible c = true;
  mr_policy : policy_compatible c = true;
  mr_artifacts : artifact_quota_available limits = true;
  mr_capacity : res_le (resources c) capacity;
  mr_quota : res_le (res_add held (resources c)) (resource_quota limits);
  mr_tenant : tenant_active_attempts c < max_active_attempts limits;
  mr_user : user_active_attempts c < max_user_active_attempts limits;
}.

Lemma ineligibility_spec c now_ms capacity held limits :
  candidate_ineligibility_reason c now_ms capacity held limits = None ↔
  may_run c now_ms capacity held limits.
Proof.
  unfold candidate_ineligibility_reason. split.
  - intros H. repeat (case_match; [done|]). bool_simpl.
    rewrite _fits_spec in *. split; try done; by apply dec_stable.
  - intros [Hq H1 Ht Hc Hp Ha H2 H3 H4 H5]. apply _fits_spec in H2, H3.
    rewrite Hq, Ht, Hc, Hp, Ha. change (_add_resources held (resources c)) with (res_add held (resources c)).
    rewrite bool_decide_eq_false_2 by auto. rewrite H2, H3. simpl.
    rewrite (proj2 (Z.ltb_ge _ _)), !(proj2 (Z.leb_gt _ _)) by done. done.
Qed.

Lemma is_eligible_spec s now_ms t c :
  is_eligible s now_ms t c = true ↔
  ∃ p, limit_of s t = Some p ∧
    may_run c now_ms (allocatable_capacity s) (held_by t (held_allocations s)) p.
Proof.
  unfold is_eligible. destruct (limit_of s t) as [p|]; [|naive_solver].
  rewrite bool_decide_eq_true, ineligibility_spec. naive_solver.
Qed.

(** ** The accounting step *)

Definition ledger_fits (l : TenantLedger) : Prop := fits_prec (virtual_score l) = true.

Lemma advanced_elem s now_ms v l :
  accountable s now_ms v → l ∈ tenant_ledgers s →
  advanced s now_ms l ∈ as_tenant_ledgers (accounted_state s now_ms).
Proof. intros Hacc Hl. rewrite (ledgers_perm s now_ms v Hacc). by apply list_elem_of_fmap_2. Qed.

Lemma advanced_demand s now_ms l :
  had_eligible_demand (advanced s now_ms l) =
  bool_decide (tl_tenant_id l ∈ eligible_tenant_ids (accounted_state s now_ms)).
Proof. simpl. apply bool_decide_ext. by rewrite py_sorted_elem. Qed.

Lemma charged_fits s now_ms v l :
  accountable s now_ms v → l ∈ tenant_ledgers s → ledger_fits (charged s now_ms l).
Proof.
  intros Hacc Hl. apply dec_add_fits; [|by apply (charge_nonneg s now_ms v)].
  by apply (so_score s v (ac_ok s now_ms v Hacc)).
Qed.

Lemma advanced_fits s now_ms v l :
  accountable s now_ms v → fits_prec (virtual_floor s) = true → l ∈ tenant_ledgers s →
  ledger_fits (advanced s now_ms l).
Proof.
  intros Hacc Hf Hl. unfold ledger_fits. destruct (advanced_score s now_ms l) as [->| ->]; [|done].
  by apply (charged_fits s now_ms v).
Qed.

Lemma foldl_dec_min_elem x l : foldl dec_min x l = x ∨ foldl dec_min x l ∈ l.
Proof.
  revert x. induction l as [|y l IH]; simpl; intros x; [by left|].
  destruct (IH (dec_min x y)) as [->|Hin]; [|right; by right].
  unfold dec_min. destruct (dec_ltb y x); [right; left|by left].
Qed.

(** The floor moves to the lowest score of a tenant with demand, or stays. *)
Lemma advanced_floor_cases s now_ms v :
  accountable s now_ms v →
  advanced_floor s now_ms = virtual_floor s ∨
  ∃ l, l ∈ tenant_ledgers s ∧ dec_ltb (virtual_floor s) (virtual_score (advanced s now_ms l)) = true ∧
    advanced_floor s now_ms = virtual_score (advanced s now_ms l).
Proof.
  intros Hacc. unfold advanced_floor.
  destruct (min_score (demanding_scores s now_ms)) as [m|] eqn:Hm; [|by left].
  unfold dec_max. destruct (dec_ltb (virtual_floor s) m) eqn:Hlt; [right|by left].
  assert (m ∈ demanding_scores s now_ms) as Hin.
  { destruct (demanding_scores s now_ms) as [|x l]; simpl in Hm; [done|]. injection Hm as <-.
    apply elem_of_cons. apply foldl_dec_min_elem. }
  apply list_elem_of_omap in Hin as (t & _ & Hs). destruct (dict_get t _) as [l|] eqn:Hl; [|done].
  apply dict_get_elem, list_elem_of_fmap in Hl as (l' & [= -> ->] & Hl').
  simpl in Hs. injection Hs as <-. eauto.
Qed.

Lemma floor_le_advanced s now_ms v :
  accountable s now_ms v → dec_leb (virtual_floor s) (advanced_floor s now_ms) = true.
Proof.
  intros Hacc. pose proof (dec_nonneg_finite _ (so_floor s v (ac_ok s now_ms v Hacc))).
  destruct (advanced_floor_cases s now_ms v Hacc) as [->|(l & _ & Hlt & ->)];
    [by apply dec_leb_refl|by apply dec_ltb_leb].
Qed.

(** virtual time only moves forward.  When [advance_accounting] succeeds on
    ledgers and a floor of at most 50 digits, every ledger is replaced by one
    of the same tenant accounted through [now_ms], with a score not below the
    old one and its demand flag telling whether the tenant has an eligible
    candidate; the floor does not fall; and the new scores and floor are again
    finite, non-negative and of at most 50 digits, so the guarantee carries
    over to the next step. *)
Theorem advance_accounting_monotone s now_ms st :
  advance_accounting s now_ms = Ret st →
  (∀ l, l ∈ tenant_ledgers s → ledger_fits l) → fits_prec (virtual_floor s) = true →
  (∀ l, l ∈ tenant_ledgers s → ∃ l', l' ∈ as_tenant_ledgers st ∧ tl_tenant_id l' = tl_tenant_id l ∧
     dec_leb (virtual_score l) (virtual_score l') = true ∧ accounted_through_ms l' = now_ms ∧
     had_eligible_demand l' = bool_decide (tl_tenant_id l ∈ eligible_tenant_ids st)) ∧
  length (as_tenant_ledgers st) = length (tenant_ledgers s) ∧
  dec_leb (virtual_floor s) (as_virtual_floor st) = true ∧
  (∀ l', l' ∈ as_tenant_ledgers st → dec_nonneg (virtual_score l') = true ∧ ledger_fits l') ∧
  dec_nonneg (as_virtual_floor st) = true ∧ fits_prec (as_virtual_floor st) = true.
Proof.
  intros (v & _ & Hacc & ->)%advance_accounting_inv Hfit Hfl.
  pose proof (ac_ok s now_ms v Hacc) as Hok. pose proof (ledgers_perm s now_ms v Hacc) as Hperm.
  split_and!.
  - intros l Hl. exists (advanced s now_ms l).
    split_and!; [by eapply advanced_elem|done| |done|apply advanced_demand].
    eapply dec_leb_trans; [|by apply (charged_le_advanced s now_ms v)].
    apply dec_add_ge_l; [by apply (so_score s v Hok)|by apply Hfit|by apply (charge_nonneg s now_ms v)].
  - by rewrite Hperm, length_fmap.
  - by apply (floor_le_advanced s now_ms v).
  - intros l'. rewrite Hperm. intros (l & -> & Hl)%list_elem_of_fmap.
    split; [by apply (advanced_nonneg s now_ms v)|by apply (advanced_fits s now_ms v)].
  - simpl. destruct (advanced_floor_cases s now_ms v Hacc) as [->|(l & Hl & _ & ->)];
      [apply (so_floor s v Hok)|by apply (advanced_nonneg s now_ms v)].
  - simpl. destruct (advanced_floor_cases s now_ms v Hacc) as [->|(l & Hl & _ & ->)];
      [done|by apply (advanced_fits s now_ms v)].
Qed.

(** idle time buys no credit.  A tenant that had no demand at the last step
    and has an eligible candidate now comes back with a score of at least the
    virtual floor, so it cannot undercut the tenants that kept running. *)
Theorem advance_accounting_idle_return s now_ms st l :
  advance_accounting s now_ms = Ret st → l ∈ tenant_ledgers s →
  had_eligible_demand l = false → tl_tenant_id l ∈ eligible_tenant_ids st →
  ∃ l', l' ∈ as_tenant_ledgers st ∧ tl_tenant_id l' = tl_tenant_id l ∧
    dec_leb (virtual_floor s) (virtual_score l') = true.
Proof.
  intros (v & _ & Hacc & ->)%advance_accounting_inv Hl Hidle Hdem.
  exists (advanced s now_ms l). split_and!; [by eapply advanced_elem|done|].
  unfold advanced, demand_transition. simpl in Hdem. rewrite py_sorted_elem in Hdem.
  rewrite bool_decide_eq_true_2 by done. simpl. rewrite Hidle. simpl.
  apply dec_max_r; [|apply dec_nonneg_finite, (so_floor s v (ac_ok s now_ms v Hacc))].
  by apply dec_nonneg_finite, (charged_nonneg s now_ms v).
Qed.

(** a step that succeeds has seen a machine within its limits.  No GPU is
    held by two allocations, the allocations together fit the allocatable
    capacity, every tenant's allocations fit its quota, and the reported
    holdings and shares are exact sums and lie between zero and one. *)
Theorem advance_accounting_capacity_safe s now_ms st :
  advance_accounting s now_ms = Ret st →
  NoDup (held_allocations s ≫= ha_gpu_uuids) ∧
  res_le (held_in_all (held_allocations s)) (allocatable_capacity s) ∧
  (∀ t p, limit_of s t = Some p → res_le (held_by t (held_allocations s)) (resource_quota p)) ∧
  res_sum (held_resources_by_tenant st).*2 = held_in_all (held_allocations s) ∧
  (∀ t r, (t, r) ∈ held_resources_by_tenant st → r = held_by t (held_allocations s)) ∧
  (∀ t d, (t, d) ∈ dominant_shares st →
     dec_leb dec_zero d = true ∧ dec_leb d (dec_of_Z 1) = true).
Proof.
  intros (v & _ & Hacc & ->)%advance_accounting_inv. pose proof (ac_ok s now_ms v Hacc) as Hok.
  split_and!.
  - apply (so_gpus s v Hok).
  - apply (so_total s v Hok).
  - intros t p Hp. apply (so_quota s v Hok). by rewrite (limits_lookup s v Hok).
  - simpl. rewrite <- list_fmap_compose. apply held_by_partition.
    + rewrite py_sorted_perm. apply (so_ledgers_nodup s v Hok).
    + intros a Ha. apply py_sorted_elem. by apply (so_owners s v Hok).
  - intros t r. simpl. intros (t' & [= -> ->] & _)%list_elem_of_fmap. done.
  - intros t d. simpl. intros (t' & [= -> ->] & _)%list_elem_of_fmap.
    apply (share_of_bounds s now_ms v Hacc).
Qed.

Lemma charge_loop_regression s v now_ms ls acc :
  snapshot_ok s v → (∀ l, l ∈ ls → l ∈ tenant_ledgers s) →
  (∃ l, l ∈ ls ∧ now_ms < accounted_through_ms l) →
  ∃ l, l ∈ ls ∧ now_ms < accounted_through_ms l ∧
  for_each ((λ l, (tl_tenant_id l, l)) <$> ls) (charge_ledger now_ms
    ((λ item, (item.1, _dominant_share item.2 (allocatable_capacity s))) <$> v_held v)
    (v_limits v)) acc
  = Raise (Err (AccountingRegression (tl_tenant_id l) (accounted_through_ms l) now_ms)).
Proof.
  intros Hok. revert acc. induction ls as [|l ls IH]; intros acc Hls (l0 & Hl0 & Hlt); [set_solver|].
  rewrite fmap_cons. cbn [for_each charge_ledger].
  destruct (Z.ltb_spec now_ms (accounted_through_ms l)) as [Hl|Hl].
  { exists l. split_and!; [left|done..]. }
  assert (tl_tenant_id l ∈ tl_tenant_id <$> tenant_ledgers s) as Ht
    by (apply list_elem_of_fmap_2, Hls; left).
  rewrite (share_lookup s v Hok), (limits_lookup s v Hok) by done.
  apply (limit_keys s v Hok) in Ht as [p ->].
  cbn [raise_when or_raise mbind outcome_bind]. cbv zeta.
  edestruct IH as (l1 & Hl1 & Hlt1 & ->).
  - intros. apply Hls. by right.
  - exists l0. split; [|done]. apply elem_of_cons in Hl0 as [->|]; [lia|done].
  - exists l1. split_and!; [by right|done|done].
Qed.

(** the clock never runs backwards.  On a valid snapshot where some ledger
    is already accounted past [now_ms], [advance_accounting] charges nobody and
    reports [AccountingRegression] naming such a tenant and both times. *)
Theorem advance_accounting_regression s now_ms v :
  0 ≤ now_ms → _validate_and_aggregate s = Ret v →
  (∃ l, l ∈ tenant_ledgers s ∧ now_ms < accounted_through_ms l) →
  ∃ l, l ∈ tenant_ledgers s ∧ now_ms < accounted_through_ms l ∧
    advance_accounting s now_ms
    = Raise (Err (AccountingRegression (tl_tenant_id l) (accounted_through_ms l) now_ms)).
Proof.
  intros Hnow Hv Hex. pose proof (_validate_and_aggregate_ok s v Hv) as Hok.
  destruct (charge_loop_regression s v now_ms (tenant_ledgers s) [] Hok) as (l & Hl & Hlt & Hr);
    [done|done|].
  exists l. split_and!; [done..|]. unfold advance_accounting.
  rewrite (proj2 (Z.ltb_ge now_ms 0)), Hv by done. cbn [raise_when mbind outcome_bind]. cbv zeta.
  rewrite (so_ledgers s v Hok), Hr. done.
Qed.

(** ** Evaluation *)

Definition sample : SchedulingSnapshot := sample_snapshot 30 1000 None.

Example sample_advance :
  (λ st, ((λ l, (tl_tenant_id l, virtual_score l)) <$> as_tenant_ledgers st, as_virtual_floor st))
    <$> advance_accounting sample 3000
  = Ret ([("a", Finite 3 0); ("b", Finite 0 0)], Finite 0 0).
Proof. vm_compute. reflexivity. Qed.

Lemma advance_accounting_monotone_witness :
  ∃ st, advance_accounting sample 3000 = Ret st ∧
    dec_leb (virtual_floor sample) (as_virtual_floor st) = true.
Proof.
  exists (accounted_state sample 3000).
  assert (advance_accounting sample 3000 = Ret (accounted_state sample 3000)) as H
    by (vm_compute; reflexivity).
  split; [exact H|].
  apply (advance_accounting_monotone sample 3000 _ H); [|reflexivity].
  intros l [->|[->|Hl]%elem_of_cons]%elem_of_cons; [reflexivity|reflexivity|].
  exfalso. exact (not_elem_of_nil l Hl).
Defined.

(** Tenant [b] idle at the last step, with a floor above its score. *)
Definition sample_idle : SchedulingSnapshot :=
  {| policy_version := policy_version sample; allocatable_capacity := allocatable_capacity sample;
     held_allocations := held_allocations sample;
     tenant_ledgers :=
       [{| tl_tenant_id := "a"; virtual_score := dec_of_Z 7; accounted_through_ms := 0;
           had_eligible_demand := true |};
        {| tl_tenant_id := "b"; virtual_score := dec_of_Z 2; accounted_through_ms := 0;
           had_eligible_demand := false |}];
     tenant_limits := tenant_limits sample; candidates_by_tenant := candidates_by_tenant sample;
     active_reservation := None; virtual_floor := dec_of_Z 5 |}.

Lemma advance_accounting_idle_return_witness :
  ∃ l', l' ∈ as_tenant_ledgers (accounted_state sample_idle 3000) ∧ tl_tenant_id l' = "b" ∧
    dec_leb (dec_of_Z 5) (virtual_score l') = true.
Proof.
  apply (advance_accounting_idle_return sample_idle 3000 (accounted_state sample_idle 3000)
    {| tl_tenant_id := "b"; virtual_score := dec_of_Z 2; accounted_through_ms := 0;
       had_eligible_demand := false |}).
  - vm_compute. reflexivity.
  - right. left.
  - reflexivity.
  - vm_compute. right. left.
Defined.

Lemma advance_accounting_capacity_safe_witness :
  NoDup (held_allocations sample ≫= ha_gpu_uuids).
Proof.
  apply (advance_accounting_capacity_safe sample 3000 (accounted_state sample 3000)).
  vm_compute. reflexivity.
Defined.

(** Tenant [a] already accounted through [ms]. *)
Definition accounted_snapshot (ms : Z) : SchedulingSnapshot :=
  {| policy_version := policy_version sample; allocatable_capacity := allocatable_capacity sample;
     held_allocations := held_allocations sample;
     tenant_ledgers :=
       [{| tl_tenant_id := "a"; virtual_score := dec_zero; accounted_through_ms := ms;
           had_eligible_demand := true |};
        {| tl_tenant_id := "b"; virtual_score := dec_zero; accounted_through_ms := 0;
           had_eligible_demand := false |}];
     tenant_limits := tenant_limits sample; candidates_by_tenant := candidates_by_tenant sample;
     active_reservation := None; virtual_floor := dec_zero |}.

Lemma advance_accounting_regression_witness :
  ∃ l, l ∈ tenant_ledgers (accounted_snapshot 50) ∧ 10 < accounted_through_ms l ∧
    advance_accounting (accounted_snapshot 50) 10
    = Raise (Err (AccountingRegression (tl_tenant_id l) (accounted_through_ms l) 10)).
Proof.
  destruct (_validate_and_aggregate (accounted_snapshot 50)) as [v|f] eqn:Hv;
    [|vm_compute in Hv; discriminate Hv].
  apply (advance_accounting_regression (accounted_snapshot 50) 10 v); [lia|exact Hv|].
  eexists. split; [left|]. simpl. lia.
Defined.
