(* ===== verification/Policy.v ===== *)
(** * The weighted dominant resource-time policy

    [src/nexa/scheduler/policy.py]: validation of the candidate windows and
    [WeightedDominantResourceTimePolicy.decide], which advances the accounting,
    serves an active reservation first, and otherwise walks the tenants from
    the lowest virtual score up until one can be dispatched or must be given a
    reservation. *)

From S2P Require Import Prelude PyDecimal Scheduling Accounting.

Local Open Scope string_scope.
Local Open Scope list_scope.
Local Open Scope Z_scope.

Definition _MAX_NORMAL_CANDIDATES : nat := 16.

Definition effective_priority (candidate : Candidate) : Z :=
  Z.min 2 (base_priority candidate + eligible_wait_seconds candidate / 60).

Definition _fits (request capacity : Resources) : bool :=
  (cpu_millis request <=? cpu_millis capacity)
  && (memory_bytes request <=? memory_bytes capacity)
  && (gpu_count request <=? gpu_count capacity).

Definition _subtract (left right : Resources) : Resources :=
  {| cpu_millis := cpu_millis left - cpu_millis right;
     memory_bytes := memory_bytes left - memory_bytes right;
     gpu_count := gpu_count left - gpu_count right |}.

Definition _add (left right : Resources) : Resources :=
  {| cpu_millis := cpu_millis left + cpu_millis right;
     memory_bytes := memory_bytes left + memory_bytes right;
     gpu_count := gpu_count left + gpu_count right |}.

Definition _validate_candidate (candidate : Candidate) (tenant : string) : outcome Fault () :=
  let bad (what : string) := invalid ("candidate " +:+ job_id candidate +:+ what) in
  raise_when (negb (String.eqb (tenant_id candidate) tenant)) (bad " has mismatched tenant_id");;
  raise_when (job_version candidate <=? 0) (bad " has invalid job_version");;
  raise_when (ready_sequence candidate <? 0) (bad " has invalid ready_sequence");;
  raise_when ((cpu_millis (resources candidate) <=? 0) || (memory_bytes (resources candidate) <=? 0))
    (bad " has invalid resources");;
  raise_when (negb ((gpu_count (resources candidate) =? 0) || (gpu_count (resources candidate) =? 1)))
    (bad " has invalid resources");;
  raise_when (negb ((base_priority candidate =? 0) || (base_priority candidate =? 1)
                    || (base_priority candidate =? 2)))
    (bad " has invalid base_priority");;
  raise_when (eligible_wait_seconds candidate <? 0) (bad " has invalid eligible_wait_seconds");;
  raise_when (retry_ready_at_ms candidate <? 0) (bad " has invalid retry_ready_at_ms");;
  raise_when (template_version candidate <=? 0) (bad " has invalid template_version");;
  raise_when ((tenant_active_attempts candidate <? 0) || (user_active_attempts candidate <? 0))
    (bad " has invalid active attempts").

(** The loop over [window.normal]: job IDs seen in this window, and candidates
    by ID over all windows. *)
Definition validate_normal (tenant : string) (acc : gset string * list (string * Candidate))
    (candidate : Candidate) : outcome Fault (gset string * list (string * Candidate)) :=
  let '(normal_ids, candidates_by_id) := acc in
  _validate_candidate candidate tenant;;
  raise_when (bool_decide (job_id candidate ∈ normal_ids))
    (invalid ("candidate window " +:+ tenant +:+ " contains duplicate job IDs"));;
  raise_when (match dict_get (job_id candidate) candidates_by_id with
              | Some previous => bool_decide (previous ≠ candidate)
              | None => false
              end)
    (invalid "candidate job ID is not globally unique");;
  Ret ({[job_id candidate]} ∪ normal_ids,
       dict_set (job_id candidate) candidate candidates_by_id).

Definition validate_window
    (acc : list (string * CandidateWindow) * list (string * Candidate))
    (item : string * CandidateWindow)
    : outcome Fault (list (string * CandidateWindow) * list (string * Candidate)) :=
  let '(windows, candidates_by_id) := acc in
  let '(tenant, window) := item in
  raise_when (dict_mem tenant windows)
    (invalid "candidate windows contain duplicate tenant IDs");;
  raise_when (_MAX_NORMAL_CANDIDATES <? length (normal window))%nat
    (Err (CandidateBoundExceeded tenant (Z.of_nat (length (normal window)))));;
  let windows := dict_set tenant window windows in
  result ← for_each (normal window) (validate_normal tenant) (∅, candidates_by_id);
  let candidates_by_id := snd result in
  match oldest_eligible window with
  | None => Ret (windows, candidates_by_id)
  | Some oldest =>
      _validate_candidate oldest tenant;;
      raise_when (match dict_get (job_id oldest) candidates_by_id with
                  | Some previous => bool_decide (previous ≠ oldest)
                  | None => false
                  end)
        (invalid ("oldest candidate " +:+ job_id oldest +:+ " disagrees with normal window"));;
      Ret (windows, dict_set (job_id oldest) oldest candidates_by_id)
  end.

Definition _validate_windows (snapshot : SchedulingSnapshot)
    : outcome Fault (list (string * CandidateWindow)) :=
  result ← for_each (candidates_by_tenant snapshot) validate_window ([], []);
  Ret (fst result).

(** [sorted(windows.items())]: tenant IDs are distinct, so they decide the order. *)
Definition _continuation_cursors (windows : list (string * CandidateWindow))
    : list (string * string) :=
  omap (λ item, (λ cursor, (item.1, cursor)) <$> continuation_cursor item.2)
    (py_sorted (λ a b, String.leb a.1 b.1) windows).

(** ** The candidates that may run *)

Record Collected := {
  eligible_normal : list (string * list Candidate);
  eligible_all : list (string * list Candidate);
  candidates_by_id : list (string * Candidate);
}.

Definition collect_candidates (now_ms : Z) (capacity : Resources)
    (held_by_tenant : list (string * Resources)) (limits : list (string * TenantPolicySnapshot))
    (acc : Collected) (item : string * CandidateWindow) : outcome Fault Collected :=
  let '(tenant, window) := item in
  raise_when (negb (dict_mem tenant limits))
    (invalid "candidate window references an unknown tenant");;
  let unique := dict_of ((λ c, (job_id c, c)) <$> normal window) in
  let unique :=
    match oldest_eligible window with
    | Some oldest => dict_set (job_id oldest) oldest unique
    | None => unique
    end in
  all ← filterM (eligible now_ms capacity held_by_tenant limits tenant) unique.*2;
  ok ← filterM (eligible now_ms capacity held_by_tenant limits tenant) (normal window);
  Ret {| eligible_all := dict_set tenant all (eligible_all acc);
         eligible_normal := dict_set tenant ok (eligible_normal acc);
         candidates_by_id := dict_update (candidates_by_id acc) unique |}.

(** ** An active reservation *)

Definition reservation_reason (invalid_reason : string) : string :=
  default "no_longer_eligible"
    (dict_get invalid_reason
       [("cancelled", "cancelled");
        ("capability_incompatible", "capability_incompatible");
        ("template_incompatible", "template_incompatible");
        ("policy_incompatible", "policy_incompatible")]).

Definition decide_reservation (snapshot : SchedulingSnapshot) (now_ms : Z)
    (held_by_tenant : list (string * Resources)) (limits : list (string * TenantPolicySnapshot))
    (free : Resources) (by_id : list (string * Candidate)) (reservation : ReservationSnapshot)
    : outcome Fault SchedulingDecision :=
  let rid := rs_reservation_id reservation in
  match rs_invalid_reason reservation with
  | Some reason => Ret (InvalidateReservation rid reason)
  | None =>
    if negb (rs_policy_version reservation =? policy_version snapshot)
    then Ret (InvalidateReservation rid "policy_incompatible")
    else
      match dict_get (rs_job_id reservation) by_id with
      | None => Ret (InvalidateReservation rid "no_longer_eligible")
      | Some candidate =>
        if negb (String.eqb (tenant_id candidate) (rs_tenant_id reservation))
        then Ret (InvalidateReservation rid "no_longer_eligible")
        else
          held ← or_raise (dict_get (rs_tenant_id reservation) held_by_tenant) KeyError;
          limit ← or_raise (dict_get (rs_tenant_id reservation) limits) KeyError;
          match candidate_ineligibility_reason candidate now_ms
                  (allocatable_capacity snapshot) held limit with
          | Some reason => Ret (InvalidateReservation rid (reservation_reason reason))
          | None =>
            if _fits (resources candidate) free
            then Ret (Dispatch (job_id candidate) (job_version candidate)
                        (policy_version snapshot) (Some rid))
            else Ret (DrainForReservation rid (job_id candidate))
          end
      end
  end.

(** ** The tenant queue *)

(** A heap entry: [(virtual_score, share / weight, oldest ready sequence, tenant)]. *)
Record HeapEntry := {
  he_score : decimal;
  he_share : decimal;
  he_ready : Z;
  he_tenant : string;
}.

(** Tuple comparison: the first component that differs decides. *)
Definition heap_ltb (a b : HeapEntry) : bool :=
  if negb (dec_eqb (he_score a) (he_score b)) then dec_ltb (he_score a) (he_score b)
  else if negb (dec_eqb (he_share a) (he_share b)) then dec_ltb (he_share a) (he_share b)
  else if negb (he_ready a =? he_ready b) then he_ready a <? he_ready b
  else negb (String.leb (he_tenant b) (he_tenant a)).

(** [heappop]: the least entry, and the heap without it. *)
Fixpoint heap_remove (t : string) (heap : list HeapEntry) : list HeapEntry :=
  match heap with
  | [] => []
  | e :: heap => if String.eqb (he_tenant e) t then heap else e :: heap_remove t heap
  end.

Definition heappop (heap : list HeapEntry) : option (HeapEntry * list HeapEntry) :=
  match heap with
  | [] => None
  | e :: rest =>
      let least := py_min_by heap_ltb e rest in
      Some (least, heap_remove (he_tenant least) heap)
  end.

Definition heap_entry (ledgers : list (string * TenantLedger)) (shares : list (string * decimal))
    (limits : list (string * TenantPolicySnapshot)) (heap : list HeapEntry)
    (item : string * list Candidate) : outcome Fault (list HeapEntry) :=
  let '(tenant, items) := item in
  match items with
  | [] => Ret heap
  | c :: cs =>
      ledger ← or_raise (dict_get tenant ledgers) KeyError;
      share ← or_raise (dict_get tenant shares) KeyError;
      limit ← or_raise (dict_get tenant limits) KeyError;
      Ret (heap ++
        [{| he_score := virtual_score ledger;
            he_share := dec_div share (weight limit);
            he_ready := foldl Z.min (ready_sequence c) (ready_sequence <$> cs);
            he_tenant := tenant |}])
  end.

(** [(-effective_priority, ready_sequence, job_id)] *)
Definition candidate_ltb (a b : Candidate) : bool :=
  if negb (effective_priority a =? effective_priority b)
  then effective_priority b <? effective_priority a
  else if negb (ready_sequence a =? ready_sequence b) then ready_sequence a <? ready_sequence b
  else negb (String.leb (job_id b) (job_id a)).

(** One turn of the loop: a decision for the tenant, or on to the next. *)
Definition serve_tenant (policy_ver : Z) (free : Resources)
    (windows : list (string * CandidateWindow)) (collected : Collected) (tenant : string)
    : outcome Fault (option SchedulingDecision) :=
  window ← or_raise (dict_get tenant windows) KeyError;
  all ← or_raise (dict_get tenant (eligible_all collected)) KeyError;
  ok ← or_raise (dict_get tenant (eligible_normal collected)) KeyError;
  let overdue :=
    match oldest_eligible window with
    | Some oldest =>
        if (120 <=? eligible_wait_seconds oldest)
           && existsb (λ c, String.eqb (job_id c) (job_id oldest)) all
        then Some oldest else None
    | None => None
    end in
  match overdue with
  | Some oldest => Ret (Some (CreateReservation (job_id oldest) tenant "eligible_wait_threshold"))
  | None =>
      match List.filter (λ c, _fits (resources c) free) ok with
      | [] => Ret None
      | c :: cs =>
          let candidate := py_min_by candidate_ltb c cs in
          Ret (Some (Dispatch (job_id candidate) (job_version candidate) policy_ver None))
      end
  end.

(** [while tenant_heap: ...]; every turn pops one entry. *)
Fixpoint serve (fuel : nat) (policy_ver : Z) (free : Resources)
    (windows : list (string * CandidateWindow)) (collected : Collected) (heap : list HeapEntry)
    : outcome Fault (option SchedulingDecision) :=
  match fuel, heappop heap with
  | O, _ | _, None => Ret None
  | S fuel, Some (least, rest) =>
      decision ← serve_tenant policy_ver free windows collected (he_tenant least);
      match decision with
      | Some d => Ret (Some d)
      | None => serve fuel policy_ver free windows collected rest
      end
  end.

Definition total_held (held_by_tenant : list (string * Resources)) : Resources :=
  foldl _add {| cpu_millis := 0; memory_bytes := 0; gpu_count := 0 |} held_by_tenant.*2.

Definition decide (snapshot : SchedulingSnapshot) (now_ms : Z)
    : outcome Fault SchedulingDecision :=
  windows ← _validate_windows snapshot;
  accounted ← advance_accounting snapshot now_ms;
  let ledgers := dict_of ((λ l, (tl_tenant_id l, l)) <$> as_tenant_ledgers accounted) in
  let limits := dict_of ((λ p, (tp_tenant_id p, p)) <$> tenant_limits snapshot) in
  let held_by_tenant := dict_of (held_resources_by_tenant accounted) in
  let shares := dict_of (dominant_shares accounted) in
  let free := _subtract (allocatable_capacity snapshot) (total_held held_by_tenant) in
  collected ← for_each windows
    (collect_candidates now_ms (allocatable_capacity snapshot) held_by_tenant limits)
    {| eligible_normal := []; eligible_all := []; candidates_by_id := [] |};
  match active_reservation snapshot with
  | Some reservation =>
      decide_reservation snapshot now_ms held_by_tenant limits free
        (candidates_by_id collected) reservation
  | None =>
      heap ← for_each (eligible_all collected) (heap_entry ledgers shares limits) [];
      decision ← serve (length heap) (policy_version snapshot) free windows collected heap;
      match decision with
      | Some d => Ret d
      | None =>
          Ret (NoDecision
            (if (0 <? length heap)%nat then "no_candidate_fits_free_resources"
             else "no_eligible_candidate")
            (_continuation_cursors windows))
      end
  end.

(** ** What validated windows guarantee *)

Record candidate_ok (c : Candidate) (t : string) : Prop := {
  co_tenant : tenant_id c = t;
  co_version : 0 < job_version c;
  co_ready : 0 ≤ ready_sequence c;
  co_request : request_ok (resources c);
  co_priority : 0 ≤ base_priority c ≤ 2;
  co_wait : 0 ≤ eligible_wait_seconds c;
}.

Lemma _validate_candidate_ok c t : _validate_candidate c t = Ret () → candidate_ok c t.
Proof.
  unfold _validate_candidate. intros H. cbv zeta in H. peel H. apply raise_when_Ret in H.
  bool_simpl. apply String.eqb_eq in Hc. rewrite !orb_true_iff, !Z.eqb_eq in *.
  split; try done; unfold request_ok in *; lia.
Qed.

(** The candidates of a window, normal ones first. *)
Definition window_candidates (w : CandidateWindow) : list Candidate :=
  normal w ++ option_list (oldest_eligible w).

Definition all_candidates (ws : list (string * CandidateWindow)) : list Candidate :=
  ws ≫= λ item, window_candidates item.2.

Definition ids_agree (cs : list Candidate) : Prop :=
  ∀ c d, c ∈ cs → d ∈ cs → job_id c = job_id d → c = d.

Record windows_ok (ws : list (string * CandidateWindow)) : Prop := {
  wo_nodup : NoDup ws.*1;
  wo_bound : ∀ t w, (t, w) ∈ ws → (length (normal w) ≤ _MAX_NORMAL_CANDIDATES)%nat;
  wo_candidate : ∀ t w c, (t, w) ∈ ws → c ∈ window_candidates w → candidate_ok c t;
  wo_unique : ids_agree (all_candidates ws);
}.

(** The index maps every job ID met so far to its candidate. *)
Definition index_ok (cs : list Candidate) (by_id : list (string * Candidate)) : Prop :=
  ids_agree cs ∧ ∀ j c, dict_get j by_id = Some c ↔ c ∈ cs ∧ job_id c = j.

Lemma index_ok_set cs by_id c :
  index_ok cs by_id →
  (match dict_get (job_id c) by_id with
   | Some previous => bool_decide (previous ≠ c) | None => false end) = false →
  index_ok (cs ++ [c]) (dict_set (job_id c) c by_id).
Proof.
  intros [Hu Hi] Hprev.
  assert (∀ d, d ∈ cs → job_id d = job_id c → d = c) as Hc.
  { intros d Hd Hj. destruct (dict_get (job_id c) by_id) as [p|] eqn:Hg.
    - apply bool_decide_eq_false, dec_stable in Hprev as ->.
      apply Hi in Hg as [? _]. by apply Hu.
    - exfalso. assert (dict_get (job_id c) by_id = Some d) as Hd' by (by apply Hi). congruence. }
  split.
  - intros a b [Ha| ->%list_elem_of_singleton]%elem_of_app
      [Hb| ->%list_elem_of_singleton]%elem_of_app Hj; auto. symmetry. auto.
  - intros j d. rewrite dict_get_set, elem_of_app, list_elem_of_singleton. case_decide as Hj.
    + split; [intros [= <-]; auto|]. intros [[Hd| ->] Hd']; [|done].
      f_equal. symmetry. apply Hc; congruence.
    + rewrite Hi. naive_solver.
Qed.

Lemma validate_normal_loop t cs0 cs by_id ids by_id' ids' :
  index_ok cs0 by_id →
  for_each cs (validate_normal t) (ids, by_id) = Ret (ids', by_id') →
  index_ok (cs0 ++ cs) by_id' ∧ ∀ c, c ∈ cs → candidate_ok c t.
Proof.
  revert cs0 ids by_id. induction cs as [|c cs IH]; simpl; intros cs0 ids by_id Hi H.
  { simplify_eq. rewrite app_nil_r. split; [done|set_solver]. }
  apply bind_Ret in H as ([ids1 by1] & H1 & H2). apply bind_Ret in H1 as ([] & Hc & H1).
  apply _validate_candidate_ok in Hc as Hcok. peel H1. simplify_eq.
  eapply (IH (cs0 ++ [c])) in H2 as [H2 H3]; [|by apply index_ok_set].
  rewrite <- app_assoc in H2. split; [done|].
  intros d [->|Hd]%elem_of_cons; auto.
Qed.

Lemma validate_window_step ws by_id t w ws' by_id' :
  windows_ok ws → index_ok (all_candidates ws) by_id →
  validate_window (ws, by_id) (t, w) = Ret (ws', by_id') →
  ws' = ws ++ [(t, w)] ∧ windows_ok ws' ∧ index_ok (all_candidates ws') by_id'.
Proof.
  intros [W1 W2 W3 W4] Hi H. unfold validate_window in H. peel H. cbv zeta in H.
  apply bind_Ret in H as ([ids by1] & H1 & H). apply dict_mem_false in Hc.
  apply Nat.ltb_ge in Hc0. rewrite (dict_set_fresh t w ws Hc) in H.
  apply (validate_normal_loop t (all_candidates ws)) in H1 as [H1 H2]; [|done].
  assert (ws' = ws ++ [(t, w)] ∧ index_ok (all_candidates (ws ++ [(t, w)])) by_id' ∧
    ∀ c, c ∈ window_candidates w → candidate_ok c t) as (-> & Hi' & Hc').
  { unfold all_candidates in *. rewrite bind_app. simpl. rewrite app_nil_r.
    unfold window_candidates. destruct (oldest_eligible w) as [o|]; simpl in H |- *.
    - apply bind_Ret in H as ([] & Ho & H). apply _validate_candidate_ok in Ho. peel H. simplify_eq.
      rewrite app_assoc. split_and!; [done|by apply index_ok_set|].
      intros c [Hin| ->%list_elem_of_singleton]%elem_of_app; auto.
    - simplify_eq. rewrite app_nil_r. auto. }
  split_and!; [done| |done]. destruct Hi' as [Hu _]. split; [| | |done].
  - rewrite fmap_app. apply NoDup_app. split_and!; [done|set_solver|apply NoDup_singleton].
  - intros t' w' [Hin|Heq%list_elem_of_singleton]%elem_of_app; [eauto|naive_solver].
  - intros t' w' c [Hin|Heq%list_elem_of_singleton]%elem_of_app; [eauto|naive_solver].
Qed.

Lemma _validate_windows_ok s windows :
  _validate_windows s = Ret windows →
  windows = candidates_by_tenant s ∧ windows_ok (candidates_by_tenant s).
Proof.
  unfold _validate_windows. intros H. apply bind_Ret in H as ([ws by_id] & H & [= <-]).
  eapply (for_each_prefix (λ pre acc,
    acc.1 = pre ∧ windows_ok pre ∧ index_ok (all_candidates pre) acc.2)) with (pre:=[]) in H
    as (H1 & H2 & _); [by split| |].
  - intros pre [t w] [ws1 by1] [ws2 by2] (Hp & Hw & Hi) Hstep. simpl in *. subst.
    apply validate_window_step in Hstep as (-> & ? & ?); auto.
  - split_and!; [done| |].
    + split; [constructor|set_solver..|by intros c d ?%not_elem_of_nil].
    + split; [by intros c d ?%not_elem_of_nil|]. intros j c. simpl. set_solver.
Qed.

(** ** The orders of the queue and of a tenant's candidates *)

Definition heap_le : relation HeapEntry :=
  lex (λ a b, dec_leb (he_score a) (he_score b) = true)
  (lex (λ a b, dec_leb (he_share a) (he_share b) = true)
  (lex (λ a b, he_ready a ≤ he_ready b)
       (λ a b, String.leb (he_tenant a) (he_tenant b) = true))).

Definition candidate_le : relation Candidate :=
  lex (λ a b, effective_priority b ≤ effective_priority a)
  (lex (λ a b, ready_sequence a ≤ ready_sequence b)
       (λ a b, String.leb (job_id a) (job_id b) = true)).

Definition entry_finite (e : HeapEntry) : Prop :=
  is_finite (he_score e) = true ∧ is_finite (he_share e) = true.

#[export] Instance heap_le_trans : Transitive heap_le.
Proof.
  repeat apply lex_trans; intros x y z; simpl;
    [apply dec_leb_trans|apply dec_leb_trans|apply Z.le_trans|apply string_leb_trans].
Qed.

#[export] Instance candidate_le_trans : Transitive candidate_le.
Proof.
  repeat apply lex_trans; intros x y z; simpl;
    [intros; lia|apply Z.le_trans|apply string_leb_trans].
Qed.

Lemma lex_bool (le ge rest : bool) (P : Prop) :
  (le = true ∨ ge = true) → (rest = false ↔ P) →
  (if negb (le && ge) then negb ge else rest) = false ↔ ge = true ∧ (le = true → P).
Proof. intros Ht Hr. destruct le, ge; simpl; intuition congruence. Qed.

Lemma heap_ltb_false a b :
  entry_finite a → entry_finite b → heap_ltb a b = false ↔ heap_le b a.
Proof.
  intros [Ha1 Ha2] [Hb1 Hb2]. unfold heap_ltb, heap_le, lex, dec_eqb.
  rewrite !dec_ltb_negb by done.
  apply lex_bool; [by apply dec_leb_total|]. apply lex_bool; [by apply dec_leb_total|].
  destruct (Z.eqb_spec (he_ready a) (he_ready b)) as [->|]; simpl.
  - rewrite negb_false_iff. split; [auto with lia|]. intros [_ H]. by apply H.
  - rewrite Z.ltb_ge. split; [|by intros []]. intros. split; lia.
Qed.

Lemma candidate_ltb_false a b : candidate_ltb a b = false ↔ candidate_le b a.
Proof.
  unfold candidate_ltb, candidate_le, lex.
  destruct (Z.eqb_spec (effective_priority a) (effective_priority b)) as [->|]; simpl.
  - destruct (Z.eqb_spec (ready_sequence a) (ready_sequence b)) as [->|]; simpl.
    + rewrite negb_false_iff. split; [auto with lia|]. intros [_ H]. by apply H.
    + rewrite Z.ltb_ge. split; [auto with lia|]. intros [_ H]. by apply H.
  - rewrite Z.ltb_ge. split; [|by intros []]. intros. split; lia.
Qed.

Lemma heap_le_total a b : entry_finite a → entry_finite b → heap_le a b ∨ heap_le b a.
Proof.
  intros [Ha1 Ha2] [Hb1 Hb2]. repeat apply lex_total;
    first [by apply dec_leb_total|apply string_leb_total|lia
          |destruct (dec_leb _ _); naive_solver].
Qed.

Lemma candidate_le_total a b : candidate_le a b ∨ candidate_le b a.
Proof. repeat apply lex_total; first [apply string_leb_total|lia]. Qed.

Lemma candidate_min c cs d : d ∈ c :: cs → candidate_le (py_min_by candidate_ltb c cs) d.
Proof.
  intros Hd. apply candidate_ltb_false.
  apply (py_min_by_least (λ _, True)); [| | |done|done].
  - intros a. apply candidate_ltb_false. by destruct (candidate_le_total a a).
  - intros x y z _ _ _. rewrite !candidate_ltb_false. intros. by etrans.
  - intros x y _ _ Hlt. destruct (candidate_le_total x y) as [|Hyx]; [by apply candidate_ltb_false|].
    apply candidate_ltb_false in Hyx. congruence.
Qed.

Lemma heap_min e es d :
  (∀ x, x ∈ e :: es → entry_finite x) → d ∈ e :: es → heap_le (py_min_by heap_ltb e es) d.
Proof.
  intros Hf Hd.
  assert (py_min_by heap_ltb e es ∈ e :: es) as Hm
    by (apply elem_of_cons, py_min_by_elem).
  apply heap_ltb_false; [auto..|].
  apply (py_min_by_least entry_finite); [| | |done|done].
  - intros a. unfold heap_ltb, dec_eqb. rewrite !dec_ltb_irrefl, Z.eqb_refl, Z.ltb_irrefl, string_leb_refl.
    by repeat case_match.
  - intros x y z Hx Hy Hz. rewrite !heap_ltb_false by done. intros. by etrans.
  - intros x y Hx Hy Hlt. destruct (heap_le_total x y) as [|Hyx]; [done..|by apply heap_ltb_false|].
    apply heap_ltb_false in Hyx; [|done..]. congruence.
Qed.

Lemma heap_remove_elem t heap e :
  e ∈ heap → he_tenant e ≠ t → e ∈ heap_remove t heap.
Proof.
  induction heap as [|d heap IH]; simpl; [set_solver|]. intros [->|He]%elem_of_cons Ht.
  - destruct (String.eqb_spec (he_tenant d) t); [done|left].
  - destruct (String.eqb_spec (he_tenant d) t); [done|right; auto].
Qed.

Lemma heap_remove_sub t heap : heap_remove t heap `sublist_of` heap.
Proof.
  induction heap as [|d heap IH]; simpl; [done|]. destruct (String.eqb _ _).
  - by apply sublist_cons.
  - by apply sublist_skip.
Qed.

Lemma heap_remove_length t heap :
  t ∈ he_tenant <$> heap → length heap = S (length (heap_remove t heap)).
Proof.
  induction heap as [|d heap IH]; simpl; [set_solver|]. intros Ht.
  destruct (String.eqb_spec (he_tenant d) t); [done|]. simpl. rewrite <- IH; [done|]. set_solver.
Qed.

Lemma foldl_add_sum l acc : foldl _add acc l = res_add acc (res_sum l).
Proof.
  revert acc. induction l as [|r l IH]; simpl; intros acc; [by rewrite res_add_zero_r|].
  by rewrite IH, res_add_assoc.
Qed.

(** ** The decision as a function of the snapshot *)

Section decision.
Context (s : SchedulingSnapshot) (now_ms : Z).

(** Capacity not held by any allocation. *)
Definition free_resources : Resources :=
  _subtract (allocatable_capacity s) (held_in_all (held_allocations s)).

Definition runnable (t : string) (w : CandidateWindow) : list Candidate :=
  List.filter (is_eligible s now_ms t) (normal w).

Definition runnable_or_oldest (t : string) (w : CandidateWindow) : list Candidate :=
  List.filter (is_eligible s now_ms t) (unique_candidates w).*2.

Definition collected_of (ws : list (string * CandidateWindow)) : Collected :=
  {| eligible_all := (λ item, (item.1, runnable_or_oldest item.1 item.2)) <$> ws;
     eligible_normal := (λ item, (item.1, runnable item.1 item.2)) <$> ws;
     candidates_by_id := foldl (λ d item, dict_update d (unique_candidates item.2)) [] ws |}.

(** The queue key of a tenant with runnable candidates. *)
Definition queue_key (t : string) (cs : list Candidate) : option HeapEntry :=
  match cs, dict_get t ((λ l, (tl_tenant_id l, advanced s now_ms l)) <$> tenant_ledgers s) with
  | c :: cs, Some l =>
      Some {| he_score := virtual_score l;
              he_share := dec_div (share_of s t) (weight_of s t);
              he_ready := foldl Z.min (ready_sequence c) (ready_sequence <$> cs);
              he_tenant := t |}
  | _, _ => None
  end.

Definition tenant_queue (ws : list (string * CandidateWindow)) : list HeapEntry :=
  omap (λ item, queue_key item.1 (runnable_or_oldest item.1 item.2)) ws.

Lemma unique_candidates_policy w :
  unique_candidates w =
  match oldest_eligible w with
  | Some oldest => dict_set (job_id oldest) oldest (dict_of ((λ c, (job_id c, c)) <$> normal w))
  | None => dict_of ((λ c, (job_id c, c)) <$> normal w)
  end.
Proof.
  unfold unique_candidates, dict_of, dict_update. destruct (oldest_eligible w); simpl.
  - by rewrite fmap_app, foldl_app.
  - by rewrite app_nil_r.
Qed.

Lemma unique_candidates_elem w c : c ∈ (unique_candidates w).*2 → c ∈ window_candidates w.
Proof.
  rewrite list_elem_of_fmap. intros ([j d] & -> & Hin). unfold unique_candidates, dict_of in Hin.
  apply dict_update_elem in Hin as [Hin|Hin]; [set_solver|].
  apply list_elem_of_fmap in Hin as (d' & [= -> ->] & Hin). done.
Qed.

Context (v : Validated) (Hacc : accountable s now_ms v) (Hws : windows_ok (candidates_by_tenant s)).
Let Hok : snapshot_ok s v := ac_ok s now_ms v Hacc.

Lemma window_tenant_known t :
  t ∈ (candidates_by_tenant s).*1 → t ∈ tl_tenant_id <$> tenant_ledgers s.
Proof using Hacc. apply (demanding_known s v Hok). apply (ac_known s now_ms v Hacc). Qed.

Lemma limits_dict :
  dict_of ((λ p, (tp_tenant_id p, p)) <$> tenant_limits s) = v_limits v.
Proof using Hacc.
  rewrite (so_limits s v Hok). apply dict_of_fmap_keys. apply (so_limits_nodup s v Hok).
Qed.

Lemma order_nodup : NoDup (py_sorted String.leb (tl_tenant_id <$> tenant_ledgers s)).
Proof using Hacc. rewrite py_sorted_perm. apply (so_ledgers_nodup s v Hok). Qed.

Lemma by_order_dict {B} (f : string → B) :
  dict_of ((λ t, (t, f t)) <$> py_sorted String.leb (tl_tenant_id <$> tenant_ledgers s))
  = (λ t, (t, f t)) <$> py_sorted String.leb (tl_tenant_id <$> tenant_ledgers s).
Proof using Hacc.
  apply dict_of_id. rewrite <- list_fmap_compose. simpl. rewrite list_fmap_id. apply order_nodup.
Qed.

Lemma by_order_get {B} (f : string → B) t :
  t ∈ tl_tenant_id <$> tenant_ledgers s →
  dict_get t ((λ t, (t, f t)) <$> py_sorted String.leb (tl_tenant_id <$> tenant_ledgers s)) = Some (f t).
Proof using Hacc.
  intros Ht. apply dict_elem_get.
  - rewrite <- list_fmap_compose. simpl. rewrite list_fmap_id. apply order_nodup.
  - apply list_elem_of_fmap. exists t. split; [done|]. by apply py_sorted_elem.
Qed.

Lemma policy_eligible t c :
  t ∈ tl_tenant_id <$> tenant_ledgers s →
  eligible now_ms (allocatable_capacity s)
    (dict_of (held_resources_by_tenant (accounted_state s now_ms)))
    (dict_of ((λ p, (tp_tenant_id p, p)) <$> tenant_limits s)) t c = Ret (is_eligible s now_ms t c).
Proof using Hacc.
  intros Ht. unfold eligible, is_eligible. simpl. rewrite by_order_dict, by_order_get by done.
  rewrite limits_dict, (limits_lookup s v Hok). simpl.
  apply (limit_keys s v Hok) in Ht as [p ->]. done.
Qed.

Lemma collect_step acc t w :
  t ∈ (candidates_by_tenant s).*1 →
  collect_candidates now_ms (allocatable_capacity s)
    (dict_of (held_resources_by_tenant (accounted_state s now_ms)))
    (dict_of ((λ p, (tp_tenant_id p, p)) <$> tenant_limits s)) acc (t, w)
  = Ret {| eligible_all := dict_set t (runnable_or_oldest t w) (eligible_all acc);
           eligible_normal := dict_set t (runnable t w) (eligible_normal acc);
           candidates_by_id := dict_update (candidates_by_id acc) (unique_candidates w) |}.
Proof using Hacc.
  intros Ht. apply window_tenant_known in Ht as Hk. unfold collect_candidates.
  rewrite (proj2 (dict_mem_spec t (dict_of ((λ p, (tp_tenant_id p, p)) <$> tenant_limits s)))).
  2:{ rewrite limits_dict. apply dict_get_keys. rewrite (limits_lookup s v Hok).
      by apply (limit_keys s v Hok). }
  cbn [negb raise_when mbind outcome_bind]. cbv zeta. rewrite <- unique_candidates_policy.
  rewrite (filterM_pure (is_eligible s now_ms t)) by (intros; by apply policy_eligible).
  cbn [mbind outcome_bind].
  by rewrite (filterM_pure (is_eligible s now_ms t)) by (intros; by apply policy_eligible).
Qed.

Lemma collect_loop :
  for_each (candidates_by_tenant s)
    (collect_candidates now_ms (allocatable_capacity s)
       (dict_of (held_resources_by_tenant (accounted_state s now_ms)))
       (dict_of ((λ p, (tp_tenant_id p, p)) <$> tenant_limits s)))
    {| eligible_normal := []; eligible_all := []; candidates_by_id := [] |}
  = Ret (collected_of (candidates_by_tenant s)).
Proof using Hacc.
  clear Hws. set (body := collect_candidates _ _ _ _).
  assert (∀ todo pre, candidates_by_tenant s = pre ++ todo →
    for_each todo body (collected_of pre) = Ret (collected_of (candidates_by_tenant s))) as Hgen;
    [|by apply (Hgen _ [])].
  induction todo as [|[t w] todo IH]; intros pre Hs.
  { rewrite app_nil_r in Hs. by rewrite Hs. }
  assert (t ∉ pre.*1) as Hfresh.
  { pose proof (ac_windows s now_ms v Hacc) as Hnd. rewrite Hs, fmap_app in Hnd.
    apply NoDup_app in Hnd as (_ & Hnd & _). intros Hp. eapply Hnd; [exact Hp|left]. }
  cbn [for_each]. unfold body at 1. rewrite collect_step by (rewrite Hs, fmap_app; set_solver).
  rewrite <- (IH (pre ++ [(t, w)])) by (by rewrite Hs, <- app_assoc).
  cbn [mbind outcome_bind]. f_equal. unfold collected_of. simpl. rewrite !fmap_app, foldl_app.
  rewrite !dict_set_fresh by (by rewrite <- list_fmap_compose). done.
Qed.

Lemma total_held_all :
  total_held (dict_of (held_resources_by_tenant (accounted_state s now_ms)))
  = held_in_all (held_allocations s).
Proof using Hacc.
  simpl. rewrite by_order_dict. unfold total_held. rewrite <- list_fmap_compose.
  rewrite <- (held_by_partition (py_sorted String.leb (tl_tenant_id <$> tenant_ledgers s))).
  - rewrite foldl_add_sum. apply res_add_zero_l.
  - apply order_nodup.
  - intros a Ha. apply py_sorted_elem. by apply (so_owners s v Hok).
Qed.
Lemma advanced_id l : tl_tenant_id (advanced s now_ms l) = tl_tenant_id l.
Proof. done. Qed.

Lemma ledger_get t :
  t ∈ tl_tenant_id <$> tenant_ledgers s →
  dict_get t (dict_of ((λ l, (tl_tenant_id l, l)) <$> as_tenant_ledgers (accounted_state s now_ms)))
  = dict_get t ((λ l, (tl_tenant_id l, advanced s now_ms l)) <$> tenant_ledgers s).
Proof using Hacc.
  intros Ht. simpl. set (led := (λ l, (tl_tenant_id l, advanced s now_ms l)) <$> tenant_ledgers s).
  set (order := py_sorted String.leb (tl_tenant_id <$> tenant_ledgers s)).
  assert (∀ t', t' ∈ order → ∃ l, dict_get t' led = Some l ∧ tl_tenant_id l = t') as Hget.
  { intros t' Ht'%py_sorted_elem. assert (is_Some (dict_get t' led)) as [l Hl].
    { apply dict_get_keys. unfold led. by rewrite <- list_fmap_compose. }
    exists l. split; [done|]. apply dict_get_elem, list_elem_of_fmap in Hl as (l' & [= -> ->] & _).
    apply advanced_id. }
  assert ((λ l, (tl_tenant_id l, l)) <$> omap (λ t, dict_get t led) order
          = omap (λ t, (λ l, (t, l)) <$> dict_get t led) order) as ->.
  { clear -Hget. induction order as [|t' o IH]; simpl; [done|].
    destruct (Hget t') as (l & -> & Hid); [left|]. simpl. f_equal; [by rewrite Hid|].
    apply IH. intros. apply Hget. by right. }
  assert (∀ o, (∀ t', t' ∈ o → t' ∈ order) →
    (omap (λ t, (λ l, (t, l)) <$> dict_get t led) o).*1 = o) as Hkeys.
  { induction o as [|t' o IH]; simpl; intros Ho; [done|].
    destruct (Hget t') as (l & -> & _); [apply Ho; left|]. simpl. f_equal. apply IH.
    intros. apply Ho. by right. }
  rewrite dict_of_id by (rewrite Hkeys by done; apply order_nodup).
  destruct (Hget t) as (l & Hl & _); [by apply py_sorted_elem|]. rewrite Hl.
  apply dict_elem_get; [rewrite Hkeys by done; apply order_nodup|].
  apply list_elem_of_omap. exists t. split; [by apply py_sorted_elem|]. by rewrite Hl.
Qed.

Lemma queue_loop :
  for_each (eligible_all (collected_of (candidates_by_tenant s)))
    (heap_entry
       (dict_of ((λ l, (tl_tenant_id l, l)) <$> as_tenant_ledgers (accounted_state s now_ms)))
       (dict_of (dominant_shares (accounted_state s now_ms)))
       (dict_of ((λ p, (tp_tenant_id p, p)) <$> tenant_limits s))) []
  = Ret (tenant_queue (candidates_by_tenant s)).
Proof using Hacc.
  clear Hws. cbn [collected_of eligible_all]. set (body := heap_entry _ _ _).
  assert (∀ ws acc, (∀ t, t ∈ ws.*1 → t ∈ tl_tenant_id <$> tenant_ledgers s) →
    for_each ((λ item, (item.1, runnable_or_oldest item.1 item.2)) <$> ws) body acc
    = Ret (acc ++ tenant_queue ws)) as Hgen; [|by apply (Hgen _ []), window_tenant_known].
  induction ws as [|[t w] ws IH]; intros acc Hk; [by rewrite app_nil_r|].
  assert (t ∈ tl_tenant_id <$> tenant_ledgers s) as Ht by (apply Hk; left).
  assert (body acc (t, runnable_or_oldest t w)
          = Ret (acc ++ option_list (queue_key t (runnable_or_oldest t w)))) as Hbody.
  { unfold body, heap_entry, queue_key. destruct (runnable_or_oldest t w) as [|c cs];
      [by rewrite app_nil_r|].
    rewrite ledger_get by done. simpl dominant_shares. rewrite by_order_dict, by_order_get by done.
    rewrite limits_dict, (limits_lookup s v Hok).
    apply (limit_keys s v Hok) in Ht as Hp. destruct Hp as [p Hp]. unfold weight_of. rewrite Hp.
    assert (is_Some (dict_get t ((λ l, (tl_tenant_id l, advanced s now_ms l)) <$> tenant_ledgers s)))
      as [l ->]; [|done]. apply dict_get_keys. by rewrite <- list_fmap_compose. }
  rewrite fmap_cons. cbn [for_each fst snd]. rewrite Hbody. cbn [mbind outcome_bind].
  rewrite IH by (intros; apply Hk; by right). unfold tenant_queue. simpl.
  destruct (queue_key t (runnable_or_oldest t w)); simpl; by rewrite <- ?app_assoc, ?app_nil_r.
Qed.
(** What the loop does for one tenant. *)
Definition overdue (t : string) (w : CandidateWindow) : option Candidate :=
  match oldest_eligible w with
  | Some oldest =>
      if (120 <=? eligible_wait_seconds oldest)
         && existsb (λ c, String.eqb (job_id c) (job_id oldest)) (runnable_or_oldest t w)
      then Some oldest else None
  | None => None
  end.

Definition fitting (t : string) (w : CandidateWindow) : list Candidate :=
  List.filter (λ c, _fits (resources c) free_resources) (runnable t w).

Definition tenant_decision (t : string) (w : CandidateWindow) : option SchedulingDecision :=
  match overdue t w, fitting t w with
  | Some oldest, _ => Some (CreateReservation (job_id oldest) t "eligible_wait_threshold")
  | None, [] => None
  | None, c :: cs =>
      let best := py_min_by candidate_ltb c cs in
      Some (Dispatch (job_id best) (job_version best) (policy_version s) None)
  end.

Lemma serve_tenant_ret t w :
  (t, w) ∈ candidates_by_tenant s →
  serve_tenant (policy_version s) free_resources (candidates_by_tenant s)
    (collected_of (candidates_by_tenant s)) t = Ret (tenant_decision t w).
Proof using Hws.
  intros Hin. pose proof (wo_nodup _ Hws) as Hnd. unfold serve_tenant. simpl.
  rewrite (dict_get_fmap (λ t w, runnable_or_oldest t w)), (dict_get_fmap (λ t w, runnable t w)).
  rewrite (dict_elem_get t w) by done. simpl. fold (overdue t w). unfold tenant_decision.
  fold (fitting t w). by destruct (overdue t w), (fitting t w).
Qed.

(** The queue is served in order: the first tenant with something to do decides. *)
Definition served (heap : list HeapEntry) (r : option SchedulingDecision) : Prop :=
  match r with
  | None => ∀ e w, e ∈ heap → (he_tenant e, w) ∈ candidates_by_tenant s →
      tenant_decision (he_tenant e) w = None
  | Some d => ∃ e w, e ∈ heap ∧ (he_tenant e, w) ∈ candidates_by_tenant s ∧
      tenant_decision (he_tenant e) w = Some d ∧
      ∀ e' w', e' ∈ heap → (he_tenant e', w') ∈ candidates_by_tenant s →
        ¬ heap_le e e' → tenant_decision (he_tenant e') w' = None
  end.

Lemma serve_ret fuel heap :
  (length heap ≤ fuel)%nat → NoDup (he_tenant <$> heap) →
  (∀ e, e ∈ heap → entry_finite e ∧ he_tenant e ∈ (candidates_by_tenant s).*1) →
  ∃ r, serve fuel (policy_version s) free_resources (candidates_by_tenant s)
         (collected_of (candidates_by_tenant s)) heap = Ret r ∧ served heap r.
Proof using Hws.
  clear Hok Hacc v. revert heap. induction fuel as [|fuel IH]; intros heap Hlen Hnd Hheap.
  { destruct heap; simpl in *; [|lia]. exists None. split; [done|]. intros e w He. set_solver. }
  destruct heap as [|e0 es]; [exists None; split; [done|]; intros e w He; set_solver|].
  cbn [serve heappop]. cbv zeta. set (heap := e0 :: es) in *.
  set (least := py_min_by heap_ltb e0 es).
  assert (least ∈ heap) as Hin by (apply elem_of_cons, py_min_by_elem).
  assert (∀ e, e ∈ heap → heap_le least e) as Hmin
    by (intros; apply heap_min; [|done]; intros; by apply Hheap).
  destruct (Hheap least Hin) as [_ ([t w] & Ht & Hw)%list_elem_of_fmap]. simpl in Ht. subst t.
  rewrite (serve_tenant_ret (he_tenant least) w) by done. cbn [mbind outcome_bind].
  destruct (tenant_decision (he_tenant least) w) as [d|] eqn:Hd.
  { exists (Some d). split; [done|]. exists least, w. split_and!; [done..|].
    intros e' w' He' _ Hne. by destruct (Hne (Hmin e' He')). }
  assert (∀ w', (he_tenant least, w') ∈ candidates_by_tenant s → w' = w) as Hfun.
  { intros w' Hw'. apply dict_elem_get in Hw, Hw'; [congruence|apply (wo_nodup _ Hws)..]. }
  set (rest := heap_remove (he_tenant least) heap).
  assert (∀ e, e ∈ rest → e ∈ heap) as Hsub
    by (intros e He; eapply elem_of_submseteq; [exact He|];
        apply sublist_submseteq, heap_remove_sub).
  destruct (IH rest) as (r & Hr & Hs).
  - pose proof (heap_remove_length (he_tenant least) heap ltac:(by apply list_elem_of_fmap_2)).
    unfold rest. lia.
  - eapply sublist_NoDup; [exact Hnd|]. apply fmap_sublist, heap_remove_sub.
  - intros e He. by apply Hheap, Hsub.
  - exists r. split; [done|]. destruct r as [d|].
    + destruct Hs as (e & w1 & He & Hw1 & Hd1 & Hfirst). exists e, w1. split_and!; [by apply Hsub|done|done|].
      intros e' w' He' Hw' Hne. destruct (String.eqb_spec (he_tenant e') (he_tenant least)) as [Heq|Hneq].
      * rewrite Heq in *. by rewrite (Hfun w' Hw').
      * apply Hfirst; [by apply heap_remove_elem|done..].
    + intros e' w' He' Hw'. destruct (String.eqb_spec (he_tenant e') (he_tenant least)) as [Heq|Hneq].
      * rewrite Heq in *. by rewrite (Hfun w' Hw').
      * apply Hs; [by apply heap_remove_elem|done].
Qed.

Lemma queue_elem e :
  e ∈ tenant_queue (candidates_by_tenant s) ↔
  ∃ t w, (t, w) ∈ candidates_by_tenant s ∧ queue_key t (runnable_or_oldest t w) = Some e.
Proof.
  unfold tenant_queue. rewrite list_elem_of_omap. split.
  - intros ([t w] & Hin & He). eauto.
  - intros (t & w & Hin & He). by exists (t, w).
Qed.

Lemma queue_key_tenant t cs e : queue_key t cs = Some e → he_tenant e = t.
Proof. unfold queue_key. repeat case_match; naive_solver. Qed.

Lemma queue_nodup : NoDup (he_tenant <$> tenant_queue (candidates_by_tenant s)).
Proof using Hws.
  pose proof (wo_nodup _ Hws) as Hnd. clear Hok Hacc v Hws. unfold tenant_queue.
  induction (candidates_by_tenant s) as [|[t w] ws IH]; simpl in *; [constructor|].
  apply NoDup_cons in Hnd as [Ht Hnd]. destruct (queue_key t _) as [e|] eqn:He; simpl; [|auto].
  apply NoDup_cons. split; [|auto]. apply queue_key_tenant in He.
  intros (e' & Heq & ([t' w'] & Hin & He')%list_elem_of_omap)%list_elem_of_fmap.
  apply queue_key_tenant in He'. simpl in He'. apply Ht. rewrite <- He, Heq, He'. by apply (list_elem_of_fmap_2 fst _ _ Hin).
Qed.

Lemma ledger_advanced_finite t l :
  dict_get t ((λ l, (tl_tenant_id l, advanced s now_ms l)) <$> tenant_ledgers s) = Some l →
  is_finite (virtual_score l) = true.
Proof using Hacc.
  intros (l' & [= -> ->] & Hl)%dict_get_elem%list_elem_of_fmap.
  apply dec_nonneg_finite. by apply (advanced_nonneg s now_ms v).
Qed.

Lemma queue_finite e :
  e ∈ tenant_queue (candidates_by_tenant s) →
  entry_finite e ∧ he_tenant e ∈ (candidates_by_tenant s).*1.
Proof using Hacc.
  rewrite queue_elem. intros (t & w & Hin & He). pose proof (queue_key_tenant _ _ _ He) as Ht.
  assert (t ∈ (candidates_by_tenant s).*1) as Hk by (by apply (list_elem_of_fmap_2 fst _ _ Hin)).
  split; [|by rewrite Ht]. unfold queue_key in He.
  destruct (runnable_or_oldest t w) as [|c cs]; [done|]. destruct (dict_get t _) as [l|] eqn:Hl; [|done]. apply ledger_advanced_finite in Hl.
  injection He as <-. split; [done|]. simpl. apply dec_div_finite.
  - apply dec_nonneg_finite, (share_of_nonneg s now_ms v). done.
  - apply (weight_of_pos s v Hok). by apply window_tenant_known.
Qed.
Lemma index_get j c :
  dict_get j (candidates_by_id (collected_of (candidates_by_tenant s))) = Some c ↔
  c ∈ all_candidates (candidates_by_tenant s) ∧ job_id c = j.
Proof using Hws.
  pose proof (wo_unique _ Hws) as Hu. clear Hok Hacc v Hws. simpl. set (ws := candidates_by_tenant s) in *.
  set (F := λ d (item : string * CandidateWindow), dict_update d (unique_candidates item.2)).
  assert (∀ ws d kv, kv ∈ foldl F d ws → kv ∈ d ∨ (kv.2 ∈ all_candidates ws ∧ kv.1 = job_id kv.2)) as Hsound.
  { clear. induction ws as [|[t w] ws IH]; simpl; intros d kv Hin; [by left|].
    apply IH in Hin as [Hin|[H1 H2]]; [|right; split; [|done]; apply elem_of_app; by right].
    apply dict_update_elem in Hin as [Hin|Hin]; [by left|]. right. simpl in Hin.
    apply dict_update_elem in Hin as [Hin|Hin]; [set_solver|].
    apply list_elem_of_fmap in Hin as (d' & -> & Hin). split; [|done]. apply elem_of_app. by left. }
  assert (∀ ws d k, k ∈ d.*1 ∨ k ∈ job_id <$> all_candidates ws → k ∈ (foldl F d ws).*1) as Hkeys.
  { clear. induction ws as [|[t w] ws IH]; simpl; intros d k Hk; [set_solver|].
    apply IH. unfold F at 1. rewrite dict_update_elem_keys. simpl.
    unfold unique_candidates, dict_of. rewrite dict_update_elem_keys, fst_fmap_pair.
    unfold all_candidates, window_candidates in *. simpl in Hk. rewrite fmap_app in Hk. set_solver. }
  split.
  - intros Hg%dict_get_elem. apply Hsound in Hg as [Hg|Hg]; [set_solver|]. naive_solver.
  - intros [Hc <-]. assert (job_id c ∈ (foldl F [] ws).*1) as Hk.
    { apply Hkeys. right. by apply list_elem_of_fmap_2. }
    apply dict_get_keys in Hk as [d Hd]. rewrite Hd. f_equal. apply dict_get_elem, Hsound in Hd.
    destruct Hd as [Hd|[Hd Hj]]; [set_solver|]. by apply Hu.
Qed.

(** The decision for an active reservation. *)
Definition reservation_decision (r : ReservationSnapshot) : SchedulingDecision :=
  let rid := rs_reservation_id r in
  match rs_invalid_reason r with
  | Some reason => InvalidateReservation rid reason
  | None =>
    if negb (rs_policy_version r =? policy_version s)
    then InvalidateReservation rid "policy_incompatible"
    else
      match dict_get (rs_job_id r) (candidates_by_id (collected_of (candidates_by_tenant s))),
            limit_of s (rs_tenant_id r) with
      | Some candidate, Some limit =>
        if negb (String.eqb (tenant_id candidate) (rs_tenant_id r))
        then InvalidateReservation rid "no_longer_eligible"
        else
          match candidate_ineligibility_reason candidate now_ms (allocatable_capacity s)
                  (held_by (rs_tenant_id r) (held_allocations s)) limit with
          | Some reason => InvalidateReservation rid (reservation_reason reason)
          | None =>
            if _fits (resources candidate) free_resources
            then Dispatch (job_id candidate) (job_version candidate) (policy_version s) (Some rid)
            else DrainForReservation rid (job_id candidate)
          end
      | _, _ => InvalidateReservation rid "no_longer_eligible"
      end
  end.

Lemma all_candidates_elem c :
  c ∈ all_candidates (candidates_by_tenant s) ↔
  ∃ t w, (t, w) ∈ candidates_by_tenant s ∧ c ∈ window_candidates w.
Proof.
  unfold all_candidates. rewrite list_elem_of_bind. split.
  - intros ([t w] & Hc & Hin). eauto.
  - intros (t & w & Hin & Hc). by exists (t, w).
Qed.

Lemma decide_reservation_ret r :
  decide_reservation s now_ms (dict_of (held_resources_by_tenant (accounted_state s now_ms)))
    (dict_of ((λ p, (tp_tenant_id p, p)) <$> tenant_limits s)) free_resources
    (candidates_by_id (collected_of (candidates_by_tenant s))) r
  = Ret (reservation_decision r).
Proof using Hacc Hws.
  unfold decide_reservation, reservation_decision.
  destruct (rs_invalid_reason r); [done|]. destruct (negb (_ =? _)); [done|].
  destruct (dict_get (rs_job_id r) _) as [c|] eqn:Hc; [|done].
  apply index_get in Hc as [(t & w & Hin & Hc)%all_candidates_elem _].
  destruct (wo_candidate _ Hws t w c Hin Hc) as [Ht _ _ _ _ _].
  assert (t ∈ tl_tenant_id <$> tenant_ledgers s) as Hk
    by (by apply window_tenant_known; apply (list_elem_of_fmap_2 fst _ _ Hin)).
  destruct (String.eqb_spec (tenant_id c) (rs_tenant_id r)) as [Heq|Hne]; simpl.
  - assert (t = rs_tenant_id r) as -> by congruence.
    simpl held_resources_by_tenant. rewrite by_order_dict, by_order_get by done.
    rewrite limits_dict, (limits_lookup s v Hok). apply (limit_keys s v Hok) in Hk as [p ->].
    simpl. destruct (candidate_ineligibility_reason _ _ _ _ _); [done|]. by destruct (_fits _ _).
  - by destruct (limit_of s (rs_tenant_id r)).
Qed.
(** [decide] once its validation has passed. *)
Lemma decide_ret st :
  _validate_windows s = Ret (candidates_by_tenant s) → advance_accounting s now_ms = Ret st →
  match active_reservation s with
  | Some r => decide s now_ms = Ret (reservation_decision r)
  | None => ∃ r, served (tenant_queue (candidates_by_tenant s)) r ∧
      decide s now_ms = Ret (default
        (NoDecision
          (if (0 <? length (tenant_queue (candidates_by_tenant s)))%nat
           then "no_candidate_fits_free_resources" else "no_eligible_candidate")
          (_continuation_cursors (candidates_by_tenant s))) r)
  end.
Proof using Hacc Hws.
  intros Hv Hst. destruct (advance_accounting_inv s now_ms st Hst) as (_ & _ & _ & ->).
  unfold decide. rewrite Hv, Hst. cbn [mbind outcome_bind]. cbv zeta.
  rewrite total_held_all. fold free_resources. rewrite collect_loop. cbn [mbind outcome_bind].
  destruct (active_reservation s) as [r|]; [by rewrite decide_reservation_ret|].
  rewrite queue_loop. cbn [mbind outcome_bind].
  destruct (serve_ret (length (tenant_queue (candidates_by_tenant s)))
              (tenant_queue (candidates_by_tenant s))) as (r & Hr & Hs);
    [done|apply queue_nodup|apply queue_finite|].
  exists r. split; [done|]. rewrite Hr. by destruct r.
Qed.
End decision.

Lemma decide_inv s now_ms d :
  decide s now_ms = Ret d →
  windows_ok (candidates_by_tenant s) ∧ ∃ v, accountable s now_ms v ∧
  match active_reservation s with
  | Some r => d = reservation_decision s now_ms r
  | None => ∃ r, served s now_ms (tenant_queue s now_ms (candidates_by_tenant s)) r ∧
      d = default
        (NoDecision
          (if (0 <? length (tenant_queue s now_ms (candidates_by_tenant s)))%nat
           then "no_candidate_fits_free_resources" else "no_eligible_candidate")
          (_continuation_cursors (candidates_by_tenant s))) r
  end.
Proof.
  intros H. assert (∃ ws st, _validate_windows s = Ret ws ∧ advance_accounting s now_ms = Ret st)
    as (ws & st & Hw & Hst).
  { unfold decide in H. apply bind_Ret in H as (ws & Hw & H). apply bind_Ret in H as (st & Hst & _).
    eauto. }
  destruct (_validate_windows_ok s ws Hw) as [-> Hws].
  destruct (advance_accounting_inv s now_ms st Hst) as (v & _ & Hacc & _).
  split; [done|]. exists v. split; [done|].
  pose proof (decide_ret s now_ms v Hacc Hws st Hw Hst) as Hd.
  destruct (active_reservation s); [congruence|]. destruct Hd as (r & Hs & Hd). exists r.
  split; [done|]. congruence.
Qed.

(** ** The decisions *)

Lemma policy_fits_spec a b : _fits a b = true ↔ res_le a b.
Proof. apply Accounting._fits_spec. Qed.

Lemma fits_free s r :
  _fits r (free_resources s) = true ↔
  res_le (res_add (held_in_all (held_allocations s)) r) (allocatable_capacity s).
Proof. rewrite policy_fits_spec. unfold res_le. simpl. lia. Qed.

Lemma runnable_elem s now_ms t w c :
  c ∈ runnable s now_ms t w ↔ c ∈ normal w ∧ is_eligible s now_ms t c = true.
Proof. unfold runnable. by rewrite list_elem_of_In, List.filter_In, <- list_elem_of_In. Qed.

Lemma fitting_elem s now_ms t w c :
  c ∈ fitting s now_ms t w ↔
  c ∈ normal w ∧ is_eligible s now_ms t c = true ∧ _fits (resources c) (free_resources s) = true.
Proof.
  unfold fitting. rewrite list_elem_of_In, List.filter_In, <- list_elem_of_In, runnable_elem. tauto.
Qed.

(** A tenant's turn ends in a dispatch of its best fitting candidate, a
    reservation for its overdue one, or nothing. *)
Lemma tenant_decision_dispatch s now_ms t w j ver pv r :
  tenant_decision s now_ms t w = Some (Dispatch j ver pv r) →
  overdue s now_ms t w = None ∧ r = None ∧ pv = policy_version s ∧
  ∃ c, c ∈ fitting s now_ms t w ∧ job_id c = j ∧ job_version c = ver ∧
    ∀ d, d ∈ fitting s now_ms t w → candidate_le c d.
Proof.
  unfold tenant_decision. destruct (overdue s now_ms t w); [done|].
  destruct (fitting s now_ms t w) as [|c cs]; [done|]. intros [= <- <- <- <-].
  split_and!; [done..|]. exists (py_min_by candidate_ltb c cs).
  split_and!; [apply elem_of_cons, py_min_by_elem|done..|]. intros d. apply candidate_min.
Qed.

Lemma tenant_decision_reserve s now_ms t w j t' reason :
  tenant_decision s now_ms t w = Some (CreateReservation j t' reason) →
  t' = t ∧ reason = "eligible_wait_threshold" ∧
  ∃ o, overdue s now_ms t w = Some o ∧ job_id o = j.
Proof.
  unfold tenant_decision. destruct (overdue s now_ms t w) as [o|]; [|by destruct (fitting _ _ _ _)].
  naive_solver.
Qed.

Lemma tenant_decision_none s now_ms t w :
  tenant_decision s now_ms t w = None ↔
  overdue s now_ms t w = None ∧ fitting s now_ms t w = [].
Proof.
  unfold tenant_decision. destruct (overdue s now_ms t w), (fitting s now_ms t w); naive_solver.
Qed.

Lemma tenant_decision_some s now_ms t w d :
  tenant_decision s now_ms t w = Some d →
  (∃ j ver pv, d = Dispatch j ver pv None) ∨ (∃ j reason, d = CreateReservation j t reason).
Proof.
  unfold tenant_decision. destruct (overdue s now_ms t w), (fitting s now_ms t w); naive_solver.
Qed.

Lemma unique_candidates_complete w c :
  ids_agree (window_candidates w) → c ∈ window_candidates w → c ∈ (unique_candidates w).*2.
Proof.
  intros Hu Hc. assert (job_id c ∈ (unique_candidates w).*1) as Hk.
  { unfold unique_candidates. apply dict_of_elem_keys. rewrite fst_fmap_pair. by apply list_elem_of_fmap_2. }
  apply dict_get_keys in Hk as [d Hd%dict_get_elem].
  assert (d ∈ (unique_candidates w).*2) as Hd' by (by apply (list_elem_of_fmap_2 snd _ _ Hd)).
  apply unique_candidates_elem in Hd' as Hdw.
  unfold unique_candidates, dict_of in Hd. apply dict_update_elem in Hd as [Hd|Hd]; [set_solver|].
  apply list_elem_of_fmap in Hd as (c' & [= Hj ->] & _). by rewrite (Hu c c').
Qed.

Section facts.
Context (s : SchedulingSnapshot) (now_ms : Z) (v : Validated).
Context (Hws : windows_ok (candidates_by_tenant s)) (Hacc : accountable s now_ms v).

Lemma window_ids_agree t w : (t, w) ∈ candidates_by_tenant s → ids_agree (window_candidates w).
Proof using Hws.
  intros Hin c d Hc Hd. apply (wo_unique _ Hws); apply all_candidates_elem; eauto.
Qed.

Lemma runnable_or_oldest_elem t w c :
  (t, w) ∈ candidates_by_tenant s →
  c ∈ runnable_or_oldest s now_ms t w ↔
  c ∈ window_candidates w ∧ is_eligible s now_ms t c = true.
Proof using Hws.
  intros Hin. unfold runnable_or_oldest. rewrite list_elem_of_In, List.filter_In, <- list_elem_of_In.
  split; intros [Hc ?]; split; try done; [by apply unique_candidates_elem|].
  apply unique_candidates_complete; [by eapply window_ids_agree|done].
Qed.

Lemma overdue_spec t w o :
  (t, w) ∈ candidates_by_tenant s →
  overdue s now_ms t w = Some o ↔
  oldest_eligible w = Some o ∧ 120 ≤ eligible_wait_seconds o ∧ is_eligible s now_ms t o = true.
Proof using Hws.
  clear Hacc v. intros Hin. unfold overdue. destruct (oldest_eligible w) as [o'|] eqn:Ho; [|naive_solver].
  assert (o' ∈ window_candidates w) as Ho'.
  { unfold window_candidates. rewrite Ho. simpl. set_solver. }
  assert (existsb (λ c, String.eqb (job_id c) (job_id o')) (runnable_or_oldest s now_ms t w)
          = is_eligible s now_ms t o') as ->.
  { apply eq_true_iff_eq. rewrite List.existsb_exists. split.
    - intros (c & Hc & Hj). apply String.eqb_eq in Hj.
      apply list_elem_of_In, runnable_or_oldest_elem in Hc as [Hc He]; [|done].
      by rewrite <- (window_ids_agree t w Hin c o' Hc Ho' Hj).
    - intros He. exists o'. split; [|apply String.eqb_refl].
      by apply list_elem_of_In, runnable_or_oldest_elem. }
  destruct (Z.leb_spec 120 (eligible_wait_seconds o')), (is_eligible s now_ms t o') eqn:He; simpl;
    (split; [intros [= <-]; done|intros ([= <-] & ? & ?); first [done|congruence|lia]]).
Qed.

(** A tenant with an eligible candidate waits in the queue. *)
Lemma queue_has t w c :
  (t, w) ∈ candidates_by_tenant s → c ∈ window_candidates w → is_eligible s now_ms t c = true →
  ∃ e, queue_key s now_ms t (runnable_or_oldest s now_ms t w) = Some e ∧
    e ∈ tenant_queue s now_ms (candidates_by_tenant s).
Proof using Hacc Hws.
  intros Hin Hc He. assert (c ∈ runnable_or_oldest s now_ms t w) as Hr
    by (by apply runnable_or_oldest_elem).
  assert (is_Some (queue_key s now_ms t (runnable_or_oldest s now_ms t w))) as [e Hk].
  { unfold queue_key. destruct (runnable_or_oldest s now_ms t w) as [|c0 cs]; [set_solver|].
    assert (is_Some (dict_get t ((λ l, (tl_tenant_id l, advanced s now_ms l)) <$> tenant_ledgers s)))
      as [l ->]; [|done].
    apply dict_get_keys. rewrite <- list_fmap_compose.
    apply (window_tenant_known s now_ms v Hacc). apply (list_elem_of_fmap_2 fst _ _ Hin). }
  exists e. split; [done|]. apply queue_elem. eauto.
Qed.

Lemma queue_entry_elem t w e :
  queue_key s now_ms t (runnable_or_oldest s now_ms t w) = Some e →
  (t, w) ∈ candidates_by_tenant s →
  e ∈ tenant_queue s now_ms (candidates_by_tenant s) ∧ he_tenant e = t.
Proof using. intros He Hin. split; [apply queue_elem; eauto|by eapply queue_key_tenant]. Qed.

(** An idle queue: nothing overdue, and no eligible candidate that fits. *)
Definition nothing_to_do : Prop :=
  ∀ t w, (t, w) ∈ candidates_by_tenant s →
  overdue s now_ms t w = None ∧
  ∀ c, c ∈ normal w → is_eligible s now_ms t c = true →
    ¬ res_le (res_add (held_in_all (held_allocations s)) (resources c)) (allocatable_capacity s).

Lemma tenant_idle t w :
  tenant_decision s now_ms t w = None ↔
  overdue s now_ms t w = None ∧
  ∀ c, c ∈ normal w → is_eligible s now_ms t c = true →
    ¬ res_le (res_add (held_in_all (held_allocations s)) (resources c)) (allocatable_capacity s).
Proof using.
  clear Hacc Hws v. rewrite tenant_decision_none. setoid_rewrite <- fits_free. split; intros [H1 H2]; split; try done.
  - intros c Hc He Hf. assert (c ∈ fitting s now_ms t w) as Hin by (by apply fitting_elem).
    rewrite H2 in Hin. set_solver.
  - destruct (fitting s now_ms t w) as [|c cs] eqn:Hf; [done|].
    assert (c ∈ fitting s now_ms t w) as (Hn & He & Hfit)%fitting_elem by (rewrite Hf; left).
    by destruct (H2 c Hn He).
Qed.

Lemma nothing_to_do_served :
  served s now_ms (tenant_queue s now_ms (candidates_by_tenant s)) None ↔ nothing_to_do.
Proof using Hacc Hws.
  split.
  - intros Hs t w Hin. apply tenant_idle.
    destruct (tenant_decision s now_ms t w) as [d|] eqn:Hd; [|done]. exfalso.
    assert (∃ c, c ∈ window_candidates w ∧ is_eligible s now_ms t c = true) as (c & Hc & He).
    { unfold tenant_decision in Hd. destruct (overdue s now_ms t w) as [o|] eqn:Ho.
      - apply overdue_spec in Ho as (Ho & _ & He); [|done]. exists o. split; [|done].
        unfold window_candidates. rewrite Ho. simpl. set_solver.
      - destruct (fitting s now_ms t w) as [|c cs] eqn:Hf; [done|]. exists c.
        assert (c ∈ fitting s now_ms t w) as (Hn & He & _)%fitting_elem by (rewrite Hf; left).
        split; [|done]. apply elem_of_app. by left. }
    destruct (queue_has t w c Hin Hc He) as (e & Hk & Hq).
    apply queue_key_tenant in Hk as Ht. subst t. specialize (Hs e w Hq Hin). congruence.
  - intros Hn e w He Hin. by apply tenant_idle, Hn.
Qed.
End facts.

Lemma dispatch_sound s now_ms j ver pv r :
  decide s now_ms = Ret (Dispatch j ver pv r) →
  ∃ t w c p, (t, w) ∈ candidates_by_tenant s ∧ c ∈ window_candidates w ∧
    tenant_id c = t ∧ limit_of s t = Some p ∧
    job_id c = j ∧ job_version c = ver ∧ policy_version s = pv ∧
    may_run c now_ms (allocatable_capacity s) (held_by t (held_allocations s)) p ∧
    res_le (res_add (held_in_all (held_allocations s)) (resources c)) (allocatable_capacity s).
Proof.
  intros (Hws & v & Hacc & Hd)%decide_inv.
  destruct (active_reservation s) as [rv|].
  - unfold reservation_decision in Hd. repeat case_match; simplify_eq.
    rename select Candidate into c. rename select TenantPolicySnapshot into p.
    match goal with H : dict_get _ _ = Some c |- _ => apply index_get in H as [Hc Hj]; [|done] end.
    apply all_candidates_elem in Hc as (t & w & Hin & Hc).
    destruct (wo_candidate _ Hws t w c Hin Hc) as [Ht _ _ _ _ _]. bool_simpl.
    assert (t = rs_tenant_id rv) as -> by (rewrite <- Ht; by apply String.eqb_eq).
    exists (rs_tenant_id rv), w, c, p. split_and!; try done.
    + by apply ineligibility_spec.
    + by apply fits_free.
  - destruct Hd as (d & Hs & Hd). destruct d as [d|]; [|done]. simpl in Hd. subst d.
    destruct Hs as (e & w & He & Hin & Hd & _).
    apply tenant_decision_dispatch in Hd as (_ & -> & -> & c & Hc & <- & <- & _).
    apply fitting_elem in Hc as (Hn & Hel & Hfit). apply is_eligible_spec in Hel as (p & Hp & Hrun).
    assert (c ∈ window_candidates w) as Hc by (apply elem_of_app; by left).
    destruct (wo_candidate _ Hws _ w c Hin Hc) as [Ht _ _ _ _ _].
    exists (he_tenant e), w, c, p. split_and!; try done. by apply fits_free.
Qed.

(** C9: whenever [decide] dispatches a job, with or without a reservation, the
    job is a candidate of some tenant's window that may run now under every
    eligibility rule (queued, retry time passed, compatible, within the
    tenant's quota and concurrency limits), everything already held plus the
    job fits the allocatable capacity, and the decision carries the job's and
    the policy's current versions. *)
Theorem decide_dispatch_safe s now_ms j ver pv r :
  decide s now_ms = Ret (Dispatch j ver pv r) →
  ∃ t w c p, (t, w) ∈ candidates_by_tenant s ∧ c ∈ window_candidates w ∧
    tenant_id c = t ∧ limit_of s t = Some p ∧
    job_id c = j ∧ job_version c = ver ∧ policy_version s = pv ∧
    may_run c now_ms (allocatable_capacity s) (held_by t (held_allocations s)) p ∧
    res_le (res_add (held_in_all (held_allocations s)) (resources c)) (allocatable_capacity s).
Proof. apply dispatch_sound. Qed.

Lemma decide_dispatch_safe_witness :
  decide (sample_snapshot 30 1000 None) 1000 = Ret (Dispatch "jb" 1 1 None) ∧
  ∃ t w c p, (t, w) ∈ candidates_by_tenant (sample_snapshot 30 1000 None) ∧ c ∈ window_candidates w ∧
    tenant_id c = t ∧ limit_of (sample_snapshot 30 1000 None) t = Some p ∧
    job_id c = "jb" ∧ job_version c = 1 ∧ policy_version (sample_snapshot 30 1000 None) = 1 ∧
    may_run c 1000 (allocatable_capacity (sample_snapshot 30 1000 None))
      (held_by t (held_allocations (sample_snapshot 30 1000 None))) p ∧
    res_le (res_add (held_in_all (held_allocations (sample_snapshot 30 1000 None))) (resources c))
      (allocatable_capacity (sample_snapshot 30 1000 None)).
Proof.
  assert (decide (sample_snapshot 30 1000 None) 1000 = Ret (Dispatch "jb" 1 1 None)) as H
    by (vm_compute; reflexivity).
  split; [exact H|]. exact (decide_dispatch_safe _ _ _ _ _ _ H).
Defined.



(** C28: work conservation.  Without an active reservation, [decide] returns
    [NoDecision] exactly when no tenant has an overdue candidate and no
    eligible normal candidate of any tenant fits beside what is held; in
    particular it never idles while something could be dispatched. *)
Theorem decide_work_conserving s now_ms d :
  active_reservation s = None → decide s now_ms = Ret d →
  (∃ reason cursors, d = NoDecision reason cursors) ↔ nothing_to_do s now_ms.
Proof.
  intros Hnone (Hws & v & Hacc & Hd)%decide_inv. rewrite Hnone in Hd. destruct Hd as (r & Hs & ->).
  rewrite <- (nothing_to_do_served s now_ms v Hws Hacc). destruct r as [d|]; simpl; [|split; eauto].
  destruct Hs as (e & w & He & Hin & Hd & _). split.
  - intros (reason & cursors & ->). by apply tenant_decision_some in Hd as [(?&?&?&?)|(?&?&?)].
  - intros Hidle. specialize (Hidle e w He Hin). congruence.
Qed.

Lemma decide_work_conserving_witness :
  nothing_to_do (sample_snapshot 30 3000 None) 1000.
Proof.
  apply (decide_work_conserving (sample_snapshot 30 3000 None) 1000
    (NoDecision "no_candidate_fits_free_resources" [])); [reflexivity|vm_compute; reflexivity|].
  eauto.
Defined.

(** no starvation behind small jobs.  A reservation is created only for a
    tenant's oldest candidate, when that candidate may run and has waited at
    least 120 s; and when the tenant at the head of the queue has such a
    candidate, a reservation for it is what [decide] returns. *)
Theorem decide_reservation_for_overdue s now_ms d :
  active_reservation s = None → decide s now_ms = Ret d →
  (∀ j t reason, d = CreateReservation j t reason →
     ∃ w o, (t, w) ∈ candidates_by_tenant s ∧ oldest_eligible w = Some o ∧ job_id o = j ∧
       120 ≤ eligible_wait_seconds o ∧ is_eligible s now_ms t o = true) ∧
  (∀ e w o, e ∈ tenant_queue s now_ms (candidates_by_tenant s) →
     (∀ e', e' ∈ tenant_queue s now_ms (candidates_by_tenant s) → e' ≠ e → ¬ heap_le e' e) →
     (he_tenant e, w) ∈ candidates_by_tenant s → oldest_eligible w = Some o →
     120 ≤ eligible_wait_seconds o → is_eligible s now_ms (he_tenant e) o = true →
     d = CreateReservation (job_id o) (he_tenant e) "eligible_wait_threshold").
Proof.
  intros Hnone (Hws & v & Hacc & Hd)%decide_inv. rewrite Hnone in Hd. destruct Hd as (r & Hs & ->).
  split.
  - intros j t reason Hd. destruct r as [d|]; [|done]. simpl in Hd. subst d.
    destruct Hs as (e & w & He & Hin & Hd & _).
    apply tenant_decision_reserve in Hd as (-> & _ & o & Ho & <-).
    apply (overdue_spec s now_ms Hws) in Ho as (? & ? & ?); [|done]. exists w, o. auto.
  - intros e w o He Hhead Hin Ho Hwait Hel.
    assert (overdue s now_ms (he_tenant e) w = Some o) as Hover by (by apply overdue_spec).
    assert (tenant_decision s now_ms (he_tenant e) w
            = Some (CreateReservation (job_id o) (he_tenant e) "eligible_wait_threshold")) as Hdec
      by (unfold tenant_decision; by rewrite Hover).
    destruct r as [d|]; [|rewrite (Hs e w He Hin) in Hdec; done].
    destruct Hs as (e1 & w1 & He1 & Hin1 & Hd1 & Hfirst). simpl.
    destruct (String.eqb_spec (he_tenant e) (he_tenant e1)) as [Heq|Hne].
    + assert (w1 = w) as ->; [|congruence].
      rewrite Heq in Hin. apply dict_elem_get in Hin, Hin1; [congruence|apply (wo_nodup _ Hws)..].
    + rewrite (Hfirst e w He Hin) in Hdec; [done|]. apply Hhead; congruence.
Qed.

Lemma decide_reservation_for_overdue_witness :
  ∃ w o, ("b", w) ∈ candidates_by_tenant (sample_snapshot 200 1000 None) ∧
    oldest_eligible w = Some o ∧ job_id o = "jb" ∧ 120 ≤ eligible_wait_seconds o ∧
    is_eligible (sample_snapshot 200 1000 None) 1000 "b" o = true.
Proof.
  apply (proj1 (decide_reservation_for_overdue (sample_snapshot 200 1000 None) 1000
    (CreateReservation "jb" "b" "eligible_wait_threshold") ltac:(reflexivity)
    ltac:(vm_compute; reflexivity)) "jb" "b" "eligible_wait_threshold").
  reflexivity.
Defined.

(** an active reservation has the machine to itself.  While one is active
    [decide] never looks at other work: it invalidates the reservation,
    dispatches exactly the reserved job under the reservation's ID, or drains
    for it, and it drains only when the reserved job may run but does not fit
    beside what is held. *)
Theorem decide_reservation_exclusive s now_ms rv d :
  active_reservation s = Some rv → decide s now_ms = Ret d →
  (∃ reason, d = InvalidateReservation (rs_reservation_id rv) reason) ∨
  ∃ w c, (rs_tenant_id rv, w) ∈ candidates_by_tenant s ∧ c ∈ window_candidates w ∧
    job_id c = rs_job_id rv ∧ is_eligible s now_ms (rs_tenant_id rv) c = true ∧
    rs_policy_version rv = policy_version s ∧ rs_invalid_reason rv = None ∧
    ((res_le (res_add (held_in_all (held_allocations s)) (resources c)) (allocatable_capacity s) ∧
      d = Dispatch (rs_job_id rv) (job_version c) (policy_version s) (Some (rs_reservation_id rv))) ∨
     (¬ res_le (res_add (held_in_all (held_allocations s)) (resources c)) (allocatable_capacity s) ∧
      d = DrainForReservation (rs_reservation_id rv) (rs_job_id rv))).
Proof.
  intros Hsome (Hws & v & Hacc & Hd)%decide_inv. rewrite Hsome in Hd. subst d.
  unfold reservation_decision. destruct (rs_invalid_reason rv) eqn:Hr; [eauto|].
  destruct (negb _) eqn:Hp; [eauto|]. bool_simpl.
  destruct (dict_get _ _) as [c|] eqn:Hc; [|eauto].
  destruct (limit_of s (rs_tenant_id rv)) as [p|] eqn:Hl; [|eauto].
  destruct (negb (String.eqb _ _)) eqn:Ht; [eauto|]. bool_simpl. apply String.eqb_eq in Ht.
  destruct (candidate_ineligibility_reason _ _ _ _ _) eqn:Hi; [eauto|]. right.
  apply index_get in Hc as [(t & w & Hin & Hc)%all_candidates_elem Hj]; [|done].
  destruct (wo_candidate _ Hws t w c Hin Hc) as [Ht' _ _ _ _ _].
  assert (t = rs_tenant_id rv) as -> by congruence. exists w, c.
  split_and!; try done.
  { apply is_eligible_spec. exists p. split; [done|]. by apply ineligibility_spec. }
  destruct (_fits (resources c) (free_resources s)) eqn:Hf.
  - left. apply fits_free in Hf. by rewrite Hj.
  - right. rewrite <- fits_free, Hf, Hj. auto.
Qed.

Lemma decide_reservation_exclusive_witness :
  decide (sample_snapshot 30 3000 (Some sample_reservation)) 1000
    = Ret (DrainForReservation "r" "jb") ∧
  ∃ w c, ("b", w) ∈ candidates_by_tenant (sample_snapshot 30 3000 (Some sample_reservation)) ∧
    c ∈ window_candidates w ∧ job_id c = "jb".
Proof.
  assert (decide (sample_snapshot 30 3000 (Some sample_reservation)) 1000
    = Ret (DrainForReservation "r" "jb")) as H by (vm_compute; reflexivity).
  split; [exact H|].
  destruct (decide_reservation_exclusive (sample_snapshot 30 3000 (Some sample_reservation)) 1000
    sample_reservation _ eq_refl H) as [[reason Hr]|(w & c & H1 & H2 & H3 & _)]; [discriminate Hr|].
  exists w, c. auto.
Defined.

Lemma _validate_windows_no_crash s : no_crash (_validate_windows s).
Proof.
  unfold _validate_windows. apply no_crash_bind; [|intros; apply no_crash_Ret].
  apply (no_crash_for_each (λ _, True)); [|done..]. intros [ws by_id] [t w] _ _.
  assert (∀ c, no_crash (_validate_candidate c t)) as Hc.
  { intros c. unfold _validate_candidate. cbv zeta. repeat no_crash_step. }
  unfold validate_window. repeat no_crash_step. cbv zeta. apply no_crash_bind.
  - apply (no_crash_for_each (λ _, True)); [|done..]. intros [ids by1] c _ _. unfold validate_normal.
    apply no_crash_bind; [apply Hc|intros [] _]. repeat no_crash_step.
  - intros [ids by1] _. destruct (oldest_eligible w); [|apply no_crash_Ret].
    apply no_crash_bind; [apply Hc|intros [] _]. repeat no_crash_step.
Qed.


(** aging.  A valid candidate's effective priority stays within 0..2, never
    falls below its base priority or as it waits longer, and is the top one
    after two minutes whatever the base priority. *)
Theorem effective_priority_ages c d t :
  _validate_candidate c t = Ret () → _validate_candidate d t = Ret () →
  base_priority c = base_priority d →
  eligible_wait_seconds c ≤ eligible_wait_seconds d →
  base_priority c ≤ effective_priority c ≤ 2 ∧ effective_priority c ≤ effective_priority d ∧
  (120 ≤ eligible_wait_seconds d → effective_priority d = 2).
Proof.
  intros Hc _ Heq Hle. apply _validate_candidate_ok in Hc as [_ _ _ _ Hb Hw].
  unfold effective_priority.
  rewrite <- Heq. pose proof (Z.div_pos (eligible_wait_seconds c) 60 Hw).
  pose proof (Z.div_le_mono _ _ 60 ltac:(lia) Hle). split_and!; [lia|lia|lia|].
  intros H120. pose proof (Z.div_le_lower_bound (eligible_wait_seconds d) 60 2). lia.
Qed.

Lemma effective_priority_ages_witness :
  effective_priority (sample_candidate "j" "a" 1 60 1000) ≤
  effective_priority (sample_candidate "j" "a" 1 130 1000) ∧
  effective_priority (sample_candidate "j" "a" 1 130 1000) = 2.
Proof.
  destruct (effective_priority_ages (sample_candidate "j" "a" 1 60 1000)
    (sample_candidate "j" "a" 1 130 1000) "a") as (_ & H1 & H2);
    [reflexivity|reflexivity|reflexivity|simpl; lia|].
  split; [exact H1|]. apply H2. simpl. lia.
Defined.
