(* ===== verification/PyValue.v ===== *)
(** * JSON-shaped Python values

    The values that cross a JSON boundary: [None], booleans, integers, floats,
    strings, lists and dicts with string keys, with Python's [==] on them (the
    numeric tower compares by value, dicts regardless of order) and the effect
    of [json.loads(json.dumps(v, sort_keys=True))], which sorts the keys of
    every dict and changes nothing else.  A [str] is held as the UTF-8 encoding of
    its code points, lone surrogates included, so that the order of strings is the
    order of code points ([Json] has the conversions). *)

From S2P Require Import Prelude.
From Stdlib Require Export SpecFloat.

Local Open Scope string_scope.
Local Open Scope list_scope.
Local Open Scope Z_scope.

Inductive pyval :=
| VNone
| VBool (b : bool)
| VInt (n : Z)
| VFloat (f : spec_float)
| VStr (s : string)
| VList (l : list pyval)
| VDict (d : list (string * pyval)).

Section pyval_induction.
Context (P : pyval → Prop).
Context (Hnone : P VNone) (Hbool : ∀ b, P (VBool b)) (Hint : ∀ n, P (VInt n))
  (Hfloat : ∀ f, P (VFloat f)) (Hstr : ∀ s, P (VStr s))
  (Hlist : ∀ l, Forall P l → P (VList l)) (Hdict : ∀ d, Forall (λ kv, P kv.2) d → P (VDict d)).

Fixpoint pyval_nested_ind (v : pyval) : P v :=
  match v with
  | VNone => Hnone
  | VBool b => Hbool b
  | VInt n => Hint n
  | VFloat f => Hfloat f
  | VStr s => Hstr s
  | VList l => Hlist l
      ((fix go (l : list pyval) : Forall P l :=
          match l with [] => Forall_nil_2 P | x :: l => Forall_cons_2 P x l (pyval_nested_ind x) (go l) end) l)
  | VDict d => Hdict d
      ((fix go (d : list (string * pyval)) : Forall (λ kv, P kv.2) d :=
          match d with
          | [] => Forall_nil_2 _
          | kv :: d => Forall_cons_2 (λ kv, P kv.2) kv d (pyval_nested_ind kv.2) (go d)
          end) d)
  end.
End pyval_induction.

(** ** Equality *)

(** A finite number as [m * 2^e]. *)
Definition finite_number (v : pyval) : option (Z * Z) :=
  match v with
  | VBool b => Some (Z.b2z b, 0)
  | VInt n => Some (n, 0)
  | VFloat (S754_zero _) => Some (0, 0)
  | VFloat (S754_finite s m e) => Some (if s then Z.neg m else Z.pos m, e)
  | _ => None
  end.

Definition number_eqb (a b : Z * Z) : bool :=
  let e := Z.min a.2 b.2 in a.1 * 2 ^ (a.2 - e) =? b.1 * 2 ^ (b.2 - e).

Definition py_num_eq (a b : pyval) : bool :=
  match a, b with
  | VFloat (S754_infinity s), VFloat (S754_infinity s') => Bool.eqb s s'
  | _, _ =>
      match finite_number a, finite_number b with
      | Some x, Some y => number_eqb x y
      | _, _ => false
      end
  end.

Fixpoint py_eq (a b : pyval) : bool :=
  match a, b with
  | VNone, VNone => true
  | VStr s, VStr t => String.eqb s t
  | VList xs, VList ys =>
      (fix go (xs ys : list pyval) : bool :=
         match xs, ys with
         | [], [] => true
         | x :: xs, y :: ys => py_eq x y && go xs ys
         | _, _ => false
         end) xs ys
  | VDict d, VDict e =>
      (length d =? length e)%nat
      && forallb (λ '(k, v), match dict_get k e with Some w => py_eq v w | None => false end) d
  | _, _ => py_num_eq a b
  end.

(** [d == e] on dicts. *)
Definition dict_eq (d e : list (string * pyval)) : bool := py_eq (VDict d) (VDict e).

(** Values a JSON document without NaN can hold: dict keys are distinct. *)
Fixpoint wf_value (v : pyval) : bool :=
  match v with
  | VFloat S754_nan => false
  | VList l => forallb wf_value l
  | VDict d => bool_decide (NoDup d.*1) && forallb (λ '(_, v), wf_value v) d
  | _ => true
  end.

Lemma number_eqb_refl x : number_eqb x x = true.
Proof. apply Z.eqb_refl. Qed.

Lemma py_num_eq_refl v :
  wf_value v = true → (match v with VNone | VStr _ | VList _ | VDict _ => False | _ => True end) →
  py_num_eq v v = true.
Proof.
  destruct v as [| | |[|[]| |]| | |]; try done; intros _ _; apply number_eqb_refl.
Qed.

Lemma py_eq_refl v : wf_value v = true → py_eq v v = true.
Proof.
  induction v as [| | | | |l IH|d IH] using pyval_nested_ind; intros Hwf;
    try (by apply (py_num_eq_refl _ Hwf)); simpl in *.
  - done.
  - apply String.eqb_refl.
  - induction IH as [|x l Hx _ IHl]; [done|]. simpl in Hwf. bool_simpl. rewrite Hx by done. auto.
  - apply andb_true_iff in Hwf as [Hnd Hwf]. apply bool_decide_eq_true in Hnd.
    rewrite Nat.eqb_refl. apply forallb_forall. intros [k v] Hin%list_elem_of_In.
    rewrite (dict_elem_get k v) by done. rewrite Forall_forall in IH. apply (IH (k, v) Hin).
    rewrite forallb_forall in Hwf. by apply (Hwf (k, v)), list_elem_of_In.
Qed.

(** ** A JSON round trip with sorted keys *)

Fixpoint json_sorted (v : pyval) : pyval :=
  match v with
  | VList l => VList (List.map json_sorted l)
  | VDict d =>
      VDict (py_sorted (λ a b, String.leb a.1 b.1) (List.map (λ '(k, v), (k, json_sorted v)) d))
  | _ => v
  end.

Definition sorted_dict (d : list (string * pyval)) : list (string * pyval) :=
  py_sorted (λ a b, String.leb a.1 b.1) (List.map (λ '(k, v), (k, json_sorted v)) d).

Lemma json_sorted_dict d : json_sorted (VDict d) = VDict (sorted_dict d).
Proof. done. Qed.

Lemma map_json_keys (d : list (string * pyval)) :
  (List.map (λ '(k, v), (k, json_sorted v)) d).*1 = d.*1.
Proof. induction d as [|[k v] d IH]; [done|]. simpl. f_equal. apply IH. Qed.

Lemma sorted_dict_keys d : (sorted_dict d).*1 ≡ₚ d.*1.
Proof. rewrite <- (map_json_keys d). apply fmap_Permutation, py_sorted_perm. Qed.

Lemma sorted_dict_get d k : NoDup d.*1 → dict_get k (sorted_dict d) = json_sorted <$> dict_get k d.
Proof.
  intros Hnd. assert (NoDup (sorted_dict d).*1) as Hnd' by (by rewrite sorted_dict_keys).
  destruct (dict_get k d) as [v|] eqn:Hv; simpl.
  - apply dict_elem_get; [done|]. unfold sorted_dict. apply py_sorted_elem.
    apply dict_get_elem in Hv. apply list_elem_of_In, in_map_iff. exists (k, v).
    split; [done|]. by apply list_elem_of_In.
  - apply dict_get_None. rewrite sorted_dict_keys. by apply dict_get_None.
Qed.

(** Sorting keys does not change the value Python sees. *)
Lemma json_sorted_eq v : wf_value v = true → py_eq v (json_sorted v) = true.
Proof.
  induction v as [| | | | |l IH|d IH] using pyval_nested_ind; intros Hwf;
    try (by apply (py_eq_refl _ Hwf)).
  - simpl in *. induction IH as [|x l Hx _ IHl]; [done|]. simpl in Hwf |- *. bool_simpl.
    rewrite Hx by done. auto.
  - rewrite json_sorted_dict. simpl in *. apply andb_true_iff in Hwf as [Hnd Hwf].
    apply bool_decide_eq_true in Hnd. apply andb_true_iff. split.
    + apply Nat.eqb_eq. unfold sorted_dict. by rewrite py_sorted_length, length_map.
    + apply forallb_forall. intros [k v] Hin%list_elem_of_In.
      rewrite sorted_dict_get, (dict_elem_get k v) by done. simpl.
      rewrite Forall_forall in IH. apply (IH (k, v) Hin). rewrite forallb_forall in Hwf.
      by apply (Hwf (k, v)), list_elem_of_In.
Qed.

Lemma py_insert_head {A} (leb : A → A → bool) x l :
  Forall (λ y, leb x y = true) l → py_insert leb x l = x :: l.
Proof. destruct 1 as [|y l Hy]; simpl; [done|]. by rewrite Hy. Qed.

Lemma py_sorted_id {A} (leb : A → A → bool) l :
  StronglySorted (λ a b, leb a b = true) l → py_sorted leb l = l.
Proof.
  induction 1 as [|x l Hs IH Hx]; simpl; [done|]. rewrite IH. by apply py_insert_head.
Qed.

Lemma py_insert_map {A B} (f : A → B) (leb : A → A → bool) (leb' : B → B → bool) x l :
  (∀ x y, leb' (f x) (f y) = leb x y) →
  py_insert leb' (f x) (List.map f l) = List.map f (py_insert leb x l).
Proof.
  intros Hf. induction l as [|y l IH]; simpl; [done|]. rewrite Hf. destruct (leb x y); simpl; [done|].
  by rewrite IH.
Qed.

Lemma py_sorted_map {A B} (f : A → B) (leb : A → A → bool) (leb' : B → B → bool) l :
  (∀ x y, leb' (f x) (f y) = leb x y) →
  py_sorted leb' (List.map f l) = List.map f (py_sorted leb l).
Proof.
  intros Hf. induction l as [|x l IH]; simpl; [done|]. rewrite IH. by apply py_insert_map.
Qed.

Lemma sorted_dict_sorted d :
  StronglySorted (λ a b, String.leb a.1 b.1 = true) (sorted_dict d).
Proof.
  unfold sorted_dict. apply (py_sorted_sorted (λ a b : string * pyval, String.leb a.1 b.1)).
  - intros x y. apply string_leb_total.
  - intros x y z. apply string_leb_trans.
Qed.

(** A document already in canonical form is unchanged. *)
Lemma json_sorted_idemp v : json_sorted (json_sorted v) = json_sorted v.
Proof.
  induction v as [| | | | |l IH|d IH] using pyval_nested_ind; try done.
  - simpl. f_equal. rewrite map_map. induction IH as [|x l Hx _ IHl]; simpl; [done|]. by rewrite Hx, IHl.
  - rewrite !json_sorted_dict. f_equal. set (J := λ '(k, v), (k : string, json_sorted v)).
    assert (List.map J (List.map J d) = List.map J d) as Hm.
    { rewrite map_map. induction IH as [|[k v] d Hv _ IHd]; simpl; [done|].
      simpl in Hv. f_equal; [by rewrite Hv|apply IHd]. }
    assert (List.map J (sorted_dict d) = sorted_dict d) as HJ.
    { unfold sorted_dict. fold J.
      rewrite <- (py_sorted_map J (λ a b, String.leb a.1 b.1) (λ a b, String.leb a.1 b.1))
        by (by intros [] []). by rewrite Hm. }
    unfold sorted_dict at 1. fold J. rewrite HJ. apply py_sorted_id, sorted_dict_sorted.
Qed.

Lemma sorted_dict_idemp d : sorted_dict (sorted_dict d) = sorted_dict d.
Proof.
  pose proof (json_sorted_idemp (VDict d)) as H. rewrite !json_sorted_dict in H. congruence.
Qed.

Lemma forallb_perm {A} (f : A → bool) (l l' : list A) : l ≡ₚ l' → forallb f l = forallb f l'.
Proof.
  induction 1 as [|x l l' _ IH|x y l|]; simpl; [done|by rewrite IH| |congruence].
  by rewrite !andb_assoc, (andb_comm (f y)).
Qed.

Lemma wf_json_sorted v : wf_value v = true → wf_value (json_sorted v) = true.
Proof.
  induction v as [| | | | |l IH|d IH] using pyval_nested_ind; intros Hwf; try done.
  - simpl in *. induction IH as [|x l Hx _ IHl]; [done|]. simpl in *. bool_simpl.
    rewrite Hx by done. auto.
  - rewrite json_sorted_dict. simpl in *. apply andb_true_iff in Hwf as [Hnd Hwf].
    apply bool_decide_eq_true in Hnd. rewrite bool_decide_eq_true_2 by (by rewrite sorted_dict_keys).
    unfold sorted_dict. rewrite (forallb_perm _ _ _ (py_sorted_perm _ _)). simpl. clear Hnd.
    induction IH as [|[k v] d Hv _ IHd]; [done|]. simpl in *. bool_simpl. rewrite Hv by done. auto.
Qed.

(** Truth value of a Python object. *)
Definition py_truth (v : pyval) : bool :=
  match v with
  | VNone => false
  | VBool b => b
  | VInt n => negb (n =? 0)
  | VFloat (S754_zero _) => false
  | VFloat _ => true
  | VStr s => negb (String.eqb s "")
  | VList l => negb (length l =? 0)%nat
  | VDict d => negb (length d =? 0)%nat
  end.

(** [d.get(k)] of a document. *)
Definition get_key (k : string) (v : pyval) : pyval :=
  match v with
  | VDict d => default VNone (dict_get k d)
  | _ => VNone
  end.
Definition is_VNone (v : pyval) : bool := match v with VNone => true | _ => false end.
