(* ===== verification/Json.v ===== *)
(** * Python's text and [json]

    What the sources use of [str], [bytes] and the [json] module: strict UTF-8 and
    ASCII, [json.dumps] and [json.loads] with its hooks.  Bytes are strings of 8-bit
    characters; a [str] is the UTF-8 encoding of its code points, one by one, so that
    decoding valid bytes changes nothing.  The scanner follows CPython's: its only
    recursion is into arrays and objects, to a depth that is a parameter (the
    interpreter's recursion limit), and it raises [JSONDecodeError] without the
    position.  Printing a document and reading it back is shown to be the identity. *)

From Stdlib Require Import Ascii.
From stdpp Require Import pretty.
From S2P Require Import Prelude PyValue.

Local Open Scope string_scope.
Local Open Scope list_scope.
Local Open Scope Z_scope.

(** ** Exceptions *)

Definition JSONDecodeError : exn := Exn "JSONDecodeError" "".
Definition RecursionError : exn := Exn "RecursionError" "maximum recursion depth exceeded".
Definition UnicodeDecodeError : exn := Exn "UnicodeDecodeError" "".
Definition UnicodeEncodeError : exn := Exn "UnicodeEncodeError" "".
Definition int_too_long : exn :=
  Exn "ValueError" "Exceeds the limit (4300 digits) for integer string conversion".

(** [try: m; except classes: handler]. *)
Definition except {A} (classes : list string) (m : outcome exn A) (handler : exn → outcome exn A) : outcome exn A :=
  match m with
  | Ret a => Ret a
  | Raise e => if bool_decide (exn_class e ∈ classes) then handler e else Raise e
  end.

(** [ValueError] and the subclasses of it that decoding raises. *)
Definition value_errors : list string :=
  ["ValueError"; "JSONDecodeError"; "UnicodeDecodeError"; "UnicodeEncodeError"].

(** ** Text *)

Definition ord (c : ascii) : Z := Z.of_nat (nat_of_ascii c).
Definition asc (n : Z) : ascii := ascii_of_nat (Z.to_nat n).
Definition chr (n : Z) : string := String (asc n) "".

Definition between (a n b : Z) : bool := (a <=? n) && (n <=? b).
Definition cont (c : ascii) : bool := between 128 (ord c) 191.

(** [bytes.decode("utf-8")] accepts exactly these. *)
Fixpoint utf8_valid (s : string) : bool :=
  match s with
  | "" => true
  | String a s1 =>
      let n := ord a in
      if n <? 128 then utf8_valid s1
      else match s1 with
      | "" => false
      | String b s2 =>
          if between 194 n 223 then cont b && utf8_valid s2
          else match s2 with
          | "" => false
          | String c s3 =>
              if between 224 n 239 then
                between (if n =? 224 then 160 else 128) (ord b) (if n =? 237 then 159 else 191)
                && cont c && utf8_valid s3
              else match s3 with
              | "" => false
              | String d s4 =>
                  between 240 n 244
                  && between (if n =? 240 then 144 else 128) (ord b) (if n =? 244 then 143 else 191)
                  && cont c && cont d && utf8_valid s4
              end
          end
      end
  end.

Definition decode_utf8 (raw : string) : outcome exn string :=
  if utf8_valid raw then Ret raw else Raise UnicodeDecodeError.
(** A lone surrogate is the one thing a [str] holds that UTF-8 does not. *)
Definition encode_utf8 (s : string) : outcome exn string :=
  if utf8_valid s then Ret s else Raise UnicodeEncodeError.

Fixpoint all_chars (p : ascii → bool) (s : string) : bool :=
  match s with "" => true | String c s => p c && all_chars p s end.
Definition is_ascii_char (c : ascii) : bool := ord c <? 128.
Definition is_ascii (s : string) : bool := all_chars is_ascii_char s.
Definition decode_ascii (raw : string) : outcome exn string :=
  if is_ascii raw then Ret raw else Raise UnicodeDecodeError.

(** [len] of a [str]: its code points. *)
Fixpoint py_len (s : string) : Z :=
  match s with "" => 0 | String c s => (if cont c then 0 else 1) + py_len s end.
(** [len] of [bytes]. *)
Definition byte_len (s : string) : Z := Z.of_nat (String.length s).

Definition utf8_char (n : Z) : string :=
  if n <? 128 then chr n
  else if n <? 2048 then chr (192 + n / 64) +:+ chr (128 + n mod 64)
  else if n <? 65536 then chr (224 + n / 4096) +:+ chr (128 + n / 64 mod 64) +:+ chr (128 + n mod 64)
  else chr (240 + n / 262144) +:+ chr (128 + n / 4096 mod 64) +:+ chr (128 + n / 64 mod 64)
       +:+ chr (128 + n mod 64).

(** ** Printing

    [json.dumps(v, separators=(",", ":"))]: a string is quoted and escaped, with the
    default [ensure_ascii] to ASCII, a dict's items keep their order. *)

Definition hex_digit (n : Z) : string := chr (if n <? 10 then 48 + n else 87 + n).
Definition hex4 (n : Z) : string :=
  hex_digit (n / 4096 mod 16) +:+ hex_digit (n / 256 mod 16) +:+ hex_digit (n / 16 mod 16) +:+ hex_digit (n mod 16).
Definition backslash : string := chr 92.
Definition unicode_escape (n : Z) : string :=
  if n <? 65536 then backslash +:+ "u" +:+ hex4 n
  else let m := n - 65536 in
       backslash +:+ "u" +:+ hex4 (55296 + m / 1024) +:+ backslash +:+ "u" +:+ hex4 (56320 + m mod 1024).

(** The escapes of two characters. *)
Definition short_escape (n : Z) : option string :=
  if (n =? 34) || (n =? 92) then Some (chr n)
  else if n =? 8 then Some "b"
  else if n =? 9 then Some "t"
  else if n =? 10 then Some "n"
  else if n =? 12 then Some "f"
  else if n =? 13 then Some "r"
  else None.

Definition json_char (top : Z) (c : ascii) : string :=
  match short_escape (ord c) with
  | Some e => backslash +:+ e
  | None => if between 32 (ord c) top then String c "" else unicode_escape (ord c)
  end.

(** [ensure_ascii=True]. *)
Fixpoint json_chars (s : string) : string :=
  match s with
  | "" => ""
  | String a s1 =>
      let n := ord a in
      if n <? 128 then json_char 126 a +:+ json_chars s1
      else match s1 with
      | "" => ""
      | String b s2 =>
          let n2 := (n - 192) * 64 + (ord b - 128) in
          if n <? 224 then unicode_escape n2 +:+ json_chars s2
          else match s2 with
          | "" => ""
          | String c s3 =>
              let n3 := ((n - 224) * 64 + (ord b - 128)) * 64 + (ord c - 128) in
              if n <? 240 then unicode_escape n3 +:+ json_chars s3
              else match s3 with
              | "" => ""
              | String d s4 =>
                  unicode_escape ((((n - 240) * 64 + (ord b - 128)) * 64 + (ord c - 128)) * 64 + (ord d - 128))
                  +:+ json_chars s4
              end
          end
      end
  end.

(** [ensure_ascii=False]: what is not escaped is copied. *)
Fixpoint json_raw_chars (s : string) : string :=
  match s with "" => "" | String c s => json_char 255 c +:+ json_raw_chars s end.

Definition json_string (s : string) : string := chr 34 +:+ json_chars s +:+ chr 34.
Definition json_raw_string (s : string) : string := chr 34 +:+ json_raw_chars s +:+ chr 34.

Definition join (sep : string) (parts : list string) : string :=
  match parts with
  | [] => ""
  | part :: parts => part +:+ foldr (λ p acc, sep +:+ p +:+ acc) "" parts
  end.

Section dumps.
Context (quote : string → string) (float_repr : spec_float → string).

Fixpoint dumps (v : pyval) : string :=
  match v with
  | VNone => "null"
  | VBool b => if b then "true" else "false"
  | VInt n => pretty n
  | VFloat f => float_repr f
  | VStr s => quote s
  | VList l => "[" +:+ join "," (List.map dumps l) +:+ "]"
  | VDict d => "{" +:+ join "," (List.map (λ '(k, v), quote k +:+ ":" +:+ dumps v) d) +:+ "}"
  end.
End dumps.

Definition json_dumps : (spec_float → string) → pyval → string := dumps json_string.

Example json_dumps_sample :
  json_dumps (λ _, "") (json_sorted (VDict [("b", VInt (-12)); ("a", VList [VNone; VBool true; VStr "x
y"])]))
  = "{" +:+ json_string "a" +:+ ":[null,true," +:+ chr 34 +:+ "x" +:+ chr 92 +:+ "ny" +:+ chr 34
    +:+ "]," +:+ json_string "b" +:+ ":-12}".
Proof. vm_compute. reflexivity. Qed.

(** ** Numbers *)

Definition is_digit (c : ascii) : bool := between 48 (ord c) 57.

Fixpoint span_digits (s : string) : string * string :=
  match s with
  | String c r => if is_digit c then let '(ds, rest) := span_digits r in (String c ds, rest) else ("", s)
  | "" => ("", "")
  end.

Fixpoint dec_value (acc : Z) (s : string) : Z :=
  match s with "" => acc | String c s => dec_value (acc * 10 + (ord c - 48)) s end.

Definition split_sign (s : string) : string * string :=
  match s with
  | String c r => if (ord c =? 45) || (ord c =? 43) then (String c "", r) else ("", s)
  | "" => ("", "")
  end.

(** [int(text)] of a number the scanner matched. *)
Definition py_int (text : string) : outcome exn Z :=
  let '(sign, digits) := split_sign text in
  if (4300 <? byte_len digits) then Raise int_too_long
  else Ret (if String.eqb sign "-" then - dec_value 0 digits else dec_value 0 digits).

(** The number at the front of a text: its text, whether it has a fraction or an
    exponent, and the rest. *)
Definition scan_integer (s : string) : option (string * string) :=
  match s with
  | String c r =>
      if ord c =? 48 then Some (String c "", r)
      else if between 49 (ord c) 57 then let '(ds, rest) := span_digits r in Some (String c ds, rest)
      else None
  | "" => None
  end.
Definition scan_fraction (s : string) : string * string :=
  match s with
  | String c r =>
      if ord c =? 46 then
        let '(ds, rest) := span_digits r in if String.eqb ds "" then ("", s) else (String c ds, rest)
      else ("", s)
  | "" => ("", "")
  end.
Definition scan_exponent (s : string) : string * string :=
  match s with
  | String c r =>
      if (ord c =? 101) || (ord c =? 69) then
        let '(sign, r) := split_sign r in
        let '(ds, rest) := span_digits r in
        if String.eqb ds "" then ("", s) else (String c (sign +:+ ds), rest)
      else ("", s)
  | "" => ("", "")
  end.
Definition scan_number (s : string) : option (string * bool * string) :=
  let '(sign, s) := match s with
                    | String c r => if ord c =? 45 then (String c "", r) else ("", s)
                    | "" => ("", "")
                    end in
  match scan_integer s with
  | None => None
  | Some (whole, s) =>
      let '(fraction, s) := scan_fraction s in
      let '(exponent, s) := scan_exponent s in
      let extra := fraction +:+ exponent in
      Some (sign +:+ whole +:+ extra, negb (String.eqb extra ""), s)
  end.

(** *** Binary64

    The double nearest to [m * 10^e], ties to even. *)
Definition float_of_decimal (m e : Z) : spec_float :=
  match m with
  | Z0 => S754_zero false
  | Zpos p | Zneg p =>
      let s := match m with Zneg _ => true | _ => false end in
      if 0 <=? e then binary_normalize 53 1024 (m * 10 ^ e) 0 s
      else SFdiv 53 1024 (S754_finite s p 0) (S754_finite false (Z.to_pos (10 ^ (- e))) 0)
  end.

(** [float(text)] of a number the scanner matched. *)
Definition py_float (text : string) : spec_float :=
  let '(sign, r) := split_sign text in
  let '(whole, r) := span_digits r in
  let '(fraction, r) := scan_fraction r in
  let fraction := match fraction with String _ ds => ds | "" => "" end in
  let exponent := match r with
                  | String _ r => let '(sg, ds) := split_sign r in
                      if String.eqb sg "-" then - dec_value 0 ds else dec_value 0 ds
                  | "" => 0
                  end in
  match float_of_decimal (dec_value 0 (whole +:+ fraction)) (exponent - byte_len fraction) with
  | S754_zero _ => S754_zero (String.eqb sign "-")
  | f => if String.eqb sign "-" then SFopp f else f
  end.

Example py_float_samples :
  py_float "0.1" = S754_finite false 7205759403792794 (-56) ∧ py_float "-1e3" = S754_finite true 8796093022208000 (-43)
  ∧ py_float "1e400" = S754_infinity false.
Proof. vm_compute. done. Qed.

(** ** The scanner *)

Record Hooks := {
  object_pairs : list (string * pyval) → outcome exn pyval;
  parse_float : string → outcome exn pyval;
  parse_int : string → outcome exn pyval;
  parse_constant : string → outcome exn pyval;
}.

Definition constant_float (name : string) : spec_float :=
  if String.eqb name "NaN" then S754_nan else S754_infinity (String.eqb name "-Infinity").

Definition default_hooks : Hooks := {|
  object_pairs := λ pairs, Ret (VDict (dict_of pairs));
  parse_float := λ text, Ret (VFloat (py_float text));
  parse_int := λ text, VInt <$> py_int text;
  parse_constant := λ name, Ret (VFloat (constant_float name));
|}.

(** *** Strings *)

Definition hex_value (c : ascii) : option Z :=
  let n := ord c in
  if between 48 n 57 then Some (n - 48)
  else if between 97 n 102 then Some (n - 87)
  else if between 65 n 70 then Some (n - 55)
  else None.
Definition hex4_value (a b c d : ascii) : option Z :=
  x ← hex_value a; y ← hex_value b; z ← hex_value c; w ← hex_value d;
  Some (((x * 16 + y) * 16 + z) * 16 + w).

Definition escape_value (c : ascii) : option Z :=
  let n := ord c in
  if (n =? 34) || (n =? 92) || (n =? 47) then Some n
  else if n =? 98 then Some 8
  else if n =? 102 then Some 12
  else if n =? 110 then Some 10
  else if n =? 114 then Some 13
  else if n =? 116 then Some 9
  else None.

(** The contents of a string up to its closing quote: a byte that is copied, or the
    code of an escape. *)
Fixpoint scan_units (s : string) : outcome exn (list (ascii + Z) * string) :=
  let and_then (u : ascii + Z) (m : outcome exn (list (ascii + Z) * string)) :=
    match m with Ret (us, rest) => Ret (u :: us, rest) | Raise e => Raise e end in
  match s with
  | "" => Raise JSONDecodeError
  | String c r =>
      if ord c =? 34 then Ret ([], r)
      else if ord c =? 92 then
        match r with
        | "" => Raise JSONDecodeError
        | String e r =>
            if ord e =? 117 then
              match r with
              | String h1 (String h2 (String h3 (String h4 r))) =>
                  match hex4_value h1 h2 h3 h4 with
                  | Some n => and_then (inr n) (scan_units r)
                  | None => Raise JSONDecodeError
                  end
              | _ => Raise JSONDecodeError
              end
            else match escape_value e with
                 | Some n => and_then (inr n) (scan_units r)
                 | None => Raise JSONDecodeError
                 end
        end
      else if ord c <? 32 then Raise JSONDecodeError
      else and_then (inl c) (scan_units r)
  end.

Definition high_surrogate (n : Z) : bool := between 55296 n 56319.
Definition low_surrogate (n : Z) : bool := between 56320 n 57343.

(** Two escapes that form a surrogate pair are one character. *)
Fixpoint join_units (us : list (ascii + Z)) : string :=
  match us with
  | [] => ""
  | inl c :: us => String c (join_units us)
  | inr n :: us' =>
      match us' with
      | inr m :: us =>
          if high_surrogate n && low_surrogate m
          then utf8_char (65536 + (n - 55296) * 1024 + (m - 56320)) +:+ join_units us
          else utf8_char n +:+ join_units us'
      | _ => utf8_char n +:+ join_units us'
      end
  end.

Definition scan_string (s : string) : outcome exn (string * string) :=
  '(us, rest) ← scan_units s; Ret (join_units us, rest).

Fixpoint skip_ws (s : string) : string :=
  match s with
  | String c r => if (ord c =? 32) || (ord c =? 9) || (ord c =? 10) || (ord c =? 13) then skip_ws r else s
  | "" => ""
  end.

Fixpoint strip_prefix (p s : string) : option string :=
  match p, s with
  | "", _ => Some s
  | String a p, String b s => if Ascii.eqb a b then strip_prefix p s else None
  | _, "" => None
  end.

(** *** Values *)

Section scanner.
Context (h : Hooks).

(** A value that starts with neither a quote, a brace nor a bracket. *)
Definition scan_atom (s : string) : outcome exn (pyval * string) :=
  match strip_prefix "null" s with Some r => Ret (VNone, r) | None =>
  match strip_prefix "true" s with Some r => Ret (VBool true, r) | None =>
  match strip_prefix "false" s with Some r => Ret (VBool false, r) | None =>
  match strip_prefix "NaN" s with Some r => v ← parse_constant h "NaN"; Ret (v, r) | None =>
  match strip_prefix "Infinity" s with Some r => v ← parse_constant h "Infinity"; Ret (v, r) | None =>
  match strip_prefix "-Infinity" s with Some r => v ← parse_constant h "-Infinity"; Ret (v, r) | None =>
  match scan_number s with
  | Some (text, true, r) => v ← parse_float h text; Ret (v, r)
  | Some (text, false, r) => v ← parse_int h text; Ret (v, r)
  | None => Raise JSONDecodeError
  end end end end end end end.

(** [None] is a lack of fuel, which [loads] excludes. *)
Definition step {A B} (m : option (outcome exn A)) (f : A → option (outcome exn B)) : option (outcome exn B) :=
  match m with
  | None => None
  | Some (Raise e) => Some (Raise e)
  | Some (Ret a) => f a
  end.

(** [depth] is how much deeper arrays and objects may nest. *)
Fixpoint scan_once (fuel depth : nat) (s : string) {struct fuel} : option (outcome exn (pyval * string)) :=
  match fuel with
  | O => None
  | S fuel =>
      match s with
      | "" => Some (Raise JSONDecodeError)
      | String c r =>
          if ord c =? 34 then Some ('(t, rest) ← scan_string r; Ret (VStr t, rest))
          else if ord c =? 123 then
            match depth with
            | O => Some (Raise RecursionError)
            | S depth =>
                match skip_ws r with
                | String d rest =>
                    if ord d =? 125 then Some (v ← object_pairs h []; Ret (v, rest))
                    else step (scan_pairs fuel depth (String d rest)) (λ '(pairs, rest),
                           Some (v ← object_pairs h pairs; Ret (v, rest)))
                | "" => Some (Raise JSONDecodeError)
                end
            end
          else if ord c =? 91 then
            match depth with
            | O => Some (Raise RecursionError)
            | S depth =>
                match skip_ws r with
                | String d rest =>
                    if ord d =? 93 then Some (Ret (VList [], rest))
                    else step (scan_items fuel depth (String d rest)) (λ '(items, rest), Some (Ret (VList items, rest)))
                | "" => Some (Raise JSONDecodeError)
                end
            end
          else Some (scan_atom s)
      end
  end
(** The items of an array from one of them on, and its closing bracket. *)
with scan_items (fuel depth : nat) (s : string) {struct fuel} : option (outcome exn (list pyval * string)) :=
  match fuel with
  | O => None
  | S fuel =>
      step (scan_once fuel depth s) (λ '(v, rest),
        match skip_ws rest with
        | String c rest =>
            if ord c =? 93 then Some (Ret ([v], rest))
            else if ord c =? 44 then
              step (scan_items fuel depth (skip_ws rest)) (λ '(vs, rest), Some (Ret (v :: vs, rest)))
            else Some (Raise JSONDecodeError)
        | "" => Some (Raise JSONDecodeError)
        end)
  end
(** The members of an object from one of them on, and its closing brace. *)
with scan_pairs (fuel depth : nat) (s : string) {struct fuel} : option (outcome exn (list (string * pyval) * string)) :=
  match fuel with
  | O => None
  | S fuel =>
      match s with
      | String c r =>
          if ord c =? 34 then
            step (Some (scan_string r)) (λ '(key, rest),
              match skip_ws rest with
              | String c rest =>
                  if ord c =? 58 then
                    step (scan_once fuel depth (skip_ws rest)) (λ '(v, rest),
                      match skip_ws rest with
                      | String c rest =>
                          if ord c =? 125 then Some (Ret ([(key, v)], rest))
                          else if ord c =? 44 then
                            step (scan_pairs fuel depth (skip_ws rest)) (λ '(kvs, rest), Some (Ret ((key, v) :: kvs, rest)))
                          else Some (Raise JSONDecodeError)
                      | "" => Some (Raise JSONDecodeError)
                      end)
                  else Some (Raise JSONDecodeError)
              | "" => Some (Raise JSONDecodeError)
              end)
          else Some (Raise JSONDecodeError)
      | "" => Some (Raise JSONDecodeError)
      end
  end.

(** [json.loads(text)]: a byte order mark is refused, and so is what follows the value. *)
Definition loads_with (fuel limit : nat) (text : string) : option (outcome exn pyval) :=
  match strip_prefix (utf8_char 65279) text with
  | Some _ => Some (Raise JSONDecodeError)
  | None =>
      step (scan_once fuel limit (skip_ws text)) (λ '(v, rest),
        if String.eqb (skip_ws rest) "" then Some (Ret v) else Some (Raise JSONDecodeError))
  end.

Definition enough (text : string) : nat := 2 * String.length text + 1.
Definition loads (limit : nat) (text : string) : outcome exn pyval :=
  default (Raise RecursionError) (loads_with (enough text) limit text).
End scanner.

Definition sample_document : string :=
  "{" +:+ chr 34 +:+ "a" +:+ chr 34 +:+ " : [1, -20,true , null]," +:+ chr 34 +:+ "b" +:+ backslash +:+ "u0041"
  +:+ chr 34 +:+ ":" +:+ chr 34 +:+ backslash +:+ "ud83d" +:+ backslash +:+ "ude00" +:+ chr 34 +:+ "} ".
Example loads_samples :
  loads default_hooks 10 sample_document
  = Ret (VDict [("a", VList [VInt 1; VInt (-20); VBool true; VNone]); ("bA", VStr (utf8_char 128512))]) ∧
  loads default_hooks 10 "01" = Raise JSONDecodeError ∧ loads default_hooks 10 "[1,]" = Raise JSONDecodeError ∧
  loads default_hooks 1 "[[]]" = Raise RecursionError ∧ loads default_hooks 2 "[[]]" = Ret (VList [VList []]) ∧
  loads default_hooks 2 "1.5e1" = Ret (VFloat (py_float "15.0")).
Proof. vm_compute. done. Qed.

(** ** The scanner terminates *)

Local Notation len := String.length.

Lemma skip_ws_len s : (len (skip_ws s) ≤ len s)%nat.
Proof. induction s as [|c s IH]; cbn [skip_ws]; [done|]. destruct (_ || _); cbn [len]; lia. Qed.

Lemma strip_prefix_len p s r : strip_prefix p s = Some r → len s = (len p + len r)%nat.
Proof.
  revert s. induction p as [|a p IH]; intros s H; [by injection H as ->|].
  destruct s as [|b s]; [done|]. cbn in H. destruct (Ascii.eqb a b); [|done]. cbn. by rewrite (IH _ H).
Qed.

Lemma span_digits_len s ds rest : span_digits s = (ds, rest) → len s = (len ds + len rest)%nat.
Proof.
  revert ds rest. induction s as [|c s IH]; intros ds rest H; cbn in H; [by injection H as <- <-|].
  destruct (is_digit c); [|by injection H as <- <-]. destruct (span_digits s) as [ds' r'].
  injection H as <- <-. cbn. by rewrite (IH ds' r').
Qed.

Lemma split_sign_len s sg rest : split_sign s = (sg, rest) → len s = (len sg + len rest)%nat.
Proof.
  unfold split_sign. destruct s as [|c s]; intros H; [by injection H as <- <-|].
  destruct (_ || _); by injection H as <- <-.
Qed.

Lemma scan_integer_len s ds rest : scan_integer s = Some (ds, rest) → (len rest < len s)%nat.
Proof.
  unfold scan_integer. destruct s as [|c s]; [done|]. destruct (_ =? _).
  { intros [= <- <-]. cbn. lia. }
  destruct (between _ _ _); [|done]. destruct (span_digits s) as [d r] eqn:Hs. intros [= <- <-].
  apply span_digits_len in Hs. cbn. lia.
Qed.

Lemma scan_fraction_len s ds rest : scan_fraction s = (ds, rest) → (len rest ≤ len s)%nat.
Proof.
  unfold scan_fraction. destruct s as [|c s]; [by intros [= <- <-]|]. destruct (_ =? _); [|by intros [= <- <-]].
  destruct (span_digits s) as [d r] eqn:Hs. apply span_digits_len in Hs.
  destruct (String.eqb d ""); intros [= <- <-]; cbn; lia.
Qed.

Lemma scan_exponent_len s ds rest : scan_exponent s = (ds, rest) → (len rest ≤ len s)%nat.
Proof.
  unfold scan_exponent. destruct s as [|c s]; [by intros [= <- <-]|]. destruct (_ || _); [|by intros [= <- <-]].
  destruct (split_sign s) as [sg s'] eqn:Hsg. apply split_sign_len in Hsg.
  destruct (span_digits s') as [d r] eqn:Hs. apply span_digits_len in Hs.
  destruct (String.eqb d ""); intros [= <- <-]; cbn; lia.
Qed.

Lemma scan_number_len s t f rest : scan_number s = Some (t, f, rest) → (len rest < len s)%nat.
Proof.
  unfold scan_number. intros H.
  destruct (match s with String c r => if ord c =? 45 then (String c "", r) else ("", s) | "" => ("", "") end)
    as [sg s1] eqn:Hsg.
  assert (len s1 ≤ len s)%nat as Hle.
  { destruct s as [|c s]; [by injection Hsg as <- <-|]. destruct (ord c =? 45); injection Hsg as <- <-; cbn; lia. }
  destruct (scan_integer s1) as [[w s2]|] eqn:Hi; [|done]. apply scan_integer_len in Hi.
  destruct (scan_fraction s2) as [fr s3] eqn:Hf. apply scan_fraction_len in Hf.
  destruct (scan_exponent s3) as [ex s4] eqn:He. apply scan_exponent_len in He.
  injection H as <- <- <-. lia.
Qed.

Lemma scan_units_len s us rest : scan_units s = Ret (us, rest) → (len rest < len s)%nat.
Proof.
  revert us rest. induction s as [s IH] using (induction_ltof1 _ len). unfold ltof in IH. intros us rest H.
  destruct s as [|c s]; [done|]. cbn [scan_units] in H.
  destruct (ord c =? 34); [injection H as <- <-; cbn; lia|].
  assert (∀ u (s' : string), (len s' ≤ len s)%nat →
    match scan_units s' with Ret (us, rest) => Ret (u :: us, rest) | Raise e => Raise e end = Ret (us, rest) →
    (len rest < len (String c s))%nat) as Hrec.
  { intros u s' Hle Hs. destruct (scan_units s') as [[us' r']|e] eqn:Hu; [|done]. injection Hs as <- <-.
    apply IH in Hu; cbn; lia. }
  destruct (ord c =? 92).
  - destruct s as [|e s]; [done|]. destruct (ord e =? 117).
    + destruct s as [|h1 [|h2 [|h3 [|h4 s]]]]; try done. destruct (hex4_value _ _ _ _) as [n|]; [|done].
      eapply (Hrec (inr n) s); [cbn; lia|exact H].
    + destruct (escape_value e) as [n|]; [|done]. eapply (Hrec (inr n) s); [cbn; lia|exact H].
  - destruct (ord c <? 32); [done|]. by eapply (Hrec (inl c) s).
Qed.

Lemma scan_string_len s t rest : scan_string s = Ret (t, rest) → (len rest < len s)%nat.
Proof.
  unfold scan_string. intros H. apply bind_Ret in H as ([us r] & Hu & H). injection H as <- <-. by eapply scan_units_len.
Qed.

Lemma bind_pair_len (m : outcome exn pyval) v (r rest : string) :
  (x ← m; Ret (x, r)) = Ret (v, rest) → rest = r.
Proof. intros H. apply bind_Ret in H as (x & _ & [= _ ->]). done. Qed.

Lemma scan_atom_len h s v rest : scan_atom h s = Ret (v, rest) → (len rest < len s)%nat.
Proof.
  unfold scan_atom. intros H.
  repeat match type of H with
  | match strip_prefix ?p s with _ => _ end = _ =>
      let E := fresh in destruct (strip_prefix p s) eqn:E; [apply strip_prefix_len in E; cbn [len] in E|clear E]
  end; try (injection H as _ <-; lia); try (apply bind_pair_len in H as ->; lia).
  destruct (scan_number s) as [[[t []] r]|] eqn:Hn; [..|done]; apply scan_number_len in Hn; by apply bind_pair_len in H as ->.
Qed.

Lemma step_Ret {A B} (m : option (outcome exn A)) (f : A → option (outcome exn B)) b :
  step m f = Some (Ret b) → ∃ a, m = Some (Ret a) ∧ f a = Some (Ret b).
Proof. destruct m as [[a|e]|]; cbn; [|done..]. eauto. Qed.

Lemma step_Some {A B} (m : option (outcome exn A)) (f : A → option (outcome exn B)) :
  is_Some m → (∀ a, m = Some (Ret a) → is_Some (f a)) → is_Some (step m f).
Proof. intros [[a|e] ->] Hf; cbn; eauto. Qed.

(** The text after a separator, [skip_ws rest = String c r]. *)
Ltac next_char H :=
  lazymatch type of H with
  | context [match skip_ws ?r with _ => _ end] =>
      let Hw := fresh "Hw" in let c := fresh "c" in let r' := fresh "r" in
      pose proof (skip_ws_len r) as Hw; destruct (skip_ws r) as [|c r']; [try done|cbn [len] in Hw]
  end.

Lemma scan_len h fuel :
  (∀ depth s v rest, scan_once h fuel depth s = Some (Ret (v, rest)) → (len rest < len s)%nat) ∧
  (∀ depth s v rest, scan_items h fuel depth s = Some (Ret (v, rest)) → (len rest < len s)%nat) ∧
  (∀ depth s v rest, scan_pairs h fuel depth s = Some (Ret (v, rest)) → (len rest < len s)%nat).
Proof.
  induction fuel as [|fuel (IH1 & IH2 & IH3)]; [done|]. split_and!; intros depth s v rest H.
  - cbn [scan_once] in H. destruct s as [|c r]; [done|]. cbn [len]. destruct (ord c =? 34).
    { injection H as H. apply bind_Ret in H as ([t r'] & Ht & [= _ <-]). apply scan_string_len in Ht. lia. }
    destruct (ord c =? 123); [|destruct (ord c =? 91)].
    + destruct depth as [|depth]; [done|]. next_char H. destruct (ord c0 =? 125).
      * injection H as H. apply bind_pair_len in H as ->. lia.
      * apply step_Ret in H as ([ps r'] & Hp & H). injection H as H. apply bind_pair_len in H as ->.
        apply IH3 in Hp. cbn in Hp. lia.
    + destruct depth as [|depth]; [done|]. next_char H. destruct (ord c0 =? 93); [injection H as _ <-; lia|].
      apply step_Ret in H as ([vs r'] & Hp & [= _ <-]). apply IH2 in Hp. cbn in Hp. lia.
    + injection H as H. by apply scan_atom_len in H.
  - cbn [scan_items] in H. apply step_Ret in H as ([v' r] & Hv & H). apply IH1 in Hv. next_char H.
    destruct (ord c =? 93); [injection H as _ <-; lia|]. destruct (ord c =? 44); [|done].
    apply step_Ret in H as ([vs r'] & Hp & [= _ <-]). apply IH2 in Hp. pose proof (skip_ws_len r0). lia.
  - cbn [scan_pairs] in H. destruct s as [|c s]; [done|]. destruct (ord c =? 34); [|done].
    apply step_Ret in H as ([k r] & Hk & H). injection Hk as Hk. apply scan_string_len in Hk. next_char H.
    destruct (ord c0 =? 58); [|done]. apply step_Ret in H as ([v' r1] & Hv & H). apply IH1 in Hv.
    pose proof (skip_ws_len r0). next_char H. cbn [len].
    destruct (ord c1 =? 125); [injection H as _ <-; lia|]. destruct (ord c1 =? 44); [|done].
    apply step_Ret in H as ([vs r'] & Hp & [= _ <-]). apply IH3 in Hp. pose proof (skip_ws_len r2). lia.
Qed.

(** Twice the length of the text is enough fuel. *)
Lemma scan_total h fuel :
  (∀ depth s, (2 * len s + 1 ≤ fuel)%nat → is_Some (scan_once h fuel depth s)) ∧
  (∀ depth s, (2 * len s + 2 ≤ fuel)%nat → is_Some (scan_items h fuel depth s)) ∧
  (∀ depth s, (2 * len s + 2 ≤ fuel)%nat → is_Some (scan_pairs h fuel depth s)).
Proof.
  induction fuel as [|fuel (IH1 & IH2 & IH3)]; [split_and!; intros; lia|]. split_and!; intros depth s Hf.
  - cbn [scan_once]. destruct s as [|c r]; [by eexists|]. cbn [len] in Hf. destruct (ord c =? 34); [by eexists|].
    pose proof (skip_ws_len r).
    destruct (ord c =? 123); [|destruct (ord c =? 91); [|by eexists]];
      (destruct depth as [|depth]; [by eexists|]); (destruct (skip_ws r) as [|d r']; [by eexists|]); cbn [len] in *;
      destruct (ord d =? _); try (by eexists); (apply step_Some; [|intros [] _; by eexists]).
    + apply IH3. cbn. lia.
    + apply IH2. cbn. lia.
  - cbn [scan_items]. apply step_Some; [apply IH1; lia|]. intros [v r] Hv. apply (proj1 (scan_len h fuel)) in Hv.
    pose proof (skip_ws_len r). destruct (skip_ws r) as [|c r']; [by eexists|]. cbn [len] in *.
    destruct (ord c =? 93); [by eexists|]. destruct (ord c =? 44); [|by eexists].
    apply step_Some; [apply IH2; pose proof (skip_ws_len r'); lia|intros [] _; by eexists].
  - cbn [scan_pairs]. destruct s as [|c s]; [by eexists|]. cbn [len] in Hf. destruct (ord c =? 34); [|by eexists].
    apply step_Some; [by eexists|]. intros [k r] Hk. injection Hk as Hk. apply scan_string_len in Hk.
    pose proof (skip_ws_len r). destruct (skip_ws r) as [|c' r']; [by eexists|]. cbn [len] in *.
    destruct (ord c' =? 58); [|by eexists]. pose proof (skip_ws_len r'). apply step_Some; [apply IH1; lia|].
    intros [v r1] Hv. apply (proj1 (scan_len h fuel)) in Hv.
    pose proof (skip_ws_len r1). destruct (skip_ws r1) as [|c1 r2]; [by eexists|]. cbn [len] in *.
    destruct (ord c1 =? 125); [by eexists|]. destruct (ord c1 =? 44); [|by eexists].
    apply step_Some; [apply IH3; pose proof (skip_ws_len r2); lia|intros [] _; by eexists].
Qed.

Lemma loads_terminates h limit text : is_Some (loads_with h (enough text) limit text).
Proof.
  unfold loads_with, enough. destruct (strip_prefix _ _); [by eexists|].
  apply step_Some; [apply scan_total; pose proof (skip_ws_len text); lia|].
  intros [v r] _. destruct (String.eqb _ _); by eexists.
Qed.

(** More fuel changes nothing. *)
Lemma step_mono {A B} (m m' : option (outcome exn A)) (f f' : A → option (outcome exn B)) r :
  (∀ r, m = Some r → m' = Some r) → (∀ a r, f a = Some r → f' a = Some r) → step m f = Some r → step m' f' = Some r.
Proof.
  intros Hm Hf H. destruct m as [[a|e]|]; [..|done]; rewrite (Hm _ eq_refl); [by apply Hf|done].
Qed.

Ltac mono_match :=
  match goal with
  | |- match ?x with _ => _ end = _ → _ => destruct x; try done
  | |- (if ?x then _ else _) = _ → _ => destruct x; try done
  | |- step _ _ = _ → _ => apply step_mono; [|intros [] ?]
  end.
Lemma scan_mono h fuel :
  (∀ depth s r, scan_once h fuel depth s = Some r → scan_once h (S fuel) depth s = Some r) ∧
  (∀ depth s r, scan_items h fuel depth s = Some r → scan_items h (S fuel) depth s = Some r) ∧
  (∀ depth s r, scan_pairs h fuel depth s = Some r → scan_pairs h (S fuel) depth s = Some r).
Proof.
  induction fuel as [|fuel (IH1 & IH2 & IH3)]; [done|]. split_and!; intros depth s r.
  - remember (S fuel) as f eqn:Hf. cbn [scan_once]. rewrite Hf at 1. cbn [scan_once]. subst f.
    repeat mono_match; auto.
  - remember (S fuel) as f eqn:Hf. cbn [scan_items]. rewrite Hf at 1. cbn [scan_items]. subst f.
    repeat mono_match; auto.
  - remember (S fuel) as f eqn:Hf. cbn [scan_pairs]. rewrite Hf at 1. cbn [scan_pairs]. subst f.
    repeat mono_match; auto.
Qed.

Lemma scan_once_mono h f f' depth s r :
  (f ≤ f')%nat → scan_once h f depth s = Some r → scan_once h f' depth s = Some r.
Proof. induction 1 as [|f' _ IH]; [done|]. intros H. by apply scan_mono, IH. Qed.
Lemma scan_items_mono h f f' depth s r :
  (f ≤ f')%nat → scan_items h f depth s = Some r → scan_items h f' depth s = Some r.
Proof. induction 1 as [|f' _ IH]; [done|]. intros H. by apply (proj1 (proj2 (scan_mono h f'))), IH. Qed.
Lemma scan_pairs_mono h f f' depth s r :
  (f ≤ f')%nat → scan_pairs h f depth s = Some r → scan_pairs h f' depth s = Some r.
Proof. induction 1 as [|f' _ IH]; [done|]. intros H. by apply (proj2 (proj2 (scan_mono h f'))), IH. Qed.

(** ** Printing and reading back *)

Lemma str_nil (s : string) : "" +:+ s = s.
Proof. done. Qed.
Lemma str_cons c (s t : string) : String c s +:+ t = String c (s +:+ t).
Proof. done. Qed.
Lemma str_assoc (s t u : string) : (s +:+ t) +:+ u = s +:+ (t +:+ u).
Proof. induction s as [|c s IH]; [done|]. by rewrite !str_cons, IH. Qed.
Lemma str_nil_r (s : string) : s +:+ "" = s.
Proof. induction s as [|c s IH]; [done|]. by rewrite str_cons, IH. Qed.
Lemma str_chr n (s : string) : chr n +:+ s = String (asc n) s.
Proof. done. Qed.
Lemma str_length (s t : string) : len (s +:+ t) = (len s + len t)%nat.
Proof. induction s as [|c s IH]; [done|]. rewrite str_cons. cbn. by rewrite IH. Qed.
Create HintDb text.
#[export] Hint Rewrite str_nil str_cons str_assoc str_nil_r str_chr : text.

(** *** Integers *)

Lemma digit_char (n : N) : (n < 10)%N →
  is_digit (pretty_N_char n) = true ∧ ord (pretty_N_char n) - 48 = Z.of_N n ∧
  ((0 < n)%N → between 49 (ord (pretty_N_char n)) 57 = true).
Proof.
  intros H. assert (n = 0 ∨ n = 1 ∨ n = 2 ∨ n = 3 ∨ n = 4 ∨ n = 5 ∨ n = 6 ∨ n = 7 ∨ n = 8 ∨ n = 9)%N as Hn by lia.
  repeat (destruct Hn as [->|Hn]; [done|]). by subst.
Qed.

Lemma pretty_go_digits (x : N) s : (0 < x)%N → all_chars is_digit s = true →
  ∃ c ds, pretty_N_go x s = String c ds ∧ between 49 (ord c) 57 = true ∧ all_chars is_digit ds = true ∧
    dec_value 0 (String c ds) = dec_value (Z.of_N x) s.
Proof.
  revert s. induction (N.lt_wf_0 x) as [x _ IH]; intros s Hx Hs. rewrite pretty_N_go_step by done.
  destruct (digit_char (x `mod` 10)) as (Hd & Hv & Hp); [by apply N.mod_lt|].
  assert (dec_value (Z.of_N (x `div` 10)) (String (pretty_N_char (x `mod` 10)) s) = dec_value (Z.of_N x) s) as Hdec.
  { cbn [dec_value]. f_equal. rewrite Hv, N2Z.inj_div, N2Z.inj_mod. pose proof (Z.div_mod (Z.of_N x) 10). lia. }
  destruct (decide (x < 10)%N) as [Hlt|Hge].
  - assert ((x `div` 10) = 0)%N as H0 by (by apply N.div_small). rewrite H0, pretty_N_go_0 in *.
    exists (pretty_N_char (x `mod` 10)), s. split_and!; [done| |done|].
    + apply Hp. rewrite N.mod_small by done. done.
    + by rewrite <- Hdec.
  - assert (10 * (x `div` 10) ≤ x)%N by (by apply N.Div0.mul_div_le).
    assert (0 < x `div` 10)%N by (apply N.div_str_pos; lia).
    destruct (IH (x `div` 10)%N ltac:(lia) (String (pretty_N_char (x `mod` 10)) s)) as (c & ds & -> & Hc & Hds & Hval); [done| |].
    { cbn. by rewrite Hd, Hs. }
    exists c, ds. split_and!; [done..|]. by rewrite Hval, Hdec.
Qed.

Lemma pretty_pos (p : positive) : ∃ c ds, pretty (N.pos p) = String c ds ∧ between 49 (ord c) 57 = true ∧
  all_chars is_digit ds = true ∧ dec_value 0 (String c ds) = Z.pos p.
Proof.
  destruct (pretty_go_digits (N.pos p) "") as (c & ds & H & ? & ? & Hv); [done..|].
  exists c, ds. split_and!; [|done..]. unfold pretty, pretty_N. by destruct (decide _).
Qed.

(** What may follow a number. *)
Definition delimiter (c : ascii) : bool :=
  negb (is_digit c) && negb ((ord c =? 46) || (ord c =? 101) || (ord c =? 69)).
Definition delimited (s : string) : bool := match s with "" => true | String c _ => delimiter c end.

Lemma span_digits_app ds rest :
  all_chars is_digit ds = true → delimited rest = true → span_digits (ds +:+ rest) = (ds, rest).
Proof.
  intros Hds Hr. induction ds as [|c ds IH].
  - rewrite str_nil. destruct rest as [|c r]; [done|]. cbn [delimited span_digits] in *. unfold delimiter in Hr.
    apply andb_true_iff in Hr as [Hr _]. by apply negb_true_iff in Hr as ->.
  - rewrite str_cons. cbn [all_chars span_digits] in *. apply andb_true_iff in Hds as [-> Hds]. by rewrite IH.
Qed.

Lemma no_fraction rest : delimited rest = true → scan_fraction rest = ("", rest) ∧ scan_exponent rest = ("", rest).
Proof.
  destruct rest as [|c r]; [done|]. cbn. unfold delimiter. intros H.
  apply andb_true_iff in H as [_ H]. apply negb_true_iff in H. apply orb_false_iff in H as [H ->].
  by apply orb_false_iff in H as [-> ->].
Qed.

Lemma nonzero_digit c : between 49 (ord c) 57 = true →
  ord c =? 45 = false ∧ ord c =? 43 = false ∧ ord c =? 48 = false ∧ ord c =? 34 = false ∧ ord c =? 123 = false ∧ ord c =? 91 = false.
Proof. unfold between. intros. bool_simpl. split_and!; apply Z.eqb_neq; lia. Qed.

Lemma scan_number_pos (p : positive) rest : delimited rest = true →
  scan_integer (pretty (N.pos p) +:+ rest) = Some (pretty (N.pos p), rest).
Proof.
  intros Hr. destruct (pretty_pos p) as (c & ds & -> & Hc & Hds & _). rewrite str_cons. cbn [scan_integer].
  destruct (nonzero_digit c Hc) as (_ & _ & -> & _). by rewrite Hc, span_digits_app.
Qed.

Lemma scan_number_int (n : Z) rest : delimited rest = true →
  scan_number (pretty n +:+ rest) = Some (pretty n, false, rest).
Proof.
  intros Hr. destruct (no_fraction rest Hr) as [Hf He]. destruct n as [|p|p].
  - change (pretty 0) with "0". rewrite str_cons, str_nil. unfold scan_number.
    change (ord "0" =? 45) with false. cbv iota beta. change (scan_integer (String "0" rest)) with (Some ("0", rest)).
    cbv iota beta. by rewrite Hf, He.
  - change (pretty (Z.pos p)) with (pretty (N.pos p)). unfold scan_number.
    destruct (pretty_pos p) as (c & ds & Hp & Hc & _). rewrite Hp at 1. rewrite str_cons.
    destruct (nonzero_digit c Hc) as (-> & _).
    rewrite scan_number_pos by done. rewrite Hf, He, str_nil. by rewrite !str_nil_r.
  - change (pretty (Z.neg p)) with ("-" +:+ pretty (N.pos p)). rewrite str_assoc. unfold scan_number.
    rewrite (str_cons "-"%char "" (_ +:+ _)), str_nil. cbn [ord]. change (ord "-" =? 45) with true. cbv iota beta.
    rewrite scan_number_pos by done. rewrite Hf, He. by rewrite !str_nil_r.
Qed.

(** Integers [int] converts: at most 4300 digits. *)
Definition short_int (n : Z) : bool := byte_len (pretty (Z.abs_N n)) <=? 4300.

Lemma py_int_pretty (n : Z) : short_int n = true → py_int (pretty n) = Ret n.
Proof.
  unfold short_int. intros Hs%Z.leb_le. unfold py_int. destruct n as [|p|p]; [done|..].
  - change (pretty (Z.pos p)) with (pretty (N.pos p)). change (Z.abs_N (Z.pos p)) with (N.pos p) in Hs.
    destruct (pretty_pos p) as (c & ds & Hp & Hc & _ & Hv). rewrite Hp in *. cbn [split_sign].
    destruct (nonzero_digit c Hc) as (-> & -> & _). cbn [orb]. destruct (Z.ltb_spec 4300 (byte_len (String c ds))); [lia|].
    cbn -[dec_value]. by rewrite Hv.
  - change (pretty (Z.neg p)) with ("-" +:+ pretty (N.pos p)). change (Z.abs_N (Z.neg p)) with (N.pos p) in Hs.
    destruct (pretty_pos p) as (c & ds & Hp & Hc & _ & Hv). rewrite Hp in *. rewrite str_cons, str_nil. cbn [split_sign].
    change ((ord "-" =? 45) || (ord "-" =? 43)) with true. cbv iota beta.
    destruct (Z.ltb_spec 4300 (byte_len (String c ds))); [lia|]. change (String.eqb "-" "-") with true. cbv iota.
    by rewrite Hv.
Qed.

Lemma pretty_first (n : Z) : ∃ c t, pretty n = String c t ∧ (ord c = 45 ∨ ord c = 48 ∨ between 49 (ord c) 57 = true) ∧
  (ord c = 45 → ∃ d u, t = String d u ∧ between 49 (ord d) 57 = true).
Proof.
  destruct n as [|p|p].
  - exists "0"%char, "". split_and!; [done|by right; left|done].
  - destruct (pretty_pos p) as (c & ds & Hp & Hc & _). exists c, ds. split_and!; [done|by right; right|].
    intros H. destruct (nonzero_digit c Hc) as (Hn & _). apply Z.eqb_neq in Hn. done.
  - destruct (pretty_pos p) as (c & ds & Hp & Hc & _). exists "-"%char, (String c ds).
    split_and!; [|by left|by eauto]. change (pretty (Z.neg p)) with ("-" +:+ pretty (N.pos p)). by rewrite Hp.
Qed.

Lemma strip_prefix_ord p s c d r t : s = String c r → p = String d t → ord d ≠ ord c → strip_prefix p s = None.
Proof. intros -> -> Hne. cbn. destruct (Ascii.eqb_spec d c) as [->|]; done. Qed.

Lemma scan_atom_int h (n : Z) rest :
  delimited rest = true → scan_atom h (pretty n +:+ rest) = (v ← parse_int h (pretty n); Ret (v, rest)).
Proof.
  intros Hr. destruct (pretty_first n) as (c & t & Hp & Hc & Hneg). unfold scan_atom.
  assert (pretty n +:+ rest = String c (t +:+ rest)) as Hs by (by rewrite Hp, str_cons).
  assert (∀ p d u, p = String d u → ord d ≠ 45 → 57 < ord d → strip_prefix p (pretty n +:+ rest) = None) as Hno.
  { intros p d u Hd H45 Hbig. eapply strip_prefix_ord; [exact Hs|exact Hd|].
    destruct Hc as [Hc|[Hc|Hc]]; [lia|lia|]. unfold between in Hc. bool_simpl. lia. }
  assert (strip_prefix "-Infinity" (pretty n +:+ rest) = None) as Hinf.
  { rewrite Hs. cbn [strip_prefix]. destruct (Ascii.eqb_spec "-"%char c) as [<-|]; [|done].
    destruct (Hneg eq_refl) as (d & u & -> & Hd). rewrite str_cons. cbn [strip_prefix].
    destruct (Ascii.eqb_spec "I"%char d) as [<-|]; done. }
  rewrite !(Hno _ _ _ eq_refl), Hinf, scan_number_int by done. done.
Qed.

(** *** Strings *)

(** The units a printed string is read as: each character is copied or escaped. *)
Inductive unit_of (c : ascii) : ascii + Z → Prop :=
| unit_copied : unit_of c (inl c)
| unit_escaped : ord c < 128 → unit_of c (inr (ord c)).

Inductive units_of : string → list (ascii + Z) → Prop :=
| units_nil : units_of "" []
| units_cons c s u us : unit_of c u → units_of s us → units_of (String c s) (u :: us).

Lemma utf8_char_ascii c : ord c < 128 → utf8_char (ord c) = String c "".
Proof.
  intros H. unfold utf8_char. destruct (Z.ltb_spec (ord c) 128); [|lia].
  unfold chr, asc, ord. by rewrite Nat2Z.id, ascii_nat_embedding.
Qed.

Lemma join_units_of s us : units_of s us → join_units us = s.
Proof.
  induction 1 as [|c s u us Hu Hus IH]; [done|]. destruct Hu as [|Hc]; cbn [join_units]; [by rewrite IH|].
  assert (high_surrogate (ord c) = false) as Hh.
  { unfold high_surrogate, between. apply andb_false_iff. left. apply Z.leb_gt. lia. }
  destruct us as [|[d|m] us]; rewrite ?Hh; cbn [andb]; by rewrite utf8_char_ascii, str_cons, str_nil, IH.
Qed.

(** A character printed is read back as one unit. *)
Lemma json_char_unit top c : (top = 126 ∧ ord c < 128) ∨ top = 255 →
  ∃ u, unit_of c u ∧ ∀ r,
    scan_units (json_char top c +:+ r)
    = match scan_units r with Ret (us, rest) => Ret (u :: us, rest) | Raise e => Raise e end.
Proof.
  intros [[-> Hlt]| ->]; destruct c as [[] [] [] [] [] [] [] []];
    try (exfalso; vm_compute in Hlt; done);
    first [ eexists; split; [apply unit_copied|intros r; reflexivity]
          | eexists; split; [apply unit_escaped; reflexivity|intros r; reflexivity] ].
Qed.

Lemma json_raw_units s rest : ∃ us, units_of s us ∧ scan_units (json_raw_chars s +:+ chr 34 +:+ rest) = Ret (us, rest).
Proof.
  induction s as [|c s (us & Hus & IH)]; [exists []; by split; [constructor|]|].
  destruct (json_char_unit 255 c) as (u & Hu & Hs); [by right|].
  exists (u :: us). split; [by constructor|]. cbn [json_raw_chars]. by rewrite str_assoc, Hs, IH.
Qed.

Lemma json_units s rest : is_ascii s = true →
  ∃ us, units_of s us ∧ scan_units (json_chars s +:+ chr 34 +:+ rest) = Ret (us, rest).
Proof.
  induction s as [|c s IH]; intros Ha; [exists []; by split; [constructor|]|].
  unfold is_ascii in *. cbn [all_chars] in Ha. apply andb_true_iff in Ha as [Hc Ha].
  destruct (IH Ha) as (us & Hus & Hr). unfold is_ascii_char in Hc.
  destruct (json_char_unit 126 c) as (u & Hu & Hs); [left; split; [done|by apply Z.ltb_lt]|].
  exists (u :: us). split; [by constructor|]. cbn [json_chars]. rewrite Hc. by rewrite str_assoc, Hs, Hr.
Qed.

(** A way of printing strings that the scanner inverts on [ok] strings. *)
Definition quotes (quote : string → string) (ok : string → bool) : Prop :=
  ∀ s rest, ok s = true → ∃ body, quote s +:+ rest = String (asc 34) body ∧ scan_string body = Ret (s, rest).

Lemma quotes_raw : quotes json_raw_string (λ _, true).
Proof.
  intros s rest _. unfold json_raw_string. rewrite !str_assoc, str_chr. eexists. split; [done|].
  unfold scan_string. destruct (json_raw_units s rest) as (us & Hus & ->). cbn. by rewrite (join_units_of _ _ Hus).
Qed.
Lemma quotes_ascii : quotes json_string is_ascii.
Proof.
  intros s rest Ha. unfold json_string. rewrite !str_assoc, str_chr. eexists. split; [done|].
  unfold scan_string. destruct (json_units s rest Ha) as (us & Hus & ->). cbn. by rewrite (join_units_of _ _ Hus).
Qed.

(** *** Documents *)

Fixpoint vdepth (v : pyval) : nat :=
  match v with
  | VList l => S (foldr (λ v n, Nat.max (vdepth v) n) O l)
  | VDict d => S (foldr (λ kv n, Nat.max (vdepth kv.2) n) O d)
  | _ => O
  end.

(** Documents without floats, whose strings and integers are within bounds and whose
    keys do not repeat. *)
Fixpoint printable (ok_str : string → bool) (ok_int : Z → bool) (v : pyval) : bool :=
  match v with
  | VNone | VBool _ => true
  | VInt n => ok_int n
  | VFloat _ => false
  | VStr s => ok_str s
  | VList l => forallb (printable ok_str ok_int) l
  | VDict d => bool_decide (NoDup d.*1) && forallb (λ '(k, v), ok_str k && printable ok_str ok_int v) d
  end.

(** First characters of a value. *)
Definition opening (c : ascii) : bool :=
  negb ((ord c =? 32) || (ord c =? 9) || (ord c =? 10) || (ord c =? 13)) && negb ((ord c =? 93) || ((ord c =? 125) || (ord c =? 239))).

Lemma skip_opening c t : opening c = true → skip_ws (String c t) = String c t.
Proof. unfold opening. intros H. cbn [skip_ws]. apply andb_true_iff in H as [H _]. by apply negb_true_iff in H as ->. Qed.

Section roundtrip.
Context (h : Hooks) (quote : string → string) (fr : spec_float → string).
Context (ok_str : string → bool) (ok_int : Z → bool).
Context (Hquote : quotes quote ok_str) (Hint : ∀ n, ok_int n = true → parse_int h (pretty n) = Ret (VInt n)).
Context (Hpairs : ∀ ps, NoDup ps.*1 → object_pairs h ps = Ret (VDict ps)).

Local Notation ok := (printable ok_str ok_int).
Local Notation print := (dumps quote fr).

(** Some fuel reads [v] from the front of [s]. *)
Definition reads (depth : nat) (s : string) (v : pyval) (rest : string) : Prop :=
  ∃ f, scan_once h f depth s = Some (Ret (v, rest)).

Lemma print_opening v rest : ok v = true → ∃ c t, print v +:+ rest = String c t ∧ opening c = true.
Proof.
  destruct v as [|b|n|f|s|l|d]; intros Hv; cbn [dumps]; try done.
  - by exists "n"%char, ("ull" +:+ rest).
  - destruct b; eexists _, _; split; [reflexivity|done|reflexivity|done].
  - destruct (pretty_first n) as (c & t & -> & Hc & _). exists c, (t +:+ rest). split; [done|].
    unfold opening. apply andb_true_iff.
    assert (45 ≤ ord c ≤ 57) by (destruct Hc as [Hc|[Hc|Hc]]; [lia..|]; unfold between in Hc; bool_simpl; lia).
    split; apply negb_true_iff; repeat (apply orb_false_iff; split); apply Z.eqb_neq; lia.
  - destruct (Hquote s rest Hv) as (body & -> & _). eexists _, _. by split.
  - eexists _, _. split; [by rewrite str_cons|done].
  - eexists _, _. split; [by rewrite str_cons|done].
Qed.

Lemma reads_atom s v rest depth : 
  (∃ c t, s = String c t ∧ ord c ≠ 34 ∧ ord c ≠ 123 ∧ ord c ≠ 91) → scan_atom h s = Ret (v, rest) → reads depth s v rest.
Proof.
  intros (c & t & -> & H1%Z.eqb_neq & H2%Z.eqb_neq & H3%Z.eqb_neq) H. exists 1%nat. cbn [scan_once].
  by rewrite H1, H2, H3, H.
Qed.

Lemma foldr_max_le {A} (f : A → nat) l n x :
  (foldr (λ v n, Nat.max (f v) n) O l ≤ n)%nat → x ∈ l → (f x ≤ n)%nat.
Proof. intros Hl Hx. induction Hx as [x l|x y l _ IH]; cbn in Hl; [lia|]. apply IH. lia. Qed.

(** The tails of arrays and objects after their first entry. *)
Definition more (parts : list string) (close rest : string) : string :=
  foldr (λ p acc, "," +:+ p +:+ acc) "" parts +:+ close +:+ rest.

Lemma more_delimited parts c rest : delimiter c = true → delimited (more parts (String c "") rest) = true.
Proof. intros Hc. unfold more. by destruct parts. Qed.

Lemma reads_items depth vs v rest :
  Forall (λ v, ∀ rest, delimited rest = true → reads depth (print v +:+ rest) v rest) (v :: vs) →
  Forall (λ v, ok v = true) (v :: vs) →
  ∃ f, scan_items h f depth (print v +:+ more (List.map print vs) "]" rest) = Some (Ret (v :: vs, rest)).
Proof.
  revert v. induction vs as [|w vs IH]; intros v Hr Hok; apply Forall_cons in Hr as [Hv Hr], Hok as [Hvok Hok].
  - destruct (Hv ("]" +:+ rest)) as [f Hf]; [done|]. exists (S f). cbn [scan_items]. unfold more. cbn [List.map foldr].
    rewrite str_nil, Hf. reflexivity.
  - destruct (Hv (more (List.map print (w :: vs)) "]" rest)) as [f Hf]; [by apply more_delimited|].
    destruct (IH w Hr Hok) as [f' Hf']. exists (S (f + f')). cbn [scan_items].
    rewrite (scan_once_mono _ f (f + f') _ _ _ ltac:(lia) Hf). cbn [step].
    assert (skip_ws (more (List.map print (w :: vs)) "]" rest)
      = String "," (print w +:+ more (List.map print vs) "]" rest)) as ->.
    { unfold more. cbn [List.map foldr]. rewrite !str_assoc, !str_cons, str_nil. by rewrite skip_opening. }
    change (ord "," =? 93) with false. change (ord "," =? 44) with true. cbv iota.
    destruct (print_opening w (more (List.map print vs) "]" rest)) as (c & t & Hs & Hc).
    { by apply Forall_cons in Hok as [? _]. }
    rewrite Hs, skip_opening by done. rewrite <- Hs.
    by rewrite (scan_items_mono _ f' (f + f') _ _ _ ltac:(lia) Hf').
Qed.

Definition member (kv : string * pyval) : string := quote kv.1 +:+ ":" +:+ print kv.2.

Lemma member_opening kv rest : ok_str kv.1 = true → ∃ body, member kv +:+ rest = String (asc 34) body ∧
  scan_string body = Ret (kv.1, ":" +:+ print kv.2 +:+ rest).
Proof.
  intros Hk. unfold member. rewrite !str_assoc. by apply Hquote.
Qed.

Lemma scan_member f F depth kv tail :
  ok_str kv.1 = true → ok kv.2 = true → scan_once h f depth (print kv.2 +:+ tail) = Some (Ret (kv.2, tail)) → (f ≤ F)%nat →
  scan_pairs h (S F) depth (member kv +:+ tail)
  = match skip_ws tail with
    | String c rest =>
        if ord c =? 125 then Some (Ret ([kv], rest))
        else if ord c =? 44 then
          step (scan_pairs h F depth (skip_ws rest)) (λ '(kvs, rest), Some (Ret (kv :: kvs, rest)))
        else Some (Raise JSONDecodeError)
    | "" => Some (Raise JSONDecodeError)
    end.
Proof.
  intros Hk Hv Hf Hle. destruct (member_opening kv tail Hk) as (body & -> & Hb).
  destruct (print_opening kv.2 tail Hv) as (c & t & Hs & Hc). cbn [scan_pairs].
  change (ord (asc 34) =? 34) with true. cbv iota. rewrite Hb. cbn [step].
  rewrite str_cons, str_nil, skip_opening by done. change (ord ":" =? 58) with true. cbv iota.
  rewrite Hs, skip_opening by done. rewrite <- Hs, (scan_once_mono _ f F _ _ _ Hle Hf). cbn [step]. by destruct kv.
Qed.

Lemma reads_pairs depth kvs kv rest :
  Forall (λ kv, ∀ rest, delimited rest = true → reads depth (print kv.2 +:+ rest) kv.2 rest) (kv :: kvs) →
  Forall (λ kv, ok_str kv.1 = true ∧ ok kv.2 = true) (kv :: kvs) →
  ∃ f, scan_pairs h f depth (member kv +:+ more (List.map member kvs) "}" rest) = Some (Ret (kv :: kvs, rest)).
Proof.
  revert kv. induction kvs as [|kw kvs IH]; intros kv Hr Hok; apply Forall_cons in Hr as [Hv Hr], Hok as [[Hk Hvok] Hok].
  - destruct (Hv ("}" +:+ rest)) as [f Hf]; [done|]. exists (S f). unfold more. cbn [List.map foldr].
    rewrite str_nil, (scan_member f f); done.
  - destruct (Hv (more (List.map member (kw :: kvs)) "}" rest)) as [f Hf]; [by apply more_delimited|].
    destruct (IH kw Hr Hok) as [f' Hf']. exists (S (f + f')). rewrite (scan_member f (f + f')) by (done || lia).
    assert (skip_ws (more (List.map member (kw :: kvs)) "}" rest)
      = String "," (member kw +:+ more (List.map member kvs) "}" rest)) as ->.
    { unfold more. cbn [List.map foldr]. rewrite !str_assoc, !str_cons, str_nil. by rewrite skip_opening. }
    change (ord "," =? 125) with false. change (ord "," =? 44) with true. cbv iota.
    destruct (member_opening kw (more (List.map member kvs) "}" rest)) as (b & Hs & _).
    { by apply Forall_cons in Hok as [[? _] _]. }
    rewrite Hs, skip_opening by done. rewrite <- Hs.
    by rewrite (scan_pairs_mono _ f' (f + f') _ _ _ ltac:(lia) Hf').
Qed.

Lemma join_more p parts close rest : join "," (p :: parts) +:+ close +:+ rest = p +:+ more parts close rest.
Proof. unfold more. cbn [join]. by rewrite str_assoc. Qed.

Lemma reads_print v depth rest :
  ok v = true → (vdepth v ≤ depth)%nat → delimited rest = true → reads depth (print v +:+ rest) v rest.
Proof.
  revert depth rest. induction v as [|b|n|f|s|l IH|d IH] using pyval_nested_ind; intros depth rest Hok Hd Hr;
    cbn [dumps]; try done.
  - apply reads_atom; [|done]. by eexists _, _.
  - destruct b; (apply reads_atom; [|done]); by eexists _, _.
  - apply reads_atom; [|by rewrite scan_atom_int, Hint by done].
    destruct (pretty_first n) as (c & t & -> & Hc & _). exists c, (t +:+ rest). split; [done|].
    destruct Hc as [Hc|[Hc|Hc]]; [lia..|]. unfold between in Hc. bool_simpl. lia.
  - destruct (Hquote s rest Hok) as (body & -> & Hs). exists 1%nat. cbn [scan_once].
    change (ord (asc 34) =? 34) with true. cbv iota. by rewrite Hs.
  - cbn [printable vdepth] in *. destruct depth as [|depth]; [lia|]. rewrite str_assoc, str_cons, str_nil.
    destruct l as [|v l]; [by exists 1%nat|].
    assert (Forall (λ v, ok v = true) (v :: l)) as Hall.
    { apply Forall_forall. rewrite forallb_forall in Hok. intros x Hx. by apply Hok, list_elem_of_In. }
    destruct (reads_items depth l v rest) as [f Hf]; [|done|].
    + apply Forall_forall. intros x Hx r Hdel. rewrite Forall_forall in IH, Hall. apply IH; auto.
      apply (foldr_max_le vdepth (v :: l)); [|done]. lia.
    + exists (S f). cbn [scan_once List.map]. change (ord "[" =? 34) with false. change (ord "[" =? 123) with false.
      change (ord "[" =? 91) with true. cbv iota. rewrite str_assoc, join_more.
      apply Forall_cons in Hall as [Hv _]. destruct (print_opening v (more (List.map print l) "]" rest) Hv) as (c & t & Hs & Hc).
      rewrite Hs, skip_opening by done. unfold opening in Hc. apply andb_true_iff in Hc as [_ Hc].
      apply negb_true_iff, orb_false_iff in Hc as [-> _]. by rewrite <- Hs, Hf.
  - cbn [printable vdepth] in *. destruct depth as [|depth]; [lia|]. apply andb_true_iff in Hok as [Hnd Hok].
    apply bool_decide_eq_true in Hnd. rewrite str_assoc, str_cons, str_nil.
    assert (List.map (λ '(k, v), quote k +:+ ":" +:+ print v) d = List.map member d) as ->
      by (apply map_ext; by intros []).
    destruct d as [|kv d]; [exists 1%nat; cbn; by rewrite Hpairs by constructor|].
    assert (Forall (λ kv, ok_str kv.1 = true ∧ ok kv.2 = true) (kv :: d)) as Hall.
    { apply Forall_forall. rewrite forallb_forall in Hok. intros [k x] Hx. apply andb_true_iff.
      by apply (Hok (k, x)), list_elem_of_In. }
    destruct (reads_pairs depth d kv rest) as [f Hf]; [|done|].
    + apply Forall_forall. intros x Hx r Hdel. rewrite Forall_forall in IH, Hall. apply IH; auto; [by apply Hall|].
      apply (foldr_max_le (vdepth ∘ snd) (kv :: d)); [|done]. cbn. cbn in Hd. lia.
    + exists (S f). cbn [scan_once List.map]. change (ord "{" =? 34) with false. change (ord "{" =? 123) with true.
      cbv iota. rewrite str_assoc, join_more. apply Forall_cons in Hall as [[Hk _] _].
      destruct (member_opening kv (more (List.map member d) "}" rest) Hk) as (b & Hs & _).
      rewrite Hs, skip_opening by done. change (ord (asc 34) =? 125) with false. cbv iota.
      rewrite <- Hs, Hf. cbn [step]. by rewrite Hpairs.
Qed.

(** What [json.dumps] prints, [json.loads] reads, white space after it included. *)
Lemma loads_print_ws v limit ws : ok v = true → (vdepth v ≤ limit)%nat → delimited ws = true → skip_ws ws = "" →
  loads h limit (print v +:+ ws) = Ret v.
Proof.
  intros Hok Hd Hws Hskip. unfold loads. destruct (loads_terminates h limit (print v +:+ ws)) as [r Hr]. rewrite Hr. cbn.
  unfold loads_with in Hr. destruct (print_opening v ws Hok) as (c & t & Hs & Hc).
  assert (strip_prefix (utf8_char 65279) (print v +:+ ws) = None) as Hbom.
  { eapply strip_prefix_ord; [exact Hs|reflexivity|]. intros Hb. unfold opening in Hc.
    by rewrite <- Hb, andb_false_r in Hc. }
  rewrite Hbom, Hs, skip_opening in Hr by done. rewrite <- Hs in Hr.
  destruct (reads_print v limit ws Hok Hd) as [f Hf]; [done|].
  destruct (scan_once h (enough (print v +:+ ws)) limit (print v +:+ ws)) as [o|] eqn:Ho; [|done].
  assert (o = Ret (v, ws)) as ->.
  { apply (scan_once_mono _ _ (f + enough (print v +:+ ws))) in Ho, Hf; [|lia..]. congruence. }
  cbn in Hr. rewrite Hskip in Hr. cbn in Hr. congruence.
Qed.

Lemma loads_print v limit : ok v = true → (vdepth v ≤ limit)%nat → loads h limit (print v) = Ret v.
Proof. intros Hok Hd. rewrite <- (str_nil_r (print v)). by apply loads_print_ws. Qed.
End roundtrip.

(** ** Values and exceptions of the scanner *)

(** A number is split off the front of a text. *)
Lemma span_digits_split s ds rest : span_digits s = (ds, rest) → s = ds +:+ rest.
Proof.
  revert ds rest. induction s as [|c s IH]; intros ds rest H; cbn in H; [by injection H as <- <-|].
  destruct (is_digit c); [|by injection H as <- <-]. destruct (span_digits s) as [ds' r'].
  injection H as <- <-. rewrite str_cons. f_equal. by apply IH.
Qed.

Lemma split_sign_split s sg rest : split_sign s = (sg, rest) → s = sg +:+ rest.
Proof. destruct s as [|c s]; cbn; [by intros [= <- <-]|]. destruct (_ || _); by intros [= <- <-]. Qed.

Lemma scan_integer_split s w rest : scan_integer s = Some (w, rest) → s = w +:+ rest.
Proof.
  destruct s as [|c s]; cbn; [done|]. destruct (ord c =? 48); [by intros [= <- <-]|].
  destruct (between _ _ _); [|done]. destruct (span_digits s) as [ds r] eqn:Hd. intros [= <- <-].
  rewrite str_cons. f_equal. by apply span_digits_split.
Qed.

Lemma scan_fraction_split s w rest : scan_fraction s = (w, rest) → s = w +:+ rest.
Proof.
  destruct s as [|c s]; cbn; [by intros [= <- <-]|]. destruct (ord c =? 46); [|by intros [= <- <-]].
  destruct (span_digits s) as [ds r] eqn:Hd. destruct (String.eqb ds ""); intros [= <- <-]; [done|].
  rewrite str_cons. f_equal. by apply span_digits_split.
Qed.

Lemma scan_exponent_split s w rest : scan_exponent s = (w, rest) → s = w +:+ rest.
Proof.
  destruct s as [|c s]; cbn; [by intros [= <- <-]|]. destruct (_ || _); [|by intros [= <- <-]].
  destruct (split_sign s) as [sg r] eqn:Hs. destruct (span_digits r) as [ds r'] eqn:Hd.
  destruct (String.eqb ds ""); intros [= <- <-]; [done|].
  rewrite str_cons, str_assoc. f_equal. rewrite <- (span_digits_split _ _ _ Hd). by apply split_sign_split.
Qed.

Lemma scan_number_split s t f rest : scan_number s = Some (t, f, rest) → s = t +:+ rest.
Proof.
  unfold scan_number. intros H.
  destruct (match s with String c r => if ord c =? 45 then (String c "", r) else ("", s) | "" => ("", "") end)
    as [sg s1] eqn:Hsg.
  assert (s = sg +:+ s1) as ->.
  { destruct s as [|c s]; [by injection Hsg as <- <-|]. by destruct (ord c =? 45); injection Hsg as <- <-. }
  destruct (scan_integer s1) as [[w s2]|] eqn:Hi; [|done]. apply scan_integer_split in Hi as ->.
  destruct (scan_fraction s2) as [fr s3] eqn:Hf. apply scan_fraction_split in Hf as ->.
  destruct (scan_exponent s3) as [ex s4] eqn:He. apply scan_exponent_split in He as ->.
  injection H as <- _ <-. by rewrite !str_assoc.
Qed.

(** What the hooks produce and raise is what the scanner produces and raises: [V] holds of
    the values, [Q] of the exceptions, for texts of at most [n] bytes. *)
Section scanned.
Context (h : Hooks) (V : pyval → Prop) (Q : exn → Prop) (n : nat).

Definition good {A} (P : A → Prop) (m : outcome exn A) : Prop := match m with Ret a => P a | Raise e => Q e end.
Definition good_opt {A} (P : A → Prop) (m : option (outcome exn A)) : Prop :=
  match m with Some m => good P m | None => True end.

Context (Hjson : Q JSONDecodeError) (Hdeep : Q RecursionError).
Context (Hnone : V VNone) (Hbool : ∀ b, V (VBool b)) (Hstr : ∀ s, V (VStr s)) (Hlist : ∀ l, Forall V l → V (VList l)).
Context (Hpairs : ∀ ps, Forall (V ∘ snd) ps → good V (object_pairs h ps)).
Context (Hfloat : ∀ text, good V (parse_float h text)) (Hconstant : ∀ text, good V (parse_constant h text)).
Context (Hint : ∀ text, (len text ≤ n)%nat → good V (parse_int h text)).

Lemma good_bind {A B} (P : A → Prop) (R : B → Prop) (m : outcome exn A) (f : A → outcome exn B) :
  good P m → (∀ a, P a → good R (f a)) → good R (m ≫= f).
Proof. destruct m; cbn; auto. Qed.

Lemma good_step {A B} (P : A → Prop) (R : B → Prop) (m : option (outcome exn A)) (f : A → option (outcome exn B)) :
  good_opt P m → (∀ a, m = Some (Ret a) → P a → good_opt R (f a)) → good_opt R (step m f).
Proof. destruct m as [[a|e]|]; cbn; auto. Qed.

Lemma scan_units_good s : good (λ _, True) (scan_units s).
Proof.
  induction s as [s IH] using (induction_ltof1 _ len). unfold ltof in IH. destruct s as [|c s]; [done|]. cbn [scan_units].
  assert (∀ u (s' : string), (len s' < len (String c s))%nat →
    good (λ _, True) (match scan_units s' with Ret (us, rest) => Ret ((u : ascii + Z) :: us, rest) | Raise e => Raise e end)) as Hrec.
  { intros u s' Hle. specialize (IH s' Hle). by destruct (scan_units s') as [[]|]. }
  destruct (ord c =? 34); [done|]. destruct (ord c =? 92).
  - destruct s as [|e s]; [done|]. destruct (ord e =? 117).
    + destruct s as [|h1 [|h2 [|h3 [|h4 s]]]]; try done. destruct (hex4_value _ _ _ _); [|done]. apply Hrec. cbn. lia.
    + destruct (escape_value e); [|done]. apply Hrec. cbn. lia.
  - destruct (ord c <? 32); [done|]. apply Hrec. cbn. lia.
Qed.

Lemma scan_string_good s : good (λ _, True) (scan_string s).
Proof. unfold scan_string. eapply good_bind; [apply scan_units_good|by intros []]. Qed.

Lemma scan_atom_good s : (len s ≤ n)%nat → good (V ∘ fst) (scan_atom h s).
Proof.
  intros Hs. assert (∀ (m : outcome exn pyval) (r : string), good V m → good (V ∘ fst) (v ← m; Ret (v, r))) as Hm
    by (intros [] ?; done).
  unfold scan_atom. repeat match goal with
  | |- context [match strip_prefix ?p s with _ => _ end] => destruct (strip_prefix p s); [by (cbn; auto) || by apply Hm; auto|]
  end.
  destruct (scan_number s) as [[[t []] r]|] eqn:Hn; [by apply Hm| |done]. apply Hm, Hint.
  apply scan_number_split in Hn as ->. rewrite str_length in Hs. lia.
Qed.

Lemma scan_good fuel :
  (∀ depth s, (len s ≤ n)%nat → good_opt (V ∘ fst) (scan_once h fuel depth s)) ∧
  (∀ depth s, (len s ≤ n)%nat → good_opt (Forall V ∘ fst) (scan_items h fuel depth s)) ∧
  (∀ depth s, (len s ≤ n)%nat → good_opt (Forall (V ∘ snd) ∘ fst) (scan_pairs h fuel depth s)).
Proof.
  induction fuel as [|fuel (IH1 & IH2 & IH3)]; [done|]. split_and!; intros depth s Hs.
  - cbn [scan_once]. destruct s as [|c r]; [done|]. cbn [len] in Hs. destruct (ord c =? 34).
    { eapply good_bind; [apply scan_string_good|]. intros [] _. apply Hstr. }
    pose proof (skip_ws_len r).
    destruct (ord c =? 123); [|destruct (ord c =? 91); [|by apply scan_atom_good]];
      (destruct depth as [|depth]; [done|]); (destruct (skip_ws r) as [|d r']; [done|]); cbn [len] in *.
    + destruct (ord d =? 125); [eapply good_bind; [apply Hpairs; constructor|done]|].
      eapply good_step; [apply IH3; cbn; lia|]. intros [ps r1] _ Hps. eapply good_bind; [by apply Hpairs|done].
    + destruct (ord d =? 93); [by apply Hlist|]. eapply good_step; [apply IH2; cbn; lia|].
      intros [vs r1] _ Hvs. by apply Hlist.
  - cbn [scan_items]. eapply good_step; [by apply IH1|]. intros [v r] Hv HV. apply (proj1 (scan_len h fuel)) in Hv.
    pose proof (skip_ws_len r). destruct (skip_ws r) as [|c r']; [done|]. cbn [len] in *.
    destruct (ord c =? 93); [by apply Forall_singleton|]. destruct (ord c =? 44); [|done].
    eapply good_step; [apply IH2; pose proof (skip_ws_len r'); lia|]. intros [vs r1] _ Hvs. by apply Forall_cons.
  - cbn [scan_pairs]. destruct s as [|c s]; [done|]. cbn [len] in Hs. destruct (ord c =? 34); [|done].
    eapply good_step; [apply scan_string_good|]. intros [k r] Hk _. injection Hk as Hk. apply scan_string_len in Hk.
    pose proof (skip_ws_len r). destruct (skip_ws r) as [|c' r']; [done|]. cbn [len] in *.
    destruct (ord c' =? 58); [|done]. pose proof (skip_ws_len r'). eapply good_step; [apply IH1; lia|].
    intros [v r1] Hv HV. apply (proj1 (scan_len h fuel)) in Hv.
    pose proof (skip_ws_len r1). destruct (skip_ws r1) as [|c1 r2]; [done|]. cbn [len] in *.
    destruct (ord c1 =? 125); [by apply Forall_singleton|]. destruct (ord c1 =? 44); [|done].
    eapply good_step; [apply IH3; pose proof (skip_ws_len r2); lia|]. intros [vs r3] _ Hvs. by apply Forall_cons.
Qed.

Lemma loads_good limit text : (len text ≤ n)%nat → good V (loads h limit text).
Proof.
  intros Ht. unfold loads. destruct (loads_terminates h limit text) as [r Hr]. rewrite Hr. cbn.
  assert (good_opt V (loads_with h (enough text) limit text)) as Hg; [|by rewrite Hr in Hg].
  unfold loads_with. destruct (strip_prefix _ _); [done|]. pose proof (skip_ws_len text).
  eapply good_step; [apply scan_good; lia|]. intros [v rest] _ HV. by destruct (String.eqb _ _).
Qed.
End scanned.
