(* ===== verification/Strict.v ===== *)
(** * Strict documents

    What the closed document formats of [src/nexa/workloads/] and of
    [application/checkpoint_validation.py] share: the regular expressions of their
    fields, the [json.loads] hooks that reject repeated keys, and
    [workloads/canonical_json.py], the RFC 8785 encoder of the workload images. *)

From Stdlib Require Import Ascii.
From stdpp Require Import pretty.
From S2P Require Import Prelude PyValue Json.

Local Open Scope string_scope.
Local Open Scope list_scope.
Local Open Scope Z_scope.

(** ** Regular expressions

    [re.compile(p).fullmatch(s)] for the patterns of the sources, by derivatives. *)

Inductive regex :=
| Never
| Eps
| Chars (p : ascii → bool)
| Cat (a b : regex)
| Alt (a b : regex)
| Star (a : regex).

Definition cat (a b : regex) : regex :=
  match a, b with Never, _ | _, Never => Never | Eps, r | r, Eps => r | _, _ => Cat a b end.
Definition alt (a b : regex) : regex := match a, b with Never, r | r, Never => r | _, _ => Alt a b end.

Fixpoint nullable (r : regex) : bool :=
  match r with
  | Never | Chars _ => false
  | Eps | Star _ => true
  | Cat a b => nullable a && nullable b
  | Alt a b => nullable a || nullable b
  end.

Fixpoint deriv (c : ascii) (r : regex) : regex :=
  match r with
  | Never | Eps => Never
  | Chars p => if p c then Eps else Never
  | Cat a b => if nullable a then alt (cat (deriv c a) b) (deriv c b) else cat (deriv c a) b
  | Alt a b => alt (deriv c a) (deriv c b)
  | Star a => cat (deriv c a) (Star a)
  end.

Fixpoint fullmatch (r : regex) (s : string) : bool :=
  match s with "" => nullable r | String c s => fullmatch (deriv c r) s end.

Definition range (a b : ascii) (c : ascii) : bool := between (ord a) (ord c) (ord b).
Fixpoint text (s : string) : regex :=
  match s with "" => Eps | String c s => cat (Chars (Ascii.eqb c)) (text s) end.
Fixpoint times (n : nat) (r : regex) : regex := match n with O => Eps | S n => cat r (times n r) end.
Fixpoint upto (n : nat) (r : regex) : regex := match n with O => Eps | S n => alt Eps (cat r (upto n r)) end.
Definition plus (r : regex) : regex := cat r (Star r).

Declare Scope regex_scope.
Delimit Scope regex_scope with re.
Bind Scope regex_scope with regex.
Notation "a · b" := (cat a b) (at level 40, left associativity) : regex_scope.
Notation "a ⊕ b" := (alt a b) (at level 50, left associativity) : regex_scope.
Local Open Scope regex_scope.

Definition digit : regex := Chars (range "0" "9").
Definition hex : regex := Chars (λ c, range "0" "9" c || range "a" "f" c).

Definition _CHECKSUM : regex := text "sha256:" · times 64 hex.
Definition _UUID7 : regex :=
  times 8 hex · text "-" · times 4 hex · text "-7" · times 3 hex · text "-"
  · Chars (λ c, range "8" "9" c || range "a" "b" c) · times 3 hex · text "-" · times 12 hex.

(** The language of an expression. *)
Inductive matches : regex → string → Prop :=
| matches_eps : matches Eps ""
| matches_chars p c : p c = true → matches (Chars p) (String c "")
| matches_cat a b s t : matches a s → matches b t → matches (Cat a b) (s +:+ t)
| matches_left a b s : matches a s → matches (Alt a b) s
| matches_right a b s : matches b s → matches (Alt a b) s
| matches_stop a : matches (Star a) ""
| matches_more a c s t : matches a (String c s) → matches (Star a) t → matches (Star a) (String c s +:+ t).
Create HintDb regex.
#[export] Hint Constructors matches : regex.

Lemma matches_cat_iff a b s : matches (Cat a b) s ↔ ∃ s1 s2, s = s1 +:+ s2 ∧ matches a s1 ∧ matches b s2.
Proof. split; [inversion 1; subst; eauto|]. intros (? & ? & -> & ? & ?). eauto with regex. Qed.

Lemma matches_star_cons a c s :
  matches (Star a) (String c s) ↔ ∃ s1 s2, s = s1 +:+ s2 ∧ matches a (String c s1) ∧ matches (Star a) s2.
Proof.
  split; [|intros (? & ? & -> & ? & ?); rewrite <- str_cons; eauto with regex].
  remember (Star a) as r eqn:Hr. remember (String c s) as u eqn:Hu. destruct 1; simplify_eq.
  rewrite str_cons in Hu. injection Hu as -> <-. eauto.
Qed.

Lemma matches_smart_cat a b s : matches (cat a b) s ↔ ∃ s1 s2, s = s1 +:+ s2 ∧ matches a s1 ∧ matches b s2.
Proof.
  assert (∀ r s, matches r s ↔ ∃ s1 s2, s = s1 +:+ s2 ∧ matches Eps s1 ∧ matches r s2) as Hl.
  { clear. intros r s. split; [intros H; exists "", s; rewrite str_nil; eauto with regex|].
    intros (? & ? & -> & H1 & H2). inversion H1; subst. by rewrite str_nil. }
  assert (∀ r s, matches r s ↔ ∃ s1 s2, s = s1 +:+ s2 ∧ matches r s1 ∧ matches Eps s2) as Hr.
  { clear. intros r s. split; [intros H; exists s, ""; rewrite str_nil_r; eauto with regex|].
    intros (? & ? & -> & H1 & H2). inversion H2; subst. by rewrite str_nil_r. }
  assert (∀ s, matches Never s ↔ False) as Hn by (intros t; split; [inversion 1|done]).
  destruct a, b; cbn [cat]; try apply matches_cat_iff; try apply Hl; try apply Hr;
    rewrite Hn; setoid_rewrite Hn; naive_solver.
Qed.

Lemma matches_smart_alt a b s : matches (alt a b) s ↔ matches a s ∨ matches b s.
Proof.
  assert (∀ s, matches Never s ↔ False) as Hn by (intros t; split; [inversion 1|done]).
  destruct a, b; cbn [alt]; rewrite ?Hn;
    try tauto; (split; [inversion 1; subst; eauto|intros []; eauto with regex]).
Qed.

Lemma nullable_spec r : nullable r = true ↔ matches r "".
Proof.
  induction r as [| |p|a IHa b IHb|a IHa b IHb|a IHa]; cbn.
  - split; [done|inversion 1].
  - split; eauto with regex.
  - split; [done|inversion 1].
  - rewrite andb_true_iff, IHa, IHb. split.
    + intros [Ha Hb]. by apply (matches_cat _ _ "" "").
    + intros ([] & t & Hst & Ha & Hb)%matches_cat_iff; [|done]. rewrite str_nil in Hst. by subst.
  - rewrite orb_true_iff, IHa, IHb. split; [intros []; eauto with regex|inversion 1; subst; eauto].
  - split; eauto with regex.
Qed.

Lemma str_split_cons c s s1 s2 :
  String c s = s1 +:+ s2 ↔ (s1 = "" ∧ s2 = String c s) ∨ ∃ t, s1 = String c t ∧ s = t +:+ s2.
Proof.
  destruct s1 as [|d s1]; rewrite ?str_nil, ?str_cons; [naive_solver|].
  split; [intros [= -> ->]; right; eauto|]. intros [[]|(t & [= -> ->] & ->)]; done.
Qed.

Lemma deriv_spec c r s : matches (deriv c r) s ↔ matches r (String c s).
Proof.
  revert s. induction r as [| |p|a IHa b IHb|a IHa b IHb|a IHa]; intros s; cbn [deriv].
  - split; inversion 1.
  - split; inversion 1.
  - destruct (p c) eqn:Hp; (split; [inversion 1; subst; eauto with regex|inversion 1; subst; eauto with regex]). congruence.
  - assert (matches (cat (deriv c a) b) s ↔ ∃ t s2, s = t +:+ s2 ∧ matches a (String c t) ∧ matches b s2) as Hc.
    { rewrite matches_smart_cat. by setoid_rewrite IHa. }
    assert (matches (Cat a b) (String c s) ↔ (matches a "" ∧ matches b (String c s)) ∨
      ∃ t s2, s = t +:+ s2 ∧ matches a (String c t) ∧ matches b s2) as ->.
    { split.
      - intros (s1 & s2 & Hst & Ha & Hb)%matches_cat_iff.
        apply str_split_cons in Hst as [[-> ->]|(t & -> & ->)]; [by left|right; eauto].
      - intros [[Ha Hb]|(t & s2 & -> & Ha & Hb)]; [|rewrite <- str_cons; eauto with regex].
        rewrite <- (str_nil (String c s)). eauto with regex. }
    rewrite <- nullable_spec. destruct (nullable a); [rewrite matches_smart_alt, IHb|]; rewrite Hc; intuition congruence.
  - rewrite matches_smart_alt, IHa, IHb. split; [intros []; eauto with regex|inversion 1; subst; eauto].
  - rewrite matches_smart_cat, matches_star_cons. by setoid_rewrite IHa.
Qed.

Lemma fullmatch_spec r s : fullmatch r s = true ↔ matches r s.
Proof.
  revert r. induction s as [|c s IH]; intros r; cbn; [apply nullable_spec|]. by rewrite IH, deriv_spec.
Qed.

(** Every character an expression mentions is in [p]. *)
Definition every_char : list ascii := List.map ascii_of_nat (seq 0 256).
Lemma every_char_spec c : In c every_char.
Proof.
  apply in_map_iff. exists (nat_of_ascii c). split; [apply ascii_nat_embedding|].
  apply in_seq. pose proof (nat_ascii_bounded c). lia.
Qed.

Fixpoint within (p : ascii → bool) (r : regex) : bool :=
  match r with
  | Never | Eps => true
  | Chars q => forallb (λ c, implb (q c) (p c)) every_char
  | Cat a b | Alt a b => within p a && within p b
  | Star a => within p a
  end.

Lemma all_chars_app p s t : all_chars p (s +:+ t) = all_chars p s && all_chars p t.
Proof. induction s as [|c s IH]; rewrite ?str_nil, ?str_cons; cbn; [done|]. by rewrite IH, andb_assoc. Qed.

Lemma fullmatch_chars p r s : within p r = true → fullmatch r s = true → all_chars p s = true.
Proof.
  rewrite fullmatch_spec. intros Hp H. revert Hp.
  induction H as [|q c Hq| | | | |]; cbn [within]; intros Hw; rewrite ?all_chars_app; cbn [all_chars] in *;
    rewrite ?andb_true_iff in *; destruct_and?; auto.
  rewrite forallb_forall in Hw. specialize (Hw c (every_char_spec c)). by rewrite Hq in Hw.
Qed.

(** The length of every match, where it is fixed. *)
Fixpoint width (r : regex) : option nat :=
  match r with
  | Eps => Some O
  | Chars _ => Some 1%nat
  | Cat a b => m ← width a; n ← width b; Some (m + n)%nat
  | _ => None
  end.

Lemma fullmatch_length r s n : width r = Some n → fullmatch r s = true → String.length s = n.
Proof.
  rewrite fullmatch_spec. intros Hn H. revert n Hn. induction H; intros n Hn; cbn in Hn; simplify_eq; try done.
  destruct (width a) as [i|], (width b) as [j|]; simplify_eq/=. rewrite str_length. auto.
Qed.

(** ** [workloads/canonical_json.py] *)

Definition _MAX_SAFE_INTEGER : Z := 2 ^ 53 - 1.

(** The code points of a [str]. *)
Fixpoint code_points (s : string) : list Z :=
  match s with
  | "" => []
  | String a s1 =>
      let n := ord a in
      if n <? 128 then n :: code_points s1
      else match s1 with
      | "" => []
      | String b s2 =>
          if n <? 224 then (n - 192) * 64 + (ord b - 128) :: code_points s2
          else match s2 with
          | "" => []
          | String c s3 =>
              if n <? 240 then ((n - 224) * 64 + (ord b - 128)) * 64 + (ord c - 128) :: code_points s3
              else match s3 with
              | "" => []
              | String d s4 =>
                  (((n - 240) * 64 + (ord b - 128)) * 64 + (ord c - 128)) * 64 + (ord d - 128) :: code_points s4
              end
          end
      end
  end.

(** [s.encode("utf-16-be")], as code units, which compare as their bytes do. *)
Definition utf16_units (n : Z) : list Z :=
  if n <? 65536 then [n] else [55296 + (n - 65536) / 1024; 56320 + (n - 65536) mod 1024].
Definition utf16_be (s : string) : outcome exn (list Z) :=
  if utf8_valid s then Ret (code_points s ≫= utf16_units) else Raise UnicodeEncodeError.

Fixpoint units_leb (s t : list Z) : bool :=
  match s, t with
  | [], _ => true
  | _ :: _, [] => false
  | a :: s, b :: t => (a <? b) || ((a =? b) && units_leb s t)
  end.

(** [sorted(value, key=...)]: all keys are computed first. *)
Definition sort_members {A} (members : list (string * A)) : outcome exn (list (string * A)) :=
  keyed ← mapM (λ kv, key ← utf16_be kv.1; Ret (key, kv)) members;
  Ret (List.map snd (py_sorted (λ a b, units_leb a.1 b.1) keyed)).

Section canonical.
(** [repr] of a positive finite float. *)
Context (float_repr : spec_float → string).

Fixpoint partition_at (c : ascii) (s : string) : string * string :=
  match s with
  | "" => ("", "")
  | String d r =>
      if Ascii.eqb c d then ("", r) else let '(before, after) := partition_at c r in (String d before, after)
  end.
Fixpoint lstrip_zeros (s : string) : string :=
  match s with String c r => if Ascii.eqb c "0" then lstrip_zeros r else s | "" => "" end.
Fixpoint rstrip_zeros (s : string) : string :=
  match s with
  | "" => ""
  | String c r => let r := rstrip_zeros r in if Ascii.eqb c "0" && String.eqb r "" then "" else String c r
  end.
Fixpoint zeros (n : nat) : string := match n with O => "" | S n => String "0" (zeros n) end.

Definition _shortest_digits (value : spec_float) : string * Z :=
  let '(mantissa, exponent_text) := partition_at "e" (float_repr value) in
  let exponent := match split_sign exponent_text with
                  | (sign, ds) => if String.eqb sign "-" then - dec_value 0 ds else dec_value 0 ds
                  end in
  let '(whole, fraction) := partition_at "." mantissa in
  let fraction := if String.eqb fraction "0" then "" else fraction in
  let digits := lstrip_zeros (whole +:+ fraction) in
  let exponent := exponent - byte_len fraction in
  let stripped := rstrip_zeros digits in
  (stripped, exponent + (byte_len digits - byte_len stripped)).

Definition es6_number (value : spec_float) : outcome exn string :=
  match value with
  | S754_nan | S754_infinity _ => Raise (Exn "ValueError" "non-finite numbers are not valid JSON")
  | S754_zero _ => Ret "0"
  | S754_finite negative m e =>
      let sign := if negative then "-" else "" in
      let '(digits, exponent) := _shortest_digits (S754_finite false m e) in
      let k := byte_len digits in
      let n := exponent + k in
      if (k <=? n) && (n <=? 21) then Ret (sign +:+ digits +:+ zeros (Z.to_nat (n - k)))
      else if (0 <? n) && (n <=? 21) then
        Ret (sign +:+ String.substring 0 (Z.to_nat n) digits +:+ "."
             +:+ String.substring (Z.to_nat n) (Z.to_nat (k - n)) digits)
      else if (-6 <? n) && (n <=? 0) then Ret (sign +:+ "0." +:+ zeros (Z.to_nat (- n)) +:+ digits)
      else
        let tail := n - 1 in
        let mantissa := if k =? 1 then digits
                        else String.substring 0 1 digits +:+ "." +:+ String.substring 1 (Z.to_nat (k - 1)) digits in
        Ret (sign +:+ mantissa +:+ "e" +:+ (if 0 <? tail then "+" else "-") +:+ pretty (Z.abs tail))
  end.

(** The text [_encode] appends; [depth] is the number of nested calls the stack has
    room for. *)
Fixpoint _encode (depth : nat) (value : pyval) : outcome exn string :=
  match depth with
  | O => Raise RecursionError
  | S depth =>
      match value with
      | VNone => Ret "null"
      | VBool b => Ret (if b then "true" else "false")
      | VInt n =>
          if _MAX_SAFE_INTEGER <? Z.abs n then Raise (Exn "ValueError" "integer is outside the I-JSON safe range")
          else Ret (pretty n)
      | VFloat f => es6_number f
      | VStr s => Ret (json_raw_string s)
      | VDict d =>
          members ← sort_members (List.map (λ '(k, v), (k, _encode depth v)) d);
          parts ← mapM (λ '(k, text), t ← text; Ret (json_raw_string k +:+ ":" +:+ t)) members;
          Ret ("{" +:+ join "," parts +:+ "}")
      | VList l =>
          parts ← mapM id (List.map (_encode depth) l);
          Ret ("[" +:+ join "," parts +:+ "]")
      end
  end.

Definition canonical_json (depth : nat) (value : pyval) : outcome exn string :=
  text ← _encode depth value; encode_utf8 text.
End canonical.

(** *** UTF-8 *)

Lemma utf8_valid_ind (P : string → Prop) :
  P "" →
  (∀ a s, ord a < 128 → P s → P (String a s)) →
  (∀ a b s, between 194 (ord a) 223 = true → cont b = true → P s → P (String a (String b s))) →
  (∀ a b c s, between 224 (ord a) 239 = true →
     between (if ord a =? 224 then 160 else 128) (ord b) (if ord a =? 237 then 159 else 191) = true →
     cont c = true → P s → P (String a (String b (String c s)))) →
  (∀ a b c d s, between 240 (ord a) 244 = true →
     between (if ord a =? 240 then 144 else 128) (ord b) (if ord a =? 244 then 143 else 191) = true →
     cont c = true → cont d = true → P s → P (String a (String b (String c (String d s))))) →
  ∀ s, utf8_valid s = true → P s.
Proof.
  intros H0 H1 H2 H3 H4. fix IH 1. intros [|a s]; cbn; [done|].
  destruct (ord a <? 128) eqn:E1; [intros; apply H1; [lia|by apply IH]|].
  destruct s as [|b s]; [done|]. destruct (between 194 (ord a) 223) eqn:E2.
  { intros [Hb Hs]%andb_true_iff. apply H2; auto. }
  destruct s as [|c s]; [done|]. destruct (between 224 (ord a) 239) eqn:E3.
  { intros [[Hb Hc]%andb_true_iff Hs]%andb_true_iff. apply H3; auto. }
  destruct s as [|d s]; [done|]. rewrite !andb_true_iff. intros [[[[? ?] ?] ?] ?]. apply H4; auto.
Qed.

Lemma utf8_valid_app s t : utf8_valid s = true → utf8_valid (s +:+ t) = utf8_valid t.
Proof.
  intros Hs. revert s Hs. apply (utf8_valid_ind (λ s, utf8_valid (s +:+ t) = utf8_valid t)); [done|..].
  - intros a s Ha IH. rewrite str_cons. cbn [utf8_valid]. by rewrite (proj2 (Z.ltb_lt _ _) Ha).
  - intros a b s Ha Hb IH. rewrite !str_cons. cbn [utf8_valid]. rewrite Ha, Hb, IH.
    unfold between in Ha. bool_simpl. by rewrite (proj2 (Z.ltb_ge _ _)) by lia.
  - intros a b c s Ha Hb Hc IH. rewrite !str_cons. cbn [utf8_valid]. rewrite Ha, Hb, Hc, IH.
    unfold between in Ha |- *. bool_simpl. rewrite (proj2 (Z.ltb_ge _ _)) by lia.
    by rewrite (proj2 (Z.leb_gt (ord a) 223)), andb_false_r by lia.
  - intros a b c d s Ha Hb Hc Hd IH. rewrite !str_cons. cbn [utf8_valid]. rewrite Ha, Hb, Hc, Hd, IH.
    unfold between in Ha |- *. bool_simpl. rewrite (proj2 (Z.ltb_ge _ _)) by lia.
    by rewrite (proj2 (Z.leb_gt (ord a) 223)), (proj2 (Z.leb_gt (ord a) 239)), !andb_false_r by lia.
Qed.

Lemma is_ascii_utf8 s : is_ascii s = true → utf8_valid s = true.
Proof.
  induction s as [|c s IH]; [done|]. unfold is_ascii, is_ascii_char. cbn. intros [-> Hs]%andb_true_iff. by apply IH.
Qed.

(** Escaping a character keeps a text valid. *)
Lemma json_char_cases c :
  if ord c <? 128 then is_ascii (json_char 255 c) = true else json_char 255 c = String c "".
Proof. by destruct c as [[] [] [] [] [] [] [] []]; vm_compute. Qed.

Lemma json_char_ascii c : ord c < 128 → is_ascii (json_char 255 c) = true.
Proof. intros Hc. pose proof (json_char_cases c) as H. by rewrite (proj2 (Z.ltb_lt _ _) Hc) in H. Qed.
Lemma json_char_copied c : 128 ≤ ord c → json_char 255 c = String c "".
Proof. intros Hc. pose proof (json_char_cases c) as H. by rewrite (proj2 (Z.ltb_ge _ _) Hc) in H. Qed.

Lemma cont_high c : cont c = true → 128 ≤ ord c.
Proof. unfold cont, between. intros. bool_simpl. lia. Qed.

Lemma json_raw_chars_valid s : utf8_valid s = true → utf8_valid (json_raw_chars s) = true.
Proof.
  revert s. apply utf8_valid_ind; [done|..].
  - intros a s Ha IH. cbn. by rewrite utf8_valid_app by (by apply is_ascii_utf8, json_char_ascii).
  - intros a b s Ha Hb IH. cbn [json_raw_chars]. pose proof (cont_high _ Hb). unfold between in *.
    rewrite !json_char_copied, !str_cons, !str_nil by (bool_simpl; lia). cbn [utf8_valid]. unfold between.
    rewrite Ha, Hb, IH. bool_simpl. by rewrite (proj2 (Z.ltb_ge _ _)) by lia.
  - intros a b c s Ha Hb Hc IH. cbn [json_raw_chars]. pose proof (cont_high _ Hc).
    assert (128 ≤ ord b) by (unfold between in Hb; bool_simpl; destruct (ord a =? 224); lia).
    rewrite !json_char_copied, !str_cons, !str_nil by (unfold between in Ha; bool_simpl; lia).
    cbn [utf8_valid]. rewrite Ha, Hb, Hc, IH. unfold between in Ha |- *. bool_simpl.
    rewrite (proj2 (Z.ltb_ge _ _)) by lia. by rewrite (proj2 (Z.leb_gt (ord a) 223)), andb_false_r by lia.
  - intros a b c d s Ha Hb Hc Hd IH. cbn [json_raw_chars]. pose proof (cont_high _ Hc). pose proof (cont_high _ Hd).
    assert (128 ≤ ord b) by (unfold between in Hb; bool_simpl; destruct (ord a =? 240); lia).
    rewrite !json_char_copied, !str_cons, !str_nil by (unfold between in Ha; bool_simpl; lia).
    cbn [utf8_valid]. rewrite Ha, Hb, Hc, Hd, IH. unfold between in Ha |- *. bool_simpl.
    rewrite (proj2 (Z.ltb_ge _ _)) by lia.
    by rewrite (proj2 (Z.leb_gt (ord a) 223)), (proj2 (Z.leb_gt (ord a) 239)), !andb_false_r by lia.
Qed.

Lemma json_raw_string_valid s : utf8_valid s = true → utf8_valid (json_raw_string s) = true.
Proof.
  intros Hs. unfold json_raw_string.
  rewrite utf8_valid_app by done. by rewrite utf8_valid_app by (by apply json_raw_chars_valid).
Qed.

Lemma join_valid parts : Forall (λ p, utf8_valid p = true) parts → utf8_valid (join "," parts) = true.
Proof.
  destruct 1 as [|p parts Hp Hall]; [done|]. unfold join. rewrite utf8_valid_app by done.
  induction Hall as [|q parts Hq _ IH]; [done|]. cbn [foldr]. rewrite utf8_valid_app by done. by rewrite utf8_valid_app.
Qed.

Lemma all_chars_impl (p q : ascii → bool) s :
  (∀ c, p c = true → q c = true) → all_chars p s = true → all_chars q s = true.
Proof. intros Hpq. induction s as [|c s IH]; cbn; [done|]. rewrite !andb_true_iff. naive_solver. Qed.

Lemma digit_ascii c : is_digit c = true → is_ascii_char c = true.
Proof. unfold is_digit, is_ascii_char, between. intros. bool_simpl. lia. Qed.

Lemma pretty_pos_ascii (p : positive) : is_ascii (pretty (N.pos p)) = true.
Proof.
  destruct (pretty_pos p) as (c & ds & -> & Hc & Hds & _). unfold is_ascii. cbn. apply andb_true_iff. split.
  - unfold between, is_ascii_char in *. bool_simpl. lia.
  - eapply all_chars_impl; [apply digit_ascii|done].
Qed.

Lemma pretty_ascii (n : Z) : is_ascii (pretty n) = true.
Proof. destruct n as [|p|p]; [done|apply pretty_pos_ascii|apply (pretty_pos_ascii p)]. Qed.

(** *** Sizes of printed integers *)

Lemma dec_value_lower ds acc : all_chars is_digit ds = true → acc * 10 ^ byte_len ds ≤ dec_value acc ds.
Proof.
  unfold byte_len. revert acc. induction ds as [|c ds IH]; cbn [all_chars dec_value String.length]; intros acc Hd.
  { cbn. lia. }
  apply andb_true_iff in Hd as [Hc Hds]. etrans; [|by apply IH]. unfold is_digit, between in Hc. bool_simpl.
  rewrite Nat2Z.inj_succ, Z.pow_succ_r by lia. pose proof (Z.pow_pos_nonneg 10 (Z.of_nat (String.length ds))). nia.
Qed.

Lemma pretty_N_length (n : N) k : (0 < k)%nat → Z.of_N n < 10 ^ Z.of_nat k → (String.length (pretty n) ≤ k)%nat.
Proof.
  intros Hk Hn. destruct n as [|p]; [done|].
  destruct (pretty_pos p) as (c & ds & Hp & Hc & Hds & Hv). rewrite Hp. cbn [String.length].
  pose proof (dec_value_lower ds (ord c - 48) Hds) as Hl. cbn [dec_value] in Hv. cbn [Z.of_N] in Hn.
  replace (0 * 10 + (ord c - 48)) with (ord c - 48) in Hv by lia. rewrite Hv in Hl. unfold byte_len in Hl.
  unfold between in Hc. bool_simpl.
  assert (10 ^ Z.of_nat (String.length ds) < 10 ^ Z.of_nat k) as Hlt.
  { pose proof (Z.pow_pos_nonneg 10 (Z.of_nat (String.length ds))). nia. }
  apply Z.pow_lt_mono_r_iff in Hlt; lia.
Qed.

Lemma pretty_length (n : Z) k :
  (0 < k)%nat → 0 ≤ n < 10 ^ Z.of_nat k → (String.length (pretty n) ≤ k)%nat.
Proof.
  intros Hk Hn. destruct n as [|p|p]; [done| |lia].
  change (pretty (Z.pos p)) with (pretty (N.pos p)). apply pretty_N_length; [done|]. cbn [Z.of_N]. lia.
Qed.

Definition safe_int (n : Z) : bool := Z.abs n <=? _MAX_SAFE_INTEGER.

Lemma safe_short n : safe_int n = true → short_int n = true.
Proof.
  unfold safe_int, short_int, _MAX_SAFE_INTEGER. intros Hn. bool_simpl.
  assert (String.length (pretty (Z.abs_N n)) ≤ 16)%nat; [|unfold byte_len; lia].
  apply pretty_N_length; [lia|]. rewrite N2Z.inj_abs_N. change (10 ^ Z.of_nat 16) with 10000000000000000. lia.
Qed.

(** *** Canonical text

    For documents without floats, with member names in ASCII and integers in the safe
    range, the canonical text is that of [json.dumps] with sorted keys. *)

Fixpoint ascii_keys (v : pyval) : bool :=
  match v with
  | VList l => forallb ascii_keys l
  | VDict d => forallb (λ '(k, v), is_ascii k && ascii_keys v) d
  | _ => true
  end.

Lemma ascii_code_points s : is_ascii s = true → code_points s ≫= utf16_units = List.map ord (String.list_ascii_of_string s).
Proof.
  unfold is_ascii, is_ascii_char. induction s as [|c s IH]; cbn; [done|]. intros [Hc Hs]%andb_true_iff. rewrite Hc.
  apply Z.ltb_lt in Hc. cbn. rewrite IH by done. unfold utf16_units. by rewrite (proj2 (Z.ltb_lt _ _)) by lia.
Qed.

Lemma units_leb_string s t :
  units_leb (List.map ord (String.list_ascii_of_string s)) (List.map ord (String.list_ascii_of_string t)) = String.leb s t.
Proof.
  unfold String.leb. revert t. induction s as [|c s IH]; intros [|d t]; cbn; try done.
  rewrite IH. unfold Ascii.compare, ord, nat_of_ascii. rewrite !N_nat_Z.
  destruct (N.compare_spec (N_of_ascii c) (N_of_ascii d)) as [H|H|H].
  - rewrite H, Z.ltb_irrefl, Z.eqb_refl. done.
  - by rewrite (proj2 (Z.ltb_lt _ _)) by lia.
  - rewrite (proj2 (Z.ltb_ge _ _)), (proj2 (Z.eqb_neq _ _)) by lia. done.
Qed.

Lemma sort_members_ascii {A} (ms : list (string * A)) :
  Forall (λ kv, is_ascii kv.1 = true) ms → sort_members ms = Ret (py_sorted (λ a b, String.leb a.1 b.1) ms).
Proof.
  intros Ha. rewrite Forall_forall in Ha. unfold sort_members.
  rewrite (mapM_pure (λ kv, (List.map ord (String.list_ascii_of_string kv.1), kv))).
  - cbn. f_equal.
    rewrite (py_sorted_map (λ kv : string * A, (List.map ord (String.list_ascii_of_string kv.1), kv))
      (λ a b, String.leb a.1 b.1)) by (intros; apply units_leb_string).
    rewrite map_map. apply map_id.
  - intros kv Hkv. unfold utf16_be. rewrite is_ascii_utf8, ascii_code_points by auto. done.
Qed.

Lemma mapM_map {E A B C} (f : B → outcome E C) (g : A → B) l : mapM f (List.map g l) = mapM (λ x, f (g x)) l.
Proof. induction l as [|x l IH]; cbn; [done|]. by rewrite IH. Qed.

(** What the closed formats hold. *)
Definition plain (v : pyval) : bool := printable utf8_valid safe_int v && ascii_keys v.

Lemma plain_list l : plain (VList l) = true ↔ Forall (λ v, plain v = true) l.
Proof.
  unfold plain. cbn. rewrite andb_true_iff, !forallb_forall, Forall_forall. setoid_rewrite andb_true_iff.
  setoid_rewrite list_elem_of_In. naive_solver.
Qed.

Lemma plain_dict d : plain (VDict d) = true ↔
  NoDup d.*1 ∧ Forall (λ kv, is_ascii kv.1 = true ∧ plain kv.2 = true) d.
Proof.
  unfold plain. cbn. rewrite !andb_true_iff, bool_decide_eq_true, !forallb_forall, Forall_forall.
  setoid_rewrite andb_true_iff. setoid_rewrite list_elem_of_In. split.
  - intros [[Hnd H1] H2]. split; [done|]. intros [k v] Hin.
    specialize (H1 _ Hin). specialize (H2 _ Hin). cbn in *.
    apply andb_true_iff in H1 as [_ ?], H2 as [? ?]. done.
  - intros [Hnd H]. split_and!; [done|..]; intros [k v] Hin; destruct (H _ Hin) as (Hk & H1 & H2); cbn [fst snd] in *;
      rewrite ?Hk, ?H1, ?H2, ?is_ascii_utf8 by done; reflexivity.
Qed.

Lemma printable_sorted ok_str ok_int v : printable ok_str ok_int (json_sorted v) = printable ok_str ok_int v.
Proof.
  induction v as [| | | | |l IH|d IH] using pyval_nested_ind; try done.
  - cbn. induction IH as [|x l Hx _ IHl]; [done|]. cbn. by rewrite Hx, IHl.
  - rewrite json_sorted_dict. cbn [printable]. f_equal.
    + apply bool_decide_ext. by rewrite sorted_dict_keys.
    + unfold sorted_dict. rewrite (forallb_perm _ _ _ (py_sorted_perm _ _)).
      induction IH as [|[k x] d Hx _ IHd]; [done|]. cbn in *. by rewrite Hx, IHd.
Qed.

Lemma foldr_max_perm {A} (f : A → nat) l l' :
  l ≡ₚ l' → foldr (λ v n, Nat.max (f v) n) O l = foldr (λ v n, Nat.max (f v) n) O l'.
Proof. induction 1; cbn; lia. Qed.

Lemma vdepth_sorted v : vdepth (json_sorted v) = vdepth v.
Proof.
  induction v as [| | | | |l IH|d IH] using pyval_nested_ind; try done; [cbn; f_equal|].
  - induction IH as [|x l Hx _ IHl]; [done|]. cbn. by rewrite Hx, IHl.
  - rewrite json_sorted_dict. unfold sorted_dict. cbn [vdepth]. f_equal.
    rewrite (foldr_max_perm (λ kv, vdepth kv.2) _ _ (py_sorted_perm _ _)).
    induction IH as [|[k x] d Hx _ IHd]; [done|]. cbn in *. by rewrite Hx, IHd.
Qed.

Lemma plain_sorted_iff v : plain (json_sorted v) = true ↔ plain v = true.
Proof.
  induction v as [| | | | |l IH|d IH] using pyval_nested_ind; try done.
  - cbn [json_sorted]. rewrite !plain_list.
    induction IH as [|x l Hx _ IHl]; [done|]. cbn [List.map]. by rewrite !Forall_cons, Hx, IHl.
  - rewrite json_sorted_dict, !plain_dict, sorted_dict_keys. unfold sorted_dict. rewrite py_sorted_perm.
    apply and_iff_compat_l. induction IH as [|[k x] d Hx _ IHd]; [done|]. cbn [List.map fst snd] in *.
    by rewrite !Forall_cons, IHd; cbn [fst snd]; rewrite Hx.
Qed.
Lemma plain_sorted v : plain v = true → plain (json_sorted v) = true.
Proof. apply plain_sorted_iff. Qed.

Lemma dumps_valid fr v : plain v = true → utf8_valid (dumps json_raw_string fr v) = true.
Proof.
  induction v as [|b|n| |s|l IH|d IH] using pyval_nested_ind; intros Hp; try done.
  - by destruct b.
  - apply is_ascii_utf8, pretty_ascii.
  - unfold plain in Hp. cbn in Hp. bool_simpl. by apply json_raw_string_valid.
  - apply plain_list in Hp. cbn [dumps]. rewrite utf8_valid_app by done. rewrite utf8_valid_app; [done|].
    apply join_valid. induction IH as [|x l Hx _ IHl]; [constructor|]. apply Forall_cons in Hp as [? ?]. cbn. constructor; auto.
  - apply plain_dict in Hp as [_ Hp]. cbn [dumps]. rewrite utf8_valid_app by done. rewrite utf8_valid_app; [done|].
    apply join_valid. induction IH as [|[k x] d Hx _ IHd]; [constructor|]. apply Forall_cons in Hp as [[? ?] ?].
    cbn in *. constructor; auto. rewrite utf8_valid_app by (by apply json_raw_string_valid, is_ascii_utf8).
    rewrite utf8_valid_app by done. auto.
Qed.

Lemma _encode_dumps float_repr fr v depth : plain v = true → (vdepth v < depth)%nat →
  _encode float_repr depth v = Ret (dumps json_raw_string fr (json_sorted v)).
Proof.
  revert depth. induction v as [|b|n| |s|l IH|d IH] using pyval_nested_ind; intros [|depth] Hp Hd; try lia; try done.
  - unfold plain, safe_int in Hp. cbn in Hp |- *. by rewrite (proj2 (Z.ltb_ge _ _)) by (bool_simpl; lia).
  - apply plain_list in Hp. cbn [vdepth] in Hd. cbn [_encode json_sorted dumps].
    rewrite mapM_map, (mapM_pure (λ v, dumps json_raw_string fr (json_sorted v))).
    + cbn. by rewrite map_map.
    + intros x Hx. rewrite Forall_forall in IH, Hp. apply IH; auto.
      assert (vdepth x ≤ pred depth)%nat; [|lia]. apply (foldr_max_le vdepth l); [lia|done].
  - apply plain_dict in Hp as [_ Hp]. cbn [vdepth] in Hd. rewrite json_sorted_dict. cbn [_encode dumps].
    rewrite sort_members_ascii by (apply Forall_map; eapply Forall_impl; [exact Hp|]; by intros [] []).
    assert (sorted_dict d = List.map (λ '(k, v), (k, json_sorted v)) (py_sorted (λ a b, String.leb a.1 b.1) d)) as ->.
    { apply (py_sorted_map (λ '(k, v), (k, json_sorted v))). by intros [] []. }
    rewrite (py_sorted_map (λ '(k, v), (k, _encode float_repr depth v)) (λ a b, String.leb a.1 b.1)) by (by intros [] []).
    cbn [mbind outcome_bind]. rewrite mapM_map, (mapM_pure (λ '(k, v), json_raw_string k +:+ ":" +:+ dumps json_raw_string fr (json_sorted v))).
    + cbn. rewrite map_map. do 2 f_equal. f_equal. f_equal. apply map_ext. by intros [].
    + intros [k x] Hx. apply py_sorted_elem in Hx. rewrite Forall_forall in IH, Hp.
      rewrite (IH (k, x) Hx); [done|by apply (Hp (k, x))|].
      assert (vdepth x ≤ pred depth)%nat; [|cbn; lia]. apply (foldr_max_le (vdepth ∘ snd) d _ (k, x)); [cbn; lia|done].
Qed.

Lemma canonical_dumps float_repr fr v depth : plain v = true → (vdepth v < depth)%nat →
  canonical_json float_repr depth v = Ret (dumps json_raw_string fr (json_sorted v)).
Proof.
  intros Hp Hd. unfold canonical_json. rewrite (_encode_dumps _ fr) by done. cbn. unfold encode_utf8.
  by rewrite dumps_valid by (by apply plain_sorted).
Qed.

(** ** Reading strict documents *)

(** The [object_pairs_hook] of every strict reader: a repeated key is an error. *)
Definition unique_pairs (duplicate : exn) (pairs : list (string * pyval)) : outcome exn pyval :=
  result ← for_each pairs (λ result '(key, value),
    if dict_mem key result then Raise duplicate else Ret (dict_set key value result)) [];
  Ret (VDict result).

Lemma unique_pairs_spec duplicate pairs :
  unique_pairs duplicate pairs = if bool_decide (NoDup pairs.*1) then Ret (VDict pairs) else Raise duplicate.
Proof.
  assert (∀ result, NoDup result.*1 →
    for_each pairs (λ result '(key, value),
      if dict_mem key result then Raise duplicate else Ret (dict_set key value result)) result
    = if bool_decide (NoDup (result ++ pairs).*1) then Ret (result ++ pairs) else Raise duplicate) as H.
  { induction pairs as [|[k v] pairs IH]; intros result Hr; cbn [for_each].
    { by rewrite app_nil_r, bool_decide_eq_true_2. }
    destruct (dict_mem k result) eqn:Hk; cbn [mbind outcome_bind].
    - apply dict_mem_spec in Hk. rewrite bool_decide_eq_false_2; [done|]. rewrite fmap_app. intros Hn.
      apply NoDup_app in Hn as (_ & Hn & _). eapply Hn; [done|]. cbn. left.
    - apply dict_mem_false in Hk. rewrite dict_set_fresh by done. rewrite IH.
      + by rewrite <- app_assoc.
      + rewrite fmap_app. apply NoDup_app. split_and!; [done|set_solver|apply NoDup_singleton]. }
  unfold unique_pairs. rewrite (H []) by constructor. cbn [app]. destruct (bool_decide _); done.
Qed.

(** Reading the canonical text of a document gives the document. *)
Lemma loads_canonical h fr v limit :
  (∀ n, safe_int n = true → parse_int h (pretty n) = Ret (VInt n)) →
  (∀ ps, NoDup ps.*1 → object_pairs h ps = Ret (VDict ps)) →
  plain v = true → (vdepth v ≤ limit)%nat →
  loads h limit (dumps json_raw_string fr (json_sorted v)) = Ret (json_sorted v).
Proof.
  intros Hint Hpairs Hp Hd. apply (loads_print h json_raw_string fr (λ _, true) safe_int).
  - apply quotes_raw.
  - done.
  - done.
  - apply plain_sorted in Hp. unfold plain in Hp. apply andb_true_iff in Hp as [Hp _]. revert Hp.
    induction (json_sorted v) as [| | | | |l IH|d IH] using pyval_nested_ind; try done; cbn.
    + rewrite !forallb_forall. rewrite Forall_forall in IH. setoid_rewrite list_elem_of_In in IH. eauto.
    + rewrite !andb_true_iff, !forallb_forall. rewrite Forall_forall in IH. setoid_rewrite list_elem_of_In in IH.
      intros [Hnd Hall]. split; [done|]. intros [k x] Hx. specialize (Hall _ Hx). cbn in *.
      apply andb_true_iff in Hall as [_ Hall]. by apply (IH (k, x)).
  - by rewrite vdepth_sorted.
Qed.

(** *** ASCII documents *)

Definition simple_char (c : ascii) : bool := between 32 (ord c) 126 && negb ((ord c =? 34) || (ord c =? 92)).

Lemma json_char_simple c : simple_char c = true → json_char 126 c = String c "".
Proof. by destruct c as [[] [] [] [] [] [] [] []]; vm_compute. Qed.
Lemma json_raw_char_simple c : simple_char c = true → json_char 255 c = String c "".
Proof. by destruct c as [[] [] [] [] [] [] [] []]; vm_compute. Qed.
Lemma simple_ascii c : simple_char c = true → is_ascii_char c = true.
Proof. by destruct c as [[] [] [] [] [] [] [] []]; vm_compute. Qed.

(** Strings that need no escape. *)
Lemma json_string_simple s : all_chars simple_char s = true → json_string s = chr 34 +:+ s +:+ chr 34.
Proof.
  intros Hs. unfold json_string. do 2 f_equal. induction s as [|c s IH]; [done|]. cbn [all_chars] in Hs.
  apply andb_true_iff in Hs as [Hc Hs]. cbn [json_chars]. pose proof (simple_ascii c Hc) as Ha. unfold is_ascii_char in Ha.
  by rewrite Ha, json_char_simple, str_cons, str_nil, IH.
Qed.

Lemma json_raw_simple s : all_chars simple_char s = true → json_raw_string s = chr 34 +:+ s +:+ chr 34.
Proof.
  intros Hs. unfold json_raw_string. do 2 f_equal. induction s as [|c s IH]; [done|]. cbn [all_chars] in Hs.
  apply andb_true_iff in Hs as [Hc Hs]. cbn [json_raw_chars]. by rewrite json_raw_char_simple, str_cons, str_nil, IH.
Qed.

Lemma json_char_126_ascii c : is_ascii_char c = true → is_ascii (json_char 126 c) = true.
Proof. by destruct c as [[] [] [] [] [] [] [] []]; vm_compute. Qed.

Lemma is_ascii_app s t : is_ascii (s +:+ t) = is_ascii s && is_ascii t.
Proof. apply all_chars_app. Qed.

Lemma json_string_ascii s : is_ascii s = true → is_ascii (json_string s) = true.
Proof.
  intros Hs. unfold json_string. rewrite !is_ascii_app. apply andb_true_iff. split; [done|].
  apply andb_true_iff. split; [|done]. induction s as [|c s IH]; [done|]. unfold is_ascii in Hs. cbn in Hs.
  apply andb_true_iff in Hs as [Hc Hs]. cbn [json_chars]. pose proof Hc as Hc'. unfold is_ascii_char in Hc'.
  rewrite Hc', is_ascii_app, json_char_126_ascii by done. by apply IH.
Qed.

Lemma join_ascii parts : Forall (λ p, is_ascii p = true) parts → is_ascii (join "," parts) = true.
Proof.
  destruct 1 as [|p parts Hp Hall]; [done|]. unfold join. rewrite is_ascii_app, Hp. cbn [andb].
  induction Hall as [|q parts Hq _ IH]; [done|]. cbn [foldr]. by rewrite !is_ascii_app, Hq, IH.
Qed.

Lemma json_dumps_ascii fr ok_int v : printable is_ascii ok_int v = true → is_ascii (json_dumps fr v) = true.
Proof.
  unfold json_dumps. induction v as [|b|n| |s|l IH|d IH] using pyval_nested_ind; intros Hp; try done.
  - by destruct b.
  - apply pretty_ascii.
  - by apply json_string_ascii.
  - cbn [dumps printable] in *. rewrite !is_ascii_app, join_ascii; [done|].
    induction IH as [|x l Hx _ IHl]; [constructor|]. cbn in Hp. apply andb_true_iff in Hp as [? ?]. constructor; auto.
  - cbn [dumps printable] in *. apply andb_true_iff in Hp as [_ Hp]. rewrite !is_ascii_app, join_ascii; [done|].
    induction IH as [|[k x] d Hx _ IHd]; [constructor|]. cbn [forallb] in Hp. apply andb_true_iff in Hp as [Hkx Hp].
    apply andb_true_iff in Hkx as [Hk Hx']. constructor; [|by apply IHd].
    cbn [snd] in Hx. by rewrite !is_ascii_app, json_string_ascii, Hx.
Qed.

Lemma checksum_simple s : fullmatch _CHECKSUM s = true → all_chars simple_char s = true.
Proof. apply fullmatch_chars. by vm_compute. Qed.
Lemma checksum_length s : fullmatch _CHECKSUM s = true → String.length s = 71%nat.
Proof. by apply fullmatch_length. Qed.
Lemma simple_string_ascii s : all_chars simple_char s = true → is_ascii s = true.
Proof. apply all_chars_impl, simple_ascii. Qed.

(** *** Fields *)

(** [set(d) == fields] and [set(d) <= fields]. *)
Definition fields_in (d : list (string * pyval)) (fields : list string) : bool :=
  forallb (λ key, existsb (String.eqb key) fields) d.*1.
Definition fields_have (d : list (string * pyval)) (fields : list string) : bool :=
  forallb (λ key, existsb (String.eqb key) d.*1) fields.
Definition fields_are (d : list (string * pyval)) (fields : list string) : bool := fields_in d fields && fields_have d fields.

Lemma existsb_eqb k l : existsb (String.eqb k) l = true ↔ k ∈ l.
Proof.
  rewrite existsb_exists. split.
  - intros (x & Hx & ->%String.eqb_eq). by apply list_elem_of_In.
  - intros Hk. exists k. split; [by apply list_elem_of_In|apply String.eqb_refl].
Qed.

Lemma fields_have_get d fields k : fields_have d fields = true → k ∈ fields → is_Some (dict_get k d).
Proof.
  intros H Hk. unfold fields_have in H. rewrite forallb_forall in H.
  apply dict_get_keys, existsb_eqb, H. by apply list_elem_of_In.
Qed.

Lemma fields_are_spec d fields : fields_are d fields = true ↔ (∀ k, k ∈ d.*1 ↔ k ∈ fields).
Proof.
  unfold fields_are, fields_in, fields_have. rewrite andb_true_iff, !forallb_forall.
  setoid_rewrite existsb_eqb. setoid_rewrite list_elem_of_In. split; [intros [H1 H2] k; split; auto|].
  intros H. split; intros k Hk; by apply H.
Qed.

(** *** Exceptions *)

Lemma py_int_good (V : pyval → Prop) Q text :
  (String.length text ≤ 4300)%nat → (∀ n, V (VInt n)) → good Q V (parse_int default_hooks text).
Proof.
  intros Hl HV. cbn. unfold py_int. destruct (split_sign text) as [sg ds] eqn:Hs. apply split_sign_split in Hs as ->.
  rewrite str_length in Hl. unfold byte_len. rewrite (proj2 (Z.ltb_ge _ _)) by lia. apply HV.
Qed.

Lemma unique_pairs_good (V : pyval → Prop) (Q : exn → Prop) e ps :
  Q e → V (VDict ps) → good Q V (unique_pairs e ps).
Proof. intros HQ HV. rewrite unique_pairs_spec. by destruct (bool_decide _). Qed.

Lemma except_good {A} (P : A → Prop) (Q R : exn → Prop) classes m handler :
  good Q P m → (∀ e, Q e → exn_class e ∈ classes → good R P (handler e)) →
  (∀ e, Q e → exn_class e ∉ classes → R e) → good R P (except classes m handler).
Proof.
  intros Hm Hh Hr. destruct m as [a|e]; cbn in *; [done|]. case_bool_decide; [by apply Hh|by apply Hr].
Qed.

Lemma good_raise_when (Q : exn → Prop) b e : Q e → good Q (λ _, b = false) (raise_when b e).
Proof. by destruct b. Qed.

(** *** Tests on fields *)

(** [d[k]] of a field whose presence was checked. *)
Definition field (k : string) (d : list (string * pyval)) : pyval := default VNone (dict_get k d).

(** [type(v) is int and lo <= v <= hi] *)
Definition int_within (lo hi : Z) (v : pyval) : bool := match v with VInt n => between lo n hi | _ => false end.
Definition int_value (v : pyval) : Z := match v with VInt n => n | _ => 0 end.
(** [isinstance(v, str) and r.fullmatch(v)] *)
Definition str_matches (r : regex) (v : pyval) : bool := match v with VStr s => fullmatch r s | _ => false end.
(** [v == s] *)
Definition str_is (v : pyval) (s : string) : bool := py_eq v (VStr s).
(** [isinstance(v, dict) and set(v) == fields] *)
Definition as_fields (document : pyval) (fields : list string) (e : exn) : outcome exn (list (string * pyval)) :=
  match document with
  | VDict d => if fields_are d fields then Ret d else Raise e
  | _ => Raise e
  end.

Lemma int_within_spec lo hi v : int_within lo hi v = true ↔ ∃ n, v = VInt n ∧ lo ≤ n ≤ hi.
Proof. destruct v; cbn; unfold between; rewrite ?andb_true_iff; naive_solver lia. Qed.
Lemma str_matches_spec r v : str_matches r v = true ↔ ∃ s, v = VStr s ∧ fullmatch r s = true.
Proof. destruct v; cbn; naive_solver. Qed.
Lemma str_is_spec v s : str_is v s = true ↔ v = VStr s.
Proof.
  unfold str_is. destruct v as [| | |[]| | |]; cbn; try done. rewrite String.eqb_eq. naive_solver.
Qed.
Lemma as_fields_Ret document fields e d :
  as_fields document fields e = Ret d ↔ document = VDict d ∧ fields_are d fields = true.
Proof. destruct document; cbn; try naive_solver. destruct (fields_are d0 fields) eqn:H; naive_solver congruence. Qed.

Lemma plain_str s : plain (VStr s) = utf8_valid s.
Proof. unfold plain. cbn. apply andb_true_r. Qed.
Lemma plain_int n : plain (VInt n) = safe_int n.
Proof. unfold plain. cbn. apply andb_true_r. Qed.
Lemma simple_plain s : all_chars simple_char s = true → plain (VStr s) = true.
Proof. intros Hs. rewrite plain_str. by apply is_ascii_utf8, simple_string_ascii. Qed.
Lemma plain_safe n : 0 ≤ n ≤ _MAX_SAFE_INTEGER → plain (VInt n) = true.
Proof. intros Hn. rewrite plain_int. unfold safe_int. apply Z.leb_le. lia. Qed.
Lemma uuid7_simple s : fullmatch _UUID7 s = true → all_chars simple_char s = true.
Proof. apply fullmatch_chars. by vm_compute. Qed.
Lemma checksum_plain s : fullmatch _CHECKSUM s = true → plain (VStr s) = true.
Proof. intros Hs. by apply simple_plain, checksum_simple. Qed.
Lemma uuid7_plain s : fullmatch _UUID7 s = true → plain (VStr s) = true.
Proof. intros Hs. by apply simple_plain, uuid7_simple. Qed.
Lemma zeros_simple n : all_chars simple_char (zeros n) = true.
Proof. by induction n. Qed.
Lemma pretty_simple (n : Z) : all_chars simple_char (pretty n) = true.
Proof.
  assert (∀ p : positive, all_chars simple_char (pretty (N.pos p)) = true) as Hp.
  { intros p. destruct (pretty_pos p) as (c & ds & -> & Hc & Hds & _). cbn. apply andb_true_iff. split.
    - unfold simple_char, between in *. bool_simpl. lia.
    - eapply all_chars_impl; [|done]. intros d. unfold is_digit, simple_char, between. intros. bool_simpl. lia. }
  destruct n as [|p|p]; [done|apply Hp|]. change (pretty (Z.neg p)) with ("-" +:+ pretty (N.pos p)).
  by rewrite all_chars_app, Hp.
Qed.

Lemma plain_wf v : plain v = true → wf_value v = true.
Proof.
  induction v as [| | | | |l IH|d IH] using pyval_nested_ind; intros Hp; try done.
  - apply plain_list in Hp. cbn. apply forallb_forall. intros x Hx%list_elem_of_In. rewrite Forall_forall in IH, Hp. auto.
  - apply plain_dict in Hp as [Hnd Hp]. cbn. apply andb_true_iff. split; [by apply bool_decide_eq_true|].
    apply forallb_forall. intros [k x] Hx%list_elem_of_In. rewrite Forall_forall in IH, Hp. by apply (IH (k, x)), (Hp (k, x)).
Qed.

Lemma json_sorted_eq_l v : wf_value v = true → py_eq (json_sorted v) v = true.
Proof.
  induction v as [| | | | |l IH|d IH] using pyval_nested_ind; intros Hwf; try (by apply (py_eq_refl _ Hwf)).
  - cbn in *. induction IH as [|x l Hx _ IHl]; [done|]. cbn in Hwf |- *. apply andb_true_iff in Hwf as [? ?].
    rewrite Hx by done. auto.
  - rewrite json_sorted_dict. cbn [py_eq wf_value] in *. apply andb_true_iff in Hwf as [Hnd Hwf].
    apply bool_decide_eq_true in Hnd. apply andb_true_iff. split.
    + apply Nat.eqb_eq. unfold sorted_dict. by rewrite py_sorted_length, length_map.
    + apply forallb_forall. intros [k w] Hin%list_elem_of_In. unfold sorted_dict in Hin.
      apply py_sorted_elem, list_elem_of_In, in_map_iff in Hin as ([k' v] & [= -> <-] & Hin%list_elem_of_In).
      rewrite (dict_elem_get k v) by done. rewrite Forall_forall in IH. apply (IH (k, v) Hin).
      rewrite forallb_forall in Hwf. by apply (Hwf (k, v)), list_elem_of_In.
Qed.

Lemma py_eq_int a b : py_eq (VInt a) (VInt b) = (a =? b).
Proof.
  cbn. unfold number_eqb. cbn [fst snd]. replace (0 - Z.min 0 0) with 0 by lia. change (2 ^ 0) with 1. by rewrite !Z.mul_1_r.
Qed.

Lemma checksum_of_hex h : fullmatch (times 64 hex) h = true → fullmatch _CHECKSUM ("sha256:" +:+ h) = true.
Proof.
  intros Hh. apply fullmatch_spec, matches_smart_cat. exists "sha256:", h.
  split_and!; [done|by apply fullmatch_spec|by apply fullmatch_spec].
Qed.
