(* ===== verification/CpuWorkload.v ===== *)
(** * The CPU iterative workload

    [src/nexa/workloads/cpu_state.py], the closed state document of a checkpoint, and
    [src/nexa/workloads/cpu_iterative.py], the computation that writes and resumes
    from it.  The callbacks of [run] act on a state of their own and may raise.  A
    run that is interrupted at any state it reported, written as a document, read
    back and resumed returns the bytes of the uninterrupted run. *)

From Stdlib Require Import Ascii.
From stdpp Require Import pretty.
From S2P Require Import Prelude PyValue Json Strict.

Local Open Scope string_scope.
Local Open Scope list_scope.
Local Open Scope Z_scope.

(** ** [cpu_state.py] *)

Definition CpuStateError (message : string) : exn := Exn "CpuStateError" message.

Definition STATE_SCHEMA_VERSION : Z := 1.
Definition STATE_MAX_BYTES : Z := 4096.
Definition _FIELDS : list string := ["schema_version"; "step"; "accumulator"; "input_checksum"; "spec_checksum"].

(** The fields are whatever a document held until [_check] has seen them. *)
Record CpuState := {
  step : pyval;
  accumulator : pyval;
  input_checksum : pyval;
  spec_checksum : pyval;
}.

(** A state of an integer step and value. *)
Definition cpu_state (n a : Z) (input spec : string) : CpuState :=
  {| step := VInt n; accumulator := VInt a; input_checksum := VStr input; spec_checksum := VStr spec |}.

Definition _check (state : CpuState) : outcome exn () :=
  _ ← raise_when (negb (int_within 0 _MAX_SAFE_INTEGER (step state))) (CpuStateError "state step is invalid");
  _ ← raise_when (negb (int_within 0 _MAX_SAFE_INTEGER (accumulator state))) (CpuStateError "state accumulator is invalid");
  for_each [input_checksum state; spec_checksum state] (λ _ value,
    raise_when (negb (str_matches _CHECKSUM value)) (CpuStateError "state checksum is invalid")) ().

(** What the operating system reports of the file: [None] is an [OSError]. *)
Record OpenedFile := { is_regular : bool; st_size : Z; contents : string }.

Definition read_state_file (opened : option OpenedFile) : outcome exn string :=
  file ← or_raise opened (CpuStateError "state file is unavailable");
  _ ← raise_when (negb (is_regular file) || (STATE_MAX_BYTES <? st_size file))
        (CpuStateError "state file is not a bounded regular file");
  let body := String.substring 0 (Z.to_nat (STATE_MAX_BYTES + 1)) (contents file) in
  _ ← raise_when (negb (byte_len body =? st_size file)) (CpuStateError "state file changed while it was read");
  Ret body.

Definition state_document (state : CpuState) : pyval :=
  VDict [("schema_version", VInt STATE_SCHEMA_VERSION); ("step", step state); ("accumulator", accumulator state);
         ("input_checksum", input_checksum state); ("spec_checksum", spec_checksum state)].

Section state.
(** [repr] of a float, which no state has, and the nesting the scanner allows. *)
Context (float_repr : spec_float → string) (limit : nat).

Definition encode_state (state : CpuState) : outcome exn string :=
  _ ← _check state;
  let text := json_dumps float_repr (json_sorted (state_document state)) in
  if is_ascii text then Ret text else Raise UnicodeEncodeError.

Definition state_hooks : Hooks := {|
  object_pairs := unique_pairs (CpuStateError "duplicate state key");
  parse_float := λ _, Raise (CpuStateError "state numbers must be integers");
  parse_int := parse_int default_hooks;
  parse_constant := λ _, Raise (CpuStateError "state numbers must be integers");
|}.

Definition decode_state (raw : string) (iterations modulus : Z) (input spec : string) : outcome exn CpuState :=
  _ ← raise_when (negb (between 1 (byte_len raw) STATE_MAX_BYTES)) (CpuStateError "state size is outside its bound");
  document ← except ["UnicodeDecodeError"; "JSONDecodeError"; "RecursionError"]
    (text ← decode_ascii raw; loads state_hooks limit text)
    (λ _, Raise (CpuStateError "state is not strict JSON"));
  fields ← as_fields document _FIELDS (CpuStateError "state fields are invalid");
  _ ← raise_when (negb (int_within 1 1 (field "schema_version" fields))) (CpuStateError "state schema version is unsupported");
  let state := {| step := field "step" fields; accumulator := field "accumulator" fields;
                  input_checksum := field "input_checksum" fields; spec_checksum := field "spec_checksum" fields |} in
  _ ← _check state;
  _ ← raise_when ((iterations <? int_value (step state)) || (modulus <=? int_value (accumulator state)))
        (CpuStateError "state cursor is outside the job bounds");
  _ ← raise_when (negb (py_eq (input_checksum state) (VStr input)) || negb (py_eq (spec_checksum state) (VStr spec)))
        (CpuStateError "state belongs to another input or spec");
  encoded ← encode_state state;
  _ ← raise_when (negb (String.eqb encoded raw)) (CpuStateError "state is not canonical");
  Ret state.
End state.

(** ** [cpu_iterative.py] *)

Definition CpuInputError (message : string) : exn := Exn "CpuInputError" message.

Record CpuResult := {
  iterations : Z;
  final_accumulator : Z;
  result_input_checksum : string;
  result_spec_checksum : string;
  result_bytes : string;
}.

(** The fuel of the loop ran out: no run shows this. *)
Definition Diverges : exn := Exn "Diverges" "".

Section adapter.
Context (float_repr : spec_float → string) (limit : nat).
(** [hashlib.sha256(..).hexdigest()]. *)
Context (sha256_hex : string → string).

Definition validate_input (input_bytes : string) : outcome exn Z :=
  payload ← except ["UnicodeDecodeError"; "JSONDecodeError"]
    (text ← decode_utf8 input_bytes; loads default_hooks limit text)
    (λ _, Raise (CpuInputError "input is not valid UTF-8 JSON"));
  fields ← as_fields payload ["initial_value"] (CpuInputError "input must contain exactly initial_value");
  let initial_value := field "initial_value" fields in
  _ ← raise_when (negb (int_within 0 2147483647 initial_value))
        (CpuInputError "initial_value is outside the contract range");
  Ret (int_value initial_value).

(** Step zero, or the snapshot to resume from. *)
Definition start_point (total modulus start : Z) (checksum spec : string) (resume : option CpuState) : outcome exn (Z * Z) :=
  match resume with
  | None => Ret (0, start)
  | Some r =>
      _ ← raise_when (negb (int_within 0 total (step r)) || negb (int_within 0 (modulus - 1) (accumulator r))
                      || negb (py_eq (input_checksum r) (VStr checksum)) || negb (py_eq (spec_checksum r) (VStr spec)))
            (CpuInputError "resume state does not belong to this input and spec");
      Ret (int_value (step r), int_value (accumulator r))
  end.

Definition advance (modulus index accumulator : Z) : Z := (accumulator * 1664525 + 1013904223 + index) mod modulus.

Section run.
(** The state the callbacks act on. *)
Context {W : Type} (progress observer : option (Z → Z → SE W exn ())).

Definition call (callback : option (Z → Z → SE W exn ())) (a b : Z) : SE W exn () :=
  match callback with Some f => f a b | None => mret () end.

(** [for index in range(step, stop)] *)
Fixpoint run_steps (total modulus : Z) (indices : list Z) (accumulator : Z) : SE W exn Z :=
  match indices with
  | [] => mret accumulator
  | index :: indices =>
      let accumulator := advance modulus index accumulator in
      _ ← call progress (index + 1) total;
      run_steps total modulus indices accumulator
  end.

(** [while step < iterations] *)
Fixpoint run_loop (fuel : nat) (total modulus stride step accumulator : Z) : SE W exn Z :=
  if step <? total then
    match fuel with
    | O => se_raise Diverges
    | S fuel =>
        let stop := match observer with Some _ => Z.min total (step + stride) | None => total end in
        accumulator ← run_steps total modulus (seqZ step (stop - step)) accumulator;
        _ ← call observer stop accumulator;
        run_loop fuel total modulus stride stop accumulator
    end
  else mret accumulator.

Definition run (input_bytes : string) (iterations seed modulus : pyval) (spec : string)
    (resume : option CpuState) (observer_stride : pyval) : SE W exn CpuResult :=
  initial_value ← se_lift (validate_input input_bytes);
  _ ← se_when (negb (int_within 1 1000000000 iterations)) (CpuInputError "iterations is outside the contract range");
  _ ← se_when (negb (int_within 0 2147483647 seed)) (CpuInputError "seed is outside the contract range");
  _ ← se_when (negb (int_within 2 2147483647 modulus)) (CpuInputError "modulus is outside the contract range");
  _ ← se_when (negb (fullmatch _CHECKSUM spec)) (CpuInputError "spec_checksum is invalid");
  _ ← se_when (match observer_stride with VInt n => n <? 1 | _ => true end) (CpuInputError "observer_stride is invalid");
  let total := int_value iterations in
  let modulus := int_value modulus in
  let checksum := "sha256:" +:+ sha256_hex input_bytes in
  '(start, value) ← se_lift (start_point total modulus ((initial_value + int_value seed) mod modulus) checksum spec resume);
  _ ← call observer start value;
  final ← run_loop (Z.to_nat (total - start)) total modulus (int_value observer_stride) start value;
  bytes ← se_lift (encode_utf8 (dumps json_raw_string float_repr
    (VDict [("iterations", VInt total); ("final_accumulator", VInt final);
            ("input_checksum", VStr checksum); ("spec_checksum", VStr spec)])));
  mret {| CpuWorkload.iterations := total; final_accumulator := final; result_input_checksum := checksum;
          result_spec_checksum := spec; result_bytes := bytes |}.
End run.
End adapter.

(** ** [cpu_entrypoint.py]

    The workload process: it reads the input and a state to resume from, writes states
    as it goes and the result at the end.  A write may fail, or the process may be
    stopped, before or after the state file is replaced. *)

Record Process := {
  ticks : nat;                      (** how often the clock was read *)
  writes : nat;                     (** how many states were written *)
  last_written : option Z;
  state_file : option string;
  output_file : option string;
}.

Inductive Interruption := BeforeReplace | AfterReplace.
Definition Stopped : exn := Exn "OSError" "".

Section entrypoint.
Context (float_repr : spec_float → string) (limit : nat) (sha256_hex : string → string).
(** The readings of the monotonic clock, and what goes wrong with each write. *)
Context (clock : nat → Z) (fault : nat → option Interruption).

Definition _write_state (payload : string) : SE Process exn () := λ p,
  let replaced := {| ticks := ticks p; writes := S (writes p); last_written := last_written p;
                     state_file := Some payload; output_file := output_file p |} in
  match fault (writes p) with
  | None => (Ret (), replaced)
  | Some BeforeReplace => (Raise Stopped, p)
  | Some AfterReplace => (Raise Stopped, replaced)
  end.

Definition read_clock : SE Process exn Z := λ p,
  (Ret (clock (ticks p)), {| ticks := S (ticks p); writes := writes p; last_written := last_written p;
                             state_file := state_file p; output_file := output_file p |}).
Definition set_last_written (now : Z) : SE Process exn () := λ p,
  (Ret (), {| ticks := ticks p; writes := writes p; last_written := Some now;
              state_file := state_file p; output_file := output_file p |}).
Definition write_output (bytes : string) : SE Process exn () := λ p,
  (Ret (), {| ticks := ticks p; writes := writes p; last_written := last_written p;
              state_file := state_file p; output_file := Some bytes |}).

Definition state_observer (total interval : Z) (input_checksum spec : string) (n a : Z) : SE Process exn () :=
  now ← read_clock;
  p ← se_get;
  if match last_written p with Some last => negb (n =? total) && (now - last <? interval) | None => false end
  then mret ()
  else
    payload ← se_lift (encode_state float_repr (cpu_state n a input_checksum spec));
    _ ← _write_state payload;
    set_last_written now.

Definition run_cpu_file (input_bytes : string) (total seed modulus : Z) (spec : string)
    (state_output : bool) (resume_state : option (option OpenedFile)) (interval stride : Z) : SE Process exn CpuResult :=
  let input_checksum := "sha256:" +:+ sha256_hex input_bytes in
  resume ← se_lift match resume_state with
    | None => Ret None
    | Some opened =>
        raw ← read_state_file opened;
        state ← decode_state float_repr limit raw total modulus input_checksum spec;
        Ret (Some state)
    end;
  let observer := if state_output then Some (state_observer total interval input_checksum spec) else None in
  result ← run float_repr limit sha256_hex None observer input_bytes (VInt total) (VInt seed) (VInt modulus) spec
             resume (VInt stride);
  _ ← write_output (result_bytes result);
  mret result.
End entrypoint.

(** ** The state document *)

(** A state within the bounds of the format. *)
Definition checked (n a : Z) (input spec : string) : Prop :=
  0 ≤ n ≤ _MAX_SAFE_INTEGER ∧ 0 ≤ a ≤ _MAX_SAFE_INTEGER ∧
  fullmatch _CHECKSUM input = true ∧ fullmatch _CHECKSUM spec = true.

Lemma _check_spec state : _check state = Ret () ↔ ∃ n a input spec, state = cpu_state n a input spec ∧ checked n a input spec.
Proof.
  unfold _check, checked. split.
  - intros H. apply bind_Ret in H as ([] & H1%raise_when_Ret & H). apply bind_Ret in H as ([] & H2%raise_when_Ret & H).
    cbn [for_each] in H. apply bind_Ret in H as ([] & H3%raise_when_Ret & H). apply bind_Ret in H as ([] & H4%raise_when_Ret & _).
    apply negb_false_iff, int_within_spec in H1 as (n & Hn & ?), H2 as (a & Ha & ?).
    apply negb_false_iff, str_matches_spec in H3 as (i & Hi & ?), H4 as (s & Hs & ?).
    exists n, a, i, s. split; [|done]. destruct state; cbn in *. by subst.
  - intros (n & a & i & s & -> & Hn & Ha & Hi & Hs). cbn [step accumulator input_checksum spec_checksum cpu_state].
    rewrite (proj2 (int_within_spec 0 _ (VInt n))), (proj2 (int_within_spec 0 _ (VInt a))) by eauto.
    cbn [for_each negb raise_when mbind outcome_bind str_matches]. by rewrite Hi, Hs.
Qed.

(** The text of a state. *)
Definition state_text (n a : Z) (input spec : string) : string :=
  let q s := chr 34 +:+ s +:+ chr 34 in
  "{" +:+ q "accumulator" +:+ ":" +:+ pretty a +:+ "," +:+ q "input_checksum" +:+ ":" +:+ q input
  +:+ "," +:+ q "schema_version" +:+ ":1," +:+ q "spec_checksum" +:+ ":" +:+ q spec
  +:+ "," +:+ q "step" +:+ ":" +:+ pretty n +:+ "}".

Definition sorted_document (n a : Z) (input spec : string) : pyval :=
  VDict [("accumulator", VInt a); ("input_checksum", VStr input); ("schema_version", VInt 1);
         ("spec_checksum", VStr spec); ("step", VInt n)].
Lemma document_sorted n a input spec :
  json_sorted (state_document (cpu_state n a input spec)) = sorted_document n a input spec.
Proof. reflexivity. Qed.

Section state_document.
Context (float_repr : spec_float → string) (n a : Z) (input spec : string) (Hst : checked n a input spec).

Lemma state_printable : printable is_ascii safe_int (sorted_document n a input spec) = true.
Proof.
  destruct Hst as (Hn & Ha & Hi & Hs). cbn [printable sorted_document]. apply andb_true_iff. split; [by vm_compute|].
  cbn [forallb printable]. unfold safe_int. rewrite (simple_string_ascii input), (simple_string_ascii spec) by (by apply checksum_simple).
  rewrite !(proj2 (Z.leb_le _ _)) by (unfold _MAX_SAFE_INTEGER in *; lia). done.
Qed.

Lemma state_text_dumps : json_dumps float_repr (sorted_document n a input spec) = state_text n a input spec.
Proof.
  destruct Hst as (_ & _ & Hi & Hs). unfold json_dumps, sorted_document. cbn [dumps List.map join foldr].
  rewrite !(json_string_simple input), !(json_string_simple spec) by (by apply checksum_simple).
  rewrite !json_string_simple by done. change (pretty 1) with "1". unfold state_text.
  by repeat first [rewrite str_assoc|rewrite str_cons|rewrite str_nil].
Qed.

Lemma state_text_ascii : is_ascii (state_text n a input spec) = true.
Proof. rewrite <- state_text_dumps. apply (json_dumps_ascii _ _ _ state_printable). Qed.

Lemma encode_state_text : encode_state float_repr (cpu_state n a input spec) = Ret (state_text n a input spec).
Proof.
  unfold encode_state. rewrite (proj2 (_check_spec _)) by eauto 10. cbn [mbind outcome_bind].
  by rewrite document_sorted, state_text_dumps, state_text_ascii.
Qed.

Lemma state_text_size : 1 ≤ byte_len (state_text n a input spec) ≤ STATE_MAX_BYTES.
Proof.
  destruct Hst as (Hn & Ha & Hi & Hs). unfold byte_len, state_text, STATE_MAX_BYTES.
  assert (∀ m, 0 ≤ m ≤ _MAX_SAFE_INTEGER → (String.length (pretty m) ≤ 16)%nat) as Hlen.
  { intros m Hm. apply pretty_length; [lia|]. unfold _MAX_SAFE_INTEGER in Hm. lia. }
  pose proof (Hlen n Hn). pose proof (Hlen a Ha).
  rewrite !str_length, (checksum_length _ Hi), (checksum_length _ Hs). cbn [String.length chr]. lia.
Qed.
End state_document.

Lemma state_hooks_int n : safe_int n = true → parse_int state_hooks (pretty n) = Ret (VInt n).
Proof. intros Hn. cbn. by rewrite py_int_pretty by (by apply safe_short). Qed.
Lemma state_hooks_pairs ps : NoDup ps.*1 → object_pairs state_hooks ps = Ret (VDict ps).
Proof. intros Hps. cbn. by rewrite unique_pairs_spec, bool_decide_eq_true_2. Qed.

Lemma encode_state_inv float_repr state raw :
  encode_state float_repr state = Ret raw ↔
  ∃ n a input spec, state = cpu_state n a input spec ∧ checked n a input spec ∧ raw = state_text n a input spec.
Proof.
  split.
  - intros H. pose proof H as H'. apply bind_Ret in H' as ([] & Hc & _).
    apply _check_spec in Hc as (n & a & i & s & -> & Hc). rewrite encode_state_text in H by done. injection H as <-. eauto 10.
  - intros (n & a & i & s & -> & Hc & ->). by apply encode_state_text.
Qed.

Lemma loads_state (float_repr : spec_float → string) limit n a input spec : (0 < limit)%nat → checked n a input spec →
  loads state_hooks limit (state_text n a input spec) = Ret (sorted_document n a input spec).
Proof.
  intros Hl Hc. rewrite <- (state_text_dumps float_repr) by done.
  apply (loads_print state_hooks json_string float_repr is_ascii safe_int quotes_ascii state_hooks_int state_hooks_pairs).
  - by apply state_printable.
  - cbn. lia.
Qed.

Lemma decode_state_Ret float_repr limit raw total modulus input spec state :
  decode_state float_repr limit raw total modulus input spec = Ret state →
  ∃ n a, state = cpu_state n a input spec ∧ n ≤ total ∧ a < modulus ∧ encode_state float_repr state = Ret raw.
Proof.
  intros H. unfold decode_state in H. apply bind_Ret in H as ([] & _ & H). apply bind_Ret in H as (document & _ & H).
  apply bind_Ret in H as (fields & _ & H). apply bind_Ret in H as ([] & _ & H). apply bind_Ret in H as ([] & Hc & H).
  apply bind_Ret in H as ([] & Hcur%raise_when_Ret & H). apply bind_Ret in H as ([] & Hown%raise_when_Ret & H).
  apply bind_Ret in H as (encoded & He & H). apply bind_Ret in H as ([] & Hraw%raise_when_Ret & H). injection H as H.
  apply negb_false_iff, String.eqb_eq in Hraw as ->.
  apply _check_spec in Hc as (n & a & i & s & Hst & Hc). rewrite Hst in H, Hcur, Hown, He. subst state.
  cbn [step accumulator input_checksum spec_checksum cpu_state int_value py_eq] in *.
  apply orb_false_iff in Hcur as [? ?]. apply orb_false_iff in Hown as [Hi%negb_false_iff Hs%negb_false_iff].
  apply String.eqb_eq in Hi as ->, Hs as ->. exists n, a. split_and!; [done|lia|lia|done].
Qed.

Lemma decode_state_encoded float_repr limit raw total modulus input spec n a :
  (0 < limit)%nat → n ≤ total → a < modulus → encode_state float_repr (cpu_state n a input spec) = Ret raw →
  decode_state float_repr limit raw total modulus input spec = Ret (cpu_state n a input spec).
Proof.
  intros Hlimit Hn Ha He. pose proof He as He'.
  apply encode_state_inv in He' as (n' & a' & i & s & [= <- <- <- <-] & Hc & ->).
  unfold decode_state. pose proof (state_text_size n a input spec Hc) as Hsize. unfold between at 1.
  rewrite !(proj2 (Z.leb_le _ _)) by lia. cbn [andb negb raise_when mbind outcome_bind].
  unfold decode_ascii. rewrite (state_text_ascii float_repr) by done. cbn [mbind outcome_bind]. rewrite (loads_state float_repr) by done. cbn [except mbind outcome_bind].
  assert (∀ e, as_fields (sorted_document n a input spec) _FIELDS e = Ret [("accumulator", VInt a);
    ("input_checksum", VStr input); ("schema_version", VInt 1); ("spec_checksum", VStr spec); ("step", VInt n)]) as -> by done.
  cbn [mbind outcome_bind]. change (field "schema_version" _) with (VInt 1). change (field "step" _) with (VInt n).
  change (field "accumulator" _) with (VInt a). change (field "input_checksum" _) with (VStr input).
  change (field "spec_checksum" _) with (VStr spec). change (int_within 1 1 (VInt 1)) with true.
  cbn [negb raise_when mbind outcome_bind]. fold (cpu_state n a input spec).
  rewrite (proj2 (_check_spec _)) by eauto 10. cbn [step accumulator input_checksum spec_checksum cpu_state int_value py_eq].
  rewrite (proj2 (Z.ltb_ge _ _)), (proj2 (Z.leb_gt _ _)), !String.eqb_refl by lia. cbn.
  fold (cpu_state n a input spec). rewrite He. cbn. by rewrite String.eqb_refl.
Qed.

Theorem decode_state_accepts float_repr limit raw total modulus input spec state :
  (0 < limit)%nat →
  decode_state float_repr limit raw total modulus input spec = Ret state ↔
  ∃ n a, state = cpu_state n a input spec ∧ n ≤ total ∧ a < modulus ∧ encode_state float_repr state = Ret raw.
Proof.
  intros Hlimit. split; [apply decode_state_Ret|]. intros (n & a & -> & ? & ? & ?). by apply decode_state_encoded.
Qed.

Lemma loads_state_good limit raw :
  byte_len raw ≤ STATE_MAX_BYTES →
  good (λ e, exn_class e ∈ ["CpuStateError"; "JSONDecodeError"; "RecursionError"]) (λ _, True)
    (loads state_hooks limit raw).
Proof.
  unfold byte_len, STATE_MAX_BYTES. intros Hr. apply (loads_good _ (λ _, True) _ 4096); try done; try lia.
  - set_solver.
  - set_solver.
  - intros ps _. apply unique_pairs_good; [set_solver|done].
  - set_solver.
  - set_solver.
  - intros text Ht. apply py_int_good; [lia|done].
Qed.

Theorem decode_state_errors float_repr limit raw total modulus input spec e :
  decode_state float_repr limit raw total modulus input spec = Raise e → exn_class e = "CpuStateError".
Proof.
  cut (good (λ e, exn_class e = "CpuStateError") (λ _, True) (decode_state float_repr limit raw total modulus input spec)).
  { intros Hg H. by rewrite H in Hg. }
  unfold decode_state. eapply good_bind; [by apply good_raise_when|]. intros ? Hsize.
  apply negb_false_iff, andb_true_iff in Hsize as [_ Hsize%Z.leb_le].
  eapply good_bind.
  { eapply (except_good (λ _, True) (λ e, exn_class e ∈ ["CpuStateError"; "UnicodeDecodeError"; "JSONDecodeError"; "RecursionError"])).
    - unfold decode_ascii. destruct (is_ascii raw); cbn [mbind outcome_bind]; [|cbn; set_solver].
      pose proof (loads_state_good limit raw Hsize) as Hl. destruct (loads _ _ _); cbn in *; set_solver.
    - done.
    - set_solver. }
  intros document _. eapply (good_bind _ (λ _, True)); [by unfold as_fields; repeat case_match|].
  intros fields _. eapply good_bind; [by apply good_raise_when|]. intros ? _.
  destruct (_check _) as [[]|e'] eqn:Hc; cbn [mbind outcome_bind]; [|].
  - eapply good_bind; [by apply good_raise_when|]. intros ? _. eapply good_bind; [by apply good_raise_when|]. intros ? _.
    apply _check_spec in Hc as (n & acc & i & s & -> & Hc). rewrite encode_state_text by done. cbn [mbind outcome_bind].
    eapply good_bind; [by apply good_raise_when|done].
  - unfold _check in Hc. cbn [for_each] in Hc.
    repeat (apply bind_Raise in Hc as [[_ <-]%raise_when_Raise|(? & _ & Hc)]; [done|]). done.
Qed.

(** ** The computation *)

(** The value after [n] steps. *)
Fixpoint trajectory (modulus start : Z) (n : nat) : Z :=
  match n with O => start | S n => advance modulus (Z.of_nat n) (trajectory modulus start n) end.

Lemma trajectory_range modulus start n : 0 ≤ start < modulus → 0 ≤ trajectory modulus start n < modulus.
Proof. intros Hs. destruct n; cbn; [done|]. apply Z.mod_pos_bound. lia. Qed.

(** [m] keeps [I] however it ends, returns only results in [Q], and, when [strong], returns. *)
Definition ends {W A} (strong : bool) (I : W → Prop) (Q : A → Prop) (m : SE W exn A) : Prop :=
  ∀ w, I w → I (m w).2 ∧ match (m w).1 with Ret a => Q a | Raise _ => strong = false end.

Section ends.
Context {W : Type} (strong : bool) (I : W → Prop).

Lemma ends_ret {A} (Q : A → Prop) a : Q a → ends strong I Q (mret a).
Proof. by intros Hq w Hw. Qed.
Lemma ends_bind {A B} (P : A → Prop) (Q : B → Prop) (m : SE W exn A) (f : A → SE W exn B) :
  ends strong I P m → (∀ a, P a → ends strong I Q (f a)) → ends strong I Q (m ≫= f).
Proof.
  intros Hm Hf w Hw. destruct (Hm w Hw) as [Hw' Hr]. unfold mbind, se_bind. destruct (m w) as [[a|e] w']; cbn in *; [|done].
  by apply Hf.
Qed.
Lemma ends_lift {A} (Q : A → Prop) (m : outcome exn A) :
  match m with Ret a => Q a | Raise _ => strong = false end → ends strong I Q (se_lift m).
Proof. by intros Hm w Hw. Qed.
End ends.

(** A callback that may be called with arguments in [P]. *)
Definition callable {W} (strong : bool) (I : W → Prop) (P : Z → Z → Prop) (callback : option (Z → Z → SE W exn ())) : Prop :=
  ∀ a b, P a b → ends strong I (λ _, True) (call callback a b).

Section loop.
Context {W : Type} (strong : bool) (I : W → Prop) (progress observer : option (Z → Z → SE W exn ())).
Context (total modulus start : Z).

(** A step and the value at it. *)
Definition on_trajectory (n a : Z) : Prop := 0 ≤ n ≤ total ∧ a = trajectory modulus start (Z.to_nat n).

Context (Hprogress : callable strong I (λ _ _, True) progress) (Hobserver : callable strong I on_trajectory observer).

Lemma run_steps_ends k n : 0 ≤ n →
  ends strong I (eq (trajectory modulus start (Z.to_nat (n + Z.of_nat k))))
    (run_steps progress total modulus (seqZ n (Z.of_nat k)) (trajectory modulus start (Z.to_nat n))).
Proof.
  revert n. induction k as [|k IH]; intros n Hn.
  - rewrite Z.add_0_r. by apply ends_ret.
  - rewrite seqZ_cons by lia. replace (Z.pred (Z.of_nat (S k))) with (Z.of_nat k) by lia. cbn [run_steps].
    eapply ends_bind; [by apply Hprogress|]. intros _ _.
    replace (advance modulus n (trajectory modulus start (Z.to_nat n)))
      with (trajectory modulus start (Z.to_nat (Z.succ n))) by (rewrite Z2Nat.inj_succ by lia; cbn; by rewrite Z2Nat.id).
    replace (n + Z.of_nat (S k)) with (Z.succ n + Z.of_nat k) by lia. apply IH. lia.
Qed.

Lemma run_loop_ends fuel stride n : 1 ≤ stride → 0 ≤ n ≤ total → (Z.to_nat (total - n) ≤ fuel)%nat →
  ends strong I (eq (trajectory modulus start (Z.to_nat total)))
    (run_loop progress observer fuel total modulus stride n (trajectory modulus start (Z.to_nat n))).
Proof.
  intros Hs. revert n. induction fuel as [|fuel IH]; intros n Hn Hf; cbn [run_loop];
    (destruct (Z.ltb_spec n total); [|apply ends_ret; do 2 f_equal; lia]); [lia|].
  set (stop := match observer with Some _ => Z.min total (n + stride) | None => total end).
  assert (n < stop ≤ total) by (unfold stop; destruct observer; lia).
  eapply ends_bind.
  { pose proof (run_steps_ends (Z.to_nat (stop - n)) n) as Hr. rewrite Z2Nat.id in Hr by lia. apply Hr. lia. }
  intros ? <-. replace (n + (stop - n)) with stop by lia.
  eapply ends_bind; [apply Hobserver; split; [lia|done]|]. intros _ _. apply IH; lia.
Qed.
End loop.

Section runs.
Context (float_repr : spec_float → string) (limit : nat) (sha256_hex : string → string).
(** A digest has 64 hexadecimal digits. *)
Context (Hsha : ∀ data, fullmatch (times 64 hex) (sha256_hex data) = true).

Lemma digest_checksum data : fullmatch _CHECKSUM ("sha256:" +:+ sha256_hex data) = true.
Proof. by apply checksum_of_hex. Qed.

(** Arguments within the contract. *)
Record contract (input : string) (initial total seed modulus : Z) (spec : string) : Prop := {
  ct_input : validate_input limit input = Ret initial;
  ct_total : 1 ≤ total ≤ 1000000000;
  ct_seed : 0 ≤ seed ≤ 2147483647;
  ct_modulus : 2 ≤ modulus ≤ 2147483647;
  ct_spec : fullmatch _CHECKSUM spec = true;
}.

Definition input_digest (input : string) : string := "sha256:" +:+ sha256_hex input.
Definition result_of (input : string) (total final : Z) (spec : string) : CpuResult := {|
  iterations := total; final_accumulator := final;
  result_input_checksum := input_digest input; result_spec_checksum := spec;
  result_bytes := dumps json_raw_string float_repr
    (VDict [("iterations", VInt total); ("final_accumulator", VInt final);
            ("input_checksum", VStr (input_digest input)); ("spec_checksum", VStr spec)]);
|}.

Lemma result_encodes input total final spec :
  0 ≤ total ≤ _MAX_SAFE_INTEGER → 0 ≤ final ≤ _MAX_SAFE_INTEGER → fullmatch _CHECKSUM spec = true →
  encode_utf8 (result_bytes (result_of input total final spec)) = Ret (result_bytes (result_of input total final spec)).
Proof.
  intros Ht Hf Hs. unfold encode_utf8. cbn [result_bytes result_of]. rewrite dumps_valid; [done|].
  assert (∀ s, fullmatch _CHECKSUM s = true → plain (VStr s) = true) as Hstr.
  { intros s Hm. unfold plain. cbn. by rewrite is_ascii_utf8 by (by apply simple_string_ascii, checksum_simple). }
  assert (∀ n, 0 ≤ n ≤ _MAX_SAFE_INTEGER → plain (VInt n) = true) as Hint.
  { intros n Hn. unfold plain, safe_int. cbn. rewrite (proj2 (Z.leb_le _ _)) by lia. done. }
  apply plain_dict. split; [by eapply bool_decide_eq_true_1; vm_compute|].
  pose proof (digest_checksum input : fullmatch _CHECKSUM (input_digest input) = true).
  repeat (apply Forall_cons; split; [split; [done|cbn [snd]; by auto]|]). constructor.
Qed.

(** A resume state at a point of the trajectory, or none. *)
Definition resumes (input spec : string) (total modulus start : Z) (resume : option CpuState) : Prop :=
  match resume with
  | None => True
  | Some r => ∃ n, 0 ≤ n ≤ total ∧ r = cpu_state n (trajectory modulus start (Z.to_nat n)) (input_digest input) spec
  end.

Lemma start_point_resumes input spec total modulus start resume :
  0 ≤ start < modulus → 0 ≤ total → resumes input spec total modulus start resume →
  ∃ n, 0 ≤ n ≤ total ∧
    start_point total modulus start (input_digest input) spec resume = Ret (n, trajectory modulus start (Z.to_nat n)).
Proof.
  intros Hstart Ht Hr. destruct resume as [r|]; [|exists 0; split; [lia|done]].
  destruct Hr as (n & Hn & ->). exists n. split; [done|]. unfold start_point.
  pose proof (trajectory_range modulus start (Z.to_nat n) Hstart).
  cbn [step accumulator input_checksum spec_checksum cpu_state py_eq int_value].
  rewrite (proj2 (int_within_spec _ _ _)), (proj2 (int_within_spec _ _ _)) by (eexists; split; [done|lia]).
  by rewrite !String.eqb_refl.
Qed.

Lemma run_ends {W} strong (I : W → Prop) progress observer input initial total seed modulus spec resume stride :
  contract input initial total seed modulus spec → 1 ≤ stride →
  resumes input spec total modulus ((initial + seed) mod modulus) resume →
  callable strong I (λ _ _, True) progress →
  callable strong I (on_trajectory total modulus ((initial + seed) mod modulus)) observer →
  ends strong I (eq (result_of input total (trajectory modulus ((initial + seed) mod modulus) (Z.to_nat total)) spec))
    (run float_repr limit sha256_hex progress observer input (VInt total) (VInt seed) (VInt modulus) spec resume (VInt stride)).
Proof.
  intros [Hin Ht Hse Hm Hsp] Hst Hr Hp Ho. set (start := (initial + seed) mod modulus) in *.
  assert (0 ≤ start < modulus) as Hstart by (apply Z.mod_pos_bound; lia).
  destruct (start_point_resumes input spec total modulus start resume) as (n & Hn & Hres); [done|lia|done|].
  unfold run. rewrite Hin. cbn [int_within int_value]. unfold between, se_when.
  rewrite !(proj2 (Z.leb_le _ _)), Hsp, (proj2 (Z.ltb_ge _ _)) by lia. cbn [andb negb raise_when].
  eapply ends_bind; [by apply ends_lift, eq_refl|]. intros ? <-. do 5 (eapply (ends_bind _ _ (λ _, True)); [by apply ends_lift|intros _ _]).
  fold start. change ("sha256:" +:+ sha256_hex input) with (input_digest input). rewrite Hres.
  eapply ends_bind; [by apply ends_lift, eq_refl|]. intros ? <-.
  eapply ends_bind; [by apply Ho|]. intros _ _.
  eapply ends_bind; [by apply (run_loop_ends strong I progress observer total modulus start)|]. intros ? <-.
  pose proof (trajectory_range modulus start (Z.to_nat total) Hstart).
  pose proof (result_encodes input total (trajectory modulus start (Z.to_nat total)) spec) as He.
  cbn [result_bytes result_of] in He. rewrite He by (done || unfold _MAX_SAFE_INTEGER; lia).
  eapply ends_bind; [by apply ends_lift, eq_refl|]. intros ? <-. by apply ends_ret.
Qed.

Lemma callable_None {W} strong (I : W → Prop) P : callable strong I P None.
Proof. intros a b _. by apply ends_ret. Qed.


(** *** Interrupted processes *)

Context (input : string) (initial total seed modulus : Z) (spec : string).
Context (Hcontract : contract input initial total seed modulus spec) (Hlimit : (0 < limit)%nat).
Let start : Z := (initial + seed) mod modulus.

(** A process starts with the state file an earlier one left, and resumes from it. *)
Definition new_process (file : option string) : Process :=
  {| ticks := 0; writes := 0; last_written := None; state_file := file; output_file := None |}.
Definition to_resume (file : option string) : option (option OpenedFile) :=
  (λ raw, Some {| is_regular := true; st_size := byte_len raw; contents := raw |}) <$> file.

(** The state files that processes leave, each of them interrupted anywhere or not at all. *)
Inductive history : option string → Prop :=
| history_start : history None
| history_run clock fault interval stride file :
    history file → 1 ≤ stride →
    history (state_file (run_cpu_file float_repr limit sha256_hex clock fault input total seed modulus spec true
                           (to_resume file) interval stride (new_process file)).2).

Definition saved (file : option string) : Prop :=
  match file with
  | None => True
  | Some raw => ∃ n, 0 ≤ n ≤ total ∧
      raw = state_text n (trajectory modulus start (Z.to_nat n)) (input_digest input) spec
  end.

Lemma trajectory_checked n : 0 ≤ n ≤ total → checked n (trajectory modulus start (Z.to_nat n)) (input_digest input) spec.
Proof.
  intros Hn. pose proof Hcontract as [_ Ht _ Hm Hsp].
  assert (0 ≤ start < modulus) as Hstart by (apply Z.mod_pos_bound; lia).
  pose proof (trajectory_range modulus start (Z.to_nat n) Hstart). unfold checked, _MAX_SAFE_INTEGER.
  split_and!; [lia..|apply digest_checksum|done].
Qed.

Lemma substring_all s n : (String.length s ≤ n)%nat → String.substring 0 n s = s.
Proof.
  revert n. induction s as [|c s IH]; intros [|n] Hn; cbn in *; [done..|lia|]. by rewrite IH by lia.
Qed.

(** What a process resumes from is a point of the trajectory. *)
Lemma saved_resumes file : saved file → ∃ resume,
  (match to_resume file with
   | None => Ret None
   | Some opened =>
       raw ← read_state_file opened;
       state ← decode_state float_repr limit raw total modulus (input_digest input) spec; Ret (Some state)
   end : outcome exn (option CpuState)) = Ret resume ∧ resumes input spec total modulus start resume.
Proof.
  destruct file as [raw|]; [|by exists None]. intros (n & Hn & ->).
  set (a := trajectory modulus start (Z.to_nat n)). pose proof (trajectory_checked n Hn) as Hc. fold a in Hc.
  exists (Some (cpu_state n a (input_digest input) spec)). split; [|by exists n].
  pose proof (state_text_size n a _ _ Hc) as Hsize. unfold byte_len, STATE_MAX_BYTES in Hsize.
  cbn [to_resume fmap option_fmap option_map]. unfold read_state_file. cbn [or_raise mbind outcome_bind is_regular st_size contents negb orb].
  rewrite substring_all by (unfold STATE_MAX_BYTES; lia). unfold STATE_MAX_BYTES, byte_len.
  rewrite (proj2 (Z.ltb_ge _ _)), Z.eqb_refl by lia. cbn [negb raise_when mbind outcome_bind].
  pose proof Hcontract as [_ Ht _ Hm _]. assert (0 ≤ start < modulus) as Hstart by (apply Z.mod_pos_bound; lia).
  pose proof (trajectory_range modulus start (Z.to_nat n) Hstart).
  rewrite (decode_state_encoded float_repr limit _ total modulus _ _ n a); [done|done|lia|unfold a; lia|by apply encode_state_text].
Qed.

Lemma state_observer_callable strong clock fault interval :
  (strong = true → ∀ k, fault k = None) →
  callable strong (saved ∘ state_file) (on_trajectory total modulus start)
    (Some (state_observer float_repr clock fault total interval (input_digest input) spec)).
Proof.
  intros Hf n a [Hn ->]. set (a := trajectory _ _ _). pose proof (trajectory_checked n Hn) as Hc. fold a in Hc.
  cbn [call]. unfold state_observer. eapply (ends_bind _ _ (λ _, True)); [by intros w Hw|]. intros now _.
  eapply (ends_bind _ _ (λ _, True)); [by intros w Hw|]. intros p _.
  destruct (match last_written p with Some _ => _ | None => false end); [by apply ends_ret|].
  rewrite (encode_state_text float_repr _ _ _ _ Hc). eapply ends_bind; [by apply ends_lift, eq_refl|]. intros ? <-.
  assert (saved (Some (state_text n a (input_digest input) spec))) as Hs by (by exists n).
  eapply (ends_bind _ _ (λ _, True)); [|by intros ? _ w Hw].
  intros w Hw. unfold _write_state. destruct (fault (writes w)) as [[]|] eqn:Hk; cbn; [| |done];
    (split; [done|]); destruct strong; [|done| |done]; by rewrite Hf in Hk.
Qed.

Lemma run_cpu_file_ends strong clock fault (state_output : bool) file interval stride :
  (strong = true → ∀ k, fault k = None) → saved file → 1 ≤ stride →
  ends strong (saved ∘ state_file)
    (eq (result_of input total (trajectory modulus start (Z.to_nat total)) spec))
    (run_cpu_file float_repr limit sha256_hex clock fault input total seed modulus spec state_output
       (to_resume file) interval stride).
Proof.
  intros Hf Hs Hst. destruct (saved_resumes file Hs) as (resume & Hr & Hres). unfold run_cpu_file.
  change ("sha256:" +:+ sha256_hex input) with (input_digest input). rewrite Hr.
  eapply ends_bind; [by apply ends_lift, eq_refl|]. intros ? <-.
  eapply ends_bind.
  { apply (run_ends strong _ None _ input initial); [done..|apply callable_None|].
    destruct state_output; [by apply state_observer_callable|apply callable_None]. }
  intros ? <-. eapply (ends_bind _ _ (λ _, True)); [by intros w Hw|]. intros _ _. by apply ends_ret.
Qed.

Lemma history_saved file : history file → saved file.
Proof.
  induction 1 as [|clock fault interval stride file _ IH Hst]; [done|].
  by apply (run_cpu_file_ends false clock fault true file interval stride).
Qed.

Lemma run_cpu_file_output clock fault state_output resume_state interval stride p result p' :
  run_cpu_file float_repr limit sha256_hex clock fault input total seed modulus spec state_output resume_state interval stride p
  = (Ret result, p') → output_file p' = Some (result_bytes result).
Proof.
  unfold run_cpu_file, mbind, se_bind. intros H. destruct (se_lift _ p) as [[r|e] p1]; [|done].
  destruct (run _ _ _ _ _ _ _ _ _ _ _ _ _) as [[r'|e] p2]; [|done]. by injection H as <- <-.
Qed.

(** C33: The result of interrupted runs.  Within the contract, the process that runs to
    its end without a state file returns a result; and however many processes were
    interrupted before, anywhere in a state write, the next process that is not
    interrupted resumes from the file they left and writes the same result. *)
Theorem interrupted_runs_agree :
  ∃ result,
    (∀ clock interval stride, 1 ≤ stride → ∃ p,
       run_cpu_file float_repr limit sha256_hex clock (λ _, None) input total seed modulus spec false None interval stride
         (new_process None) = (Ret result, p) ∧ output_file p = Some (result_bytes result)) ∧
    (∀ file clock interval stride, history file → 1 ≤ stride → ∃ p,
       run_cpu_file float_repr limit sha256_hex clock (λ _, None) input total seed modulus spec true (to_resume file)
         interval stride (new_process file) = (Ret result, p) ∧ output_file p = Some (result_bytes result)).
Proof.
  exists (result_of input total (trajectory modulus start (Z.to_nat total)) spec).
  assert (∀ out file clock interval stride, saved file → 1 ≤ stride → ∃ p,
    run_cpu_file float_repr limit sha256_hex clock (λ _, None) input total seed modulus spec out (to_resume file)
         interval stride (new_process file)
    = (Ret (result_of input total (trajectory modulus start (Z.to_nat total)) spec), p) ∧
    output_file p = Some (result_bytes (result_of input total (trajectory modulus start (Z.to_nat total)) spec))) as H.
  { intros out file clock interval stride Hs Hst.
    destruct (run_cpu_file_ends true clock (λ _, None) out file interval stride) with (new_process file) as [_ Hr]; [done..|].
    destruct (run_cpu_file _ _ _ _ _ _ _ _ _ _ _ _ _ _ _) as [[r|e] p] eqn:Hrun; cbn in Hr; [subst r|done].
    exists p. split; [done|]. by eapply run_cpu_file_output. }
  split; [intros clock interval stride; by apply (H false None)|].
  intros file clock interval stride Hh. by apply (H true file), history_saved.
Qed.
End runs.

Definition sample_input : string := "{" +:+ chr 34 +:+ "initial_value" +:+ chr 34 +:+ ":5}".
Definition sample_digest (_ : string) : string := zeros 64.
Definition sample_spec : string := "sha256:" +:+ zeros 64.
(** Stopped at the second write, after the file was replaced. *)
Definition sample_fault (k : nat) : option Interruption := if (k =? 1)%nat then Some AfterReplace else None.
Definition sample_file : option string :=
  state_file (run_cpu_file (λ _, "") 1 sample_digest (λ k, Z.of_nat k) sample_fault sample_input 5 1 1000 sample_spec true
    None 1 2 (new_process None)).2.

Lemma interrupted_runs_agree_witness :
  (∃ raw, sample_file = Some raw ∧ (∃ st, decode_state (λ _, "") 1 raw 5 1000 (input_digest sample_digest sample_input) sample_spec
                                         = Ret st ∧ step st = VInt 2)) ∧
  ∃ result p,
    run_cpu_file (λ _, "") 1 sample_digest (λ _, 0) (λ _, None) sample_input 5 1 1000 sample_spec false None 1 2
      (new_process None) = (Ret result, p) ∧
    ∃ p', run_cpu_file (λ _, "") 1 sample_digest (λ _, 0) (λ _, None) sample_input 5 1 1000 sample_spec true
      (to_resume sample_file) 1 2 (new_process sample_file) = (Ret result, p') ∧ output_file p' = Some (result_bytes result).
Proof.
  split.
  - eexists. split; [vm_compute; reflexivity|]. eexists. split; [vm_compute; reflexivity|]. done.
  - destruct (interrupted_runs_agree (λ _, "") 1 sample_digest ltac:(by vm_compute) sample_input 5 5 1 1000 sample_spec)
      as (result & H1 & H2); [split; by vm_compute|lia|].
    destruct (H1 (λ _, 0) 1 2) as (p & Hp & _); [done|]. exists result, p. split; [exact Hp|].
    apply H2; [|done]. apply (history_run _ _ _ _ _ _ _ _ (λ k, Z.of_nat k) sample_fault 1 2 None); [apply history_start|done].
Defined.

(** ** Inputs outside the contract *)

(** An integer of more than 4300 digits is not a [CpuInputError]. *)
Example validate_input_digits :
  validate_input 1 ("{" +:+ chr 34 +:+ "initial_value" +:+ chr 34 +:+ ":1" +:+ zeros 4300 +:+ "}") = Raise int_too_long.
Proof. vm_compute. reflexivity. Qed.
