(* ===== verification/Chunks.v ===== *)
(** * Chunked inference documents

    [src/nexa/workloads/inference_state.py], the cursor and summary documents of batch
    inference, and [src/nexa/workloads/chunk_manifest.py], the manifest of chunk
    outputs.  The theorems say what an accepted manifest covers and that a manifest
    that was built is read back. *)

From Stdlib Require Import Ascii.
From stdpp Require Import pretty.
From S2P Require Import Prelude PyValue Json Strict.

Local Open Scope string_scope.
Local Open Scope list_scope.
Local Open Scope Z_scope.

(** ** Tests on values *)

Definition Unhashable : exn := Exn "TypeError" "unhashable type".
Definition KeyError : exn := Exn "KeyError" "".

(** [v in d] for a dict with string keys: a list or a dict has no hash. *)
Definition in_table (v : pyval) (table : list (string * string)) : outcome exn bool :=
  match v with
  | VStr s => Ret (dict_mem s table)
  | VList _ | VDict _ => Raise Unhashable
  | _ => Ret false
  end.

(** [raise_unless]: guards joined by [or], evaluated in order. *)
Fixpoint raise_if_any (tests : list (outcome exn bool)) (e : exn) : outcome exn () :=
  match tests with
  | [] => Ret ()
  | test :: tests => b ← test; if (b : bool) then Raise e else raise_if_any tests e
  end.

(** [f"{n:0{width}d}"] *)
Definition padded (width : nat) (n : Z) : string :=
  let digits := pretty (Z.abs n) in
  let sign := if n <? 0 then "-" else "" in
  sign +:+ zeros (width - String.length sign - String.length digits) +:+ digits.

Definition ARCHITECTURE_ID : string := "nexa-cifar10-smallcnn-v1".
Definition NUM_CLASSES : Z := 10.

(** ** [inference_state.py] *)

Module Inference.
Definition InferenceStateError (message : string) : exn := Exn "InferenceStateError" message.

Definition STATE_FORMAT : string := "batch-inference-state-v1".
Definition SUMMARY_FORMAT : string := "batch-inference-summary-v1".
Definition MAX_DOCUMENT_BYTES : Z := 4 * 1024.
Definition MAX_ITEMS : Z := 60000.
Definition MAX_CHUNK_SIZE : Z := 100000.
Definition MAX_BATCH_SIZE : Z := 4096.
Definition MAX_THREADS : Z := 64.
Definition OUTPUT_FORMATS : list (string * string) := [("JSONL", "jsonl"); ("PARQUET", "parquet")].
Definition IDENTITY_FIELDS : list string :=
  ["architecture_id"; "input_checksum"; "model_checksum"; "spec_checksum"; "threads"; "chunk_size"; "batch_size";
   "output_format"; "item_count"].

Definition chunk_count (item_count chunk_size : Z) : Z := - ((- item_count) / chunk_size).
Definition chunk_id (index : Z) : string := "chunk-" +:+ padded 8 index.
Definition chunk_extent (index item_count chunk_size : Z) : outcome exn (Z * Z) :=
  let start := index * chunk_size in
  _ ← raise_when (negb ((0 <=? start) && (start <? item_count)))
        (InferenceStateError "chunk index is outside the item range");
  Ret (start, Z.min item_count (start + chunk_size)).
Definition chunk_file_name (index : Z) (output_format : string) : outcome exn string :=
  extension ← or_raise (dict_get output_format OUTPUT_FORMATS) KeyError;
  Ret (chunk_id index +:+ "." +:+ extension).

Definition _check_identity (d : list (string * pyval)) : outcome exn () :=
  _ ← raise_when (negb (str_is (field "architecture_id" d) ARCHITECTURE_ID))
        (InferenceStateError "inference architecture is not allowlisted");
  _ ← for_each ["input_checksum"; "model_checksum"; "spec_checksum"] (λ _ name,
        raise_when (negb (str_matches _CHECKSUM (field name d))) (InferenceStateError ("inference " +:+ name +:+ " is invalid"))) ();
  raise_if_any
    [Ret (negb (int_within 1 MAX_THREADS (field "threads" d)));
     Ret (negb (int_within 1 MAX_CHUNK_SIZE (field "chunk_size" d)));
     Ret (negb (int_within 1 MAX_BATCH_SIZE (field "batch_size" d)));
     negb <$> in_table (field "output_format" d) OUTPUT_FORMATS;
     Ret (negb (int_within 1 MAX_ITEMS (field "item_count" d)))]
    (InferenceStateError "inference parameters are invalid").

Definition _check_counts (counts : pyval) (expected_total : Z) : outcome exn () :=
  raise_when
    match counts with
    | VList l =>
        negb (Z.of_nat (length l) =? NUM_CLASSES) || negb (forallb (λ v, int_within 0 MAX_ITEMS v) l)
        || negb (foldr Z.add 0 (List.map int_value l) =? expected_total)
    | _ => true
    end (InferenceStateError "prediction counts do not match the cursor").

Definition item_cursor (d : list (string * pyval)) : Z :=
  Z.min (int_value (field "item_count" d)) (int_value (field "next_chunk" d) * int_value (field "chunk_size" d)).

Definition state_fields : list string := "schema_version" :: "format" :: IDENTITY_FIELDS ++ ["next_chunk"; "prediction_counts"].
Definition summary_fields : list string := "schema_version" :: "format" :: IDENTITY_FIELDS ++ ["chunk_count"; "prediction_counts"].

Definition validate_state (document : pyval) : outcome exn (list (string * pyval)) :=
  d ← as_fields document state_fields (InferenceStateError "inference state fields are not closed");
  _ ← raise_when (negb (py_eq (field "schema_version" d) (VInt 1)) || negb (str_is (field "format" d) STATE_FORMAT))
        (InferenceStateError "inference state format is unsupported");
  _ ← _check_identity d;
  let total := chunk_count (int_value (field "item_count" d)) (int_value (field "chunk_size" d)) in
  _ ← raise_when (negb (int_within 0 total (field "next_chunk" d))) (InferenceStateError "inference cursor is out of range");
  _ ← _check_counts (field "prediction_counts" d) (item_cursor d);
  Ret d.

Definition validate_summary (document : pyval) : outcome exn (list (string * pyval)) :=
  d ← as_fields document summary_fields (InferenceStateError "inference summary fields are not closed");
  _ ← raise_when (negb (py_eq (field "schema_version" d) (VInt 1)) || negb (str_is (field "format" d) SUMMARY_FORMAT))
        (InferenceStateError "inference summary format is unsupported");
  _ ← _check_identity d;
  _ ← raise_when (negb (py_eq (field "chunk_count" d)
          (VInt (chunk_count (int_value (field "item_count" d)) (int_value (field "chunk_size" d))))))
        (InferenceStateError "inference summary chunk count is inconsistent");
  _ ← _check_counts (field "prediction_counts" d) (int_value (field "item_count" d));
  Ret d.

Definition runtime_cursor (d : list (string * pyval)) : pyval :=
  VDict [("step", field "next_chunk" d); ("epoch", VInt 0); ("item_cursor", VInt (item_cursor d))].

(** [dict.update] with keyword arguments adds them in order. *)
Definition summary_from_state (d : list (string * pyval)) : outcome exn (list (string * pyval)) :=
  _ ← raise_when (negb (py_eq (field "next_chunk" d)
          (VInt (chunk_count (int_value (field "item_count" d)) (int_value (field "chunk_size" d))))))
        (InferenceStateError "inference has chunks left");
  let summary := dict_of (List.map (λ name, (name, field name d)) IDENTITY_FIELDS) in
  validate_summary (VDict (dict_update summary
    [("schema_version", VInt 1); ("format", VStr SUMMARY_FORMAT); ("chunk_count", field "next_chunk" d);
     ("prediction_counts", field "prediction_counts" d)])).

Section parse.
Context (float_repr : spec_float → string) (limit stack : nat).

Definition inference_hooks : Hooks := {|
  object_pairs := unique_pairs (InferenceStateError "duplicate inference key");
  parse_float := parse_float default_hooks;
  parse_int := parse_int default_hooks;
  parse_constant := λ value, Raise (InferenceStateError ("invalid JSON constant " +:+ value));
|}.

Definition _parse (raw : string) (validator : pyval → outcome exn (list (string * pyval))) : outcome exn (list (string * pyval)) :=
  _ ← raise_when (MAX_DOCUMENT_BYTES <? byte_len raw) (InferenceStateError "inference document is too large");
  document ← except ["UnicodeDecodeError"; "JSONDecodeError"] (text ← decode_utf8 raw; loads inference_hooks limit text)
    (λ _, Raise (InferenceStateError "inference document is not strict JSON"));
  validated ← validator document;
  canonical ← canonical_json float_repr stack (VDict validated);
  _ ← raise_when (negb (String.eqb canonical raw)) (InferenceStateError "inference document is not canonical JSON");
  Ret validated.

Definition parse_state (raw : string) : outcome exn (list (string * pyval)) := _parse raw validate_state.
Definition parse_summary (raw : string) : outcome exn (list (string * pyval)) := _parse raw validate_summary.
End parse.
End Inference.

(** ** [chunk_manifest.py] *)

Module Manifest.
Import Inference.

Definition ChunkManifestError (message : string) : exn := Exn "ChunkManifestError" message.

Definition KIND : string := "CHUNK_OUTPUT".
Definition MAX_CHUNKS : Z := 2048.
Definition MAX_MANIFEST_BYTES : Z := 1024 * 1024 - 16 * 1024.
Definition MAX_CHUNK_FILE_BYTES : Z := 1024 * 1024 - 16 * 1024.
Definition MEDIA_TYPE : string := "application/json".
Definition CHUNK_MEDIA_TYPES : list (string * string) :=
  [("JSONL", "application/x-ndjson"); ("PARQUET", "application/vnd.apache.parquet")].
Definition _FIELDS : list string := ["kind"; "schema_version"; "provenance"; "model_checksum"; "chunks"; "manifest_checksum"].
Definition _ENTRY_FIELDS : list string :=
  ["chunk_id"; "start_index"; "end_index_exclusive"; "source_attempt_id"; "source_job_fence"; "file"].
Definition _FILE_FIELDS : list string := ["artifact_id"; "logical_name"; "media_type"; "size_bytes"; "checksum"].
Definition RECOGNIZED_FIELDS : list string :=
  ["chunk_id"; "start_index"; "end_index_exclusive"; "artifact_id"; "size_bytes"; "checksum"; "source_attempt_id";
   "source_job_fence"].

(** [file[name]] raises on a missing field. *)
Definition item (k : string) (d : list (string * pyval)) : outcome exn pyval := or_raise (dict_get k d) KeyError.

Definition entry (index item_count chunk_size : Z) (source_attempt_id source_job_fence : pyval)
    (file : list (string * pyval)) : outcome exn (list (string * pyval)) :=
  '(start, stop) ← chunk_extent index item_count chunk_size;
  copied ← mapM (λ name, v ← item name file; Ret (name, v)) (py_sorted String.leb _FILE_FIELDS);
  Ret [("chunk_id", VStr (chunk_id index)); ("start_index", VInt start); ("end_index_exclusive", VInt stop);
       ("source_attempt_id", source_attempt_id); ("source_job_fence", source_job_fence); ("file", VDict copied)].

(** Guards joined by [or], evaluated in order. *)
Definition _check_file (document : pyval) (index : Z) (output_format : string) : outcome exn () :=
  d ← as_fields document _FILE_FIELDS (ChunkManifestError "chunk file fields are not closed");
  raise_if_any
    [Ret (negb (str_matches _UUID7 (field "artifact_id" d)));
     name ← chunk_file_name index output_format; Ret (negb (str_is (field "logical_name" d) name));
     media ← or_raise (dict_get output_format CHUNK_MEDIA_TYPES) KeyError; Ret (negb (str_is (field "media_type" d) media));
     Ret (negb (int_within 1 MAX_CHUNK_FILE_BYTES (field "size_bytes" d)));
     Ret (negb (str_matches _CHECKSUM (field "checksum" d)))]
    (ChunkManifestError ("chunk " +:+ pretty index +:+ " file entry is invalid")).

(** The expected values a manifest is checked against. *)
Record Expected := {
  provenance : list (string * pyval);
  model_checksum : string;
  item_count : Z;
  chunk_size : Z;
  output_format : string;
  chunk_total : Z;
}.

Definition artifact_of (entry : list (string * pyval)) : pyval :=
  match field "file" entry with VDict f => field "artifact_id" f | _ => VNone end.
Definition str_of (v : pyval) : string := match v with VStr s => s | _ => "" end.

(** One turn of the loop over the chunks; the state is the set of artifacts seen. *)
Definition check_chunk (q : Expected) (seen : list string) (index : Z) (chunk : pyval) : outcome exn (list string) :=
  d ← as_fields chunk _ENTRY_FIELDS (ChunkManifestError "chunk entry fields are not closed");
  '(start, stop) ← except ["InferenceStateError"] (chunk_extent index (item_count q) (chunk_size q))
    (λ _, Raise (ChunkManifestError "chunk entry is outside the item range"));
  _ ← raise_when (negb (str_is (field "chunk_id" d) (chunk_id index))
                  || negb (int_within start start (field "start_index" d))
                  || negb (int_within stop stop (field "end_index_exclusive" d))
                  || negb (str_matches _UUID7 (field "source_attempt_id" d))
                  || negb (int_within 1 (2 ^ 53 - 1) (field "source_job_fence" d)))
        (ChunkManifestError ("chunk " +:+ pretty index +:+ " range or source is invalid"));
  _ ← _check_file (field "file" d) index (output_format q);
  let artifact := str_of (artifact_of d) in
  _ ← raise_when (existsb (String.eqb artifact) seen) (ChunkManifestError "chunk artifact is listed twice");
  Ret (seen ++ [artifact]).

(** [enumerate(chunks)] *)
Definition enumerate {A} (xs : list A) : list (Z * A) := zip (seqZ 0 (Z.of_nat (length xs))) xs.

(** One turn of the loop of [validate_recognized] over [count] items. *)
Definition check_recognized (first chunk_size count : Z) (seen : list string) (offset : Z) (chunk : pyval)
    : outcome exn (list string) :=
  let index := first + offset in
  d ← as_fields chunk RECOGNIZED_FIELDS (ChunkManifestError "recognized chunk fields are not closed");
  let start := index * chunk_size in
  let last := offset =? count - 1 in
  let stop := field "end_index_exclusive" d in
  _ ← raise_when (negb (str_is (field "chunk_id" d) (chunk_id index))
                  || negb (int_within start start (field "start_index" d))
                  || negb (int_within (start + 1) (start + chunk_size) stop)
                  || (negb last && negb (py_eq stop (VInt (start + chunk_size))))
                  || negb (str_matches _UUID7 (field "artifact_id" d))
                  || negb (int_within 1 MAX_CHUNK_FILE_BYTES (field "size_bytes" d))
                  || negb (str_matches _CHECKSUM (field "checksum" d))
                  || negb (str_matches _UUID7 (field "source_attempt_id" d))
                  || negb (int_within 1 (2 ^ 53 - 1) (field "source_job_fence" d)))
        (ChunkManifestError ("recognized chunk " +:+ pretty index +:+ " is invalid"));
  let artifact := str_of (field "artifact_id" d) in
  _ ← raise_when (existsb (String.eqb artifact) seen) (ChunkManifestError "recognized chunk artifact is listed twice");
  Ret (seen ++ [artifact]).

Definition validate_recognized (value : pyval) (first chunk_size : Z) : outcome exn (list pyval) :=
  items ← match value with
          | VList l => if between 0 first MAX_CHUNKS then Ret l
                       else Raise (ChunkManifestError "recognized chunks are not a list")
          | _ => Raise (ChunkManifestError "recognized chunks are not a list")
          end;
  let count := Z.of_nat (length items) in
  _ ← raise_when (MAX_CHUNKS <? first + count) (ChunkManifestError "recognized chunks exceed the chunk bound");
  _ ← for_each (enumerate items) (λ seen '(offset, chunk), check_recognized first chunk_size count seen offset chunk) [];
  Ret items.

Definition carried_entry (chunk : list (string * pyval)) (index item_count chunk_size : Z) (output_format : string)
    : outcome exn (list (string * pyval)) :=
  '(start, stop) ← except ["InferenceStateError"] (chunk_extent index item_count chunk_size)
    (λ _, Raise (ChunkManifestError "recognized chunk is outside the item range"));
  id ← item "chunk_id" chunk;
  _ ← raise_if_any
        [Ret (negb (str_is id (chunk_id index)));
         (a ← item "start_index" chunk; b ← item "end_index_exclusive" chunk;
          Ret (negb (py_eq a (VInt start) && py_eq b (VInt stop))));
         Ret (negb (dict_mem output_format CHUNK_MEDIA_TYPES))]
        (ChunkManifestError ("recognized chunk " +:+ pretty index +:+ " does not match this job's extent"));
  attempt ← item "source_attempt_id" chunk;
  fence ← item "source_job_fence" chunk;
  artifact ← item "artifact_id" chunk;
  name ← chunk_file_name index output_format;
  media ← or_raise (dict_get output_format CHUNK_MEDIA_TYPES) KeyError;
  size ← item "size_bytes" chunk;
  checksum ← item "checksum" chunk;
  entry index item_count chunk_size attempt fence
    [("artifact_id", artifact); ("logical_name", VStr name); ("media_type", VStr media); ("size_bytes", size);
     ("checksum", checksum)].

Section manifest.
Context (float_repr : spec_float → string) (limit stack : nat) (sha256_hex : string → string).

Definition _checksum (raw : string) : string := "sha256:" +:+ sha256_hex raw.

Definition build (provenance : list (string * pyval)) (model_checksum : string) (chunks : list pyval) : outcome exn string :=
  let body := [("kind", VStr KIND); ("schema_version", VInt 1); ("provenance", VDict provenance);
               ("model_checksum", VStr model_checksum); ("chunks", VList chunks)] in
  digested ← canonical_json float_repr stack (VDict body);
  raw ← canonical_json float_repr stack (VDict (body ++ [("manifest_checksum", VStr (_checksum digested))]));
  _ ← raise_when (MAX_MANIFEST_BYTES <? byte_len raw) (ChunkManifestError "chunk-output manifest is too large");
  Ret raw.

Definition validate (document : pyval) (q : Expected) : outcome exn (list pyval) :=
  d ← as_fields document _FIELDS (ChunkManifestError "chunk-output manifest fields are not closed");
  _ ← raise_when (negb (str_is (field "kind" d) KIND) || negb (py_eq (field "schema_version" d) (VInt 1)))
        (ChunkManifestError "chunk-output manifest format is unsupported");
  _ ← raise_when (negb (py_eq (field "provenance" d) (VDict (provenance q))))
        (ChunkManifestError "chunk-output manifest provenance mismatch");
  _ ← raise_when (negb (str_is (field "model_checksum" d) (model_checksum q)))
        (ChunkManifestError "chunk-output manifest model checksum mismatch");
  _ ← raise_when (negb (dict_mem (output_format q) CHUNK_MEDIA_TYPES))
        (ChunkManifestError "chunk output format is unsupported");
  _ ← raise_when (negb (between 1 (chunk_total q) MAX_CHUNKS))
        (ChunkManifestError "chunk-output manifest coverage is out of range");
  chunks ← match field "chunks" d with
           | VList l => if Z.of_nat (length l) =? chunk_total q then Ret l
                        else Raise (ChunkManifestError "chunk-output manifest does not cover the cursor prefix")
           | _ => Raise (ChunkManifestError "chunk-output manifest does not cover the cursor prefix")
           end;
  _ ← for_each (enumerate chunks) (λ seen '(index, chunk), check_chunk q seen index chunk) [];
  digested ← canonical_json float_repr stack (VDict (List.filter (λ kv, negb (String.eqb kv.1 "manifest_checksum")) d));
  _ ← raise_when (negb (str_is (field "manifest_checksum" d) (_checksum digested)))
        (ChunkManifestError "chunk-output manifest checksum mismatch");
  Ret chunks.

Definition hooks : Hooks := {|
  object_pairs := unique_pairs (ChunkManifestError "duplicate chunk-output manifest key");
  parse_float := parse_float default_hooks;
  parse_int := parse_int default_hooks;
  parse_constant := λ value, Raise (ChunkManifestError ("invalid JSON constant " +:+ value));
|}.

Definition parse (raw : string) (q : Expected) : outcome exn (list pyval) :=
  _ ← raise_when (MAX_MANIFEST_BYTES <? byte_len raw) (ChunkManifestError "chunk-output manifest is too large");
  document ← except ["UnicodeDecodeError"; "JSONDecodeError"; "RecursionError"] (text ← decode_utf8 raw; loads hooks limit text)
    (λ _, Raise (ChunkManifestError "chunk-output manifest is not strict JSON"));
  canonical ← except value_errors (canonical_json float_repr stack document)
    (λ _, Raise (ChunkManifestError "chunk-output manifest is not canonical JSON"));
  _ ← raise_when (negb (String.eqb canonical raw)) (ChunkManifestError "chunk-output manifest is not canonical JSON");
  validate document q.
End manifest.
End Manifest.

(** ** What an accepted manifest covers *)

Module Coverage.
Import Inference Manifest.

(** An entry that passed the checks at its index. *)
Record chunk_ok (q : Expected) (index : Z) (e : list (string * pyval)) : Prop := {
  co_range : 0 ≤ index * chunk_size q < item_count q;
  co_id : field "chunk_id" e = VStr (chunk_id index);
  co_start : field "start_index" e = VInt (index * chunk_size q);
  co_stop : field "end_index_exclusive" e = VInt (Z.min (item_count q) (index * chunk_size q + chunk_size q));
  co_artifact : ∃ a, artifact_of e = VStr a;
}.

Lemma raise_if_any_Ret tests e u :
  raise_if_any tests e = Ret u ↔ Forall (λ t, t = Ret false) tests.
Proof.
  induction tests as [|t tests IH]; cbn; [split; [constructor|by destruct u]|].
  rewrite Forall_cons, <- IH. destruct t as [[]|]; cbn; naive_solver.
Qed.

Lemma int_within_eq n v : int_within n n v = true → v = VInt n.
Proof. intros (m & -> & ?)%int_within_spec. f_equal. lia. Qed.

Lemma check_chunk_inv q seen index chunk seen' : check_chunk q seen index chunk = Ret seen' →
  ∃ e, chunk = VDict e ∧ chunk_ok q index e ∧ str_of (artifact_of e) ∉ seen ∧ seen' = seen ++ [str_of (artifact_of e)].
Proof.
  intros H. apply bind_Ret in H as (e & [-> _]%as_fields_Ret & H). apply bind_Ret in H as ([start stop] & He & H).
  unfold except, chunk_extent in He.
  destruct (negb ((0 <=? index * chunk_size q) && _)) eqn:Hr; cbn in He; [by case_bool_decide|].
  injection He as <- <-. apply negb_false_iff, andb_true_iff in Hr as [Hlo%Z.leb_le Hhi%Z.ltb_lt].
  apply bind_Ret in H as ([] & Hg%raise_when_Ret & H). apply bind_Ret in H as ([] & Hf & H).
  apply bind_Ret in H as ([] & Hs%raise_when_Ret & [= <-]). exists e. split; [done|].
  rewrite !orb_false_iff, !negb_false_iff in Hg. destruct Hg as ((((Hid & Hst) & Hen) & _) & _).
  unfold _check_file in Hf. apply bind_Ret in Hf as (f & [Hfile _]%as_fields_Ret & Hf).
  apply raise_if_any_Ret in Hf. apply Forall_cons in Hf as [Ha _]. injection Ha as Ha%negb_false_iff.
  apply str_matches_spec in Ha as (a & Ha & _). split_and!; [split|..]; [lia|by apply str_is_spec| | | | |done].
  - by apply int_within_eq.
  - by apply int_within_eq.
  - exists a. unfold artifact_of. by rewrite Hfile.
  - intros Hin. rewrite <- existsb_eqb in Hin. congruence.
Qed.

Lemma check_chunks_inv q xs n seen seen' :
  for_each (zip (seqZ n (Z.of_nat (length xs))) xs) (λ seen '(index, chunk), check_chunk q seen index chunk) seen = Ret seen' →
  ∃ entries, xs = VDict <$> entries ∧ (∀ i e, entries !! i = Some e → chunk_ok q (n + Z.of_nat i) e) ∧
    seen' = seen ++ (str_of ∘ artifact_of <$> entries) ∧ (NoDup seen → NoDup seen').
Proof.
  revert n seen. induction xs as [|x xs IH]; intros n seen H.
  - injection H as <-. exists []. split_and!; [done|by intros [|]|by rewrite app_nil_r|done].
  - replace (Z.of_nat (length (x :: xs))) with (Z.succ (Z.of_nat (length xs))) in H by (cbn [length]; lia).
    rewrite seqZ_cons in H by lia. replace (Z.pred (Z.succ (Z.of_nat (length xs)))) with (Z.of_nat (length xs)) in H by lia.
    cbn [zip zip_with for_each] in H. apply bind_Ret in H as (seen1 & H1 & H).
    apply check_chunk_inv in H1 as (e & -> & Hok & Hnew & ->). apply IH in H as (entries & -> & Hall & -> & Hnd).
    exists (e :: entries). split_and!; [done| | |].
    + intros [|i] e' Hi; cbn in Hi; [injection Hi as <-; by rewrite Z.add_0_r|].
      replace (n + Z.of_nat (S i)) with (Z.succ n + Z.of_nat i) by lia. by apply Hall.
    + by rewrite <- app_assoc.
    + intros Hs. apply Hnd. apply NoDup_app. split_and!; [done|set_solver|apply NoDup_singleton].
Qed.

(** The items an entry covers. *)
Definition items_of (e : list (string * pyval)) : list Z :=
  let start := int_value (field "start_index" e) in
  seqZ start (int_value (field "end_index_exclusive" e) - start).

Lemma items_tile q entries :
  0 < chunk_size q → (∀ i e, entries !! i = Some e → chunk_ok q (Z.of_nat i) e) →
  mjoin (items_of <$> entries) = seqZ 0 (Z.min (item_count q) (Z.of_nat (length entries) * chunk_size q)).
Proof.
  intros Hcs. induction entries as [|e entries IH] using rev_ind; intros Hok.
  { cbn. rewrite (seqZ_nil 0) by lia. done. }
  assert (chunk_ok q (Z.of_nat (length entries)) e) as [Hr _ Hs He _].
  { apply Hok. rewrite lookup_app_r, Nat.sub_diag by lia. done. }
  rewrite fmap_app, join_app, IH, length_app.
  - cbn [fmap list_fmap mjoin list_join length]. rewrite app_nil_r. unfold items_of. rewrite Hs, He. cbn [int_value].
    set (k := Z.of_nat (length entries)) in *. rewrite Z.min_r by lia.
    replace (Z.min (item_count q) (Z.of_nat (length entries + 1) * chunk_size q))
      with (k * chunk_size q + (Z.min (item_count q) (k * chunk_size q + chunk_size q) - k * chunk_size q)) by lia.
    rewrite seqZ_app by lia. done.
  - intros i e' Hi. apply Hok. rewrite lookup_app_l; [done|]. by eapply lookup_lt_Some.
Qed.

Lemma parse_covers float_repr limit stack sha256_hex raw q chunks :
  0 < chunk_size q → parse float_repr limit stack sha256_hex raw q = Ret chunks →
  ∃ entries, chunks = VDict <$> entries ∧ Z.of_nat (length entries) = chunk_total q ∧
    mjoin (items_of <$> entries) = seqZ 0 (Z.min (item_count q) (chunk_total q * chunk_size q)) ∧
    NoDup (artifact_of <$> entries).
Proof.
  intros Hcs H. unfold parse in H. do 4 (apply bind_Ret in H as (? & _ & H)). unfold validate in H.
  do 6 (apply bind_Ret in H as (? & _ & H)). apply bind_Ret in H as (l & Hl & H).
  apply bind_Ret in H as (seen & Hseen & H). do 2 (apply bind_Ret in H as (? & _ & H)). injection H as <-.
  assert (Z.of_nat (length l) = chunk_total q) as Hlen.
  { repeat case_match; try done. injection Hl as <-. by apply Z.eqb_eq. }
  apply check_chunks_inv in Hseen as (entries & -> & Hok & -> & Hnd). rewrite length_fmap in Hlen.
  exists entries. split_and!; [done|done|rewrite <- Hlen; by apply items_tile|].
  specialize (Hnd (NoDup_nil_2)). cbn [app] in Hnd. rewrite list_fmap_compose in Hnd. by apply NoDup_fmap_1 in Hnd.
Qed.

(** Coverage of a chunk manifest.  The entries of an accepted manifest are as many as
    expected, their ranges are, one after the other, exactly the items before the
    cursor, and no artifact is listed twice. *)
Theorem accepted_manifest_covers float_repr limit stack sha256_hex raw q chunks :
  0 < chunk_size q → parse float_repr limit stack sha256_hex raw q = Ret chunks →
  ∃ entries, chunks = VDict <$> entries ∧ Z.of_nat (length entries) = chunk_total q ∧
    mjoin (items_of <$> entries) = seqZ 0 (Z.min (item_count q) (chunk_total q * chunk_size q)) ∧
    NoDup (artifact_of <$> entries).
Proof. apply parse_covers. Qed.
End Coverage.

(** ** A manifest that was built is read back *)

Module Roundtrip.
Import Inference Manifest Coverage.

(** A committed chunk file and the attempt that wrote it. *)
Record Source := {
  so_attempt : string;
  so_fence : Z;
  so_artifact : string;
  so_size : Z;
  so_checksum : string;
}.
Definition source_ok (s : Source) : Prop :=
  fullmatch _UUID7 (so_attempt s) = true ∧ 1 ≤ so_fence s ≤ 2 ^ 53 - 1 ∧ fullmatch _UUID7 (so_artifact s) = true ∧
  1 ≤ so_size s ≤ MAX_CHUNK_FILE_BYTES ∧ fullmatch _CHECKSUM (so_checksum s) = true.

Section roundtrip.
Context (q : Expected) (extension media : string).
Context (Hext : dict_get (output_format q) OUTPUT_FORMATS = Some extension).
Context (Hmedia : dict_get (output_format q) CHUNK_MEDIA_TYPES = Some media).

Definition source_file (index : Z) (s : Source) : list (string * pyval) :=
  [("artifact_id", VStr (so_artifact s)); ("logical_name", VStr (chunk_id index +:+ "." +:+ extension));
   ("media_type", VStr media); ("size_bytes", VInt (so_size s)); ("checksum", VStr (so_checksum s))].
Definition source_entry (index : Z) (s : Source) : outcome exn (list (string * pyval)) :=
  entry index (item_count q) (chunk_size q) (VStr (so_attempt s)) (VInt (so_fence s)) (source_file index s).

(** The entry of a source whose chunk is in range, with its keys sorted. *)
Definition sorted_file (index : Z) (s : Source) : list (string * pyval) :=
  [("artifact_id", VStr (so_artifact s)); ("checksum", VStr (so_checksum s));
   ("logical_name", VStr (chunk_id index +:+ "." +:+ extension)); ("media_type", VStr media); ("size_bytes", VInt (so_size s))].
Definition sorted_entry (index : Z) (s : Source) : list (string * pyval) :=
  [("chunk_id", VStr (chunk_id index));
   ("end_index_exclusive", VInt (Z.min (item_count q) (index * chunk_size q + chunk_size q)));
   ("file", VDict (sorted_file index s)); ("source_attempt_id", VStr (so_attempt s));
   ("source_job_fence", VInt (so_fence s)); ("start_index", VInt (index * chunk_size q))].

Lemma source_entry_sorted index s e : source_entry index s = Ret e →
  0 ≤ index * chunk_size q < item_count q ∧ json_sorted (VDict e) = VDict (sorted_entry index s).
Proof.
  intros H. apply bind_Ret in H as ([start stop] & He & H). unfold chunk_extent in He.
  apply bind_Ret in He as ([] & Hr%raise_when_Ret & [= <- <-]). apply negb_false_iff, andb_true_iff in Hr as [? ?].
  apply bind_Ret in H as (copied & Hc & H). injection H as <-. injection Hc as <-. split; [lia|]. reflexivity.
Qed.

(** An entry with the fields of a source, in any order. *)
Record entry_of (index : Z) (s : Source) (e f : list (string * pyval)) : Prop := {
  eo_fields : fields_are e _ENTRY_FIELDS = true;
  eo_id : field "chunk_id" e = VStr (chunk_id index);
  eo_start : field "start_index" e = VInt (index * chunk_size q);
  eo_stop : field "end_index_exclusive" e = VInt (Z.min (item_count q) (index * chunk_size q + chunk_size q));
  eo_attempt : field "source_attempt_id" e = VStr (so_attempt s);
  eo_fence : field "source_job_fence" e = VInt (so_fence s);
  eo_file : field "file" e = VDict f;
  eo_file_fields : fields_are f _FILE_FIELDS = true;
  eo_artifact : field "artifact_id" f = VStr (so_artifact s);
  eo_name : field "logical_name" f = VStr (chunk_id index +:+ "." +:+ extension);
  eo_media : field "media_type" f = VStr media;
  eo_size : field "size_bytes" f = VInt (so_size s);
  eo_checksum : field "checksum" f = VStr (so_checksum s);
}.

Lemma check_file_accepts index s e f : source_ok s → entry_of index s e f →
  _check_file (VDict f) index (output_format q) = Ret ().
Proof.
  intros (_ & _ & Har & Hs & Hc) H. unfold _check_file, as_fields. rewrite (eo_file_fields _ _ _ _ H). cbn [mbind outcome_bind].
  unfold chunk_file_name. rewrite Hext, Hmedia, (eo_artifact _ _ _ _ H), (eo_name _ _ _ _ H), (eo_media _ _ _ _ H),
    (eo_size _ _ _ _ H), (eo_checksum _ _ _ _ H).
  cbn [str_matches int_within or_raise mbind outcome_bind]. rewrite Har, Hc. unfold between, str_is. cbn [py_eq].
  by rewrite !String.eqb_refl, !(proj2 (Z.leb_le _ _)) by lia.
Qed.

Lemma check_chunk_accepts seen index s e f : source_ok s → 0 ≤ index * chunk_size q < item_count q → so_artifact s ∉ seen →
  entry_of index s e f → check_chunk q seen index (VDict e) = Ret (seen ++ [so_artifact s]).
Proof.
  intros Hok Hr Hnew H. pose proof Hok as (Ha & Hf & _). unfold check_chunk, as_fields. rewrite (eo_fields _ _ _ _ H).
  cbn [mbind outcome_bind]. unfold chunk_extent. rewrite (proj2 (Z.leb_le _ _)), (proj2 (Z.ltb_lt _ _)) by lia.
  cbn [andb negb raise_when mbind outcome_bind except].
  rewrite (eo_id _ _ _ _ H), (eo_start _ _ _ _ H), (eo_stop _ _ _ _ H), (eo_attempt _ _ _ _ H), (eo_fence _ _ _ _ H),
    (eo_file _ _ _ _ H).
  cbn [str_matches int_within]. rewrite Ha. unfold between, str_is. cbn [py_eq]. rewrite String.eqb_refl, !Z.leb_refl.
  rewrite !(proj2 (Z.leb_le _ _)) by lia. cbn [andb negb orb raise_when mbind outcome_bind].
  rewrite (check_file_accepts index s e f) by done. cbn [mbind outcome_bind].
  unfold artifact_of. rewrite (eo_file _ _ _ _ H), (eo_artifact _ _ _ _ H). cbn [str_of].
  destruct (existsb (String.eqb (so_artifact s)) seen) eqn:Hx; [by apply existsb_eqb in Hx|done].
Qed.

Lemma sorted_entry_of index s : entry_of index s (sorted_entry index s) (sorted_file index s).
Proof. by split. Qed.

(** *** Recognized chunks carried forward *)

Lemma carried_entry_of index chunk e :
  carried_entry chunk index (item_count q) (chunk_size q) (output_format q) = Ret e →
  ∀ s, field "source_attempt_id" chunk = VStr (so_attempt s) → field "source_job_fence" chunk = VInt (so_fence s) →
    field "artifact_id" chunk = VStr (so_artifact s) → field "size_bytes" chunk = VInt (so_size s) →
    field "checksum" chunk = VStr (so_checksum s) →
  0 ≤ index * chunk_size q < item_count q ∧ entry_of index s e (sorted_file index s).
Proof.
  intros H s H1 H2 H3 H4 H5. unfold carried_entry in H. apply bind_Ret in H as ([start stop] & Hx & H).
  unfold except, chunk_extent in Hx.
  destruct (negb ((0 <=? index * chunk_size q) && _)) eqn:Hr; cbn in Hx; [by case_bool_decide|].
  injection Hx as <- <-. apply negb_false_iff, andb_true_iff in Hr as [Hlo%Z.leb_le Hhi%Z.ltb_lt].
  apply bind_Ret in H as (id & _ & H). apply bind_Ret in H as ([] & _ & H).
  assert (∀ k v w, item k chunk = Ret v → field k chunk = w → v = w) as Hget.
  { intros k v w Hv%or_raise_Ret Hw. unfold field in Hw. by rewrite Hv in Hw. }
  apply bind_Ret in H as (v1 & G1 & H). apply (Hget _ _ _ G1) in H1 as ->.
  apply bind_Ret in H as (v2 & G2 & H). apply (Hget _ _ _ G2) in H2 as ->.
  apply bind_Ret in H as (v3 & G3 & H). apply (Hget _ _ _ G3) in H3 as ->.
  unfold chunk_file_name in H. rewrite Hext, Hmedia in H. cbn [or_raise mbind outcome_bind] in H.
  apply bind_Ret in H as (v4 & G4 & H). apply (Hget _ _ _ G4) in H4 as ->.
  apply bind_Ret in H as (v5 & G5 & H). apply (Hget _ _ _ G5) in H5 as ->.
  unfold entry, chunk_extent in H. rewrite (proj2 (Z.leb_le _ _)), (proj2 (Z.ltb_lt _ _)) in H by lia.
  cbn [andb negb raise_when mbind outcome_bind] in H. apply bind_Ret in H as (copied & Hc & H). injection Hc as <-.
  injection H as <-. split; [lia|]. by split.
Qed.

(** *** All entries *)

Context (float_repr : spec_float → string) (limit stack : nat) (sha256_hex : string → string).
Context (Hsha : ∀ data, fullmatch (times 64 hex) (sha256_hex data) = true) (Hlimit : (4 ≤ limit)%nat) (Hstack : (5 ≤ stack)%nat).
Context (Hcount : 0 ≤ item_count q ≤ _MAX_SAFE_INTEGER) (Hsize : 0 < chunk_size q).

Lemma chunk_id_simple index : all_chars simple_char (chunk_id index) = true.
Proof.
  unfold chunk_id, padded. rewrite !all_chars_app, zeros_simple, pretty_simple. by destruct (index <? 0).
Qed.

Lemma formats_simple : all_chars simple_char extension = true ∧ all_chars simple_char media = true.
Proof.
  unfold OUTPUT_FORMATS, CHUNK_MEDIA_TYPES in *. cbn in Hext, Hmedia. repeat case_decide; by simplify_eq.
Qed.

Lemma sorted_entry_plain index s : source_ok s → 0 ≤ index * chunk_size q < item_count q →
  plain (VDict (sorted_entry index s)) = true.
Proof.
  intros (Ha & Hf & Har & Hs & Hc) Hr. destruct formats_simple as [He Hm]. unfold MAX_CHUNK_FILE_BYTES in Hs.
  assert (plain (VDict (sorted_file index s)) = true) as Hfile.
  { apply plain_dict. split; [by eapply bool_decide_eq_true_1; vm_compute|].
    repeat (apply Forall_cons; split; [split; [done|cbn [snd]]|]);
      auto using uuid7_plain, checksum_plain, simple_plain.
    - apply simple_plain. by rewrite !all_chars_app, chunk_id_simple, He.
    - apply plain_safe. unfold _MAX_SAFE_INTEGER. lia. }
  apply plain_dict. split; [by eapply bool_decide_eq_true_1; vm_compute|].
  repeat (apply Forall_cons; split; [split; [done|cbn [snd]]|]);
    auto using uuid7_plain, checksum_plain, simple_plain, chunk_id_simple;
    apply plain_safe; unfold _MAX_SAFE_INTEGER in *; lia.
Qed.

Definition source_entries (sources : list Source) : outcome exn (list (list (string * pyval))) :=
  mapM (λ '(index, s), source_entry index s) (enumerate sources).

Lemma enumerate_cons {A} n (x : A) xs :
  zip (seqZ n (Z.of_nat (length (x :: xs)))) (x :: xs) = (n, x) :: zip (seqZ (Z.succ n) (Z.of_nat (length xs))) xs.
Proof.
  replace (Z.of_nat (length (x :: xs))) with (Z.succ (Z.of_nat (length xs))) by (cbn [length]; lia).
  rewrite seqZ_cons by lia. by replace (Z.pred (Z.succ (Z.of_nat (length xs)))) with (Z.of_nat (length xs)) by lia.
Qed.

(** The sources of a list of entries, each at its index, in range. *)
Definition in_range (ps : list (Z * Source)) : Prop :=
  Forall (λ p, 0 ≤ p.1 * chunk_size q < item_count q ∧ source_ok p.2) ps.

Lemma source_entries_sorted ps entries :
  mapM (λ '(index, s), source_entry index s) ps = Ret entries → Forall (λ p, source_ok p.2) ps →
  List.map json_sorted (VDict <$> entries) = List.map (λ '(index, s), VDict (sorted_entry index s)) ps ∧ in_range ps.
Proof.
  revert entries. induction ps as [|[i s] ps IH]; intros entries H Hok; [injection H as <-; split; [done|constructor]|].
  apply Forall_cons in Hok as [Hs Hok]. cbn [mapM] in H. apply bind_Ret in H as (e & He & H).
  apply bind_Ret in H as (es & Hes & [= <-]). destruct (source_entry_sorted i s e He) as [Hr Heq].
  destruct (IH es Hes Hok) as [IH1 IH2]. split; [|by constructor]. cbn [fmap list_fmap List.map]. by rewrite Heq, <- IH1.
Qed.

Lemma check_chunks_accept n sources seen : in_range (zip (seqZ n (Z.of_nat (length sources))) sources) →
  NoDup (seen ++ (so_artifact <$> sources)) →
  let chunks := List.map (λ '(index, s), VDict (sorted_entry index s)) (zip (seqZ n (Z.of_nat (length sources))) sources) in
  ∃ seen', for_each (zip (seqZ n (Z.of_nat (length chunks))) chunks)
    (λ seen '(index, chunk), check_chunk q seen index chunk) seen = Ret seen'.
Proof.
  revert n seen. induction sources as [|s sources IH]; intros n seen Hr Hnd; [by exists seen|].
  rewrite enumerate_cons in *. cbn [List.map] in *. apply Forall_cons in Hr as [[Hr Hs] Hrs]. cbn in Hr, Hs.
  rewrite enumerate_cons. cbn [for_each]. rewrite (check_chunk_accepts _ _ s _ (sorted_file n s) Hs Hr); [| |apply sorted_entry_of].
  - cbn [mbind outcome_bind]. apply IH; [done|]. by rewrite <- app_assoc.
  - apply NoDup_app in Hnd as (_ & Hnd & _). intros Hin. apply (Hnd _ Hin). left.
Qed.

Lemma plain_entries ps : in_range ps →
  plain (VList (List.map (λ '(index, s), VDict (sorted_entry index s)) ps)) = true.
Proof.
  intros Hr. apply plain_list. induction Hr as [|[i s] ps [Hr Hs] _ IH]; [constructor|]. cbn. constructor; [|done].
  by apply sorted_entry_plain.
Qed.

Context (sources : list Source) (entries : list (list (string * pyval))) (raw : string).
Context (Hok : Forall source_ok sources) (Hnd : NoDup (so_artifact <$> sources)).
Context (Htotal : Z.of_nat (length sources) = chunk_total q) (Hbound : 1 ≤ chunk_total q ≤ MAX_CHUNKS).
Context (Hprov : plain (VDict (provenance q)) = true) (Hdepth : (vdepth (VDict (provenance q)) ≤ 3)%nat).
Context (Hmodel : utf8_valid (model_checksum q) = true).
Context (Hentries : source_entries sources = Ret entries).

Definition body_of (chunks : list pyval) : list (string * pyval) :=
  [("kind", VStr KIND); ("schema_version", VInt 1); ("provenance", VDict (provenance q));
   ("model_checksum", VStr (model_checksum q)); ("chunks", VList chunks)].

Lemma enumerate_sources_ok : Forall (λ p, source_ok p.2) (enumerate sources).
Proof.
  unfold enumerate. apply Forall_forall. intros [i s] Hin. rewrite Forall_forall in Hok. apply Hok.
  by eapply elem_of_zip_r.
Qed.

Lemma entries_plain : plain (VList (VDict <$> entries)) = true.
Proof.
  apply plain_sorted_iff. cbn [json_sorted].
  destruct (source_entries_sorted _ _ Hentries enumerate_sources_ok) as [-> Hr]. by apply plain_entries.
Qed.

Lemma entries_depth : (vdepth (VList (VDict <$> entries)) ≤ 3)%nat.
Proof.
  rewrite <- vdepth_sorted. cbn [json_sorted].
  destruct (source_entries_sorted _ _ Hentries enumerate_sources_ok) as [-> _]. cbn [vdepth].
  assert (∀ ps, foldr (λ v n, vdepth v `max` n)%nat 0%nat (List.map (λ '(index, s), VDict (sorted_entry index s)) ps) ≤ 2)%nat as H.
  { induction ps as [|[i s] ps IH]; [cbn; lia|]. cbn [List.map foldr]. cbn [vdepth sorted_entry sorted_file foldr snd]. lia. }
  specialize (H (enumerate sources)). lia.
Qed.

Lemma body_plain extra : (∀ v, extra = Some v → plain (VStr v) = true) →
  let d := body_of (VDict <$> entries) ++ (match extra with Some v => [("manifest_checksum", VStr v)] | None => [] end) in
  plain (VDict d) = true ∧ (vdepth (VDict d) ≤ 4)%nat.
Proof.
  intros He d. split.
  - apply plain_dict. split; [destruct extra; by eapply bool_decide_eq_true_1; vm_compute|].
    pose proof entries_plain. assert (plain (VStr (model_checksum q)) = true) by (by rewrite plain_str).
    apply Forall_app; split; [repeat (apply Forall_cons; split; [by split|]); constructor|].
    destruct extra as [v|]; [|constructor]. apply Forall_singleton. split; [done|]. by apply He.
  - unfold d. pose proof entries_depth. cbn [vdepth body_of app foldr snd] in *.
    destruct extra; cbn [foldr snd vdepth]; lia.
Qed.

Local Notation chunks := (VDict <$> entries).
Local Notation text v := (dumps json_raw_string float_repr (json_sorted v)).

(** A document with sorted keys has the canonical text it had before. *)
Lemma canonical_sorted v : plain v = true → (vdepth v < stack)%nat →
  canonical_json float_repr stack (json_sorted v) = Ret (text v).
Proof.
  intros Hp Hd. rewrite (canonical_dumps _ float_repr), json_sorted_idemp; [done|by apply plain_sorted|].
  by rewrite vdepth_sorted.
Qed.

Definition digest_of_body : string := _checksum sha256_hex (text (VDict (body_of chunks))).
Definition sealed : list (string * pyval) := body_of chunks ++ [("manifest_checksum", VStr digest_of_body)].

Lemma digest_plain : plain (VStr digest_of_body) = true.
Proof.
  apply simple_plain. unfold digest_of_body, _checksum. rewrite all_chars_app. apply andb_true_iff. split; [done|].
  eapply fullmatch_chars; [|apply Hsha]. by vm_compute.
Qed.

Lemma sealed_plain : plain (VDict sealed) = true ∧ (vdepth (VDict sealed) ≤ 4)%nat.
Proof. apply (body_plain (Some digest_of_body)). intros v [= <-]. apply digest_plain. Qed.

Lemma body_only : plain (VDict (body_of chunks)) = true ∧ (vdepth (VDict (body_of chunks)) ≤ 4)%nat.
Proof. by apply (body_plain None). Qed.

Definition sorted_body : list (string * pyval) :=
  [("chunks", VList (List.map json_sorted chunks)); ("kind", VStr KIND); ("model_checksum", VStr (model_checksum q));
   ("provenance", json_sorted (VDict (provenance q))); ("schema_version", VInt 1)].
Definition sorted_sealed : list (string * pyval) :=
  [("chunks", VList (List.map json_sorted chunks)); ("kind", VStr KIND); ("manifest_checksum", VStr digest_of_body);
   ("model_checksum", VStr (model_checksum q)); ("provenance", json_sorted (VDict (provenance q))); ("schema_version", VInt 1)].

Lemma validate_accepts :
  validate float_repr stack sha256_hex (json_sorted (VDict sealed)) q = Ret (List.map json_sorted chunks).
Proof.
  change (json_sorted (VDict sealed)) with (VDict sorted_sealed). unfold validate.
  change (as_fields (VDict sorted_sealed) _ _) with (Ret (E := exn) sorted_sealed). cbn [mbind outcome_bind].
  change (field "kind" _) with (VStr KIND). change (field "schema_version" _) with (VInt 1).
  change (field "provenance" _) with (json_sorted (VDict (provenance q))).
  change (field "model_checksum" _) with (VStr (model_checksum q)). change (field "manifest_checksum" _) with (VStr digest_of_body).
  change (field "chunks" _) with (VList (List.map json_sorted chunks)).
  change (negb (str_is (VStr KIND) KIND) || negb (py_eq (VInt 1) (VInt 1))) with false.
  rewrite json_sorted_eq_l by (by apply plain_wf). unfold str_is. cbn [py_eq]. rewrite !String.eqb_refl.
  unfold dict_mem. rewrite Hmedia. unfold between. rewrite !(proj2 (Z.leb_le _ _)) by lia.
  cbn [andb negb raise_when mbind outcome_bind].
  destruct (source_entries_sorted _ _ Hentries enumerate_sources_ok) as [Hc Hr].
  destruct (check_chunks_accept 0 sources [] Hr Hnd) as [seen Hseen].
  assert (Z.of_nat (length (List.map json_sorted chunks)) = chunk_total q) as Hlen.
  { rewrite Hc, length_map. unfold enumerate. rewrite length_zip_with, length_seqZ. lia. }
  rewrite Hlen, Z.eqb_refl. cbn [mbind outcome_bind]. unfold enumerate at 1. rewrite Hc.
  unfold enumerate in *. rewrite Hseen. cbn [mbind outcome_bind].
  change (List.filter _ sorted_sealed) with sorted_body.
  change (VDict sorted_body) with (json_sorted (VDict (body_of chunks))).
  destruct body_only as [Hp Hd]. rewrite canonical_sorted by (done || lia). cbn [mbind outcome_bind].
  fold digest_of_body. by rewrite String.eqb_refl.
Qed.

Lemma hooks_int n : safe_int n = true → parse_int Manifest.hooks (pretty n) = Ret (VInt n).
Proof. intros Hn. cbn. by rewrite py_int_pretty by (by apply safe_short). Qed.
Lemma hooks_pairs ps : NoDup ps.*1 → object_pairs Manifest.hooks ps = Ret (VDict ps).
Proof. intros Hps. cbn. by rewrite unique_pairs_spec, bool_decide_eq_true_2. Qed.

(** C37: A built manifest is accepted.  Entries made by [entry] from committed chunk files of
    distinct artifacts, sealed by [build] within the size bound, are parsed by the server
    against the same expectation and come back as they were, with sorted keys. *)
Theorem built_manifest_parses :
  build float_repr stack sha256_hex (provenance q) (model_checksum q) chunks = Ret raw →
  parse float_repr limit stack sha256_hex raw q = Ret (List.map json_sorted chunks).
Proof.
  destruct body_only as [Hbp Hbd], sealed_plain as [Hsp Hsd]. intros H. unfold build in H.
  fold (body_of chunks) in H. rewrite (canonical_dumps _ float_repr) in H by (done || lia). cbn [mbind outcome_bind] in H.
  fold digest_of_body in H. fold sealed in H. rewrite (canonical_dumps _ float_repr) in H by (done || lia).
  cbn [mbind outcome_bind] in H. apply bind_Ret in H as ([] & Hmax%raise_when_Ret & H).
  assert (raw = text (VDict sealed)) as -> by congruence. unfold parse. rewrite Hmax. cbn [raise_when mbind outcome_bind]. unfold decode_utf8.
  rewrite dumps_valid by (by apply plain_sorted). cbn [mbind outcome_bind].
  rewrite (loads_canonical Manifest.hooks float_repr (VDict sealed) limit hooks_int hooks_pairs) by (done || lia).
  cbn [except mbind outcome_bind]. rewrite canonical_sorted by (done || lia). cbn [except mbind outcome_bind].
  rewrite String.eqb_refl. cbn [negb raise_when mbind outcome_bind]. apply validate_accepts.
Qed.
End roundtrip.

(** ** Recognized chunks *)

Lemma check_recognized_inv first chunk_size count seen offset chunk seen' :
  check_recognized first chunk_size count seen offset chunk = Ret seen' →
  ∃ d s, chunk = VDict d ∧ source_ok s ∧ seen' = seen ++ [so_artifact s] ∧ so_artifact s ∉ seen ∧
    field "source_attempt_id" d = VStr (so_attempt s) ∧ field "source_job_fence" d = VInt (so_fence s) ∧
    field "artifact_id" d = VStr (so_artifact s) ∧ field "size_bytes" d = VInt (so_size s) ∧
    field "checksum" d = VStr (so_checksum s).
Proof.
  intros H. apply bind_Ret in H as (d & [-> _]%as_fields_Ret & H). apply bind_Ret in H as ([] & Hg%raise_when_Ret & H).
  apply bind_Ret in H as ([] & Hs%raise_when_Ret & [= <-]). rewrite !orb_false_iff, !negb_false_iff in Hg.
  destruct Hg as ((((((((_ & _) & _) & _) & Ha) & Hz) & Hc) & Hat) & Hf).
  apply str_matches_spec in Ha as (a & Ha & ?), Hc as (c & Hc & ?), Hat as (t & Hat & ?).
  apply int_within_spec in Hz as (z & Hz & ?), Hf as (f & Hf & ?).
  exists d, {| so_attempt := t; so_fence := f; so_artifact := a; so_size := z; so_checksum := c |}. cbn.
  rewrite Ha in Hs |- *. cbn [str_of] in *. split_and!; try done. rewrite <- existsb_eqb. congruence.
Qed.

(** Recognized chunks can be carried forward.  Whatever chunk of a claim passed
    [validate_recognized], the entry [carried_entry] makes of it for this job is accepted
    by the manifest check at its index, unless the artifact was listed before. *)
Theorem carried_entry_accepted q extension media first count recognized seen seen' offset d e listed :
  dict_get (output_format q) OUTPUT_FORMATS = Some extension →
  dict_get (output_format q) CHUNK_MEDIA_TYPES = Some media → recognized = VDict d →
  check_recognized first (chunk_size q) count seen offset recognized = Ret seen' →
  carried_entry d (first + offset) (item_count q) (chunk_size q) (output_format q) = Ret e →
  ∃ artifact, seen' = seen ++ [artifact] ∧
    (artifact ∉ listed → check_chunk q listed (first + offset) (VDict e) = Ret (listed ++ [artifact])).
Proof.
  intros Hext Hmedia -> Hr Hc. apply check_recognized_inv in Hr as (d' & s & [= <-] & Hok & -> & _ & H1 & H2 & H3 & H4 & H5).
  destruct (carried_entry_of q extension media Hext Hmedia (first + offset) d e Hc s) as [Hrange He]; [done..|].
  exists (so_artifact s). split; [done|]. intros Hnew.
  by apply (check_chunk_accepts q extension media Hext Hmedia listed (first + offset) s e (sorted_file extension media (first + offset) s)).
Qed.
End Roundtrip.

(** ** Finished inference *)

Module Summary.
Import Inference Coverage.

Lemma chunk_count_covers items size : 1 ≤ items → 1 ≤ size → items ≤ chunk_count items size * size < items + size.
Proof.
  intros Hi Hs. unfold chunk_count. pose proof (Z.div_mod (- items) size). pose proof (Z.mod_pos_bound (- items) size). lia.
Qed.

(** The identity fields of a checked document. *)
Lemma _check_identity_inv d u : _check_identity d = Ret u →
  ∃ items size, field "item_count" d = VInt items ∧ field "chunk_size" d = VInt size ∧ 1 ≤ items ≤ MAX_ITEMS ∧ 1 ≤ size ≤ MAX_CHUNK_SIZE.
Proof.
  intros H. unfold _check_identity in H. do 2 (apply bind_Ret in H as (? & _ & H)).
  apply raise_if_any_Ret in H. repeat (apply Forall_cons in H as [? H]).
  repeat match goal with G : Ret (negb _) = Ret false |- _ => injection G as G%negb_false_iff end.
  repeat match goal with G : int_within _ _ (field ?k _) = true |- _ => apply int_within_spec in G as (? & ? & ?) end.
  eauto 10.
Qed.

Definition summary_of (d : list (string * pyval)) : list (string * pyval) :=
  dict_update (dict_of (List.map (λ name, (name, field name d)) IDENTITY_FIELDS))
    [("schema_version", VInt 1); ("format", VStr SUMMARY_FORMAT); ("chunk_count", field "next_chunk" d);
     ("prediction_counts", field "prediction_counts" d)].

(** The last state gives the summary.  From a valid state whose cursor is past every
    chunk, [summary_from_state] returns a summary, which is valid and counts every item;
    before that it is refused. *)
Theorem finished_state_has_summary document d : validate_state document = Ret d →
  if py_eq (field "next_chunk" d) (VInt (chunk_count (int_value (field "item_count" d)) (int_value (field "chunk_size" d))))
  then item_cursor d = int_value (field "item_count" d) ∧ summary_from_state d = Ret (summary_of d)
  else summary_from_state d = Raise (InferenceStateError "inference has chunks left").
Proof.
  intros H. apply bind_Ret in H as (d' & [-> _]%as_fields_Ret & H). apply bind_Ret in H as (? & _ & H).
  apply bind_Ret in H as ([] & Hid & H). apply bind_Ret in H as ([] & Hnext%raise_when_Ret & H).
  apply bind_Ret in H as ([] & Hcounts & [= ->]). apply negb_false_iff, int_within_spec in Hnext as (n & Hn & Hr).
  destruct (_check_identity_inv d () Hid) as (items & size & Hi & Hs & Hir & Hsr).
  unfold summary_from_state. destruct (py_eq _ _) eqn:Hdone; [|done]. fold (summary_of d).
  assert (item_cursor d = int_value (field "item_count" d)) as Hcur.
  { unfold item_cursor. rewrite Hn, Hi, Hs in *. rewrite py_eq_int in Hdone. cbn [int_value] in *.
    pose proof (chunk_count_covers items size ltac:(lia) ltac:(lia)).
    assert (n = chunk_count items size) as -> by lia. lia. }
  split; [done|]. rewrite Hcur in Hcounts. cbn [negb raise_when mbind outcome_bind]. unfold validate_summary.
  change (as_fields (VDict (summary_of d)) _ _) with (Ret (E := exn) (summary_of d)). cbn [mbind outcome_bind].
  change (raise_when (_ || _) _) with (Ret (E := exn) ()). cbn [mbind outcome_bind].
  change (_check_identity (summary_of d)) with (_check_identity d). rewrite Hid. cbn [mbind outcome_bind].
  change (field "chunk_count" (summary_of d)) with (field "next_chunk" d).
  change (field "item_count" (summary_of d)) with (field "item_count" d).
  change (field "chunk_size" (summary_of d)) with (field "chunk_size" d).
  change (field "prediction_counts" (summary_of d)) with (field "prediction_counts" d).
  by rewrite Hdone, Hcounts.
Qed.
End Summary.

(** ** Samples *)

Module Samples.
Import Inference Manifest Coverage Roundtrip Summary.

Definition sample_uuid (c : string) : string := "01890000-0000-7000-8000-00000000000" +:+ c.
Definition sample_digest (_ : string) : string := zeros 64.
Definition sample_checksum : string := "sha256:" +:+ zeros 64.
Definition sample_source (c : string) : Source :=
  {| so_attempt := sample_uuid "a"; so_fence := 3; so_artifact := sample_uuid c; so_size := 10; so_checksum := sample_checksum |}.
Definition sample_expected : Expected :=
  {| provenance := [("job_id", VStr "j"); ("fence", VInt 3)]; model_checksum := sample_checksum; item_count := 5; chunk_size := 4;
     output_format := "JSONL"; chunk_total := 2 |}.
Definition sample_entries : list (list (string * pyval)) :=
  match source_entries sample_expected "jsonl" "application/x-ndjson" [sample_source "1"; sample_source "2"] with
  | Ret es => es | Raise _ => [] end.
Definition sample_raw : string :=
  match build (λ _, "") 9 sample_digest (provenance sample_expected) sample_checksum (VDict <$> sample_entries) with
  | Ret raw => raw | Raise _ => "" end.

Lemma built_manifest_parses_witness :
  (600 < byte_len sample_raw) ∧
  parse (λ _, "") 9 9 sample_digest sample_raw sample_expected = Ret (List.map json_sorted (VDict <$> sample_entries)).
Proof.
  split; [by vm_compute|].
  assert (∀ c, fullmatch _UUID7 (sample_uuid c) = true → source_ok (sample_source c)) as Hok.
  { intros c Hc. unfold source_ok, MAX_CHUNK_FILE_BYTES. cbn [so_attempt so_fence so_artifact so_size so_checksum sample_source].
    split_and!; first [exact Hc|lia|by vm_compute]. }
  apply (built_manifest_parses sample_expected "jsonl" "application/x-ndjson" eq_refl eq_refl (λ _, "") 9 9 sample_digest
    ltac:(by vm_compute) ltac:(lia) ltac:(lia) ltac:(by vm_compute) eq_refl [sample_source "1"; sample_source "2"] sample_entries sample_raw).
  - repeat (apply Forall_cons; split; [apply Hok; by vm_compute|]). constructor.
  - by eapply bool_decide_eq_true_1; vm_compute.
  - done.
  - by vm_compute.
  - by vm_compute.
  - cbn. lia.
  - by vm_compute.
  - by vm_compute.
  - by vm_compute.
Defined.

Lemma accepted_manifest_covers_witness :
  ∃ chunks entries, parse (λ _, "") 9 9 sample_digest sample_raw sample_expected = Ret chunks ∧
    chunks = VDict <$> entries ∧ mjoin (items_of <$> entries) = [0; 1; 2; 3; 4].
Proof.
  eexists.
  destruct (accepted_manifest_covers (λ _, "") 9 9 sample_digest sample_raw sample_expected
    (List.map json_sorted (VDict <$> sample_entries))) as (entries & Hc & _ & Hi & _); [done|by vm_compute|].
  exists entries. split_and!; [by vm_compute|exact Hc|]. rewrite Hi. done.
Defined.

Definition sample_recognized : list (string * pyval) :=
  [("chunk_id", VStr (chunk_id 1)); ("start_index", VInt 4); ("end_index_exclusive", VInt 5);
   ("artifact_id", VStr (sample_uuid "1")); ("size_bytes", VInt 10); ("checksum", VStr sample_checksum);
   ("source_attempt_id", VStr (sample_uuid "a")); ("source_job_fence", VInt 3)].

Lemma carried_entry_accepted_witness :
  ∃ e artifact, carried_entry sample_recognized 1 5 4 "JSONL" = Ret e ∧ artifact = sample_uuid "1" ∧
    check_chunk sample_expected [] 1 (VDict e) = Ret [artifact].
Proof.
  destruct (carried_entry sample_recognized 1 5 4 "JSONL") as [e|] eqn:He; [|by vm_compute in He].
  destruct (carried_entry_accepted sample_expected "jsonl" "application/x-ndjson" 0 2 (VDict sample_recognized) []
    [sample_uuid "1"] 1 sample_recognized e []) as (artifact & Ha & H); [done|done|done|by vm_compute|done|].
  exists e, artifact. injection Ha as <-. split_and!; [done|done|]. apply H. set_solver.
Defined.

(** An integer of more than 4300 digits is refused with [int]'s own [ValueError]. *)
Example parse_digits_escape :
  parse (λ _, "") 9 9 sample_digest (String "1" (zeros 4300)) sample_expected = Raise int_too_long.
Proof. vm_compute. reflexivity. Qed.

(** [true] passes for the schema version. *)
Definition sample_state (version : pyval) : pyval :=
  VDict [("architecture_id", VStr ARCHITECTURE_ID); ("batch_size", VInt 1); ("chunk_size", VInt 4); ("format", VStr STATE_FORMAT);
         ("input_checksum", VStr sample_checksum); ("item_count", VInt 5); ("model_checksum", VStr sample_checksum);
         ("next_chunk", VInt 1); ("output_format", VStr "JSONL");
         ("prediction_counts", VList (VInt 4 :: replicate 9 (VInt 0))); ("schema_version", version);
         ("spec_checksum", VStr sample_checksum); ("threads", VInt 1)].
Example parse_state_version_true :
  VDict <$> parse_state (λ _, "") 9 9 (dumps json_raw_string (λ _, "") (sample_state (VBool true)))
  = Ret (sample_state (VBool true)).
Proof. vm_compute. reflexivity. Qed.
End Samples.
