(* ===== verification/Safetensors.v ===== *)
(** * The safetensors container

    [src/nexa/workloads/safetensors_format.py]: the strict header parser the runner and
    the server use, and the deterministic writer of the workloads.  A file is the
    length of its header, the header (JSON, padded with spaces) and the data.  The
    tensors of an accepted header tile the data, and a written file is read back. *)

From Stdlib Require Import Ascii.
From stdpp Require Import pretty.
From S2P Require Import Prelude PyValue Json Strict.

Local Open Scope string_scope.
Local Open Scope list_scope.
Local Open Scope Z_scope.

Definition SafetensorsError (message : string) : exn := Exn "SafetensorsError" message.

Definition DTYPE_SIZES : list (string * Z) := [("U8", 1); ("U32", 4); ("I64", 8); ("F32", 4)].
Definition MAX_HEADER_BYTES : Z := 1024 * 1024.
Definition MAX_TENSORS : Z := 256.
Definition name_char : regex := Chars (λ c, range "A" "Z" c || range "a" "z" c || range "0" "9" c
  || Ascii.eqb c "_" || Ascii.eqb c "." || Ascii.eqb c "-").
Definition key_char : regex := Chars (λ c, range "a" "z" c || range "0" "9" c
  || Ascii.eqb c "_" || Ascii.eqb c "." || Ascii.eqb c "-").
Definition _NAME : regex := cat name_char (upto 127 name_char).
Definition _METADATA_KEY : regex := cat key_char (upto 63 key_char).
Definition _MAX_METADATA_VALUE : Z := 16 * 1024.

Record TensorInfo := { tensor_name : string; dtype : string; shape : list Z; begin : Z; stop : Z }.

(** Dicts keep their order. *)
Record Header := {
  tensors : list (string * TensorInfo);
  metadata : list (string * string);
  data_start : Z;
  data_length : Z;
}.
Definition total_size (h : Header) : Z := data_start h + data_length h.

Definition _element_count (shape : list Z) : Z := foldr Z.mul 1 shape.

(** [struct.unpack("<Q", b)] and [struct.pack("<Q", n)]. *)
Fixpoint le_value (s : string) : Z := match s with "" => 0 | String c s => ord c + 256 * le_value s end.
Fixpoint le_bytes (width : nat) (n : Z) : string :=
  match width with O => "" | S width => String (asc (n mod 256)) (le_bytes width (n / 256)) end.

Definition pack_u64 (n : Z) : outcome exn string :=
  if n <? 2 ^ 64 then Ret (le_bytes 8 n) else Raise (Exn "struct.error" "argument out of range").

(** [s[a:b]] for [0 <= a <= b]. *)
Definition slice (a b : Z) (s : string) : string := String.substring (Z.to_nat a) (Z.to_nat (b - a)) s.

Definition hooks : Hooks := {|
  object_pairs := unique_pairs (SafetensorsError "duplicate header key");
  parse_float := parse_float default_hooks;
  parse_int := parse_int default_hooks;
  parse_constant := λ value, Raise (SafetensorsError ("invalid JSON constant " +:+ value));
|}.

Definition valid_metadata (v : pyval) : bool :=
  match v with
  | VDict d => forallb (λ '(key, value), fullmatch _METADATA_KEY key
                 && match value with VStr s => py_len s <=? _MAX_METADATA_VALUE | _ => false end) d
  | _ => false
  end.
Definition str_value (v : pyval) : string := match v with VStr s => s | _ => "" end.
Definition metadata_of (v : pyval) : list (string * string) :=
  match v with VDict d => List.map (λ '(k, v), (k, str_value v)) d | _ => [] end.

(** The body of the loop over the tensor entries. *)
Definition read_tensor (name : string) (entry : pyval) : outcome exn TensorInfo :=
  _ ← raise_when (negb (fullmatch _NAME name)) (SafetensorsError "tensor name is not allowlisted");
  d ← as_fields entry ["dtype"; "shape"; "data_offsets"] (SafetensorsError "tensor entry fields are not closed");
  '(kind, size) ← or_raise (match field "dtype" d with
                            | VStr s => size ← dict_get s DTYPE_SIZES; Some (s, size)
                            | _ => None
                            end) (SafetensorsError "tensor dtype is not allowlisted");
  dims ← or_raise (match field "shape" d with
                   | VList l => if (Z.of_nat (length l) <=? 8) && forallb (int_within 1 (2 ^ 31)) l
                                then Some (List.map int_value l) else None
                   | _ => None
                   end) (SafetensorsError "tensor shape is invalid");
  '(b, e) ← or_raise (match field "data_offsets" d with
                      | VList [VInt b; VInt e] => if (0 <=? b) && (0 <=? e) then Some (b, e) else None
                      | _ => None
                      end) (SafetensorsError "tensor offsets are invalid");
  _ ← raise_when (negb (e - b =? _element_count dims * size))
        (SafetensorsError "tensor byte length does not match its shape");
  Ret {| tensor_name := name; dtype := kind; shape := dims; begin := b; stop := e |}.

(** [(a.begin, a.end) <= (b.begin, b.end)] *)
Definition before (a b : TensorInfo) : bool :=
  (begin a <? begin b) || ((begin a =? begin b) && (stop a <=? stop b)).

Section file.
Context (limit : nat).

Definition parse_header (prefix : string) (size : Z) : outcome exn Header :=
  _ ← raise_when (byte_len prefix <? 8) (SafetensorsError "file is shorter than the header length field");
  let length := le_value (slice 0 8 prefix) in
  _ ← raise_when ((length <? 2) || (MAX_HEADER_BYTES <? length) || (size <? 8 + length))
        (SafetensorsError "header length is out of bounds");
  _ ← raise_when (byte_len prefix <? 8 + length) (SafetensorsError "header is truncated");
  document ← except ("RecursionError" :: value_errors)
    (text ← decode_utf8 (slice 8 (8 + length) prefix); loads hooks limit text)
    (λ _, Raise (SafetensorsError "header is not strict UTF-8 JSON"));
  d ← or_raise (match document with VDict d => Some d | _ => None end) (SafetensorsError "header must be a JSON object");
  let meta := default (VDict []) (dict_get "__metadata__" d) in
  let entries := dict_del "__metadata__" d in
  _ ← raise_when (negb (valid_metadata meta)) (SafetensorsError "header metadata must map short keys to strings");
  _ ← raise_when (negb (between 1 (Z.of_nat (List.length entries)) MAX_TENSORS))
        (SafetensorsError "tensor count is out of bounds");
  infos ← mapM (λ '(name, entry), info ← read_tensor name entry; Ret (name, info)) entries;
  cursor ← for_each (py_sorted before (List.map snd infos)) (λ cursor info,
    if begin info =? cursor then Ret (stop info) else Raise (SafetensorsError "tensor data is not contiguous")) 0;
  _ ← raise_when (negb (8 + length + cursor =? size)) (SafetensorsError "data buffer length does not match the header");
  Ret {| tensors := infos; metadata := metadata_of meta; data_start := 8 + length; data_length := cursor |}.

Definition decode (raw : string) : outcome exn (Header * list (string * string)) :=
  header ← parse_header raw (byte_len raw);
  let start := data_start header in
  Ret (header, List.map (λ '(name, info), (name, slice (start + begin info) (start + stop info) raw)) (tensors header)).

(** Only the header of the file is read. *)
Definition read_header (contents : string) : outcome exn Header :=
  let prefix := slice 0 8 contents in
  let prefix :=
    if byte_len prefix =? 8 then
      let length := le_value prefix in
      if length <=? MAX_HEADER_BYTES then prefix +:+ slice 8 (8 + length) contents else prefix
    else prefix in
  parse_header prefix (byte_len contents).

Record Tensor := { t_dtype : string; t_shape : list Z; t_data : string }.

(** The header entry and the data of one tensor, at the next offset. *)
Definition place : list (string * pyval) * string * Z → string * Tensor → outcome exn (list (string * pyval) * string * Z) :=
  λ '(header, data, offset) '(name, t),
    match dict_get (t_dtype t) DTYPE_SIZES with
    | Some size =>
        if byte_len (t_data t) =? _element_count (t_shape t) * size then
          let stop := offset + byte_len (t_data t) in
          Ret (dict_set name (VDict [("dtype", VStr (t_dtype t)); ("shape", VList (List.map VInt (t_shape t)));
                                     ("data_offsets", VList [VInt offset; VInt stop])]) header,
               data +:+ t_data t, stop)
        else Raise (SafetensorsError ("tensor " +:+ name +:+ " bytes do not match dtype/shape"))
    | None => Raise (SafetensorsError ("tensor " +:+ name +:+ " bytes do not match dtype/shape"))
    end.

Fixpoint spaces (n : nat) : string := match n with O => "" | S n => String " " (spaces n) end.

Definition encode (ts : list (string * Tensor)) (meta : list (string * string)) : outcome exn string :=
  '(header, data, _) ← for_each (py_sorted (λ a b, String.leb a.1 b.1) ts) place ([], "", 0);
  let header := match meta with
                | [] => header
                | _ => dict_set "__metadata__" (VDict (List.map (λ '(k, v), (k, VStr v)) meta)) header
                end in
  let text := json_dumps (λ _, "") (json_sorted (VDict header)) in
  encoded ← (if is_ascii text then Ret text else Raise UnicodeEncodeError);
  let encoded := encoded +:+ spaces (Z.to_nat ((- (8 + byte_len encoded)) mod 8)) in
  packed ← pack_u64 (byte_len encoded);
  let raw := packed +:+ encoded +:+ data in
  _ ← parse_header raw (byte_len raw);
  Ret raw.

(** The tensors of a file, as the writer takes them. *)
Definition tensor_of (datas : list (string * string)) (name : string) (info : TensorInfo) : Tensor :=
  {| t_dtype := dtype info; t_shape := shape info; t_data := default "" (dict_get name datas) |}.

Definition subset (raw : string) (names : list string) (meta : list (string * string)) : outcome exn string :=
  '(_, datas) ← decode raw;
  header ← parse_header raw (byte_len raw);
  _ ← raise_when (existsb (λ name, negb (dict_mem name datas)) names) (SafetensorsError "requested tensors are absent");
  chosen ← mapM (λ name, info ← or_raise (dict_get name (tensors header)) (Exn "KeyError" "");
                         Ret (name, tensor_of datas name info)) names;
  encode (dict_of chosen) meta.

Definition select_prefix (raw prefix : string) (meta : list (string * string)) : outcome exn string :=
  '(header, datas) ← decode raw;
  let selected := dict_of (omap (λ '(name, info),
    rest ← strip_prefix prefix name; Some (rest, tensor_of datas name info)) (tensors header)) in
  _ ← raise_when (match selected with [] => true | _ => false end) (SafetensorsError "requested tensors are absent");
  encode selected meta.
End file.

(** ** Accepted headers *)

(** The bytes of a tensor in the data. *)
Definition extent (info : TensorInfo) : list Z := seqZ (begin info) (stop info - begin info).

Lemma contiguous_tiles infos start cursor :
  for_each infos (λ cursor info,
    if begin info =? cursor then Ret (stop info) else Raise (SafetensorsError "tensor data is not contiguous")) start = Ret cursor →
  Forall (λ info, begin info ≤ stop info) infos → 0 ≤ start →
  start ≤ cursor ∧ mjoin (extent <$> infos) = seqZ start (cursor - start).
Proof.
  revert start. induction infos as [|i infos IH]; intros start H Hw Hs; cbn [for_each] in H.
  - injection H as <-. split; [lia|]. rewrite seqZ_nil by lia. done.
  - apply Forall_cons in Hw as [Hi Hw]. destruct (Z.eqb_spec (begin i) start) as [Hb|]; [|done]. cbn [mbind outcome_bind] in H.
    destruct (IH (stop i) H Hw) as [Hle Heq]; [lia|]. split; [lia|].
    change (mjoin (extent <$> i :: infos)) with (extent i ++ mjoin (extent <$> infos)). unfold extent at 1. rewrite Heq, Hb. replace (cursor - start) with ((stop i - start) + (cursor - stop i)) by lia.
    rewrite seqZ_app by lia. by replace (start + (stop i - start)) with (stop i) by lia.
Qed.

Lemma element_count_nonneg dims : Forall (λ n, 1 ≤ n) dims → 1 ≤ _element_count dims.
Proof. unfold _element_count. induction 1 as [|n dims Hn _ IH]; cbn [foldr]; [lia|]. nia. Qed.

(** What was checked of one tensor. *)
Definition tensor_ok (info : TensorInfo) : Prop :=
  ∃ size, dict_get (dtype info) DTYPE_SIZES = Some size ∧ 0 ≤ begin info ∧ Forall (λ n, 1 ≤ n ≤ 2 ^ 31) (shape info) ∧
    stop info - begin info = _element_count (shape info) * size.

Lemma dtype_size_pos k size : dict_get k DTYPE_SIZES = Some size → 1 ≤ size.
Proof. unfold DTYPE_SIZES. cbn. repeat case_decide; intros; simplify_eq; lia. Qed.

Lemma tensor_ok_forward info : tensor_ok info → begin info ≤ stop info.
Proof.
  intros (size & Hd & Hb & Hs & He). apply dtype_size_pos in Hd.
  assert (1 ≤ _element_count (shape info)); [|nia]. apply element_count_nonneg.
  eapply Forall_impl; [exact Hs|]. cbn. lia.
Qed.

Lemma read_tensor_ok name entry info : read_tensor name entry = Ret info → tensor_ok info ∧ tensor_name info = name.
Proof.
  intros H. unfold read_tensor in H. apply bind_Ret in H as (? & _ & H). apply bind_Ret in H as (d & _ & H).
  apply bind_Ret in H as ([kind size] & Hk%or_raise_Ret & H). apply bind_Ret in H as (dims & Hd%or_raise_Ret & H).
  apply bind_Ret in H as ([b e] & Ho%or_raise_Ret & H). apply bind_Ret in H as (? & Hl%raise_when_Ret & [= <-]).
  split; [|done]. exists size. cbn. split_and!.
  - destruct (field "dtype" d) as [| | | |s| |]; try done. destruct (dict_get s DTYPE_SIZES) as [z|] eqn:Hz; [|done].
    cbn in Hk. injection Hk as <- <-. done.
  - repeat case_match; simplify_eq. bool_simpl. lia.
  - destruct (field "shape" d) as [| | | | |l|]; try done. destruct (_ && _) eqn:Hb; [|done]. injection Hd as <-.
    apply andb_true_iff in Hb as [_ Hb]. rewrite forallb_forall in Hb. apply Forall_map, Forall_forall. intros v Hv.
    apply list_elem_of_In, Hb, int_within_spec in Hv as (n & -> & Hn). done.
  - apply negb_false_iff, Z.eqb_eq in Hl. done.
Qed.

Lemma mapM_Forall {E A B} (f : A → outcome E B) (P : A → B → Prop) xs ys :
  mapM f xs = Ret ys → (∀ x y, f x = Ret y → P x y) → Forall2 P xs ys.
Proof.
  intros H HP. revert ys H. induction xs as [|x xs IH]; intros ys H; [injection H as <-; constructor|].
  cbn in H. apply bind_Ret in H as (y & Hy & H). apply bind_Ret in H as (ys' & Hys & [= <-]). constructor; eauto.
Qed.

Lemma dict_del_keys {V} k (d : list (string * V)) k' : k' ∈ (dict_del k d).*1 → k' ∈ d.*1.
Proof. induction d as [|[k0 v] d IH]; cbn; [done|]. case_decide; cbn; set_solver. Qed.
Lemma dict_del_NoDup {V} k (d : list (string * V)) : NoDup d.*1 → NoDup (dict_del k d).*1.
Proof.
  induction d as [|[k0 v] d IH]; cbn; [done|]. intros [Hk Hd]%NoDup_cons. case_decide; [done|].
  cbn. apply NoDup_cons. split; [|by apply IH]. intros Hin. by apply Hk, (dict_del_keys k).
Qed.

Definition distinct_keys (v : pyval) : Prop := match v with VDict d => NoDup d.*1 | _ => True end.
Definition known_error (e : exn) : Prop :=
  exn_class e ∈ ["SafetensorsError"; "JSONDecodeError"; "RecursionError"; "ValueError"].

Lemma loads_hooks_good limit text : good known_error distinct_keys (loads hooks limit text).
Proof.
  unfold known_error. apply (loads_good _ _ _ (String.length text)); try done.
  - set_solver.
  - set_solver.
  - intros ps _. cbn. rewrite unique_pairs_spec. case_bool_decide; cbn; [done|set_solver].
  - intros value. cbn. set_solver.
  - intros t _. cbn. unfold py_int. destruct (split_sign t). destruct (4300 <? _); cbn; [set_solver|done].
Qed.

(** The tensors of an accepted header tile the data.  Every byte of the data belongs to
    exactly one tensor, every tensor has the bytes its type and shape need, the names
    are distinct, and header and data make up the file. *)
Theorem accepted_header_tiles limit prefix size header :
  parse_header limit prefix size = Ret header →
  mjoin (extent ∘ snd <$> tensors header) ≡ₚ seqZ 0 (data_length header) ∧
  Forall (tensor_ok ∘ snd) (tensors header) ∧ total_size header = size ∧ NoDup (tensors header).*1.
Proof.
  intros H. unfold parse_header in H. do 3 (apply bind_Ret in H as (? & _ & H)).
  apply bind_Ret in H as (document & Hdoc & H). apply bind_Ret in H as (d & Hd%or_raise_Ret & H).
  do 2 (apply bind_Ret in H as (? & _ & H)). apply bind_Ret in H as (infos & Hi & H).
  apply bind_Ret in H as (cursor & Hc & H). apply bind_Ret in H as (? & Hs%raise_when_Ret & [= <-]). cbn [tensors data_length].
  assert (Forall2 (λ x y, tensor_ok y.2 ∧ x.1 = y.1) (dict_del "__metadata__" d) infos) as Hall.
  { eapply mapM_Forall; [exact Hi|]. intros [name entry] [name' info] Ht. apply bind_Ret in Ht as (i & Ht & [= <- <-]).
    apply read_tensor_ok in Ht as [Ht _]. done. }
  assert (Forall (tensor_ok ∘ snd) infos) as Hok.
  { clear -Hall. induction Hall as [|x y xs ys [Hy _] _ IH]; constructor; [done|apply IH]. }
  assert ((dict_del "__metadata__" d).*1 = infos.*1) as Hkeys.
  { clear -Hall. induction Hall as [|x y xs ys [_ Hy] _ IH]; [done|]. cbn. by rewrite Hy, IH. }
  split_and!; [|done| |].
  - destruct (contiguous_tiles _ 0 cursor Hc) as [Hle Heq]; [|lia|].
    { rewrite py_sorted_perm. apply Forall_map. eapply Forall_impl; [exact Hok|]. intros [? i] Hi'. by apply tensor_ok_forward. }
    rewrite Z.sub_0_r in Heq. rewrite <- Heq, py_sorted_perm, list_fmap_compose. done.
  - apply negb_false_iff, Z.eqb_eq in Hs. done.
  - rewrite <- Hkeys. unfold except in Hdoc. pose proof (loads_hooks_good limit (slice 8 (8 + le_value (slice 0 8 prefix)) prefix)) as Hg.
    unfold decode_utf8 in Hdoc. destruct (utf8_valid _); cbn [mbind outcome_bind] in Hdoc; [|by case_bool_decide].
    destruct (loads hooks limit _) as [v|e]; [|by case_bool_decide]. injection Hdoc as ->.
    destruct document; try done. injection Hd as ->. cbn in Hg. by apply dict_del_NoDup.
Qed.

(** Reading a header fails with [SafetensorsError] and with nothing else. *)
Theorem parse_header_errors limit prefix size e :
  parse_header limit prefix size = Raise e → exn_class e = "SafetensorsError".
Proof.
  cut (good (λ e, exn_class e = "SafetensorsError") (λ _, True) (parse_header limit prefix size)).
  { intros Hg H. by rewrite H in Hg. }
  unfold parse_header. do 3 (eapply good_bind; [by apply good_raise_when|intros ? _]).
  eapply good_bind.
  { eapply (except_good (λ _, True) (λ e, known_error e ∨ exn_class e = "UnicodeDecodeError")).
    - unfold decode_utf8. destruct (utf8_valid _); [|by right]. cbn [mbind outcome_bind].
      pose proof (loads_hooks_good limit (slice 8 (8 + le_value (slice 0 8 prefix)) prefix)) as Hg.
      destruct (loads _ _ _); [done|by left].
    - done.
    - unfold known_error, value_errors. set_solver. }
  intros document _. eapply (good_bind _ (λ _, True)); [by destruct document|]. intros d _.
  do 2 (eapply good_bind; [by apply good_raise_when|intros ? _]).
  eapply (good_bind _ (λ _, True)).
  { induction (dict_del _ d) as [|[name entry] entries IH]; [done|]. cbn [mapM].
    eapply (good_bind _ (λ _, True)); [|intros ? _; by eapply good_bind; [exact IH|]].
    eapply (good_bind _ (λ _, True)); [|done]. unfold read_tensor.
    eapply good_bind; [by apply good_raise_when|intros ? _].
    eapply (good_bind _ (λ _, True)); [by unfold as_fields; repeat case_match|intros e' _].
    eapply (good_bind _ (λ _, True)); [by unfold or_raise; repeat case_match|intros [] _].
    eapply (good_bind _ (λ _, True)); [by unfold or_raise; repeat case_match|intros dims _].
    eapply (good_bind _ (λ _, True)); [by unfold or_raise; repeat case_match|intros [] _].
    eapply good_bind; [by apply good_raise_when|done]. }
  intros infos _. eapply (good_bind _ (λ _, True)).
  { generalize 0. induction (py_sorted before _) as [|i infs IH]; intros c; [done|]. cbn [for_each].
    destruct (begin i =? c); [apply IH|done]. }
  intros cursor _. eapply good_bind; [by apply good_raise_when|done].
Qed.

(** ** A written file is read back *)

Lemma substring_prefix x y m : String.substring 0 (String.length x + m) (x +:+ y) = x +:+ String.substring 0 m y.
Proof. induction x as [|c x IH]; rewrite ?str_nil, ?str_cons; cbn; [done|]. by rewrite IH. Qed.
Lemma substring_skip x y n m : String.substring (String.length x + n) m (x +:+ y) = String.substring n m y.
Proof. induction x as [|c x IH]; rewrite ?str_nil, ?str_cons; cbn; [done|]. apply IH. Qed.
Lemma substring_0 y : String.substring 0 0 y = "".
Proof. by destruct y. Qed.

Lemma slice_middle x y z a b : a = byte_len x → b = a + byte_len y → slice a b (x +:+ y +:+ z) = y.
Proof.
  unfold byte_len. intros -> ->. unfold slice. rewrite Nat2Z.id. replace (Z.of_nat (String.length x) + _ - _) with (Z.of_nat (String.length y)) by lia.
  rewrite Nat2Z.id. rewrite <- (Nat.add_0_r (String.length x)), substring_skip.
  rewrite <- (Nat.add_0_r (String.length y)), substring_prefix, substring_0. apply str_nil_r.
Qed.

Lemma ord_asc n : 0 ≤ n < 256 → ord (asc n) = n.
Proof. intros Hn. unfold ord, asc. rewrite nat_ascii_embedding by lia. lia. Qed.

Lemma le_round_trip width n : 0 ≤ n < 256 ^ Z.of_nat width → le_value (le_bytes width n) = n.
Proof.
  revert n. induction width as [|width IH]; intros n Hn; [cbn in *; lia|]. cbn [le_bytes le_value].
  rewrite Nat2Z.inj_succ, Z.pow_succ_r in Hn by lia.
  rewrite ord_asc by (apply Z.mod_pos_bound; lia). rewrite IH.
  - pose proof (Z.div_mod n 256). lia.
  - split; [apply Z.div_pos; lia|apply Z.div_lt_upper_bound; lia].
Qed.
Lemma le_bytes_length width n : String.length (le_bytes width n) = width.
Proof. revert n. induction width as [|width IH]; intros n; [done|]. cbn. by rewrite IH. Qed.

(** The header entry of a tensor at an offset. *)
Definition entry_at (offset : Z) (t : Tensor) : pyval :=
  VDict [("dtype", VStr (t_dtype t)); ("shape", VList (List.map VInt (t_shape t)));
         ("data_offsets", VList [VInt offset; VInt (offset + byte_len (t_data t))])].

Lemma place_inv header data offset name t header' data' offset' :
  place (header, data, offset) (name, t) = Ret (header', data', offset') →
  header' = dict_set name (entry_at offset t) header ∧ data' = data +:+ t_data t ∧
  offset' = offset + byte_len (t_data t) ∧ is_Some (dict_get (t_dtype t) DTYPE_SIZES).
Proof.
  unfold place. intros H. destruct (dict_get (t_dtype t) DTYPE_SIZES) as [size|]; [|done].
  destruct (_ =? _); [|done]. by injection H as <- <- <-.
Qed.

Lemma byte_len_app s t : byte_len (s +:+ t) = byte_len s + byte_len t.
Proof. unfold byte_len. rewrite str_length. lia. Qed.

Lemma layout_spec ts header data offset header' data' offset' :
  for_each ts place (header, data, offset) = Ret (header', data', offset') →
  NoDup (header.*1 ++ ts.*1) → offset = byte_len data →
  header'.*1 = header.*1 ++ ts.*1 ∧ (∃ more, data' = data +:+ more) ∧
  (∀ k, k ∈ header.*1 → dict_get k header' = dict_get k header) ∧
  (∀ name t, (name, t) ∈ ts → ∃ front back, data' = front +:+ t_data t +:+ back ∧
     dict_get name header' = Some (entry_at (byte_len front) t) ∧ is_Some (dict_get (t_dtype t) DTYPE_SIZES)).
Proof.
  revert header data offset. induction ts as [|[name t] ts IH]; intros header data offset H Hnd Hoff.
  { injection H as <- <- <-. rewrite app_nil_r. split_and!; [done|by exists ""; rewrite str_nil_r|done|set_solver]. }
  cbn [for_each] in H. apply bind_Ret in H as ([[h1 d1] o1] & H1 & H). apply place_inv in H1 as (-> & -> & -> & Hdt).
  assert (name ∉ header.*1) as Hnew.
  { apply NoDup_app in Hnd as (_ & Hnd & _). intros Hin. apply (Hnd _ Hin). left. }
  assert (h1' : (dict_set name (entry_at offset t) header).*1 = header.*1 ++ [name]).
  { by rewrite dict_set_fresh, fmap_app. }
  apply IH in H as (Hk & [more Hmore] & Hold & Hall); [|rewrite h1', <- app_assoc; exact Hnd|by rewrite byte_len_app, Hoff].
  rewrite h1', <- app_assoc in Hk. split_and!; [exact Hk| | |].
  - exists (t_data t +:+ more). by rewrite Hmore, str_assoc.
  - intros k Hin. rewrite Hold by (rewrite h1'; set_solver). apply dict_get_set_ne. set_solver.
  - intros name' t' [[= -> ->]|Hin]%elem_of_cons; [|by apply Hall].
    exists data, more. split_and!; [by rewrite Hmore, str_assoc| |done]. rewrite Hold by (rewrite h1'; set_solver).
    by rewrite dict_get_set_eq, Hoff.
Qed.

Definition full_header (header : list (string * pyval)) (meta : list (string * string)) : list (string * pyval) :=
  match meta with
  | [] => header
  | _ => dict_set "__metadata__" (VDict (List.map (λ '(k, v), (k, VStr v)) meta)) header
  end.
Definition padded_text (header : list (string * pyval)) : string :=
  let text := json_dumps (λ _, "") (json_sorted (VDict header)) in
  text +:+ spaces (Z.to_nat ((- (8 + byte_len text)) mod 8)).

Lemma encode_inv limit ts meta raw : encode limit ts meta = Ret raw → ∃ header data offset h,
  for_each (py_sorted (λ a b, String.leb a.1 b.1) ts) place ([], "", 0) = Ret (header, data, offset) ∧
  raw = le_bytes 8 (byte_len (padded_text (full_header header meta))) +:+ padded_text (full_header header meta) +:+ data ∧
  byte_len (padded_text (full_header header meta)) < 2 ^ 64 ∧ parse_header limit raw (byte_len raw) = Ret h.
Proof.
  intros H. unfold encode in H. apply bind_Ret in H as ([[header data] offset] & Hl & H). fold (full_header header meta) in H.
  apply bind_Ret in H as (text & Ht & H). destruct (is_ascii _); [|done].
  assert (text = json_dumps (λ _, "") (json_sorted (VDict (full_header header meta)))) as -> by congruence.
  fold (padded_text (full_header header meta)) in H. apply bind_Ret in H as (packed & Hp & H). unfold pack_u64 in Hp.
  destruct (Z.ltb_spec (byte_len (padded_text (full_header header meta))) (2 ^ 64)); [|done].
  assert (packed = le_bytes 8 (byte_len (padded_text (full_header header meta)))) as -> by congruence.
  apply bind_Ret in H as (h & Hh & H). match type of H with Ret ?r = _ => assert (raw = r) as -> by congruence end.
  by exists header, data, offset, h.
Qed.

Lemma skip_spaces n : skip_ws (spaces n) = "" ∧ delimited (spaces n) = true.
Proof. split; [|by destruct n]. induction n as [|n IH]; [done|]. exact IH. Qed.

Lemma spaces_ascii n : is_ascii (spaces n) = true.
Proof. by induction n. Qed.

Lemma header_hooks_int n : safe_int n = true → parse_int hooks (pretty n) = Ret (VInt n).
Proof. intros Hn. cbn. by rewrite py_int_pretty by (by apply safe_short). Qed.
Lemma header_hooks_pairs ps : NoDup ps.*1 → object_pairs hooks ps = Ret (VDict ps).
Proof. intros Hps. cbn. by rewrite unique_pairs_spec, bool_decide_eq_true_2. Qed.

(** The header that is read is the one that was written. *)
Lemma parse_header_read limit header data h :
  let encoded := padded_text header in
  byte_len encoded < 2 ^ 64 → printable is_ascii safe_int (VDict header) = true → (vdepth (VDict header) ≤ limit)%nat →
  parse_header limit (le_bytes 8 (byte_len encoded) +:+ encoded +:+ data)
    (byte_len (le_bytes 8 (byte_len encoded) +:+ encoded +:+ data)) = Ret h →
  mapM (λ '(name, entry), info ← read_tensor name entry; Ret (name, info)) (dict_del "__metadata__" (sorted_dict header))
    = Ret (tensors h) ∧
  metadata h = metadata_of (default (VDict []) (dict_get "__metadata__" (sorted_dict header))) ∧
  data_start h = 8 + byte_len encoded.
Proof.
  intros encoded Hlen Hp Hd H. unfold parse_header in H.
  assert (0 ≤ byte_len encoded) as H0 by (unfold byte_len; lia).
  assert (le_value (slice 0 8 (le_bytes 8 (byte_len encoded) +:+ encoded +:+ data)) = byte_len encoded) as Hle.
  { rewrite <- (str_nil (le_bytes 8 _ +:+ _)), (slice_middle "" (le_bytes 8 (byte_len encoded)) (encoded +:+ data)); [|done|].
    - apply le_round_trip. change (256 ^ Z.of_nat 8) with (2 ^ 64). lia.
    - unfold byte_len. by rewrite le_bytes_length. }
  rewrite Hle in H. rewrite (slice_middle (le_bytes 8 (byte_len encoded)) encoded data) in H;
    [|unfold byte_len; by rewrite le_bytes_length|done].
  assert (is_ascii encoded = true) as Hascii.
  { unfold encoded, padded_text. rewrite is_ascii_app, spaces_ascii, andb_true_r. eapply json_dumps_ascii. by rewrite printable_sorted. }
  do 3 (apply bind_Ret in H as (? & _ & H)). unfold decode_utf8 in H. rewrite (is_ascii_utf8 _ Hascii) in H.
  cbn [mbind outcome_bind] in H.
  assert (loads hooks limit encoded = Ret (json_sorted (VDict header))) as Hload.
  { unfold encoded, padded_text, json_dumps.
    apply (loads_print_ws hooks json_string (λ _, "") is_ascii safe_int quotes_ascii header_hooks_int header_hooks_pairs);
      [by rewrite printable_sorted|by rewrite vdepth_sorted|apply skip_spaces..]. }
  rewrite Hload in H. cbn [except mbind outcome_bind] in H. rewrite json_sorted_dict in H. cbn [or_raise mbind outcome_bind] in H.
  do 2 (apply bind_Ret in H as (? & _ & H)). apply bind_Ret in H as (infos & Hi & H).
  do 2 (apply bind_Ret in H as (? & _ & H)). by injection H as <-.
Qed.

Lemma name_simple s : fullmatch _NAME s = true → all_chars simple_char s = true.
Proof. apply fullmatch_chars. by vm_compute. Qed.

Lemma entry_at_printable offset t : 0 ≤ offset → offset + byte_len (t_data t) ≤ _MAX_SAFE_INTEGER →
  Forall (λ n, 1 ≤ n ≤ 2 ^ 31) (t_shape t) → is_Some (dict_get (t_dtype t) DTYPE_SIZES) →
  printable is_ascii safe_int (entry_at offset t) = true ∧ (vdepth (entry_at offset t) ≤ 2)%nat.
Proof.
  intros Ho Hs Hd Hk. assert (0 ≤ byte_len (t_data t)) by (unfold byte_len; lia).
  assert (is_ascii (t_dtype t) = true) as Ha.
  { apply dict_get_keys in Hk. cbn in Hk. repeat (apply elem_of_cons in Hk as [->|Hk]; [done|]). set_solver. }
  assert (∀ n, 0 ≤ n ≤ _MAX_SAFE_INTEGER → safe_int n = true) as Hsafe by (intros; unfold safe_int; lia).
  split.
  - unfold entry_at. cbn [printable]. apply andb_true_iff. split; [by vm_compute|].
    cbn [forallb printable]. rewrite Ha, (Hsafe offset), (Hsafe (offset + byte_len (t_data t))) by lia. cbn [andb].
    change (is_ascii "shape") with true. change (is_ascii "dtype") with true. change (is_ascii "data_offsets") with true.
    rewrite !andb_true_r. cbn [andb]. apply forallb_forall. intros v Hv. apply in_map_iff in Hv as (n & <- & Hn%list_elem_of_In).
    rewrite Forall_forall in Hd. specialize (Hd n Hn). apply Hsafe. unfold _MAX_SAFE_INTEGER. lia.
  - cbn. assert (foldr (λ v n, vdepth v `max` n)%nat 0%nat (List.map VInt (t_shape t)) = 0%nat) as ->; [|lia].
    clear. induction (t_shape t) as [|n l IH]; [done|]. cbn. exact IH.
Qed.

Lemma read_entry_at name offset t info : read_tensor name (json_sorted (entry_at offset t)) = Ret info →
  info = {| tensor_name := name; dtype := t_dtype t; shape := t_shape t; begin := offset; stop := offset + byte_len (t_data t) |}.
Proof.
  intros H. unfold read_tensor in H. apply bind_Ret in H as (? & _ & H).
  change (json_sorted (entry_at offset t)) with (VDict
    [("data_offsets", VList [VInt offset; VInt (offset + byte_len (t_data t))]); ("dtype", VStr (t_dtype t));
     ("shape", VList (List.map json_sorted (List.map VInt (t_shape t))))]) in H.
  apply bind_Ret in H as (d & [[= <-] _]%as_fields_Ret & H).
  change (field "dtype" _) with (VStr (t_dtype t)) in H.
  change (field "shape" _) with (VList (List.map json_sorted (List.map VInt (t_shape t)))) in H.
  change (field "data_offsets" _) with (VList [VInt offset; VInt (offset + byte_len (t_data t))]) in H.
  apply bind_Ret in H as ([k size] & Hk%or_raise_Ret & H). apply bind_Ret in H as (dims & Hd%or_raise_Ret & H).
  apply bind_Ret in H as ([b e] & Ho%or_raise_Ret & H). apply bind_Ret in H as (? & _ & [= <-]).
  destruct (dict_get (t_dtype t) DTYPE_SIZES); [|done]. cbn in Hk. injection Hk as <- <-.
  destruct (_ && _) in Hd; [|done]. injection Hd as <-. destruct (_ && _) in Ho; [|done]. injection Ho as <- <-.
  f_equal. rewrite !map_map. cbn. apply map_id.
Qed.

Lemma mapM_named_get {A} (f : string → pyval → outcome exn A) l l' :
  mapM (λ '(name, entry), info ← f name entry; Ret (name, info)) l = Ret l' →
  l'.*1 = l.*1 ∧ ∀ name entry, dict_get name l = Some entry → ∃ info, f name entry = Ret info ∧ dict_get name l' = Some info.
Proof.
  revert l'. induction l as [|[k e] l IH]; intros l' H; [injection H as <-; by split|].
  cbn [mapM] in H. apply bind_Ret in H as ([k' i] & Hi & H). apply bind_Ret in H as (l1 & Hl & [= <-]).
  apply bind_Ret in Hi as (i' & Hi & [= <- <-]). destruct (IH _ Hl) as [Hk Hget]. split; [by cbn; rewrite Hk|].
  intros name entry. cbn. case_decide; [intros [= <-]; subst; eauto|apply Hget].
Qed.

Lemma dict_get_del {V} k k' (d : list (string * V)) : k ≠ k' → dict_get k (dict_del k' d) = dict_get k d.
Proof. intros Hk. induction d as [|[k0 v] d IH]; [done|]. cbn. repeat case_decide; cbn; repeat case_decide; congruence. Qed.
Lemma dict_del_elem {V} k k' (d : list (string * V)) : NoDup d.*1 → k' ∈ (dict_del k d).*1 ↔ k' ∈ d.*1 ∧ k' ≠ k.
Proof.
  induction d as [|[k0 v] d IH]; cbn; [set_solver|]. intros [Hk Hd]%NoDup_cons. case_decide; subst; [set_solver|].
  cbn. rewrite !elem_of_cons, IH by done. set_solver.
Qed.
Lemma dict_get_app_r {V} k (d d' : list (string * V)) : dict_get k d = None → dict_get k (d ++ d') = dict_get k d'.
Proof. induction d as [|[k0 w] d IH]; [done|]. cbn. case_decide; [done|apply IH]. Qed.
Lemma dict_get_app_l {V} k (d d' : list (string * V)) v : dict_get k d = Some v → dict_get k (d ++ d') = Some v.
Proof. induction d as [|[k0 w] d IH]; [done|]. cbn. case_decide; [done|apply IH]. Qed.
Lemma dict_get_map {V W} (f : V → W) k (d : list (string * V)) :
  dict_get k (List.map (λ '(n, v), (n, f v)) d) = f <$> dict_get k d.
Proof. induction d as [|[n v] d IH]; [done|]. cbn. case_decide; [done|apply IH]. Qed.

Section written.
Context (limit : nat) (ts : list (string * Tensor)) (meta : list (string * string)).
Context (Hlimit : (3 ≤ limit)%nat) (Hnd : NoDup ts.*1) (Hreserved : "__metadata__" ∉ ts.*1).
Context (Hnames : Forall (λ x, fullmatch _NAME x.1 = true) ts).
Context (Hdims : Forall (λ x, Forall (λ n, 1 ≤ n ≤ 2 ^ 31) (t_shape x.2)) ts).
Context (Hmeta : NoDup meta.*1) (Hascii : Forall (λ kv, is_ascii kv.1 = true ∧ is_ascii kv.2 = true) meta).

Definition metadata_value : pyval := VDict (List.map (λ '(k, v), (k, VStr v)) meta).

Lemma metadata_printable : printable is_ascii safe_int metadata_value = true ∧ (vdepth metadata_value ≤ 2)%nat.
Proof.
  unfold metadata_value. split.
  - cbn [printable]. apply andb_true_iff. split.
    + apply bool_decide_eq_true. assert ((List.map (λ '(k, v), (k : string, VStr v)) meta).*1 = meta.*1) as ->; [|done].
      clear. induction meta as [|[k v] m IH]; [done|]. cbn. by rewrite IH.
    + apply forallb_forall. intros [k v] Hin. apply in_map_iff in Hin as ([k' v'] & [= -> <-] & Hin%list_elem_of_In).
      pose proof Hascii as Ha. rewrite Forall_forall in Ha. destruct (Ha _ Hin) as [Hk Hv]. cbn [fst snd] in *. cbn [printable]. by rewrite Hk, Hv.
  - cbn. assert (foldr (λ kv n, vdepth kv.2 `max` n)%nat 0%nat (List.map (λ '(k, v), (k : string, VStr v)) meta) = 0%nat) as ->; [|lia].
    clear. induction meta as [|[k v] m IH]; [done|]. cbn. exact IH.
Qed.

Section laid_out.
Context (header : list (string * pyval)) (data : string) (offset : Z).
Context (Hlayout : for_each (py_sorted (λ a b, String.leb a.1 b.1) ts) place ([], "", 0) = Ret (header, data, offset)).
Context (Hdata : byte_len data ≤ _MAX_SAFE_INTEGER).

Lemma laid_out : header.*1 ≡ₚ ts.*1 ∧
  (∀ name t, (name, t) ∈ ts → ∃ front back, data = front +:+ t_data t +:+ back ∧
     dict_get name header = Some (entry_at (byte_len front) t) ∧ is_Some (dict_get (t_dtype t) DTYPE_SIZES)).
Proof.
  pose proof Hlayout as Hl. apply layout_spec in Hl as (Hk & _ & _ & Hall); [|cbn; by rewrite py_sorted_perm|done]. split.
  - rewrite Hk. cbn. by rewrite py_sorted_perm.
  - intros name t Hin. apply Hall. by apply py_sorted_elem.
Qed.

Lemma header_entry k v : (k, v) ∈ header →
  is_ascii k = true ∧ printable is_ascii safe_int v = true ∧ (vdepth v ≤ 2)%nat.
Proof.
  intros Hin. destruct laid_out as [Hk Hall].
  assert (k ∈ ts.*1) as Hts by (rewrite <- Hk; apply list_elem_of_fmap; by exists (k, v)).
  apply list_elem_of_fmap in Hts as ([k' t] & -> & Hts). cbn [fst] in *.
  destruct (Hall k' t Hts) as (front & back & Hd & Hget & Hty).
  rewrite (dict_elem_get k' v) in Hget by (by rewrite ?Hk || done). injection Hget as ->.
  pose proof Hnames as Hn. pose proof Hdims as Hdm. rewrite Forall_forall in Hn, Hdm.
  split; [apply simple_string_ascii, name_simple, (Hn _ Hts)|].
  apply entry_at_printable; [unfold byte_len; lia| |apply (Hdm _ Hts)|done].
  pose proof Hdata as Hle. rewrite Hd, !byte_len_app in Hle. unfold byte_len in *. lia.
Qed.

Lemma full_header_app : full_header header meta = header ++ (match meta with [] => [] | _ => [("__metadata__", metadata_value)] end).
Proof.
  unfold full_header. destruct meta eqn:Hm; [by rewrite app_nil_r|]. unfold metadata_value. rewrite Hm. apply dict_set_fresh.
  destruct laid_out as [Hk _]. by rewrite Hk.
Qed.

Lemma full_header_keys : NoDup (full_header header meta).*1.
Proof.
  rewrite full_header_app, fmap_app. destruct laid_out as [Hk _]. apply NoDup_app. split_and!; [by rewrite Hk| |].
  - intros k Hin. rewrite Hk in Hin. destruct meta; cbn; set_solver.
  - destruct meta; [constructor|apply NoDup_singleton].
Qed.

Lemma full_header_ok :
  printable is_ascii safe_int (VDict (full_header header meta)) = true ∧ (vdepth (VDict (full_header header meta)) ≤ 3)%nat.
Proof.
  destruct metadata_printable as [Hmp Hmd].
  assert (∀ k v, (k, v) ∈ full_header header meta →
    is_ascii k = true ∧ printable is_ascii safe_int v = true ∧ (vdepth v ≤ 2)%nat) as Hall.
  { intros k v Hin. rewrite full_header_app in Hin. apply elem_of_app in Hin as [Hin|Hin]; [by apply header_entry|].
    destruct meta; [set_solver|]. apply list_elem_of_singleton in Hin as [= -> ->]. done. }
  split.
  - cbn [printable]. rewrite bool_decide_eq_true_2 by apply full_header_keys. apply forallb_forall.
    intros [k v] Hin%list_elem_of_In. destruct (Hall k v Hin) as (-> & -> & _). done.
  - cbn [vdepth]. clear -Hall. induction (full_header header meta) as [|[k v] d IH]; [cbn; lia|]. cbn [foldr].
    destruct (Hall k v ltac:(left)) as (_ & _ & Hv). cbn [snd]. specialize (IH ltac:(intros; apply Hall; by right)). lia.
Qed.
End laid_out.

Lemma read_metadata : metadata_of (json_sorted metadata_value) ≡ₚ meta.
Proof.
  unfold metadata_value. rewrite json_sorted_dict. unfold metadata_of, sorted_dict. rewrite py_sorted_perm, !map_map.
  rewrite <- (map_id meta) at 2. apply Permutation_refl'. apply map_ext. by intros [].
Qed.

(** C38: A file that was written is read back: the same tensors, each with its type, shape
    and bytes, and the same metadata. *)
Theorem written_file_reads_back raw :
  encode limit ts meta = Ret raw → byte_len raw ≤ _MAX_SAFE_INTEGER →
  ∃ header datas, decode limit raw = Ret (header, datas) ∧
    (∀ name t, (name, t) ∈ ts → ∃ info, dict_get name (tensors header) = Some info ∧
       dtype info = t_dtype t ∧ shape info = t_shape t ∧ dict_get name datas = Some (t_data t)) ∧
    (tensors header).*1 ≡ₚ ts.*1 ∧ metadata header ≡ₚ meta.
Proof.
  intros He Hraw. apply encode_inv in He as (hd & data & off & h & Hl & -> & H64 & Hp).
  assert (byte_len data ≤ _MAX_SAFE_INTEGER) as Hdata by (rewrite !byte_len_app in Hraw; unfold byte_len in *; lia).
  set (full := full_header hd meta) in *. pose proof (full_header_keys hd data off Hl Hdata) as Hkeys. fold full in Hkeys.
  destruct (full_header_ok hd data off Hl Hdata) as [Hpr Hvd]. fold full in Hpr, Hvd.
  destruct (laid_out hd data off Hl) as [Hk Hall]. pose proof (full_header_app hd data off Hl) as Happ. fold full in Happ.
  pose proof Hp as Hread. apply (parse_header_read limit full data h) in Hread as (Ht & Hm & Hstart); [|done|done|lia].
  destruct (mapM_named_get _ _ _ Ht) as [Hnames' Hget]. eexists h, _.
  split; [unfold decode; rewrite Hp; reflexivity|]. split_and!.
  - intros name t Hin. destruct (Hall name t Hin) as (front & back & Hd & Hentry & _).
    assert (name ≠ "__metadata__") as Hne.
    { intros ->. apply Hreserved. apply list_elem_of_fmap. by exists ("__metadata__", t). }
    destruct (Hget name (json_sorted (entry_at (byte_len front) t))) as (info & Hi & Hti).
    { rewrite dict_get_del by done. rewrite (sorted_dict_get _ _ Hkeys), Happ. by rewrite (dict_get_app_l _ _ _ _ Hentry). }
    apply read_entry_at in Hi as ->. eexists. split; [exact Hti|]. split_and!; [done|done|].
    rewrite dict_get_map, Hti. cbn [fmap option_fmap option_map begin stop]. f_equal. rewrite Hstart, Hd.
    rewrite <- !str_assoc. rewrite str_assoc. apply slice_middle; [|lia].
    rewrite !byte_len_app. unfold byte_len. rewrite le_bytes_length. lia.
  - rewrite Hnames'. assert (NoDup (sorted_dict full).*1) as Hnd' by (by rewrite sorted_dict_keys).
    apply NoDup_Permutation; [by apply dict_del_NoDup|done|]. intros k.
    rewrite dict_del_elem by done. rewrite sorted_dict_keys, Happ, fmap_app, elem_of_app, Hk. destruct meta; set_solver.
  - rewrite Hm, (sorted_dict_get _ _ Hkeys), Happ.
    assert (dict_get "__metadata__" hd = None) as Hno by (apply dict_get_None; by rewrite Hk).
    rewrite dict_get_app_r by done. destruct meta eqn:He; [done|]. rewrite <- He in *. exact read_metadata.
Qed.
End written.

(** ** Samples *)

Definition sample_tensors : list (string * Tensor) :=
  [("w", {| t_dtype := "F32"; t_shape := [1]; t_data := "abcd" |}); ("b", {| t_dtype := "U8"; t_shape := [2; 1]; t_data := "xy" |})].
Definition sample_metadata : list (string * string) := [("nexa.rng", "v1")].
Definition sample_file : string :=
  match encode 9 sample_tensors sample_metadata with Ret raw => raw | Raise _ => "" end.

Lemma written_file_reads_back_witness :
  encode 9 sample_tensors sample_metadata = Ret sample_file ∧
  ∃ header datas, decode 9 sample_file = Ret (header, datas) ∧ datas = [("b", "xy"); ("w", "abcd")] ∧
    (tensors header).*1 ≡ₚ ["w"; "b"] ∧ metadata header ≡ₚ sample_metadata.
Proof.
  split; [by vm_compute|].
  destruct (written_file_reads_back 9 sample_tensors sample_metadata ltac:(lia)
    ltac:(by eapply bool_decide_eq_true_1; vm_compute) ltac:(by eapply bool_decide_eq_true_1; vm_compute)
    ltac:(repeat constructor; by vm_compute) ltac:(repeat constructor; by vm_compute)
    ltac:(by eapply bool_decide_eq_true_1; vm_compute) ltac:(repeat constructor; by vm_compute)
    sample_file) as (header & datas & Hd & _ & Hk & Hm); [by vm_compute|by vm_compute|].
  exists header, datas. split_and!; [exact Hd| |exact Hk|exact Hm].
  vm_compute in Hd. by injection Hd as <- <-.
Defined.

Lemma accepted_header_tiles_witness :
  ∃ header, parse_header 9 sample_file (byte_len sample_file) = Ret header ∧ data_length header = 6 ∧
    mjoin (extent ∘ snd <$> tensors header) ≡ₚ [0; 1; 2; 3; 4; 5].
Proof.
  destruct (parse_header 9 sample_file (byte_len sample_file)) as [header|] eqn:H; [|by vm_compute in H].
  destruct (accepted_header_tiles 9 sample_file (byte_len sample_file) header H) as [Ht _].
  exists header. assert (data_length header = 6) as Hl by (vm_compute in H; by injection H as <-).
  split_and!; [done|done|]. rewrite Hl in Ht. exact Ht.
Defined.

Lemma parse_header_errors_witness :
  exn_class (SafetensorsError "file is shorter than the header length field") = "SafetensorsError" ∧
  parse_header 9 "abc" 3 = Raise (SafetensorsError "file is shorter than the header length field").
Proof. split; [|by vm_compute]. by apply (parse_header_errors 9 "abc" 3). Defined.
