(* ===== verification/WorkerModels.v ===== *)
(** * Worker-side value objects

    [src/nexa/worker/models.py]: identities, authorities, resource vectors and
    the start request of an execution.  A frozen dataclass is a record; its
    [__post_init__] is a check that the constructor runs, so a value of the
    class exists only when the check returned. *)

From S2P Require Import Prelude.
From Stdlib Require Import Ascii.

Local Open Scope string_scope.
Local Open Scope list_scope.
Local Open Scope Z_scope.

Definition ValueError (message : string) : exn := Exn "ValueError" message.

(** ** The patterns *)

(** [re.fullmatch] of a pattern that is a sequence of character classes. *)
Fixpoint match_classes (classes : list (Ascii.ascii → bool)) (s : string) : bool :=
  match classes, s with
  | [], EmptyString => true
  | f :: classes, String c s => f c && match_classes classes s
  | _, _ => false
  end.

Definition in_range (lo hi : Ascii.ascii) (c : Ascii.ascii) : bool :=
  (Ascii.nat_of_ascii lo <=? Ascii.nat_of_ascii c)%nat
  && (Ascii.nat_of_ascii c <=? Ascii.nat_of_ascii hi)%nat.

Definition is_digit : Ascii.ascii → bool := in_range "0"%char "9"%char.
Definition is_hex (c : Ascii.ascii) : bool := is_digit c || in_range "a"%char "f"%char c.
Definition is_char (d : Ascii.ascii) (c : Ascii.ascii) : bool := Ascii.eqb c d.

Definition uuid_v7_classes : list (Ascii.ascii → bool) :=
  replicate 8 is_hex ++ [is_char "-"%char] ++ replicate 4 is_hex ++ [is_char "-"%char; is_char "7"%char]
  ++ replicate 3 is_hex ++ [is_char "-"%char; λ c, in_range "8"%char "9"%char c || in_range "a"%char "b"%char c]
  ++ replicate 3 is_hex ++ [is_char "-"%char] ++ replicate 12 is_hex.
Definition _UUID_V7 (s : string) : bool := match_classes uuid_v7_classes s.

Definition _CONTAINER_ID (s : string) : bool := match_classes (replicate 64 is_hex) s.

Fixpoint strip_prefix (p s : string) : option string :=
  match p, s with
  | EmptyString, _ => Some s
  | String a p, String b s => if Ascii.eqb a b then strip_prefix p s else None
  | _, _ => None
  end.

Definition _CHECKSUM (s : string) : bool :=
  match strip_prefix "sha256:" s with
  | Some digest => match_classes (replicate 64 is_hex) digest
  | None => false
  end.

(** [s.split(sep)] for a one-character separator. *)
Fixpoint split_on (sep : Ascii.ascii) (s : string) : list string :=
  match s with
  | EmptyString => [EmptyString]
  | String c s =>
      match split_on sep s with
      | [] => [EmptyString]
      | part :: parts =>
          if Ascii.eqb c sep then EmptyString :: part :: parts else String c part :: parts
      end
  end.

Fixpoint string_forall (f : Ascii.ascii → bool) (s : string) : bool :=
  match s with EmptyString => true | String c s => f c && string_forall f s end.

Definition is_number (s : string) : bool := negb (String.eqb s "") && string_forall is_digit s.

Definition _SEMVER (s : string) : bool :=
  match split_on "."%char s with
  | [major; minor; patch] => is_number major && is_number minor && is_number patch
  | _ => false
  end.

Definition _uuid (value field : string) : outcome exn string :=
  raise_when (negb (_UUID_V7 value)) (ValueError (field +:+ " must be a canonical UUIDv7"));;
  Ret value.

Definition _checksum (value field : string) : outcome exn string :=
  raise_when (negb (_CHECKSUM value)) (ValueError (field +:+ " must be a sha256 checksum"));;
  Ret value.

Definition _semver (value field : string) : outcome exn string :=
  raise_when (negb (_SEMVER value)) (ValueError (field +:+ " must be semantic version"));;
  Ret value.

Definition _positive (value : Z) (field : string) : outcome exn Z :=
  raise_when (value <=? 0) (ValueError (field +:+ " must be positive"));; Ret value.

(** ** Identities *)

Record Authority := {
  worker_id : string;
  worker_incarnation_id : string;
  au_attempt_id : string;
  au_allocation_id : string;
  lease_id : string;
  job_fence : Z;
}.

Definition Authority_post_init (a : Authority) : outcome exn () :=
  _uuid (worker_id a) "worker_id";;
  _uuid (worker_incarnation_id a) "worker_incarnation_id";;
  _uuid (au_attempt_id a) "attempt_id";;
  _uuid (au_allocation_id a) "allocation_id";;
  _uuid (lease_id a) "lease_id";;
  _positive (job_fence a) "job_fence";;
  Ret ().

Record ResourceVector := {
  rv_cpu_millis : Z;
  rv_memory_bytes : Z;
  rv_gpu_count : Z;
}.

Definition ResourceVector_post_init (r : ResourceVector) : outcome exn () :=
  raise_when (rv_cpu_millis r <? 0) (ValueError "cpu_millis must be non-negative");;
  raise_when (rv_memory_bytes r <=? 0) (ValueError "memory_bytes must be positive");;
  raise_when ((rv_gpu_count r <? 0) || (1 <? rv_gpu_count r)) (ValueError "gpu_count must be 0 or 1").

Record ContainerIdentity := {
  container_id : string;
  runtime_identity_digest : string;
  ci_attempt_id : string;
  ci_allocation_id : string;
  ci_startup_nonce : string;
  ci_architecture : string;
  image_id : option string;
}.

Definition ContainerIdentity_post_init (c : ContainerIdentity) : outcome exn () :=
  raise_when (negb (_CONTAINER_ID (container_id c)))
    (ValueError "container_id must be the full 64-character Docker ID");;
  _checksum (runtime_identity_digest c) "runtime_identity_digest";;
  _uuid (ci_attempt_id c) "attempt_id";;
  _uuid (ci_allocation_id c) "allocation_id";;
  _uuid (ci_startup_nonce c) "startup_nonce";;
  Ret ().

#[export] Instance Authority_eq_dec : EqDecision Authority.
Proof. solve_decision. Defined.
#[export] Instance ResourceVector_eq_dec : EqDecision ResourceVector.
Proof. solve_decision. Defined.
#[export] Instance ContainerIdentity_eq_dec : EqDecision ContainerIdentity.
Proof. solve_decision. Defined.
