(* ===== verification/Security.v ===== *)
(** * Opaque secrets

    [src/nexa/infrastructure/security.py]: base64url text, opaque secrets that name
    their row, and CSRF tokens; with the constructor [uuid.UUID] of the standard
    library, which parses the identifier of a secret.  Bytes are strings of 8-bit
    characters; SHA-256 and HMAC are parameters. *)

From Stdlib Require Import Ascii.
From S2P Require Import Prelude WorkerModels.

Local Open Scope string_scope.
Local Open Scope list_scope.
Local Open Scope Z_scope.

Definition code (c : ascii) : Z := Z.of_nat (nat_of_ascii c).
Definition char (n : Z) : ascii := ascii_of_nat (Z.to_nat n).

Fixpoint chars (s : string) : list ascii :=
  match s with
  | "" => []
  | String c s => c :: chars s
  end.
Fixpoint text (l : list ascii) : string :=
  match l with
  | [] => ""
  | c :: l => String c (text l)
  end.

(** ** base64url without padding *)

Definition b64_alphabet : list ascii :=
  chars "ABCDEFGHIJKLMNOPQRSTUVWXYZabcdefghijklmnopqrstuvwxyz0123456789-_".
Definition b64_char (n : Z) : ascii := nth (Z.to_nat n) b64_alphabet "A"%char.

Fixpoint position (c : ascii) (l : list ascii) : option Z :=
  match l with
  | [] => None
  | d :: l => if Ascii.eqb c d then Some 0 else Z.succ <$> position c l
  end.
Definition b64_value (c : ascii) : option Z := position c b64_alphabet.

(** Three bytes make four digits; the padding of a shorter tail is stripped. *)
Fixpoint b64_digits (bytes : list Z) : list Z :=
  match bytes with
  | a :: b :: c :: rest =>
      (a / 4) :: (a mod 4 * 16 + b / 16) :: (b mod 16 * 4 + c / 64) :: (c mod 64) :: b64_digits rest
  | [a; b] => [a / 4; a mod 4 * 16 + b / 16; b mod 16 * 4]
  | [a] => [a / 4; a mod 4 * 16]
  | [] => []
  end.

Definition _b64encode (value : string) : string :=
  text (b64_char <$> b64_digits (code <$> chars value)).

(** [None] where the standard decoder raises: a tail of one digit.  Bits beyond the
    last byte are dropped. *)
Fixpoint b64_bytes (digits : list Z) : option (list Z) :=
  match digits with
  | x :: y :: z :: w :: rest =>
      match b64_bytes rest with
      | Some bytes => Some (x * 4 + y / 16 :: y mod 16 * 16 + z / 4 :: z mod 4 * 64 + w :: bytes)
      | None => None
      end
  | [x; y; z] => Some [x * 4 + y / 16; y mod 16 * 16 + z / 4]
  | [x; y] => Some [x * 4 + y / 16]
  | [_] => None
  | [] => Some []
  end.

Definition bad_base64 : exn := ValueError "invalid base64url value".

(** A character outside the url alphabet either makes the decoder raise or gives
    bytes whose encoding differs from the text. *)
Definition _b64decode (value : string) : outcome exn string :=
  digits ← or_raise (mapM b64_value (chars value)) bad_base64;
  bytes ← or_raise (b64_bytes digits) bad_base64;
  let decoded := text (char <$> bytes) in
  raise_when (negb (String.eqb (_b64encode decoded) value)) bad_base64;;
  Ret decoded.

(** ** [uuid.UUID] *)

(** Digits of base 16, an underscore allowed between two of them. *)
Definition hex_value (c : ascii) : option Z :=
  let n := code c in
  if (48 <=? n) && (n <=? 57) then Some (n - 48)
  else if (97 <=? n) && (n <=? 102) then Some (n - 87)
  else if (65 <=? n) && (n <=? 70) then Some (n - 55)
  else None.

Fixpoint hex_digits (acc : Z) (l : list ascii) : option Z :=
  match l with
  | [] => Some acc
  | c :: l =>
      match hex_value c with
      | Some d => hex_digits (acc * 16 + d) l
      | None =>
          if Ascii.eqb c "_"%char then
            match l with
            | d :: _ => match hex_value d with Some _ => hex_digits acc l | None => None end
            | [] => None
            end
          else None
      end
  end.

Definition is_space (c : ascii) : bool :=
  let n := code c in ((9 <=? n) && (n <=? 13)) || ((28 <=? n) && (n <=? 32)).

Fixpoint drop_while (f : ascii → bool) (l : list ascii) : list ascii :=
  match l with
  | c :: rest => if f c then drop_while f rest else l
  | [] => []
  end.
Definition strip (f : ascii → bool) (l : list ascii) : list ascii := rev (drop_while f (rev (drop_while f l))).

(** A digit, or an underscore after a prefix. *)
Definition hex_number (prefixed : bool) (l : list ascii) : option Z :=
  match l with
  | c :: rest =>
      match hex_value c with
      | Some _ => hex_digits 0 l
      | None =>
          if prefixed && Ascii.eqb c "_"%char then
            match rest with
            | d :: _ => match hex_value d with Some _ => hex_digits 0 rest | None => None end
            | [] => None
            end
          else None
      end
  | [] => None
  end.

(** [int(text, 16)] of a text without a minus sign. *)
Definition int16 (l : list ascii) : option Z :=
  let l := strip is_space l in
  let l := match l with c :: rest => if Ascii.eqb c "+"%char then rest else l | [] => [] end in
  match l with
  | z :: x :: rest =>
      if Ascii.eqb z "0"%char && (Ascii.eqb x "x"%char || Ascii.eqb x "X"%char) then hex_number true rest
      else hex_number false l
  | _ => hex_number false l
  end.

(** [text.replace(p, "")]. *)
Fixpoint remove_text (fuel : nat) (p s : string) : string :=
  match fuel with
  | O => s
  | S fuel =>
      match strip_prefix p s with
      | Some rest => remove_text fuel p rest
      | None => match s with String c rest => String c (remove_text fuel p rest) | "" => "" end
      end
  end.

Definition is_brace (c : ascii) : bool := Ascii.eqb c "{"%char || Ascii.eqb c "}"%char.

(** The hexadecimal digits of a number, [n] of them. *)
Definition hex_char (d : Z) : ascii := char (if d <? 10 then 48 + d else 87 + d).
Fixpoint hex_render (n : nat) (value : Z) : list ascii :=
  match n with
  | O => []
  | S n => hex_render n (value / 16) ++ [hex_char (value mod 16)]
  end.

(** [str(uuid)]. *)
Definition hyphenate (h : list ascii) : string :=
  text (take 8 h) +:+ "-" +:+ text (take 4 (drop 8 h)) +:+ "-" +:+ text (take 4 (drop 12 h)) +:+ "-"
  +:+ text (take 4 (drop 16 h)) +:+ "-" +:+ text (drop 20 h).

Definition UUID (s : string) : option string :=
  let s := remove_text (String.length s) "urn:" s in
  let s := remove_text (String.length s) "uuid:" s in
  let h := List.filter (λ c, negb (Ascii.eqb c "-"%char)) (strip is_brace (chars s)) in
  if (length h =? 32)%nat then (λ n, hyphenate (hex_render 32 n)) <$> int16 h else None.

(** ** Opaque secrets *)

Record ParsedSecret := { ps_identifier : string; ps_secret : string }.

Definition invalid_secret : exn := ValueError "Invalid opaque secret".

(** [text.partition(".")]: the part before the first dot, and the part after it. *)
Fixpoint partition_dot (s : string) : string * option string :=
  match s with
  | "" => ("", None)
  | String c s =>
      if Ascii.eqb c "."%char then ("", Some s)
      else let '(before, after) := partition_dot s in (String c before, after)
  end.

Section codecs.
(** [hashlib.sha256(..).digest()], [hmac.new(key, .., sha256).digest()] and the
    bytes [secrets.token_bytes(32)] draws. *)
Variable sha256 : string → string.
Variable hmac_sha256 : string → string → string.

Definition issue (token_bytes identifier : string) : string := identifier +:+ "." +:+ _b64encode token_bytes.

Definition parse (encoded : string) : outcome exn ParsedSecret :=
  let '(identifier_text, secret_text) := partition_dot encoded in
  match secret_text with
  | None => Raise invalid_secret
  | Some secret_text =>
      raise_when (negb (string_forall (λ c, negb (Ascii.eqb c "."%char)) secret_text)) invalid_secret;;
      match UUID identifier_text, _b64decode secret_text with
      | Some identifier, Ret secret =>
          raise_when (negb (String.length secret =? 32)%nat) invalid_secret;;
          Ret {| ps_identifier := identifier; ps_secret := secret |}
      | _, _ => Raise invalid_secret
      end
  end.

Definition digest (encoded : string) : outcome exn string :=
  parsed ← parse encoded; Ret (sha256 (ps_secret parsed)).

(** ** CSRF tokens *)

Definition csrf_issue (signing_key session_cookie : string) : string :=
  _b64encode (hmac_sha256 signing_key session_cookie).
Definition csrf_digest (token : string) : string := sha256 token.
Definition csrf_verify (signing_key session_cookie token expected_digest : string) : bool :=
  String.eqb token (csrf_issue signing_key session_cookie) && String.eqb (csrf_digest token) expected_digest.
End codecs.

(** ** Texts and characters *)

Lemma text_chars s : text (chars s) = s.
Proof. induction s as [|c s IH]; simpl; by rewrite ?IH. Qed.
Lemma chars_text l : chars (text l) = l.
Proof. induction l as [|c l IH]; simpl; by rewrite ?IH. Qed.
Lemma chars_app s t : chars (s +:+ t) = chars s ++ chars t.
Proof. induction s as [|c s IH]; simpl; [done|]. by rewrite <- IH. Qed.
Lemma chars_length s : length (chars s) = String.length s.
Proof. induction s as [|c s IH]; simpl; by rewrite ?IH. Qed.
Lemma char_code c : char (code c) = c.
Proof. unfold char, code. by rewrite Nat2Z.id, ascii_nat_embedding. Qed.
Lemma code_range c : 0 ≤ code c < 256.
Proof. unfold code. pose proof (nat_ascii_bounded c). lia. Qed.
Lemma string_forall_chars f s : string_forall f s = forallb f (chars s).
Proof. induction s as [|c s IH]; simpl; by rewrite ?IH. Qed.

(** ** base64url round trip *)

Definition byte_list (l : list Z) : Prop := Forall (λ b, 0 ≤ b < 256) l.

Lemma codes_bytes s : byte_list (code <$> chars s).
Proof. apply Forall_fmap, Forall_true. intros c. apply code_range. Qed.

(** Lists in steps of three. *)
Lemma list_ind3 {A} (P : list A → Prop) :
  P [] → (∀ a, P [a]) → (∀ a b, P [a; b]) → (∀ a b c l, P l → P (a :: b :: c :: l)) → ∀ l, P l.
Proof.
  intros H0 H1 H2 H3. fix IH 1. intros [|a [|b [|c l]]]; [done|apply H1|apply H2|]. apply H3, IH.
Qed.

Lemma b64_digits_range bytes : byte_list bytes → Forall (λ d, 0 ≤ d < 64) (b64_digits bytes).
Proof.
  induction bytes as [|a|a b|a b c l IH] using list_ind3; intros Hb; cbn [b64_digits].
  - constructor.
  - apply Forall_cons in Hb as [? _].
    rewrite !Forall_cons, Forall_nil. Z.to_euclidean_division_equations; lia.
  - apply Forall_cons in Hb as [? [? _]%Forall_cons].
    rewrite !Forall_cons, Forall_nil. Z.to_euclidean_division_equations; lia.
  - apply Forall_cons in Hb as [? [? [? Hb]%Forall_cons]%Forall_cons]. specialize (IH Hb).
    rewrite !Forall_cons. split_and!; [..|done]; Z.to_euclidean_division_equations; lia.
Qed.

Lemma b64_bytes_digits bytes : byte_list bytes → b64_bytes (b64_digits bytes) = Some bytes.
Proof.
  induction bytes as [|a|a b|a b c l IH] using list_ind3; intros Hb; cbn [b64_digits b64_bytes].
  - done.
  - apply Forall_cons in Hb as [? _]. do 2 f_equal. Z.to_euclidean_division_equations; lia.
  - apply Forall_cons in Hb as [? [? _]%Forall_cons]. f_equal. f_equal; [|f_equal];
      Z.to_euclidean_division_equations; lia.
  - apply Forall_cons in Hb as [? [? [? Hb]%Forall_cons]%Forall_cons]. rewrite (IH Hb). f_equal.
    f_equal; [|f_equal; [|f_equal]]; Z.to_euclidean_division_equations; lia.
Qed.

Lemma b64_value_char d : 0 ≤ d < 64 → b64_value (b64_char d) = Some d.
Proof.
  intros Hd. assert (∀ n, n ∈ seqZ 0 64 → b64_value (b64_char n) = Some n) as Hall.
  { apply Forall_forall. apply (bool_decide_unpack _). by vm_compute. }
  apply Hall, elem_of_seqZ. lia.
Qed.

Lemma mapM_b64_value ds : Forall (λ d, 0 ≤ d < 64) ds → mapM b64_value (b64_char <$> ds) = Some ds.
Proof.
  induction 1 as [|d ds Hd _ IH]; [done|]. rewrite fmap_cons. cbn [mapM]. by rewrite b64_value_char, IH.
Qed.

Lemma bind_Ret_l {E A B} (a : A) (f : A → outcome E B) : Ret a ≫= f = f a.
Proof. done. Qed.

Lemma b64decode_encode s : _b64decode (_b64encode s) = Ret s.
Proof.
  unfold _b64decode.
  assert (chars (_b64encode s) = b64_char <$> b64_digits (code <$> chars s)) as -> by apply chars_text.
  rewrite mapM_b64_value by apply b64_digits_range, codes_bytes. cbn [or_raise]. rewrite bind_Ret_l.
  rewrite b64_bytes_digits by apply codes_bytes. cbn [or_raise]. rewrite bind_Ret_l.
  assert (text (char <$> (code <$> chars s)) = s) as ->.
  { rewrite <- list_fmap_compose. rewrite (list_fmap_ext _ id) by (intros; apply char_code).
    by rewrite list_fmap_id, text_chars. }
  by rewrite String.eqb_refl.
Qed.

Lemma b64decode_Ret s b : _b64decode s = Ret b → _b64encode b = s.
Proof.
  unfold _b64decode. intros H. destruct (mapM b64_value (chars s)) as [ds|]; [|done]. cbn [or_raise] in H.
  rewrite bind_Ret_l in H. destruct (b64_bytes ds) as [bytes|]; [|done]. cbn [or_raise] in H.
  rewrite bind_Ret_l in H. destruct (String.eqb _ s) eqn:E; [|done].
  apply String.eqb_eq in E. by injection H as <-.
Qed.

(** ** Canonical identifiers *)

(** The text of a UUID: thirty-two digits in five groups. *)
Definition canonical_uuid (s : string) : Prop :=
  ∃ h, length h = 32%nat ∧ Forall (λ c, is_hex c = true) h ∧ s = hyphenate h.

(** What the parser relies on of a digit. *)
Definition plain (c : ascii) : bool :=
  negb (is_space c) && negb (is_brace c) && negb (Ascii.eqb c "+"%char) && negb (Ascii.eqb c "x"%char)
  && negb (Ascii.eqb c "X"%char) && negb (Ascii.eqb c "u"%char) && negb (Ascii.eqb c "."%char).

Lemma hex_facts c :
  is_hex c = true →
  ∃ d, hex_value c = Some d ∧ 0 ≤ d < 16 ∧ hex_char d = c ∧ plain c = true ∧ Ascii.eqb c "-"%char = false.
Proof.
  intros H. exists (default 0 (hex_value c)). revert H.
  destruct c as [[] [] [] [] [] [] [] []]; first [discriminate|intros _; vm_compute; split_and!; (done || lia)].
Qed.

Lemma drop_while_none f l : Forall (λ c, f c = false) l → drop_while f l = l.
Proof. destruct 1 as [|c l Hc _]; simpl; [done|]. by rewrite Hc. Qed.

Lemma strip_none f l : Forall (λ c, f c = false) l → strip f l = l.
Proof.
  intros Hl. unfold strip. rewrite (drop_while_none f l Hl), drop_while_none by by apply Forall_rev.
  apply rev_involutive.
Qed.

Lemma remove_text_none fuel c p s :
  Forall (λ d, d ≠ c) (chars s) → remove_text fuel (String c p) s = s.
Proof.
  revert s. induction fuel as [|fuel IH]; intros s Hs; simpl; [done|]. destruct s as [|d s]; [done|].
  apply Forall_cons in Hs as [Hd Hs]. destruct (Ascii.eqb c d) eqn:E; [by apply Ascii.eqb_eq in E|].
  by rewrite IH.
Qed.

Lemma filter_all {A} (f : A → bool) l : Forall (λ x, f x = true) l → List.filter f l = l.
Proof. induction 1 as [|x l Hx _ IH]; simpl; [done|]. by rewrite Hx, IH. Qed.

Lemma hyphenate_chars h :
  chars (hyphenate h) = take 8 h ++ "-"%char :: take 4 (drop 8 h) ++ "-"%char :: take 4 (drop 12 h)
    ++ "-"%char :: take 4 (drop 16 h) ++ "-"%char :: drop 20 h.
Proof. unfold hyphenate. rewrite !chars_app, !chars_text. done. Qed.

Lemma unhyphenate h :
  Forall (λ c, is_hex c = true) h →
  List.filter (λ c, negb (Ascii.eqb c "-"%char)) (chars (hyphenate h)) = h.
Proof.
  intros Hh. rewrite hyphenate_chars.
  assert (∀ l, Forall (λ c, is_hex c = true) l → List.filter (λ c, negb (Ascii.eqb c "-"%char)) l = l) as Hf.
  { intros l Hl. apply filter_all. eapply Forall_impl; [exact Hl|]. intros c Hc. simpl.
    by destruct (hex_facts c Hc) as (d & _ & _ & _ & _ & ->). }
  repeat (rewrite List.filter_app || cbn [List.filter Ascii.eqb Bool.eqb negb]).
  rewrite !Hf by eauto using Forall_take, Forall_drop.
  assert (∀ n k, take k (drop n h) ++ drop (n + k) h = drop n h) as Hs
    by (intros n k; by rewrite <- drop_drop, take_drop).
  pose proof (Hs 16%nat 4%nat) as H1. pose proof (Hs 12%nat 4%nat) as H2. pose proof (Hs 8%nat 4%nat) as H3.
  cbn [Nat.add] in *. by rewrite H1, H2, H3, take_drop.
Qed.

Lemma hex_digits_snoc acc h c d :
  Forall (λ c, is_hex c = true) h → hex_value c = Some d →
  hex_digits acc (h ++ [c]) = (λ n, n * 16 + d) <$> hex_digits acc h.
Proof.
  intros Hh Hc. revert acc. induction Hh as [|x h Hx _ IH]; intros acc; simpl; [by rewrite Hc|].
  destruct (hex_facts x Hx) as (e & -> & _). apply IH.
Qed.

Lemma hex_render_digits h :
  Forall (λ c, is_hex c = true) h →
  ∃ n, hex_digits 0 h = Some n ∧ hex_render (length h) n = h.
Proof.
  induction h as [|c h IH] using rev_ind; intros Hh; [by exists 0|].
  apply Forall_app in Hh as [Hh [Hc _]%Forall_cons]. destruct (IH Hh) as (n & Hn & Hr).
  destruct (hex_facts c Hc) as (d & Hd & Hrange & Hchar & _). exists (n * 16 + d).
  rewrite (hex_digits_snoc 0 h c d), Hn by done. split; [done|].
  rewrite length_app, Nat.add_comm. cbn [length Nat.add hex_render].
  rewrite Z.div_add_l, Z.div_small, Z.add_0_r, Hr by lia.
  by rewrite Z.add_comm, Z.mod_add, Z.mod_small, Hchar by lia.
Qed.

Lemma hex_plain c :
  is_hex c = true →
  is_space c = false ∧ is_brace c = false ∧ Ascii.eqb c "+"%char = false ∧
  Ascii.eqb c "x"%char = false ∧ Ascii.eqb c "X"%char = false ∧ c ≠ "u"%char ∧ Ascii.eqb c "."%char = false.
Proof.
  intros Hc. destruct (hex_facts c Hc) as (d & _ & _ & _ & Hp & _). unfold plain in Hp. bool_simpl.
  split_and!; try done. intros ->. done.
Qed.

Lemma int16_plain h :
  Forall (λ c, is_hex c = true) h → h ≠ [] → int16 h = hex_digits 0 h.
Proof.
  intros Hh Hne. unfold int16.
  assert (hex_number false h = hex_digits 0 h) as Hnum.
  { destruct h as [|c l]; [done|]. apply Forall_cons in Hh as [Hc _]. unfold hex_number.
    by destruct (hex_facts c Hc) as (d & -> & _). }
  rewrite strip_none by (eapply Forall_impl; [exact Hh|]; intros c Hc; by destruct (hex_plain c Hc)).
  destruct h as [|c l]; [done|]. pose proof Hh as [Hc Hl]%Forall_cons.
  destruct (hex_plain c Hc) as (_ & _ & -> & _). destruct l as [|x l]; [done|].
  apply Forall_cons in Hl as [Hx _]. destruct (hex_plain x Hx) as (_ & _ & _ & -> & -> & _).
  by rewrite andb_false_r.
Qed.

(** Every character of a canonical identifier is a digit or a hyphen. *)
Lemma canonical_chars s :
  canonical_uuid s → Forall (λ c, is_hex c = true ∨ c = "-"%char) (chars s).
Proof.
  intros (h & _ & Hh & ->). rewrite hyphenate_chars.
  assert (∀ l, Forall (λ c, is_hex c = true) l → Forall (λ c, is_hex c = true ∨ c = "-"%char) l) as Hw
    by (intros l Hl; eapply Forall_impl; [exact Hl|]; auto).
  repeat first [apply Forall_app; split | apply Forall_cons; split]; auto using Forall_take, Forall_drop.
Qed.

Lemma UUID_canonical s : canonical_uuid s → UUID s = Some s.
Proof.
  intros Hs. pose proof (canonical_chars s Hs) as Hc. destruct Hs as (h & Hlen & Hh & ->). unfold UUID.
  assert (Forall (λ c, c ≠ "u"%char) (chars (hyphenate h))) as Hu.
  { eapply Forall_impl; [exact Hc|]. intros c [Hx| ->]; [|done].
    by destruct (hex_plain c Hx) as (_ & _ & _ & _ & _ & ? & _). }
  rewrite (remove_text_none _ _ _ _ Hu), (remove_text_none _ _ _ _ Hu).
  rewrite strip_none, unhyphenate; [|done|].
  2: { eapply Forall_impl; [exact Hc|]. intros c [Hx| ->]; [by destruct (hex_plain c Hx) as (_ & ? & _)|done]. }
  rewrite Hlen, int16_plain by (try done; by intros ->).
  destruct (hex_render_digits h Hh) as (n & -> & Hr). rewrite Hlen in Hr.
  change (Some (hyphenate (hex_render 32 n)) = Some (hyphenate h)). by rewrite Hr.
Qed.

(** ** Issuing and parsing *)

Lemma partition_dot_app s t :
  Forall (λ c, Ascii.eqb c "."%char = false) (chars s) → partition_dot (s +:+ "." +:+ t) = (s, Some t).
Proof.
  induction s as [|c s IH]; intros Hs; [done|]. apply Forall_cons in Hs as [Hc Hs]. simpl. rewrite Hc.
  change (s +:+ String "." t) with (s +:+ "." +:+ t). by rewrite IH.
Qed.

Lemma b64encode_plain b : string_forall (λ c, negb (Ascii.eqb c "."%char)) (_b64encode b) = true.
Proof.
  rewrite string_forall_chars. unfold _b64encode. rewrite chars_text. apply Is_true_eq_true, forallb_True, Forall_fmap.
  eapply Forall_impl; [apply b64_digits_range, codes_bytes|]. intros d Hd.
  assert (∀ n, n ∈ seqZ 0 64 → negb (Ascii.eqb (b64_char n) "."%char) = true) as Hall.
  { apply Forall_forall, (bool_decide_unpack _). by vm_compute. }
  apply Is_true_eq_left, (Hall d), elem_of_seqZ. cbv beta in Hd. lia.
Qed.

Lemma canonical_partition identifier t :
  canonical_uuid identifier → partition_dot (identifier +:+ "." +:+ t) = (identifier, Some t).
Proof.
  intros Hid. apply partition_dot_app. eapply Forall_impl; [by apply canonical_chars|].
  intros c [Hx| ->]; [|done]. by destruct (hex_plain c Hx) as (_ & _ & _ & _ & _ & _ & ?).
Qed.

Lemma parse_issue identifier token_bytes :
  canonical_uuid identifier → String.length token_bytes = 32%nat →
  parse (issue token_bytes identifier) = Ret {| ps_identifier := identifier; ps_secret := token_bytes |}.
Proof.
  intros Hid Hlen. unfold parse, issue. rewrite canonical_partition by done.
  by rewrite b64encode_plain, UUID_canonical, b64decode_encode, Hlen.
Qed.

Lemma digest_issue sha256 identifier token_bytes :
  canonical_uuid identifier → String.length token_bytes = 32%nat →
  digest sha256 (issue token_bytes identifier) = Ret (sha256 token_bytes).
Proof. intros Hid Hlen. unfold digest. by rewrite parse_issue. Qed.

(** An issued secret parses to the identifier it was issued for and to its
    bytes, and a text that parses is the one issued for what it parses to: parsing
    accepts exactly one text per canonical identifier and secret, so a digest
    stored at issue is matched by that text alone. *)
Theorem secret_round_trip (identifier token_bytes : string) :
  canonical_uuid identifier → String.length token_bytes = 32%nat →
  parse (issue token_bytes identifier)
    = Ret {| ps_identifier := identifier; ps_secret := token_bytes |} ∧
  ∀ secret_text, parse (identifier +:+ "." +:+ secret_text)
    = Ret {| ps_identifier := identifier; ps_secret := token_bytes |} →
    identifier +:+ "." +:+ secret_text = issue token_bytes identifier.
Proof.
  intros Hid Hlen. split; [by apply parse_issue|].
  unfold parse, issue. intros t. rewrite canonical_partition, UUID_canonical by done.
  destruct (string_forall _ t); [|done]. destruct (_b64decode t) as [b|] eqn:Hb; [|done]. intros H.
  cbn [raise_when negb] in H. rewrite bind_Ret_l in H. destruct (String.length b =? 32)%nat; [|done].
  injection H as ->. by rewrite (b64decode_Ret t _ Hb).
Qed.

Definition sample_uuid : string := "01890a5d-ac96-774b-bcce-b302099a8057".
Lemma sample_uuid_canonical : canonical_uuid sample_uuid.
Proof.
  exists (chars "01890a5dac96774bbcceb302099a8057"). split_and!; [done| |done]. by repeat constructor.
Qed.

Lemma secret_round_trip_witness :
  parse (issue "0123456789abcdef0123456789ABCDEF" sample_uuid)
  = Ret {| ps_identifier := sample_uuid; ps_secret := "0123456789abcdef0123456789ABCDEF" |}.
Proof.
  apply (secret_round_trip sample_uuid "0123456789abcdef0123456789ABCDEF" sample_uuid_canonical eq_refl).
Defined.
