(* ===== verification/Cursors.v ===== *)
(** * Signed cursors

    [CursorCodec] of [src/nexa/infrastructure/security.py]: a page cursor carries the
    request it belongs to, its expiry and the position, as a JSON document in base64url
    with an HMAC beside it.  HMAC is a parameter; so are what [json.loads] makes of bytes
    that are not ASCII and what [int] makes of a text, neither of which a cursor of the
    codec holds. *)

From Stdlib Require Import Ascii SpecFloat.
From stdpp Require Import pretty.
From S2P Require Import Prelude PyValue Json Strict WorkerModels Security.

Local Open Scope string_scope.
Local Open Scope list_scope.
Local Open Scope Z_scope.

Definition CursorError (message : string) : exn := Exn "CursorError" message.
Definition SecurityConfigurationError (message : string) : exn := Exn "SecurityConfigurationError" message.

(** [dict(m)] of a mapping of strings. *)
Definition texts (m : list (string * string)) : list (string * pyval) := (λ kv, (kv.1, VStr kv.2)) <$> m.

(** [int(now.timestamp())]; [now] counts microseconds. *)
Definition unix_seconds (now : Z) : Z := Z.quot now 1000000.

(** [int(value)]. *)
Definition int_of_float (f : spec_float) : outcome exn Z :=
  match f with
  | S754_zero _ => Ret 0
  | S754_infinity _ => Raise (Exn "OverflowError" "cannot convert float infinity to integer")
  | S754_nan => Raise (ValueError "cannot convert float NaN to integer")
  | S754_finite s m e =>
      let c := if s then Zneg m else Zpos m in Ret (if 0 <=? e then c * 2 ^ e else Z.quot c (2 ^ (- e)))
  end.
Definition TypeError : exn := Exn "TypeError" "".
Definition KeyError : exn := Exn "KeyError" "".

Definition py_subscript (v : pyval) (key : string) : outcome exn pyval :=
  match v with
  | VDict d => match dict_get key d with Some w => Ret w | None => Raise KeyError end
  | _ => Raise TypeError
  end.

Section codec.
Context (hmac_sha256 : string → string → string) (loads_encoded : string → outcome exn pyval) (int_text : string → outcome exn Z).
Context (limit : nat) (signing_key : string) (ttl_seconds : Z).

Definition int_value (v : pyval) : outcome exn Z :=
  match v with
  | VInt n => Ret n
  | VBool b => Ret (if b then 1 else 0)
  | VFloat f => int_of_float f
  | VStr s => int_text s
  | _ => Raise TypeError
  end.

(** The constructor's checks. *)
Definition check_codec : outcome exn () :=
  raise_when (String.length signing_key <? 32)%nat (SecurityConfigurationError "Cursor signing key must contain at least 32 bytes");;
  raise_when (ttl_seconds <? 1) (SecurityConfigurationError "Cursor TTL must be positive").

Definition payload (now : Z) (binding position : list (string * string)) : pyval :=
  VDict [("binding", VDict (texts binding)); ("expires_at", VInt (unix_seconds now + ttl_seconds));
         ("position", VDict (texts position))].

Definition encode (now : Z) (binding position : list (string * string)) : string :=
  let payload_bytes := json_dumps (λ _, "") (json_sorted (payload now binding position)) in
  _b64encode payload_bytes +:+ "." +:+ _b64encode (hmac_sha256 signing_key payload_bytes).

(** [json.loads] of bytes: ASCII without a NUL is read as UTF-8. *)
Definition loads_bytes (raw : string) : outcome exn pyval :=
  if all_chars (λ c, is_ascii_char c && negb (ord c =? 0)) raw then loads default_hooks limit raw else loads_encoded raw.

Definition read_payload (raw : string) : outcome exn (pyval * Z * pyval) :=
  payload ← loads_bytes raw;
  binding ← py_subscript payload "binding";
  expires ← py_subscript payload "expires_at";
  expires_at ← int_value expires;
  position ← py_subscript payload "position";
  Ret (binding, expires_at, position).

Definition as_text (kv : string * pyval) : option (string * string) :=
  match kv.2 with VStr s => Some (kv.1, s) | _ => None end.

Definition decode (now : Z) (cursor : string) (expected_binding : list (string * string)) : outcome exn (list (string * string)) :=
  match partition_dot cursor with
  | (payload_text, Some signature_text) =>
      raise_when (negb (string_forall (λ c, negb (Ascii.eqb c "."%char)) signature_text)) (CursorError "Invalid cursor signature");;
      payload_bytes ← except ["ValueError"] (_b64decode payload_text) (λ _, Raise (CursorError "Invalid cursor signature"));
      signature ← except ["ValueError"] (_b64decode signature_text) (λ _, Raise (CursorError "Invalid cursor signature"));
      raise_when (negb (String.eqb signature (hmac_sha256 signing_key payload_bytes))) (CursorError "Invalid cursor signature");;
      '(binding, expires_at, position) ← except (["KeyError"; "TypeError"] ++ value_errors) (read_payload payload_bytes)
        (λ _, Raise (CursorError "Invalid cursor payload"));
      raise_when (negb (py_eq binding (VDict (texts expected_binding)))) (CursorError "Cursor binding does not match this request");;
      raise_when (expires_at <? unix_seconds now) (CursorError "Cursor has expired");;
      match position with
      | VDict d => or_raise (mapM as_text d) (CursorError "Invalid cursor position")
      | _ => Raise (CursorError "Invalid cursor position")
      end
  | _ => Raise (CursorError "Invalid cursor signature")
  end.
End codec.

(** ** Round trip *)

Definition ascii_texts (m : list (string * string)) : bool :=
  bool_decide (NoDup m.*1) && forallb (λ kv, is_ascii kv.1 && is_ascii kv.2) m.

Lemma texts_printable m : ascii_texts m = true → printable is_ascii safe_int (VDict (texts m)) = true.
Proof.
  unfold ascii_texts, texts. cbn [printable]. intros [Hnd Hall]%andb_true_iff. apply andb_true_iff. split.
  - apply bool_decide_eq_true in Hnd. apply bool_decide_eq_true. by rewrite <- list_fmap_compose.
  - rewrite forallb_forall in Hall. apply forallb_forall. intros kv Hkv. apply list_elem_of_In, list_elem_of_fmap in Hkv as (x & -> & Hx).
    cbn. by apply Hall, list_elem_of_In.
Qed.

Definition wire_char (c : ascii) : bool := is_ascii_char c && negb (ord c =? 0).

Lemma json_char_wire c : is_ascii_char c = true → all_chars wire_char (json_char 126 c) = true.
Proof. destruct c as [[] [] [] [] [] [] [] []]; by vm_compute. Qed.
Lemma json_string_wire s : is_ascii s = true → all_chars wire_char (json_string s) = true.
Proof.
  intros Hs. unfold json_string. rewrite !all_chars_app. apply andb_true_iff. split; [done|]. apply andb_true_iff. split; [|done].
  unfold is_ascii in Hs. induction s as [|c s IH]; [done|]. cbn [all_chars] in Hs. apply andb_true_iff in Hs as [Hc Hs].
  cbn [json_chars]. unfold is_ascii_char in Hc. rewrite Hc. by rewrite all_chars_app, json_char_wire, IH.
Qed.
Lemma join_wire sep parts : all_chars wire_char sep = true → Forall (λ p, all_chars wire_char p = true) parts →
  all_chars wire_char (join sep parts) = true.
Proof.
  intros Hs H. unfold join. destruct H as [|p parts Hp H]; [done|]. rewrite all_chars_app, Hp. cbn [andb].
  induction H as [|q parts Hq _ IH]; [done|]. cbn [foldr]. by rewrite !all_chars_app, Hs, Hq, IH.
Qed.

Lemma json_dumps_wire fr ok_int v : printable is_ascii ok_int v = true → all_chars wire_char (json_dumps fr v) = true.
Proof.
  unfold json_dumps. induction v as [|b|n| |s|l IH|d IH] using pyval_nested_ind; intros Hp; try done.
  - by destruct b.
  - eapply all_chars_impl; [|apply pretty_simple]. intros c. unfold simple_char, wire_char, is_ascii_char, between. intros. bool_simpl. lia.
  - by apply json_string_wire.
  - cbn [dumps printable] in *. rewrite !all_chars_app, join_wire; [done..|].
    induction IH as [|x l Hx _ IHl]; [constructor|]. cbn in Hp. apply andb_true_iff in Hp as [? ?]. constructor; auto.
  - cbn [dumps printable] in *. apply andb_true_iff in Hp as [_ Hp]. rewrite !all_chars_app, join_wire; [done..|].
    induction IH as [|[k x] d Hx _ IHd]; [constructor|]. cbn [forallb] in Hp. apply andb_true_iff in Hp as [Hkx Hp].
    apply andb_true_iff in Hkx as [Hk Hx']. constructor; [|by apply IHd].
    cbn [snd] in Hx. by rewrite !all_chars_app, json_string_wire, Hx.
Qed.

Definition sorted_texts (m : list (string * string)) : list (string * string) := py_sorted (λ a b, String.leb a.1 b.1) m.

Lemma sorted_texts_json m : json_sorted (VDict (texts m)) = VDict (texts (sorted_texts m)).
Proof.
  rewrite json_sorted_dict. f_equal. unfold sorted_dict, texts, sorted_texts.
  assert (List.map (λ '(k, v), (k, json_sorted v)) ((λ kv, (kv.1, VStr kv.2)) <$> m) = (λ kv : string * string, (kv.1, VStr kv.2)) <$> m) as ->.
  { rewrite <- list_fmap_compose. by apply list_fmap_ext. }
  by rewrite (py_sorted_map (λ kv : string * string, (kv.1, VStr kv.2)) (λ a b, String.leb a.1 b.1)).
Qed.

Lemma as_text_texts m : mapM as_text (texts m) = Some m.
Proof. induction m as [|[k v] m IH]; [done|]. unfold texts in *. cbn. by rewrite IH. Qed.

Lemma texts_get k m : dict_get k (texts m) = VStr <$> dict_get k m.
Proof. induction m as [|[k' v] m IH]; [done|]. unfold texts in *. cbn. by destruct (decide _). Qed.

Lemma texts_length m : length (texts m) = length m.
Proof. apply length_fmap. Qed.
Lemma texts_elem kv m : kv ∈ texts m ↔ ∃ k v, kv = (k, VStr v) ∧ (k, v) ∈ m.
Proof. unfold texts. rewrite list_elem_of_fmap. split; [intros ([k v] & -> & H); eauto|intros (k & v & -> & H); by exists (k, v)]. Qed.

(** Mappings of strings are equal when they have the same items. *)
Lemma texts_eq a b : NoDup a.*1 → NoDup b.*1 → py_eq (VDict (texts a)) (VDict (texts b)) = true ↔ a ≡ₚ b.
Proof.
  intros Ha Hb. cbn [py_eq]. rewrite andb_true_iff, Nat.eqb_eq, forallb_forall, !texts_length. split.
  - intros [Hlen H]. apply submseteq_length_Permutation; [|lia]. apply NoDup_submseteq; [by apply (NoDup_fmap_1 fst)|].
    intros [k v] Hkv. specialize (H (k, VStr v)). cbv beta iota in H. rewrite texts_get in H.
    destruct (dict_get k b) as [w|] eqn:E; cbn in H.
    + apply dict_get_elem in E. apply String.eqb_eq in H as <-; [done|]. apply list_elem_of_In, texts_elem. eauto.
    + discriminate H. apply list_elem_of_In, texts_elem. eauto.
  - intros Hp. split; [by rewrite Hp|]. intros kv Hin. apply list_elem_of_In, texts_elem in Hin as (k & v & -> & Hin).
    cbv beta iota. rewrite texts_get, (dict_elem_get k v) by (try done; by rewrite <- Hp). cbn. apply String.eqb_refl.
Qed.

Lemma partition_dot_eq s l r : partition_dot s = (l, Some r) → s = l +:+ "." +:+ r.
Proof.
  revert l. induction s as [|c s IH]; intros l H; [done|]. cbn [partition_dot] in H.
  destruct (Ascii.eqb_spec c "."%char) as [->|Hc]; [by injection H as <- <-|].
  destruct (partition_dot s) as [a [t|]]; [|done]. injection H as <- <-. by rewrite str_cons, <- (IH a).
Qed.

Section roundtrip.
Context (hmac_sha256 : string → string → string) (loads_encoded : string → outcome exn pyval) (int_text : string → outcome exn Z).
Context (limit : nat) (signing_key : string) (ttl_seconds : Z) (Hlimit : (2 ≤ limit)%nat).
Local Notation encode := (encode hmac_sha256 signing_key ttl_seconds).
Local Notation decode := (decode hmac_sha256 loads_encoded int_text limit signing_key).

Lemma default_hooks_int n : safe_int n = true → parse_int default_hooks (pretty n) = Ret (VInt n).
Proof. intros Hn. cbn. by rewrite py_int_pretty by (by apply safe_short). Qed.
Lemma default_hooks_pairs ps : NoDup ps.*1 → object_pairs default_hooks ps = Ret (VDict ps).
Proof. intros Hps. cbn. by rewrite dict_of_id. Qed.

Lemma texts_depth m : (vdepth (VDict (texts m)) ≤ 1)%nat.
Proof. cbn. apply le_n_S. induction m as [|[k v] m IH]; [done|]. unfold texts in *. cbn. lia. Qed.

Lemma payload_sorted now b p :
  json_sorted (payload ttl_seconds now b p)
  = VDict [("binding", VDict (texts (sorted_texts b))); ("expires_at", VInt (unix_seconds now + ttl_seconds));
           ("position", VDict (texts (sorted_texts p)))].
Proof. unfold payload. rewrite json_sorted_dict. rewrite <- !sorted_texts_json. reflexivity. Qed.

Lemma payload_reads now b p :
  ascii_texts b = true → ascii_texts p = true → safe_int (unix_seconds now + ttl_seconds) = true →
  read_payload loads_encoded int_text limit (json_dumps (λ _, "") (json_sorted (payload ttl_seconds now b p)))
  = Ret (VDict (texts (sorted_texts b)), unix_seconds now + ttl_seconds, VDict (texts (sorted_texts p))).
Proof.
  intros Hb%texts_printable Hp%texts_printable He.
  assert (printable is_ascii safe_int (payload ttl_seconds now b p) = true) as Hok.
  { unfold payload. cbn [printable forallb]. cbn [printable] in Hb, Hp. by rewrite Hb, He, Hp. }
  unfold read_payload, loads_bytes. rewrite (json_dumps_wire _ safe_int) by (by rewrite printable_sorted).
  unfold json_dumps. rewrite (loads_print default_hooks json_string (λ _, "") is_ascii safe_int quotes_ascii default_hooks_int default_hooks_pairs).
  - by rewrite payload_sorted.
  - by rewrite printable_sorted.
  - rewrite vdepth_sorted. unfold payload. cbn [vdepth foldr snd]. pose proof (texts_depth b). pose proof (texts_depth p). cbn [vdepth] in *. lia.
Qed.

Lemma b64encode_dotless b : Forall (λ c, Ascii.eqb c "."%char = false) (chars (_b64encode b)).
Proof.
  pose proof (b64encode_plain b) as H. rewrite string_forall_chars, forallb_forall in H. apply Forall_forall. intros c Hc.
  apply negb_true_iff, H. by apply list_elem_of_In.
Qed.

(** C40: A cursor read under the binding it was made for, and before it expires, gives back
    its position; under another binding, or later, it is refused for that reason. *)
Theorem cursor_codec_roundtrip now now' b p b' :
  ascii_texts b = true → ascii_texts p = true → safe_int (unix_seconds now + ttl_seconds) = true → NoDup b'.*1 →
  (b ≡ₚ b' → unix_seconds now' ≤ unix_seconds now + ttl_seconds → decode now' (encode now b p) b' = Ret (sorted_texts p)) ∧
  (b ≡ₚ b' → unix_seconds now + ttl_seconds < unix_seconds now' →
     decode now' (encode now b p) b' = Raise (CursorError "Cursor has expired")) ∧
  (¬ b ≡ₚ b' → decode now' (encode now b p) b' = Raise (CursorError "Cursor binding does not match this request")).
Proof.
  intros Hb Hp He Hnd. pose proof (payload_reads now b p Hb Hp He) as Hread.
  assert (NoDup (sorted_texts b).*1) as Hnb.
  { unfold ascii_texts in Hb. apply andb_true_iff in Hb as [Hb _]. apply bool_decide_eq_true in Hb.
    unfold sorted_texts. by rewrite py_sorted_perm. }
  assert (sorted_texts b ≡ₚ b) as Hperm by apply py_sorted_perm.
  unfold Cursors.decode, Cursors.encode. rewrite partition_dot_app by apply b64encode_dotless.
  rewrite b64encode_plain, !b64decode_encode. cbn [raise_when negb except]. rewrite !bind_Ret_l.
  rewrite String.eqb_refl. cbn [raise_when negb]. rewrite bind_Ret_l, Hread. cbn [except]. rewrite bind_Ret_l.
  assert (py_eq (VDict (texts (sorted_texts b))) (VDict (texts b')) = true ↔ b ≡ₚ b') as Heq.
  { rewrite texts_eq by done. by rewrite Hperm. }
  split_and!; intros H1.
  - intros H2. rewrite (proj2 Heq H1). destruct (Z.ltb_spec (unix_seconds now + ttl_seconds) (unix_seconds now')); [lia|].
    cbn [raise_when negb]. rewrite !bind_Ret_l. by rewrite as_text_texts.
  - intros H2. rewrite (proj2 Heq H1). destruct (Z.ltb_spec (unix_seconds now + ttl_seconds) (unix_seconds now')); [done|lia].
  - destruct (py_eq _ _); [|done]. by destruct H1; apply Heq.
Qed.

(** Whatever is accepted carries the HMAC of its payload under the key, and that payload
    names the binding of the request and an expiry that has not passed. *)
Theorem accepted_cursor_signed now cursor b position :
  decode now cursor b = Ret position →
  ∃ raw binding expires_at d,
    cursor = _b64encode raw +:+ "." +:+ _b64encode (hmac_sha256 signing_key raw) ∧
    read_payload loads_encoded int_text limit raw = Ret (binding, expires_at, VDict d) ∧
    py_eq binding (VDict (texts b)) = true ∧ unix_seconds now ≤ expires_at ∧ mapM as_text d = Some position.
Proof.
  unfold Cursors.decode. intros H. destruct (partition_dot cursor) as [l [r|]] eqn:Hc; [|done].
  apply bind_Ret in H as ([] & _ & H). apply bind_Ret in H as (raw & Hraw & H). apply bind_Ret in H as (sig & Hsig & H).
  apply bind_Ret in H as ([] & Hs & H). apply bind_Ret in H as ([[binding expires] pos] & Hread & H).
  apply bind_Ret in H as ([] & Hb & H). apply bind_Ret in H as ([] & He & H).
  rewrite raise_when_Ret in Hs, Hb, He. apply negb_false_iff in Hs, Hb. apply String.eqb_eq in Hs as ->.
  unfold except in Hraw, Hsig, Hread.
  destruct (_b64decode l) as [?|] eqn:El; [|by destruct (bool_decide _)]. injection Hraw as ->.
  destruct (_b64decode r) as [?|] eqn:Er; [|by destruct (bool_decide _)]. injection Hsig as ->.
  destruct (read_payload _ _ _ _) as [?|] eqn:Ep; [|by destruct (bool_decide _)]. injection Hread as ->.
  destruct pos as [| | | | | |d]; try done. apply or_raise_Ret in H.
  exists raw, binding, expires, d. rewrite (b64decode_Ret _ _ El), (b64decode_Ret _ _ Er). split_and!; [|done..|lia|done].
  by apply partition_dot_eq.
Qed.
End roundtrip.

(** ** A sample *)

Definition sample_hmac (key message : string) : string := key +:+ message.
Definition sample_binding : list (string * string) := [("worker_id", "w"); ("operation", "workerGetReconciliation")].
Local Notation sample_encoded := (encode sample_hmac "key" 300 7000000 sample_binding [("allocation_id", "a")]).
Local Notation sample_decode now cursor b :=
  (decode sample_hmac (λ _, Raise JSONDecodeError) (λ _, Raise (ValueError "")) 100 "key" now cursor b).

Lemma sample_rotated : sample_binding ≡ₚ reverse sample_binding.
Proof. by rewrite reverse_Permutation. Qed.
Lemma sample_other : ¬ sample_binding ≡ₚ [("worker_id", "other")].
Proof. intros H%Permutation_length. discriminate H. Qed.

Lemma cursor_codec_roundtrip_witness :
  sample_decode 307000000 sample_encoded (reverse sample_binding) = Ret [("allocation_id", "a")] ∧
  sample_decode 308000000 sample_encoded (reverse sample_binding) = Raise (CursorError "Cursor has expired") ∧
  sample_decode 7000000 sample_encoded [("worker_id", "other")] = Raise (CursorError "Cursor binding does not match this request").
Proof.
  assert (2 ≤ 100)%nat as Hl by lia. assert (NoDup (reverse sample_binding).*1) as Hn by (apply (bool_decide_unpack _); by vm_compute).
  split_and!.
  - apply (cursor_codec_roundtrip sample_hmac _ _ 100 "key" 300 Hl 7000000 307000000 sample_binding [("allocation_id", "a")]
      (reverse sample_binding) eq_refl eq_refl eq_refl Hn); [apply sample_rotated|by vm_compute].
  - apply (cursor_codec_roundtrip sample_hmac _ _ 100 "key" 300 Hl 7000000 308000000 sample_binding [("allocation_id", "a")]
      (reverse sample_binding) eq_refl eq_refl eq_refl Hn); [apply sample_rotated|by vm_compute].
  - apply (cursor_codec_roundtrip sample_hmac _ _ 100 "key" 300 Hl 7000000 7000000 sample_binding [("allocation_id", "a")]
      [("worker_id", "other")] eq_refl eq_refl eq_refl); [apply NoDup_singleton|apply sample_other].
Defined.
