(* ===== verification/Leadership.v ===== *)
(** * Coordinator leadership

    [src/nexa/coordinator/service.py]: [acquire], [renew], [_leader] and [_live]
    on the single row of [coordinator_leadership].  Each is one transaction that
    holds the row lock (or one read of the row), at the database time [now], in
    microseconds.  A history interleaves the transactions of any number of
    coordinator processes. *)

From S2P Require Import Prelude.

Local Open Scope string_scope.
Local Open Scope list_scope.
Local Open Scope Z_scope.

Record LeaderRow := {
  lr_holder_id : option string;
  lr_epoch : Z;
  lr_renewed_at : option Z;
  lr_lease_expires_at : option Z;
}.

(** The table: no row before the first [acquire]. *)
Notation leadership := (option LeaderRow).

Definition LeadershipLost : exn :=
  Exn "LeadershipLost" "coordinator leadership is no longer live".

(** [timedelta(seconds=15)] *)
Definition lease_seconds : Z := 15000000.

Definition acquire (holder_id : string) (now : Z) (db : leadership) : option Z * leadership :=
  let row := default {| lr_holder_id := None; lr_epoch := 0; lr_renewed_at := None;
                        lr_lease_expires_at := None |} db in
  let live := match lr_lease_expires_at row with Some expires => now <? expires | None => false end in
  if live
  then (if bool_decide (lr_holder_id row = Some holder_id) then Some (lr_epoch row) else None, Some row)
  else
    let epoch := lr_epoch row + 1 in
    (Some epoch, Some {| lr_holder_id := Some holder_id; lr_epoch := epoch; lr_renewed_at := Some now;
                         lr_lease_expires_at := Some (now + lease_seconds) |}).

(** The guard every coordinator transaction runs.  Comparing a missing lease
    time with [now] is a [TypeError]. *)
Definition _leader (holder_id : string) (epoch now : Z) (db : leadership) : outcome exn Z :=
  match db with
  | None => Raise LeadershipLost
  | Some row =>
      if bool_decide (lr_holder_id row ≠ Some holder_id) || negb (lr_epoch row =? epoch)
      then Raise LeadershipLost
      else
        match lr_lease_expires_at row with
        | None => Raise (Exn "TypeError" "")
        | Some expires => raise_when (expires <=? now) LeadershipLost;; Ret now
        end
  end.

Definition _live (holder_id : string) (epoch now : Z) (db : leadership) : outcome exn Z :=
  _leader holder_id epoch now db.

Definition renew (holder_id : string) (epoch now : Z) (db : leadership)
    : outcome exn bool * leadership :=
  match _leader holder_id epoch now db with
  | Ret now =>
      (Ret true,
       (λ row, {| lr_holder_id := lr_holder_id row; lr_epoch := lr_epoch row;
                  lr_renewed_at := Some now; lr_lease_expires_at := Some (now + lease_seconds) |})
       <$> db)
  | Raise e => (if bool_decide (exn_class e = "LeadershipLost") then Ret false else Raise e, db)
  end.

(** ** Histories *)

Inductive LeaderEvent :=
| Acquire (holder_id : string) (now : Z)
| Renew (holder_id : string) (epoch now : Z).

Definition event_time (ev : LeaderEvent) : Z :=
  match ev with Acquire _ now | Renew _ _ now => now end.
Definition event_holder (ev : LeaderEvent) : string :=
  match ev with Acquire h _ | Renew h _ _ => h end.

Definition leader_step (db : leadership) (ev : LeaderEvent) : leadership :=
  match ev with
  | Acquire h now => snd (acquire h now db)
  | Renew h epoch now => snd (renew h epoch now db)
  end.

Definition leader_run (db : leadership) (events : list LeaderEvent) : leadership :=
  foldl leader_step db events.

(** The epochs a history hands out, oldest first. *)
Fixpoint grants (db : leadership) (events : list LeaderEvent) : list (Z * string) :=
  match events with
  | [] => []
  | ev :: events =>
      match ev with
      | Acquire h now =>
          match fst (acquire h now db) with Some epoch => [(epoch, h)] | None => [] end
      | Renew _ _ _ => []
      end ++ grants (leader_step db ev) events
  end.

(** Only [_leader]'s holder of the current epoch passes. *)
Lemma leader_Ret h epoch now db t :
  _leader h epoch now db = Ret t ↔
  t = now ∧ ∃ row expires, db = Some row ∧ lr_holder_id row = Some h ∧ lr_epoch row = epoch ∧
    lr_lease_expires_at row = Some expires ∧ now < expires.
Proof.
  unfold _leader. destruct db as [row|]; [|naive_solver].
  destruct (bool_decide (lr_holder_id row ≠ Some h) || negb (lr_epoch row =? epoch)) eqn:Hb.
  - split; [done|]. intros (_ & row' & ex & [= <-] & Hh & He & _). exfalso.
    rewrite bool_decide_eq_false_2 in Hb by auto. rewrite He, Z.eqb_refl in Hb. done.
  - apply orb_false_iff in Hb as [Hh He]. bool_simpl. apply dec_stable in Hh.
    destruct (lr_lease_expires_at row) as [ex|] eqn:Hx; [|naive_solver].
    split.
    + intros H. peel H. bool_simpl. simplify_eq. split; [done|]. exists row, ex. auto.
    + intros (-> & row' & ex' & [= <-] & _ & _ & Hex & Hlt).
      assert (ex' = ex) as -> by congruence. by rewrite (proj2 (Z.leb_gt _ _)).
Qed.

(** What a step does to the row. *)
Lemma leader_step_row db ev :
  leader_step db ev = db ∨
  (∃ row, leader_step db ev = Some row ∧ db = None ∧ lr_epoch row = 0 ∧ lr_holder_id row = None) ∨
  (∃ h now, ev = Acquire h now ∧ fst (acquire h now db) = Some (default 0 (lr_epoch <$> db) + 1) ∧
     (∀ row expires, db = Some row → lr_lease_expires_at row = Some expires → expires ≤ now) ∧
     leader_step db ev = Some {| lr_holder_id := Some h; lr_epoch := default 0 (lr_epoch <$> db) + 1;
       lr_renewed_at := Some now; lr_lease_expires_at := Some (now + lease_seconds) |}) ∨
  (∃ h now row, ev = Renew h (lr_epoch row) now ∧ db = Some row ∧ lr_holder_id row = Some h ∧
     _leader h (lr_epoch row) now db = Ret now ∧
     leader_step db ev = Some {| lr_holder_id := Some h; lr_epoch := lr_epoch row;
       lr_renewed_at := Some now; lr_lease_expires_at := Some (now + lease_seconds) |}).
Proof.
  destruct ev as [h now|h epoch now]; simpl.
  - unfold acquire. destruct db as [row|]; simpl.
    + destruct (lr_lease_expires_at row) as [ex|] eqn:Hx; simpl.
      * destruct (now <? ex) eqn:Hlt; [by left|]. right. right. left. exists h, now.
        rewrite Hlt. bool_simpl. split_and!; [done..| |done].
        intros row' ex' Heq Hex. assert (ex' = ex) as -> by congruence. done.
      * right. right. left. exists h, now. split_and!; [done..| |done].
        intros row' ex Heq Hex. congruence.
    + right. right. left. exists h, now. split_and!; done.
  - unfold renew. destruct (_leader h epoch now db) as [t|e] eqn:Hl; [|by left].
    pose proof Hl as Hl'. apply leader_Ret in Hl' as (-> & row & ex & -> & Hh & He & _).
    right. right. right. exists h, now, row. subst epoch. split_and!; [done..|].
    simpl. by rewrite Hh.
Qed.

(** Everything a history granted, against the row it leaves. *)
Definition grants_ok (db : leadership) (gs : list (Z * string)) : Prop :=
  ∀ e h, (e, h) ∈ gs → ∃ row, db = Some row ∧ e ≤ lr_epoch row ∧
    (e = lr_epoch row → lr_holder_id row = Some h).

Lemma acquire_live h now db e :
  fst (acquire h now db) = Some e →
  (∃ row, db = Some row ∧ lr_holder_id row = Some h ∧ e = lr_epoch row ∧
     snd (acquire h now db) = db) ∨
  (e = default 0 (lr_epoch <$> db) + 1 ∧
   snd (acquire h now db) = Some {| lr_holder_id := Some h; lr_epoch := e;
     lr_renewed_at := Some now; lr_lease_expires_at := Some (now + lease_seconds) |}).
Proof.
  unfold acquire. destruct db as [row|]; simpl; [|intros [= <-]; right; done].
  destruct (lr_lease_expires_at row) as [ex|]; simpl; [|intros [= <-]; right; done].
  destruct (now <? ex); simpl; [|intros [= <-]; right; done].
  case_bool_decide; [|done]. intros [= <-]. left. eauto.
Qed.

Lemma grants_ok_step db ev gs :
  grants_ok db gs →
  grants_ok (leader_step db ev)
    (gs ++ match ev with
           | Acquire h now => match fst (acquire h now db) with Some e => [(e, h)] | None => [] end
           | Renew _ _ _ => []
           end).
Proof.
  intros Hgs e h [Hin|Hin]%elem_of_app.
  - destruct (Hgs e h Hin) as (row & -> & Hle & Heq).
    destruct (leader_step_row (Some row) ev)
      as [->|[(r & -> & ? & _)|[(h' & t & _ & _ & _ & ->)|(h' & t & r & _ & [= <-] & Hh & _ & ->)]]];
      [eauto|done| |]; simpl; eexists; (split; [done|]); simpl; [split; lia|].
    split; [lia|]. intros He. specialize (Heq He). congruence.
  - destruct ev as [h' now|]; [|set_solver]. simpl.
    destruct (fst (acquire h' now db)) as [e'|] eqn:Ha; [|set_solver].
    apply list_elem_of_singleton in Hin as [= -> ->].
    apply acquire_live in Ha as [(row & -> & Hh & -> & Hs)|[_ Hs]]; rewrite Hs;
      eexists; (split; [done|]); simpl; auto with lia.
Qed.

Lemma grants_run db gs events :
  grants_ok db gs → grants_ok (leader_run db events) (gs ++ grants db events).
Proof.
  unfold leader_run. revert db gs. induction events as [|ev events IH]; simpl; intros db gs Hgs;
    [by rewrite app_nil_r|].
  rewrite app_assoc. by apply IH, grants_ok_step.
Qed.

Lemma grants_app db evs evs' : grants db (evs ++ evs') = grants db evs ++ grants (leader_run db evs) evs'.
Proof.
  unfold leader_run. revert db. induction evs as [|ev evs IH]; simpl; intros db; [done|].
  by rewrite IH, app_assoc.
Qed.

Definition one_holder (gs : list (Z * string)) : Prop :=
  ∀ e h h', (e, h) ∈ gs → (e, h') ∈ gs → h = h'.

(** The row's holder was granted the row's epoch. *)
Definition row_granted (db : leadership) (gs : list (Z * string)) : Prop :=
  ∀ row h, db = Some row → lr_holder_id row = Some h → (lr_epoch row, h) ∈ gs.

Lemma history_grants db gs events :
  grants_ok db gs → one_holder gs → row_granted db gs →
  one_holder (gs ++ grants db events) ∧ row_granted (leader_run db events) (gs ++ grants db events).
Proof.
  unfold leader_run. revert db gs.
  induction events as [|ev events IH]; simpl; intros db gs Hok Hone Hrow; [by rewrite app_nil_r|].
  rewrite app_assoc. apply IH; [by apply grants_ok_step| |].
  - destruct ev as [h now|]; [|by rewrite app_nil_r].
    destruct (fst (acquire h now db)) as [e|] eqn:Ha; [|by rewrite app_nil_r].
    assert (∀ h', (e, h') ∈ gs → h' = h) as Hnew.
    { intros h' Hin. destruct (Hok e h' Hin) as (row & -> & Hle & Heq).
      apply acquire_live in Ha as [(r & [= <-] & Hh & -> & _)|[-> _]]; [|simpl in Hle; lia].
      specialize (Heq eq_refl). congruence. }
    intros e1 h1 h2 [H1|H1]%elem_of_app [H2|H2]%elem_of_app;
      rewrite ?list_elem_of_singleton in *; simplify_eq; eauto. symmetry. eauto.
  - intros row h Hdb Hh. apply elem_of_app.
    destruct (leader_step_row db ev) as [Hs|[(r & Hs & _ & _ & Hn)|[(h' & t & -> & Ha & _ & Hs)|
      (h' & t & r & -> & -> & Hr & _ & Hs)]]]; rewrite Hs in Hdb.
    + left. by apply Hrow.
    + congruence.
    + right. rewrite Ha. simplify_eq. simpl in *. simplify_eq. by apply list_elem_of_singleton.
    + left. simplify_eq. simpl in *. simplify_eq. by apply Hrow.
Qed.

(** C24: an epoch identifies one coordinator.  Whatever coordinators acquire and
    renew, at whatever clock readings, no epoch is ever granted to two holders;
    and the only coordinator that passes the leadership guard is the holder of
    the highest epoch granted so far, so a coordinator that lost leadership
    stays fenced off for good. *)
Theorem leader_epochs_fence events :
  one_holder (grants None events) ∧
  ∀ h epoch now t, _leader h epoch now (leader_run None events) = Ret t →
    (epoch, h) ∈ grants None events ∧
    ∀ e h', (e, h') ∈ grants None events → e ≤ epoch ∧ (e = epoch → h' = h).
Proof.
  assert (grants_ok None []) as H0 by (intros e h Hin; by apply not_elem_of_nil in Hin).
  destruct (history_grants None [] events) as [Hone Hrow]; [done| |done|].
  { intros e h h' Hin. by apply not_elem_of_nil in Hin. }
  split; [done|]. intros h epoch now t (_ & row & ex & Hdb & Hh & <- & _)%leader_Ret.
  split; [by apply Hrow|]. intros e h' Hin.
  destruct (grants_run None [] events H0 e h' Hin) as (row' & Hdb' & Hle & Heq).
  rewrite Hdb in Hdb'. injection Hdb' as <-. split; [done|]. intros He. specialize (Heq He). congruence.
Qed.

(** C25: a live lease is exclusive.  While the lease a coordinator acquired or
    renewed has not run out, no other coordinator is granted anything, whatever
    the others try, and the holder keeps passing the guard. *)
Theorem leader_lease_exclusive h epoch now db row expires events :
  _leader h epoch now db = Ret now → db = Some row → lr_lease_expires_at row = Some expires →
  Forall (λ ev, event_holder ev ≠ h ∧ event_time ev < expires) events →
  grants db events = [] ∧
  ∀ t, t < expires → _leader h epoch t (leader_run db events) = Ret t.
Proof.
  intros (_ & r & ex & Hdb & Hh & He & Hex & Hlt)%leader_Ret -> Hexp Hall.
  assert (leader_run (Some row) events = Some row ∧ grants (Some row) events = []) as [-> ->].
  { unfold leader_run. simplify_eq. induction Hall as [|ev events [Hne Htime] Hall IH]; [done|]. simpl.
    assert (leader_step (Some r) ev = Some r ∧
      match ev with
      | Acquire h' t => fst (acquire h' t (Some r)) = None | Renew _ _ _ => True end) as [Hs Hg].
    { destruct ev as [h' t|h' e t]; simpl in *.
      - unfold acquire. simpl. rewrite Hex, (proj2 (Z.ltb_lt _ _)) by done.
        rewrite bool_decide_eq_false_2 by congruence. done.
      - unfold renew. destruct (_leader h' e t (Some r)) as [t'|] eqn:Hl; [|done].
        apply leader_Ret in Hl as (_ & r' & ex' & [= <-] & Hh' & _). congruence. }
    rewrite Hs. destruct IH as [-> ->]. destruct ev; [by rewrite Hg|done]. }
  split; [done|]. intros t Ht. apply leader_Ret. split; [done|]. exists r, ex. simplify_eq. auto.
Qed.

(** leadership is never lost for good.  Once the lease has run out, or
    before any, the next coordinator to call [acquire] is granted the next
    epoch and passes the guard for the following 15 s, and from then on the
    previous holder never passes it again with its old epoch. *)
Theorem leader_takeover h now db :
  (∀ row expires, db = Some row → lr_lease_expires_at row = Some expires → expires ≤ now) →
  ∃ epoch, acquire h now db = (Some epoch, leader_run db [Acquire h now]) ∧
    epoch = default 0 (lr_epoch <$> db) + 1 ∧
    (∀ t, t < now + lease_seconds → _leader h epoch t (leader_run db [Acquire h now]) = Ret t) ∧
    ∀ h' old t events, old < epoch →
      _leader h' old t (leader_run db (Acquire h now :: events)) ≠ Ret t.
Proof.
  intros Hexp. exists (default 0 (lr_epoch <$> db) + 1).
  assert (acquire h now db = (Some (default 0 (lr_epoch <$> db) + 1),
    Some {| lr_holder_id := Some h; lr_epoch := default 0 (lr_epoch <$> db) + 1;
      lr_renewed_at := Some now; lr_lease_expires_at := Some (now + lease_seconds) |})) as Ha.
  { unfold acquire. destruct db as [row|]; [|done]. simpl.
    destruct (lr_lease_expires_at row) as [ex|] eqn:Hx; [|done].
    by rewrite (proj2 (Z.ltb_ge _ _)) by (by eapply Hexp). }
  unfold leader_run at 1 2. cbn [foldl leader_step]. rewrite Ha. cbn [snd].
  split_and!; [done..| |].
  - intros t Ht. apply leader_Ret. split; [done|]. eexists _, _. split_and!; done.
  - intros h' old t events Hold (_ & row & ex & Hdb & _ & He & _)%leader_Ret.
    unfold leader_run in Hdb. cbn [foldl leader_step] in Hdb. rewrite Ha in Hdb.
    cbn [snd] in Hdb.
    match type of Hdb with foldl _ (Some ?r0) _ = _ => set (r := r0) in * end.
    assert (grants_ok (Some r) [(lr_epoch r, h)]) as Hg.
    { intros e h1 Hin%list_elem_of_singleton. exists r.
      injection Hin as He1 Hh1. rewrite He1, Hh1. split_and!; [done|reflexivity|done]. }
    destruct (grants_run (Some r) _ events Hg (lr_epoch r) h) as (row' & Hdb' & Hle & _);
      [apply elem_of_app; left; by apply list_elem_of_singleton|].
    unfold leader_run in Hdb'. rewrite Hdb in Hdb'. injection Hdb' as <-. simpl in Hle. lia.
Qed.

(** ** Evaluation *)

Definition sample_events : list LeaderEvent :=
  [Acquire "c1" 0; Acquire "c2" 1000; Renew "c1" 1 9000000; Acquire "c2" 25000000; Renew "c1" 1 26000000].

Example sample_grants : grants None sample_events = [(1, "c1"); (2, "c2")].
Proof. vm_compute. reflexivity. Qed.

Lemma leader_lease_exclusive_witness :
  grants (leader_run None [Acquire "c1" 0]) [Acquire "c2" 1000; Renew "c2" 1 2000] = [].
Proof.
  apply (leader_lease_exclusive "c1" 1 10 (leader_run None [Acquire "c1" 0])
    {| lr_holder_id := Some "c1"; lr_epoch := 1; lr_renewed_at := Some 0;
       lr_lease_expires_at := Some lease_seconds |} lease_seconds).
  - reflexivity.
  - reflexivity.
  - reflexivity.
  - repeat constructor; simpl; first [discriminate|reflexivity].
Defined.

Lemma leader_takeover_witness :
  ∃ epoch, acquire "c2" 25000000 (leader_run None [Acquire "c1" 0])
           = (Some epoch, leader_run (leader_run None [Acquire "c1" 0]) [Acquire "c2" 25000000]) ∧
    epoch = 2.
Proof.
  destruct (leader_takeover "c2" 25000000 (leader_run None [Acquire "c1" 0])) as (e & H1 & H2 & _).
  - intros row expires Hr He. simpl in Hr. injection Hr as <-. simpl in He. injection He as <-.
    unfold lease_seconds. lia.
  - exists e. split; [exact H1|exact H2].
Defined.
