(* ===== verification/Persistence.v ===== *)
(** * Identifiers and transactions

    [src/nexa/infrastructure/persistence/ids.py]: [new_uuid7], with its
    process-wide state, on 128-bit integers; and
    [src/nexa/infrastructure/persistence/transactions.py]: [run_transaction],
    which retries an operation on serialization failures.  The clock, the random
    source, the database's verdict on each attempt and what other transactions
    commit between attempts are inputs. *)

From stdpp Require Import pretty.
From S2P Require Import Prelude.

Local Open Scope string_scope.
Local Open Scope list_scope.
Local Open Scope Z_scope.

(** ** UUIDv7 *)

Definition _RANDOM_BITS : Z := 74.
Definition _RANDOM_MASK : Z := Z.shiftl 1 _RANDOM_BITS - 1.
Definition _RAND_B_MASK : Z := Z.shiftl 1 62 - 1.
Definition _MAX_UNIX_MS : Z := Z.shiftl 1 48 - 1.

Record IdState := { _last_unix_ms : Z; _last_random : Z }.

Definition id_init : IdState := {| _last_unix_ms := -1; _last_random := -1 |}.

Definition uuid7_bits (unix_ms random_bits : Z) : Z :=
  let rand_a := Z.shiftr random_bits 62 in
  let rand_b := Z.land random_bits _RAND_B_MASK in
  Z.lor (Z.lor (Z.lor (Z.lor (Z.shiftl unix_ms 80) (Z.shiftl 7 76)) (Z.shiftl rand_a 64))
           (Z.shiftl 2 62)) rand_b.

(** [time_ns] is what [time.time_ns()] returns and [randbits] what
    [secrets.randbits(74)] returns, if it is called. *)
Definition new_uuid7 (time_ns randbits : Z) (st : IdState) : outcome exn Z * IdState :=
  let unix_ms := time_ns / 1000000 in
  let '(unix_ms, random_bits) :=
    if _last_unix_ms st <? unix_ms then (unix_ms, randbits)
    else
      let unix_ms := _last_unix_ms st in
      let random_bits := Z.land (_last_random st + 1) _RANDOM_MASK in
      if random_bits =? 0 then (unix_ms + 1, randbits) else (unix_ms, random_bits) in
  if _MAX_UNIX_MS <? unix_ms
  then (Raise (Exn "OverflowError" "Unix millisecond timestamp does not fit UUIDv7"), st)
  else (Ret (uuid7_bits unix_ms random_bits),
        {| _last_unix_ms := unix_ms; _last_random := random_bits |}).

(** The generator called with each clock reading and random draw in turn. *)
Fixpoint uuid7_run (inputs : list (Z * Z)) (st : IdState) : list Z :=
  match inputs with
  | [] => []
  | (time_ns, randbits) :: inputs =>
      match new_uuid7 time_ns randbits st with
      | (Ret v, st') => v :: uuid7_run inputs st'
      | (Raise _, st') => uuid7_run inputs st'
      end
  end.

Lemma land_mask n k : 0 ≤ k → Z.land n (Z.shiftl 1 k - 1) = n mod 2 ^ k.
Proof. intros. rewrite Z.shiftl_1_l, <- Z.land_ones by done. f_equal. rewrite Z.ones_equiv. lia. Qed.

(** Disjoint bit fields add up. *)
Lemma lor_shift a b k : 0 ≤ k → 0 ≤ b < 2 ^ k → Z.lor (Z.shiftl a k) b = a * 2 ^ k + b.
Proof.
  intros Hk Hb. rewrite <- Z.add_lor_land, Z.shiftl_mul_pow2 by done.
  assert (Z.land (a * 2 ^ k) b = 0) as ->; [|lia].
  apply Z.bits_inj'. intros n Hn. rewrite Z.land_spec, Z.bits_0.
  destruct (Z.lt_ge_cases n k).
  - by rewrite Z.mul_pow2_bits_low.
  - assert (Z.testbit b n = false) as ->; [|by rewrite andb_false_r].
    apply Z.testbit_false; [done|]. rewrite Z.div_small; [done|]. split; [lia|].
    pose proof (Z.pow_le_mono_r 2 k n). lia.
Qed.

(** The layout: 48 bits of time, version 7, 12 random bits, variant 2 and 62
    random bits. *)
Lemma uuid7_layout ms r :
  0 ≤ r < 2 ^ 74 →
  uuid7_bits ms r = ms * 2 ^ 80 + 7 * 2 ^ 76 + r / 2 ^ 62 * 2 ^ 64 + 2 * 2 ^ 62 + r mod 2 ^ 62.
Proof.
  intros Hr. unfold uuid7_bits, _RAND_B_MASK. rewrite land_mask, Z.shiftr_div_pow2 by done.
  assert (0 ≤ r / 2 ^ 62 < 2 ^ 12) as Ha
    by (split; [apply Z.div_pos; lia|apply Z.div_lt_upper_bound; lia]).
  assert (0 ≤ r mod 2 ^ 62 < 2 ^ 62) as Hb by (apply Z.mod_pos_bound; lia).
  set (a := r / 2 ^ 62) in *. set (b := r mod 2 ^ 62) in *. clearbody a b.
  rewrite <- !Z.lor_assoc.
  rewrite (lor_shift 2 b 62) by lia.
  rewrite (lor_shift a (2 * 2 ^ 62 + b) 64) by lia.
  rewrite (lor_shift 7 (a * 2 ^ 64 + (2 * 2 ^ 62 + b)) 76) by lia.
  rewrite (lor_shift ms (7 * 2 ^ 76 + (a * 2 ^ 64 + (2 * 2 ^ 62 + b))) 80) by lia. lia.
Qed.

(** Later time, or the same time and a larger random part, is a larger UUID. *)
Lemma uuid7_lex ms r ms' r' :
  0 ≤ r < 2 ^ 74 → 0 ≤ r' < 2 ^ 74 → (ms < ms' ∨ ms = ms' ∧ r < r') →
  uuid7_bits ms r < uuid7_bits ms' r'.
Proof.
  intros Hr Hr' Hlt. rewrite !uuid7_layout by done.
  assert (∀ x, 0 ≤ x < 2 ^ 74 → 0 ≤ x / 2 ^ 62 < 2 ^ 12 ∧ 0 ≤ x mod 2 ^ 62 < 2 ^ 62 ∧
            x = 2 ^ 62 * (x / 2 ^ 62) + x mod 2 ^ 62) as Hsplit.
  { intros x Hx. split_and!; [apply Z.div_pos; lia|apply Z.div_lt_upper_bound; lia
      |apply Z.mod_pos_bound; lia..|apply Z.div_mod; lia]. }
  destruct (Hsplit r Hr) as (A & B & C). destruct (Hsplit r' Hr') as (A' & B' & C').
  set (a := r / 2 ^ 62) in *. set (b := r mod 2 ^ 62) in *.
  set (a' := r' / 2 ^ 62) in *. set (b' := r' mod 2 ^ 62) in *. clearbody a b a' b'. lia.
Qed.

Definition id_state_ok (st : IdState) : Prop :=
  st = id_init ∨ 0 ≤ _last_unix_ms st ≤ _MAX_UNIX_MS ∧ 0 ≤ _last_random st < 2 ^ 74.

Lemma new_uuid7_Ret t rnd st v st' :
  id_state_ok st → 0 ≤ rnd < 2 ^ 74 → new_uuid7 t rnd st = (Ret v, st') →
  (0 ≤ _last_unix_ms st' ≤ _MAX_UNIX_MS ∧ 0 ≤ _last_random st' < 2 ^ 74) ∧
  v = uuid7_bits (_last_unix_ms st') (_last_random st') ∧
  t / 1000000 ≤ _last_unix_ms st' ∧
  (_last_unix_ms st < _last_unix_ms st' ∨
   _last_unix_ms st = _last_unix_ms st' ∧ _last_random st < _last_random st').
Proof.
  intros Hok Hrnd. unfold new_uuid7.
  assert (-1 ≤ _last_unix_ms st ∧ -1 ≤ _last_random st < 2 ^ 74) as [Hms Hr]
    by (destruct Hok as [->|]; simpl; lia).
  assert (_last_unix_ms st = -1 → _last_random st = -1) as Hinit
    by (destruct Hok as [->|]; simpl; lia). clear Hok.
  destruct (Z.ltb_spec (_last_unix_ms st) (t / 1000000)) as [Hlt|Hge].
  - destruct (Z.ltb_spec _MAX_UNIX_MS (t / 1000000)); [done|]. intros [= <- <-]. simpl. lia.
  - unfold _RANDOM_MASK, _RANDOM_BITS. rewrite land_mask by done.
    destruct (Z.eqb_spec ((_last_random st + 1) mod 2 ^ 74) 0) as [Hz|Hz].
    + destruct (Z.ltb_spec _MAX_UNIX_MS (_last_unix_ms st + 1)); [done|]. intros [= <- <-]. simpl. lia.
    + destruct (Z.ltb_spec _MAX_UNIX_MS (_last_unix_ms st)); [done|]. intros [= <- <-]. simpl.
      assert (_last_random st + 1 < 2 ^ 74) as Hs.
      { destruct (Z.eq_dec (_last_random st + 1) (2 ^ 74)) as [Heq|]; [|lia].
        rewrite Heq, Z.mod_same in Hz; lia. }
      assert (_last_unix_ms st ≠ -1) as Hn1.
      { intros Heq. rewrite (Hinit Heq) in Hz. by rewrite Z.mod_small in Hz by lia. }
      rewrite (Z.mod_small (_last_random st + 1)) in * by lia. lia.
Qed.

Lemma new_uuid7_Raise t rnd st e st' :
  new_uuid7 t rnd st = (Raise e, st') →
  st' = st ∧ _MAX_UNIX_MS ≤ Z.max (t / 1000000) (_last_unix_ms st).
Proof.
  unfold new_uuid7. repeat case_match; intros; simplify_eq; split; [done|lia|done|lia|done|lia].
Qed.

Lemma new_uuid7_ok t rnd st :
  id_state_ok st → 0 ≤ rnd < 2 ^ 74 → id_state_ok (new_uuid7 t rnd st).2.
Proof.
  intros Hok Hr. destruct (new_uuid7 t rnd st) as [[v|e] st'] eqn:Hn; simpl.
  - right. apply (new_uuid7_Ret _ _ _ _ _ Hok Hr Hn).
  - by destruct (new_uuid7_Raise _ _ _ _ _ Hn) as [-> _].
Qed.

Lemma uuid7_run_increasing inputs st :
  id_state_ok st → Forall (λ i : Z * Z, 0 ≤ i.2 < 2 ^ 74) inputs →
  StronglySorted Z.lt (uuid7_run inputs st) ∧
  Forall (λ v, 0 ≤ _last_random st < 2 ^ 74 → uuid7_bits (_last_unix_ms st) (_last_random st) < v)
    (uuid7_run inputs st).
Proof.
  revert st. induction inputs as [|[t rnd] inputs IH]; intros st Hok Hin; simpl; [by split; constructor|].
  inversion Hin as [|? ? Hr Hin']; subst. simpl in Hr.
  destruct (new_uuid7 t rnd st) as [[v|e] st'] eqn:Hnew.
  - destruct (new_uuid7_Ret _ _ _ _ _ Hok Hr Hnew) as ([Hms' Hr'] & -> & _ & Hlt).
    destruct (IH st' ltac:(by right) Hin') as [Hs Hall].
    assert (Forall (Z.lt (uuid7_bits (_last_unix_ms st') (_last_random st'))) (uuid7_run inputs st'))
      as Hall' by (eapply Forall_impl; [exact Hall|]; simpl; auto).
    split; [by constructor|].
    constructor; [intros; by apply uuid7_lex|].
    eapply Forall_impl; [exact Hall'|]. simpl. intros x Hx Hst.
    pose proof (uuid7_lex _ _ _ _ Hst Hr' Hlt). lia.
  - destruct (new_uuid7_Raise _ _ _ _ _ Hnew) as [-> _]. by apply IH.
Qed.

Lemma uuid7_fields ms r :
  0 ≤ ms ≤ _MAX_UNIX_MS → 0 ≤ r < 2 ^ 74 →
  0 ≤ uuid7_bits ms r < 2 ^ 128 ∧
  Z.land (Z.shiftr (uuid7_bits ms r) 76) 15 = 7 ∧
  Z.land (Z.shiftr (uuid7_bits ms r) 62) 3 = 2 ∧
  Z.shiftr (uuid7_bits ms r) 80 = ms.
Proof.
  intros Hms Hr. unfold _MAX_UNIX_MS in Hms.
  assert (0 ≤ ms < 2 ^ 48) as Hms' by (rewrite Z.shiftl_1_l in Hms; lia). clear Hms.
  rewrite uuid7_layout by done.
  assert (0 ≤ r / 2 ^ 62 < 2 ^ 12) as Ha
    by (split; [apply Z.div_pos; lia|apply Z.div_lt_upper_bound; lia]).
  assert (0 ≤ r mod 2 ^ 62 < 2 ^ 62) as Hb by (apply Z.mod_pos_bound; lia).
  set (a := r / 2 ^ 62) in *. set (b := r mod 2 ^ 62) in *. clearbody a b.
  change 15 with (Z.ones 4). change 3 with (Z.ones 2).
  rewrite !Z.land_ones, !Z.shiftr_div_pow2 by lia.
  split_and!; [lia..|symmetry|symmetry|symmetry].
  - rewrite <- (Z.div_unique _ _ (ms * 2 ^ 4 + 7) (a * 2 ^ 64 + 2 * 2 ^ 62 + b)) by lia.
    apply (Z.mod_unique _ _ ms); lia.
  - rewrite <- (Z.div_unique _ _ ((ms * 2 ^ 80 + 7 * 2 ^ 76 + a * 2 ^ 64) / 2 ^ 62 + 2) b).
    + apply (Z.mod_unique _ _ ((ms * 2 ^ 80 + 7 * 2 ^ 76 + a * 2 ^ 64) / 2 ^ 64)); [lia|].
      rewrite <- (Z.div_unique _ _ (ms * 2 ^ 18 + 7 * 2 ^ 14 + a * 2 ^ 2) 0) by lia.
      rewrite <- (Z.div_unique _ _ (ms * 2 ^ 16 + 7 * 2 ^ 12 + a) 0) by lia. lia.
    + lia.
    + rewrite <- (Z.div_unique _ _ (ms * 2 ^ 18 + 7 * 2 ^ 14 + a * 2 ^ 2) 0) by lia. lia.
  - apply (Z.div_unique _ _ _ (7 * 2 ^ 76 + a * 2 ^ 64 + 2 * 2 ^ 62 + b)); lia.
Qed.

Lemma uuid7_run_fields inputs st :
  id_state_ok st → Forall (λ i : Z * Z, 0 ≤ i.2 < 2 ^ 74) inputs →
  Forall (λ v, 0 ≤ v < 2 ^ 128 ∧ Z.land (Z.shiftr v 76) 15 = 7 ∧ Z.land (Z.shiftr v 62) 3 = 2)
    (uuid7_run inputs st).
Proof.
  revert st. induction inputs as [|[t rnd] inputs IH]; intros st Hok Hin; simpl; [constructor|].
  inversion Hin as [|? ? Hr Hin']; subst. simpl in Hr.
  pose proof (new_uuid7_ok t rnd st Hok Hr) as Hok'.
  destruct (new_uuid7 t rnd st) as [[v|e] st'] eqn:Hnew; [|by apply IH].
  constructor; [|by apply IH].
  destruct (new_uuid7_Ret _ _ _ _ _ Hok Hr Hnew) as ([Hms' Hr'] & -> & _).
  destruct (uuid7_fields _ _ Hms' Hr') as (? & ? & ? & _). done.
Qed.

Lemma uuid7_states_ok inputs st :
  id_state_ok st → Forall (λ i : Z * Z, 0 ≤ i.2 < 2 ^ 74) inputs →
  id_state_ok (foldl (λ s i, (new_uuid7 i.1 i.2 s).2) st inputs).
Proof.
  revert st. induction inputs as [|[t rnd] inputs IH]; intros st Hok Hin; simpl; [done|].
  inversion Hin; subst. apply IH; [|done]. by apply new_uuid7_ok.
Qed.

(** UUIDv7 generation ([new_uuid7] from process start), whatever the clock
    does between calls, backwards steps included, and whatever the random source
    draws: the generated identifiers are strictly increasing, hence distinct; each
    fits 128 bits, carries version 7 and the RFC variant, and its time field is at
    least the clock reading of its call. *)
Theorem uuid7_process_monotonic inputs :
  Forall (λ i : Z * Z, 0 ≤ i.2 < 2 ^ 74) inputs →
  StronglySorted Z.lt (uuid7_run inputs id_init) ∧
  Forall (λ v, 0 ≤ v < 2 ^ 128 ∧ Z.land (Z.shiftr v 76) 15 = 7 ∧ Z.land (Z.shiftr v 62) 3 = 2)
    (uuid7_run inputs id_init) ∧
  ∀ before time_ns randbits after,
    inputs = before ++ (time_ns, randbits) :: after →
    ∀ st, st = foldl (λ s i, (new_uuid7 i.1 i.2 s).2) id_init before →
    match new_uuid7 time_ns randbits st with
    | (Ret v, _) => time_ns / 1000000 ≤ Z.shiftr v 80
    | (Raise _, st') => st' = st ∧ _MAX_UNIX_MS ≤ Z.max (time_ns / 1000000) (_last_unix_ms st)
    end.
Proof.
  intros Hin. split_and!.
  - apply uuid7_run_increasing; [by left|done].
  - apply uuid7_run_fields; [by left|done].
  - intros before t rnd after -> st ->.
    apply Forall_app in Hin as [Hb Ha]. inversion Ha as [|? ? Hr _]; subst. simpl in Hr.
    pose proof (uuid7_states_ok before id_init ltac:(by left) Hb) as Hok.
    destruct (new_uuid7 _ _ _) as [[v|e] st'] eqn:Hnew; [|by eapply new_uuid7_Raise].
    destruct (new_uuid7_Ret _ _ _ _ _ Hok Hr Hnew) as ([Hms Hr'] & -> & Ht & _).
    by destruct (uuid7_fields _ _ Hms Hr') as (_ & _ & _ & ->).
Qed.

(** A clock that stands still and then steps back by a second. *)
Lemma uuid7_process_monotonic_witness :
  StronglySorted Z.lt
    (uuid7_run [(1700000000000000000, 5); (1700000000000000000, 9); (1699999999000000000, 1)] id_init) ∧
  length (uuid7_run [(1700000000000000000, 5); (1700000000000000000, 9); (1699999999000000000, 1)] id_init)
    = 3%nat.
Proof.
  split; [|reflexivity]. apply (uuid7_process_monotonic
    [(1700000000000000000, 5); (1700000000000000000, 9); (1699999999000000000, 1)]).
  repeat (constructor; [simpl; lia|]). constructor.
Defined.

(** ** Transactions *)

(** What an attempt can raise: a DB-API error with the driver's [sqlstate] and
    [pgcode], or any other exception. *)
Inductive TxError :=
| DBAPIError (sqlstate pgcode : option string)
| OtherError (e : exn).

Definition _RETRYABLE_SQLSTATES : list string := ["40001"; "40P01"].

(** [x or y] on optional strings: an empty string is falsy. *)
Definition str_or (x y : option string) : option string :=
  match x with
  | Some s => if bool_decide (s = "") then y else x
  | None => y
  end.

Definition is_retryable_transaction_error (error : TxError) : bool :=
  match error with
  | OtherError _ => false
  | DBAPIError sqlstate pgcode =>
      match str_or sqlstate pgcode with
      | Some code => bool_decide (code ∈ _RETRYABLE_SQLSTATES)
      | None => false
      end
  end.

Definition retry_exhausted (max_attempts : nat) : TxError :=
  OtherError (Exn "TransactionRetryExhausted"
    ("Transaction conflict persisted for " +:+ pretty max_attempts +:+ " attempts")).
Definition bad_jitter : TxError :=
  OtherError (Exn "ValueError" "transaction retry jitter must be between 10 and 50 milliseconds").
Definition bad_max_attempts : TxError := OtherError (Exn "ValueError" "max_attempts must be between 1 and 3").
Definition unreachable : TxError := OtherError (Exn "AssertionError" "unreachable").

Section transactions.
Context {DB A : Type}.

(** [operation n] is the operation together with what the database raises in the
    [n]th attempt, at a statement or at the commit; [others n] is what other
    transactions commit between attempts [n] and [n+1]; [jitter n] is the delay
    drawn after attempt [n], in microseconds. *)
Variable operation : nat → SE DB TxError A.
Variable others : nat → DB → DB.
Variable jitter : nat → Z.

(** The [for] loop: [remaining] attempts are left, [attempt_number] is the next.  An
    attempt that raises is rolled back. *)
Fixpoint attempts (max_attempts remaining attempt_number : nat) (db : DB) : outcome TxError A * DB :=
  match remaining with
  | O => (Raise unreachable, db)
  | S remaining =>
      match operation attempt_number db with
      | (Ret a, db') => (Ret a, db')
      | (Raise e, _) =>
          if negb (is_retryable_transaction_error e) then (Raise e, db)
          else if bool_decide (attempt_number = max_attempts) then (Raise (retry_exhausted max_attempts), db)
          else
            let delay := jitter attempt_number in
            if negb ((10000 <=? delay) && (delay <=? 50000)) then (Raise bad_jitter, db)
            else attempts max_attempts remaining (S attempt_number) (others attempt_number db)
      end
  end.

Definition run_transaction (max_attempts : nat) (db : DB) : outcome TxError A * DB :=
  if negb (bool_decide (1 ≤ max_attempts ≤ 3)%nat) then (Raise bad_max_attempts, db)
  else attempts max_attempts max_attempts 1 db.

(** The database before attempt [n] when every earlier attempt was rolled back. *)
Fixpoint db_before (n : nat) (db : DB) : DB :=
  match n with
  | S (S _ as m) => others m (db_before m db)
  | _ => db
  end.

Lemma db_before_S n db : (1 ≤ n)%nat → db_before (S n) db = others n (db_before n db).
Proof using. by destruct n as [|n]; [lia|]. Qed.

(** What a run of the loop from attempt [k] ends with. *)
Definition tx_result (max_attempts : nat) (db : DB) (r : outcome TxError A * DB) : Prop :=
  ∃ k, (1 ≤ k ≤ max_attempts)%nat ∧
    (∀ j, (1 ≤ j < k)%nat → ∃ e db', operation j (db_before j db) = (Raise e, db') ∧
       is_retryable_transaction_error e = true) ∧
    match r with
    | (Ret a, db') => operation k (db_before k db) = (Ret a, db')
    | (Raise e, db') => db' = db_before k db ∧ ∃ e' db'', operation k (db_before k db) = (Raise e', db'') ∧
        (e = e' ∧ is_retryable_transaction_error e' = false ∨
         is_retryable_transaction_error e' = true ∧
           (e = retry_exhausted max_attempts ∧ k = max_attempts ∨
            e = bad_jitter ∧ (k < max_attempts)%nat ∧ ¬ (10000 ≤ jitter k ≤ 50000)))
    end.

Lemma attempts_result max n k db :
  (1 ≤ k)%nat → (k + n = S max)%nat → (1 ≤ n)%nat →
  (∀ j, (1 ≤ j < k)%nat → ∃ e db', operation j (db_before j db) = (Raise e, db') ∧
     is_retryable_transaction_error e = true) →
  tx_result max db (attempts max n k (db_before k db)).
Proof using.
  revert k. induction n as [|n IH]; intros k Hk Hsum Hleft Hprev; [lia|]. simpl.
  destruct (operation k (db_before k db)) as [[a|e] db'] eqn:Hop.
  { exists k. split_and!; [lia|lia|done|done]. }
  destruct (is_retryable_transaction_error e) eqn:He; simpl;
    [|exists k; split_and!; [lia|lia|done|done|]; exists e, db'; auto].
  case_bool_decide as Hlast;
    [exists k; split_and!; [lia|lia|done|done|]; exists e, db'; auto 10|].
  destruct (_ && _) eqn:Hj; simpl.
  - rewrite <- db_before_S by done. apply IH; [lia..|].
    intros j Hjr. destruct (decide (j = k)) as [->|]; [eauto|apply Hprev; lia].
  - exists k. split_and!; [lia|lia|done|done|]. exists e, db'. split; [done|]. right. split; [done|].
    right. split_and!; [done|lia|]. apply andb_false_iff in Hj as [Hj|Hj]; lia.
Qed.

(** transactions ([run_transaction]): with a permitted budget the run ends
    after at most [max_attempts] attempts.  A returned value is the value of
    exactly one attempt, whose effect alone is what the database keeps, and every
    attempt before it was a serialization failure or deadlock that was rolled back;
    when it raises, the database holds nothing of the operation, and the exception
    is the attempt's own unless conflicts used up the budget (or the delay was out
    of range).  With a budget out of range nothing runs. *)
Theorem run_transaction_atomic max_attempts db :
  if bool_decide (1 ≤ max_attempts ≤ 3)%nat
  then tx_result max_attempts db (run_transaction max_attempts db)
  else run_transaction max_attempts db = (Raise bad_max_attempts, db).
Proof using.
  unfold run_transaction. case_bool_decide as Hm; simpl; [|done].
  apply (attempts_result max_attempts max_attempts 1 db); [lia..|]. intros; lia.
Qed.
End transactions.
