(* ===== verification/Journal.v ===== *)
(** * The execution journal

    [src/nexa/worker/journal.py]: one durable record per attempt, moved through
    its states by the operations below.  The directory of record files is a map
    from attempt to file content; a file holds a record as [_write] encoded it,
    or something [_load_locked] cannot decode.  Every operation runs under the
    attempt's lock and is one atomic step.  [_write] replaces the file
    atomically, so an I/O error leaves the old record or the new one. *)

From S2P Require Import Prelude PyValue WorkerModels.

Local Open Scope string_scope.
Local Open Scope list_scope.
Local Open Scope Z_scope.

Definition JournalCorruption (message : string) : exn := Exn "JournalCorruption" message.
Definition JournalWriteError (message : string) : exn := Exn "JournalWriteError" message.

Definition JOURNAL_STATES : list string :=
  ["PREPARED"; "CREATE_IN_FLIGHT"; "CREATED"; "START_IN_FLIGHT"; "STARTED"; "CLEANUP_IN_FLIGHT";
   "TOMBSTONED"].

Record JournalRecord := {
  jr_attempt_id : string;
  jr_allocation_id : string;
  jr_startup_nonce : string;
  jr_authority : Authority;
  jr_resources : ResourceVector;
  jr_image_digest : option string;
  jr_input_checksum : option string;
  jr_execution_binding : list (string * pyval);
  jr_state : string;
  jr_operation_sequence : Z;
  jr_container : option ContainerIdentity;
  jr_startup_started_monotonic_ns : option Z;
  jr_startup_clock_domain : option string;
  jr_tombstone_sequence : option Z;
  jr_reason : option string;
  jr_inspection_checksum : option string;
  jr_stopped_at : option string;
  jr_exit_code : option Z;
  jr_runner_state : option (list (string * pyval));
}.

(** [replace(record, ...)], one function per set of fields the code replaces. *)
Definition with_state (st : string) (seq : Z) (r : JournalRecord) : JournalRecord :=
  {| jr_attempt_id := jr_attempt_id r; jr_allocation_id := jr_allocation_id r;
     jr_startup_nonce := jr_startup_nonce r; jr_authority := jr_authority r;
     jr_resources := jr_resources r; jr_image_digest := jr_image_digest r;
     jr_input_checksum := jr_input_checksum r; jr_execution_binding := jr_execution_binding r;
     jr_state := st; jr_operation_sequence := seq; jr_container := jr_container r;
     jr_startup_started_monotonic_ns := jr_startup_started_monotonic_ns r;
     jr_startup_clock_domain := jr_startup_clock_domain r;
     jr_tombstone_sequence := jr_tombstone_sequence r; jr_reason := jr_reason r;
     jr_inspection_checksum := jr_inspection_checksum r; jr_stopped_at := jr_stopped_at r;
     jr_exit_code := jr_exit_code r; jr_runner_state := jr_runner_state r |}.

Definition with_startup (ns : option Z) (domain : option string) (r : JournalRecord) : JournalRecord :=
  {| jr_attempt_id := jr_attempt_id r; jr_allocation_id := jr_allocation_id r;
     jr_startup_nonce := jr_startup_nonce r; jr_authority := jr_authority r;
     jr_resources := jr_resources r; jr_image_digest := jr_image_digest r;
     jr_input_checksum := jr_input_checksum r; jr_execution_binding := jr_execution_binding r;
     jr_state := jr_state r; jr_operation_sequence := jr_operation_sequence r;
     jr_container := jr_container r; jr_startup_started_monotonic_ns := ns;
     jr_startup_clock_domain := domain; jr_tombstone_sequence := jr_tombstone_sequence r;
     jr_reason := jr_reason r; jr_inspection_checksum := jr_inspection_checksum r;
     jr_stopped_at := jr_stopped_at r; jr_exit_code := jr_exit_code r;
     jr_runner_state := jr_runner_state r |}.

Definition with_container (c : option ContainerIdentity) (r : JournalRecord) : JournalRecord :=
  {| jr_attempt_id := jr_attempt_id r; jr_allocation_id := jr_allocation_id r;
     jr_startup_nonce := jr_startup_nonce r; jr_authority := jr_authority r;
     jr_resources := jr_resources r; jr_image_digest := jr_image_digest r;
     jr_input_checksum := jr_input_checksum r; jr_execution_binding := jr_execution_binding r;
     jr_state := jr_state r; jr_operation_sequence := jr_operation_sequence r; jr_container := c;
     jr_startup_started_monotonic_ns := jr_startup_started_monotonic_ns r;
     jr_startup_clock_domain := jr_startup_clock_domain r;
     jr_tombstone_sequence := jr_tombstone_sequence r; jr_reason := jr_reason r;
     jr_inspection_checksum := jr_inspection_checksum r; jr_stopped_at := jr_stopped_at r;
     jr_exit_code := jr_exit_code r; jr_runner_state := jr_runner_state r |}.

Definition with_inspection (checksum stopped_at : option string) (exit_code : option Z)
    (r : JournalRecord) : JournalRecord :=
  {| jr_attempt_id := jr_attempt_id r; jr_allocation_id := jr_allocation_id r;
     jr_startup_nonce := jr_startup_nonce r; jr_authority := jr_authority r;
     jr_resources := jr_resources r; jr_image_digest := jr_image_digest r;
     jr_input_checksum := jr_input_checksum r; jr_execution_binding := jr_execution_binding r;
     jr_state := jr_state r; jr_operation_sequence := jr_operation_sequence r;
     jr_container := jr_container r;
     jr_startup_started_monotonic_ns := jr_startup_started_monotonic_ns r;
     jr_startup_clock_domain := jr_startup_clock_domain r;
     jr_tombstone_sequence := jr_tombstone_sequence r; jr_reason := jr_reason r;
     jr_inspection_checksum := checksum; jr_stopped_at := stopped_at; jr_exit_code := exit_code;
     jr_runner_state := jr_runner_state r |}.

Definition with_tombstone (seq : Z) (r : JournalRecord) : JournalRecord :=
  {| jr_attempt_id := jr_attempt_id r; jr_allocation_id := jr_allocation_id r;
     jr_startup_nonce := jr_startup_nonce r; jr_authority := jr_authority r;
     jr_resources := jr_resources r; jr_image_digest := jr_image_digest r;
     jr_input_checksum := jr_input_checksum r; jr_execution_binding := jr_execution_binding r;
     jr_state := "TOMBSTONED"; jr_operation_sequence := seq; jr_container := jr_container r;
     jr_startup_started_monotonic_ns := jr_startup_started_monotonic_ns r;
     jr_startup_clock_domain := jr_startup_clock_domain r;
     jr_tombstone_sequence := Some seq; jr_reason := jr_reason r;
     jr_inspection_checksum := jr_inspection_checksum r; jr_stopped_at := jr_stopped_at r;
     jr_exit_code := jr_exit_code r; jr_runner_state := jr_runner_state r |}.

Definition with_reason (reason checksum : option string) (r : JournalRecord) : JournalRecord :=
  {| jr_attempt_id := jr_attempt_id r; jr_allocation_id := jr_allocation_id r;
     jr_startup_nonce := jr_startup_nonce r; jr_authority := jr_authority r;
     jr_resources := jr_resources r; jr_image_digest := jr_image_digest r;
     jr_input_checksum := jr_input_checksum r; jr_execution_binding := jr_execution_binding r;
     jr_state := jr_state r; jr_operation_sequence := jr_operation_sequence r;
     jr_container := jr_container r;
     jr_startup_started_monotonic_ns := jr_startup_started_monotonic_ns r;
     jr_startup_clock_domain := jr_startup_clock_domain r;
     jr_tombstone_sequence := jr_tombstone_sequence r; jr_reason := reason;
     jr_inspection_checksum := checksum; jr_stopped_at := jr_stopped_at r;
     jr_exit_code := jr_exit_code r; jr_runner_state := jr_runner_state r |}.

Definition with_authority (a : Authority) (r : JournalRecord) : JournalRecord :=
  {| jr_attempt_id := jr_attempt_id r; jr_allocation_id := jr_allocation_id r;
     jr_startup_nonce := jr_startup_nonce r; jr_authority := a;
     jr_resources := jr_resources r; jr_image_digest := jr_image_digest r;
     jr_input_checksum := jr_input_checksum r; jr_execution_binding := jr_execution_binding r;
     jr_state := jr_state r; jr_operation_sequence := jr_operation_sequence r;
     jr_container := jr_container r;
     jr_startup_started_monotonic_ns := jr_startup_started_monotonic_ns r;
     jr_startup_clock_domain := jr_startup_clock_domain r;
     jr_tombstone_sequence := jr_tombstone_sequence r; jr_reason := jr_reason r;
     jr_inspection_checksum := jr_inspection_checksum r; jr_stopped_at := jr_stopped_at r;
     jr_exit_code := jr_exit_code r; jr_runner_state := jr_runner_state r |}.

Definition with_dicts (binding : list (string * pyval)) (runner : option (list (string * pyval)))
    (r : JournalRecord) : JournalRecord :=
  {| jr_attempt_id := jr_attempt_id r; jr_allocation_id := jr_allocation_id r;
     jr_startup_nonce := jr_startup_nonce r; jr_authority := jr_authority r;
     jr_resources := jr_resources r; jr_image_digest := jr_image_digest r;
     jr_input_checksum := jr_input_checksum r; jr_execution_binding := binding;
     jr_state := jr_state r; jr_operation_sequence := jr_operation_sequence r;
     jr_container := jr_container r;
     jr_startup_started_monotonic_ns := jr_startup_started_monotonic_ns r;
     jr_startup_clock_domain := jr_startup_clock_domain r;
     jr_tombstone_sequence := jr_tombstone_sequence r; jr_reason := jr_reason r;
     jr_inspection_checksum := jr_inspection_checksum r; jr_stopped_at := jr_stopped_at r;
     jr_exit_code := jr_exit_code r; jr_runner_state := runner |}.

(** ** Record files *)

(** The binding and the runner state of a request become their canonical form. *)
Definition _canonical_mapping (value : list (string * pyval)) : list (string * pyval) :=
  sorted_dict value.

Inductive content :=
| Stored (r : JournalRecord)
| Unreadable.

Notation store := (gmap string content).

Definition J (A : Type) : Type := SE store exn A.

(** The file's record: decoding sorts the keys of the two dicts. *)
Definition encoded (r : JournalRecord) : JournalRecord :=
  with_dicts (sorted_dict (jr_execution_binding r)) (sorted_dict <$> jr_runner_state r) r.

Definition exists_ (attempt_id : string) : J bool :=
  λ σ, (Ret (match σ !! attempt_id with Some _ => true | None => false end), σ).

Definition _load_locked (attempt_id : string) : J JournalRecord := λ σ,
  (match σ !! attempt_id with
   | Some (Stored record) =>
       raise_when (negb (String.eqb (jr_attempt_id record) attempt_id)
                   || (jr_operation_sequence record <? 1)
                   || bool_decide (jr_state record ∉ JOURNAL_STATES))
         (JournalCorruption ("journal identity is invalid for attempt " +:+ attempt_id));;
       Ret record
   | Some Unreadable | None =>
       Raise (JournalCorruption ("journal record is invalid for attempt " +:+ attempt_id))
   end, σ).

Definition load (attempt_id : string) : J JournalRecord := _load_locked attempt_id.

Definition _write (fault : WriteFault) (record : JournalRecord) : J JournalRecord := λ σ,
  let σ' := <[jr_attempt_id record := Stored (encoded record)]> σ in
  match fault with
  | NoFault => (Ret record, σ')
  | BeforeReplace => (Raise (JournalWriteError "journal write failed"), σ)
  | AfterReplace => (Raise (JournalWriteError "journal write failed"), σ')
  end.

Definition _expect_sequence (record : JournalRecord) (expected_sequence : Z) : J () :=
  se_when (negb (jr_operation_sequence record =? expected_sequence))
    (JournalWriteError "operation sequence conflict").

(** [record.state in {...}] *)
Definition state_in (record : JournalRecord) (states : list string) : bool :=
  bool_decide (jr_state record ∈ states).

(** ** Operations *)

(** The immutable context a claim hands to the journal. *)
Record Context_ := {
  cx_attempt_id : string;
  cx_allocation_id : string;
  cx_startup_nonce : string;
  cx_authority : Authority;
  cx_resources : ResourceVector;
  cx_image_digest : option string;
  cx_input_checksum : option string;
  cx_execution_binding : list (string * pyval);
}.

(** A record not yet moved by any operation, in state [st]. *)
Definition new_record (cx : Context_) (st : string) (tombstone : option Z)
    (reason checksum : option string) : JournalRecord :=
  {| jr_attempt_id := cx_attempt_id cx; jr_allocation_id := cx_allocation_id cx;
     jr_startup_nonce := cx_startup_nonce cx; jr_authority := cx_authority cx;
     jr_resources := cx_resources cx; jr_image_digest := cx_image_digest cx;
     jr_input_checksum := cx_input_checksum cx; jr_execution_binding := cx_execution_binding cx;
     jr_state := st; jr_operation_sequence := 1; jr_container := None;
     jr_startup_started_monotonic_ns := None; jr_startup_clock_domain := None;
     jr_tombstone_sequence := tombstone; jr_reason := reason;
     jr_inspection_checksum := checksum; jr_stopped_at := None; jr_exit_code := None;
     jr_runner_state := None |}.

Definition with_binding (binding : list (string * pyval)) (cx : Context_) : Context_ :=
  {| cx_attempt_id := cx_attempt_id cx; cx_allocation_id := cx_allocation_id cx;
     cx_startup_nonce := cx_startup_nonce cx; cx_authority := cx_authority cx;
     cx_resources := cx_resources cx; cx_image_digest := cx_image_digest cx;
     cx_input_checksum := cx_input_checksum cx; cx_execution_binding := binding |}.

Definition context_mismatch (record : JournalRecord) (cx : Context_)
    (binding : list (string * pyval)) : bool :=
  negb (String.eqb (jr_allocation_id record) (cx_allocation_id cx))
  || negb (String.eqb (jr_startup_nonce record) (cx_startup_nonce cx))
  || bool_decide (jr_image_digest record ≠ cx_image_digest cx)
  || bool_decide (jr_input_checksum record ≠ cx_input_checksum cx)
  || bool_decide (jr_authority record ≠ cx_authority cx)
  || bool_decide (jr_resources record ≠ cx_resources cx)
  || negb (dict_eq (jr_execution_binding record) binding).

Definition prepare (fault : WriteFault) (cx : Context_) : J JournalRecord :=
  let binding := _canonical_mapping (cx_execution_binding cx) in
  present ← exists_ (cx_attempt_id cx);
  if (present : bool) then
    record ← load (cx_attempt_id cx);
    se_when (context_mismatch record cx binding)
      (JournalWriteError "immutable execution context mismatch");;
    mret record
  else _write fault (new_record (with_binding binding cx) "PREPARED" None None None).

Definition begin_create (fault : WriteFault) (attempt_id : string) (expected_sequence : Z)
    (started_monotonic_ns : option Z) (clock_domain : option string) : J JournalRecord :=
  record ← load attempt_id;
  se_when (String.eqb (jr_state record) "TOMBSTONED") (JournalWriteError "attempt is tombstoned");;
  _expect_sequence record expected_sequence;;
  if negb (String.eqb (jr_state record) "PREPARED") then mret record
  else _write fault
    (with_state "CREATE_IN_FLIGHT" (jr_operation_sequence record + 1)
      (with_startup
        (match started_monotonic_ns with
         | Some ns => Some ns | None => jr_startup_started_monotonic_ns record end)
        (match clock_domain with
         | Some domain => Some domain | None => jr_startup_clock_domain record end) record)).

Definition bind_created (fault : WriteFault) (attempt_id : string) (identity : ContainerIdentity)
    : J JournalRecord :=
  record ← load attempt_id;
  se_when (negb (String.eqb (ci_attempt_id identity) (jr_attempt_id record))
           || negb (String.eqb (ci_allocation_id identity) (jr_allocation_id record))
           || negb (String.eqb (ci_startup_nonce identity) (jr_startup_nonce record)))
    (JournalWriteError "container identity mismatch");;
  se_when (match jr_container record with
           | Some container => bool_decide (container ≠ identity)
           | None => false end)
    (JournalWriteError "container identity conflict");;
  if bool_decide (jr_container record = Some identity)
     && state_in record ["CREATED"; "START_IN_FLIGHT"; "STARTED"; "CLEANUP_IN_FLIGHT"; "TOMBSTONED"]
  then mret record
  else
    se_when (negb (String.eqb (jr_state record) "CREATE_IN_FLIGHT"))
      (JournalWriteError "create identity cannot be bound in current state");;
    _write fault
      (with_state "CREATED" (jr_operation_sequence record + 1) (with_container (Some identity) record)).

Definition no_container (record : JournalRecord) : bool :=
  match jr_container record with None => true | Some _ => false end.

Definition begin_start (fault : WriteFault) (attempt_id : string) (expected_sequence : Z)
    : J JournalRecord :=
  record ← load attempt_id;
  _expect_sequence record expected_sequence;;
  if String.eqb (jr_state record) "START_IN_FLIGHT" then mret record
  else
    se_when (negb (String.eqb (jr_state record) "CREATED") || no_container record)
      (JournalWriteError "container is not ready to start");;
    _write fault (with_state "START_IN_FLIGHT" (jr_operation_sequence record + 1) record).

Definition mark_started (fault : WriteFault) (attempt_id : string) (expected_sequence : Z)
    : J JournalRecord :=
  record ← load attempt_id;
  _expect_sequence record expected_sequence;;
  if String.eqb (jr_state record) "STARTED" then mret record
  else
    se_when (negb (String.eqb (jr_state record) "START_IN_FLIGHT") || no_container record)
      (JournalWriteError "container start is not in flight");;
    _write fault (with_state "STARTED" (jr_operation_sequence record + 1) record).

Definition reset_start_after_failure (fault : WriteFault) (attempt_id : string)
    (expected_sequence : Z) : J JournalRecord :=
  record ← load attempt_id;
  _expect_sequence record expected_sequence;;
  se_when (negb (String.eqb (jr_state record) "START_IN_FLIGHT"))
    (JournalWriteError "container start is not in flight");;
  _write fault (with_state "CREATED" (jr_operation_sequence record + 1) record).

Definition begin_cleanup (fault : WriteFault) (attempt_id : string) (expected_sequence : Z)
    (inspection_checksum stopped_at : string) (exit_code : Z) : J JournalRecord :=
  record ← load attempt_id;
  _expect_sequence record expected_sequence;;
  if String.eqb (jr_state record) "CLEANUP_IN_FLIGHT" then mret record
  else
    se_when (no_container record
             || negb (state_in record ["CREATED"; "START_IN_FLIGHT"; "STARTED"]))
      (JournalWriteError "created identity is required for cleanup");;
    _write fault (with_state "CLEANUP_IN_FLIGHT" (jr_operation_sequence record + 1)
      (with_inspection (Some inspection_checksum) (Some stopped_at) (Some exit_code) record)).

Definition finish_cleanup (fault : WriteFault) (attempt_id : string) (expected_sequence : Z)
    : J JournalRecord :=
  record ← load attempt_id;
  _expect_sequence record expected_sequence;;
  if String.eqb (jr_state record) "TOMBSTONED" then mret record
  else
    se_when (negb (String.eqb (jr_state record) "CLEANUP_IN_FLIGHT") || no_container record)
      (JournalWriteError "cleanup is not in flight");;
    _write fault (with_tombstone (jr_operation_sequence record + 1) record).

Definition tombstone (fault : WriteFault) (attempt_id : string) (expected_sequence : Z)
    (reason : string) (inspection_checksum : option string) : J JournalRecord :=
  record ← load attempt_id;
  _expect_sequence record expected_sequence;;
  se_when (state_in record ["CREATE_IN_FLIGHT"; "START_IN_FLIGHT"])
    (JournalWriteError "cannot tombstone while operation is in flight");;
  se_when (negb (no_container record) && negb (String.eqb (jr_state record) "TOMBSTONED"))
    (JournalWriteError "created container requires identity cleanup");;
  if String.eqb (jr_state record) "TOMBSTONED" then mret record
  else _write fault (with_reason (Some reason) inspection_checksum
    (with_tombstone (jr_operation_sequence record + 1) record)).

Definition tombstone_abandoned_create (fault : WriteFault) (attempt_id : string)
    (expected_sequence : Z) (reason inspection_checksum : string) : J JournalRecord :=
  record ← load attempt_id;
  _expect_sequence record expected_sequence;;
  if String.eqb (jr_state record) "TOMBSTONED" && no_container record then mret record
  else
    se_when (negb (String.eqb (jr_state record) "CREATE_IN_FLIGHT") || negb (no_container record))
      (JournalWriteError "only an unbound create in flight can be abandoned");;
    _write fault (with_reason (Some reason) (Some inspection_checksum)
      (with_tombstone (jr_operation_sequence record + 1) record)).

Definition create_unclaimed_tombstone (fault : WriteFault) (cx : Context_)
    (reason inspection_checksum : string) : J JournalRecord :=
  let binding := _canonical_mapping (cx_execution_binding cx) in
  present ← exists_ (cx_attempt_id cx);
  if (present : bool) then
    record ← load (cx_attempt_id cx);
    se_when (context_mismatch record cx binding)
      (JournalWriteError "unclaimed tombstone identity mismatch");;
    tombstone fault (cx_attempt_id cx) (jr_operation_sequence record) reason
      (Some inspection_checksum)
  else _write fault (new_record (with_binding binding cx) "TOMBSTONED" (Some 1)
    (Some reason) (Some inspection_checksum)).

Definition create_reconciliation_tombstone (fault : WriteFault)
    (attempt_id allocation_id startup_nonce : string) (authority : Authority)
    (resources : ResourceVector) (inspection_checksum reason claim_state : string)
    : J JournalRecord :=
  se_when (bool_decide (claim_state ∉ ["UNCLAIMED"; "CLAIMED"]))
    (JournalWriteError "reconciliation tombstone claim state is invalid");;
  present ← exists_ attempt_id;
  if (present : bool) then
    record ← load attempt_id;
    se_when (negb (String.eqb (jr_allocation_id record) allocation_id)
             || negb (String.eqb (jr_startup_nonce record) startup_nonce)
             || bool_decide (jr_authority record ≠ authority)
             || bool_decide (jr_resources record ≠ resources))
      (JournalWriteError "reconciliation tombstone identity mismatch");;
    se_when (negb (String.eqb (jr_state record) "TOMBSTONED"))
      (JournalWriteError "existing execution cannot become an unclaimed tombstone");;
    mret record
  else _write fault
    (new_record
      {| cx_attempt_id := attempt_id; cx_allocation_id := allocation_id;
         cx_startup_nonce := startup_nonce; cx_authority := authority; cx_resources := resources;
         cx_image_digest := None; cx_input_checksum := None;
         cx_execution_binding :=
           [("source", VStr "reconciliation"); ("claim_state", VStr claim_state)] |}
      "TOMBSTONED" (Some 1) (Some reason) (Some inspection_checksum)).

Definition append_runner_state (fault : WriteFault) (attempt_id : string)
    (runner : list (string * pyval)) : J JournalRecord :=
  record ← load attempt_id;
  _write fault (with_dicts (jr_execution_binding record) (Some (_canonical_mapping runner)) record).

(** [update] is the caller's function; it may raise. *)
Definition update_runner_state (fault : WriteFault) (attempt_id : string)
    (update : list (string * pyval) → outcome exn (list (string * pyval))) : J JournalRecord :=
  record ← load attempt_id;
  updated ← se_lift (update (default [] (jr_runner_state record)));
  _write fault (with_dicts (jr_execution_binding record) (Some (_canonical_mapping updated)) record).

Definition rebind_authority (fault : WriteFault) (attempt_id : string)
    (prior_authority current_authority : Authority) : J JournalRecord :=
  se_when (negb (String.eqb (au_attempt_id prior_authority) attempt_id)
           || negb (String.eqb (au_attempt_id current_authority) attempt_id))
    (JournalWriteError "authority attempt identity mismatch");;
  se_when (negb (String.eqb (worker_id prior_authority) (worker_id current_authority))
           || negb (String.eqb (au_allocation_id prior_authority) (au_allocation_id current_authority))
           || negb (String.eqb (lease_id prior_authority) (lease_id current_authority))
           || negb (job_fence prior_authority =? job_fence current_authority)
           || bool_decide (prior_authority = current_authority))
    (JournalWriteError "authority rebind identity is invalid");;
  record ← load attempt_id;
  if bool_decide (jr_authority record = current_authority) then mret record
  else
    se_when (bool_decide (jr_authority record ≠ prior_authority))
      (JournalWriteError "journal authority predecessor mismatch");;
    _write fault (with_authority current_authority record).

(** Every operation, as data: a journal history is a list of these. *)
Inductive JournalOp :=
| Prepare (cx : Context_)
| BeginCreate (attempt_id : string) (expected : Z) (ns : option Z) (domain : option string)
| BindCreated (attempt_id : string) (identity : ContainerIdentity)
| BeginStart (attempt_id : string) (expected : Z)
| MarkStarted (attempt_id : string) (expected : Z)
| ResetStart (attempt_id : string) (expected : Z)
| BeginCleanup (attempt_id : string) (expected : Z) (checksum stopped_at : string) (exit_code : Z)
| FinishCleanup (attempt_id : string) (expected : Z)
| Tombstone (attempt_id : string) (expected : Z) (reason : string) (checksum : option string)
| AbandonCreate (attempt_id : string) (expected : Z) (reason checksum : string)
| UnclaimedTombstone (cx : Context_) (reason checksum : string)
| ReconciliationTombstone (attempt_id allocation_id startup_nonce : string) (authority : Authority)
    (resources : ResourceVector) (checksum reason claim_state : string)
| AppendRunnerState (attempt_id : string) (runner : list (string * pyval))
| UpdateRunnerState (attempt_id : string)
    (update : list (string * pyval) → outcome exn (list (string * pyval)))
| RebindAuthority (attempt_id : string) (prior current : Authority).

Definition run_op (fault : WriteFault) (op : JournalOp) : J JournalRecord :=
  match op with
  | Prepare cx => prepare fault cx
  | BeginCreate a n ns domain => begin_create fault a n ns domain
  | BindCreated a identity => bind_created fault a identity
  | BeginStart a n => begin_start fault a n
  | MarkStarted a n => mark_started fault a n
  | ResetStart a n => reset_start_after_failure fault a n
  | BeginCleanup a n checksum stopped_at code => begin_cleanup fault a n checksum stopped_at code
  | FinishCleanup a n => finish_cleanup fault a n
  | Tombstone a n reason checksum => tombstone fault a n reason checksum
  | AbandonCreate a n reason checksum => tombstone_abandoned_create fault a n reason checksum
  | UnclaimedTombstone cx reason checksum => create_unclaimed_tombstone fault cx reason checksum
  | ReconciliationTombstone a b c au rv checksum reason claim =>
      create_reconciliation_tombstone fault a b c au rv checksum reason claim
  | AppendRunnerState a runner => append_runner_state fault a runner
  | UpdateRunnerState a update => update_runner_state fault a update
  | RebindAuthority a prior current => rebind_authority fault a prior current
  end.

(** ** The state machine the journal implements *)

(** State and container of an attempt, before and after a move. *)
Inductive jstep : string * option ContainerIdentity → string * option ContainerIdentity → Prop :=
| js_create c : jstep ("PREPARED", c) ("CREATE_IN_FLIGHT", c)
| js_bind c identity :
    c = None ∨ c = Some identity → jstep ("CREATE_IN_FLIGHT", c) ("CREATED", Some identity)
| js_start c : jstep ("CREATED", Some c) ("START_IN_FLIGHT", Some c)
| js_started c : jstep ("START_IN_FLIGHT", Some c) ("STARTED", Some c)
| js_reset c : jstep ("START_IN_FLIGHT", c) ("CREATED", c)
| js_cleanup st c :
    st ∈ ["CREATED"; "START_IN_FLIGHT"; "STARTED"] →
    jstep (st, Some c) ("CLEANUP_IN_FLIGHT", Some c)
| js_finish c : jstep ("CLEANUP_IN_FLIGHT", Some c) ("TOMBSTONED", Some c)
| js_tombstone st :
    st ∉ ["CREATE_IN_FLIGHT"; "START_IN_FLIGHT"; "TOMBSTONED"] → jstep (st, None) ("TOMBSTONED", None)
| js_abandon : jstep ("CREATE_IN_FLIGHT", None) ("TOMBSTONED", None).

(** Authorities that differ only in the worker incarnation. *)
Definition same_lease (a b : Authority) : Prop :=
  worker_id a = worker_id b ∧ au_attempt_id a = au_attempt_id b ∧
  au_allocation_id a = au_allocation_id b ∧ lease_id a = lease_id b ∧ job_fence a = job_fence b.

(** What one operation may do to an existing record. *)
Record evolves (r r' : JournalRecord) : Prop := {
  ev_attempt : jr_attempt_id r' = jr_attempt_id r;
  ev_allocation : jr_allocation_id r' = jr_allocation_id r;
  ev_nonce : jr_startup_nonce r' = jr_startup_nonce r;
  ev_resources : jr_resources r' = jr_resources r;
  ev_image : jr_image_digest r' = jr_image_digest r;
  ev_input : jr_input_checksum r' = jr_input_checksum r;
  ev_binding : jr_execution_binding r' = jr_execution_binding r;
  ev_authority : jr_authority r' = jr_authority r ∨ same_lease (jr_authority r) (jr_authority r');
  ev_move :
    (jr_state r' = jr_state r ∧ jr_operation_sequence r' = jr_operation_sequence r ∧
     jr_container r' = jr_container r ∧ jr_tombstone_sequence r' = jr_tombstone_sequence r) ∨
    (jstep (jr_state r, jr_container r) (jr_state r', jr_container r') ∧
     jr_operation_sequence r' = jr_operation_sequence r + 1 ∧
     jr_authority r' = jr_authority r ∧ jr_runner_state r' = jr_runner_state r ∧
     jr_tombstone_sequence r' =
       (if String.eqb (jr_state r') "TOMBSTONED" then Some (jr_operation_sequence r')
        else jr_tombstone_sequence r) ∧
     (jr_container r' = jr_container r ∨
      ∃ c, jr_container r' = Some c ∧ ci_attempt_id c = jr_attempt_id r ∧
        ci_allocation_id c = jr_allocation_id r ∧ ci_startup_nonce c = jr_startup_nonce r));
}.

(** A record as it is first written. *)
Record initial (r : JournalRecord) : Prop := {
  in_sequence : jr_operation_sequence r = 1;
  in_container : jr_container r = None;
  in_runner : jr_runner_state r = None;
  in_state : (jr_state r = "PREPARED" ∧ jr_tombstone_sequence r = None) ∨
             (jr_state r = "TOMBSTONED" ∧ jr_tombstone_sequence r = Some 1);
}.

Definition loaded (σ : store) (a : string) (r : JournalRecord) : Prop :=
  σ !! a = Some (Stored r) ∧ jr_attempt_id r = a ∧ 1 ≤ jr_operation_sequence r ∧
  jr_state r ∈ JOURNAL_STATES.

(** An operation writes at most once, to move an existing record or create one. *)
Definition effect (fault : WriteFault) (σ : store) (res : outcome exn JournalRecord) (σ' : store)
    : Prop :=
  (σ' = σ ∧ ∀ r, res = Ret r → loaded σ (jr_attempt_id r) r) ∨
  ∃ r', (res, σ') = _write fault r' σ ∧
    ((∃ r, loaded σ (jr_attempt_id r) r ∧ evolves r r') ∨
     (σ !! jr_attempt_id r' = None ∧ initial r')).

Lemma load_eq a σ : load a σ = (fst (load a σ), σ).
Proof. done. Qed.

Lemma load_Ret a σ r : fst (load a σ) = Ret r ↔ loaded σ a r.
Proof.
  unfold load, _load_locked, loaded. simpl. destruct (σ !! a) as [[r1|]|]; simpl; [|naive_solver..].
  split.
  - intros H. apply bind_Ret in H as ([] & Hc & [= <-]). apply raise_when_Ret in Hc.
    apply orb_false_iff in Hc as [Hc Hst]. apply orb_false_iff in Hc as [Hid Hseq].
    bool_simpl. apply String.eqb_eq in Hid. apply dec_stable in Hst. done.
  - intros ([= <-] & Hid & Hseq & Hst). rewrite (proj2 (String.eqb_eq _ _)) by done.
    rewrite (proj2 (Z.ltb_ge _ _)) by done. rewrite bool_decide_eq_false_2 by auto. done.
Qed.

Lemma load_bind {A} a (k : JournalRecord → J A) σ res σ' :
  (load a ≫= k) σ = (res, σ') →
  (∃ r, loaded σ a r ∧ k r σ = (res, σ')) ∨ (σ' = σ ∧ ∃ e, res = Raise e).
Proof.
  intros [(r & s1 & Hl & Hk)|(e & Hl & ->)]%se_bind_inv; rewrite load_eq in Hl.
  - left. exists r. simplify_eq. split; [by apply load_Ret|done].
  - right. simplify_eq. eauto.
Qed.

Lemma when_bind {A} b e (k : () → J A) σ res σ' :
  (se_when b e ≫= k) σ = (res, σ') →
  (b = false ∧ k () σ = (res, σ')) ∨ (σ' = σ ∧ ∃ e, res = Raise e).
Proof.
  intros [([] & s1 & Hl & Hk)|(e' & Hl & ->)]%se_bind_inv; unfold se_when, se_lift in Hl;
    destruct b; simplify_eq/=; eauto.
Qed.

Lemma exists_bind {A} a (k : bool → J A) σ res σ' :
  (exists_ a ≫= k) σ = (res, σ') →
  (σ !! a = None ∧ k false σ = (res, σ')) ∨ (∃ c, σ !! a = Some c ∧ k true σ = (res, σ')).
Proof. unfold exists_, mbind, se_bind. destruct (σ !! a); eauto. Qed.

Lemma effect_raise fault σ res σ' : σ' = σ ∧ (∃ e, res = Raise e) → effect fault σ res σ'.
Proof. intros [-> [e ->]]. by left. Qed.

Lemma effect_read fault σ res σ' a r :
  loaded σ a r → (mret r : J JournalRecord) σ = (res, σ') → effect fault σ res σ'.
Proof.
  intros Hl [= <- <-]. left. split; [done|]. intros r' [= <-].
  destruct Hl as (? & <- & ?). done.
Qed.

(** Runs an operation down to its write, discharging the branches without one. *)
Ltac journal_run H :=
  repeat first
    [ let r := fresh "r" in let Hl := fresh "Hl" in
      apply load_bind in H as [(r & Hl & H)|H]; [|by apply effect_raise]
    | let Hw := fresh "Hw" in apply when_bind in H as [[Hw H]|H]; [|by apply effect_raise]
    | match type of H with
      | (if ?b then _ else _) _ = _ =>
          let Hb := fresh "Hb" in destruct b eqn:Hb; [by eapply effect_read|]
      | mret _ _ = _ => by eapply effect_read
      end ].

Ltac journal_bools :=
  bool_simpl; rewrite ?String.eqb_eq, ?String.eqb_neq in *.

(** The write moves record [r]. *)
Lemma effect_move fault σ res σ' r r' a :
  loaded σ a r → _write fault r' σ = (res, σ') → evolves r r' → effect fault σ res σ'.
Proof.
  intros Hl Hw He. right. exists r'. split; [done|]. left. exists r. split; [|done].
  destruct Hl as (Hg & Hid & ?). unfold loaded. by rewrite Hid.
Qed.

Lemma evolves_state r st :
  jstep (jr_state r, jr_container r) (st, jr_container r) → st ≠ "TOMBSTONED" →
  evolves r (with_state st (jr_operation_sequence r + 1) r).
Proof.
  intros Hs Hst. split; try done; [by left|]. right.
  split_and!; [done..| |by left]. simpl. by rewrite (proj2 (String.eqb_neq _ _)).
Qed.

Lemma evolves_tombstone r :
  jstep (jr_state r, jr_container r) ("TOMBSTONED", jr_container r) →
  evolves r (with_tombstone (jr_operation_sequence r + 1) r).
Proof. intros Hs. split; try done; [by left|]. right. split_and!; try done. by left. Qed.

(** Fields an operation may fill in beside the move. *)
Lemma evolves_details r r1 r2 :
  evolves r r1 →
  jr_attempt_id r2 = jr_attempt_id r1 → jr_allocation_id r2 = jr_allocation_id r1 →
  jr_startup_nonce r2 = jr_startup_nonce r1 → jr_resources r2 = jr_resources r1 →
  jr_image_digest r2 = jr_image_digest r1 → jr_input_checksum r2 = jr_input_checksum r1 →
  jr_execution_binding r2 = jr_execution_binding r1 → jr_authority r2 = jr_authority r1 →
  jr_state r2 = jr_state r1 → jr_operation_sequence r2 = jr_operation_sequence r1 →
  jr_container r2 = jr_container r1 → jr_tombstone_sequence r2 = jr_tombstone_sequence r1 →
  jr_runner_state r2 = jr_runner_state r1 → evolves r r2.
Proof.
  intros [] E1 E2 E3 E4 E5 E6 E7 E8 E9 E10 E11 E12 E13.
  split; rewrite ?E1, ?E2, ?E3, ?E4, ?E5, ?E6, ?E7, ?E8, ?E9, ?E10, ?E11, ?E12, ?E13; done.
Qed.

Lemma evolves_runner r runner : evolves r (with_dicts (jr_execution_binding r) runner r).
Proof. split; try done; [by left|]. left. done. Qed.

Lemma no_container_spec r : no_container r = true ↔ jr_container r = None.
Proof. unfold no_container. destruct (jr_container r); naive_solver. Qed.

Lemma no_container_false r : no_container r = false ↔ ∃ c, jr_container r = Some c.
Proof. unfold no_container. destruct (jr_container r); naive_solver. Qed.

Lemma begin_create_effect fault a n ns domain σ res σ' :
  begin_create fault a n ns domain σ = (res, σ') → effect fault σ res σ'.
Proof.
  unfold begin_create, _expect_sequence. intros H. journal_run H. journal_bools.
  eapply effect_move; [exact Hl|exact H|].
  eapply evolves_details; [apply (evolves_state r "CREATE_IN_FLIGHT"); [|done]|done..].
  rewrite Hb. apply js_create.
Qed.

Lemma bind_created_effect fault a identity σ res σ' :
  bind_created fault a identity σ = (res, σ') → effect fault σ res σ'.
Proof.
  unfold bind_created. intros H. journal_run H. journal_bools.
  eapply effect_move; [exact Hl|exact H|]. split; try done; [by left|]. right. simpl.
  split_and!; try done; [|right; eauto]. rewrite Hw1. apply js_bind.
  destruct (jr_container r); [right|by left]. journal_bools. f_equal. by apply dec_stable.
Qed.

Lemma begin_start_effect fault a n σ res σ' :
  begin_start fault a n σ = (res, σ') → effect fault σ res σ'.
Proof.
  unfold begin_start, _expect_sequence. intros H. journal_run H. journal_bools.
  eapply effect_move; [exact Hl|exact H|]. apply evolves_state; [|done].
  apply no_container_false in H1 as [c ->]. rewrite H0. apply js_start.
Qed.

Lemma mark_started_effect fault a n σ res σ' :
  mark_started fault a n σ = (res, σ') → effect fault σ res σ'.
Proof.
  unfold mark_started, _expect_sequence. intros H. journal_run H. journal_bools.
  eapply effect_move; [exact Hl|exact H|]. apply evolves_state; [|done].
  apply no_container_false in H1 as [c ->]. rewrite H0. apply js_started.
Qed.

Lemma reset_start_effect fault a n σ res σ' :
  reset_start_after_failure fault a n σ = (res, σ') → effect fault σ res σ'.
Proof.
  unfold reset_start_after_failure, _expect_sequence. intros H. journal_run H. journal_bools.
  eapply effect_move; [exact Hl|exact H|]. apply evolves_state; [|done].
  rewrite Hw0. apply js_reset.
Qed.

Lemma begin_cleanup_effect fault a n checksum stopped code σ res σ' :
  begin_cleanup fault a n checksum stopped code σ = (res, σ') → effect fault σ res σ'.
Proof.
  unfold begin_cleanup, _expect_sequence. intros H. journal_run H. journal_bools.
  eapply effect_move; [exact Hl|exact H|].
  eapply evolves_details; [apply (evolves_state r "CLEANUP_IN_FLIGHT"); [|done]|done..].
  apply no_container_false in H0 as [c ->]. apply js_cleanup.
  unfold state_in in H1. by journal_bools.
Qed.

Lemma finish_cleanup_effect fault a n σ res σ' :
  finish_cleanup fault a n σ = (res, σ') → effect fault σ res σ'.
Proof.
  unfold finish_cleanup, _expect_sequence. intros H. journal_run H. journal_bools.
  eapply effect_move; [exact Hl|exact H|]. apply evolves_tombstone.
  apply no_container_false in H1 as [c ->]. rewrite H0. apply js_finish.
Qed.

Lemma tombstone_effect fault a n reason checksum σ res σ' :
  tombstone fault a n reason checksum σ = (res, σ') → effect fault σ res σ'.
Proof.
  unfold tombstone, _expect_sequence, state_in. intros H. journal_run H. journal_bools.
  eapply effect_move; [exact Hl|exact H|].
  eapply evolves_details; [apply (evolves_tombstone r)|done..].
  assert (jr_container r = None) as ->.
  { apply no_container_spec. destruct (no_container r); [done|]. simpl in Hw1. journal_bools. done. }
  apply js_tombstone. set_solver.
Qed.

Lemma abandon_effect fault a n reason checksum σ res σ' :
  tombstone_abandoned_create fault a n reason checksum σ = (res, σ') → effect fault σ res σ'.
Proof.
  unfold tombstone_abandoned_create, _expect_sequence. intros H. journal_run H. journal_bools.
  eapply effect_move; [exact Hl|exact H|].
  eapply evolves_details; [apply (evolves_tombstone r)|done..].
  apply no_container_spec in H1 as ->. rewrite H0. apply js_abandon.
Qed.

Lemma effect_new fault σ res σ' r' :
  σ !! jr_attempt_id r' = None → initial r' → _write fault r' σ = (res, σ') →
  effect fault σ res σ'.
Proof. intros Hn Hi Hw. right. exists r'. auto. Qed.

Lemma prepare_effect fault cx σ res σ' : prepare fault cx σ = (res, σ') → effect fault σ res σ'.
Proof.
  unfold prepare. cbv zeta. intros [[Hn H]|(c & Hc & H)]%exists_bind.
  - eapply effect_new; [|idtac|exact H]; [exact Hn|]. split; simpl; auto.
  - journal_run H.
Qed.

Lemma unclaimed_effect fault cx reason checksum σ res σ' :
  create_unclaimed_tombstone fault cx reason checksum σ = (res, σ') → effect fault σ res σ'.
Proof.
  unfold create_unclaimed_tombstone. cbv zeta. intros [[Hn H]|(c & Hc & H)]%exists_bind.
  - eapply effect_new; [|idtac|exact H]; [exact Hn|]. split; simpl; auto.
  - apply load_bind in H as [(r & Hl & H)|H]; [|by apply effect_raise].
    apply when_bind in H as [[_ H]|H]; [|by apply effect_raise]. by apply tombstone_effect in H.
Qed.

Lemma reconciliation_effect fault a b c au rv checksum reason claim σ res σ' :
  create_reconciliation_tombstone fault a b c au rv checksum reason claim σ = (res, σ') →
  effect fault σ res σ'.
Proof.
  unfold create_reconciliation_tombstone. intros H. journal_run H.
  apply exists_bind in H as [[Hn H]|(c' & Hc & H)].
  - eapply effect_new; [|idtac|exact H]; [exact Hn|]. split; simpl; auto.
  - journal_run H.
Qed.

Lemma append_effect fault a runner σ res σ' :
  append_runner_state fault a runner σ = (res, σ') → effect fault σ res σ'.
Proof.
  unfold append_runner_state. intros H. journal_run H.
  eapply effect_move; [exact Hl|exact H|apply evolves_runner].
Qed.

Lemma update_effect fault a update σ res σ' :
  update_runner_state fault a update σ = (res, σ') → effect fault σ res σ'.
Proof.
  unfold update_runner_state. intros H. journal_run H.
  apply se_bind_inv in H as [(d & s1 & Hd & H)|(e & Hd & ->)]; unfold se_lift in Hd; simplify_eq.
  - eapply effect_move; [exact Hl|exact H|apply evolves_runner].
  - apply effect_raise. eauto.
Qed.

Lemma rebind_effect fault a prior current σ res σ' :
  rebind_authority fault a prior current σ = (res, σ') → effect fault σ res σ'.
Proof.
  unfold rebind_authority. intros H. journal_run H. journal_bools. apply dec_stable in Hw1.
  eapply effect_move; [exact Hl|exact H|]. split; try done; [right|left; done].
  simpl. rewrite Hw1. unfold same_lease. split_and!; congruence.
Qed.

Lemma run_effect fault op σ res σ' : run_op fault op σ = (res, σ') → effect fault σ res σ'.
Proof.
  destruct op; simpl; eauto using prepare_effect, begin_create_effect, bind_created_effect,
    begin_start_effect, mark_started_effect, reset_start_effect, begin_cleanup_effect,
    finish_cleanup_effect, tombstone_effect, abandon_effect, unclaimed_effect,
    reconciliation_effect, append_effect, update_effect, rebind_effect.
Qed.

(** ** Invariant of the records *)

Record record_ok (a : string) (r : JournalRecord) : Prop := {
  ok_attempt : jr_attempt_id r = a;
  ok_state : jr_state r ∈ JOURNAL_STATES;
  ok_sequence : 1 ≤ jr_operation_sequence r;
  ok_unbound : jr_state r ∈ ["PREPARED"; "CREATE_IN_FLIGHT"] → jr_container r = None;
  ok_bound : jr_state r ∈ ["CREATED"; "START_IN_FLIGHT"; "STARTED"; "CLEANUP_IN_FLIGHT"] →
    is_Some (jr_container r);
  ok_identity : ∀ c, jr_container r = Some c →
    ci_attempt_id c = jr_attempt_id r ∧ ci_allocation_id c = jr_allocation_id r ∧
    ci_startup_nonce c = jr_startup_nonce r;
  ok_tombstone : jr_tombstone_sequence r =
    if String.eqb (jr_state r) "TOMBSTONED" then Some (jr_operation_sequence r) else None;
  ok_canonical : jr_execution_binding r = sorted_dict (jr_execution_binding r);
}.

(** Every readable file is a well-formed record of its attempt. *)
Definition store_ok (σ : store) : Prop :=
  ∀ a r, σ !! a = Some (Stored r) → record_ok a r.

Lemma jstep_states st c st' c' :
  jstep (st, c) (st', c') →
  st' ∈ JOURNAL_STATES ∧ st ≠ "TOMBSTONED" ∧
  (st' ∈ ["PREPARED"; "CREATE_IN_FLIGHT"] → c' = c ∧ st = "PREPARED") ∧
  (st' ∈ ["CREATED"; "START_IN_FLIGHT"; "STARTED"; "CLEANUP_IN_FLIGHT"] →
     is_Some c' ∨ (c' = c ∧ st = "START_IN_FLIGHT")).
Proof.
  inversion 1; subst; (split_and!; [by apply (bool_decide_unpack _); vm_compute| | |]);
    set_solver.
Qed.

Lemma initial_ok r : initial r → record_ok (jr_attempt_id r) (encoded r).
Proof.
  intros [H1 H2 H3 H4]. split; simpl; rewrite ?H1, ?H2; try done.
  - destruct H4 as [[-> _]|[-> _]]; by apply (bool_decide_unpack _); vm_compute.
  - intros Hst. exfalso. destruct H4 as [[Heq _]|[Heq _]]; rewrite Heq in Hst; set_solver.
  - by destruct H4 as [[-> ->]|[-> ->]].
  - by rewrite sorted_dict_idemp.
Qed.

Lemma evolves_ok a r r' : record_ok a r → evolves r r' → record_ok a (encoded r').
Proof.
  intros [O1 O2 O3 O4 O5 O6 O7 O8] [E1 E2 E3 E4 E5 E6 E7 E8 E9].
  destruct E9 as [(S1 & S2 & S3 & S4)|(S1 & S2 & S3 & S4 & S5 & S6)].
  - split; simpl; rewrite ?S1, ?S2, ?S3, ?S4, ?E1, ?E2, ?E3, ?E7; auto. by rewrite sorted_dict_idemp.
  - pose proof (jstep_states _ _ _ _ S1) as (T1 & T2 & T3 & T4).
    split; simpl; rewrite ?E1, ?E2, ?E3, ?E7, ?S2; auto; [lia| | | | |].
    + intros Hst. destruct (T3 Hst) as [-> Hpr]. apply O4. rewrite Hpr. left.
    + intros Hst. destruct (T4 Hst) as [?|[-> Hin]]; [done|]. apply O5. rewrite Hin.
      right. left.
    + intros c Hc. destruct S6 as [Hsame|(c1 & Hc1 & ?)]; [apply O6; congruence|].
      assert (c1 = c) as -> by congruence. done.
    + rewrite S5, S2. destruct (String.eqb (jr_state r') "TOMBSTONED"); [done|].
      rewrite O7. by rewrite (proj2 (String.eqb_neq _ _)).
    + by rewrite sorted_dict_idemp.
Qed.

Lemma effect_ok fault σ res σ' : effect fault σ res σ' → store_ok σ → store_ok σ'.
Proof.
  intros [[-> _]|(r' & Hw & Hr)] Hok; [done|].
  assert (record_ok (jr_attempt_id r') (encoded r')) as Hr'.
  { destruct Hr as [(r & (Hg & Hid & _) & He)|[_ Hi]]; [|by apply initial_ok].
    rewrite (ev_attempt r r' He). apply (evolves_ok _ r); [by apply Hok|done]. }
  assert (store_ok (<[jr_attempt_id r':=Stored (encoded r')]> σ)) as Hnew.
  { intros a r1. destruct (decide (a = jr_attempt_id r')) as [->|Hne].
    - rewrite lookup_insert_eq. by intros [= <-].
    - rewrite lookup_insert_ne by done. apply Hok. }
  unfold _write in Hw. destruct fault; by simplify_eq.
Qed.

(** ** Histories *)

(** One step of a history: an operation with the fault the file system injects,
    or outside damage to a record file. *)
Inductive JournalEvent :=
| Run (fault : WriteFault) (op : JournalOp)
| Damage (attempt_id : string).

Definition journal_step (σ : store) (ev : JournalEvent) : store :=
  match ev with
  | Run fault op => snd (run_op fault op σ)
  | Damage a => if decide (is_Some (σ !! a)) then <[a := Unreadable]> σ else σ
  end.

Definition journal_history (σ : store) (events : list JournalEvent) : store :=
  foldl journal_step σ events.

Lemma journal_step_ok σ ev : store_ok σ → store_ok (journal_step σ ev).
Proof.
  intros Hok. destruct ev as [fault op|a]; simpl.
  - destruct (run_op fault op σ) as [res σ'] eqn:Hrun. by eapply effect_ok; [eapply run_effect|].
  - case_decide; [|done]. intros a' r. destruct (decide (a' = a)) as [->|Hne].
    + by rewrite lookup_insert_eq.
    + rewrite lookup_insert_ne by done. apply Hok.
Qed.

(** The record [a] had before an event, and what is left of it after. *)
Definition carried (r : JournalRecord) (c : option content) : Prop :=
  c = Some Unreadable ∨ ∃ r', c = Some (Stored r') ∧ (r' = r ∨ ∃ r1, evolves r r1 ∧ r' = encoded r1).

Lemma journal_step_carried σ ev a r :
  store_ok σ → σ !! a = Some (Stored r) → carried r (journal_step σ ev !! a).
Proof.
  intros Hok Ha. destruct ev as [fault op|b]; simpl.
  - destruct (run_op fault op σ) as [res σ'] eqn:Hrun. simpl.
    apply run_effect in Hrun as [[-> _]|(r1 & Hw & Hr)]; [right; eauto|].
    assert (σ' !! a = σ !! a ∨ (a = jr_attempt_id r1 ∧ σ' !! a = Some (Stored (encoded r1)))) as Hσ.
    { unfold _write in Hw. destruct (decide (a = jr_attempt_id r1)) as [->|Hne].
      - destruct fault; simplify_eq; rewrite ?lookup_insert_eq; auto.
      - destruct fault; simplify_eq; rewrite ?lookup_insert_ne by done; auto. }
    destruct Hσ as [->|[-> ->]]; [right; eauto|]. right. exists (encoded r1). split; [done|].
    destruct Hr as [(r0 & (Hg & _) & He)|[Hn _]]; [|congruence].
    right. exists r1. split; [|done]. rewrite (ev_attempt r0 r1 He), Hg in Ha. by simplify_eq.
  - case_decide as Hs; [|right; eauto]. destruct (decide (a = b)) as [->|Hne].
    + rewrite lookup_insert_eq. by left.
    + rewrite lookup_insert_ne by done. right. eauto.
Qed.

(** No operation rewrites a file it cannot read. *)
Lemma unreadable_step σ ev a :
  σ !! a = Some Unreadable → journal_step σ ev !! a = Some Unreadable.
Proof.
  intros Ha. destruct ev as [fault op|b]; simpl.
  - destruct (run_op fault op σ) as [res σ'] eqn:Hrun. simpl.
    apply run_effect in Hrun as [[-> _]|(r1 & Hw & Hr)]; [done|].
    assert (a ≠ jr_attempt_id r1) as Hne.
    { intros ->. destruct Hr as [(r & (Hg & _) & He)|[Hn _]]; [|congruence].
      rewrite (ev_attempt r r1 He), Hg in Ha. done. }
    unfold _write in Hw. destruct fault; simplify_eq; by rewrite ?lookup_insert_ne.
  - case_decide; [|done]. destruct (decide (a = b)) as [->|]; [by rewrite lookup_insert_eq|].
    by rewrite lookup_insert_ne.
Qed.

Lemma journal_history_ok σ events : store_ok σ → store_ok (journal_history σ events).
Proof.
  unfold journal_history. revert σ. induction events as [|ev events IH]; simpl; intros σ Hok; [done|].
  by apply IH, journal_step_ok.
Qed.

(** the journal's records are always well formed.  Whatever operations run,
    in whatever order, with write errors before or after the atomic replace and
    with record files damaged in between, every readable record is of its
    attempt, in a known state, has a container exactly in the states that need
    one and only a container of the same attempt, allocation and nonce, and
    carries a tombstone sequence, equal to its operation sequence, exactly when
    it is TOMBSTONED. *)
Theorem journal_records_well_formed events a r :
  journal_history ∅ events !! a = Some (Stored r) → record_ok a r.
Proof. apply (journal_history_ok ∅). intros b r'. by rewrite lookup_empty. Qed.

(** A record that is final: nothing but its authority's incarnation and its
    runner state can still change. *)
Record same_tombstone (r r' : JournalRecord) : Prop := {
  st_state : jr_state r' = "TOMBSTONED";
  st_sequence : jr_operation_sequence r' = jr_operation_sequence r;
  st_tombstone : jr_tombstone_sequence r' = jr_tombstone_sequence r;
  st_container : jr_container r' = jr_container r;
  st_allocation : jr_allocation_id r' = jr_allocation_id r;
  st_nonce : jr_startup_nonce r' = jr_startup_nonce r;
  st_resources : jr_resources r' = jr_resources r;
  st_binding : jr_execution_binding r' = jr_execution_binding r;
}.

Lemma evolves_tombstoned a r r1 :
  record_ok a r → jr_state r = "TOMBSTONED" → evolves r r1 → same_tombstone r (encoded r1).
Proof.
  intros Hok Hst [E1 E2 E3 E4 E5 E6 E7 E8 E9].
  destruct E9 as [(S1 & S2 & S3 & S4)|(S1 & _)].
  - split; simpl; try congruence. by rewrite E7, <- (ok_canonical a r Hok).
  - apply jstep_states in S1 as (_ & Hne & _). done.
Qed.

(** a tombstone is final.  Once an attempt's record is TOMBSTONED, every
    later history leaves it TOMBSTONED with the same sequence, tombstone
    sequence, container and binding (or leaves the file unreadable): no
    operation can create, start or resume a container of that attempt. *)
Theorem journal_tombstone_final σ events a r :
  store_ok σ → σ !! a = Some (Stored r) → jr_state r = "TOMBSTONED" →
  journal_history σ events !! a = Some Unreadable ∨
  ∃ r', journal_history σ events !! a = Some (Stored r') ∧ same_tombstone r r'.
Proof.
  intros Hok Ha Hst. assert (same_tombstone r r) as Hr by (by split).
  assert (∀ r1 σ, store_ok σ → same_tombstone r r1 →
    σ !! a = Some Unreadable ∨ σ !! a = Some (Stored r1) →
    journal_history σ events !! a = Some Unreadable ∨
    ∃ r', journal_history σ events !! a = Some (Stored r') ∧ same_tombstone r r') as Hgen;
    [|by apply (Hgen r σ); auto].
  clear Hok Ha Hst Hr σ. unfold journal_history.
  induction events as [|ev events IH]; simpl; intros r1 σ Hok Hs Ha; [naive_solver|].
  destruct Ha as [Ha|Ha].
  - apply (IH r1); [by apply journal_step_ok|done|]. left. by apply unreadable_step.
  - destruct (journal_step_carried σ ev a r1 Hok Ha) as [Hu|(r2 & Hr2 & [->|(r3 & He & ->)])].
    + apply (IH r1); [by apply journal_step_ok|done|by left].
    + apply (IH r1); [by apply journal_step_ok|done|by right].
    + apply (IH (encoded r3)); [by apply journal_step_ok| |by right].
      destruct (evolves_tombstoned a r1 r3 (Hok a r1 Ha) (st_state _ _ Hs) He), Hs.
      split; congruence.
Qed.

(** ** Crash consistency *)

(** [m] behaves like [m0], or fails having done all of [m0]'s change or none. *)
Definition fails_cleanly {A} (m m0 : J A) : Prop := ∀ σ,
  m σ = m0 σ ∨ ((∃ e, fst (m σ) = Raise e) ∧ (snd (m σ) = σ ∨ snd (m σ) = snd (m0 σ))).

Lemma fails_cleanly_refl {A} (m : J A) : fails_cleanly m m.
Proof. by left. Qed.

Lemma fails_cleanly_write fault r : fails_cleanly (_write fault r) (_write NoFault r).
Proof. intros σ. destruct fault; simpl; [by left|right; eauto..]. Qed.

Lemma fails_cleanly_bind {A B} (x : J A) (k k0 : A → J B) :
  (∀ σ, snd (x σ) = σ) → (∀ a, fails_cleanly (k a) (k0 a)) →
  fails_cleanly (x ≫= k) (x ≫= k0).
Proof.
  intros Hx Hk σ. unfold mbind, se_bind. specialize (Hx σ).
  destruct (x σ) as [[a|e] σ1]; simpl in Hx; subst; [apply Hk|by left].
Qed.

Lemma fails_cleanly_if {A} (b : bool) (m m' m0 m0' : J A) :
  fails_cleanly m m0 → fails_cleanly m' m0' →
  fails_cleanly (if b then m else m') (if b then m0 else m0').
Proof. by destruct b. Qed.

#[local] Hint Resolve fails_cleanly_refl fails_cleanly_write : journal.

Ltac fails_cleanly_tac :=
  repeat first
    [ solve [auto with journal]
    | apply fails_cleanly_if
    | apply fails_cleanly_bind; [done|intros ?] ].


(** ** Fencing by the operation sequence *)

Definition expected_of (op : JournalOp) : option (string * Z) :=
  match op with
  | BeginCreate a n _ _ | BeginStart a n | MarkStarted a n | ResetStart a n
  | BeginCleanup a n _ _ _ | FinishCleanup a n | Tombstone a n _ _ | AbandonCreate a n _ _ =>
      Some (a, n)
  | _ => None
  end.

Lemma loaded_bind {A} a r (k : JournalRecord → J A) σ :
  loaded σ a r → (load a ≫= k) σ = k r σ.
Proof.
  intros Hl. apply load_Ret in Hl. unfold mbind, se_bind. rewrite (load_eq a σ). by rewrite Hl.
Qed.

(** stale callers are fenced off.  An operation that names an expected
    sequence different from the record's raises [JournalWriteError] and changes
    nothing, so of two callers holding the same sequence at most one can move
    the record. *)
Theorem journal_stale_sequence_rejected fault op σ a n r :
  expected_of op = Some (a, n) → loaded σ a r → jr_operation_sequence r ≠ n →
  ∃ message, run_op fault op σ = (Raise (JournalWriteError message), σ).
Proof.
  intros Hop Hl Hne.
  assert (∀ k : () → J JournalRecord, (_expect_sequence r n ≫= k) σ
          = (Raise (JournalWriteError "operation sequence conflict"), σ)) as Hexp.
  { intros k. unfold _expect_sequence, se_when, se_lift, mbind, se_bind, raise_when.
    by rewrite (proj2 (Z.eqb_neq _ _) Hne). }
  destruct op; simplify_eq/=; unfold begin_create, begin_start, mark_started,
    reset_start_after_failure, begin_cleanup, finish_cleanup, tombstone,
    tombstone_abandoned_create; rewrite (loaded_bind _ r) by done; rewrite ?Hexp; [|eauto..].
  destruct (String.eqb (jr_state r) "TOMBSTONED") eqn:Ht.
  - exists "attempt is tombstoned". unfold se_when, se_lift, mbind, se_bind. done.
  - unfold se_when at 1, se_lift at 1, mbind at 1, se_bind at 1. simpl. rewrite Hexp. eauto.
Qed.

(** C30: the journal refines the attempt state machine.  Between two points of a
    history a readable record keeps its attempt, allocation, nonce, resources,
    image, input and binding; its authority changes only to another incarnation
    of the same worker on the same lease and fence; and each event either keeps
    state, sequence and container or makes one transition of [jstep] and adds
    one to the sequence. *)
Theorem journal_refines_jstep events ev a r r' :
  journal_history ∅ events !! a = Some (Stored r) →
  journal_history ∅ (events ++ [ev]) !! a = Some (Stored r') →
  (jr_allocation_id r' = jr_allocation_id r ∧ jr_startup_nonce r' = jr_startup_nonce r ∧
   jr_resources r' = jr_resources r ∧ jr_image_digest r' = jr_image_digest r ∧
   jr_input_checksum r' = jr_input_checksum r ∧
   jr_execution_binding r' = jr_execution_binding r) ∧
  (jr_authority r' = jr_authority r ∨ same_lease (jr_authority r) (jr_authority r')) ∧
  ((jr_state r' = jr_state r ∧ jr_operation_sequence r' = jr_operation_sequence r ∧
    jr_container r' = jr_container r) ∨
   (jstep (jr_state r, jr_container r) (jr_state r', jr_container r') ∧
    jr_operation_sequence r' = jr_operation_sequence r + 1)).
Proof.
  intros Ha Ha'. assert (store_ok (journal_history ∅ events)) as Hok
    by (apply journal_history_ok; intros b rb; by rewrite lookup_empty).
  unfold journal_history in Ha'. rewrite foldl_app in Ha'. fold (journal_history ∅ events) in Ha'.
  simpl in Ha'.
  destruct (journal_step_carried _ ev a r Hok Ha) as [Hu|(r2 & Hr2 & Hr)]; [congruence|].
  assert (r2 = r') as -> by congruence. destruct Hr as [->|(r1 & He & ->)].
  { split_and!; auto. }
  pose proof (ok_canonical a r (Hok a r Ha)) as Hcan.
  destruct He as [E1 E2 E3 E4 E5 E6 E7 E8 E9]. simpl. split_and!; try done; [congruence|].
  destruct E9 as [(?&?&?&?)|(?&?&?)]; [left|right]; auto.
Qed.

(** [prepare] can be retried.  After a first [prepare] of an attempt that
    reached the disk, even one that then reported a failure, repeating it with
    the same context returns the stored record and writes nothing, while a
    context whose allocation, nonce, image, input, authority or resources
    differ is refused. *)
Theorem prepare_idempotent fault fault' cx σ res σ1 :
  wf_value (VDict (cx_execution_binding cx)) = true →
  σ !! cx_attempt_id cx = None → fault ≠ BeforeReplace →
  prepare fault cx σ = (res, σ1) →
  (∃ r, prepare fault' cx σ1 = (Ret r, σ1) ∧ σ1 !! cx_attempt_id cx = Some (Stored r) ∧
        jr_state r = "PREPARED" ∧ jr_operation_sequence r = 1) ∧
  (∀ cx', cx_attempt_id cx' = cx_attempt_id cx →
     (cx_allocation_id cx' ≠ cx_allocation_id cx ∨ cx_startup_nonce cx' ≠ cx_startup_nonce cx ∨
      cx_image_digest cx' ≠ cx_image_digest cx ∨ cx_input_checksum cx' ≠ cx_input_checksum cx ∨
      cx_authority cx' ≠ cx_authority cx ∨ cx_resources cx' ≠ cx_resources cx) →
     prepare fault' cx' σ1
     = (Raise (JournalWriteError "immutable execution context mismatch"), σ1)).
Proof.
  intros Hwf Hfresh Hfault Hrun. unfold prepare, exists_ in Hrun. cbv zeta in Hrun.
  unfold mbind at 1, se_bind at 1 in Hrun. rewrite Hfresh in Hrun.
  set (r := encoded (new_record (with_binding (_canonical_mapping (cx_execution_binding cx)) cx)
                       "PREPARED" None None None)).
  assert (σ1 = <[cx_attempt_id cx := Stored r]> σ) as -> by (destruct fault; by simplify_eq/=).
  assert (loaded (<[cx_attempt_id cx := Stored r]> σ) (cx_attempt_id cx) r) as Hl.
  { split_and!; [apply lookup_insert_eq|done..|]. by left. }
  assert (∀ cx', cx_attempt_id cx' = cx_attempt_id cx →
    prepare fault' cx' (<[cx_attempt_id cx := Stored r]> σ) =
    (if context_mismatch r cx' (_canonical_mapping (cx_execution_binding cx'))
     then Raise (JournalWriteError "immutable execution context mismatch") else Ret r,
     <[cx_attempt_id cx := Stored r]> σ)) as Hprep.
  { intros cx' Hid. unfold prepare, exists_. cbv zeta. unfold mbind at 1, se_bind at 1.
    rewrite Hid, lookup_insert_eq. cbv iota. rewrite (loaded_bind _ r) by done.
    by destruct (context_mismatch _ _ _). }
  split.
  - exists r. split_and!; [|apply lookup_insert_eq|done|done]. rewrite Hprep by done.
    assert (context_mismatch r cx (_canonical_mapping (cx_execution_binding cx)) = false) as ->; [|done].
    unfold context_mismatch. simpl. rewrite !String.eqb_refl, !bool_decide_eq_false_2 by auto. simpl.
    unfold _canonical_mapping. rewrite sorted_dict_idemp. apply negb_false_iff, py_eq_refl.
    rewrite <- json_sorted_dict. by apply wf_json_sorted.
  - intros cx' Hid Hdiff. rewrite Hprep by done.
    assert (context_mismatch r cx' (_canonical_mapping (cx_execution_binding cx')) = true) as ->; [|done].
    unfold context_mismatch. simpl. rewrite !orb_true_iff, !negb_true_iff, !String.eqb_neq, !bool_decide_eq_true.
    naive_solver.
Qed.

(** ** Evaluation *)

Definition sample_authority (incarnation : string) : Authority :=
  {| worker_id := "w"; worker_incarnation_id := incarnation; au_attempt_id := "a";
     au_allocation_id := "al"; lease_id := "l"; job_fence := 1 |}.

Definition sample_context : Context_ :=
  {| cx_attempt_id := "a"; cx_allocation_id := "al"; cx_startup_nonce := "n";
     cx_authority := sample_authority "i1";
     cx_resources := {| rv_cpu_millis := 1000; rv_memory_bytes := 4096; rv_gpu_count := 0 |};
     cx_image_digest := Some "img"; cx_input_checksum := None;
     cx_execution_binding := [("z", VInt 1); ("b", VList [VNone; VStr "x"])] |}.

Definition sample_identity : ContainerIdentity :=
  {| container_id := "c"; runtime_identity_digest := "d"; ci_attempt_id := "a";
     ci_allocation_id := "al"; ci_startup_nonce := "n"; ci_architecture := "linux/amd64";
     image_id := None |}.

(** A whole life of an attempt, with a retried write and an adoption. *)
Definition sample_life : list JournalEvent :=
  [Run NoFault (Prepare sample_context); Run BeforeReplace (BeginCreate "a" 1 (Some 5) None);
   Run NoFault (BeginCreate "a" 1 (Some 5) None); Run NoFault (BindCreated "a" sample_identity);
   Run AfterReplace (BeginStart "a" 3); Run NoFault (MarkStarted "a" 4);
   Run NoFault (RebindAuthority "a" (sample_authority "i1") (sample_authority "i2"));
   Run NoFault (BeginCleanup "a" 5 "sum" "now" 0); Run NoFault (FinishCleanup "a" 6)].

Definition file_state (c : option content) : option (string * Z) :=
  match c with Some (Stored r) => Some (jr_state r, jr_operation_sequence r) | _ => None end.

Example sample_life_states :
  file_state <$> ((λ n, journal_history ∅ (take n sample_life) !! "a") <$> seq 1 9) =
  [Some ("PREPARED", 1); Some ("PREPARED", 1); Some ("CREATE_IN_FLIGHT", 2); Some ("CREATED", 3);
   Some ("START_IN_FLIGHT", 4); Some ("STARTED", 5); Some ("STARTED", 5);
   Some ("CLEANUP_IN_FLIGHT", 6); Some ("TOMBSTONED", 7)].
Proof. vm_compute. reflexivity. Qed.

(** The record at the end of that life. *)
Definition sample_tombstone : JournalRecord :=
  encoded (with_tombstone 7 (with_inspection (Some "sum") (Some "now") (Some 0)
    (with_container (Some sample_identity) (with_startup (Some 5) None
      (with_authority (sample_authority "i2")
        (new_record sample_context "PREPARED" None None None)))))).

Lemma journal_records_well_formed_witness :
  journal_history ∅ sample_life !! "a" = Some (Stored sample_tombstone) ∧
  record_ok "a" sample_tombstone.
Proof.
  assert (journal_history ∅ sample_life !! "a" = Some (Stored sample_tombstone)) as H
    by (vm_compute; reflexivity).
  split; [exact H|]. exact (journal_records_well_formed sample_life "a" sample_tombstone H).
Defined.

Lemma journal_tombstone_final_witness :
  journal_history (journal_history ∅ sample_life) [Run NoFault (BeginStart "a" 7)] !! "a"
    = Some Unreadable ∨
  ∃ r', journal_history (journal_history ∅ sample_life) [Run NoFault (BeginStart "a" 7)] !! "a"
          = Some (Stored r') ∧ same_tombstone sample_tombstone r'.
Proof.
  apply (journal_tombstone_final (journal_history ∅ sample_life) [Run NoFault (BeginStart "a" 7)]
    "a" sample_tombstone).
  - apply journal_history_ok. intros b r Hb. rewrite lookup_empty in Hb. discriminate Hb.
  - vm_compute. reflexivity.
  - reflexivity.
Defined.

Lemma journal_stale_sequence_rejected_witness :
  ∃ message, run_op NoFault (BeginStart "a" 3) (journal_history ∅ sample_life)
             = (Raise (JournalWriteError message), journal_history ∅ sample_life).
Proof.
  apply (journal_stale_sequence_rejected NoFault (BeginStart "a" 3) (journal_history ∅ sample_life)
    "a" 3 sample_tombstone).
  - reflexivity.
  - split; [vm_compute; reflexivity|]. split; [reflexivity|]. split; [simpl; lia|].
    apply (bool_decide_unpack _). vm_compute. exact I.
  - simpl. lia.
Defined.

Lemma journal_refines_jstep_witness :
  jr_resources sample_tombstone = cx_resources sample_context.
Proof.
  destruct (journal_history ∅ (take 8 sample_life) !! "a") as [[r|]|] eqn:Hr;
    [|vm_compute in Hr; discriminate Hr|vm_compute in Hr; discriminate Hr].
  destruct (journal_refines_jstep (take 8 sample_life) (Run NoFault (FinishCleanup "a" 6)) "a" r
    sample_tombstone Hr) as ((_ & _ & H & _) & _); [vm_compute; reflexivity|].
  reflexivity.
Defined.

Lemma prepare_idempotent_witness :
  ∃ r, prepare NoFault sample_context (snd (prepare AfterReplace sample_context ∅))
       = (Ret r, snd (prepare AfterReplace sample_context ∅)) ∧ jr_state r = "PREPARED".
Proof.
  destruct (prepare_idempotent AfterReplace NoFault sample_context ∅
    (fst (prepare AfterReplace sample_context ∅)) (snd (prepare AfterReplace sample_context ∅)))
    as [(r & H1 & _ & H2 & _) _].
  - vm_compute. reflexivity.
  - reflexivity.
  - discriminate.
  - reflexivity.
  - exists r. split; [exact H1|exact H2].
Defined.
