(* ===== verification/PendingOps.v ===== *)
(** * Pending callbacks of the worker

    [src/nexa/worker/state.py]: [PendingOperationStore], the worker's durable
    list of callbacks it has begun, with the monotonic time each was first sent
    and the acknowledgment it received.  The store is the in-memory dict and
    the state file; the file is replaced atomically under a lock, so every
    method is one atomic step.  Payloads and responses are JSON values. *)

From S2P Require Import Prelude PyValue Json WorkerModels.

Local Open Scope string_scope.
Local Open Scope list_scope.
Local Open Scope Z_scope.

Definition _MAX_STATE_BYTES : Z := 1048576.

Definition _OPERATIONS : list string :=
  ["create_incarnation"; "claim"; "start"; "heartbeat"; "adopt"; "renew"; "failure"; "cleanup";
   "runner_deadline"].

(** A validated record. *)
Record OpRecord := {
  operation : string;
  payload : list (string * pyval);
  first_send_monotonic_ns : option Z;
  acknowledgment : option (list (string * pyval));
  control_sequence : option Z;
}.

Definition KeyErr : exn := Exn "KeyError" "".
Definition TypeErr : exn := Exn "TypeError" "unhashable type".
Definition OSErr : exn := Exn "OSError" "".

(** [d.get(k)] *)
Definition get_field (k : string) (d : list (string * pyval)) : pyval := default VNone (dict_get k d).

(** [isinstance(v, int) and not isinstance(v, bool)] *)
Definition as_int (v : pyval) : option Z := match v with VInt n => Some n | _ => None end.

Definition optional {A} (f : A → pyval) (o : option A) : pyval :=
  match o with Some a => f a | None => VNone end.

Definition record_doc (r : OpRecord) : list (string * pyval) :=
  [("operation", VStr (operation r)); ("payload", VDict (payload r));
   ("first_send_monotonic_ns", optional VInt (first_send_monotonic_ns r));
   ("acknowledgment", optional VDict (acknowledgment r));
   ("control_sequence", optional VInt (control_sequence r))].

Definition keys_are (d : list (string * pyval)) (keys : list string) : bool :=
  bool_decide ((list_to_set d.*1 : gset string) = list_to_set keys).

(** [operation not in _OPERATIONS]: a list or dict has no hash. *)
Definition in_operations (v : pyval) : outcome exn bool :=
  match v with
  | VStr s => Ret (bool_decide (s ∈ _OPERATIONS))
  | VList _ | VDict _ => Raise TypeErr
  | _ => Ret false
  end.

Definition _validate_record (callback_id record : pyval) : outcome exn OpRecord :=
  match callback_id with
  | VStr s =>
      raise_when (negb ((1 <=? py_len s) && (py_len s <=? 128)))
        (ValueError "pending operation identity is invalid")
  | _ => Raise (ValueError "pending operation identity is invalid")
  end;;
  d ← match record with
      | VDict d =>
          raise_when (negb (keys_are d ["operation"; "payload"; "first_send_monotonic_ns";
                                        "acknowledgment"; "control_sequence"]))
            (ValueError "pending operation record is invalid");; Ret d
      | _ => Raise (ValueError "pending operation record is invalid")
      end;
  known ← in_operations (get_field "operation" d);
  '(op, body) ←
    match (known : bool), get_field "operation" d, get_field "payload" d with
    | true, VStr op, VDict body => Ret (op, body)
    | _, _, _ => Raise (ValueError "pending operation payload is invalid")
    end;
  first_send ←
    match get_field "first_send_monotonic_ns" d with
    | VNone => Ret None
    | v =>
        match as_int v with
        | Some n =>
            raise_when (n <? 0) (ValueError "pending operation first-send is invalid");; Ret (Some n)
        | None => Raise (ValueError "pending operation first-send is invalid")
        end
    end;
  ack ←
    match get_field "acknowledgment" d with
    | VNone => Ret None
    | VDict ack => Ret (Some ack)
    | _ => Raise (ValueError "pending operation acknowledgment is invalid")
    end;
  raise_when (match ack, first_send with Some _, None => true | _, _ => false end)
    (ValueError "pending operation acknowledgment lacks first-send");;
  control ←
    match get_field "control_sequence" d with
    | VNone => Ret None
    | v =>
        match as_int v, ack with
        | Some n, Some _ =>
            raise_when (n <? 1) (ValueError "pending operation control sequence is invalid");;
            Ret (Some n)
        | _, _ => Raise (ValueError "pending operation control sequence is invalid")
        end
    end;
  Ret {| operation := op; payload := body; first_send_monotonic_ns := first_send;
         acknowledgment := ack; control_sequence := control |}.

Definition is_bool (v : pyval) : bool := match v with VBool _ => true | _ => false end.

Definition _validate_document (value : pyval) : outcome exn (list (string * OpRecord)) :=
  let invalid := Raise (ValueError "pending state is invalid") in
  match value with
  | VDict d =>
      if negb (keys_are d ["version"; "boot_id"; "operations"])
         || negb (py_eq (get_field "version" d) (VInt 1)) || is_bool (get_field "version" d)
      then invalid
      else
        match get_field "boot_id" d, get_field "operations" d with
        | VStr boot, VDict operations =>
            if negb ((1 <=? py_len boot) && (py_len boot <=? 256))
               || (1024 <? Z.of_nat (length operations))
            then invalid
            else
              mapM (λ '(callback_id, record),
                      r ← _validate_record (VStr callback_id) record; Ret (callback_id, r)) operations
        | _, _ => invalid
        end
  | _ => invalid
  end.

(** ** The store *)

(** The state file: its mode, its size in bytes and what [json.loads] makes of it. *)
Record StateFile := {
  sf_private : bool;
  sf_length : Z;
  sf_value : option pyval;
}.

Record PendingStore := {
  boot_id : string;
  _operations : list (string * OpRecord);
  state_file : option StateFile;
}.

Definition document_of (boot : string) (operations : list (string * OpRecord)) : pyval :=
  VDict [("version", VInt 1); ("boot_id", VStr boot);
         ("operations", VDict ((λ item, (item.1, VDict (record_doc item.2))) <$> operations))].

(** [PendingOperationStore(path, boot_id=boot)] *)
Definition open_store (boot : string) (file : option StateFile) : outcome exn PendingStore :=
  match file with
  | None => Ret {| boot_id := boot; _operations := []; state_file := None |}
  | Some f =>
      raise_when (negb (sf_private f)) (ValueError "pending state permissions are too broad");;
      raise_when (_MAX_STATE_BYTES <? sf_length f) (ValueError "pending state exceeded bound");;
      value ← or_raise (sf_value f) (Exn "JSONDecodeError" "");
      operations ← _validate_document value;
      match value with
      | VDict d =>
          raise_when (negb (py_eq (get_field "boot_id" d) (VStr boot))
                      && negb (length operations =? 0)%nat)
            (ValueError "monotonic clock domain changed with pending authority")
      | _ => Ret ()
      end;;
      Ret {| boot_id := boot; _operations := operations; state_file := file |}
  end.

Definition P (A : Type) : Type := SE PendingStore exn A.

Section operations.
Context (float_repr : spec_float → string).

Definition encoded_length (document : pyval) : Z :=
  byte_len (json_dumps float_repr (json_sorted document)).

Definition _commit (fault : WriteFault) (operations : list (string * OpRecord)) : P () := λ s,
  let document := document_of (boot_id s) operations in
  let file := Some {| sf_private := true; sf_length := encoded_length document;
                      sf_value := Some (json_sorted document) |} in
  match _validate_document document with
  | Raise e => (Raise e, s)
  | Ret _ =>
      if _MAX_STATE_BYTES <? encoded_length document
      then (Raise (ValueError "pending state exceeded bound"), s)
      else
        match fault with
        | NoFault =>
            (Ret (), {| boot_id := boot_id s; _operations := operations; state_file := file |})
        | BeforeReplace => (Raise OSErr, s)
        | AfterReplace =>
            (Raise OSErr, {| boot_id := boot_id s; _operations := _operations s; state_file := file |})
        end
  end.

(** [self._operations[callback_id]] *)
Definition lookup_operation (callback_id : string) : P OpRecord := λ s,
  (or_raise (dict_get callback_id (_operations s)) KeyErr, s).

(** Commit with [callback_id] set to [record], or deleted. *)
Definition commit_set (fault : WriteFault) (callback_id : string) (record : OpRecord) : P () :=
  s ← se_get; _commit fault (dict_set callback_id record (_operations s)).
Definition commit_del (fault : WriteFault) (callback_id : string) : P () :=
  s ← se_get; _commit fault (dict_del callback_id (_operations s)).

Definition new_operation (op : string) (body : list (string * pyval)) : OpRecord :=
  {| operation := op; payload := body; first_send_monotonic_ns := None; acknowledgment := None;
     control_sequence := None |}.

Definition begin (fault : WriteFault) (callback_id op : string) (body : list (string * pyval))
    : P OpRecord :=
  se_lift (_validate_record (VStr callback_id) (VDict (record_doc (new_operation op body))));;
  s ← se_get;
  match dict_get callback_id (_operations s) with
  | Some current =>
      se_when (negb (String.eqb (operation current) op) || negb (dict_eq (payload current) body))
        (ValueError "callback identity cannot be reused with another payload");;
      mret current
  | None =>
      se_when (1024 <=? Z.of_nat (length (_operations s)))
        (ValueError "pending operation bound exceeded");;
      commit_set fault callback_id (new_operation op body);;
      lookup_operation callback_id
  end.

(** [now] is the value [time.monotonic_ns()] returns. *)
Definition first_send (fault : WriteFault) (callback_id : string) (now : Z) : P (option Z) :=
  current ← lookup_operation callback_id;
  match first_send_monotonic_ns current with
  | None =>
      commit_set fault callback_id
        {| operation := operation current; payload := payload current;
           first_send_monotonic_ns := Some now; acknowledgment := acknowledgment current;
           control_sequence := control_sequence current |}
  | Some _ => mret ()
  end;;
  record ← lookup_operation callback_id;
  mret (first_send_monotonic_ns record).

(** A cleanup whose acknowledgment does not yet say it is verified or released. *)
Definition cleanup_pending (current : OpRecord) : bool :=
  String.eqb (operation current) "cleanup"
  && match acknowledgment current with
     | Some existing =>
         negb (match dict_get "verified" existing with Some v => py_truth v | None => false end)
         && negb (py_eq (get_field "allocation_state" existing) (VStr "RELEASED"))
     | None => false
     end.

Definition acknowledge (fault : WriteFault) (callback_id : string)
    (response : list (string * pyval)) (control : option Z) : P () :=
  current ← lookup_operation callback_id;
  se_when (match acknowledgment current with
           | Some existing => negb (dict_eq existing response) && negb (cleanup_pending current)
           | None => false
           end)
    (ValueError "callback acknowledgment changed");;
  commit_set fault callback_id
    {| operation := operation current; payload := payload current;
       first_send_monotonic_ns := first_send_monotonic_ns current;
       acknowledgment := Some response; control_sequence := control |}.

Definition finish (fault : WriteFault) (callback_id : string) : P () :=
  current ← lookup_operation callback_id;
  se_when (match acknowledgment current with None => true | Some _ => false end)
    (ValueError "unacknowledged callback cannot be discarded");;
  commit_del fault callback_id.

(** [current["payload"].get("attempt_id") != attempt_id] *)
Definition other_attempt (current : OpRecord) (attempt_id : string) : bool :=
  negb (py_eq (get_field "attempt_id" (payload current)) (VStr attempt_id)).

Definition discard_rejected_start (fault : WriteFault) (callback_id attempt_id : string)
    (authority_revoked cleanup_verified : bool) : P () :=
  se_when (negb authority_revoked || negb cleanup_verified)
    (ValueError "revoked authority and verified cleanup are required");;
  current ← lookup_operation callback_id;
  se_when (negb (String.eqb (operation current) "start") || other_attempt current attempt_id
           || match acknowledgment current with Some _ => true | None => false end)
    (ValueError "rejected start callback identity is invalid");;
  commit_del fault callback_id.

Definition discard_terminal_renewal (fault : WriteFault) (callback_id attempt_id : string)
    (completion_ack : list (string * pyval)) : P () :=
  se_when (match get_field "accepted" completion_ack with VBool true => false | _ => true end
           || negb (py_eq (get_field "job_state" completion_ack) (VStr "SUCCEEDED")))
    (ValueError "terminal result acknowledgment is required");;
  current ← lookup_operation callback_id;
  se_when (negb (String.eqb (operation current) "renew") || other_attempt current attempt_id)
    (ValueError "terminal renewal identity mismatch");;
  commit_del fault callback_id.

Definition discard_released_authority (fault : WriteFault) (callback_id attempt_id : string)
    (cleanup_verified : bool) : P () :=
  se_when (negb cleanup_verified) (ValueError "verified cleanup is required");;
  current ← lookup_operation callback_id;
  se_when (bool_decide (operation current ∉ ["claim"; "renew"; "failure"])
           || other_attempt current attempt_id)
    (ValueError "released authority callback identity mismatch");;
  commit_del fault callback_id.

(** The incarnation an authority callback was sent for, or no such callback. *)
Definition operation_incarnation (current : OpRecord) : outcome exn pyval :=
  match get_field "body" (payload current) with
  | VDict body =>
      if String.eqb (operation current) "adopt"
      then Ret (get_field "current_worker_incarnation_id" body)
      else if String.eqb (operation current) "renew"
      then Ret (match get_field "authority" body with
                | VDict authority => get_field "worker_incarnation_id" authority
                | _ => VNone
                end)
      else Raise (ValueError "only authority callbacks can be superseded")
  | _ => Raise (ValueError "only authority callbacks can be superseded")
  end.

Definition discard_superseded_authority (fault : WriteFault)
    (callback_id current_worker_incarnation_id : string) : P () :=
  current ← lookup_operation callback_id;
  incarnation ← se_lift (operation_incarnation current);
  se_when (match incarnation with
           | VStr i => String.eqb i current_worker_incarnation_id
           | _ => true
           end)
    (ValueError "authority callback is not superseded");;
  commit_del fault callback_id.

(** Every method that changes the store. *)
Inductive PendingOp :=
| Begin (callback_id op : string) (body : list (string * pyval))
| FirstSend (callback_id : string) (now : Z)
| Acknowledge (callback_id : string) (response : list (string * pyval)) (control : option Z)
| Finish (callback_id : string)
| DiscardRejectedStart (callback_id attempt_id : string) (revoked verified : bool)
| DiscardTerminalRenewal (callback_id attempt_id : string) (ack : list (string * pyval))
| DiscardReleasedAuthority (callback_id attempt_id : string) (verified : bool)
| DiscardSupersededAuthority (callback_id incarnation : string).

Definition run_pending (fault : WriteFault) (op : PendingOp) : P () :=
  match op with
  | Begin c o b => begin fault c o b;; mret ()
  | FirstSend c now => first_send fault c now;; mret ()
  | Acknowledge c response control => acknowledge fault c response control
  | Finish c => finish fault c
  | DiscardRejectedStart c a revoked verified => discard_rejected_start fault c a revoked verified
  | DiscardTerminalRenewal c a ack => discard_terminal_renewal fault c a ack
  | DiscardReleasedAuthority c a verified => discard_released_authority fault c a verified
  | DiscardSupersededAuthority c i => discard_superseded_authority fault c i
  end.
End operations.

(** ** What one method may do *)

(** The attempt a callback belongs to. *)
Definition of_attempt (r : OpRecord) (attempt_id : string) : Prop :=
  get_field "attempt_id" (payload r) = VStr attempt_id.

(** When a method may drop a pending callback. *)
Definition may_discard (op : PendingOp) (r : OpRecord) : Prop :=
  match op with
  | Finish _ => is_Some (acknowledgment r)
  | DiscardRejectedStart _ a revoked verified =>
      revoked = true ∧ verified = true ∧ operation r = "start" ∧ of_attempt r a ∧
      acknowledgment r = None
  | DiscardTerminalRenewal _ a ack =>
      operation r = "renew" ∧ of_attempt r a ∧ get_field "accepted" ack = VBool true ∧
      get_field "job_state" ack = VStr "SUCCEEDED"
  | DiscardReleasedAuthority _ a verified =>
      verified = true ∧ operation r ∈ ["claim"; "renew"; "failure"] ∧ of_attempt r a
  | DiscardSupersededAuthority _ i =>
      operation r ∈ ["adopt"; "renew"] ∧
      ∃ j, operation_incarnation r = Ret (VStr j) ∧ j ≠ i
  | _ => False
  end.

(** What may happen to a callback that stays. *)
Record op_evolves (r r' : OpRecord) : Prop := {
  oe_operation : operation r' = operation r;
  oe_payload : payload r' = payload r;
  oe_first_send : ∀ t, first_send_monotonic_ns r = Some t → first_send_monotonic_ns r' = Some t;
  oe_acknowledgment : ∀ a, acknowledgment r = Some a →
    ∃ a', acknowledgment r' = Some a' ∧ (a' = a ∨ dict_eq a a' = true ∨ cleanup_pending r = true);
}.

Definition op_id (op : PendingOp) : string :=
  match op with
  | Begin c _ _ | FirstSend c _ | Acknowledge c _ _ | Finish c | DiscardRejectedStart c _ _ _
  | DiscardTerminalRenewal c _ _ | DiscardReleasedAuthority c _ _ | DiscardSupersededAuthority c _ => c
  end.

(** The operations a method asks [_commit] to store. *)
Definition permitted (op : PendingOp) (ops ops' : list (string * OpRecord)) : Prop :=
  (∃ o b, op = Begin (op_id op) o b ∧ dict_get (op_id op) ops = None ∧
     (length ops < 1024)%nat ∧ ops' = dict_set (op_id op) (new_operation o b) ops) ∨
  (∃ r r', dict_get (op_id op) ops = Some r ∧ op_evolves r r' ∧ ops' = dict_set (op_id op) r' ops) ∨
  (∃ r, dict_get (op_id op) ops = Some r ∧ may_discard op r ∧ ops' = dict_del (op_id op) ops).

Section effects.
Context (float_repr : spec_float → string).
Notation commit := (_commit float_repr).

(** A method stops before [_commit], or ends as its one [_commit] does. *)
Definition pending_effect (fault : WriteFault) (op : PendingOp) (s : PendingStore)
    (res : outcome exn ()) (s' : PendingStore) : Prop :=
  s' = s ∨ ∃ ops', permitted op (_operations s) ops' ∧ commit fault ops' s = (res, s').

Lemma pending_when {A} b e (k : () → P A) s res s' :
  (se_when b e ≫= k) s = (res, s') → (b = false ∧ k () s = (res, s')) ∨ s' = s.
Proof.
  intros [([] & s1 & Hl & Hk)|(e' & Hl & ->)]%se_bind_inv; unfold se_when, se_lift in Hl;
    destruct b; simplify_eq/=; eauto.
Qed.

Lemma pending_lookup {A} c (k : OpRecord → P A) s res s' :
  (lookup_operation c ≫= k) s = (res, s') →
  (∃ r, dict_get c (_operations s) = Some r ∧ k r s = (res, s')) ∨ s' = s.
Proof.
  unfold lookup_operation. intros [(r & s1 & Hl & Hk)|(e' & Hl & ->)]%se_bind_inv;
    destruct (dict_get c (_operations s)) as [r0|] eqn:Hr; simplify_eq/=; eauto.
Qed.

Lemma py_eq_str v s : py_eq v (VStr s) = true ↔ v = VStr s.
Proof.
  destruct v as [| | |[| | |]|t| |]; simpl; try done. rewrite String.eqb_eq. naive_solver.
Qed.

Lemma other_attempt_spec r a : other_attempt r a = false ↔ of_attempt r a.
Proof. unfold other_attempt, of_attempt. rewrite negb_false_iff. apply py_eq_str. Qed.

Ltac pending_run H :=
  repeat first
    [ let Hw := fresh "Hw" in apply pending_when in H as [[Hw H]| ->]; [|by left]
    | let r := fresh "r" in let Hr := fresh "Hr" in
      apply pending_lookup in H as [(r & Hr & H)| ->]; [|by left] ].

Ltac pending_bools :=
  bool_simpl;
  repeat match goal with
  | H : other_attempt _ _ = false |- _ => apply other_attempt_spec in H
  | H : String.eqb _ _ = true |- _ => apply String.eqb_eq in H
  | H : String.eqb _ _ = false |- _ => apply String.eqb_neq in H
  | H : py_eq _ (VStr _) = true |- _ => apply py_eq_str in H
  | H : ¬ (_ ∉ _) |- _ => apply dec_stable in H
  end.

(** A discarding method deletes the callback. *)
Lemma effect_discard fault op s res s' r :
  dict_get (op_id op) (_operations s) = Some r → may_discard op r →
  commit_del float_repr fault (op_id op) s = (res, s') → pending_effect fault op s res s'.
Proof.
  intros Hr Hm H. right. exists (dict_del (op_id op) (_operations s)). split; [|done].
  right. right. eauto.
Qed.

Lemma commit_Ret fault ops s u s' : commit fault ops s = (Ret u, s') → _operations s' = ops.
Proof.
  unfold _commit. destruct (_validate_document _); [|done].
  destruct (_ <? _); [done|]. destruct fault; intros; by simplify_eq.
Qed.

(** Setting a callback and then looking it up ends as the commit does. *)
Lemma commit_set_then {A} fault c r (k : OpRecord → A) s res s' :
  (commit_set float_repr fault c r;; x ← lookup_operation c; mret (k x)) s = (res, s') →
  ∃ res', commit fault (dict_set c r (_operations s)) s = (res', s') ∧
    res = (λ _, k r) <$> res'.
Proof.
  intros [([] & s1 & Hc & H)|(e & Hc & ->)]%se_bind_inv.
  - exists (Ret ()). unfold lookup_operation, mbind, se_bind in H.
    pose proof (commit_Ret fault _ s () s1 Hc) as Hops. rewrite Hops, dict_get_set_eq in H.
    simpl in H. unfold mret, se_ret in H. simplify_eq. done.
  - by exists (Raise e).
Qed.

Lemma se_then_unit {A} (m : P A) s res s' :
  (m;; mret ()) s = (res, s') → ∃ res', m s = (res', s') ∧ res = (λ _, ()) <$> res'.
Proof.
  intros [(a & s1 & Hm & H)|(e & Hm & ->)]%se_bind_inv.
  - exists (Ret a). unfold mret, se_ret in H. by simplify_eq.
  - by exists (Raise e).
Qed.

Lemma begin_effect fault c o b s res s' :
  (begin float_repr fault c o b;; mret ()) s = (res, s') →
  pending_effect fault (Begin c o b) s res s'.
Proof.
  intros (res' & H & ->)%se_then_unit. unfold begin in H.
  apply se_bind_inv in H as [(v & s2 & Hv & H)|(e & Hv & ->)]; unfold se_lift in Hv;
    [|simplify_eq; by left].
  simplify_eq. unfold se_get, mbind at 1, se_bind at 1 in H.
  destruct (dict_get c (_operations s2)) as [cur|] eqn:Hc.
  { apply pending_when in H as [[_ [= _ <-]]| ->]; by left. }
  apply pending_when in H as [[Hlen H]| ->]; [|by left]. bool_simpl.
  right. exists (dict_set c (new_operation o b) (_operations s2)). split.
  - left. exists o, b. split_and!; [done|done|lia|done].
  - assert (∃ r1, (commit_set float_repr fault c (new_operation o b);;
      x ← lookup_operation c; mret (id x)) s2 = (r1, s') ∧ r1 = res') as (r1 & H' & ->).
    { exists res'. split; [|done]. rewrite <- H. unfold lookup_operation, mbind, se_bind, mret, se_ret.
      destruct (commit_set _ _ _ _ s2) as [[u|e] s3]; [|done]. simpl.
      by destruct (dict_get c (_operations s3)). }
    apply commit_set_then in H' as (r2 & H2 & ->). rewrite H2. by destruct r2 as [[]|].
Qed.

Lemma first_send_effect fault c now s res s' :
  (first_send float_repr fault c now;; mret ()) s = (res, s') →
  pending_effect fault (FirstSend c now) s res s'.
Proof.
  intros (res' & H & ->)%se_then_unit. unfold first_send in H.
  apply pending_lookup in H as [(r & Hr & H)| ->]; [|by left].
  destruct (first_send_monotonic_ns r) as [t|] eqn:Ht.
  - unfold lookup_operation, mbind, se_bind, mret, se_ret in H. rewrite Hr in H. simplify_eq/=. by left.
  - apply commit_set_then in H as (r2 & H2 & ->). right.
    match type of H2 with _commit _ _ ?ops _ = _ => exists ops end. split; [|by destruct r2 as [[]|]].
    clear H2. right. left. eexists _, _. split_and!; [exact Hr| |done]. split; simpl; try done; [congruence|].
    intros a Ha. eauto.
Qed.

Lemma acknowledge_effect fault c response control s res s' :
  acknowledge float_repr fault c response control s = (res, s') →
  pending_effect fault (Acknowledge c response control) s res s'.
Proof.
  unfold acknowledge. intros H. pending_run H. right.
  eexists. split; [|exact H]. clear H. right. left. eexists _, _. split_and!; [exact Hr| |done].
  split; simpl; try done. intros a Ha. rewrite Ha in Hw. exists response. split; [done|]. right.
  destruct (dict_eq a response); [by left|]. destruct (cleanup_pending r); [by right|done].
Qed.

Lemma run_pending_effect fault op s res s' :
  run_pending float_repr fault op s = (res, s') → pending_effect fault op s res s'.
Proof.
  destruct op; simpl; [apply begin_effect|apply first_send_effect|apply acknowledge_effect|..];
    intros H.
  - unfold finish in H. pending_run H. eapply effect_discard; [exact Hr|clear H|exact H].
    simpl. destruct (acknowledgment r); [eauto|done].
  - unfold discard_rejected_start in H. pending_run H. eapply effect_discard; [exact Hr|clear H|exact H].
    simpl. pending_bools. by destruct (acknowledgment r).
  - unfold discard_terminal_renewal in H. pending_run H. eapply effect_discard; [exact Hr|clear H|exact H].
    simpl. pending_bools. split_and!; try done. by repeat case_match.
  - unfold discard_released_authority in H. pending_run H. eapply effect_discard; [exact Hr|clear H|exact H].
    simpl. pending_bools. done.
  - unfold discard_superseded_authority in H. pending_run H.
    apply se_bind_inv in H as [(v & s1 & Hv & H)|(e & Hv & ->)]; unfold se_lift in Hv;
      injection Hv as Hi <-; [|by left].
    pending_run H. eapply effect_discard; [exact Hr|clear H|exact H]. simpl.
    destruct v as [| | | |j| |]; try done. pending_bools. split; [|eauto].
    unfold operation_incarnation in Hi. repeat case_match; simplify_eq; pending_bools; set_solver.
Qed.
End effects.

(** ** Validation and the state file *)

Definition id_ok (callback_id : string) : Prop := 1 ≤ py_len callback_id ≤ 128.

Record rec_ok (callback_id : string) (r : OpRecord) : Prop := {
  ro_id : id_ok callback_id;
  ro_operation : operation r ∈ _OPERATIONS;
  ro_first_send : ∀ t, first_send_monotonic_ns r = Some t → 0 ≤ t;
  ro_acknowledgment : is_Some (acknowledgment r) → is_Some (first_send_monotonic_ns r);
  ro_control : ∀ n, control_sequence r = Some n → 1 ≤ n ∧ is_Some (acknowledgment r);
}.

Definition canon_rec (r : OpRecord) : OpRecord :=
  {| operation := operation r; payload := sorted_dict (payload r);
     first_send_monotonic_ns := first_send_monotonic_ns r;
     acknowledgment := sorted_dict <$> acknowledgment r; control_sequence := control_sequence r |}.

(** Operations as a restarted worker reads them: sorted keys everywhere. *)
Definition canon_ops (ops : list (string * OpRecord)) : list (string * OpRecord) :=
  (λ item, (item.1, canon_rec item.2)) <$> py_sorted (λ a b, String.leb a.1 b.1) ops.

Lemma validate_id s :
  (match VStr s with
   | VStr s => raise_when (negb ((1 <=? py_len s)
                                 && (py_len s <=? 128)))
                 (ValueError "pending operation identity is invalid")
   | _ => Raise (ValueError "pending operation identity is invalid")
   end) = Ret () ↔ id_ok s.
Proof. rewrite raise_when_Ret, negb_false_iff, andb_true_iff, !Z.leb_le. done. Qed.

(** Validation reads only the five fields. *)
Lemma validate_fields c d r :
  rec_ok c r →
  keys_are d ["operation"; "payload"; "first_send_monotonic_ns"; "acknowledgment";
              "control_sequence"] = true →
  get_field "operation" d = VStr (operation r) → get_field "payload" d = VDict (payload r) →
  get_field "first_send_monotonic_ns" d = optional VInt (first_send_monotonic_ns r) →
  get_field "acknowledgment" d = optional VDict (acknowledgment r) →
  get_field "control_sequence" d = optional VInt (control_sequence r) →
  _validate_record (VStr c) (VDict d) = Ret r.
Proof.
  intros [R1 R2 R3 R4 R5] Hk F1 F2 F3 F4 F5. unfold _validate_record.
  apply validate_id in R1. rewrite R1, Hk. cbn [negb raise_when mbind outcome_bind].
  rewrite F1, F2. cbn [in_operations mbind outcome_bind]. rewrite bool_decide_eq_true_2 by done. cbn [mbind outcome_bind]. rewrite F3, F4, F5.
  destruct r as [op body [t|] ack control]; simpl in *.
  - rewrite (proj2 (Z.ltb_ge _ _)) by auto. simpl. destruct ack as [ack|]; simpl.
    + destruct control as [n|]; simpl; [|done]. destruct (R5 n) as [Hn _]; [done|].
      by rewrite (proj2 (Z.ltb_ge _ _)).
    + destruct control as [n|]; [|done]. by destruct (R5 n) as [_ []].
  - destruct ack as [ack|]; [by destruct R4 as []; [eauto|]|]. simpl.
    destruct control as [n|]; [|done]. by destruct (R5 n) as [_ []].
Qed.

Lemma validate_record_doc c r r' :
  _validate_record (VStr c) (VDict (record_doc r)) = Ret r' → r' = r ∧ rec_ok c r.
Proof.
  unfold _validate_record. intros H. apply bind_Ret in H as ([] & Hid & H). apply validate_id in Hid.
  cbn [record_doc] in H. apply bind_Ret in H as (d & Hd & H).
  apply bind_Ret in Hd as ([] & _ & [= <-]). unfold in_operations, get_field in H.
  cbn in H. destruct r as [op body fs ack control]; simpl in H.
  destruct (bool_decide (op ∈ _OPERATIONS)) eqn:Hop; [|done]. bool_simpl. simpl in H.
  apply bind_Ret in H as (fs' & Hfs & H).
  assert (fs' = fs ∧ ∀ t, fs = Some t → 0 ≤ t) as [-> Hfs0].
  { destruct fs as [t|]; simpl in Hfs; [|by simplify_eq]. peel Hfs. simplify_eq. bool_simpl.
    split; [done|]. by intros ? [= <-]. }
  apply bind_Ret in H as (ack' & Hack & H).
  assert (ack' = ack) as -> by (by destruct ack; simplify_eq/=).
  peel H. apply bind_Ret in H as (control' & Hcontrol & [= <-]).
  assert (control' = control ∧ ∀ n, control = Some n → 1 ≤ n ∧ is_Some ack) as [-> Hc1].
  { destruct control as [n|]; simpl in Hcontrol; [|by simplify_eq]. destruct ack; [|done].
    peel Hcontrol. simplify_eq. bool_simpl. split; [done|]. intros ? [= <-]. eauto. }
  split; [done|]. split; simpl; try done. intros [a ->]. by destruct fs.
Qed.

Record ops_ok (boot : string) (ops : list (string * OpRecord)) : Prop := {
  oo_boot : 1 ≤ py_len boot ≤ 256;
  oo_bound : Z.of_nat (length ops) ≤ 1024;
  oo_records : ∀ c r, (c, r) ∈ ops → rec_ok c r;
}.

(** Validation of a document reads only its three fields. *)
Lemma validate_document_fields d boot od :
  keys_are d ["version"; "boot_id"; "operations"] = true →
  get_field "version" d = VInt 1 → get_field "boot_id" d = VStr boot →
  get_field "operations" d = VDict od →
  _validate_document (VDict d) =
  if negb ((1 <=? py_len boot) && (py_len boot <=? 256))
     || (1024 <? Z.of_nat (length od))
  then Raise (ValueError "pending state is invalid")
  else mapM (λ '(callback_id, record),
               r ← _validate_record (VStr callback_id) record; Ret (callback_id, r)) od.
Proof. intros Hk F1 F2 F3. unfold _validate_document. rewrite Hk, F1, F2, F3. done. Qed.

Definition operations_doc (ops : list (string * OpRecord)) : list (string * pyval) :=
  (λ item, (item.1, VDict (record_doc item.2))) <$> ops.

Lemma validate_document_of boot ops ops' :
  _validate_document (document_of boot ops) = Ret ops' → ops' = ops ∧ ops_ok boot ops.
Proof.
  unfold document_of. fold (operations_doc ops).
  rewrite (validate_document_fields _ boot (operations_doc ops)) by reflexivity.
  destruct (_ || _) eqn:Hb; [done|]. apply orb_false_iff in Hb as [Hboot Hlen].
  bool_simpl. unfold operations_doc in *. rewrite length_fmap in Hlen. intros Hm.
  assert (ops' = ops ∧ ∀ c r, (c, r) ∈ ops → rec_ok c r) as [-> Hrec]; [|by split_and!].
  clear Hlen. revert ops' Hm. induction ops as [|[c r] ops IH]; intros ops' Hm.
  { injection Hm as <-. split; [done|]. intros c r Hin. by apply not_elem_of_nil in Hin. }
  rewrite fmap_cons in Hm. cbn [mapM fst snd] in Hm. apply bind_Ret in Hm as ([c' r'] & Hr & Hm).
  apply bind_Ret in Hr as (r1 & Hr & [= <- <-]). apply validate_record_doc in Hr as [-> Hok].
  apply bind_Ret in Hm as (rest & Hrest & [= <-]). apply IH in Hrest as [-> Hrest].
  split; [done|]. intros c1 r2 [[= -> ->]|Hin]%elem_of_cons; auto.
Qed.

Lemma keys_are_sorted d keys : keys_are (sorted_dict d) keys = keys_are d keys.
Proof.
  unfold keys_are. apply bool_decide_ext.
  assert ((list_to_set (sorted_dict d).*1 : gset string) = list_to_set d.*1) as ->; [|done].
  apply leibniz_equiv. by rewrite sorted_dict_keys.
Qed.

Lemma get_field_sorted d k : NoDup d.*1 → get_field k (sorted_dict d) = json_sorted (get_field k d).
Proof.
  intros Hnd. unfold get_field. rewrite sorted_dict_get by done. by destruct (dict_get k d).
Qed.

Lemma record_doc_nodup r : NoDup (record_doc r).*1.
Proof. apply (bool_decide_unpack _). by vm_compute. Qed.

Lemma json_sorted_optional {A} (f : A → pyval) (g : A → A) o :
  (∀ a, json_sorted (f a) = f (g a)) → json_sorted (optional f o) = optional f (g <$> o).
Proof. intros Hf. destruct o; simpl; [apply Hf|done]. Qed.

Lemma validate_record_sorted c r :
  rec_ok c r →
  _validate_record (VStr c) (json_sorted (VDict (record_doc r))) = Ret (canon_rec r).
Proof.
  intros Hok. rewrite json_sorted_dict. pose proof (record_doc_nodup r) as Hnd.
  apply validate_fields; rewrite ?keys_are_sorted, ?get_field_sorted by done; try reflexivity.
  - destruct Hok as [R1 R2 R3 R4 R5]. split; simpl; try done.
    + intros Ha. apply R4. by destruct (acknowledgment r); [|by destruct Ha].
    + intros n Hn. destruct (R5 n Hn) as [? [a ->]]. by split; [|eexists].
  - transitivity (json_sorted (optional VInt (first_send_monotonic_ns r))); [reflexivity|].
    simpl. by destruct (first_send_monotonic_ns r).
  - transitivity (json_sorted (optional VDict (acknowledgment r))); [reflexivity|].
    simpl. by destruct (acknowledgment r).
  - transitivity (json_sorted (optional VInt (control_sequence r))); [reflexivity|].
    simpl. by destruct (control_sequence r).
Qed.

Lemma sorted_operations_doc ops :
  sorted_dict (operations_doc ops) =
  (λ item, (item.1, json_sorted (VDict (record_doc item.2)))) <$>
    py_sorted (λ a b, String.leb a.1 b.1) ops.
Proof.
  set (f := λ item : string * OpRecord, (item.1, json_sorted (VDict (record_doc item.2)))).
  unfold sorted_dict, operations_doc.
  assert (List.map (λ '(k, v), (k, json_sorted v))
            ((λ item : string * OpRecord, (item.1, VDict (record_doc item.2))) <$> ops)
          = List.map f ops) as ->.
  { change (@fmap list list_fmap) with (λ A B (g : A → B), List.map g). cbv beta.
    by rewrite map_map. }
  by rewrite (py_sorted_map f (λ a b, String.leb a.1 b.1)).
Qed.

(** The file a commit of valid operations writes reads back as those operations. *)
Lemma validate_document_sorted boot ops :
  ops_ok boot ops →
  _validate_document (json_sorted (document_of boot ops)) = Ret (canon_ops ops).
Proof.
  intros [B L R]. unfold document_of. fold (operations_doc ops). rewrite json_sorted_dict.
  assert (NoDup [("version", VInt 1); ("boot_id", VStr boot);
                 ("operations", VDict (operations_doc ops))].*1) as Hnd
    by (apply (bool_decide_unpack _); by vm_compute).
  rewrite (validate_document_fields _ boot (sorted_dict (operations_doc ops)));
    rewrite ?keys_are_sorted, ?get_field_sorted by done; try reflexivity.
  assert (length (sorted_dict (operations_doc ops)) = length ops) as ->.
  { rewrite sorted_operations_doc, length_fmap. apply py_sorted_length. }
  destruct (_ || _) eqn:Hb.
  { exfalso. apply orb_true_iff in Hb as [Hb|Hb]; bool_simpl; [|lia].
    apply andb_false_iff in Hb as [Hb|Hb]; bool_simpl; lia. }
  rewrite sorted_operations_doc. unfold canon_ops.
  assert (∀ c r, (c, r) ∈ py_sorted (λ a b, String.leb a.1 b.1) ops → rec_ok c r) as R'
    by (intros c r Hin; apply R; by apply py_sorted_elem in Hin).
  clear -R'. induction (py_sorted _ ops) as [|[c r] l IH]; [done|].
  rewrite fmap_cons. cbn [mapM fst snd].
  rewrite validate_record_sorted by (apply R'; left). cbn [mbind outcome_bind].
  rewrite IH by (intros; apply R'; by right). done.
Qed.

(** ** Histories of the store *)

Section histories.
Context (float_repr : spec_float → string).
Notation commit := (_commit float_repr).

(** What [_commit] does. *)
Lemma commit_inv fault ops s res s' :
  commit fault ops s = (res, s') →
  boot_id s' = boot_id s ∧
  ((s' = s ∧ ∃ e, res = Raise e) ∨
   (ops_ok (boot_id s) ops ∧ encoded_length float_repr (document_of (boot_id s) ops) ≤ _MAX_STATE_BYTES ∧
    state_file s' = Some {| sf_private := true;
                            sf_length := encoded_length float_repr (document_of (boot_id s) ops);
                            sf_value := Some (json_sorted (document_of (boot_id s) ops)) |} ∧
    ((fault = NoFault ∧ res = Ret () ∧ _operations s' = ops) ∨
     (fault = AfterReplace ∧ res = Raise OSErr ∧ _operations s' = _operations s)))).
Proof.
  unfold _commit. destruct (_validate_document _) as [v|e] eqn:Hv;
    [|intros [= <- <-]; split; [done|left; eauto]].
  apply validate_document_of in Hv as [-> Hok].
  destruct (Z.ltb_spec _MAX_STATE_BYTES (encoded_length float_repr (document_of (boot_id s) ops)));
    [intros [= <- <-]; split; [done|left; eauto]|].
  destruct fault; intros [= <- <-]; (split; [done|]); [right|left; eauto|right]; split_and!; auto.
Qed.

(** A restart of the worker on this boot finds the operations in memory. *)
Definition reopens (s : PendingStore) (ops : list (string * OpRecord)) : Prop :=
  ∃ s', open_store (boot_id s) (state_file s) = Ret s' ∧ _operations s' = canon_ops ops.

Lemma reopens_file s ops :
  ops_ok (boot_id s) ops → encoded_length float_repr (document_of (boot_id s) ops) ≤ _MAX_STATE_BYTES →
  state_file s = Some {| sf_private := true;
                         sf_length := encoded_length float_repr (document_of (boot_id s) ops);
                         sf_value := Some (json_sorted (document_of (boot_id s) ops)) |} →
  reopens s ops.
Proof.
  intros Hok Hlen Hf. eexists. unfold open_store. rewrite Hf. cbn [sf_private sf_length sf_value negb raise_when].
  rewrite (proj2 (Z.ltb_ge _ _)) by done. cbn [raise_when mbind outcome_bind or_raise].
  rewrite validate_document_sorted by done. cbn [mbind outcome_bind].
  change (json_sorted (document_of (boot_id s) ops)) with
    (VDict (sorted_dict [("version", VInt 1); ("boot_id", VStr (boot_id s));
      ("operations", VDict ((λ item, (item.1, VDict (record_doc item.2))) <$> ops))])).
  cbv iota beta. assert (get_field "boot_id" (sorted_dict [("version", VInt 1); ("boot_id", VStr (boot_id s));
    ("operations", VDict ((λ item, (item.1, VDict (record_doc item.2))) <$> ops))])
    = VStr (boot_id s)) as ->.
  { rewrite get_field_sorted; [reflexivity|]. apply (bool_decide_unpack _). by vm_compute. }
  cbn [py_eq]. rewrite String.eqb_refl. cbn [negb andb raise_when mbind outcome_bind]. done.
Qed.

(** C31: a worker that restarts loses nothing.  When a restart would recover the
    operations in memory, it still does after every method that succeeds, is
    refused, or fails before the file is replaced; and when the write fails
    after the replace, the restart recovers either the operations in memory or
    exactly the ones the method was about to commit. *)
Theorem pending_restart_recovers fault op s res s' :
  reopens s (_operations s) → run_pending float_repr fault op s = (res, s') →
  reopens s' (_operations s') ∨
  (fault = AfterReplace ∧ ∃ ops', permitted op (_operations s) ops' ∧ reopens s' ops').
Proof.
  intros Hs [->|(ops' & Hp & Hc)]%run_pending_effect; [by left|].
  apply commit_inv in Hc as [Hb [[-> _]|(Hok & Hlen & Hf & Hres)]]; [by left|].
  rewrite <- Hb in Hok, Hlen, Hf. pose proof (reopens_file s' ops' Hok Hlen Hf) as Hr.
  destruct Hres as [(_ & _ & ->)|(-> & _ & _)]; [by left|right; eauto].
Qed.

(** Memory as the methods keep it. *)
Record pstore_ok (s : PendingStore) : Prop := {
  po_nodup : NoDup (_operations s).*1;
  po_records : ∀ c r, (c, r) ∈ _operations s → rec_ok c r;
  po_bound : Z.of_nat (length (_operations s)) ≤ 1024;
}.

Lemma dict_del_sublist {V} c (d : list (string * V)) : dict_del c d `sublist_of` d.
Proof.
  induction d as [|[k v] d IH]; simpl; [done|]. case_decide; [by apply sublist_cons|].
  by apply sublist_skip.
Qed.

Lemma permitted_nodup op ops ops' : permitted op ops ops' → NoDup ops.*1 → NoDup ops'.*1.
Proof.
  intros [(o & b & _ & _ & _ & ->)|[(r & r' & _ & _ & ->)|(r & _ & _ & ->)]] Hnd;
    [by apply dict_set_NoDup..|].
  eapply sublist_NoDup; [exact Hnd|]. apply fmap_sublist, dict_del_sublist.
Qed.

Lemma run_pending_ok fault op s res s' :
  pstore_ok s → run_pending float_repr fault op s = (res, s') → pstore_ok s'.
Proof.
  intros Hs [->|(ops' & Hp & Hc)]%run_pending_effect; [done|].
  apply commit_inv in Hc as [_ [[-> _]|(Hok & _ & _ & [(_ & _ & He)|(_ & _ & He)])]]; [done| |].
  - destruct Hok as [_ L R]. split; rewrite He; [|done..].
    eapply permitted_nodup; [exact Hp|apply (po_nodup s Hs)].
  - destruct Hs. by split; rewrite He.
Qed.

Definition pending_history (s : PendingStore) (events : list (WriteFault * PendingOp)) : PendingStore :=
  foldl (λ s ev, snd (run_pending float_repr ev.1 ev.2 s)) s events.

Definition empty_store (boot : string) : PendingStore :=
  {| boot_id := boot; _operations := []; state_file := None |}.

(** every pending callback is well formed at every point of every history,
    write errors included: its ID has 1 to 128 characters and is unique, its
    operation is a known one, an acknowledgment exists only after a first send
    and a control sequence, at least 1, only with an acknowledgment, and there
    are at most 1,024 callbacks. *)
Theorem pending_records_well_formed boot events :
  pstore_ok (pending_history (empty_store boot) events).
Proof.
  assert (∀ s, pstore_ok s → pstore_ok (pending_history s events)) as Hgen.
  { unfold pending_history. induction events as [|[fault op] events IH]; simpl; intros s Hs; [done|].
    apply IH. destruct (run_pending float_repr fault op s) as [res s'] eqn:H.
    by eapply run_pending_ok. }
  apply Hgen. split; simpl; [constructor|set_solver|done].
Qed.

Lemma dict_get_del_ne {V} k c (d : list (string * V)) :
  k ≠ c → dict_get k (dict_del c d) = dict_get k d.
Proof.
  intros Hne. induction d as [|[k' v] d IH]; simpl; [done|].
  destruct (decide (c = k')) as [->|]; simpl; repeat case_decide; congruence.
Qed.

(** the life of a callback.  Whatever a method does, even when it fails, a
    callback of another ID is untouched, and the callback it names keeps its
    operation and payload, keeps its first-send time once set, keeps an
    acknowledgment once set unless it is a cleanup still pending, and is
    dropped only when the method's own conditions hold: acknowledged, or a
    rejected start after revocation and verified cleanup, a renewal after the
    terminal success, released authority after verified cleanup, or authority
    of another incarnation.  A method that raises changes no callback. *)
Theorem pending_callback_lifecycle fault op s res s' c r :
  dict_get c (_operations s) = Some r → run_pending float_repr fault op s = (res, s') →
  (c ≠ op_id op → dict_get c (_operations s') = Some r) ∧
  ((∃ e, res = Raise e) → _operations s' = _operations s) ∧
  (dict_get c (_operations s') = Some r ∨
   (∃ r', dict_get c (_operations s') = Some r' ∧ op_evolves r r') ∨
   (may_discard op r ∧ _operations s' = dict_del c (_operations s))).
Proof.
  intros Hr [->|(ops' & Hp & Hc)]%run_pending_effect; [auto|].
  apply commit_inv in Hc as [_ [[-> _]|(_ & _ & _ & [(_ & -> & He)|(_ & -> & He)])]];
    [auto| |rewrite He; auto].
  rewrite He. split_and!; [|by intros []|].
  - intros Hne. destruct Hp as [(o & b & _ & _ & _ & ->)|[(r1 & r' & _ & _ & ->)|(r1 & _ & _ & ->)]];
      [by rewrite dict_get_set_ne..|by rewrite dict_get_del_ne].
  - destruct (decide (c = op_id op)) as [->|Hne].
    + destruct Hp as [(o & b & _ & Hn & _ & ->)|[(r1 & r' & Hr1 & Hev & ->)|(r1 & Hr1 & Hm & ->)]].
      * congruence.
      * right. left. exists r'. rewrite dict_get_set_eq. split; [done|]. congruence.
      * right. right. split; [congruence|done].
    + left. destruct Hp as [(o & b & _ & _ & _ & ->)|[(r1 & r' & _ & _ & ->)|(r1 & _ & _ & ->)]];
      [by rewrite dict_get_set_ne..|by rewrite dict_get_del_ne].
Qed.
End histories.

(** ** Evaluation *)

Definition no_floats : spec_float → string := λ _, "0.0".

Definition sample_history : list (WriteFault * PendingOp) :=
  [(NoFault, Begin "cb" "claim" [("z", VInt 1); ("attempt_id", VStr "a")]);
   (NoFault, FirstSend "cb" 100); (BeforeReplace, FirstSend "cb" 300);
   (NoFault, Acknowledge "cb" [("granted", VBool true)] None)].

Definition sample_store : PendingStore := pending_history no_floats (empty_store "boot") sample_history.

Example sample_store_operations :
  (λ item, (item.1, operation item.2, first_send_monotonic_ns item.2)) <$> _operations sample_store
  = [("cb", "claim", Some 100)].
Proof. vm_compute. reflexivity. Qed.

Lemma pending_restart_recovers_witness :
  reopens (snd (run_pending no_floats NoFault (Finish "cb") sample_store)) [].
Proof.
  destruct (pending_restart_recovers no_floats NoFault (Finish "cb") sample_store
    (fst (run_pending no_floats NoFault (Finish "cb") sample_store))
    (snd (run_pending no_floats NoFault (Finish "cb") sample_store))) as [H|[H _]].
  - destruct (open_store (boot_id sample_store) (state_file sample_store)) as [s|e] eqn:Hs;
      [|vm_compute in Hs; discriminate Hs].
    exists s. split; [exact Hs|]. vm_compute in Hs. injection Hs as <-. vm_compute. reflexivity.
  - reflexivity.
  - exact H.
  - discriminate H.
Defined.

Lemma pending_callback_lifecycle_witness :
  ∃ r, dict_get "cb" (_operations sample_store) = Some r ∧
    dict_get "cb" (_operations (snd (run_pending no_floats NoFault (FirstSend "cb" 999) sample_store)))
    = Some r.
Proof.
  destruct (dict_get "cb" (_operations sample_store)) as [r|] eqn:Hr;
    [|vm_compute in Hr; discriminate Hr].
  exists r. split; [reflexivity|].
  destruct (pending_callback_lifecycle no_floats NoFault (FirstSend "cb" 999) sample_store
    (fst (run_pending no_floats NoFault (FirstSend "cb" 999) sample_store))
    (snd (run_pending no_floats NoFault (FirstSend "cb" 999) sample_store)) "cb" r Hr)
    as (_ & _ & [H|[(r' & H & He)|[[] _]]]); [reflexivity|exact H|].
  rewrite H. f_equal. vm_compute in Hr. injection Hr as <-. vm_compute in H. injection H as <-.
  reflexivity.
Defined.
