(* ===== verification/Database.v ===== *)
(** * The database

    The tables of [src/nexa/infrastructure/persistence/schema_v1.py] (with the
    columns later schema files append) that the coordinator and the worker-facing
    services read and write, as lists of rows in insertion order; columns no
    modelled code reads, such as [updated_at], are left out.  A transaction body is a
    computation on the database that may raise; the caller discards the database
    of a body that raised (see [Persistence.run_transaction]).

    UUIDs are their canonical lower-case strings, so that [str(uuid)] and
    [UUID(str)] are the identity and the order of UUID columns is the order of
    strings.  Timestamps are microseconds since the epoch.  Identifiers drawn by
    [new_uuid7] come from a stream the database record carries.  Foreign keys,
    unique indexes and check constraints are not enforced by the model. *)

From stdpp Require Import pretty.
From S2P Require Import Prelude PyDecimal PyValue Leadership.

Local Open Scope string_scope.
Local Open Scope list_scope.
Local Open Scope Z_scope.

(** ** Record update

    [r <| field := v |>] is [r] with one field replaced. *)

Class Eta (R : Type) := eta : R → R.
Class Setter {R T : Type} (proj : R → T) := set_field : (T → T) → R → R.
Arguments set_field {R T} proj {_} f r.

Ltac derive_setter proj :=
  match type of proj with
  | ?R → ?T =>
      let inst := constr:(@eta R _) in
      let inst := eval unfold eta in inst in
      let inst := eval unfold inst in inst in
      exact (λ (f : T → T) (r : R),
        ltac:(let body := eval cbv beta in (inst r) in
              match eval pattern (proj r) in body with
              | ?g _ => let res := eval cbv beta in (g (f (proj r))) in exact res
              end))
  end.

#[export] Hint Extern 0 (Setter ?p) => derive_setter p : typeclass_instances.

Notation "r <| proj := v |>" := (set_field proj (λ _, v) r)
  (at level 1, left associativity, proj at level 9, v at level 200).

(** ** Column types *)

Inductive JobState :=
| JS_QUEUED | JS_DISPATCHING | JS_RUNNING | JS_PAUSING | JS_PAUSED | JS_RECOVERING
| JS_RETRY_WAIT | JS_CANCELLING | JS_SUCCEEDED | JS_FAILED | JS_CANCELLED.

Inductive DesiredState := DS_RUNNING | DS_PAUSED | DS_CANCELLED.

Inductive AttemptState :=
| AS_CREATED | AS_CLAIMED | AS_STARTING | AS_RUNNING | AS_CHECKPOINTING | AS_STOPPING
| AS_SUCCEEDED | AS_FAILED | AS_LOST | AS_CANCELLED.

Inductive AllocState := AL_HELD | AL_QUARANTINED | AL_RELEASED.

Inductive OperationalMode := NORMAL | ADMISSION_OFF | WRITE_FROZEN.

#[export] Instance JobState_dec : EqDecision JobState.
Proof. solve_decision. Defined.
#[export] Instance DesiredState_dec : EqDecision DesiredState.
Proof. solve_decision. Defined.
#[export] Instance AttemptState_dec : EqDecision AttemptState.
Proof. solve_decision. Defined.
#[export] Instance AllocState_dec : EqDecision AllocState.
Proof. solve_decision. Defined.
#[export] Instance OperationalMode_dec : EqDecision OperationalMode.
Proof. solve_decision. Defined.

(** The authority a worker presents with every callback ([api/schemas.py]). *)
Record Authority := {
  a_worker_id : string;
  a_worker_incarnation_id : string;
  a_attempt_id : string;
  a_allocation_id : string;
  a_lease_id : string;
  a_job_fence : Z;
}.

#[export] Instance Authority_dec : EqDecision Authority.
Proof. solve_decision. Defined.

(** The acknowledgments stored in callback receipts, one constructor per shape of
    response. *)
Inductive Ack :=
| AckRenew (server_time lease_expires_at : Z) (desired_state : DesiredState)
| AckAdopt (callback_id : string) (server_time : Z) (authority : Authority)
    (transferred_checkpoint transferred_result : option string) (lease_expires_at : Z)
| AckStart (callback_id : string) (server_time : Z) (job_state : JobState) (job_version : Z)
    (lease_expires_at : Z)
| AckReserveResult (callback_id result_id job_id attempt_id : string) (reserved_at : Z)
| AckReserveCheckpoint (callback_id checkpoint_id job_id attempt_id : string) (sequence reserved_at : Z)
| AckFail (callback_id : string) (server_time : Z) (job_state : JobState) (job_version : Z)
| AckCleanup (callback_id : string) (verified : bool) (allocation_state : AllocState)
    (server_time : Z)
| AckHeartbeat (server_time : Z) (admin_state accepted_incarnation_id : string)
| AckComplete (callback_id : string) (accepted : bool) (job_state : JobState).

#[export] Instance Ack_dec : EqDecision Ack.
Proof. solve_decision. Defined.

(** ** Rows *)

(** A row of [jobs]. *)
Record JobRow := MkJobRow {
  j_job_id : string;
  j_tenant_id : string;
  j_submitter_user_id : string;
  j_state : JobState;
  j_desired_state : DesiredState;
  j_waiting_reason : option string;
  j_recovery_intent : option string;
  j_version : Z;
  j_job_fence : Z;
  j_event_sequence : Z;
  j_checkpoint_sequence : Z;
  j_retry_count : Z;
  j_max_retries : Z;
  j_retry_of_job_id : option string;
  j_ready_sequence : Z;
  j_eligible_since : option Z;
  j_retry_ready_at : option Z;
  j_terminal_at : option Z;
  j_created_at : Z;
  j_base_priority : Z;
}.
#[export] Instance eta_JobRow : Eta JobRow := λ r, MkJobRow (j_job_id r) (j_tenant_id r)
  (j_submitter_user_id r) (j_state r) (j_desired_state r) (j_waiting_reason r) (j_recovery_intent r)
  (j_version r) (j_job_fence r) (j_event_sequence r) (j_checkpoint_sequence r) (j_retry_count r)
  (j_max_retries r) (j_retry_of_job_id r) (j_ready_sequence r) (j_eligible_since r)
  (j_retry_ready_at r) (j_terminal_at r) (j_created_at r) (j_base_priority r).

(** A row of [job_specs]. *)
Record SpecRow := MkSpecRow {
  sp_job_id : string;
  sp_canonical_spec : pyval;
  sp_spec_checksum : string;
  sp_template_id : string;
  sp_template_version : Z;
  sp_cpu_millis : Z;
  sp_memory_bytes : Z;
  sp_gpu_count : Z;
  sp_tenant_id : string;
  sp_input_artifact_id : string;
  sp_model_artifact_id : option string;
  sp_runtime_limit_seconds : Z;
  sp_checkpoint_interval_seconds : Z;
}.
#[export] Instance eta_SpecRow : Eta SpecRow := λ r, MkSpecRow (sp_job_id r) (sp_canonical_spec r)
  (sp_spec_checksum r) (sp_template_id r) (sp_template_version r) (sp_cpu_millis r)
  (sp_memory_bytes r) (sp_gpu_count r) (sp_tenant_id r) (sp_input_artifact_id r)
  (sp_model_artifact_id r) (sp_runtime_limit_seconds r) (sp_checkpoint_interval_seconds r).

(** A row of [logical_sessions]. *)
Record SessionRow := MkSessionRow {
  ls_session_id : string;
  ls_tenant_id : string;
  ls_job_id : string;
}.
#[export] Instance eta_SessionRow : Eta SessionRow := λ r, MkSessionRow (ls_session_id r) (ls_tenant_id r)
  (ls_job_id r).

(** A row of [template_versions]. *)
Record TemplateRow := MkTemplateRow {
  tv_template_id : string;
  tv_version : Z;
  tv_capability_requirements : pyval;
  tv_adapter_id : string;
  tv_adapter_version : string;
  tv_image_digest : string;
  tv_checkpointable : bool;
  tv_restart_safe : bool;
  tv_parameter_schema : pyval;
  tv_resource_bounds : pyval;
}.
#[export] Instance eta_TemplateRow : Eta TemplateRow := λ r, MkTemplateRow (tv_template_id r)
  (tv_version r) (tv_capability_requirements r) (tv_adapter_id r) (tv_adapter_version r)
  (tv_image_digest r) (tv_checkpointable r) (tv_restart_safe r) (tv_parameter_schema r)
  (tv_resource_bounds r).

(** A row of [templates]: the family of a template's versions. *)
Record TemplateFamilyRow := MkTemplateFamilyRow {
  tf_template_id : string;
  tf_enabled : bool;
}.
#[export] Instance eta_TemplateFamilyRow : Eta TemplateFamilyRow := λ r, MkTemplateFamilyRow (tf_template_id r)
  (tf_enabled r).

(** A row of [queue_eligibility_events]: what a tenant's jobs could run on before and
    after a mutation.  The state documents are written by the database's triggers
    with these keys; an inventory is a document or null. *)
Record EligibilityState := {
  es_rebuild_current_state : bool;
  es_enabled : option bool;
  es_cpu : Z;
  es_memory : Z;
  es_inventory : option (list (string * pyval));
}.
Record EligibilityEventRow := MkEligibilityEventRow {
  qe_event_id : Z;
  qe_tenant_id : string;
  qe_occurred_at : Z;
  qe_old_state : EligibilityState;
  qe_new_state : EligibilityState;
  qe_last_job_id : option string;
  qe_last_processed_at : option Z;
  qe_completed_at : option Z;
}.
#[export] Instance eta_EligibilityEventRow : Eta EligibilityEventRow := λ r, MkEligibilityEventRow (qe_event_id r)
  (qe_tenant_id r) (qe_occurred_at r) (qe_old_state r) (qe_new_state r) (qe_last_job_id r) (qe_last_processed_at r)
  (qe_completed_at r).

(** A row of [attempts]. *)
Record AttemptRow := MkAttemptRow {
  at_attempt_id : string;
  at_tenant_id : string;
  at_job_id : string;
  at_attempt_number : Z;
  at_state : AttemptState;
  at_execution_intent : string;
  at_worker_id : string;
  at_worker_incarnation_id : option string;
  at_job_fence : Z;
  at_startup_nonce : string;
  at_dispatch_coordinator_epoch : Z;
  at_failure_class : option string;
  at_failure_reason : option string;
  at_progress_sequence : Z;
  at_progress_snapshot : pyval;
  at_execution_context : pyval;
  at_executor_operation_sequence : option Z;
  at_created_at : Z;
  at_claimed_at : option Z;
  at_started_at : option Z;
  at_ended_at : option Z;
}.
#[export] Instance eta_AttemptRow : Eta AttemptRow := λ r, MkAttemptRow (at_attempt_id r)
  (at_tenant_id r) (at_job_id r) (at_attempt_number r) (at_state r) (at_execution_intent r)
  (at_worker_id r) (at_worker_incarnation_id r) (at_job_fence r) (at_startup_nonce r)
  (at_dispatch_coordinator_epoch r) (at_failure_class r) (at_failure_reason r)
  (at_progress_sequence r) (at_progress_snapshot r) (at_execution_context r)
  (at_executor_operation_sequence r) (at_created_at r) (at_claimed_at r) (at_started_at r)
  (at_ended_at r).

(** A row of [allocations]. *)
Record AllocationRow := MkAllocationRow {
  al_allocation_id : string;
  al_tenant_id : string;
  al_job_id : string;
  al_attempt_id : string;
  al_worker_id : string;
  al_cpu_millis : Z;
  al_memory_bytes : Z;
  al_gpu_count : Z;
  al_state : AllocState;
  al_held_at : Z;
  al_quarantined_at : option Z;
  al_released_at : option Z;
  al_release_reason : option string;
  al_reconciliation_sequence : Z;
}.
#[export] Instance eta_AllocationRow : Eta AllocationRow := λ r, MkAllocationRow (al_allocation_id
  r) (al_tenant_id r) (al_job_id r) (al_attempt_id r) (al_worker_id r) (al_cpu_millis r)
  (al_memory_bytes r) (al_gpu_count r) (al_state r) (al_held_at r) (al_quarantined_at r)
  (al_released_at r) (al_release_reason r) (al_reconciliation_sequence r).

(** A row of [allocation_gpu_claims]. *)
Record GpuClaimRow := MkGpuClaimRow {
  gc_allocation_id : string;
  gc_gpu_uuid : string;
  gc_released_at : option Z;
}.
#[export] Instance eta_GpuClaimRow : Eta GpuClaimRow := λ r, MkGpuClaimRow (gc_allocation_id r)
  (gc_gpu_uuid r) (gc_released_at r).

(** A row of [attempt_leases]. *)
Record LeaseRow := MkLeaseRow {
  le_lease_id : string;
  le_tenant_id : string;
  le_job_id : string;
  le_attempt_id : string;
  le_allocation_id : string;
  le_worker_id : string;
  le_current_worker_incarnation_id : option string;
  le_job_fence : Z;
  le_issued_at : Z;
  le_expires_at : Z;
  le_revoked_at : option Z;
  le_revoke_reason : option string;
}.
#[export] Instance eta_LeaseRow : Eta LeaseRow := λ r, MkLeaseRow (le_lease_id r) (le_tenant_id r)
  (le_job_id r) (le_attempt_id r) (le_allocation_id r) (le_worker_id r)
  (le_current_worker_incarnation_id r) (le_job_fence r) (le_issued_at r) (le_expires_at r)
  (le_revoked_at r) (le_revoke_reason r).

(** A row of [attempt_authority_grants]. *)
Record GrantRow := MkGrantRow {
  gr_grant_id : string;
  gr_tenant_id : string;
  gr_job_id : string;
  gr_attempt_id : string;
  gr_allocation_id : string;
  gr_lease_id : string;
  gr_worker_id : string;
  gr_worker_incarnation_id : option string;
  gr_job_fence : Z;
  gr_predecessor_grant_id : option string;
  gr_callback_id : string;
  gr_granted_at : Z;
  gr_ended_at : option Z;
}.
#[export] Instance eta_GrantRow : Eta GrantRow := λ r, MkGrantRow (gr_grant_id r) (gr_tenant_id r)
  (gr_job_id r) (gr_attempt_id r) (gr_allocation_id r) (gr_lease_id r) (gr_worker_id r)
  (gr_worker_incarnation_id r) (gr_job_fence r) (gr_predecessor_grant_id r) (gr_callback_id r)
  (gr_granted_at r) (gr_ended_at r).

(** A row of [container_identities]. *)
Record ContainerRow := MkContainerRow {
  ci_tenant_id : string;
  ci_job_id : string;
  ci_attempt_id : string;
  ci_allocation_id : string;
  ci_startup_nonce : string;
  ci_executor_create_sequence : Z;
  ci_container_id : string;
  ci_runtime_identity_digest : string;
  ci_created_at : Z;
  ci_stopped_at : option Z;
  ci_verified_at : option Z;
}.
#[export] Instance eta_ContainerRow : Eta ContainerRow := λ r, MkContainerRow (ci_tenant_id r)
  (ci_job_id r) (ci_attempt_id r) (ci_allocation_id r) (ci_startup_nonce r)
  (ci_executor_create_sequence r) (ci_container_id r) (ci_runtime_identity_digest r)
  (ci_created_at r) (ci_stopped_at r) (ci_verified_at r).

(** A row of [admission_counters]. *)
Record CounterRow := MkCounterRow {
  ac_scope_type : string;
  ac_scope_id : string;
  ac_outstanding : Z;
  ac_active_attempts : Z;
  ac_version : Z;
  ac_eligible_resumed_at : option Z;
}.
#[export] Instance eta_CounterRow : Eta CounterRow := λ r, MkCounterRow (ac_scope_type r)
  (ac_scope_id r) (ac_outstanding r) (ac_active_attempts r) (ac_version r)
  (ac_eligible_resumed_at r).

(** A row of [reservations]. *)
Record ReservationRow := MkReservationRow {
  rv_reservation_id : string;
  rv_tenant_id : string;
  rv_job_id : string;
  rv_eligibility_since : Z;
  rv_policy_version : Z;
  rv_created_at : Z;
  rv_invalidated_at : option Z;
  rv_invalidation_reason : option string;
}.
#[export] Instance eta_ReservationRow : Eta ReservationRow := λ r, MkReservationRow
  (rv_reservation_id r) (rv_tenant_id r) (rv_job_id r) (rv_eligibility_since r) (rv_policy_version
  r) (rv_created_at r) (rv_invalidated_at r) (rv_invalidation_reason r).

(** A row of [retry_schedules]. *)
Record ScheduleRow := MkScheduleRow {
  rt_job_id : string;
  rt_tenant_id : string;
  rt_retry_number : Z;
  rt_ready_at : Z;
  rt_jitter_milliseconds : Z;
  rt_reason : string;
  rt_closed_at : option Z;
}.
#[export] Instance eta_ScheduleRow : Eta ScheduleRow := λ r, MkScheduleRow (rt_job_id r)
  (rt_tenant_id r) (rt_retry_number r) (rt_ready_at r) (rt_jitter_milliseconds r) (rt_reason r)
  (rt_closed_at r).

(** A row of [events]. *)
Record EventRow := MkEventRow {
  ev_event_id : string;
  ev_tenant_id : string;
  ev_job_id : string;
  ev_sequence : Z;
  ev_event_type : string;
  ev_reason : option string;
  ev_actor_type : string;
  ev_actor_id : string;
}.
#[export] Instance eta_EventRow : Eta EventRow := λ r, MkEventRow (ev_event_id r) (ev_tenant_id r)
  (ev_job_id r) (ev_sequence r) (ev_event_type r) (ev_reason r) (ev_actor_type r) (ev_actor_id r).

(** A row of [audit_records]. *)
Record AuditRow := MkAuditRow {
  au_audit_id : string;
  au_actor_type : string;
  au_actor_id : string;
  au_tenant_id : option string;
  au_action : string;
  au_target_type : string;
  au_target_id : string;
  au_before_version : option Z;
  au_after_version : option Z;
  au_reason : option string;
}.
#[export] Instance eta_AuditRow : Eta AuditRow := λ r, MkAuditRow (au_audit_id r) (au_actor_type
  r) (au_actor_id r) (au_tenant_id r) (au_action r) (au_target_type r) (au_target_id r)
  (au_before_version r) (au_after_version r) (au_reason r).

(** A row of [allocation_ledger_segments]. *)
Record SegmentRow := MkSegmentRow {
  sg_segment_id : string;
  sg_allocation_id : string;
  sg_tenant_id : string;
  sg_started_at : Z;
  sg_ended_at : option Z;
  sg_dominant_share : decimal;
  sg_weight : decimal;
  sg_charged_amount : decimal;
  sg_policy_version : Z;
}.
#[export] Instance eta_SegmentRow : Eta SegmentRow := λ r, MkSegmentRow (sg_segment_id r)
  (sg_allocation_id r) (sg_tenant_id r) (sg_started_at r) (sg_ended_at r) (sg_dominant_share r)
  (sg_weight r) (sg_charged_amount r) (sg_policy_version r).

(** A row of [fairness_ledgers]. *)
Record LedgerRow := MkLedgerRow {
  fl_tenant_id : string;
  fl_virtual_score : decimal;
  fl_accounted_through : Z;
  fl_had_eligible_demand : bool;
  fl_version : Z;
}.
#[export] Instance eta_LedgerRow : Eta LedgerRow := λ r, MkLedgerRow (fl_tenant_id r)
  (fl_virtual_score r) (fl_accounted_through r) (fl_had_eligible_demand r) (fl_version r).

(** The row of [fairness_state]. *)
Record FairnessRow := MkFairnessRow {
  fs_singleton_key : string;
  fs_virtual_floor : decimal;
}.
#[export] Instance eta_FairnessRow : Eta FairnessRow := λ r, MkFairnessRow (fs_singleton_key r)
  (fs_virtual_floor r).

(** A row of [tenant_policies]. *)
Record TenantPolicyRow := MkTenantPolicyRow {
  tq_tenant_id : string;
  tq_version : Z;
  tq_weight : decimal;
  tq_cpu_limit_millis : Z;
  tq_memory_limit_bytes : Z;
  tq_gpu_limit : Z;
  tq_is_current : bool;
  tq_outstanding_limit : Z;
  tq_user_outstanding_limit : Z;
  tq_tenant_active_limit : Z;
  tq_user_active_limit : Z;
  tq_tenant_rate_per_second : decimal;
  tq_tenant_rate_burst : decimal;
  tq_user_rate_per_second : decimal;
  tq_user_rate_burst : decimal;
}.
#[export] Instance eta_TenantPolicyRow : Eta TenantPolicyRow := λ r, MkTenantPolicyRow
  (tq_tenant_id r) (tq_version r) (tq_weight r) (tq_cpu_limit_millis r) (tq_memory_limit_bytes r)
  (tq_gpu_limit r) (tq_is_current r) (tq_outstanding_limit r) (tq_user_outstanding_limit r)
  (tq_tenant_active_limit r) (tq_user_active_limit r) (tq_tenant_rate_per_second r)
  (tq_tenant_rate_burst r) (tq_user_rate_per_second r) (tq_user_rate_burst r).

(** A row of [policy_versions]. *)
Record PolicyRow := MkPolicyRow {
  pv_policy_version : Z;
  pv_operational_mode : OperationalMode;
  pv_is_current : bool;
  pv_global_outstanding_limit : Z;
}.
#[export] Instance eta_PolicyRow : Eta PolicyRow := λ r, MkPolicyRow (pv_policy_version r)
  (pv_operational_mode r) (pv_is_current r) (pv_global_outstanding_limit r).

(** A row of [workers]. *)
Record WorkerRow := MkWorkerRow {
  wk_worker_id : string;
  wk_admin_state : string;
  wk_health : string;
  wk_current_incarnation_id : option string;
  wk_current_inventory_version : option Z;
  wk_last_heartbeat_at : option Z;
  wk_ready_at : option Z;
  wk_version : Z;
}.
#[export] Instance eta_WorkerRow : Eta WorkerRow := λ r, MkWorkerRow (wk_worker_id r)
  (wk_admin_state r) (wk_health r) (wk_current_incarnation_id r) (wk_current_inventory_version r)
  (wk_last_heartbeat_at r) (wk_ready_at r) (wk_version r).

(** A row of [worker_credentials]. *)
Record CredentialRow := MkCredentialRow {
  wc_credential_id : string;
  wc_worker_id : string;
  wc_credential_hash : string;
  wc_scopes : list string;
  wc_expires_at : Z;
  wc_revoked_at : option Z;
}.
#[export] Instance eta_CredentialRow : Eta CredentialRow := λ r, MkCredentialRow (wc_credential_id
  r) (wc_worker_id r) (wc_credential_hash r) (wc_scopes r) (wc_expires_at r) (wc_revoked_at r).

(** A row of [worker_incarnations]. *)
Record IncarnationRow := MkIncarnationRow {
  wi_worker_incarnation_id : string;
  wi_worker_id : string;
  wi_sequence : Z;
  wi_reconcile_completed_at : option Z;
  wi_ended_at : option Z;
  wi_process_start_nonce : string;
  wi_process_started_at : Z;
  wi_ready_at : option Z;
  wi_reconciliation_snapshot : option string;
  wi_reconciliation_after : option string;
  wi_reconciliation_drained : bool;
  wi_ready_checked_at : option Z;
}.
#[export] Instance eta_IncarnationRow : Eta IncarnationRow := λ r, MkIncarnationRow
  (wi_worker_incarnation_id r) (wi_worker_id r) (wi_sequence r) (wi_reconcile_completed_at r)
  (wi_ended_at r) (wi_process_start_nonce r) (wi_process_started_at r) (wi_ready_at r)
  (wi_reconciliation_snapshot r) (wi_reconciliation_after r) (wi_reconciliation_drained r)
  (wi_ready_checked_at r).

(** A row of [worker_inventories]. *)
Record InventoryRow := MkInventoryRow {
  in_inventory_id : string;
  in_worker_id : string;
  in_worker_incarnation_id : string;
  in_inventory_version : Z;
  in_architecture : string;
  in_allocatable_cpu_millis : Z;
  in_allocatable_memory_bytes : Z;
  in_allocatable_gpu_count : Z;
  in_workload_capabilities : pyval;
  in_host_cpu_millis : Z;
  in_host_memory_bytes : Z;
  in_runtime_capabilities : pyval;
  in_checksum : string;
}.
#[export] Instance eta_InventoryRow : Eta InventoryRow := λ r, MkInventoryRow (in_inventory_id r)
  (in_worker_id r) (in_worker_incarnation_id r) (in_inventory_version r) (in_architecture r)
  (in_allocatable_cpu_millis r) (in_allocatable_memory_bytes r) (in_allocatable_gpu_count r)
  (in_workload_capabilities r) (in_host_cpu_millis r) (in_host_memory_bytes r)
  (in_runtime_capabilities r) (in_checksum r).

(** A row of [callback_receipts]; the empty acknowledgment is [None]. *)
Record ReceiptRow := MkReceiptRow {
  cr_receipt_id : string;
  cr_worker_id : string;
  cr_operation_id : string;
  cr_callback_id : string;
  cr_payload_hash : string;
  cr_acknowledgment : option Ack;
}.
#[export] Instance eta_ReceiptRow : Eta ReceiptRow := λ r, MkReceiptRow (cr_receipt_id r)
  (cr_worker_id r) (cr_operation_id r) (cr_callback_id r) (cr_payload_hash r) (cr_acknowledgment
  r).

(** A row of [checkpoint_reservations]. *)
Record CheckpointReservationRow := MkCheckpointReservationRow {
  ck_checkpoint_id : string;
  ck_job_id : string;
  ck_attempt_id : string;
  ck_authority_grant_id : string;
  ck_sequence : Z;
  ck_callback_id : string;
  ck_state : string;
  ck_reserved_at : Z;
  ck_ended_at : option Z;
}.
#[export] Instance eta_CheckpointReservationRow : Eta CheckpointReservationRow := λ r,
  MkCheckpointReservationRow (ck_checkpoint_id r) (ck_job_id r) (ck_attempt_id r)
  (ck_authority_grant_id r) (ck_sequence r) (ck_callback_id r) (ck_state r) (ck_reserved_at r)
  (ck_ended_at r).

(** A row of [checkpoints]. *)
Record CheckpointRow := MkCheckpointRow {
  cp_checkpoint_id : string;
  cp_tenant_id : string;
  cp_job_id : string;
  cp_attempt_id : string;
  cp_state : string;
  cp_compatibility : pyval;
  cp_manifest_artifact_id : string;
}.
#[export] Instance eta_CheckpointRow : Eta CheckpointRow := λ r, MkCheckpointRow
  (cp_checkpoint_id r) (cp_tenant_id r) (cp_job_id r) (cp_attempt_id r) (cp_state r)
  (cp_compatibility r) (cp_manifest_artifact_id r).

(** A row of [checkpoint_corruptions]. *)
Record CorruptionRow := MkCorruptionRow {
  cx_checkpoint_id : string;
}.
#[export] Instance eta_CorruptionRow : Eta CorruptionRow := λ r, MkCorruptionRow (cx_checkpoint_id
  r).

(** A row of [checkpoint_references]. *)
Record CheckpointReferenceRow := MkCheckpointReferenceRow {
  cf_source_checkpoint_id : string;
  cf_target_job_id : string;
}.
#[export] Instance eta_CheckpointReferenceRow : Eta CheckpointReferenceRow := λ r,
  MkCheckpointReferenceRow (cf_source_checkpoint_id r) (cf_target_job_id r).

(** A row of [result_reservations]. *)
Record ResultReservationRow := MkResultReservationRow {
  rr_result_id : string;
  rr_tenant_id : string;
  rr_job_id : string;
  rr_attempt_id : string;
  rr_authority_grant_id : string;
  rr_callback_id : string;
  rr_state : string;
  rr_reserved_at : Z;
}.
#[export] Instance eta_ResultReservationRow : Eta ResultReservationRow := λ r,
  MkResultReservationRow (rr_result_id r) (rr_tenant_id r) (rr_job_id r) (rr_attempt_id r)
  (rr_authority_grant_id r) (rr_callback_id r) (rr_state r) (rr_reserved_at r).

(** A row of [gpu_devices]. *)
Record GpuDeviceRow := MkGpuDeviceRow {
  gd_worker_id : string;
  gd_inventory_version : Z;
  gd_inventory_id : string;
  gd_gpu_uuid : string;
  gd_model : string;
  gd_memory_bytes : Z;
  gd_compute_capability : string;
  gd_driver_version : string;
  gd_api_version : string;
  gd_healthy : bool;
}.
#[export] Instance eta_GpuDeviceRow : Eta GpuDeviceRow := λ r, MkGpuDeviceRow (gd_worker_id r)
  (gd_inventory_version r) (gd_inventory_id r) (gd_gpu_uuid r) (gd_model r) (gd_memory_bytes r)
  (gd_compute_capability r) (gd_driver_version r) (gd_api_version r) (gd_healthy r).

(** A row of [results]. *)
Record ResultRow := MkResultRow {
  rs_result_id : string;
  rs_job_id : string;
  rs_attempt_id : string;
  rs_manifest_artifact_id : string;
  rs_completion_callback_id : option string;
}.
#[export] Instance eta_ResultRow : Eta ResultRow := λ r, MkResultRow (rs_result_id r) (rs_job_id r)
  (rs_attempt_id r) (rs_manifest_artifact_id r) (rs_completion_callback_id r).

(** A row of [rate_buckets]. *)
Record RateBucketRow := MkRateBucketRow {
  rb_scope_type : string;
  rb_scope_id : string;
  rb_tokens : decimal;
  rb_capacity : decimal;
  rb_refill_rate : decimal;
  rb_last_refill_at : Z;
  rb_version : Z;
}.
#[export] Instance eta_RateBucketRow : Eta RateBucketRow := λ r, MkRateBucketRow (rb_scope_type r)
  (rb_scope_id r) (rb_tokens r) (rb_capacity r) (rb_refill_rate r) (rb_last_refill_at r)
  (rb_version r).

(** A row of [artifacts]. *)
Record Artifact := MkArtifact {
  a_artifact_id : string;
  a_tenant_id : string;
  a_state : string;
  a_kind : string;
  a_media_type : string;
  a_size_bytes : Z;
  a_checksum : string;
  a_blob_key : string;
}.
#[export] Instance eta_Artifact : Eta Artifact := λ r, MkArtifact (a_artifact_id r) (a_tenant_id r)
  (a_state r) (a_kind r) (a_media_type r) (a_size_bytes r) (a_checksum r) (a_blob_key r).

(** A row of [artifact_references]. *)
Record ArtifactReferenceRow := MkArtifactReferenceRow {
  af_tenant_id : string;
  af_artifact_id : string;
  af_owner_type : string;
  af_owner_id : string;
  af_purpose : string;
  af_logical_name : string;
}.
#[export] Instance eta_ArtifactReferenceRow : Eta ArtifactReferenceRow := λ r, MkArtifactReferenceRow
  (af_tenant_id r) (af_artifact_id r) (af_owner_type r) (af_owner_id r) (af_purpose r)
  (af_logical_name r).

(** A row of [artifact_storage_counters]. *)
Record StorageCounterRow := MkStorageCounterRow {
  sc_tenant_id : string;
  sc_committed_bytes : Z;
  sc_reserved_bytes : Z;
}.
#[export] Instance eta_StorageCounterRow : Eta StorageCounterRow := λ r, MkStorageCounterRow
  (sc_tenant_id r) (sc_committed_bytes r) (sc_reserved_bytes r).

(** A row of [users]. *)
Record UserRow := MkUserRow {
  us_user_id : string;
  us_username : string;
  us_display_name : string;
  us_password_hash : string;
  us_enabled : bool;
  us_version : Z;
}.
#[export] Instance eta_UserRow : Eta UserRow := λ r, MkUserRow (us_user_id r) (us_username r)
  (us_display_name r) (us_password_hash r) (us_enabled r) (us_version r).

(** A row of [tenants]. *)
Record TenantRow := MkTenantRow {
  tn_tenant_id : string;
  tn_slug : string;
  tn_display_name : string;
  tn_enabled : bool;
  tn_version : Z;
}.
#[export] Instance eta_TenantRow : Eta TenantRow := λ r, MkTenantRow (tn_tenant_id r) (tn_slug r)
  (tn_display_name r) (tn_enabled r) (tn_version r).

(** A row of [memberships]. *)
Record MembershipRow := MkMembershipRow {
  mb_tenant_id : string;
  mb_user_id : string;
  mb_role : string;
}.
#[export] Instance eta_MembershipRow : Eta MembershipRow := λ r, MkMembershipRow (mb_tenant_id r)
  (mb_user_id r) (mb_role r).

(** A row of [system_role_grants]. *)
Record RoleGrantRow := MkRoleGrantRow {
  rg_user_id : string;
  rg_role : string;
  rg_version : Z;
  rg_granted_by_user_id : option string;
  rg_granted_at : Z;
  rg_revoked_at : option Z;
}.
#[export] Instance eta_RoleGrantRow : Eta RoleGrantRow := λ r, MkRoleGrantRow (rg_user_id r)
  (rg_role r) (rg_version r) (rg_granted_by_user_id r) (rg_granted_at r) (rg_revoked_at r).

(** A row of [browser_sessions]. *)
Record BrowserSessionRow := MkBrowserSessionRow {
  bs_browser_session_id : string;
  bs_user_id : string;
  bs_secret_hash : string;
  bs_csrf_secret_hash : string;
  bs_expires_at : Z;
  bs_revoked_at : option Z;
  bs_last_seen_at : Z;
}.
#[export] Instance eta_BrowserSessionRow : Eta BrowserSessionRow := λ r, MkBrowserSessionRow
  (bs_browser_session_id r) (bs_user_id r) (bs_secret_hash r) (bs_csrf_secret_hash r)
  (bs_expires_at r) (bs_revoked_at r) (bs_last_seen_at r).

(** A row of [cli_tokens]. *)
Record CliTokenRow := MkCliTokenRow {
  tk_token_id : string;
  tk_user_id : string;
  tk_token_hash : string;
  tk_name : string;
  tk_scopes : list string;
  tk_expires_at : Z;
  tk_revoked_at : option Z;
}.
#[export] Instance eta_CliTokenRow : Eta CliTokenRow := λ r, MkCliTokenRow (tk_token_id r)
  (tk_user_id r) (tk_token_hash r) (tk_name r) (tk_scopes r) (tk_expires_at r) (tk_revoked_at r).

(** The bodies stored for replay, one constructor per shape of response: a view
    holds the row it is rendered from. *)
Inductive ResponseBody :=
| JobView (row : JobRow) (canonical_spec : pyval) (spec_checksum session_id : string)
| TokenView (row : CliTokenRow)
| WorkerView (row : WorkerRow)
| IncarnationView (worker_id worker_incarnation_id : string) (sequence : Z) (process_start_nonce : string)
    (created_at : Z)
| GlobalPolicyView (row : PolicyRow)
| TenantPolicyView (row : TenantPolicyRow).

(** A row of [idempotency_records]. *)
Record IdempotencyRow := MkIdempotencyRow {
  id_idempotency_id : string;
  id_context : string;
  id_principal_id : string;
  id_operation_id : string;
  id_idempotency_key : string;
  id_request_hash : string;
  id_state : string;
  id_response_status : option Z;
  id_response_body : option ResponseBody;
  id_response_headers : option (list (string * string));
  id_resource_id : option string;
  id_one_time_secret : bool;
  id_expires_at : Z;
}.
#[export] Instance eta_IdempotencyRow : Eta IdempotencyRow := λ r, MkIdempotencyRow
  (id_idempotency_id r) (id_context r) (id_principal_id r) (id_operation_id r) (id_idempotency_key
  r) (id_request_hash r) (id_state r) (id_response_status r) (id_response_body r)
  (id_response_headers r) (id_resource_id r) (id_one_time_secret r) (id_expires_at r).

(** A row of [queue_heads]: a tenant has a queued job at this priority. *)
Record QueueHeadRow := MkQueueHeadRow {
  qh_tenant_id : string;
  qh_priority : Z;
}.
#[export] Instance eta_QueueHeadRow : Eta QueueHeadRow := λ r, MkQueueHeadRow
  (qh_tenant_id r) (qh_priority r).

(** A row of [queue_submitters]. *)
Record QueueSubmitterRow := MkQueueSubmitterRow {
  qu_tenant_id : string;
  qu_user_id : string;
}.
#[export] Instance eta_QueueSubmitterRow : Eta QueueSubmitterRow := λ r, MkQueueSubmitterRow
  (qu_tenant_id r) (qu_user_id r).

(** A row of [quota_headroom_steps]. *)
Record HeadroomStepRow := MkHeadroomStepRow {
  qt_tenant_id : string;
  qt_resource : string;
  qt_upper_bound : Z;
  qt_resumed_at : option Z;
}.
#[export] Instance eta_HeadroomStepRow : Eta HeadroomStepRow := λ r, MkHeadroomStepRow
  (qt_tenant_id r) (qt_resource r) (qt_upper_bound r) (qt_resumed_at r).

(** A row of [queue_request_sizes]. *)
Record RequestSizeRow := MkRequestSizeRow {
  qz_tenant_id : string;
  qz_cpu_millis : Z;
  qz_memory_bytes : Z;
}.
#[export] Instance eta_RequestSizeRow : Eta RequestSizeRow := λ r, MkRequestSizeRow
  (qz_tenant_id r) (qz_cpu_millis r) (qz_memory_bytes r).

(** A row of [sweep_parents]. *)
Record SweepParentRow := MkSweepParentRow {
  sw_sweep_id : string;
  sw_tenant_id : string;
  sw_submitter_user_id : string;
  sw_base_spec_checksum : string;
  sw_idempotency_context : string;
  sw_child_count : Z;
  sw_accepted_count : Z;
  sw_rejected_count : Z;
  sw_request_hash : string;
  sw_base_spec : pyval;
  sw_expansion : list pyval;
}.
#[export] Instance eta_SweepParentRow : Eta SweepParentRow := λ r, MkSweepParentRow
  (sw_sweep_id r) (sw_tenant_id r) (sw_submitter_user_id r) (sw_base_spec_checksum r) (sw_idempotency_context r) (sw_child_count r) (sw_accepted_count r) (sw_rejected_count r) (sw_request_hash r) (sw_base_spec r) (sw_expansion r).

(** A row of [sweep_children]. *)
Record SweepChildRow := MkSweepChildRow {
  sx_sweep_id : string;
  sx_tenant_id : string;
  sx_child_index : Z;
  sx_parameter_hash : string;
  sx_job_id : option string;
  sx_rejected_error : option pyval;
}.
#[export] Instance eta_SweepChildRow : Eta SweepChildRow := λ r, MkSweepChildRow
  (sx_sweep_id r) (sx_tenant_id r) (sx_child_index r) (sx_parameter_hash r) (sx_job_id r) (sx_rejected_error r).

(** The tables, by name. *)
Inductive table :=
| T_jobs
| T_job_specs
| T_logical_sessions
| T_templates
| T_template_versions
| T_queue_eligibility_events
| T_attempts
| T_allocations
| T_allocation_gpu_claims
| T_attempt_leases
| T_attempt_authority_grants
| T_container_identities
| T_admission_counters
| T_reservations
| T_retry_schedules
| T_events
| T_audit_records
| T_allocation_ledger_segments
| T_fairness_ledgers
| T_fairness_state
| T_tenant_policies
| T_policy_versions
| T_workers
| T_worker_credentials
| T_worker_incarnations
| T_worker_inventories
| T_callback_receipts
| T_checkpoint_reservations
| T_checkpoints
| T_checkpoint_corruptions
| T_checkpoint_references
| T_result_reservations
| T_idempotency_records
| T_users
| T_tenants
| T_memberships
| T_system_role_grants
| T_browser_sessions
| T_cli_tokens
| T_gpu_devices
| T_results
| T_rate_buckets
| T_artifacts
| T_artifact_references
| T_artifact_storage_counters
| T_coordinator_leadership
| T_queue_heads
| T_queue_submitters
| T_quota_headroom_steps
| T_queue_request_sizes
| T_sweep_parents
| T_sweep_children.

Definition row (t : table) : Type :=
  match t with
  | T_jobs => JobRow
  | T_job_specs => SpecRow
  | T_logical_sessions => SessionRow
  | T_templates => TemplateFamilyRow
  | T_template_versions => TemplateRow
  | T_queue_eligibility_events => EligibilityEventRow
  | T_attempts => AttemptRow
  | T_allocations => AllocationRow
  | T_allocation_gpu_claims => GpuClaimRow
  | T_attempt_leases => LeaseRow
  | T_attempt_authority_grants => GrantRow
  | T_container_identities => ContainerRow
  | T_admission_counters => CounterRow
  | T_reservations => ReservationRow
  | T_retry_schedules => ScheduleRow
  | T_events => EventRow
  | T_audit_records => AuditRow
  | T_allocation_ledger_segments => SegmentRow
  | T_fairness_ledgers => LedgerRow
  | T_fairness_state => FairnessRow
  | T_tenant_policies => TenantPolicyRow
  | T_policy_versions => PolicyRow
  | T_workers => WorkerRow
  | T_worker_credentials => CredentialRow
  | T_worker_incarnations => IncarnationRow
  | T_worker_inventories => InventoryRow
  | T_callback_receipts => ReceiptRow
  | T_checkpoint_reservations => CheckpointReservationRow
  | T_checkpoints => CheckpointRow
  | T_checkpoint_corruptions => CorruptionRow
  | T_checkpoint_references => CheckpointReferenceRow
  | T_result_reservations => ResultReservationRow
  | T_idempotency_records => IdempotencyRow
  | T_users => UserRow
  | T_tenants => TenantRow
  | T_memberships => MembershipRow
  | T_system_role_grants => RoleGrantRow
  | T_browser_sessions => BrowserSessionRow
  | T_cli_tokens => CliTokenRow
  | T_gpu_devices => GpuDeviceRow
  | T_results => ResultRow
  | T_rate_buckets => RateBucketRow
  | T_artifacts => Artifact
  | T_artifact_references => ArtifactReferenceRow
  | T_artifact_storage_counters => StorageCounterRow
  | T_coordinator_leadership => LeaderRow
  | T_queue_heads => QueueHeadRow
  | T_queue_submitters => QueueSubmitterRow
  | T_quota_headroom_steps => HeadroomStepRow
  | T_queue_request_sizes => RequestSizeRow
  | T_sweep_parents => SweepParentRow
  | T_sweep_children => SweepChildRow
  end.

Definition table_dec (t t' : table) : {t = t'} + {t ≠ t'}.
Proof. decide equality. Defined.

#[export] Instance table_eq_dec : EqDecision table := table_dec.

Record DB := {
  rows : ∀ t : table, list (row t);
  new_ids : nat → string;
  ids_drawn : nat;
}.

Definition set_rows (t : table) (l : list (row t)) (db : DB) : DB := {|
  rows := λ t', match table_dec t t' with
                | left e => match e in _ = t' return list (row t') with eq_refl => l end
                | right _ => rows db t'
                end;
  new_ids := new_ids db;
  ids_drawn := ids_drawn db;
|}.

(** ** Statements *)

(** What the services raise: an [ApplicationError] with its code, status and
    message, or another exception.  [retry_after] is carried only where it is
    computed; elsewhere it is absent or the constant 1. *)
Inductive SvcError :=
| ApplicationError (code : string) (status : Z) (message : string)
| ApplicationErrorAfter (code : string) (status : Z) (message : string) (retry_after : Z)
| PyError (e : exn).

Definition RuntimeError (message : string) : SvcError := PyError (Exn "RuntimeError" message).
Definition TypeError : SvcError := PyError (Exn "TypeError" "'NoneType' object is not subscriptable").
Definition NoResultFound : SvcError := PyError (Exn "NoResultFound" "").
Definition MultipleResultsFound : SvcError := PyError (Exn "MultipleResultsFound" "").

Definition Tx (A : Type) : Type := SE DB SvcError A.

(** [select(t).where(p)], in insertion order. *)
Definition select (t : table) (p : row t → bool) : Tx (list (row t)) :=
  λ db, (Ret (List.filter p (rows db t)), db).

(** [result.one()], [result.one_or_none()] and [result.first()]. *)
Definition one {A} (l : list A) : Tx A :=
  match l with
  | [a] => mret a
  | [] => se_raise NoResultFound
  | _ => se_raise MultipleResultsFound
  end.
Definition one_or_none {A} (l : list A) : Tx (option A) :=
  match l with
  | [] => mret None
  | [a] => mret (Some a)
  | _ => se_raise MultipleResultsFound
  end.

(** [insert(t).values(r)]. *)
Definition put (t : table) (r : row t) (db : DB) : DB := set_rows t (rows db t ++ [r]) db.
Definition insert (t : table) (r : row t) : Tx () := λ db, (Ret (), put t r db).

(** [update(t).where(p).values(f)], returning [rowcount]. *)
Definition modify (t : table) (p : row t → bool) (f : row t → row t) (db : DB) : DB :=
  set_rows t ((λ r, if p r then f r else r) <$> rows db t) db.
Definition update (t : table) (p : row t → bool) (f : row t → row t) : Tx Z := λ db,
  (Ret (Z.of_nat (length (List.filter p (rows db t)))), modify t p f db).

(** [update] whose [rowcount] is not looked at. *)
Definition update_ (t : table) (p : row t → bool) (f : row t → row t) : Tx () :=
  _ ← update t p f; mret ().

Definition draw (db : DB) : DB :=
  {| rows := rows db; new_ids := new_ids db; ids_drawn := S (ids_drawn db) |}.
Definition new_uuid7 : Tx string := λ db, (Ret (new_ids db (ids_drawn db)), draw db).

Fixpoint for_rows {A} (l : list A) (body : A → Tx ()) : Tx () :=
  match l with
  | [] => mret ()
  | a :: l => _ ← body a; for_rows l body
  end.

Definition is_none {A} (o : option A) : bool := match o with None => true | Some _ => false end.

(** [timedelta(seconds=n)]. *)
Definition seconds (n : Z) : Z := n * 1000000.

(** ** Running transaction bodies *)

Lemma set_rows_same t l db : rows (set_rows t l db) t = l.
Proof.
  simpl. destruct (table_dec t t) as [e|n]; [|done].
  by rewrite (Eqdep_dec.UIP_dec table_dec e eq_refl).
Qed.

Lemma set_rows_other t l db t' : t ≠ t' → rows (set_rows t l db) t' = rows db t'.
Proof. intros. simpl. by destruct (table_dec t t'). Qed.

Lemma put_same t r db : rows (put t r db) t = rows db t ++ [r].
Proof. apply set_rows_same. Qed.
Lemma put_other t r db t' : t ≠ t' → rows (put t r db) t' = rows db t'.
Proof. apply set_rows_other. Qed.
Lemma modify_same t p f db : rows (modify t p f db) t = (λ r, if p r then f r else r) <$> rows db t.
Proof. apply set_rows_same. Qed.
Lemma modify_other t p f db t' : t ≠ t' → rows (modify t p f db) t' = rows db t'.
Proof. apply set_rows_other. Qed.

(** [m] leaves every table outside [ts] as it was, and only draws identifiers. *)
Definition only_writes (ts : list table) {A} (m : Tx A) : Prop :=
  ∀ db r db', m db = (r, db') →
    (∀ t, t ∉ ts → rows db' t = rows db t) ∧
    new_ids db' = new_ids db ∧ (ids_drawn db ≤ ids_drawn db')%nat.

Lemma only_writes_bind ts {A B} (m : Tx A) (f : A → Tx B) :
  only_writes ts m → (∀ a, only_writes ts (f a)) → only_writes ts (m ≫= f).
Proof.
  intros Hm Hf db r db' H. apply se_bind_inv in H as [(a & db1 & H1 & H2)|(e & H1 & ->)].
  - destruct (Hm _ _ _ H1) as (Hr1 & Hn1 & Hi1), (Hf a _ _ _ H2) as (Hr2 & Hn2 & Hi2).
    split_and!; [|congruence|lia]. intros t Ht. by rewrite Hr2, Hr1.
  - by apply (Hm db (Raise e) db' H1).
Qed.

Lemma only_writes_pure ts {A} (m : Tx A) : (∀ db, (m db).2 = db) → only_writes ts m.
Proof. intros Hm db r db' H. specialize (Hm db). rewrite H in Hm. simpl in Hm. subst. auto. Qed.

Lemma only_writes_ret ts {A} (a : A) : only_writes ts (mret a : Tx A).
Proof. by apply only_writes_pure. Qed.
Lemma only_writes_raise ts {A} e : only_writes ts (se_raise e : Tx A).
Proof. by apply only_writes_pure. Qed.
Lemma only_writes_when ts b e : only_writes ts (se_when b e : Tx ()).
Proof. by apply only_writes_pure. Qed.
Lemma only_writes_select ts t p : only_writes ts (select t p).
Proof. by apply only_writes_pure. Qed.
Lemma only_writes_one ts {A} (l : list A) : only_writes ts (one l).
Proof. apply only_writes_pure. by destruct l as [|? [|]]. Qed.
Lemma only_writes_one_or_none ts {A} (l : list A) : only_writes ts (one_or_none l).
Proof. apply only_writes_pure. by destruct l as [|? [|]]. Qed.
Lemma only_writes_uuid ts : only_writes ts new_uuid7.
Proof. intros db r db' [= <- <-]. split_and!; [done..|simpl; lia]. Qed.
Lemma only_writes_insert ts t r : t ∈ ts → only_writes ts (insert t r).
Proof.
  intros Ht db o db' [= <- <-]. split_and!; [|done..]. intros t' Ht'. apply set_rows_other. by intros ->.
Qed.
Lemma only_writes_update ts t p f : t ∈ ts → only_writes ts (update t p f).
Proof.
  intros Ht db o db' [= <- <-]. split_and!; [|done..]. intros t' Ht'. apply set_rows_other. by intros ->.
Qed.
Lemma only_writes_update_ ts t p f : t ∈ ts → only_writes ts (update_ t p f).
Proof.
  intros Ht. apply only_writes_bind; [by apply only_writes_update|intros _; apply only_writes_ret].
Qed.
Lemma only_writes_for ts {A} (l : list A) body :
  (∀ a, a ∈ l → only_writes ts (body a)) → only_writes ts (for_rows l body).
Proof.
  induction l as [|a l IH]; intros Hb; simpl; [apply only_writes_ret|].
  apply only_writes_bind; [apply Hb; set_solver|]. intros _. apply IH. set_solver.
Qed.
Lemma only_writes_if ts {A} (b : bool) (m n : Tx A) :
  only_writes ts m → only_writes ts n → only_writes ts (if b then m else n).
Proof. by destruct b. Qed.
Lemma only_writes_weaken ts ts' {A} (m : Tx A) : ts ⊆ ts' → only_writes ts m → only_writes ts' m.
Proof. intros Hs Hm db r db' H. destruct (Hm _ _ _ H) as [Hr ?]. split; [|done]. intros t Ht. apply Hr. set_solver. Qed.

(** ** Symbolic execution of transaction bodies that return *)

Lemma tx_bind_Ret {A B} (m : Tx A) (f : A → Tx B) db b db' :
  (m ≫= f) db = (Ret b, db') ↔ ∃ a db1, m db = (Ret a, db1) ∧ f a db1 = (Ret b, db').
Proof.
  split.
  - intros H. apply se_bind_inv in H as [(a & db1 & H1 & H2)|(e & _ & [=])]. eauto.
  - intros (a & db1 & H1 & H2). unfold mbind, se_bind. by rewrite H1.
Qed.

Lemma one_Ret {A} (l : list A) db a db' : one l db = (Ret a, db') → l = [a] ∧ db' = db.
Proof. destruct l as [|x [|]]; intros [= <- <-]; done. Qed.

Lemma one_or_none_Ret {A} (l : list A) db o db' :
  one_or_none l db = (Ret o, db') → (l = [] ∧ o = None ∨ ∃ a, l = [a] ∧ o = Some a) ∧ db' = db.
Proof. destruct l as [|x [|]]; intros [= <- <-]; eauto. Qed.

Lemma tx_mret {A} (a : A) db r db' : (mret a : Tx A) db = (r, db') → r = Ret a ∧ db' = db.
Proof. by intros [= <- <-]. Qed.
Lemma tx_insert t x db r db' :
  insert t x db = (r, db') → r = Ret () ∧ db' = put t x db.
Proof. by intros [= <- <-]. Qed.
Lemma tx_update_ t p f db r db' :
  update_ t p f db = (r, db') →
  r = Ret () ∧ db' = modify t p f db.
Proof. by intros [= <- <-]. Qed.

Lemma tx_when b e db u db' : (se_when b e : Tx ()) db = (Ret u, db') → b = false ∧ db' = db.
Proof. destruct b; [discriminate|]. by intros [= _ <-]. Qed.

Lemma tx_bind_run {A B} (m : Tx A) (k : A → Tx B) db a db1 res :
  m db = (Ret a, db1) → (m ≫= k) db = res → k a db1 = res.
Proof. intros H. unfold mbind, se_bind. by rewrite H. Qed.

Lemma select_run t p db l : List.filter p (rows db t) = l → select t p db = (Ret l, db).
Proof. by intros <-. Qed.
Lemma tx_bind_eq {A B} (m : Tx A) (k : A → Tx B) db a db1 : m db = (Ret a, db1) → (m ≫= k) db = k a db1.
Proof. intros H. unfold mbind, se_bind. by rewrite H. Qed.

(** Runs [H : m db = (Ret _, _)] through the statements of [m] with known effect. *)
Ltac tx_run H a db1 :=
  lazymatch type of H with
  | (?m ≫= ?k) ?db = ?res => apply (tx_bind_run m k db a db1 res eq_refl) in H; cbv beta in H
  end.
Ltac tx_step H :=
  lazymatch type of H with
  | (select ?t ?p ≫= ?k) ?db = _ => tx_run H (List.filter p (rows db t)) db
  | (insert ?t ?x ≫= ?k) ?db = _ => tx_run H tt (put t x db)
  | (update_ ?t ?p ?f ≫= ?k) ?db = _ => tx_run H tt (modify t p f db)
  | (update ?t ?p ?f ≫= ?k) ?db = _ => tx_run H (Z.of_nat (length (List.filter p (rows db t)))) (modify t p f db)
  | (new_uuid7 ≫= ?k) ?db = _ =>
      let i := eval cbn [new_ids ids_drawn draw put modify set_rows] in (new_ids db (ids_drawn db)) in
      tx_run H i (draw db)
  | (mret ?a ≫= ?k) ?db = _ => tx_run H a db
  | (se_when ?b ?e ≫= ?k) ?db = ?res =>
      let Hg := fresh "Hg" in destruct b eqn:Hg; [discriminate H|tx_run H tt db]
  | (one ?l ≫= ?k) ?db = (Ret _, _) =>
      let Hl := fresh "Hl" in let H1 := fresh in
      apply tx_bind_Ret in H as (? & ? & H1 & H); apply one_Ret in H1 as [Hl ->]
  | (one_or_none ?l ≫= ?k) ?db = (Ret _, _) =>
      let Hl := fresh "Hl" in let H1 := fresh in
      apply tx_bind_Ret in H as (? & ? & H1 & H); apply one_or_none_Ret in H1 as [Hl ->]
  | mret ?a ?db = (_, _) =>
      let Hr := fresh in apply tx_mret in H as [Hr ->]; try injection Hr as ->
  | insert ?t ?x ?db = (_, _) =>
      let Hr := fresh in apply tx_insert in H as [Hr ->]; try injection Hr as ->
  | update_ ?t ?p ?f ?db = (_, _) =>
      let Hr := fresh in apply tx_update_ in H as [Hr ->]; try injection Hr as ->
  | se_when ?b ?e ?db = (Ret _, _) => let Hg := fresh "Hg" in apply tx_when in H as [Hg ->]
  | se_raise _ _ = (Ret _, _) => discriminate H
  end.
Ltac tx H := repeat tx_step H.

Lemma elem_of_List_filter {A} (p : A → bool) x l : x ∈ List.filter p l ↔ p x = true ∧ x ∈ l.
Proof. rewrite !list_elem_of_In, List.filter_In. tauto. Qed.

(** What a query for one row says of it. *)
Lemma filter_one {A} (p : A → bool) l x : List.filter p l = [x] → x ∈ l ∧ p x = true.
Proof.
  intros H. assert (x ∈ List.filter p l) as Hx by (rewrite H; set_solver).
  by apply elem_of_List_filter in Hx as [? ?].
Qed.

Lemma filter_only {A} (p : A → bool) l x y : List.filter p l = [x] → y ∈ l → p y = true → y = x.
Proof.
  intros Hl Hy Hp. assert (y ∈ List.filter p l) as Hf by by apply elem_of_List_filter.
  rewrite Hl in Hf. by apply list_elem_of_singleton in Hf.
Qed.

Lemma List_filter_perm {A} (p : A → bool) l l' : l ≡ₚ l' → List.filter p l ≡ₚ List.filter p l'.
Proof.
  induction 1 as [|x l l' _ IH|x y l|l l' l'' _ IH _ IH']; simpl;
    [done|by destruct (p x); rewrite IH|destruct (p x), (p y); by try apply perm_swap|by rewrite IH].
Qed.

Lemma filter_split_perm {A} (p : A → bool) l :
  l ≡ₚ List.filter p l ++ List.filter (λ x, negb (p x)) l.
Proof.
  induction l as [|x l IH]; simpl; [done|]. destruct (p x); simpl; [by rewrite <- IH|].
  rewrite <- Permutation_middle. by rewrite <- IH.
Qed.

(** Splitting a list by a key and joining the parts loses nothing. *)
Lemma concat_by_key {A K} `{EqDecision K} (f : A → K) (ks : list K) l :
  NoDup ks → (∀ x, x ∈ l → f x ∈ ks) →
  mjoin ((λ k, List.filter (λ x, bool_decide (f x = k)) l) <$> ks) ≡ₚ l.
Proof.
  revert l. induction ks as [|k ks IH]; intros l Hnd Hin; simpl.
  { destruct l as [|x l]; [done|]. exfalso. specialize (Hin x). set_solver. }
  apply NoDup_cons in Hnd as [Hk Hnd].
  etrans; [|symmetry; apply (filter_split_perm (λ x, bool_decide (f x = k)))]. f_equiv.
  rewrite <- (IH (List.filter (λ x, negb (bool_decide (f x = k))) l) Hnd).
  - f_equiv. apply reflexive_eq, list_fmap_ext. intros i k' Hi.
    apply list_elem_of_lookup_2 in Hi. clear -Hi Hk.
    induction l as [|x l IHl]; simpl; [done|].
    repeat case_bool_decide; simpl; try case_bool_decide; subst; rewrite ?IHl; done.
  - intros x (Hx & Hxl)%elem_of_List_filter. apply Hin in Hxl. bool_simpl. set_solver.
Qed.

(** Splits a body into its statements and bounds what each writes; the lemmas of
    called operations are in the database [writes]. *)
Create HintDb writes.
(** Decides membership and inclusion of concrete lists of tables. *)
Ltac tables := apply (bool_decide_unpack _); vm_compute; exact I.
Ltac writes_step :=
  lazymatch goal with
  | |- only_writes _ (_ ≫= _) => apply only_writes_bind; [|intros ?]
  | |- only_writes _ (mret _) => apply only_writes_ret
  | |- only_writes _ (se_raise _) => apply only_writes_raise
  | |- only_writes _ (se_when _ _) => apply only_writes_when
  | |- only_writes ?ts (select ?t ?p) => exact (only_writes_select ts t p)
  | |- only_writes _ (one _) => apply only_writes_one
  | |- only_writes _ (one_or_none _) => apply only_writes_one_or_none
  | |- only_writes _ new_uuid7 => apply only_writes_uuid
  | |- only_writes _ (insert _ _) => apply only_writes_insert; tables
  | |- only_writes _ (update_ _ _ _) => apply only_writes_update_; tables
  | |- only_writes _ (update _ _ _) => apply only_writes_update; tables
  | |- only_writes _ (for_rows _ _) => apply only_writes_for; intros ? ?
  | |- only_writes _ (match ?x with _ => _ end) => destruct x
  | |- only_writes _ (let _ := _ in _) => cbv zeta
  | |- only_writes _ _ =>
      first [ assumption
            | eapply only_writes_weaken; [|solve [eauto with writes nocore]]; tables ]
  end.
Ltac writes := repeat writes_step.

(** A body that only reads. *)
Definition reads {A} (m : Tx A) : Prop := ∀ db, (m db).2 = db.

Lemma reads_bind {A B} (m : Tx A) (f : A → Tx B) : reads m → (∀ a, reads (f a)) → reads (m ≫= f).
Proof.
  intros Hm Hf db. unfold mbind, se_bind. specialize (Hm db). destruct (m db) as [[a|e] db1]; simpl in *; subst; [|done].
  apply Hf.
Qed.
Lemma reads_one {A} (l : list A) : reads (one l).
Proof. intros db. by destruct l as [|? [|]]. Qed.
Lemma reads_one_or_none {A} (l : list A) : reads (one_or_none l).
Proof. intros db. by destruct l as [|? [|]]. Qed.
Lemma reads_select t p : reads (select t p).
Proof. done. Qed.
Lemma reads_run {A} (m : Tx A) db r db' : reads m → m db = (r, db') → db' = db.
Proof. intros Hm H. specialize (Hm db). by rewrite H in Hm. Qed.

Create HintDb reads.
Ltac reads_step :=
  lazymatch goal with
  | |- reads (_ ≫= _) => apply reads_bind; [|intros ?]
  | |- reads (one _) => apply reads_one
  | |- reads (one_or_none _) => apply reads_one_or_none
  | |- reads (select ?t ?p) => exact (reads_select t p)
  | |- reads (match ?x with _ => _ end) => destruct x
  | |- reads (let _ := _ in _) => cbv zeta
  | |- reads (mret _) => intros ?; reflexivity
  | |- reads (se_raise _) => intros ?; reflexivity
  | |- reads (se_when _ _) => intros ?; reflexivity
  | |- reads _ => first [assumption | solve [eauto with reads nocore]]
  end.
Ltac read_only := repeat reads_step.

(** Runs [H] through a call that only reads, and through one whose writes are known. *)
Ltac read_step H :=
  lazymatch type of H with
  | (?m ≫= ?k) ?db = (Ret _, _) =>
      let Hr := fresh "Hr" in let Hm := fresh "Hm" in let d := fresh "db" in
      assert (reads m) as Hr by (solve [read_only]);
      apply tx_bind_Ret in H as (? & d & Hm & H); pose proof (reads_run m db _ d Hr Hm); subst d; clear Hr
  end.
Ltac pair_step H :=
  lazymatch type of H with
  | (match ?x with (_, _) => _ end) _ = _ => destruct x
  end.
Ltac rx H := repeat first [tx_step H | read_step H | pair_step H | progress cbv zeta beta in H].

Lemma NoDup_fmap_elem {A K} (f : A → K) (l : list A) x y :
  NoDup (f <$> l) → x ∈ l → y ∈ l → f x = f y → x = y.
Proof.
  induction l as [|z l IH]; rewrite ?fmap_cons, ?NoDup_cons; [set_solver|]. intros [Hz Hnd] Hx Hy Heq.
  assert (∀ w, w ∈ l → f w ≠ f z) as Hnot by (intros w Hw Hwz; apply Hz, list_elem_of_fmap; eauto).
  apply elem_of_cons in Hx as [->|Hx], Hy as [->|Hy]; [done|..].
  - exfalso. by apply (Hnot y).
  - exfalso. by apply (Hnot x).
  - by apply IH.
Qed.

(** The state a sample call leaves behind. *)
Lemma ret_of {A} (p : outcome SvcError A * DB) a : p.1 = Ret a → p = (Ret a, p.2).
Proof. destruct p. cbn. congruence. Qed.
Lemma raise_of {A} (p : outcome SvcError A * DB) e : p.1 = Raise e → p = (Raise e, p.2).
Proof. destruct p. cbn. congruence. Qed.

(** A database without rows, whose fresh identifiers are ["id-0"], ["id-1"], ... *)
Definition empty_db : DB :=
  {| rows := λ _, []; new_ids := λ n, "id-" +:+ pretty n; ids_drawn := 0 |}.
