(* ===== verification/Sorting.v ===== *)
(** * Sorted prefixes

    Lemmas on sorting and filtering lists: a sort is determined by its order where
    equal keys mean equal elements, and the first elements of a merge need only the
    first elements of each part. *)

From S2P Require Import Prelude Database.

Lemma filter_and {A} (p q : A → bool) l : List.filter p (List.filter q l) = List.filter (λ x, q x && p x) l.
Proof. induction l as [|x l IH]; [done|]. cbn. destruct (q x); cbn; [destruct (p x); by rewrite IH|done]. Qed.

Lemma filter_same {A} (p q : A → bool) l : (∀ x, x ∈ l → p x = q x) → List.filter p l = List.filter q l.
Proof. intros H. apply filter_ext_in. intros x Hx. apply H. by apply list_elem_of_In. Qed.

Lemma filter_none {A} (l : list A) : List.filter (λ _, false) l = [].
Proof. by induction l. Qed.

Lemma fmap_join {A B} (f : A → B) ls : f <$> mjoin ls = mjoin ((fmap f : list A → list B) <$> ls).
Proof. induction ls as [|l ls IH]; [done|]. cbn. rewrite fmap_app. f_equal. apply IH. Qed.

Lemma head_take_1 {A} (l : list A) : head (take 1 l) = head l.
Proof. by destruct l. Qed.

Lemma StronglySorted_take {A} (R : relation A) n l : StronglySorted R l → StronglySorted R (take n l).
Proof. intros Hs. rewrite <- (take_drop n l) in Hs. by apply StronglySorted_app_1_l in Hs. Qed.

Lemma one_spec {A} (key : A → string) p id l :
  NoDup (key <$> l) → (∀ x, p x = true → key x = id) → List.filter p l = [] ∨ ∃ x, List.filter p l = [x].
Proof.
  intros Hnd Hp. induction l as [|x l IH]; [by left|]. cbn in *. apply NoDup_cons in Hnd as [Hx Hnd].
  destruct (p x) eqn:Hpx; [|by apply IH]. right. exists x. f_equal. destruct (List.filter p l) as [|y l'] eqn:Hf; [done|].
  exfalso. assert (y ∈ List.filter p l) as Hy by (rewrite Hf; set_solver). apply elem_of_List_filter in Hy as [Hpy Hy].
  apply Hx, list_elem_of_fmap. exists y. by rewrite (Hp x Hpx), (Hp y Hpy).
Qed.

(** ** Sorting *)

Section sorting.
Context {A : Type} (leb : A → A → bool).

Lemma py_sorted_fmap {B} (f : B → A) l : py_sorted leb (f <$> l) = f <$> py_sorted (λ a b, leb (f a) (f b)) l.
Proof.
  induction l as [|x l IH]; [done|]. cbn [py_sorted fmap list_fmap]. rewrite IH.
  generalize (py_sorted (λ a b, leb (f a) (f b)) l) as s. induction s as [|y s IHs]; [done|].
  cbn. destruct (leb (f x) (f y)); [done|]. cbn. by rewrite <- IHs.
Qed.

Lemma py_sorted_ext leb' l : (∀ x y, x ∈ l → y ∈ l → leb x y = leb' x y) → py_sorted leb l = py_sorted leb' l.
Proof.
  induction l as [|x l IH]; intros H; [done|]. cbn. rewrite IH by (intros; apply H; set_solver).
  assert (∀ y, y ∈ py_sorted leb' l → leb x y = leb' x y) as Hx.
  { intros y Hy. apply H; [set_solver|]. apply py_sorted_elem in Hy. set_solver. }
  revert Hx. generalize (py_sorted leb' l) as s. induction s as [|y s IHs]; intros Hx; [done|].
  cbn. rewrite Hx, IHs by set_solver. done.
Qed.

Context (Htotal : ∀ x y, leb x y = true ∨ leb y x = true).
Context (Htrans : ∀ x y z, leb x y = true → leb y z = true → leb x z = true).

(** Equal keys mean equal elements. *)
Definition keyed (l : list A) : Prop := ∀ x y, x ∈ l → y ∈ l → leb x y = true → leb y x = true → x = y.

Lemma py_sorted_unique l l' : keyed l → l ≡ₚ l' → py_sorted leb l = py_sorted leb l'.
Proof.
  intros Hk Hp. eapply StronglySorted_unique_strong; [|by apply py_sorted_sorted..|by rewrite !py_sorted_perm].
  intros x y Hx Hy. rewrite py_sorted_elem in Hx, Hy. rewrite <- Hp in Hy. by apply Hk.
Qed.

(** What is at most [b] comes first. *)
Lemma sorted_prefix b s :
  StronglySorted (λ x y, leb x y = true) s →
  s = List.filter (λ x, leb x b) s ++ List.filter (λ x, negb (leb x b)) s.
Proof.
  induction s as [|x s IH]; intros Hs; [done|]. apply StronglySorted_cons in Hs as [Hx Hs]. cbn.
  destruct (leb x b) eqn:Hb; cbn; [f_equal; by apply IH|].
  assert (∀ y, y ∈ s → leb y b = false) as Hy.
  { intros y Hy. rewrite Forall_forall in Hx. destruct (leb y b) eqn:E; [|done]. rewrite <- Hb. symmetry. eauto. }
  clear -Hy. assert (List.filter (λ x, leb x b) s = []) as ->.
  { induction s as [|y s IH]; [done|]. cbn. rewrite Hy by set_solver. apply IH. set_solver. }
  cbn. f_equal. induction s as [|y s IH]; [done|]. cbn. rewrite Hy by set_solver. cbn. f_equal. apply IH. set_solver.
Qed.

Lemma insert_beyond n x s :
  keyed (x :: s) → x ∉ s → (n ≤ length s)%nat → (∀ y, y ∈ take n s → leb y x = true) →
  take n (py_insert leb x s) = take n s.
Proof.
  revert n. induction s as [|y s IH]; intros [|n] Hk Hx Hn Hle; cbn in *; try done; try lia.
  destruct (leb x y) eqn:Hxy.
  - assert (x = y) as -> by (apply Hk; [set_solver..|done|apply Hle; set_solver]). set_solver.
  - cbn. f_equal. apply IH; [|set_solver|lia|intros; apply Hle; set_solver].
    intros a b Ha Hb. apply Hk; set_solver.
Qed.

Lemma keyed_perm l l' : l ≡ₚ l' → keyed l → keyed l'.
Proof. intros Hp Hk x y. rewrite <- Hp. apply Hk. Qed.
Lemma keyed_sub l l' : (∀ x, x ∈ l' → x ∈ l) → keyed l → keyed l'.
Proof. intros Hs Hk x y Hx Hy. apply Hk; auto. Qed.

(** Elements beyond [n] smaller ones do not change the first [n]. *)
Lemma sorted_beyond n big small rest :
  NoDup (big ++ small ++ rest) → keyed (big ++ small ++ rest) → (n ≤ length small)%nat →
  (∀ x y, x ∈ small → y ∈ big → leb x y = true) →
  take n (py_sorted leb (big ++ small ++ rest)) = take n (py_sorted leb (small ++ rest)).
Proof.
  induction big as [|b big IH]; intros Hnd Hk Hn Hle; [done|]. cbn in *. apply NoDup_cons in Hnd as [Hb Hnd].
  rewrite insert_beyond.
  - apply IH; [done|eapply keyed_sub; [|exact Hk]; set_solver|done|intros; apply Hle; set_solver].
  - eapply keyed_perm; [|exact Hk]. by rewrite py_sorted_perm.
  - by rewrite py_sorted_elem.
  - rewrite py_sorted_length, !length_app. lia.
  - intros y Hy. set (s := py_sorted leb (big ++ small ++ rest)) in *.
    assert (StronglySorted (λ x y, leb x y = true) s) as Hs by by apply py_sorted_sorted.
    rewrite (sorted_prefix b s Hs), take_app_le in Hy.
    { apply elem_of_take in Hy as (i & Hi & _). apply list_elem_of_lookup_2, elem_of_List_filter in Hi. by destruct Hi. }
    etrans; [exact Hn|]. assert (small = List.filter (λ x, leb x b) small) as ->.
    { clear -Hle. induction small as [|x small IH]; [done|]. cbn. rewrite Hle by set_solver. f_equal. apply IH. set_solver. }
    etrans; [|apply Nat.eq_le_incl, Permutation_length, List_filter_perm; symmetry; unfold s; apply py_sorted_perm].
    rewrite !List.filter_app, !length_app. lia.
Qed.

Lemma take_sorted_app n l rest :
  NoDup (l ++ rest) → keyed (l ++ rest) →
  take n (py_sorted leb (take n (py_sorted leb l) ++ rest)) = take n (py_sorted leb (l ++ rest)).
Proof.
  intros Hnd Hk. set (s := py_sorted leb l). assert (s ≡ₚ l) as Hp by apply py_sorted_perm.
  assert (l ++ rest ≡ₚ drop n s ++ take n s ++ rest) as Hall.
  { rewrite (Permutation_app_comm (drop n s)), <- app_assoc, (Permutation_app_comm rest), app_assoc, take_drop. by rewrite Hp. }
  rewrite (py_sorted_unique (l ++ rest) _ Hk Hall).
  destruct (decide (n ≤ length s)%nat) as [Hn|Hn]; [|by rewrite (drop_ge s) by lia].
  symmetry. apply sorted_beyond; [by rewrite <- Hall|by eapply keyed_perm|rewrite length_take; lia|].
  assert (StronglySorted (λ x y, leb x y = true) s) as Hs by by apply py_sorted_sorted.
  rewrite <- (take_drop n s) in Hs. intros x y. exact (StronglySorted_app_1_elem_of _ _ _ x y Hs).
Qed.

Lemma firsts_submseteq n parts : mjoin ((λ l, take n (py_sorted leb l)) <$> parts) ⊆+ mjoin parts.
Proof.
  induction parts as [|l parts IH]; [done|]. cbn. apply submseteq_app; [|exact IH].
  etrans; [apply submseteq_take|]. by rewrite py_sorted_perm.
Qed.

Lemma NoDup_within (l k : list A) : l ⊆+ k → NoDup k → NoDup l.
Proof. intros (r & ->)%submseteq_Permutation. rewrite NoDup_app. tauto. Qed.

(** Merging the first [n] of each part gives the first [n] of all. *)
Lemma take_sorted_join n parts rest :
  NoDup (mjoin parts ++ rest) → keyed (mjoin parts ++ rest) →
  take n (py_sorted leb (mjoin ((λ l, take n (py_sorted leb l)) <$> parts) ++ rest)) =
  take n (py_sorted leb (mjoin parts ++ rest)).
Proof.
  revert rest. induction parts as [|l parts IH]; intros rest Hnd Hk; [done|]. cbn in *. rewrite <- !app_assoc in *.
  pose proof (firsts_submseteq n parts) as Hm. set (m := mjoin ((λ l, take n (py_sorted leb l)) <$> parts)) in *.
  assert (l ++ m ++ rest ⊆+ l ++ mjoin parts ++ rest) as Hsub by (by apply submseteq_app, submseteq_app).
  assert (keyed (l ++ m ++ rest)) as Hk' by (eapply keyed_sub; [|exact Hk]; intros x Hx; by eapply elem_of_submseteq).
  assert (l ++ mjoin parts ++ rest ≡ₚ mjoin parts ++ l ++ rest) as Hp by apply Permutation_app_swap_app.
  rewrite take_sorted_app by eauto using NoDup_within.
  rewrite (py_sorted_unique (l ++ m ++ rest) (m ++ l ++ rest)) by (done || apply Permutation_app_swap_app).
  rewrite (py_sorted_unique (l ++ mjoin parts ++ rest) _ Hk Hp). apply IH; [by rewrite <- Hp|by eapply keyed_perm].
Qed.
End sorting.
