(* ===== verification/Ledger.v ===== *)
(** * The durable resource ledger

    [src/nexa/coordinator/accounting.py]: charging the open segments of held
    allocations to the tenants' fairness ledgers, and re-opening the segments after
    an allocation, capacity or weight changed; with the value check of
    [src/nexa/infrastructure/persistence/values.py] that every stored decimal
    passes. *)

From S2P Require Import Prelude PyDecimal PyValue Database.

Local Open Scope string_scope.
Local Open Scope list_scope.
Local Open Scope Z_scope.

(** A UTC [datetime] minus the epoch is a [timedelta] of days, seconds below a day
    and microseconds below a second. *)
Definition epoch_ms (value : Z) : Z :=
  let days := value / 86400000000 in
  let secs := value mod 86400000000 / 1000000 in
  let microseconds := value mod 1000000 in
  days * 86400000 + secs * 1000 + microseconds / 1000.

Definition _elapsed_seconds (start stop : Z) : decimal :=
  dec_div (dec_of_Z (epoch_ms stop - epoch_ms start)) (dec_of_Z 1000).

(** Binding a decimal to an [ExactDecimalText] column. *)
Definition decimal_to_db (value : decimal) : Tx decimal :=
  if dec_nonneg value then mret value
  else se_raise (PyError (Exn "PersistenceValueError"
         "Scheduler persistence values must be finite and non-negative")).

Definition open_segment (r : SegmentRow) : bool := is_none (sg_ended_at r).
Definition unreleased (r : AllocationRow) : bool := negb (bool_decide (al_state r = AL_RELEASED)).

(** [insert .. on_conflict_do_nothing()]. *)
Definition insert_new (t : table) (conflict : row t → bool) (r : row t) : Tx () := λ db,
  if existsb conflict (rows db t) then (Ret (), db) else insert t r db.

Definition lock_ledgers (now : Z) (ensure_state : bool) : Tx (list LedgerRow) :=
  _ ← (if ensure_state
       then insert_new T_fairness_state (λ r, bool_decide (fs_singleton_key r = "local"))
              (MkFairnessRow "local" dec_zero)
       else mret ());
  policies ← select T_tenant_policies tq_is_current;
  _ ← for_rows policies (λ p,
        insert_new T_fairness_ledgers (λ r, bool_decide (fl_tenant_id r = tq_tenant_id p))
          (MkLedgerRow (tq_tenant_id p) dec_zero now false 1));
  ledgers ← select T_fairness_ledgers (λ _, true);
  mret (py_sorted (λ a b, String.leb (fl_tenant_id a) (fl_tenant_id b)) ledgers).

(** The inner loop of [charge_locked]: every segment but the last is charged its
    own part, the last what is left of the tenant's charge. *)
Fixpoint charge_owned (owned : list SegmentRow) (charge elapsed assigned : decimal) : Tx () :=
  match owned with
  | [] => mret ()
  | segment :: rest =>
      let amount :=
        match rest with
        | [] => dec_sub charge assigned
        | _ => dec_div (dec_mul (sg_dominant_share segment) elapsed) (sg_weight segment)
        end in
      total ← decimal_to_db (dec_add (sg_charged_amount segment) amount);
      _ ← update_ T_allocation_ledger_segments
            (λ r, bool_decide (sg_segment_id r = sg_segment_id segment))
            (λ r, r <| sg_charged_amount := total |>);
      charge_owned rest charge elapsed (dec_add assigned amount)
  end.

Definition share_sum (owned : list SegmentRow) : decimal :=
  foldl dec_add dec_zero (sg_dominant_share <$> owned).

(** One ledger of [charge_locked]: the charge, with its segments charged. *)
Definition charge_ledger (now : Z) (segments : list SegmentRow) (ledger : LedgerRow) : Tx decimal :=
  match List.filter (λ s, bool_decide (sg_tenant_id s = fl_tenant_id ledger)) segments with
  | [] => mret dec_zero
  | first :: rest =>
      let owned := first :: rest in
      let start := Z.max (fl_accounted_through ledger) (sg_started_at first) in
      if (now <? sg_started_at first) ||
         existsb (λ s, negb (sg_started_at s =? sg_started_at first) ||
                       negb (dec_eqb (sg_weight s) (sg_weight first))) owned
      then se_raise (RuntimeError "inconsistent tenant accounting boundary")
      else
        let elapsed := _elapsed_seconds start now in
        let charge := dec_div (dec_mul (share_sum owned) elapsed) (sg_weight first) in
        _ ← charge_owned owned charge elapsed dec_zero;
        mret charge
  end.

Fixpoint charge_ledgers (now : Z) (segments : list SegmentRow) (ledgers : list LedgerRow)
    : Tx (list (LedgerRow * decimal)) :=
  match ledgers with
  | [] => mret []
  | ledger :: ledgers =>
      charge ← charge_ledger now segments ledger;
      charges ← charge_ledgers now segments ledgers;
      mret ((ledger, charge) :: charges)
  end.

Definition store_ledger (now : Z) (item : LedgerRow * decimal) : Tx () :=
  let '(ledger, charge) := item in
  score ← decimal_to_db (dec_add (fl_virtual_score ledger) charge);
  update_ T_fairness_ledgers (λ r, bool_decide (fl_tenant_id r = fl_tenant_id ledger))
    (λ r, r <| fl_virtual_score := score |> <| fl_accounted_through := now |>
            <| fl_version := fl_version ledger + 1 |>).

(** [clock] is the database time read after the ledger locks, if it is read. *)
Definition charge_locked (ledgers : list LedgerRow) (now : Z) (strict : bool) (clock : Z) : Tx () :=
  let late t := existsb (λ l, t <? fl_accounted_through l) ledgers in
  _ ← se_when (late now && late (if strict then now else clock))
        (RuntimeError "accounting DB time regressed");
  segments ← select T_allocation_ledger_segments open_segment;
  let segments := py_sorted (λ a b, String.leb (sg_allocation_id a) (sg_allocation_id b)) segments in
  charges ← charge_ledgers now segments ledgers;
  for_rows charges (store_ledger now).

Definition account_locked (now clock : Z) : Tx () :=
  ledgers ← lock_ledgers now true;
  charge_locked ledgers now false clock.

(** [clock] and [boundary] are the two readings of the database time. *)
Definition account_now_locked (clock boundary : Z) : Tx Z :=
  ledgers ← lock_ledgers clock true;
  _ ← charge_locked ledgers boundary true boundary;
  mret boundary.

(** The dominant axis is an index into (cpu, memory, gpu). *)
Definition axis_of (i : nat) (cpu memory gpu : Z) : Z :=
  match i with O => cpu | S O => memory | _ => gpu end.
Definition held_on (i : nat) (r : AllocationRow) : Z :=
  axis_of i (al_cpu_millis r) (al_memory_bytes r) (al_gpu_count r).
Definition capacity_on (i : nat) (r : InventoryRow) : Z :=
  axis_of i (in_allocatable_cpu_millis r) (in_allocatable_memory_bytes r) (in_allocatable_gpu_count r).
Definition total_on (i : nat) (owned : list AllocationRow) : Z := foldl Z.add 0 (held_on i <$> owned).

(** [max(range(3), key=..)]: the first axis of largest share. *)
Definition dominant_axis (owned : list AllocationRow) (inventory : InventoryRow) : nat :=
  let key i := if capacity_on i inventory =? 0 then dec_zero
               else dec_div (dec_of_Z (total_on i owned)) (dec_of_Z (capacity_on i inventory)) in
  let best i j := if dec_ltb (key i) (key j) then j else i in
  best (best 0%nat 1%nat) 2%nat.

Fixpoint open_segments (policy : TenantPolicyRow) (version now : Z) (axis : nat) (capacity : Z)
    (aggregate assigned : decimal) (owned : list AllocationRow) : Tx () :=
  match owned with
  | [] => mret ()
  | allocation :: rest =>
      let share :=
        match rest with
        | [] => dec_sub aggregate assigned
        | _ => dec_div (dec_of_Z (held_on axis allocation)) (dec_of_Z capacity)
        end in
      segment_id ← new_uuid7;
      stored ← decimal_to_db share;
      _ ← insert T_allocation_ledger_segments
            (MkSegmentRow segment_id (al_allocation_id allocation) (tq_tenant_id policy) now None
               stored (tq_weight policy) dec_zero version);
      open_segments policy version now axis capacity aggregate (dec_add assigned share) rest
  end.

Definition rebase_tenant (held : list AllocationRow) (inventory : InventoryRow) (version now : Z)
    (item : string * TenantPolicyRow) : Tx () :=
  let '(tenant_id, policy) := item in
  match List.filter (λ r, bool_decide (al_tenant_id r = tenant_id)) held with
  | [] => mret ()
  | owned =>
      if existsb (λ i, negb (total_on i owned =? 0) && (capacity_on i inventory <=? 0))
           [0%nat; 1%nat; 2%nat]
      then se_raise (RuntimeError "held resources exceed current capacity")
      else
        let axis := dominant_axis owned inventory in
        let capacity := capacity_on axis inventory in
        let aggregate := dec_div (dec_of_Z (total_on axis owned)) (dec_of_Z capacity) in
        open_segments policy version now axis capacity aggregate dec_zero owned
  end.

(** The inventory of the version a worker row names as current. *)
Definition current_inventory (workers : list WorkerRow) (r : InventoryRow) : bool :=
  existsb (λ w, bool_decide (wk_worker_id w = in_worker_id r) &&
                bool_decide (wk_current_inventory_version w = Some (in_inventory_version r))) workers.

Definition rebase_locked (now : Z) : Tx () :=
  held ← select T_allocations unreleased;
  let held := py_sorted (λ a b, String.leb (al_allocation_id a) (al_allocation_id b)) held in
  current ← select T_tenant_policies tq_is_current;
  let policies := dict_of ((λ r, (tq_tenant_id r, r)) <$> current) in
  workers ← select T_workers (λ _, true);
  inventories ← select T_worker_inventories (current_inventory workers);
  inventory ← one_or_none inventories;
  _ ← se_when (is_none inventory && negb (bool_decide (held = [])))
        (RuntimeError "held allocation has no current inventory");
  versions ← select T_policy_versions pv_is_current;
  version ← one versions;
  _ ← update_ T_allocation_ledger_segments open_segment (λ r, r <| sg_ended_at := Some now |>);
  match held, inventory with
  | [], _ => mret ()
  | _, None => mret ()
  | _, Some inventory =>
      for_rows policies (rebase_tenant held inventory (pv_policy_version version) now)
  end.

(** ** Clock arithmetic *)

Lemma epoch_ms_floor value : epoch_ms value = value / 1000.
Proof. unfold epoch_ms. Z.to_euclidean_division_equations. lia. Qed.

(** ** What the operations write *)

Lemma decimal_to_db_Ret d db d' db' : decimal_to_db d db = (Ret d', db') → d' = d ∧ db' = db.
Proof. unfold decimal_to_db. destruct (dec_nonneg d); intros [= <- <-]; done. Qed.

Lemma only_writes_decimal ts d : only_writes ts (decimal_to_db d).
Proof. apply only_writes_pure. intros db. unfold decimal_to_db. by destruct (dec_nonneg d). Qed.

Lemma only_writes_insert_new ts t p r : t ∈ ts → only_writes ts (insert_new t p r).
Proof.
  intros Ht db o db'. unfold insert_new. destruct (existsb _ _); [intros [= <- <-]; auto|].
  by apply only_writes_insert.
Qed.

Lemma insert_new_writes t p r : only_writes [t] (insert_new t p r).
Proof. apply only_writes_insert_new. set_solver. Qed.
Lemma decimal_to_db_writes d : only_writes [] (decimal_to_db d).
Proof. apply only_writes_decimal. Qed.
#[export] Hint Resolve insert_new_writes decimal_to_db_writes : writes.

Lemma charge_owned_writes owned charge elapsed assigned :
  only_writes [T_allocation_ledger_segments] (charge_owned owned charge elapsed assigned).
Proof. revert assigned. induction owned as [|s owned IH]; intros assigned; simpl; writes; apply IH. Qed.
#[export] Hint Resolve charge_owned_writes : writes.

Lemma charge_ledger_writes now segments ledger :
  only_writes [T_allocation_ledger_segments] (charge_ledger now segments ledger).
Proof. unfold charge_ledger. writes. Qed.
#[export] Hint Resolve charge_ledger_writes : writes.

Lemma charge_ledgers_writes now segments ledgers :
  only_writes [T_allocation_ledger_segments] (charge_ledgers now segments ledgers).
Proof. induction ledgers as [|l ledgers IH]; simpl; writes. Qed.
#[export] Hint Resolve charge_ledgers_writes : writes.

Lemma store_ledger_writes now item : only_writes [T_fairness_ledgers] (store_ledger now item).
Proof. unfold store_ledger. writes. Qed.
#[export] Hint Resolve store_ledger_writes : writes.

Lemma lock_ledgers_writes now ensure :
  only_writes [T_fairness_state; T_fairness_ledgers] (lock_ledgers now ensure).
Proof. unfold lock_ledgers. writes. Qed.

Lemma charge_locked_writes ledgers now strict clock :
  only_writes [T_allocation_ledger_segments; T_fairness_ledgers] (charge_locked ledgers now strict clock).
Proof. unfold charge_locked. writes. Qed.
#[export] Hint Resolve lock_ledgers_writes charge_locked_writes : writes.

Lemma account_locked_writes now clock :
  only_writes [T_allocation_ledger_segments; T_fairness_ledgers; T_fairness_state] (account_locked now clock).
Proof. unfold account_locked. writes. Qed.

Lemma open_segments_writes policy version now axis capacity aggregate assigned owned :
  only_writes [T_allocation_ledger_segments]
    (open_segments policy version now axis capacity aggregate assigned owned).
Proof. revert assigned. induction owned as [|a owned IH]; intros assigned; simpl; writes; apply IH. Qed.
#[export] Hint Resolve account_locked_writes open_segments_writes : writes.

Lemma rebase_tenant_writes held inventory version now item :
  only_writes [T_allocation_ledger_segments] (rebase_tenant held inventory version now item).
Proof. unfold rebase_tenant. writes. Qed.
#[export] Hint Resolve rebase_tenant_writes : writes.

Lemma rebase_locked_writes now : only_writes [T_allocation_ledger_segments] (rebase_locked now).
Proof. unfold rebase_locked. writes. Qed.
#[export] Hint Resolve rebase_locked_writes : writes.

(** ** Segments after a rebase *)

Definition seg_key (s : SegmentRow) : string * string * decimal :=
  (sg_allocation_id s, sg_tenant_id s, sg_weight s).

Definition fresh_segment (now : Z) (s : SegmentRow) : Prop :=
  sg_started_at s = now ∧ sg_ended_at s = None ∧ sg_charged_amount s = dec_zero.

Definition tenant_keys (held : list AllocationRow) (item : string * TenantPolicyRow) :=
  (λ a, (al_allocation_id a, tq_tenant_id item.2, tq_weight item.2)) <$>
    List.filter (λ r, bool_decide (al_tenant_id r = item.1)) held.

(** [new] segments for the keys [ks] were appended. *)
Definition appended (now : Z) (ks : list (string * string * decimal)) (db db' : DB) : Prop :=
  ∃ new, rows db' T_allocation_ledger_segments = rows db T_allocation_ledger_segments ++ new ∧
    seg_key <$> new = ks ∧ Forall (fresh_segment now) new.

Lemma appended_app now ks ks' db db1 db' :
  appended now ks db db1 → appended now ks' db1 db' → appended now (ks ++ ks') db db'.
Proof.
  intros (n & H1 & H2 & H3) (n' & H1' & H2' & H3'). exists (n ++ n').
  by rewrite H1', H1, fmap_app, H2, H2', app_assoc, Forall_app.
Qed.

Lemma appended_nil now db : appended now [] db db.
Proof. exists []. by rewrite app_nil_r. Qed.

Lemma open_segments_Ret policy version now axis capacity aggregate assigned owned db u db' :
  open_segments policy version now axis capacity aggregate assigned owned db = (Ret u, db') →
  appended now ((λ a, (al_allocation_id a, tq_tenant_id policy, tq_weight policy)) <$> owned) db db'.
Proof.
  revert assigned db. induction owned as [|a owned IH]; intros assigned db H; cbn [open_segments] in H.
  - tx H. apply appended_nil.
  - tx H. apply tx_bind_Ret in H as (d & db1 & H1 & H). apply decimal_to_db_Ret in H1 as [-> ->].
    tx H. apply IH in H. rewrite fmap_cons. eapply (appended_app now [_]); [|exact H].
    eexists [_]. split_and!; [exact (put_same T_allocation_ledger_segments _ (draw db))|done|]. by repeat constructor.
Qed.

Lemma rebase_tenant_Ret held inventory version now item db u db' :
  rebase_tenant held inventory version now item db = (Ret u, db') →
  appended now (tenant_keys held item) db db'.
Proof.
  destruct item as [t p]. unfold rebase_tenant, tenant_keys. cbn [fst snd].
  destruct (List.filter _ held) as [|a owned]; [intros H; tx H; apply appended_nil|].
  destruct (existsb _ _); [done|]. apply open_segments_Ret.
Qed.

Lemma rebase_tenants_Ret held inventory version now items db u db' :
  for_rows items (rebase_tenant held inventory version now) db = (Ret u, db') →
  appended now (mjoin (tenant_keys held <$> items)) db db'.
Proof.
  revert db. induction items as [|i items IH]; intros db H; cbn [for_rows] in H; [tx H; apply appended_nil|].
  apply tx_bind_Ret in H as ([] & db1 & H1 & H). cbn.
  eapply appended_app; [by eapply rebase_tenant_Ret|by apply IH].
Qed.

Definition sorted_held (db : DB) : list AllocationRow :=
  py_sorted (λ a b, String.leb (al_allocation_id a) (al_allocation_id b))
    (List.filter unreleased (rows db T_allocations)).

Definition current_policies (db : DB) : list (string * TenantPolicyRow) :=
  dict_of ((λ r, (tq_tenant_id r, r)) <$> List.filter tq_is_current (rows db T_tenant_policies)).

Lemma current_policies_elem db t p :
  (t, p) ∈ current_policies db → t = tq_tenant_id p ∧ p ∈ rows db T_tenant_policies ∧ tq_is_current p = true.
Proof.
  intros [H|H]%dict_update_elem; [set_solver|].
  apply list_elem_of_fmap in H as (p' & [= -> ->] & (Hc & Hp)%elem_of_List_filter). done.
Qed.

Definition closed_at (now : Z) (s : SegmentRow) : SegmentRow :=
  if open_segment s then s <| sg_ended_at := Some now |> else s.

(** A rebase closes every open segment and opens one for each held allocation of a
    tenant with a current policy. *)
Lemma rebase_locked_Ret now db u db' :
  rebase_locked now db = (Ret u, db') →
  ∃ new, rows db' T_allocation_ledger_segments =
           (closed_at now <$> rows db T_allocation_ledger_segments) ++ new ∧
    Forall (fresh_segment now) new ∧
    seg_key <$> new =
      match sorted_held db with
      | [] => []
      | held => mjoin (tenant_keys held <$> current_policies db)
      end.
Proof.
  unfold rebase_locked. intros H. tx H. cbv zeta in H. tx H.
  fold (sorted_held db) in *. fold (current_policies db) in *.
  destruct (sorted_held db) as [|a held] eqn:Hheld.
  - tx H. exists []. split_and!; [by rewrite app_nil_r|constructor|done].
  - destruct Hl as [[_ ->]|(inv & _ & ->)]; [by destruct (bool_decide_reflect (a :: held = []))|].
    apply rebase_tenants_Ret in H as (new & H1 & H2 & H3). exists new. by rewrite H1.
Qed.

Lemma filter_open_closed now l : List.filter open_segment (closed_at now <$> l) = [].
Proof.
  induction l as [|s l IH]; simpl; [done|]. unfold closed_at at 1.
  destruct (open_segment s) eqn:Ho; simpl; by rewrite ?Ho.
Qed.

Lemma filter_open_fresh now new : Forall (fresh_segment now) new → List.filter open_segment new = new.
Proof.
  induction 1 as [|s new (_ & Hs & _) _ IH]; simpl; [done|]. unfold open_segment at 1. by rewrite Hs, IH.
Qed.

Lemma rebase_open now db u db' :
  rebase_locked now db = (Ret u, db') →
  let opened := List.filter open_segment (rows db' T_allocation_ledger_segments) in
  Forall (fresh_segment now) opened ∧
  seg_key <$> opened = mjoin (tenant_keys (sorted_held db) <$> current_policies db).
Proof.
  intros H. apply rebase_locked_Ret in H as (new & Hrows & Hf & Hk). cbv zeta.
  rewrite Hrows, List.filter_app, filter_open_closed, (filter_open_fresh now) by done. simpl.
  split; [done|]. rewrite Hk. destruct (sorted_held db) eqn:Hh; [|done].
  symmetry. clear. by induction (current_policies db) as [|i l IH].
Qed.

Lemma tenant_keys_ids held items :
  fst ∘ fst <$> mjoin (tenant_keys held <$> items) =
  al_allocation_id <$> mjoin ((λ t, List.filter (λ r, bool_decide (al_tenant_id r = t)) held) <$> items.*1).
Proof.
  induction items as [|[t p] items IH]; [done|].
  rewrite !fmap_cons. cbn [mjoin list_join fst]. rewrite !fmap_app. f_equal; [|exact IH].
  unfold tenant_keys. cbn [fst snd]. by rewrite <- list_fmap_compose.
Qed.

(** C26: the ledger segments after [rebase_locked]: when every held (unreleased)
    allocation's tenant has exactly one current policy, exactly one segment is open
    for each held allocation and none for a released one; every open segment starts
    at the rebase time with nothing charged yet, at its tenant's current weight, and
    the segments that were open before are closed at that time. *)
Theorem rebase_charges_exactly_held now db u db' :
  rebase_locked now db = (Ret u, db') →
  NoDup (tq_tenant_id <$> List.filter tq_is_current (rows db T_tenant_policies)) →
  (∀ a, a ∈ rows db T_allocations → unreleased a = true →
     al_tenant_id a ∈ tq_tenant_id <$> List.filter tq_is_current (rows db T_tenant_policies)) →
  let opened := List.filter open_segment (rows db' T_allocation_ledger_segments) in
  sg_allocation_id <$> opened ≡ₚ al_allocation_id <$> List.filter unreleased (rows db T_allocations) ∧
  (∀ s, s ∈ opened → sg_started_at s = now ∧ sg_charged_amount s = dec_zero ∧
     ∃ p, p ∈ rows db T_tenant_policies ∧ tq_is_current p = true ∧
       tq_tenant_id p = sg_tenant_id s ∧ tq_weight p = sg_weight s) ∧
  (∀ s, s ∈ rows db T_allocation_ledger_segments → open_segment s = true →
     s <| sg_ended_at := Some now |> ∈ rows db' T_allocation_ledger_segments).
Proof.
  intros H Hnd Hcover opened. pose proof H as [Hf Hk]%rebase_open. fold opened in Hf, Hk.
  split_and!.
  - trans (fst ∘ fst <$> (seg_key <$> opened)); [by rewrite <- list_fmap_compose|].
    rewrite Hk, tenant_keys_ids. apply fmap_Permutation.
    unfold current_policies. rewrite dict_of_id by by rewrite fst_fmap_pair. rewrite fst_fmap_pair.
    etrans; [|apply (py_sorted_perm (λ a b, String.leb (al_allocation_id a) (al_allocation_id b)))].
    apply concat_by_key; [done|]. intros a (Ha & Hin)%py_sorted_elem%elem_of_List_filter. by apply Hcover.
  - intros s Hs. rewrite Forall_forall in Hf. destruct (Hf s Hs) as (? & _ & ?).
    split_and!; [done..|].
    assert (seg_key s ∈ seg_key <$> opened) as Hks by (apply list_elem_of_fmap; eauto).
    rewrite Hk in Hks. apply list_elem_of_join in Hks as (ks & Hks & Hin).
    apply list_elem_of_fmap in Hin as ([t p] & -> & Hp%current_policies_elem).
    unfold tenant_keys in Hks. apply list_elem_of_fmap in Hks as (a & [= _ Ht Hw] & _).
    exists p. naive_solver.
  - intros s Hs Ho. apply rebase_locked_Ret in H as (new & -> & _). apply elem_of_app. left.
    apply list_elem_of_fmap. exists s. unfold closed_at. by rewrite Ho.
Qed.

(** ** Charging *)

Lemma tx_bind_Raise {A B} (m : Tx A) (f : A → Tx B) db e db' :
  (m ≫= f) db = (Raise e, db') →
  m db = (Raise e, db') ∨ ∃ a db1, m db = (Ret a, db1) ∧ f a db1 = (Raise e, db').
Proof. intros H. apply se_bind_inv in H as [(a & db1 & H1 & H2)|(e' & H1 & [= ->])]; eauto. Qed.

Definition persistence_error : SvcError :=
  PyError (Exn "PersistenceValueError" "Scheduler persistence values must be finite and non-negative").
Definition regressed : SvcError := RuntimeError "accounting DB time regressed".
Definition inconsistent : SvcError := RuntimeError "inconsistent tenant accounting boundary".

Lemma decimal_to_db_Raise d db e db' : decimal_to_db d db = (Raise e, db') → e = persistence_error.
Proof. unfold decimal_to_db. destruct (dec_nonneg d); by intros [= <- <-]. Qed.

(** Open segments of one tenant share their start, not after [t], and their weight. *)
Definition segments_agree (t : Z) (segments : list SegmentRow) : Prop :=
  ∀ s s', s ∈ segments → s' ∈ segments → open_segment s = true → open_segment s' = true →
    sg_tenant_id s = sg_tenant_id s' →
    sg_started_at s = sg_started_at s' ∧ sg_started_at s ≤ t ∧ dec_eqb (sg_weight s) (sg_weight s') = true.

Lemma charge_owned_Raise owned charge elapsed assigned db e db' :
  charge_owned owned charge elapsed assigned db = (Raise e, db') → e = persistence_error.
Proof.
  revert assigned db. induction owned as [|s owned IH]; intros assigned db H; cbn [charge_owned] in H; [done|].
  apply tx_bind_Raise in H as [H|(d & db1 & H1 & H)]; [by eapply decimal_to_db_Raise|].
  tx H. by eapply IH.
Qed.

Lemma charge_ledger_Raise now segments ledger db e db' :
  segments_agree now segments → Forall (λ s, open_segment s = true) segments →
  charge_ledger now segments ledger db = (Raise e, db') → e = persistence_error.
Proof.
  intros Hag Hopen. unfold charge_ledger.
  destruct (List.filter _ segments) as [|first rest] eqn:Hf; [done|].
  assert (∀ s, s ∈ first :: rest → s ∈ segments ∧ sg_tenant_id s = fl_tenant_id ledger) as Hin.
  { intros s Hs. rewrite <- Hf in Hs. apply elem_of_List_filter in Hs as [? ?]. by bool_simpl. }
  rewrite Forall_forall in Hopen.
  assert (∀ s, s ∈ first :: rest → sg_started_at s = sg_started_at first ∧ sg_started_at s ≤ now ∧
            dec_eqb (sg_weight s) (sg_weight first) = true) as Hs.
  { intros s Hs. destruct (Hin s Hs), (Hin first ltac:(set_solver)).
    apply Hag; [done..|by apply Hopen|by apply Hopen|congruence]. }
  destruct (_ || _) eqn:Hbad.
  - exfalso. apply orb_true_iff in Hbad as [Hbad|Hbad].
    + destruct (Hs first ltac:(set_solver)) as (_ & ? & _). bool_simpl. lia.
    + apply existsb_exists in Hbad as (s & Hsin & Hb). apply list_elem_of_In in Hsin.
      destruct (Hs s Hsin) as (Ht & _ & Hw). by rewrite Ht, Hw, Z.eqb_refl in Hb.
  - intros H. apply tx_bind_Raise in H as [H|(? & ? & ? & [=])]. by eapply charge_owned_Raise.
Qed.

Lemma charge_ledgers_Raise now segments ledgers db e db' :
  segments_agree now segments → Forall (λ s, open_segment s = true) segments →
  charge_ledgers now segments ledgers db = (Raise e, db') → e = persistence_error.
Proof.
  intros Hag Ho. revert db db'. induction ledgers as [|l ledgers IH]; intros db db' H; [done|].
  cbn [charge_ledgers] in H. apply tx_bind_Raise in H as [H|(? & ? & _ & H)]; [by eapply charge_ledger_Raise|].
  apply tx_bind_Raise in H as [H|(? & ? & _ & [=])]. by eapply IH.
Qed.

Lemma store_ledgers_Raise now items db e db' :
  for_rows items (store_ledger now) db = (Raise e, db') → e = persistence_error.
Proof.
  revert db. induction items as [|[l c] items IH]; intros db H; cbn [for_rows] in H; [done|].
  apply tx_bind_Raise in H as [H|([] & db1 & _ & H)]; [|by eapply IH].
  unfold store_ledger in H. apply tx_bind_Raise in H as [H|(? & ? & _ & [=])]. by eapply decimal_to_db_Raise.
Qed.

Definition open_sorted (db : DB) : list SegmentRow :=
  py_sorted (λ a b, String.leb (sg_allocation_id a) (sg_allocation_id b))
    (List.filter open_segment (rows db T_allocation_ledger_segments)).

Lemma open_sorted_elem db s :
  s ∈ open_sorted db ↔ s ∈ rows db T_allocation_ledger_segments ∧ open_segment s = true.
Proof. unfold open_sorted. rewrite py_sorted_elem, elem_of_List_filter. tauto. Qed.

Definition time_regressed (ledgers : list LedgerRow) (now : Z) (strict : bool) (clock : Z) : bool :=
  existsb (λ l, now <? fl_accounted_through l) ledgers &&
  existsb (λ l, (if strict then now else clock) <? fl_accounted_through l) ledgers.

Lemma charge_locked_unfold ledgers now strict clock db :
  charge_locked ledgers now strict clock db =
  if time_regressed ledgers now strict clock then (Raise regressed, db)
  else (charges ← charge_ledgers now (open_sorted db) ledgers; for_rows charges (store_ledger now)) db.
Proof.
  unfold charge_locked, time_regressed. unfold mbind at 1, se_bind at 1, se_when, se_lift.
  destruct (_ && _); reflexivity.
Qed.

Lemma charge_locked_Raise ledgers now strict clock db e db' :
  segments_agree now (rows db T_allocation_ledger_segments) →
  charge_locked ledgers now strict clock db = (Raise e, db') →
  e = persistence_error ∨ e = regressed ∧ time_regressed ledgers now strict clock = true.
Proof.
  intros Hag. rewrite charge_locked_unfold. destruct (time_regressed _ _ _ _); [intros [= <- <-]; auto|].
  intros H. left. apply tx_bind_Raise in H as [H|(? & ? & _ & H)]; [|by eapply store_ledgers_Raise].
  eapply charge_ledgers_Raise; [| |exact H].
  - intros s s' Hs Hs'. apply open_sorted_elem in Hs as [? _], Hs' as [? _]. by apply Hag.
  - apply Forall_forall. intros s Hs. by apply open_sorted_elem in Hs as [_ ?].
Qed.

(** Charging changes only the charged amounts of segments. *)
Definition seg_bounds (s : SegmentRow) := (sg_tenant_id s, sg_started_at s, sg_ended_at s, sg_weight s).

Lemma update_bounds {R K} (key : R → K) p f (l : list R) :
  (∀ s, key (f s) = key s) → key <$> ((λ s, if p s : bool then f s else s) <$> l) = key <$> l.
Proof.
  intros Hf. rewrite <- list_fmap_compose. apply list_fmap_ext. intros i s _. simpl. by destruct (p s).
Qed.

Lemma charge_owned_bounds owned charge elapsed assigned db u db' :
  charge_owned owned charge elapsed assigned db = (Ret u, db') →
  seg_bounds <$> rows db' T_allocation_ledger_segments = seg_bounds <$> rows db T_allocation_ledger_segments.
Proof.
  revert assigned db. induction owned as [|s owned IH]; intros assigned db H; cbn [charge_owned] in H.
  { by tx H. }
  apply tx_bind_Ret in H as (d & db1 & [-> ->]%decimal_to_db_Ret & H).
  tx H. apply IH in H. rewrite H, modify_same. by apply update_bounds.
Qed.

Lemma charge_ledgers_bounds now segments ledgers db cs db' :
  charge_ledgers now segments ledgers db = (Ret cs, db') →
  seg_bounds <$> rows db' T_allocation_ledger_segments = seg_bounds <$> rows db T_allocation_ledger_segments.
Proof.
  revert db cs. induction ledgers as [|l ledgers IH]; intros db cs H; cbn [charge_ledgers] in H; [by tx H|].
  apply tx_bind_Ret in H as (c & db1 & H1 & H). apply tx_bind_Ret in H as (cs' & db2 & H2 & H). tx H.
  rewrite (IH _ _ H2). unfold charge_ledger in H1. destruct (List.filter _ _); [by tx H1|].
  destruct (_ || _); [done|]. apply tx_bind_Ret in H1 as ([] & db3 & H1 & H3). tx H3.
  by eapply charge_owned_bounds.
Qed.

Lemma charge_locked_bounds ledgers now strict clock db u db' :
  charge_locked ledgers now strict clock db = (Ret u, db') →
  seg_bounds <$> rows db' T_allocation_ledger_segments = seg_bounds <$> rows db T_allocation_ledger_segments.
Proof.
  rewrite charge_locked_unfold. destruct (time_regressed _ _ _ _); [done|]. intros H.
  apply tx_bind_Ret in H as (cs & db1 & H1 & H). rewrite <- (charge_ledgers_bounds _ _ _ _ _ _ H1).
  assert (only_writes [T_fairness_ledgers] (for_rows cs (store_ledger now))) as Hw by writes.
  by rewrite (proj1 (Hw _ _ _ H) T_allocation_ledger_segments) by set_solver.
Qed.

Lemma segments_agree_bounds t l l' :
  seg_bounds <$> l' = seg_bounds <$> l → segments_agree t l → segments_agree t l'.
Proof.
  intros Heq Hag.
  assert (∀ s, s ∈ l' → ∃ s0, s0 ∈ l ∧ seg_bounds s0 = seg_bounds s) as Hfind.
  { intros s Hs. assert (seg_bounds s ∈ seg_bounds <$> l') as H by (apply list_elem_of_fmap; eauto).
    rewrite Heq in H. apply list_elem_of_fmap in H as (s0 & ? & ?). eauto. }
  intros s s' Hs Hs' Ho Ho' Ht.
  destruct (Hfind s Hs) as (r & Hr & [= E1 E2 E3 E4]), (Hfind s' Hs') as (r' & Hr' & [= F1 F2 F3 F4]).
  unfold open_segment in *. rewrite <- E2, <- E4, <- F2, <- F4. apply Hag; unfold open_segment; congruence.
Qed.

Lemma segments_agree_mono t t' l : t ≤ t' → segments_agree t l → segments_agree t' l.
Proof. intros Ht Hag s s' ? ? ? ? ?. destruct (Hag s s') as (? & ? & ?); [done..|]. split_and!; [done|lia|done]. Qed.

(** The schema's check constraint on tenant weights. *)
Definition weights_ok (db : DB) : Prop :=
  Forall (λ p, is_finite (tq_weight p) = true) (rows db T_tenant_policies).

Lemma rebase_agree now db u db' :
  rebase_locked now db = (Ret u, db') → weights_ok db →
  segments_agree now (rows db' T_allocation_ledger_segments).
Proof.
  intros H Hw s s' Hs Hs' Ho Ho' Ht. apply rebase_open in H as [Hf Hk]. rewrite Forall_forall in Hf.
  assert (∀ s, s ∈ rows db' T_allocation_ledger_segments → open_segment s = true →
    sg_started_at s = now ∧ ∃ p, (sg_tenant_id s, p) ∈ current_policies db ∧ tq_weight p = sg_weight s) as Hof.
  { clear s s' Hs Hs' Ho Ho' Ht. intros s Hs Ho.
    assert (s ∈ List.filter open_segment (rows db' T_allocation_ledger_segments)) as Hin
      by by apply elem_of_List_filter.
    split; [by apply Hf|].
    assert (seg_key s ∈ mjoin (tenant_keys (sorted_held db) <$> current_policies db)) as Hks
      by (rewrite <- Hk; apply list_elem_of_fmap; eauto).
    apply list_elem_of_join in Hks as (ks & Hks & ([t p] & -> & Hp)%list_elem_of_fmap).
    apply list_elem_of_fmap in Hks as (a & [= _ Ht Hwt] & _). exists p.
    pose proof (current_policies_elem _ _ _ Hp) as (-> & _). split; [|done]. by rewrite Ht. }
  destruct (Hof s Hs Ho) as (Hn & p & Hp & Hpw), (Hof s' Hs' Ho') as (Hn' & p' & Hp' & Hpw').
  split_and!; [congruence|lia|]. rewrite <- Ht in Hp'.
  assert (p' = p) as ->.
  { assert (NoDup (current_policies db).*1) as Hnd by apply dict_of_NoDup.
    pose proof (dict_elem_get _ _ _ Hnd Hp). pose proof (dict_elem_get _ _ _ Hnd Hp'). congruence. }
  rewrite <- Hpw, <- Hpw'. unfold dec_eqb. rewrite dec_leb_refl; [done|].
  unfold weights_ok in Hw. rewrite Forall_forall in Hw. apply Hw. by apply current_policies_elem in Hp as (_ & ? & _).
Qed.

(** ** Histories of ledger operations *)

Inductive LedgerOp :=
| Heartbeat (clock boundary : Z)
| Account (now clock : Z)
| Rebase (now : Z)
| Other (f : DB → DB).

Definition run_ledger (op : LedgerOp) : Tx () :=
  match op with
  | Heartbeat clock boundary =>
      ledgers ← lock_ledgers clock false; charge_locked ledgers boundary true boundary
  | Account now clock => account_locked now clock
  | Rebase now => rebase_locked now
  | Other f => λ db, (Ret (), f db)
  end.

(** A transaction that raises is rolled back. *)
Definition ledger_step (db : DB) (op : LedgerOp) : DB :=
  match run_ledger op db with
  | (Ret _, db') => db'
  | (Raise _, _) => db
  end.

(** Charges and rebases happen no earlier than the last rebase, and nothing else
    touches segments or stores a weight that is not finite. *)
Fixpoint timely (last : Z) (ops : list LedgerOp) : Prop :=
  match ops with
  | [] => True
  | Heartbeat _ boundary :: ops => last ≤ boundary ∧ timely last ops
  | Account now _ :: ops => last ≤ now ∧ timely last ops
  | Rebase now :: ops => last ≤ now ∧ timely now ops
  | Other f :: ops =>
      (∀ db, rows (f db) T_allocation_ledger_segments = rows db T_allocation_ledger_segments ∧
             (weights_ok db → weights_ok (f db))) ∧ timely last ops
  end.

Lemma run_ledger_weights op db u db' :
  match op with Other _ => False | _ => True end → run_ledger op db = (Ret u, db') →
  rows db' T_tenant_policies = rows db T_tenant_policies.
Proof.
  assert (∀ ts (m : Tx ()), only_writes ts m → T_tenant_policies ∉ ts → m db = (Ret u, db') →
            rows db' T_tenant_policies = rows db T_tenant_policies) as Hgen
    by (intros ts m Hm Ht H; by apply (Hm _ _ _ H)).
  destruct op as [c b|n c|n|f]; intros Hop; [..|done].
  - apply (Hgen [T_allocation_ledger_segments; T_fairness_ledgers; T_fairness_state]); [|set_solver].
    cbn [run_ledger]. writes.
  - eapply Hgen; [apply account_locked_writes|set_solver].
  - eapply Hgen; [apply rebase_locked_writes|set_solver].
Qed.

Lemma lock_ledgers_total now ensure db : ∃ l db1, lock_ledgers now ensure db = (Ret l, db1).
Proof.
  assert (∀ (policies : list TenantPolicyRow) body db, (∀ p db, ∃ db1, body p db = (Ret (), db1)) →
            ∃ db1, for_rows policies body db = (Ret (), db1)) as Hfor.
  { induction policies as [|p policies IH]; intros body db0 Hb; cbn [for_rows]; [by eexists|].
    destruct (Hb p db0) as [db1 H1], (IH body db1 Hb) as [db2 H2]. exists db2.
    apply tx_bind_Ret. eauto. }
  assert (∀ t p r db, ∃ db1, insert_new t p r db = (Ret (), db1)) as Hins.
  { intros t p r db0. unfold insert_new. destruct (existsb _ _); by eexists. }
  unfold lock_ledgers.
  assert (∃ db1, (if ensure then insert_new T_fairness_state
             (λ r, bool_decide (fs_singleton_key r = "local")) (MkFairnessRow "local" dec_zero)
           else mret ()) db = (Ret (), db1)) as [db1 H1] by (destruct ensure; [apply Hins|by eexists]).
  destruct (Hfor (List.filter tq_is_current (rows db1 T_tenant_policies))
    (λ p, insert_new T_fairness_ledgers (λ r, bool_decide (fl_tenant_id r = tq_tenant_id p))
          (MkLedgerRow (tq_tenant_id p) dec_zero now false 1)) db1 ltac:(intros; apply Hins)) as [db2 H2].
  eexists _, db2. rewrite tx_bind_Ret. exists (), db1. split; [done|].
  rewrite tx_bind_Ret. eexists _, db1. split; [done|].
  rewrite tx_bind_Ret. eexists (), db2. split; [exact H2|]. reflexivity.
Qed.

(** Charging after locking the ledgers, on either path. *)
Lemma lock_charge_spec last ensure clock now strict seen db :
  segments_agree last (rows db T_allocation_ledger_segments) → last ≤ now →
  match (ledgers ← lock_ledgers clock ensure; charge_locked ledgers now strict seen) db with
  | (Ret _, db') => segments_agree last (rows db' T_allocation_ledger_segments)
  | (Raise e, _) => e = persistence_error ∨ e = regressed
  end.
Proof.
  intros Hag Hnow. destruct (lock_ledgers_total clock ensure db) as (l & db1 & H1).
  assert (rows db1 T_allocation_ledger_segments = rows db T_allocation_ledger_segments) as Hsame
    by (apply (lock_ledgers_writes clock ensure _ _ _ H1); set_solver).
  unfold mbind, se_bind. rewrite H1.
  destruct (charge_locked l now strict seen db1) as [[[]|e] db'] eqn:Hc.
  - eapply segments_agree_bounds; [by eapply charge_locked_bounds|]. by rewrite Hsame.
  - eapply charge_locked_Raise in Hc; [naive_solver|]. rewrite Hsame. by eapply segments_agree_mono.
Qed.

Lemma open_segments_Raise policy version now axis capacity aggregate assigned owned db e db' :
  open_segments policy version now axis capacity aggregate assigned owned db = (Raise e, db') →
  e = persistence_error.
Proof.
  revert assigned db. induction owned as [|a owned IH]; intros assigned db H; cbn [open_segments] in H; [done|].
  tx H. apply tx_bind_Raise in H as [H|(d & db1 & H1 & H)]; [by eapply decimal_to_db_Raise|].
  tx H. by eapply IH.
Qed.

Lemma rebase_tenants_Raise held inventory version now items db e db' :
  for_rows items (rebase_tenant held inventory version now) db = (Raise e, db') →
  e = persistence_error ∨ e = RuntimeError "held resources exceed current capacity".
Proof.
  revert db. induction items as [|[t p] items IH]; intros db H; cbn [for_rows] in H; [done|].
  apply tx_bind_Raise in H as [H|([] & db1 & _ & H)]; [|by eapply IH].
  unfold rebase_tenant in H. destruct (List.filter _ _); [done|].
  destruct (existsb _ _); [injection H as <- <-; by right|]. left. by eapply open_segments_Raise.
Qed.

Lemma one_Raise {A} (l : list A) db e db' :
  one l db = (Raise e, db') → e = NoResultFound ∨ e = MultipleResultsFound.
Proof. destruct l as [|? [|]]; intros [= <- <-]; auto. Qed.
Lemma one_or_none_Raise {A} (l : list A) db e db' :
  one_or_none l db = (Raise e, db') → e = NoResultFound ∨ e = MultipleResultsFound.
Proof. destruct l as [|? [|]]; intros [= <- <-]; auto. Qed.

Lemma rebase_locked_Raise now db e db' : rebase_locked now db = (Raise e, db') → e ≠ inconsistent.
Proof.
  unfold rebase_locked. intros H. tx H. cbv zeta in H. tx H.
  apply tx_bind_Raise in H as [H|(inv & db1 & H1 & H)]; [by apply one_or_none_Raise in H as [->| ->]|].
  apply one_or_none_Ret in H1 as [_ ->].
  apply tx_bind_Raise in H as [H|([] & db1 & H1 & H)].
  { unfold se_when, se_lift, raise_when in H. destruct (_ && _); [|done]. by injection H as <- _. }
  assert (db1 = db) as -> by by injection H1. tx H.
  apply tx_bind_Raise in H as [H|(v & db1 & H2 & H)]; [by apply one_Raise in H as [->| ->]|].
  apply one_Ret in H2 as [_ ->]. tx H.
  destruct (py_sorted _ _); [done|]. destruct inv; [|done].
  by apply rebase_tenants_Raise in H as [->| ->].
Qed.

Lemma run_ledger_spec last op ops db :
  segments_agree last (rows db T_allocation_ledger_segments) → weights_ok db → timely last (op :: ops) →
  (∀ e db', run_ledger op db = (Raise e, db') → e ≠ inconsistent) ∧
  ∃ last', segments_agree last' (rows (ledger_step db op) T_allocation_ledger_segments) ∧
    weights_ok (ledger_step db op) ∧ timely last' ops.
Proof.
  intros Hag Hw Ht. unfold ledger_step.
  assert (∀ u db', match op with Other _ => False | _ => True end → run_ledger op db = (Ret u, db') →
            weights_ok db') as Hw'.
  { intros u db' Hop H. unfold weights_ok. by rewrite (run_ledger_weights op db u db' Hop H). }
  destruct op as [c b|n c|n|f].
  - destruct Ht as [Hb Ht]. pose proof (lock_charge_spec last false c b true b db Hag Hb) as Hs.
    cbn [run_ledger] in *.
    destruct ((ledgers ← lock_ledgers c false; charge_locked ledgers b true b) db) as [[[]|e] db'].
    + split; [done|]. exists last. eauto.
    + split; [|by exists last]. intros ? ? [= <- <-]. by destruct Hs as [->| ->].
  - destruct Ht as [Hb Ht]. pose proof (lock_charge_spec last true n n false c db Hag Hb) as Hs.
    cbn [run_ledger] in *. change (account_locked n c db) with
      ((ledgers ← lock_ledgers n true; charge_locked ledgers n false c) db) in *.
    destruct ((ledgers ← lock_ledgers n true; charge_locked ledgers n false c) db) as [[[]|e] db'].
    + split; [done|]. exists last. eauto.
    + split; [|by exists last]. intros ? ? [= <- <-]. by destruct Hs as [->| ->].
  - destruct Ht as [Hb Ht]. cbn [run_ledger] in *. destruct (rebase_locked n db) as [[[]|e] db'] eqn:Hr.
    + split; [done|]. exists n. split_and!; [by eapply rebase_agree|by eapply Hw'|done].
    + split; [intros ? ? [= <- <-]; by eapply rebase_locked_Raise|].
      exists n. split_and!; [by eapply segments_agree_mono|done..].
  - destruct Ht as [Hf Ht]. destruct (Hf db) as [Hseg Hwf]. simpl. split; [done|].
    exists last. rewrite Hseg. auto.
Qed.


(** ** The charge *)

Definition tenant_open (segments : list SegmentRow) (l : LedgerRow) : list SegmentRow :=
  List.filter (λ s, bool_decide (sg_tenant_id s = fl_tenant_id l)) segments.

(** The tenant's aggregate share, over the time not yet accounted, by its weight. *)
Definition charge_for (now : Z) (segments : list SegmentRow) (l : LedgerRow) : decimal :=
  match tenant_open segments l with
  | [] => dec_zero
  | first :: _ =>
      dec_div
        (dec_mul (share_sum (tenant_open segments l))
           (_elapsed_seconds (Z.max (fl_accounted_through l) (sg_started_at first)) now))
        (sg_weight first)
  end.

Definition charged_ledger (now : Z) (segments : list SegmentRow) (l r : LedgerRow) : LedgerRow :=
  r <| fl_virtual_score := dec_add (fl_virtual_score l) (charge_for now segments l) |>
    <| fl_accounted_through := now |> <| fl_version := fl_version l + 1 |>.

Lemma charge_ledgers_value now segments ledgers db cs db' :
  charge_ledgers now segments ledgers db = (Ret cs, db') →
  cs = (λ l, (l, charge_for now segments l)) <$> ledgers.
Proof.
  revert db cs. induction ledgers as [|l ledgers IH]; intros db cs H; cbn [charge_ledgers] in H; [by tx H|].
  apply tx_bind_Ret in H as (c & db1 & H1 & H). apply tx_bind_Ret in H as (cs' & db2 & H2 & H). tx H.
  rewrite (IH _ _ H2), fmap_cons. f_equal. f_equal.
  unfold charge_ledger in H1. unfold charge_for. fold (tenant_open segments l) in H1.
  destruct (tenant_open segments l); [by tx H1|].
  destruct (_ || _); [done|]. apply tx_bind_Ret in H1 as ([] & db3 & _ & H1). by tx H1.
Qed.

Lemma store_ledgers_rows now segments ledgers db u db' :
  NoDup (fl_tenant_id <$> ledgers) →
  for_rows ((λ l, (l, charge_for now segments l)) <$> ledgers) (store_ledger now) db = (Ret u, db') →
  rows db' T_fairness_ledgers =
    (λ r, match List.find (λ l, bool_decide (fl_tenant_id r = fl_tenant_id l)) ledgers with
          | Some l => charged_ledger now segments l r
          | None => r
          end) <$> rows db T_fairness_ledgers.
Proof.
  revert db. induction ledgers as [|l ledgers IH]; intros db Hnd H; rewrite ?fmap_cons, ?fmap_nil in H; cbn [for_rows] in H.
  { tx H. symmetry. apply list_fmap_id. }
  rewrite fmap_cons in Hnd. apply NoDup_cons in Hnd as [Hl Hnd].
  apply tx_bind_Ret in H as ([] & db1 & H1 & H). unfold store_ledger in H1.
  apply tx_bind_Ret in H1 as (sc & db2 & [-> ->]%decimal_to_db_Ret & H1).
  injection H1 as <-. rewrite (IH _ Hnd H), modify_same, <- list_fmap_compose.
  apply list_fmap_ext. intros i r _. cbn [List.find]. unfold compose.
  destruct (bool_decide_reflect (fl_tenant_id r = fl_tenant_id l)) as [Heq|Hne]; [|done].
  destruct (List.find _ ledgers) as [l'|] eqn:Hfind; [|done].
  apply List.find_some in Hfind as [Hin%list_elem_of_In Ht]. bool_simpl. exfalso. apply Hl.
  apply list_elem_of_fmap. exists l'. split; [|done]. by rewrite <- Heq.
Qed.

(** one charge ([charge_locked] on the ledger rows as locked): it raises a
    regression exactly when database time is behind an accounted boundary on both
    readings, and leaves the database as it was then; when it returns, every ledger
    row gains its tenant's aggregate open share times the time since the later of
    its boundary and the segments' start, divided by the weight, moves its boundary
    to [now] and increments its version, and nothing but ledgers and segments
    changes. *)
Theorem charge_locked_effect (ledgers : list LedgerRow) now strict clock db :
  ledgers ≡ₚ rows db T_fairness_ledgers → NoDup (fl_tenant_id <$> rows db T_fairness_ledgers) →
  (time_regressed ledgers now strict clock = true →
     charge_locked ledgers now strict clock db = (Raise regressed, db)) ∧
  ∀ u db', charge_locked ledgers now strict clock db = (Ret u, db') →
    time_regressed ledgers now strict clock = false ∧
    rows db' T_fairness_ledgers =
      (λ r, charged_ledger now (open_sorted db) r r) <$> rows db T_fairness_ledgers ∧
    ∀ t, t ≠ T_fairness_ledgers → t ≠ T_allocation_ledger_segments → rows db' t = rows db t.
Proof.
  intros Hperm Hnd. rewrite charge_locked_unfold. destruct (time_regressed _ _ _ _); [done|].
  split; [done|]. intros u db' H. split; [done|].
  split; [|intros t Ht Ht'; pose proof (charge_locked_writes ledgers now strict clock db) as Hw].
  - apply tx_bind_Ret in H as (cs & db1 & H1 & H).
    assert (rows db1 T_fairness_ledgers = rows db T_fairness_ledgers) as Hsame
      by (apply (charge_ledgers_writes _ _ _ _ _ _ H1); set_solver).
    apply charge_ledgers_value in H1 as ->.
    apply store_ledgers_rows in H; [|by rewrite Hperm]. rewrite H, Hsame.
    apply list_fmap_ext. intros i r Hr%list_elem_of_lookup_2.
    destruct (List.find (λ l, bool_decide (fl_tenant_id r = fl_tenant_id l)) ledgers) as [l|] eqn:Hf.
    + apply List.find_some in Hf as [Hl%list_elem_of_In Ht]. bool_simpl.
      rewrite Hperm in Hl.
      assert (l = r) as ->; [|done]. by eapply (NoDup_fmap_elem fl_tenant_id).
    + exfalso. eapply List.find_none in Hf; [by rewrite bool_decide_true in Hf|].
      apply list_elem_of_In. by rewrite Hperm.
  - apply tx_bind_Ret in H as (cs & db1 & H1 & H).
    assert (only_writes [T_fairness_ledgers] (for_rows cs (store_ledger now))) as Hs by writes.
    rewrite (proj1 (Hs _ _ _ H) t) by set_solver.
    apply (charge_ledgers_writes _ _ _ _ _ _ H1). set_solver.
Qed.

(** ** A sample: two tenants, three allocations, one of them released *)

Definition sample_allocation (i t : string) (cpu : Z) (st : AllocState) : AllocationRow :=
  MkAllocationRow i t ("job-" +:+ i) ("att-" +:+ i) "w" cpu 1024 0 st 0 None None None 1.

Definition sample_ledger_db : DB :=
  set_rows T_allocations
    [sample_allocation "a1" "t1" 1000 AL_HELD; sample_allocation "a2" "t1" 2000 AL_QUARANTINED;
     sample_allocation "a3" "t2" 1000 AL_RELEASED]
  (set_rows T_tenant_policies
    [MkTenantPolicyRow "t1" 1 (Finite 2 0) 8000 8192 0 true 100 10 8 4 (Finite 5 0) (Finite 20 0) (Finite 2 0) (Finite 10 0);
     MkTenantPolicyRow "t2" 1 (Finite 1 0) 8000 8192 0 true 100 10 8 4 (Finite 5 0) (Finite 20 0) (Finite 2 0) (Finite 10 0)]
  (set_rows T_policy_versions [MkPolicyRow 1 NORMAL true 1000]
  (set_rows T_workers [MkWorkerRow "w" "ENABLED" "READY" (Some "inc") (Some 1) (Some 0) None 1]
  (set_rows T_worker_inventories [MkInventoryRow "inv" "w" "inc" 1 "linux/amd64" 4000 8192 0 VNone 8000 16384 VNone "sha256:inv"]
  (set_rows T_fairness_ledgers
    [MkLedgerRow "t1" (Finite 5 0) 0 true 3; MkLedgerRow "t2" (Finite 4 0) 0 false 1] empty_db))))).

Definition sample_rebased : DB := (rebase_locked 1000000 sample_ledger_db).2.

Lemma rebase_charges_exactly_held_witness :
  sg_allocation_id <$> List.filter open_segment (rows sample_rebased T_allocation_ledger_segments)
  ≡ₚ ["a1"; "a2"].
Proof.
  apply (rebase_charges_exactly_held 1000000 sample_ledger_db () sample_rebased).
  - vm_compute. reflexivity.
  - apply (bool_decide_unpack _). vm_compute. reflexivity.
  - intros a Ha Hu. change (rows sample_ledger_db T_allocations) with
      [sample_allocation "a1" "t1" 1000 AL_HELD; sample_allocation "a2" "t1" 2000 AL_QUARANTINED;
       sample_allocation "a3" "t2" 1000 AL_RELEASED] in Ha.
    repeat (apply elem_of_cons in Ha as [->|Ha]; [apply (bool_decide_unpack _); vm_compute; reflexivity|]).
    by apply not_elem_of_nil in Ha.
Defined.


Lemma charge_locked_effect_witness :
  fl_virtual_score <$> rows (charge_locked (rows sample_rebased T_fairness_ledgers) 5000000 true 5000000
    sample_rebased).2 T_fairness_ledgers = [Finite 650 (-2); Finite 4 0].
Proof.
  destruct (charge_locked_effect (rows sample_rebased T_fairness_ledgers) 5000000 true 5000000 sample_rebased
    (reflexivity _) ltac:(apply (bool_decide_unpack _); vm_compute; reflexivity)) as [_ H].
  destruct (H () (charge_locked (rows sample_rebased T_fairness_ledgers) 5000000 true 5000000
    sample_rebased).2 ltac:(vm_compute; reflexivity)) as (_ & -> & _).
  vm_compute. reflexivity.
Defined.
