(* ===== verification/RateLimit.v ===== *)
(** * The submission rate limiter

    [JobService._rate_lock] of [src/nexa/application/job_service.py]: one token bucket
    per scope, refilled by the time since its last use and charged one token per
    accepted submission.  The arithmetic is that of [decimal]'s default context, 28
    digits; on the grid of 10^-12 tokens, which rates of at most six decimals and
    bursts of whole tokens stay on, nothing is rounded, and the limiter is shown to be
    an exact token bucket. *)

From S2P Require Import Prelude PyDecimal PyValue Database Ledger.

Local Open Scope string_scope.
Local Open Scope list_scope.
Local Open Scope Z_scope.

(** ** The bucket *)

(** The precision of the default context. *)
Definition CONTEXT_PREC : Z := 28.
Notation "a ⊕ b" := (dec_add_at CONTEXT_PREC a b) (at level 50, left associativity) : decimal_scope.
Notation "a ⊖ b" := (dec_sub_at CONTEXT_PREC a b) (at level 50, left associativity) : decimal_scope.
Notation "a ⊗ b" := (dec_mul_at CONTEXT_PREC a b) (at level 40, left associativity) : decimal_scope.
Notation "a ⊘ b" := (dec_div_at CONTEXT_PREC a b) (at level 40, left associativity) : decimal_scope.
Local Open Scope decimal_scope.

Definition bucket_row (scope_type scope_id : string) (r : RateBucketRow) : bool :=
  bool_decide (rb_scope_type r = scope_type) && bool_decide (rb_scope_id r = scope_id).

(** [max(Decimal("0"), Decimal(str((now - last).total_seconds())))].  The number of
    seconds is printed and read back exactly while it has at most 15 digits, that is
    for spans below 31 years. *)
Definition elapsed_seconds (now last : Z) : decimal := dec_max dec_zero (Finite (now - last) (-6)).

(** The tokens of a bucket at [now]. *)
Definition refill (row : RateBucketRow) (capacity refill_rate : decimal) (now : Z) : decimal :=
  let elapsed := elapsed_seconds now (rb_last_refill_at row) in
  let tokens := rb_tokens row ⊕ elapsed ⊗ refill_rate in
  dec_max dec_zero (dec_min capacity tokens).

(** [int(d.to_integral_value(rounding="ROUND_CEILING"))]. *)
Definition ceiling (c e : Z) : Z := if 0 <=? e then c * 10 ^ e else - (- c / 10 ^ (- e)).

(** The seconds after which a token is there; a rate of zero is trapped by the
    context. *)
Definition retry_wait (tokens refill_rate : decimal) : outcome SvcError Z :=
  match (dec_of_Z 1 ⊖ tokens) ⊘ refill_rate with
  | Finite c e => Ret (Z.max 1 (ceiling c e))
  | Special => Raise (PyError (Exn "DivisionByZero" ""))
  end.

Section rate_lock.
Context (scope_type scope_id : string) (capacity refill_rate : decimal).

Definition _rate_lock (now : Z) : Tx decimal :=
  _ ← insert_new T_rate_buckets (bucket_row scope_type scope_id)
        (MkRateBucketRow scope_type scope_id capacity capacity refill_rate now 1);
  found ← select T_rate_buckets (bucket_row scope_type scope_id);
  row ← one found;
  let tokens := refill row capacity refill_rate now in
  if dec_ltb tokens (dec_of_Z 1) then
    wait ← se_lift (retry_wait tokens refill_rate);
    se_raise (ApplicationErrorAfter "rate_limited" 429 "Submit rate limit exceeded" wait)
  else
    _ ← update_ T_rate_buckets (bucket_row scope_type scope_id)
          (λ r, r <| rb_tokens := tokens ⊖ dec_of_Z 1 |> <| rb_capacity := capacity |>
                  <| rb_refill_rate := refill_rate |> <| rb_last_refill_at := now |>
                  <| rb_version := rb_version r + 1 |>);
    mret (tokens ⊖ dec_of_Z 1).

End rate_lock.

(** ** The grid

    [on_grid d n]: [d] is [n] times 10^-12. *)
Definition on_grid (d : decimal) (n : Z) : Prop := ∃ c e, d = Finite c e ∧ -12 ≤ e ∧ units c e (-12) = n.
(** A rate of [n] millionths of a token per second. *)
Definition rate_is (d : decimal) (n : Z) : Prop := ∃ c e, d = Finite c e ∧ -6 ≤ e ∧ units c e (-6) = n.

Lemma units_abs c e m : m ≤ e → Z.abs c ≤ Z.abs (units c e m).
Proof.
  intros. unfold units. rewrite Z.abs_mul. pose proof (pow10_pos (e - m) ltac:(lia)).
  rewrite (Z.abs_eq (10 ^ (e - m))) by lia. nia.
Qed.

Lemma grid_leb a b x y : on_grid a x → on_grid b y → dec_leb a b = true ↔ x ≤ y.
Proof. intros (c & e & -> & He & <-) (c' & e' & -> & He' & <-). by apply dec_leb_units. Qed.

Lemma on_grid_inj a x y : on_grid a x → on_grid a y → x = y.
Proof. intros (c & e & -> & _ & <-) (c' & e' & [= <- <-] & _ & <-). done. Qed.

Lemma grid_finite a x : on_grid a x → is_finite a = true.
Proof. by intros (c & e & -> & _). Qed.

Lemma grid_ltb a b x y : on_grid a x → on_grid b y → dec_ltb a b = (x <? y).
Proof.
  intros Ha Hb. rewrite dec_ltb_negb by eauto using grid_finite. apply eq_true_iff_eq.
  rewrite negb_true_iff, <- not_true_iff_false, (grid_leb b a y x), Z.ltb_lt by done. lia.
Qed.

Lemma grid_int n : on_grid (dec_of_Z n) (n * 10 ^ 12).
Proof. by exists n, 0. Qed.

Lemma grid_zero : on_grid dec_zero 0.
Proof. by exists 0, 0. Qed.

Lemma grid_add a b x y : on_grid a x → on_grid b y → Z.abs (x + y) < 10 ^ CONTEXT_PREC → on_grid (a ⊕ b) (x + y).
Proof.
  intros (c & e & -> & He & Hx) (c' & e' & -> & He' & Hy) Hlt. unfold dec_add_at. set (m := Z.min e e').
  assert (units (c * 10 ^ (e - m) + c' * 10 ^ (e' - m)) m (-12) = x + y) as Hs.
  { subst x y. rewrite (units_shift c e m), (units_shift c' e' m) by lia. unfold units. lia. }
  pose proof (units_abs (c * 10 ^ (e - m) + c' * 10 ^ (e' - m)) m (-12) ltac:(lia)) as Hb. rewrite Hs in Hb.
  rewrite dec_fix_at_exact by (unfold CONTEXT_PREC in *; lia). eexists _, _. split; [done|]. split; [lia|done].
Qed.

Lemma grid_sub a b x y : on_grid a x → on_grid b y → Z.abs (x - y) < 10 ^ CONTEXT_PREC → on_grid (a ⊖ b) (x - y).
Proof.
  intros Ha (c & e & -> & He & Hy) Hlt. apply (grid_add a (Finite (- c) e) x (- y) Ha); [|done].
  exists (- c), e. split_and!; [done..|]. subst y. unfold units. lia.
Qed.

Lemma grid_max a b x y : on_grid a x → on_grid b y → on_grid (dec_max a b) (Z.max x y).
Proof.
  intros Ha Hb. unfold dec_max. rewrite (grid_ltb a b x y) by done.
  destruct (Z.ltb_spec x y); [by rewrite Z.max_r by lia|by rewrite Z.max_l by lia].
Qed.

Lemma grid_min a b x y : on_grid a x → on_grid b y → on_grid (dec_min a b) (Z.min x y).
Proof.
  intros Ha Hb. unfold dec_min. rewrite (grid_ltb b a y x) by done.
  destruct (Z.ltb_spec y x); [by rewrite Z.min_r by lia|by rewrite Z.min_l by lia].
Qed.

(** A span of [n] microseconds refills [n * R]. *)
Lemma grid_elapsed now last rate R :
  rate_is rate R → 0 ≤ R → Z.max 0 (now - last) * R < 10 ^ CONTEXT_PREC →
  on_grid (elapsed_seconds now last ⊗ rate) (Z.max 0 (now - last) * R).
Proof.
  intros (c & e & -> & He & HR) HR0 Hlt. unfold elapsed_seconds, dec_max.
  rewrite (grid_ltb dec_zero (Finite (now - last) (-6)) 0 ((now - last) * 10 ^ 6) grid_zero) by (by exists (now - last), (-6)).
  pose proof (units_abs c e (-6) He) as Hc. rewrite HR in Hc.
  destruct (Z.ltb_spec 0 ((now - last) * 10 ^ 6)); unfold dec_mul_at.
  - rewrite Z.max_r in * by lia. rewrite dec_fix_at_exact by (unfold CONTEXT_PREC in *; nia).
    eexists _, _. split; [done|]. split; [lia|]. subst R. unfold units.
    replace (-6 + e - -12) with (e - -6) by lia. lia.
  - rewrite Z.max_l by lia. simpl. rewrite dec_fix_at_exact by (unfold CONTEXT_PREC; lia).
    eexists _, _. split; [done|]. split; [lia|]. unfold units. lia.
Qed.

(** ** The bucket on the grid *)

(** Bounds under which nothing is rounded: at most 10^9 tokens, at most 10^6 tokens
    per second, and spans below 10^15 microseconds. *)
Definition MAX_TOKENS : Z := 10 ^ 21.
Definition MAX_RATE : Z := 10 ^ 12.
Definition MAX_SPAN : Z := 10 ^ 15.

Lemma grid_refill row capacity rate now T C R :
  on_grid (rb_tokens row) T → on_grid capacity C → rate_is rate R →
  0 ≤ T ≤ MAX_TOKENS → 0 ≤ R ≤ MAX_RATE → now - rb_last_refill_at row ≤ MAX_SPAN →
  on_grid (refill row capacity rate now)
    (Z.max 0 (Z.min C (T + Z.max 0 (now - rb_last_refill_at row) * R))).
Proof.
  intros HT HC HR HTb HRb Hspan. unfold refill.
  assert (Z.max 0 (now - rb_last_refill_at row) * R ≤ 10 ^ 27) as Hb.
  { change (10 ^ 27) with (MAX_SPAN * MAX_RATE). apply Z.mul_le_mono_nonneg; unfold MAX_SPAN in *; lia. }
  apply grid_max; [apply grid_zero|]. apply grid_min; [done|]. apply grid_add; [done| |].
  - apply grid_elapsed; [done|lia|]. unfold CONTEXT_PREC. lia.
  - unfold MAX_TOKENS, CONTEXT_PREC in *. nia.
Qed.

(** ** The advertised wait *)

Lemma ceiling_ge c e w : dec_ltb (dec_of_Z w) (Finite c e) = true → w < ceiling c e.
Proof.
  unfold dec_ltb, dec_of_Z, ceiling. rewrite Z.ltb_lt. destruct (Z.leb_spec 0 e).
  - rewrite Z.min_l, !Z.sub_0_r, Z.mul_1_r by lia. done.
  - rewrite Z.min_r, Z.sub_diag, Z.mul_1_r by lia. replace (0 - e) with (- e) by lia. intros Hlt.
    pose proof (pow10_pos (- e) ltac:(lia)). pose proof (Z.mul_div_le (- c) (10 ^ (- e)) ltac:(lia)). nia.
Qed.

(** A quotient above [w] seconds is not rounded down to [w]. *)
Lemma quotient_above c1 e1 c2 e2 w :
  let a := units c1 e1 (-12) in
  let R := units c2 e2 (-6) in
  0 < c1 → 0 < c2 → -12 ≤ e1 → -6 ≤ e2 → a ≤ 10 ^ 12 → R ≤ MAX_RATE → 0 ≤ w < 10 ^ 6 → seconds w * R < a →
  dec_leb (Finite (w * 10 ^ 18 + 1) (-18)) (Finite c1 e1 ⊘ Finite c2 e2) = true.
Proof.
  intros a R Hc1 Hc2 He1 He2 Ha HRb Hw Hlt. subst a. unfold units, seconds in *.
  pose proof (pow10_pos (e1 - -12) ltac:(lia)) as Hp1. pose proof (pow10_pos (e2 - -6) ltac:(lia)) as Hp2.
  destruct (ndigits_spec c1 Hc1) as (Hd1 & Hlo1 & _), (ndigits_spec c2 Hc2) as (Hd2 & _ & _).
  assert (ndigits c1 + e1 ≤ 1) as Hdig.
  { destruct (Z.le_gt_cases (ndigits c1 + e1) 1) as [|Hgt]; [done|]. exfalso.
    assert (10 ^ 13 ≤ 10 ^ (ndigits c1 - 1) * 10 ^ (e1 - -12)); [|nia].
    rewrite <- pow10_add by lia. apply Z.pow_le_mono_r; lia. }
  apply dec_div_at_lower; unfold CONTEXT_PREC; [lia..|apply Z.ltb_lt; lia|].
  set (sh := ndigits c2 - ndigits c1 + 28 + 1).
  apply (Z.mul_le_mono_pos_r _ _ (10 ^ (e1 - -12) * 10 ^ (e2 - -6))); [nia|].
  replace (-18 - (e1 - e2 - sh)) with (sh + (e2 - -6) - (e1 - -12) - 12) by lia.
  transitivity ((w * 10 ^ 18 + 1) * R * 10 ^ (sh + (e2 - -6) - 12)).
  - apply Z.eq_le_incl. unfold R.
    transitivity ((w * 10 ^ 18 + 1) * (c2 * 10 ^ (e2 - -6)) * (10 ^ (sh + (e2 - -6) - (e1 - -12) - 12) * 10 ^ (e1 - -12)));
      [ring|]. rewrite <- pow10_add by lia. do 2 f_equal. lia.
  - transitivity (c1 * 10 ^ (e1 - -12) * 10 ^ 12 * 10 ^ (sh + (e2 - -6) - 12)).
    + apply Z.mul_le_mono_nonneg_r; [apply Z.pow_nonneg; lia|]. unfold MAX_RATE in *. nia.
    + apply Z.eq_le_incl.
      transitivity (c1 * 10 ^ (e1 - -12) * (10 ^ 12 * 10 ^ (sh + (e2 - -6) - 12))); [ring|].
      rewrite <- pow10_add by lia. replace (12 + (sh + (e2 - -6) - 12)) with (sh + (e2 - -6)) by lia.
      rewrite pow10_add by lia. ring.
Qed.

(** After the advertised seconds a whole token is there. *)
Lemma retry_wait_enough tokens rate L R :
  on_grid tokens L → 0 ≤ L < 10 ^ 12 → rate_is rate R → 0 < R ≤ MAX_RATE →
  ∃ w, retry_wait tokens rate = Ret w ∧ 1 ≤ w ∧ 10 ^ 12 ≤ L + seconds w * R.
Proof.
  intros HL HLb (c2 & e2 & -> & He2 & HR) HRb. unfold retry_wait.
  destruct (grid_sub (dec_of_Z 1) tokens (1 * 10 ^ 12) L (grid_int 1) HL) as (c1 & e1 & -> & He1 & Ha);
    [unfold CONTEXT_PREC; lia|]. rewrite Z.mul_1_l in Ha.
  assert (0 < c1) as Hc1 by (unfold units in Ha; pose proof (pow10_pos (e1 - -12)); nia).
  assert (0 < c2) as Hc2 by (unfold units in HR; pose proof (pow10_pos (e2 - -6)); nia).
  destruct (Finite c1 e1 ⊘ Finite c2 e2) as [c e|] eqn:Hq.
  2:{ unfold dec_div_at in Hq. destruct (Z.eqb_spec c2 0); [lia|]. revert Hq. cbv zeta.
      repeat case_match; unfold dec_fix_at; cbv zeta; repeat case_match; done. }
  eexists. split; [done|]. split; [lia|]. set (w := Z.max 1 (ceiling c e)).
  destruct (Z.le_gt_cases (10 ^ 12) (L + seconds w * R)) as [|Hlt]; [done|exfalso].
  assert (0 ≤ w < 10 ^ 6) as Hw by (unfold seconds in Hlt; nia).
  enough (dec_ltb (dec_of_Z w) (Finite c e) = true) as Hc by (apply ceiling_ge in Hc; unfold w in *; lia).
  assert (dec_leb (Finite (w * 10 ^ 18 + 1) (-18)) (Finite c e) = true) as Hle.
  { rewrite <- Hq. apply quotient_above; rewrite ?Ha, ?HR; lia. }
  rewrite dec_ltb_negb by done. apply negb_true_iff, not_true_iff_false. intros Hge.
  pose proof (dec_leb_trans _ _ _ Hle Hge) as Hbad. apply (dec_leb_units _ _ _ _ (-18)) in Hbad; [|lia..].
  unfold units in Hbad. lia.
Qed.

(** ** What a call does to its bucket *)

Section calls.
Context (scope_type scope_id : string) (capacity refill_rate : decimal).
Local Notation _rate_lock := (_rate_lock scope_type scope_id capacity refill_rate).

Definition bucket (db : DB) : list RateBucketRow :=
  List.filter (bucket_row scope_type scope_id) (rows db T_rate_buckets).

Definition fresh_bucket (now : Z) : RateBucketRow :=
  MkRateBucketRow scope_type scope_id capacity capacity refill_rate now 1.

(** The row a call at [now] works on: a scope without a bucket starts full. *)
Definition bucket_at (now : Z) (db : DB) : RateBucketRow :=
  match bucket db with r :: _ => r | [] => fresh_bucket now end.

Definition spent (now : Z) (r : RateBucketRow) : RateBucketRow :=
  r <| rb_tokens := refill r capacity refill_rate now ⊖ dec_of_Z 1 |> <| rb_capacity := capacity |>
    <| rb_refill_rate := refill_rate |> <| rb_last_refill_at := now |> <| rb_version := rb_version r + 1 |>.

Lemma bucket_row_fresh now : bucket_row scope_type scope_id (fresh_bucket now) = true.
Proof. unfold bucket_row. simpl. by rewrite !bool_decide_eq_true_2. Qed.

Lemma bucket_put_fresh now db :
  bucket (put T_rate_buckets (fresh_bucket now) db) = bucket db ++ [fresh_bucket now].
Proof. unfold bucket. rewrite put_same, List.filter_app. simpl. by rewrite bucket_row_fresh. Qed.

Lemma bucket_exists db : existsb (bucket_row scope_type scope_id) (rows db T_rate_buckets) = true ↔ bucket db ≠ [].
Proof.
  rewrite existsb_exists. unfold bucket. split.
  - intros (r & Hin & Hr) Hnil. assert (In r []) as []. rewrite <- Hnil. by apply filter_In.
  - destruct (List.filter _ _) as [|r l] eqn:Hf; [done|]. intros _. exists r. apply filter_In. rewrite Hf. by left.
Qed.

Lemma insert_new_bucket now db :
  ∃ db1, insert_new T_rate_buckets (bucket_row scope_type scope_id) (fresh_bucket now) db = (Ret (), db1) ∧
    bucket db1 = match bucket db with [] => [fresh_bucket now] | l => l end.
Proof.
  unfold insert_new. destruct (existsb _ _) eqn:Hx.
  - exists db. split; [done|]. apply bucket_exists in Hx. by destruct (bucket db).
  - eexists. split; [done|]. rewrite bucket_put_fresh. apply not_true_iff_false in Hx. rewrite bucket_exists in Hx.
    by destruct (bucket db); [|destruct Hx].
Qed.

Lemma bucket_modify f db :
  (∀ r, bucket_row scope_type scope_id (f r) = bucket_row scope_type scope_id r) →
  bucket (modify T_rate_buckets (bucket_row scope_type scope_id) f db) = f <$> bucket db.
Proof.
  intros Hf. unfold bucket. rewrite modify_same. induction (rows db T_rate_buckets) as [|r l IH]; [done|]. cbn.
  destruct (bucket_row _ _ r) eqn:Hr; [|by rewrite Hr]. rewrite Hf, Hr. cbn. f_equal. apply IH.
Qed.

(** The outcome of a call, by the tokens there are. *)
Lemma rate_lock_eq now db :
  (length (bucket db) ≤ 1)%nat →
  let row := bucket_at now db in
  let tokens := refill row capacity refill_rate now in
  ∃ db', _rate_lock now db =
    (if dec_ltb tokens (dec_of_Z 1) then
       wait ← retry_wait tokens refill_rate;
       Raise (ApplicationErrorAfter "rate_limited" 429 "Submit rate limit exceeded" wait)
     else Ret (tokens ⊖ dec_of_Z 1), db') ∧
    (dec_ltb tokens (dec_of_Z 1) = false → bucket db' = [spent now row]).
Proof.
  intros Hlen row tokens. destruct (insert_new_bucket now db) as (db1 & Hi & Hb).
  assert (bucket db1 = [row]) as Hb1.
  { rewrite Hb. unfold row, bucket_at. destruct (bucket db) as [|r [|]]; [done|done|simpl in Hlen; lia]. }
  unfold _rate_lock. rewrite (tx_bind_eq _ _ db () db1 Hi).
  rewrite (tx_bind_eq _ _ db1 [row] db1) by by apply (select_run T_rate_buckets).
  rewrite (tx_bind_eq _ _ db1 row db1) by done. fold tokens. destruct (dec_ltb tokens (dec_of_Z 1)).
  - exists db1. split; [|done]. unfold se_lift, mbind, se_bind, outcome_bind. by destruct (retry_wait _ _).
  - eexists. split; [done|]. intros _. rewrite bucket_modify by done. by rewrite Hb1.
Qed.

(** ** An exact token bucket *)

Context (C R : Z) (HC : on_grid capacity C) (HR : rate_is refill_rate R)
  (HCb : 0 ≤ C ≤ MAX_TOKENS) (HRb : 0 ≤ R ≤ MAX_RATE).

(** The scope's one row holds [T] and was last refilled at [last]. *)
Definition holds (db : DB) (T last : Z) : Prop :=
  ∃ r, bucket db = [r] ∧ on_grid (rb_tokens r) T ∧ 0 ≤ T ≤ MAX_TOKENS ∧ rb_last_refill_at r = last.

(** No row yet, or one last refilled before [t], by at most [MAX_SPAN]. *)
Definition may_start (t : Z) (db : DB) : Prop :=
  bucket db = [] ∨ ∃ T last, holds db T last ∧ 0 ≤ t - last ≤ MAX_SPAN.

(** The tokens at [now] of a bucket that held [T] at [last]. *)
Definition level (T last now : Z) : Z := Z.max 0 (Z.min C (T + Z.max 0 (now - last) * R)).

Lemma may_start_at t db :
  may_start t db →
  (length (bucket db) ≤ 1)%nat ∧
  ∃ T last, on_grid (rb_tokens (bucket_at t db)) T ∧ 0 ≤ T ≤ MAX_TOKENS ∧
    rb_last_refill_at (bucket_at t db) = last ∧ 0 ≤ t - last ≤ MAX_SPAN ∧
    (holds db T last ∨ bucket db = [] ∧ T = C ∧ last = t).
Proof.
  unfold bucket_at. intros [Hnil|(T & last & (r & Hb & HT & HTb & Hl) & Hs)].
  - rewrite Hnil. split; [simpl; lia|]. exists C, t. simpl. split_and!; try done; [lia..|unfold MAX_SPAN; lia|auto].
  - rewrite Hb. split; [simpl; lia|]. exists T, last. split_and!; try done; [lia..|]. left. by exists r.
Qed.

(** A call at [now] is accepted when a whole token is there, and takes it. *)
Lemma rate_lock_level t db T last :
  (length (bucket db) ≤ 1)%nat →
  on_grid (rb_tokens (bucket_at t db)) T → 0 ≤ T ≤ MAX_TOKENS →
  rb_last_refill_at (bucket_at t db) = last → 0 ≤ t - last ≤ MAX_SPAN →
  let tokens := refill (bucket_at t db) capacity refill_rate t in
  on_grid tokens (level T last t) ∧
  ∃ db', _rate_lock t db =
    (if level T last t <? 10 ^ 12 then
       wait ← retry_wait tokens refill_rate;
       Raise (ApplicationErrorAfter "rate_limited" 429 "Submit rate limit exceeded" wait)
     else Ret (tokens ⊖ dec_of_Z 1), db') ∧
    (10 ^ 12 ≤ level T last t → holds db' (level T last t - 10 ^ 12) t).
Proof.
  intros Hlen HT HTb Hl Hs tokens. subst last.
  pose proof (grid_refill _ _ _ t T C R HT HC HR HTb HRb (proj2 Hs)) as Hg. fold (level T (rb_last_refill_at (bucket_at t db)) t) in Hg. fold tokens in Hg.
  set (L := level _ _ t) in *. assert (0 ≤ L ≤ MAX_TOKENS) as HLb.
  { unfold L, level. split; [lia|]. destruct HCb. lia. }
  split; [done|]. destruct (rate_lock_eq t db Hlen) as (db' & Hrun & Hsp).
  fold tokens in Hrun, Hsp. rewrite (grid_ltb tokens (dec_of_Z 1) L (1 * 10 ^ 12) Hg (grid_int 1)) in Hrun, Hsp.
  rewrite Z.mul_1_l in Hrun, Hsp. exists db'. split; [exact Hrun|]. intros HL.
  destruct (Z.ltb_spec L (10 ^ 12)) as [|_]; [lia|]. eexists. split; [by apply Hsp|]. split_and!; simpl; [|lia..|done].
  apply (grid_sub tokens (dec_of_Z 1) L (1 * 10 ^ 12) Hg (grid_int 1)). unfold MAX_TOKENS, CONTEXT_PREC in *. lia.
Qed.

(** The accepted calls of a scope, at these times, among steps that leave its bucket
    as it is: calls for other scopes, other transactions, and calls that raised, which
    are rolled back. *)
Inductive accepted : DB → list Z → DB → Prop :=
| accepted_done db : accepted db [] db
| accepted_call t ts db x db1 db' : _rate_lock t db = (Ret x, db1) → accepted db1 ts db' → accepted db (t :: ts) db'
| accepted_other ts db db1 db' :
    bucket db1 = bucket db → accepted db1 ts db' → accepted db ts db'.

Lemma rate_lock_takes t db x db1 :
  may_start t db → _rate_lock t db = (Ret x, db1) →
  ∃ T last, (holds db T last ∨ bucket db = [] ∧ T = C ∧ last = t) ∧
    10 ^ 12 ≤ level T last t ∧ holds db1 (level T last t - 10 ^ 12) t.
Proof.
  intros Hs Hrun. destruct (may_start_at t db Hs) as (Hlen & T & last & HT & HTb & Hl & Hsp & Hcase).
  destruct (rate_lock_level t db T last Hlen HT HTb Hl Hsp) as (_ & db' & Hrun' & Hh).
  rewrite Hrun in Hrun'. exists T, last. split; [done|].
  destruct (Z.ltb_spec (level T last t) (10 ^ 12)) as [_|HL].
  - exfalso. revert Hrun'. unfold mbind, outcome_bind. by destruct (retry_wait _ _).
  - injection Hrun' as _ <-. auto.
Qed.

Lemma level_le T last t : 0 ≤ T → last ≤ t → level T last t ≤ T + R * (t - last) ∧ level T last t ≤ C.
Proof. intros HT Ht. unfold level. rewrite (Z.max_r 0 (t - last)) by lia. destruct HRb, HCb. nia. Qed.

Lemma accepted_from db ts db' T last base :
  accepted db ts db' → holds db T last → base ≤ last → StronglySorted Z.le (last :: ts) →
  Forall (λ t, t ≤ base + MAX_SPAN) ts →
  Z.of_nat (length ts) * 10 ^ 12 ≤ T + R * (List.last ts last - last).
Proof.
  intros Hacc. revert T last. induction Hacc as [db|t ts db x db1 db' Hrun _ IH|ts db db1 db' Hsame _ IH];
    intros T last Hh Hbase Hsort Hspan.
  - destruct Hh as (r & _ & _ & ? & _). simpl. lia.
  - apply StronglySorted_inv in Hsort as [Hsort Hle]. apply Forall_cons in Hle as [Hlt _].
    apply Forall_cons in Hspan as [Ht Hspan].
    destruct (rate_lock_takes t db x db1) as (T' & last' & Hcase & HL & Hh1);
      [right; exists T, last; split; [done|lia]|done|].
    destruct Hh as (r & Hb & HT & HTb & Hl).
    assert (T' = T ∧ last' = last) as [-> ->].
    { destruct Hcase as [(r' & Hb' & HT' & _ & Hl')|[Hnil _]]; [|congruence].
      rewrite Hb in Hb'. injection Hb' as <-. split; [by eapply on_grid_inj|congruence]. }
    destruct (level_le T last t) as [HLe _]; [lia|done|].
    pose proof (IH _ _ Hh1 ltac:(lia) Hsort Hspan) as Hn.
    assert (List.last (t :: ts) last = List.last ts t) as ->.
    { clear. revert t last. induction ts as [|u ts IH]; intros t last; [done|]. by rewrite (IH u t), <- (IH u last). }
    rewrite length_cons, Nat2Z.inj_succ. lia.
  - apply IH; try done. destruct Hh as (r & Hb & Hh). exists r. by rewrite Hsame.
Qed.


End calls.

(** ** A sample: two tokens, one more every two seconds *)

Definition sample_capacity : decimal := Finite 2 0.
Definition sample_rate : decimal := Finite 5 (-1).
Definition sample_call (now : Z) (db : DB) : outcome SvcError decimal * DB :=
  _rate_lock "TENANT" "t1" sample_capacity sample_rate now db.

Lemma sample_capacity_grid : on_grid sample_capacity (2 * 10 ^ 12).
Proof. by exists 2, 0. Qed.
Lemma sample_rate_grid : rate_is sample_rate 500000.
Proof. by exists 5, (-1). Qed.

Lemma sample_capacity_bound : 0 ≤ 2 * 10 ^ 12 ≤ MAX_TOKENS.
Proof. unfold MAX_TOKENS. lia. Qed.
Lemma sample_rate_bound : 0 ≤ 500000 ≤ MAX_RATE.
Proof. unfold MAX_RATE. lia. Qed.

Definition sample_db1 : DB := (sample_call 0 empty_db).2.
Definition sample_db2 : DB := (sample_call 0 sample_db1).2.
Definition sample_db3 : DB := (sample_call 2000000 sample_db2).2.

Lemma sample_accepted : accepted "TENANT" "t1" sample_capacity sample_rate empty_db [0; 0; 2000000] sample_db3.
Proof.
  eapply (accepted_call _ _ _ _ 0 _ _ _ sample_db1); [apply ret_of; vm_compute; reflexivity|].
  eapply (accepted_call _ _ _ _ 0 _ _ _ sample_db2); [apply ret_of; vm_compute; reflexivity|].
  eapply (accepted_call _ _ _ _ 2000000 _ _ _ sample_db3); [apply ret_of; vm_compute; reflexivity|].
  apply accepted_done.
Qed.


Lemma sample_holds : holds "TENANT" "t1" sample_db2 0 0.
Proof. eexists. split; [vm_compute; reflexivity|]. split; [by exists 0, (-1)|]. unfold MAX_TOKENS. simpl. lia. Qed.

