(* ===== verification/Windows.v ===== *)
(** * Candidate windows

    [_window_rows] and [_batched_window_rows] of [src/nexa/coordinator/snapshot.py]:
    the at most sixteen queued jobs of a tenant the scheduler looks at, and its oldest
    one.  Both read one bounded stream per effective and base priority, so that an
    ordered index answers each, and merge the streams; a cursor continues after the
    window of the tick before.

    A query is the list of rows it selects.  The theorems say that what the merged
    streams return is what one sort of all the rows would. *)

From S2P Require Import Prelude PyDecimal PyValue Database Sorting Ledger.

Local Open Scope string_scope.
Local Open Scope list_scope.
Local Open Scope Z_scope.

(** A row of a candidate query: a job, its specification, and
    [effective_eligible_since]. *)
Record QueueRow := MkQueueRow {
  qr_job : JobRow;
  qr_spec : SpecRow;
  qr_since : option Z;
}.

(** [select(jobs, job_specs.c...).join(job_specs).where(...)]. *)
Definition joined (jobs : list JobRow) (specs : list SpecRow) (where_ : JobRow → SpecRow → bool)
    (since : JobRow → option Z) : list QueueRow :=
  mjoin ((λ j, (λ s, MkQueueRow j s (since j)) <$>
                 List.filter (λ s, bool_decide (j_job_id j = sp_job_id s) && where_ j s) specs) <$> jobs).

(** The same with the two columns the streams add. *)
Record StreamRow := MkStreamRow {
  w_row : QueueRow;
  w_effective_priority : Z;
  w_is_oldest : bool;
}.

(** A cursor: priority, ready sequence and job of the last row of a window. *)
Definition Cursor : Type := Z * Z * string.

Definition qr_id (r : QueueRow) : string := j_job_id (qr_job r).
Definition qr_ready (r : QueueRow) : Z := j_ready_sequence (qr_job r).
Definition qr_base (r : QueueRow) : Z := j_base_priority (qr_job r).

(** [ORDER BY ready_sequence, job_id]. *)
Definition ready_leb (a b : QueueRow) : bool :=
  (qr_ready a <? qr_ready b) || ((qr_ready a =? qr_ready b) && String.leb (qr_id a) (qr_id b)).

(** [ORDER BY since, ready_sequence, job_id], nulls last. *)
Definition since_leb (since : QueueRow → option Z) (a b : QueueRow) : bool :=
  match since a, since b with
  | Some x, Some y => (x <? y) || ((x =? y) && ready_leb a b)
  | Some _, None => true
  | None, Some _ => false
  | None, None => ready_leb a b
  end.

(** [ORDER BY effective_priority DESC, ready_sequence, job_id]. *)
Definition normal_leb (a b : StreamRow) : bool :=
  (w_effective_priority b <? w_effective_priority a)
  || ((w_effective_priority a =? w_effective_priority b) && ready_leb (w_row a) (w_row b)).

(** The same after [is_oldest]. *)
Definition result_leb (a b : StreamRow) : bool :=
  match w_is_oldest a, w_is_oldest b with
  | false, true => true
  | true, false => false
  | _, _ => normal_leb a b
  end.

(** Comparisons of a column with a value: not true of a null. *)
Definition col_le (column : option Z) (value : Z) : bool := match column with Some x => x <=? value | None => false end.
Definition col_gt (column : option Z) (value : Z) : bool := match column with Some x => value <? x | None => false end.

(** [tuple_(ready_sequence, job_id) > tuple_(cursor[1], cursor[2])]. *)
Definition past (cursor : Cursor) (r : QueueRow) : bool :=
  let '(_, sequence, job_id) := cursor in
  (sequence <? qr_ready r) || ((qr_ready r =? sequence) && negb (String.leb (qr_id r) job_id)).

(** The effective priorities of a base priority, in the order the streams are read. *)
Definition stream_keys : list (Z * Z) := [(2, 2); (2, 1); (2, 0); (1, 1); (1, 0); (0, 0)].

Definition oldest_row (r : QueueRow) : StreamRow := MkStreamRow r (-1) true.
Definition normal_row (effective : Z) (r : QueueRow) : StreamRow := MkStreamRow r effective false.

Definition minute (now : Z) : Z := now - seconds 60.
Definition two_minutes (now : Z) : Z := now - seconds 120.

(** A predicate of a stream; [None] where the source skips the stream. *)
Definition with_age (condition : option (QueueRow → bool)) (query : list QueueRow) : list QueueRow :=
  match condition with Some p => List.filter p query | None => [] end.

(** ** One tenant, with a cursor *)

Section window_rows.
Context (jobs : list JobRow) (query : list QueueRow) (now : Z) (priorities : list Z) (resume_at : option Z)
  (tenant_id : string) (users : list string).

Definition aging (r : QueueRow) : option Z := if is_none resume_at then qr_since r else j_eligible_since (qr_job r).
Definition resume_after (t : Z) : bool := match resume_at with Some at' => t <? at' | None => false end.

Definition branch_age (effective base : Z) : option (QueueRow → bool) :=
  if effective =? 2 then
    if base =? 1 then
      if resume_after (minute now) then None else Some (λ r, col_le (aging r) (minute now))
    else if base =? 0 then
      if resume_after (two_minutes now) then None else Some (λ r, col_le (aging r) (two_minutes now))
    else Some (λ _, true)
  else if effective =? 1 then
    if base =? 1 then
      Some (λ r, resume_after (minute now) || col_gt (aging r) (minute now))
    else if resume_after (minute now) then None
    else Some (λ r, col_le (aging r) (minute now)
                    && (resume_after (two_minutes now) || col_gt (aging r) (two_minutes now)))
  else Some (λ r, resume_after (minute now) || col_gt (aging r) (minute now)).

(** One stream; empty where the source leaves it out. *)
Definition branch (after : option Cursor) (effective base : Z) : list StreamRow :=
  if match after with Some cursor => cursor.1.1 <? effective | None => false end then []
  else if negb (bool_decide (base ∈ priorities)) then []
  else
    let rows := List.filter (λ r, (qr_base r =? base) && negb (is_none (qr_since r))) query in
    let rows := with_age (branch_age effective base) rows in
    let rows := match after with
                | Some cursor => if effective =? cursor.1.1 then List.filter (past cursor) rows else rows
                | None => rows
                end in
    normal_row effective <$> take 16 (py_sorted ready_leb rows).

(** [_clipped_age_exists]. *)
Definition _clipped_age_exists (priority at' : Z) : bool :=
  existsb (λ j, bool_decide (j_tenant_id j = tenant_id) && bool_decide (j_submitter_user_id j ∈ users)
                && (j_base_priority j =? priority) && bool_decide (j_state j = JS_QUEUED)
                && col_le (j_eligible_since j) at') jobs.

Definition oldest_branch : list QueueRow :=
  match resume_at with
  | None => take 1 (py_sorted (since_leb qr_since) query)
  | Some at' =>
      let old_streams :=
        ((λ priority, take 1 (py_sorted ready_leb
            (List.filter (λ r, (qr_base r =? priority) && col_le (j_eligible_since (qr_job r)) at'
                               && _clipped_age_exists priority at') query))) <$> [0; 1; 2])
        ++ [take 1 (py_sorted (since_leb (λ r, j_eligible_since (qr_job r)))
              (List.filter (λ r, col_gt (j_eligible_since (qr_job r)) at') query))] in
      take 1 (py_sorted (since_leb qr_since) (mjoin old_streams))
  end.

Definition fetch_result (after : option Cursor) : list StreamRow :=
  let normal := take 16 (py_sorted normal_leb (mjoin ((λ key, branch after key.1 key.2) <$> stream_keys))) in
  py_sorted result_leb (normal ++ (oldest_row <$> oldest_branch)).
Definition fetch (after : option Cursor) : list QueueRow * option QueueRow :=
  let result := fetch_result after in
  (w_row <$> List.filter (λ r, negb (w_is_oldest r)) result, w_row <$> head (List.filter w_is_oldest result)).

Definition _window_rows (cursor : option Cursor) : list QueueRow * option QueueRow :=
  let found := fetch cursor in
  match cursor, found.1 with
  | Some _, [] => fetch None
  | _, _ => found
  end.
End window_rows.

(** ** Many tenants, in one statement *)

(** A row of [queue_parameters].  [qd_group] is the user, the index and the cursor of
    a grouped descriptor. *)
Record Descriptor := {
  qd_tenant_id : string;
  qd_min_cpu : Z;
  qd_max_cpu : Z;
  qd_min_memory : Z;
  qd_max_memory : Z;
  qd_users : list string;
  qd_resume_at : option Z;
  qd_group : option (string * Z * option Cursor);
}.

(** A tenant, and the index of the group where there is one. *)
Definition WindowKey : Type := string * option Z.
Definition descriptor_key (d : Descriptor) : WindowKey :=
  (qd_tenant_id d, (λ g, g.1.2) <$> qd_group d).

Section batched.
Context (jobs : list JobRow) (specs : list SpecRow) (now : Z) (compatible : list (string * Z)).

Section descriptor.
Context (d : Descriptor).

(** The users of a descriptor: the one of its group, or any listed. *)
Definition of_users (user_id : string) : bool :=
  match qd_group d with
  | Some (group_user_id, _, _) => bool_decide (user_id = group_user_id)
  | None => bool_decide (user_id ∈ qd_users d)
  end.

Definition effective_age (j : JobRow) : option Z :=
  match qd_resume_at d, j_eligible_since j with
  | Some at', Some since => Some (Z.max since at')
  | Some at', None => Some at'
  | None, since => since
  end.

Definition age_probe (priority : Z) (j : JobRow) : bool :=
  bool_decide (j_tenant_id j = qd_tenant_id d) && of_users (j_submitter_user_id j) && (j_base_priority j =? priority)
  && bool_decide (j_state j = JS_QUEUED).
Definition has_age (priority cutoff : Z) : bool :=
  existsb (λ j, age_probe priority j && col_gt (j_eligible_since j) cutoff) jobs.
(** [SELECT eligible_since ... ORDER BY eligible_since LIMIT 1], nulls last. *)
Definition age_leb (a b : option Z) : bool :=
  match a, b with Some x, Some y => x <=? y | None, Some _ => false | _, None => true end.
Definition oldest_age (priority : Z) : option Z :=
  default None (head (py_sorted age_leb (j_eligible_since <$> List.filter (age_probe priority) jobs))).

Definition selects (j : JobRow) (s : SpecRow) : bool :=
  bool_decide (j_tenant_id j = qd_tenant_id d) && bool_decide (j_state j = JS_QUEUED)
  && negb (is_none (j_eligible_since j))
  && (is_none (j_retry_ready_at j) || col_le (j_retry_ready_at j) now)
  && bool_decide ((sp_template_id s, sp_template_version s) ∈ compatible) && (sp_gpu_count s =? 0)
  && (sp_cpu_millis s <=? qd_max_cpu d) && (sp_memory_bytes s <=? qd_max_memory d)
  && ((qd_min_cpu d <? sp_cpu_millis s) && (qd_min_memory d <? sp_memory_bytes s))
  && of_users (j_submitter_user_id j).

(** [base()]. *)
Definition batch_base : list QueueRow := joined jobs specs selects effective_age.

Definition resume_gt (t : Z) : bool := match qd_resume_at d with Some at' => t <? at' | None => false end.
Definition resume_le (t : Z) : bool := match qd_resume_at d with Some at' => at' <=? t | None => true end.

Definition batch_age (effective priority : Z) (r : QueueRow) : bool :=
  let since := j_eligible_since (qr_job r) in
  if effective =? 2 then
    if priority =? 1 then col_le since (minute now) && resume_le (minute now)
    else if priority =? 0 then col_le since (two_minutes now) && resume_le (two_minutes now)
    else true
  else if effective =? 1 then
    if priority =? 1 then
      (resume_gt (minute now) || col_gt since (minute now)) && (resume_gt (minute now) || has_age priority (minute now))
    else
      col_le since (minute now) && resume_le (minute now)
      && (resume_gt (two_minutes now) || col_gt since (two_minutes now))
      && (resume_gt (two_minutes now) || has_age priority (two_minutes now))
  else
    (resume_gt (minute now) || col_gt since (minute now)) && (resume_gt (minute now) || has_age priority (minute now)).

Definition group_cursor : option Cursor := match qd_group d with Some (_, _, cursor) => cursor | None => None end.
Definition past_group (effective : Z) (r : QueueRow) : bool :=
  match group_cursor with
  | None => true
  | Some cursor => (effective <? cursor.1.1) || ((effective =? cursor.1.1) && past cursor r)
  end.

Definition batch_branch (effective priority : Z) : list StreamRow :=
  normal_row effective <$> take 16 (py_sorted ready_leb
    (List.filter (λ r, (qr_base r =? priority) && negb (is_none (j_eligible_since (qr_job r)))
                       && past_group effective r && batch_age effective priority r) batch_base)).

Definition batch_normal : list StreamRow :=
  take 16 (py_sorted normal_leb (mjoin ((λ key, batch_branch key.1 key.2) <$> stream_keys))).

Definition batch_oldest : list QueueRow :=
  match qd_resume_at d with
  | Some at' =>
      let old_streams :=
        ((λ priority, take 1 (py_sorted ready_leb
            (List.filter (λ r, (qr_base r =? priority) && col_le (j_eligible_since (qr_job r)) at'
                               && col_le (oldest_age priority) at') batch_base))) <$> [0; 1; 2])
        ++ [take 1 (py_sorted (since_leb (λ r, j_eligible_since (qr_job r)))
              (List.filter (λ r, col_gt (j_eligible_since (qr_job r)) at') batch_base))] in
      take 1 (py_sorted (since_leb qr_since) (mjoin old_streams))
  | None => take 1 (py_sorted (since_leb (λ r, j_eligible_since (qr_job r))) batch_base)
  end.

(** The rows of one descriptor, in the order the nested loop over the lateral
    subqueries yields them. *)
Definition batch_window : list StreamRow * option QueueRow := (batch_normal, head batch_oldest).
End descriptor.

Definition _batched_window_rows (descriptors : list Descriptor) : list (WindowKey * (list StreamRow * option QueueRow)) :=
  match descriptors, compatible with
  | [], _ | _, [] => []
  | _, _ => (λ d, (descriptor_key d, batch_window d)) <$> descriptors
  end.
End batched.

(** ** What a window is *)

(** A job gains a priority for every minute it has been eligible, up to the highest. *)
Definition effective_of (now : Z) (r : QueueRow) : Z :=
  match qr_since r with
  | Some since => Z.min 2 (qr_base r + Z.max 0 ((now - since) / seconds 60))
  | None => qr_base r
  end.

Definition window_leb (now : Z) (a b : QueueRow) : bool :=
  (effective_of now b <? effective_of now a) || ((effective_of now a =? effective_of now b) && ready_leb a b).

(** After the cursor in that order. *)
Definition follows (now : Z) (after : option Cursor) (r : QueueRow) : bool :=
  match after with
  | Some cursor => (effective_of now r <? cursor.1.1) || ((effective_of now r =? cursor.1.1) && past cursor r)
  | None => true
  end.

Definition first_after (now : Z) (query : list QueueRow) (after : option Cursor) : list QueueRow :=
  take 16 (py_sorted (window_leb now) (List.filter (follows now after) query)).

(** The first sixteen after the cursor, or from the start when nothing is left, and
    the one eligible for longest. *)
Definition window (now : Z) (query : list QueueRow) (cursor : option Cursor) : list QueueRow * option QueueRow :=
  (match cursor, first_after now query cursor with
   | Some _, [] => first_after now query None
   | _, rows => rows
   end, head (py_sorted (since_leb qr_since) query)).

(** A queue: priorities are 0, 1 or 2, every row is eligible, since the time its
    counters and quotas resumed if that is later, and a job is in it once. *)
Record queue_ok (resume_at : option Z) (query : list QueueRow) : Prop := {
  qk_base : ∀ r, r ∈ query → 0 ≤ qr_base r ≤ 2;
  qk_since : ∀ r, r ∈ query → ∃ since, qr_since r = Some since ∧
    ∀ at', resume_at = Some at' → ∃ eligible, j_eligible_since (qr_job r) = Some eligible ∧ since = Z.max eligible at';
  qk_ids : NoDup (qr_id <$> query);
}.

(** ** Orders by a number, then by readiness *)

Definition keyed_leb (key : QueueRow → Z) (a b : QueueRow) : bool :=
  (key a <? key b) || ((key a =? key b) && ready_leb a b).

Lemma ready_total a b : ready_leb a b = true ∨ ready_leb b a = true.
Proof. unfold ready_leb. destruct (string_leb_total (qr_id a) (qr_id b)) as [H|H]; rewrite H; lia. Qed.
Lemma ready_trans a b c : ready_leb a b = true → ready_leb b c = true → ready_leb a c = true.
Proof.
  unfold ready_leb. pose proof (string_leb_trans (qr_id a) (qr_id b) (qr_id c)) as Ht.
  destruct (String.leb (qr_id a) (qr_id b)), (String.leb (qr_id b) (qr_id c)); try lia.
  rewrite Ht by done. lia.
Qed.
Lemma ready_antisym a b : ready_leb a b = true → ready_leb b a = true → qr_id a = qr_id b.
Proof.
  unfold ready_leb. intros. apply string_leb_antisym.
  all: destruct (String.leb (qr_id a) (qr_id b)), (String.leb (qr_id b) (qr_id a)); lia.
Qed.

Lemma keyed_total key a b : keyed_leb key a b = true ∨ keyed_leb key b a = true.
Proof. unfold keyed_leb. destruct (ready_total a b) as [H|H]; rewrite H; lia. Qed.
Lemma keyed_trans key a b c : keyed_leb key a b = true → keyed_leb key b c = true → keyed_leb key a c = true.
Proof.
  unfold keyed_leb. pose proof (ready_trans a b c) as Ht.
  destruct (ready_leb a b), (ready_leb b c); try lia. rewrite Ht by done. lia.
Qed.

Lemma ids_keyed key l : NoDup (qr_id <$> l) → keyed (keyed_leb key) l.
Proof.
  intros Hnd x y Hx Hy Hxy Hyx. assert (qr_id x = qr_id y) as Hid.
  { apply ready_antisym; unfold keyed_leb in *; destruct (ready_leb x y), (ready_leb y x); lia. }
  apply list_elem_of_lookup in Hx as [i Hi], Hy as [j Hj]. assert (i = j) as ->; [|congruence].
  eapply NoDup_lookup; [exact Hnd|by rewrite list_lookup_fmap, Hi|by rewrite list_lookup_fmap, Hj, Hid].
Qed.

Lemma window_leb_keyed now a b : window_leb now a b = keyed_leb (λ r, - effective_of now r) a b.
Proof. unfold window_leb, keyed_leb. apply eq_true_iff_eq. destruct (ready_leb a b); lia. Qed.
Lemma ready_leb_keyed a b : ready_leb a b = keyed_leb (λ _, 0) a b.
Proof. unfold keyed_leb. cbn. done. Qed.

(** ** The streams partition the queue *)

Lemma minutes_ge now since n : n ≤ (now - since) / seconds 60 ↔ since ≤ now - n * seconds 60.
Proof.
  change (seconds 60) with 60000000. split; intros H.
  - pose proof (Z.mul_div_le (now - since) 60000000 ltac:(lia)). lia.
  - apply Z.div_le_lower_bound; lia.
Qed.

(** The key of a row: its effective and its base priority. *)
Definition key_of (now : Z) (r : QueueRow) : Z * Z := (effective_of now r, qr_base r).

Lemma stream_keys_all now resume_at query r : queue_ok resume_at query → r ∈ query → key_of now r ∈ stream_keys.
Proof.
  intros [Hb Hs _] Hr. specialize (Hb r Hr). destruct (Hs r Hr) as (since & Hsince & _). unfold key_of, effective_of, stream_keys.
  rewrite Hsince. set (age := (now - since) / seconds 60).
  assert (qr_base r = 0 ∨ qr_base r = 1 ∨ qr_base r = 2) as Hcase by lia.
  assert (age ≤ 0 ∨ age = 1 ∨ 2 ≤ age) as Hage by lia.
  destruct Hcase as [H0|[H0|H0]], Hage as [Ha|[Ha|Ha]]; rewrite H0;
    repeat (match goal with |- context [Z.min 2 ?x] => first
      [replace (Z.min 2 x) with 2 by lia|replace (Z.min 2 x) with 1 by lia|replace (Z.min 2 x) with 0 by lia] end);
    set_solver.
Qed.

Definition in_key (now : Z) (key : Z * Z) (r : QueueRow) : bool := bool_decide (key_of now r = key).

Section window_proof.
Context (jobs : list JobRow) (query : list QueueRow) (now : Z) (priorities : list Z) (resume_at : option Z)
  (tenant_id : string) (users : list string).
Context (Hq : queue_ok resume_at query) (Hpr : ∀ r, r ∈ query → qr_base r ∈ priorities).

Lemma branch_age_key e b r :
  (e, b) ∈ stream_keys → r ∈ query → qr_base r = b →
  match branch_age now resume_at e b with Some p => p r | None => false end = bool_decide (effective_of now r = e).
Proof.
  intros Hk Hr Hb. destruct (qk_since _ _ Hq r Hr) as (since & Hs & Hres). unfold effective_of. rewrite Hs, Hb.
  pose proof (minutes_ge now since 1) as H1. pose proof (minutes_ge now since 2) as H2.
  set (age := (now - since) / seconds 60) in *. symmetry. unfold branch_age, resume_after, aging, minute, two_minutes.
  change (seconds 60) with 60000000 in *. change (seconds 120) with 120000000 in *.
  unfold stream_keys in Hk. rewrite !elem_of_cons in Hk. destruct Hk as [[= -> ->]|[[= -> ->]|[[= -> ->]|[[= -> ->]|[[= -> ->]|[[= -> ->]|Hk]]]]]];
    [..|set_solver]; destruct resume_at as [at'|]; cbn;
    try (destruct (Hres at' eq_refl) as (el & He & Hmax); rewrite ?He; cbn); rewrite ?Hs; cbn;
    try (destruct (_ <? at') eqn:Hat; cbn; rewrite ?He; cbn); apply eq_true_iff_eq; rewrite bool_decide_eq_true; lia.
Qed.

Lemma aged_key e b :
  (e, b) ∈ stream_keys →
  with_age (branch_age now resume_at e b) (List.filter (λ r, (qr_base r =? b) && negb (is_none (qr_since r))) query) =
  List.filter (in_key now (e, b)) query.
Proof.
  intros Hk. assert (∀ r, r ∈ query →
    in_key now (e, b) r = (qr_base r =? b) && negb (is_none (qr_since r))
      && match branch_age now resume_at e b with Some p => p r | None => false end) as Hr.
  { intros r Hr. destruct (qk_since _ _ Hq r Hr) as (since & Hs & _). rewrite Hs. cbn. rewrite andb_true_r.
    unfold in_key, key_of. destruct (qr_base r =? b) eqn:Hb.
    - cbn. rewrite branch_age_key by (done || lia). apply Z.eqb_eq in Hb as ->. apply bool_decide_ext. naive_solver.
    - cbn. apply bool_decide_eq_false. intros [= _ ?]. lia. }
  rewrite (filter_same _ _ _ Hr). unfold with_age. destruct (branch_age now resume_at e b).
  - by rewrite filter_and.
  - symmetry. etrans; [apply (filter_same _ (λ _, false)); intros; by rewrite andb_false_r|]. apply filter_none.
Qed.

Lemma branch_eq after e b :
  (e, b) ∈ stream_keys →
  branch query now priorities resume_at after e b =
  normal_row e <$> take 16 (py_sorted (window_leb now) (List.filter (in_key now (e, b)) (List.filter (follows now after) query))).
Proof.
  intros Hk. unfold branch. set (part := List.filter (in_key now (e, b)) _).
  assert (∀ r, r ∈ part → effective_of now r = e ∧ qr_base r = b ∧ follows now after r = true ∧ r ∈ query) as Hpart.
  { intros r Hr. unfold part in Hr. apply elem_of_List_filter in Hr as [Hin [Hf Hr]%elem_of_List_filter].
    apply bool_decide_eq_true in Hin. unfold key_of in Hin. by injection Hin as <- <-. }
  assert (part = [] → normal_row e <$> take 16 (py_sorted (window_leb now) part) = []) as Hnil by (by intros ->).
  assert ((∀ r, r ∈ part → False) → part = []) as Hempty.
  { intros HP. destruct part as [|r part']; [done|]. exfalso. apply (HP r). set_solver. }
  destruct (match after with Some c => _ | None => _ end) eqn:Hskip.
  { symmetry. apply Hnil, Hempty. intros r Hr. destruct (Hpart r Hr) as (He & _ & Hf & _).
    destruct after as [c|]; [|done]. unfold follows in Hf. rewrite He in Hf. lia. }
  case_bool_decide as Hp; cbn.
  2: { symmetry. apply Hnil, Hempty. intros r Hr. destruct (Hpart r Hr) as (_ & <- & _ & Hin). auto. }
  rewrite aged_key by done. f_equal. f_equal. etrans; [|apply py_sorted_ext with (leb := ready_leb)].
  - f_equal. unfold part. destruct after as [c|].
    + destruct (e =? c.1.1) eqn:Hec; rewrite !filter_and; apply filter_same; intros r Hr; unfold follows, in_key;
        destruct (bool_decide _) eqn:Hkey; rewrite ?andb_false_r, ?andb_true_r; try done;
        apply bool_decide_eq_true in Hkey; unfold key_of in Hkey; injection Hkey as -> _; cbn.
      * rewrite Hec. by replace (e <? c.1.1) with false by lia.
      * symmetry. apply orb_true_iff. left. lia.
    + rewrite filter_and. apply filter_same. done.
  - intros x y Hx Hy. destruct (Hpart x Hx) as (Hex & _), (Hpart y Hy) as (Hey & _). unfold window_leb.
    by rewrite Hex, Hey, Z.ltb_irrefl, Z.eqb_refl.
Qed.
End window_proof.

Lemma ids_nodup l : NoDup (qr_id <$> l) → NoDup l.
Proof. apply NoDup_fmap_1. Qed.

Lemma sub_ids p l : NoDup (qr_id <$> l) → NoDup (qr_id <$> List.filter p l).
Proof.
  induction l as [|r l IH]; [done|]. cbn. intros [Hr Hl]%NoDup_cons. destruct (p r); [|by apply IH].
  cbn. apply NoDup_cons. split; [|by apply IH].
  intros (x & Hx & Hin)%list_elem_of_fmap. apply Hr, list_elem_of_fmap. exists x. apply elem_of_List_filter in Hin. naive_solver.
Qed.

(** Merging one stream per key gives the first sixteen rows. *)
Section merged.
Context (now : Z) (rows : list QueueRow) (streams : Z * Z → list StreamRow).
Context (Hkeys : ∀ r, r ∈ rows → key_of now r ∈ stream_keys) (Hids : NoDup (qr_id <$> rows)).
Context (Hstreams : ∀ key, key ∈ stream_keys →
  streams key = normal_row key.1 <$> take 16 (py_sorted (window_leb now) (List.filter (in_key now key) rows))).

Definition label (r : QueueRow) : StreamRow := normal_row (effective_of now r) r.

Lemma streams_perm : mjoin ((λ key, List.filter (in_key now key) rows) <$> stream_keys) ≡ₚ rows.
Proof. apply (concat_by_key (key_of now)); [|done]. apply (bool_decide_eq_true_1 _). by vm_compute. Qed.

Lemma merged_streams :
  take 16 (py_sorted normal_leb (mjoin (streams <$> stream_keys))) = label <$> take 16 (py_sorted (window_leb now) rows).
Proof.
  set (parts := (λ key, List.filter (in_key now key) rows) <$> stream_keys).
  set (leb := keyed_leb (λ r, - effective_of now r)).
  assert (∀ l, py_sorted (window_leb now) l = py_sorted leb l) as Hleb.
  { intros l. apply py_sorted_ext. intros. apply window_leb_keyed. }
  assert (mjoin (streams <$> stream_keys) = label <$> mjoin ((λ l, take 16 (py_sorted leb l)) <$> parts)) as ->.
  { rewrite fmap_join. unfold parts. rewrite <- !list_fmap_compose. f_equal. apply list_fmap_ext. intros i key Hkey.
    apply list_elem_of_lookup_2 in Hkey. rewrite (Hstreams key Hkey). cbn. rewrite Hleb. apply list_fmap_ext.
    intros j r Hr. apply list_elem_of_lookup_2, elem_of_take in Hr as (k & Hr & _).
    apply list_elem_of_lookup_2, py_sorted_elem, elem_of_List_filter in Hr as [Hr _]. apply bool_decide_eq_true in Hr.
    unfold label. by rewrite <- Hr. }
  pose proof streams_perm as Hperm. fold parts in Hperm.
  assert (NoDup (mjoin parts)) as Hnd by (rewrite Hperm; by apply ids_nodup).
  assert (keyed leb (mjoin parts)) as Hk by (apply ids_keyed; by rewrite Hperm).
  rewrite py_sorted_fmap, <- fmap_take. f_equal.
  rewrite (py_sorted_ext (λ a b, normal_leb (label a) (label b)) leb) by (intros; apply window_leb_keyed).
  pose proof (take_sorted_join leb (keyed_total _) (keyed_trans _) 16 parts []) as Hj. rewrite !app_nil_r in Hj.
  rewrite Hj, Hleb by done. by rewrite (py_sorted_unique leb (keyed_total _) (keyed_trans _) _ _ Hk Hperm).
Qed.
End merged.

(** ** The oldest row *)

Definition since_or_zero (r : QueueRow) : Z := default 0 (qr_since r).

Lemma since_leb_keyed since key l :
  (∀ r, r ∈ l → since r = Some (key r)) → py_sorted (since_leb since) l = py_sorted (keyed_leb key) l.
Proof.
  intros H. apply py_sorted_ext. intros x y Hx Hy. unfold since_leb, keyed_leb. by rewrite (H x Hx), (H y Hy).
Qed.

Section oldest.
Context (query : list QueueRow) (at' : Z) (probe : Z → bool).
Context (Hq : queue_ok (Some at') query).

Definition eligible_of (r : QueueRow) : option Z := j_eligible_since (qr_job r).
Context (Hprobe : ∀ r, r ∈ query → col_le (eligible_of r) at' = true → probe (qr_base r) = true).

(** Rows already eligible at the resumption by their priority, the others together. *)
Definition age_key (r : QueueRow) : option Z := if col_le (eligible_of r) at' then Some (qr_base r) else None.

Lemma eligible_since r : r ∈ query → ∃ e, eligible_of r = Some e ∧ qr_since r = Some (Z.max e at').
Proof. intros Hr. destruct (qk_since _ _ Hq r Hr) as (s & Hs & He). destruct (He at' eq_refl) as (e & ? & ->). eauto. Qed.

Definition old_part (key : option Z) : list QueueRow := List.filter (λ r, bool_decide (age_key r = key)) query.

Lemma old_stream p :
  take 1 (py_sorted ready_leb (List.filter (λ r, (qr_base r =? p) && col_le (eligible_of r) at' && probe p) query)) =
  take 1 (py_sorted (keyed_leb since_or_zero) (old_part (Some p))).
Proof.
  f_equal. transitivity (py_sorted ready_leb (old_part (Some p))).
  - f_equal. apply filter_same. intros r Hr. unfold age_key. destruct (col_le (eligible_of r) at') eqn:He.
    + pose proof (Hprobe r Hr He) as Hp. rewrite andb_true_r. destruct (qr_base r =? p) eqn:Hb.
      * apply Z.eqb_eq in Hb as <-. rewrite Hp. symmetry. by apply bool_decide_eq_true.
      * symmetry. apply bool_decide_eq_false. intros [= ?]. lia.
    + rewrite andb_false_r. symmetry. by apply bool_decide_eq_false.
  - apply py_sorted_ext. intros x y Hx Hy. apply elem_of_List_filter in Hx as [Hx Hxq], Hy as [Hy Hyq].
    assert (∀ r, r ∈ query → bool_decide (age_key r = Some p) = true → since_or_zero r = at') as Hat.
    { intros r Hr Hk%bool_decide_eq_true. destruct (eligible_since r Hr) as (e & He & Hs). unfold since_or_zero. rewrite Hs. cbn.
      unfold age_key in Hk. rewrite He in Hk. cbn in Hk. destruct (e <=? at') eqn:E; [lia|done]. }
    unfold keyed_leb. rewrite (Hat x), (Hat y), Z.ltb_irrefl, Z.eqb_refl by done. done.
Qed.

Lemma young_stream :
  take 1 (py_sorted (since_leb eligible_of) (List.filter (λ r, col_gt (eligible_of r) at') query)) =
  take 1 (py_sorted (keyed_leb since_or_zero) (old_part None)).
Proof.
  assert (List.filter (λ r, col_gt (eligible_of r) at') query = old_part None) as <-.
  { apply filter_same. intros r Hr. destruct (eligible_since r Hr) as (e & He & _). unfold age_key. rewrite He. cbn.
    destruct (e <=? at') eqn:E; [rewrite bool_decide_eq_false_2 by done|rewrite bool_decide_eq_true_2 by done]; lia. }
  f_equal. apply since_leb_keyed. intros r [Hn Hr]%elem_of_List_filter.
  destruct (eligible_since r Hr) as (e & He & Hs). rewrite He. f_equal. unfold since_or_zero. rewrite Hs. cbn.
  rewrite He in Hn. cbn in Hn. lia.
Qed.

Lemma oldest_streams :
  take 1 (py_sorted (since_leb qr_since) (mjoin
    (((λ p, take 1 (py_sorted ready_leb
        (List.filter (λ r, (qr_base r =? p) && col_le (eligible_of r) at' && probe p) query))) <$> [0; 1; 2])
     ++ [take 1 (py_sorted (since_leb eligible_of) (List.filter (λ r, col_gt (eligible_of r) at') query))]))) =
  take 1 (py_sorted (since_leb qr_since) query).
Proof.
  set (leb := keyed_leb since_or_zero).
  assert (∀ r, r ∈ query → qr_since r = Some (since_or_zero r)) as Hsome.
  { intros r Hr. destruct (eligible_since r Hr) as (e & _ & Hs). unfold since_or_zero. by rewrite Hs. }
  set (parts := old_part <$> [Some 0; Some 1; Some 2; None]).
  assert (mjoin parts ≡ₚ query) as Hperm.
  { apply (concat_by_key age_key); [apply (bool_decide_eq_true_1 _); by vm_compute|]. intros r Hr.
    pose proof (qk_base _ _ Hq r Hr) as Hb. unfold age_key. destruct (col_le _ _); [|set_solver].
    assert (qr_base r = 0 ∨ qr_base r = 1 ∨ qr_base r = 2) as [->|[->| ->]] by lia; set_solver. }
  cbn [fmap list_fmap app]. rewrite !old_stream, young_stream. fold leb.
  change (take 1 (py_sorted (since_leb qr_since) (mjoin ((λ l, take 1 (py_sorted leb l)) <$> parts))) = 
          take 1 (py_sorted (since_leb qr_since) query)).
  destruct Hq as [_ _ Hids].
  assert (keyed leb (mjoin parts)) as Hk by (apply ids_keyed; by rewrite Hperm).
  rewrite (since_leb_keyed _ since_or_zero query Hsome), (since_leb_keyed _ since_or_zero).
  - pose proof (take_sorted_join leb (keyed_total _) (keyed_trans _) 1 parts []) as Hj. rewrite !app_nil_r in Hj.
    fold leb. rewrite Hj by (done || (rewrite Hperm; by apply ids_nodup)).
    by rewrite (py_sorted_unique leb (keyed_total _) (keyed_trans _) _ _ Hk Hperm).
  - intros r Hr. apply Hsome. eapply elem_of_submseteq in Hr; [|apply firsts_submseteq]. by rewrite <- Hperm.
Qed.
End oldest.

(** ** Both readers return the window *)

Lemma labels_sorted now l :
  StronglySorted (λ a b, window_leb now a b = true) l → StronglySorted (λ a b, result_leb a b = true) (label now <$> l).
Proof.
  induction 1 as [|x l Hs IH Hx]; cbn; constructor; [done|]. apply Forall_fmap. eapply Forall_impl; [exact Hx|]. done.
Qed.

Lemma labels_filter now l old :
  List.filter (λ r, negb (w_is_oldest r)) (label now <$> l) = label now <$> l ∧
  List.filter (λ r, negb (w_is_oldest r)) (oldest_row <$> old) = [] ∧
  List.filter w_is_oldest (label now <$> l) = [] ∧ List.filter w_is_oldest (oldest_row <$> old) = oldest_row <$> old.
Proof.
  split_and!; [induction l as [|x l IH]|induction old as [|x old IH]|induction l as [|x l IH]|induction old as [|x old IH]];
    cbn in *; by rewrite ?IH.
Qed.

Section window_rows_proof.
Context (jobs : list JobRow) (query : list QueueRow) (now : Z) (priorities : list Z) (resume_at : option Z)
  (tenant_id : string) (users : list string).
Context (Hq : queue_ok resume_at query) (Hpr : ∀ r, r ∈ query → qr_base r ∈ priorities).
Context (Hjobs : ∀ r, r ∈ query → qr_job r ∈ jobs ∧ j_tenant_id (qr_job r) = tenant_id ∧
  j_submitter_user_id (qr_job r) ∈ users ∧ j_state (qr_job r) = JS_QUEUED).

Lemma clipped_exists r at' :
  r ∈ query → col_le (eligible_of r) at' = true → _clipped_age_exists jobs tenant_id users (qr_base r) at' = true.
Proof.
  intros Hr He. destruct (Hjobs r Hr) as (Hj & Ht & Hu & Hs). apply existsb_exists. exists (qr_job r).
  split; [by apply list_elem_of_In|]. by rewrite !bool_decide_eq_true_2, Z.eqb_refl.
Qed.

Lemma oldest_branch_eq :
  oldest_branch jobs query resume_at tenant_id users = take 1 (py_sorted (since_leb qr_since) query).
Proof.
  unfold oldest_branch. destruct resume_at as [at'|]; [|done].
  apply (oldest_streams query at' (λ p, _clipped_age_exists jobs tenant_id users p at') Hq).
  intros r Hr He. by apply clipped_exists.
Qed.

Lemma normal_eq after :
  take 16 (py_sorted normal_leb (mjoin ((λ key, branch query now priorities resume_at after key.1 key.2) <$> stream_keys)))
  = label now <$> first_after now query after.
Proof.
  apply (merged_streams now (List.filter (follows now after) query)).
  - intros r [_ Hr]%elem_of_List_filter. by eapply stream_keys_all.
  - apply sub_ids, Hq.
  - intros [e b] Hk. by apply branch_eq.
Qed.

Lemma fetch_eq after :
  fetch jobs query now priorities resume_at tenant_id users after =
  (first_after now query after, head (py_sorted (since_leb qr_since) query)).
Proof.
  unfold fetch, fetch_result. rewrite normal_eq, oldest_branch_eq, <- (head_take_1 (py_sorted _ query)).
  set (old := take 1 (py_sorted (since_leb qr_since) query)).
  assert (StronglySorted (λ a b, result_leb a b = true) ((label now <$> first_after now query after) ++ (oldest_row <$> old))) as Hs.
  { apply StronglySorted_app_2.
    - intros a b (x & -> & _)%list_elem_of_fmap (y & -> & _)%list_elem_of_fmap. done.
    - apply labels_sorted, StronglySorted_take, (py_sorted_sorted (window_leb now)); intros *; rewrite !window_leb_keyed;
        [apply keyed_total|apply keyed_trans].
    - unfold old. destruct (py_sorted _ _); repeat constructor. }
  rewrite (py_sorted_id _ _ Hs), !List.filter_app.
  destruct (labels_filter now (first_after now query after) old) as (-> & -> & -> & ->). cbn. rewrite app_nil_r. f_equal.
  - rewrite <- list_fmap_compose. apply list_fmap_id.
  - by destruct old.
Qed.

(** C11: The merged streams are the first sixteen jobs after the cursor by effective
    priority, age of readiness and identifier, and the job eligible for longest. *)
Theorem window_rows_correct cursor :
  _window_rows jobs query now priorities resume_at tenant_id users cursor = window now query cursor.
Proof.
  unfold _window_rows, window. rewrite !fetch_eq. cbn. by destruct cursor, (first_after now query _).
Qed.
End window_rows_proof.

(** ** Joins *)

Lemma joined_elem jobs specs where_ since r :
  r ∈ joined jobs specs where_ since → qr_job r ∈ jobs ∧ qr_spec r ∈ specs ∧
    j_job_id (qr_job r) = sp_job_id (qr_spec r) ∧ where_ (qr_job r) (qr_spec r) = true ∧ qr_since r = since (qr_job r).
Proof.
  intros (l & Hr & (j & -> & Hj)%list_elem_of_fmap)%list_elem_of_join.
  apply list_elem_of_fmap in Hr as (s & -> & [Hs Hin]%elem_of_List_filter).
  apply andb_true_iff in Hs as [Hid%bool_decide_eq_true Hw]. done.
Qed.

Lemma joined_ids jobs specs where_ since :
  NoDup (j_job_id <$> jobs) → NoDup (sp_job_id <$> specs) → NoDup (qr_id <$> joined jobs specs where_ since).
Proof.
  intros Hj Hs. induction jobs as [|j jobs IH]; [constructor|]. cbn in *. apply NoDup_cons in Hj as [Hn Hj].
  rewrite fmap_app. apply NoDup_app. split_and!; [| |by apply IH].
  - destruct (one_spec sp_job_id (λ s, bool_decide (j_job_id j = sp_job_id s) && where_ j s) (j_job_id j) specs Hs)
      as [->|[s ->]]; [|by constructor..|apply NoDup_singleton].
    intros s [H%bool_decide_eq_true _]%andb_true_iff. done.
  - intros id (r & -> & Hr)%list_elem_of_fmap (r' & Hid & Hr')%list_elem_of_fmap.
    apply list_elem_of_fmap in Hr as (s & -> & _). unfold qr_id in Hid. cbn in Hid.
    assert (r' ∈ joined jobs specs where_ since) as (Hin & _)%joined_elem by done.
    apply Hn, list_elem_of_fmap. eauto.
Qed.

Section batched_proof.
Context (jobs : list JobRow) (specs : list SpecRow) (now : Z) (compatible : list (string * Z)) (d : Descriptor).
Context (Hbase : ∀ j, j ∈ jobs → j_state j = JS_QUEUED → 0 ≤ j_base_priority j ≤ 2).
Context (Hjobs : NoDup (j_job_id <$> jobs)) (Hspecs : NoDup (sp_job_id <$> specs)).

Local Notation base := (batch_base jobs specs now compatible d).

(** What the rows of a batch are. *)
Lemma base_row r :
  r ∈ base → qr_job r ∈ jobs ∧ qr_spec r ∈ specs ∧ selects now compatible d (qr_job r) (qr_spec r) = true ∧
    qr_since r = effective_age d (qr_job r).
Proof.
  intros (Hj & Hs & _ & Hw & Hsince)%joined_elem. done.
Qed.

Lemma base_eligible r :
  r ∈ base → ∃ e, eligible_of r = Some e ∧
    qr_since r = Some (match qd_resume_at d with Some at' => Z.max e at' | None => e end).
Proof.
  intros Hr. destruct (base_row r Hr) as (_ & _ & Hs & ->). unfold selects in Hs. unfold effective_age, eligible_of.
  destruct (j_eligible_since (qr_job r)) as [e|]; [|cbn in Hs; by rewrite !andb_false_r in Hs].
  exists e. by destruct (qd_resume_at d).
Qed.

Lemma base_probe r : r ∈ base → age_probe d (qr_base r) (qr_job r) = true ∧ qr_job r ∈ jobs.
Proof.
  intros Hr. destruct (base_row r Hr) as (Hj & _ & Hs & _). split; [|done]. unfold selects in Hs. unfold age_probe.
  rewrite !andb_true_iff in *. destruct Hs as [[[[[[[[[Ht Hst] _] _] _] _] _] _] _] Hu].
  rewrite Ht, Hst, Hu. by rewrite Z.eqb_refl.
Qed.

Lemma base_ok : queue_ok (qd_resume_at d) base.
Proof.
  split.
  - intros r Hr. destruct (base_probe r Hr) as [Hp Hj]. apply Hbase; [done|]. unfold age_probe in Hp.
    rewrite !andb_true_iff, bool_decide_eq_true in Hp. by destruct Hp as [_ ?%bool_decide_eq_true].
  - intros r Hr. destruct (base_eligible r Hr) as (e & He & Hs). eexists. split; [exact Hs|]. intros at' ->. eauto.
  - by apply joined_ids.
Qed.

Lemma has_age_row r cutoff :
  r ∈ base → col_gt (eligible_of r) cutoff = true → has_age jobs d (qr_base r) cutoff = true.
Proof.
  intros Hr Hc. destruct (base_probe r Hr) as [Hp Hj]. apply existsb_exists. exists (qr_job r).
  split; [by apply list_elem_of_In|]. unfold eligible_of in Hc. by rewrite Hp, Hc.
Qed.

Lemma batch_age_key e b r :
  (e, b) ∈ stream_keys → r ∈ base → qr_base r = b → batch_age jobs now d e b r = bool_decide (effective_of now r = e).
Proof.
  intros Hk Hr Hb. destruct (base_eligible r Hr) as (el & He & Hs). pose proof (has_age_row r) as Hage.
  specialize (Hage (minute now) Hr) as Hage1. specialize (Hage (two_minutes now) Hr) as Hage2. clear Hage. rewrite Hb in *.
  unfold effective_of. rewrite Hs, Hb. set (since := match qd_resume_at d with Some _ => _ | None => _ end) in *.
  pose proof (minutes_ge now since 1) as H1. pose proof (minutes_ge now since 2) as H2.
  set (age := (now - since) / seconds 60) in *. unfold batch_age, resume_gt, resume_le. unfold eligible_of in *. rewrite He in *.
  cbn [col_gt col_le] in *. unfold minute, two_minutes in *. clearbody age.
  change (seconds 60) with 60000000 in *. change (seconds 120) with 120000000 in *.
  symmetry. apply eq_true_iff_eq. rewrite bool_decide_eq_true.
  unfold stream_keys in Hk. rewrite !elem_of_cons in Hk.
  destruct Hk as [[= -> ->]|[[= -> ->]|[[= -> ->]|[[= -> ->]|[[= -> ->]|[[= -> ->]|Hk]]]]]];
    [..|set_solver]; cbn; destruct (qd_resume_at d) as [at'|]; subst since; cbn;
    repeat match goal with |- context [has_age ?a ?b ?c ?d] => destruct (has_age a b c d) eqn:? end; lia.
Qed.

Lemma batch_branch_eq e b :
  (e, b) ∈ stream_keys →
  batch_branch jobs specs now compatible d e b =
  normal_row e <$> take 16 (py_sorted (window_leb now)
    (List.filter (in_key now (e, b)) (List.filter (follows now (group_cursor d)) base))).
Proof.
  intros Hk. unfold batch_branch. f_equal. f_equal.
  assert (∀ r, r ∈ base →
    (qr_base r =? b) && negb (is_none (j_eligible_since (qr_job r))) && past_group d e r && batch_age jobs now d e b r =
    follows now (group_cursor d) r && in_key now (e, b) r) as Hr.
  { intros r Hr. destruct (base_eligible r Hr) as (el & He & _). unfold eligible_of in He. rewrite He. cbn. rewrite andb_true_r.
    unfold in_key, key_of. destruct (qr_base r =? b) eqn:Hb; cbn.
    - rewrite batch_age_key by (done || lia). apply Z.eqb_eq in Hb as ->.
      destruct (bool_decide (effective_of now r = e)) eqn:Hef.
      + apply bool_decide_eq_true in Hef. rewrite bool_decide_eq_true_2 by (by rewrite Hef). rewrite !andb_true_r.
        unfold past_group, follows. by rewrite Hef.
      + apply bool_decide_eq_false in Hef. rewrite bool_decide_eq_false_2 by (by intros [= ?]). by rewrite !andb_false_r.
    - rewrite bool_decide_eq_false_2 by (intros [= _ ?]; lia). by rewrite andb_false_r. }
  rewrite (filter_same _ _ _ Hr), <- filter_and. apply py_sorted_ext.
  intros x y [Hx%bool_decide_eq_true _]%elem_of_List_filter [Hy%bool_decide_eq_true _]%elem_of_List_filter.
  unfold key_of in *. injection Hx as Hx _. injection Hy as Hy _. unfold window_leb.
  by rewrite Hx, Hy, Z.ltb_irrefl, Z.eqb_refl.
Qed.

Lemma oldest_age_row r at' :
  r ∈ base → col_le (eligible_of r) at' = true → col_le (oldest_age jobs d (qr_base r)) at' = true.
Proof.
  intros Hr He. destruct (base_probe r Hr) as [Hp Hj]. unfold oldest_age.
  set (ages := j_eligible_since <$> _). assert (eligible_of r ∈ py_sorted age_leb ages) as Hin.
  { apply py_sorted_elem, list_elem_of_fmap. exists (qr_job r). split; [done|]. by apply elem_of_List_filter. }
  assert (StronglySorted (λ a b, age_leb a b = true) (py_sorted age_leb ages)) as Hs.
  { apply py_sorted_sorted; [intros [] []; cbn; lia|intros [] [] []; cbn; try done; lia]. }
  destruct (py_sorted age_leb ages) as [|x l]; [set_solver|]. cbn. apply elem_of_cons in Hin as [<-|Hin]; [done|].
  apply StronglySorted_cons in Hs as [Hx _]. rewrite Forall_forall in Hx. specialize (Hx _ Hin).
  destruct (eligible_of r), x; cbn in *; try done; lia.
Qed.

Lemma batch_oldest_eq : batch_oldest jobs specs now compatible d = take 1 (py_sorted (since_leb qr_since) base).
Proof.
  unfold batch_oldest. destruct (qd_resume_at d) as [at'|] eqn:Hres.
  - apply (oldest_streams base at' (λ p, col_le (oldest_age jobs d p) at')).
    + rewrite <- Hres. apply base_ok.
    + intros r Hr He. by apply oldest_age_row.
  - f_equal. apply py_sorted_ext. intros x y Hx Hy. destruct (base_eligible x Hx) as (ex & Hex & Hsx).
    destruct (base_eligible y Hy) as (ey & Hey & Hsy). rewrite Hres in *. unfold since_leb. unfold eligible_of in *.
    by rewrite Hex, Hey, Hsx, Hsy.
Qed.

Lemma batch_window_eq :
  batch_window jobs specs now compatible d =
  (label now <$> first_after now base (group_cursor d), head (py_sorted (since_leb qr_since) base)).
Proof.
  unfold batch_window, batch_normal. rewrite batch_oldest_eq, head_take_1. f_equal.
  apply (merged_streams now (List.filter (follows now (group_cursor d)) base)).
  - intros r [_ Hr]%elem_of_List_filter. eapply stream_keys_all; [apply base_ok|done].
  - apply sub_ids, base_ok.
  - intros [e b] Hk. by apply batch_branch_eq.
Qed.
End batched_proof.


(** ** A sample queue *)

Definition sample_queued (id : string) (sequence eligible priority : Z) : JobRow :=
  MkJobRow id "tenant" "user" JS_QUEUED DS_RUNNING None None 1 0 1 0 0 2 None sequence (Some eligible) None None 0 priority.
Definition sample_queued_spec (id : string) : SpecRow :=
  MkSpecRow id VNone "sha256:s" "cpu-iterative" 1 500 1000 0 "tenant" "input" None 60 5.
Definition sample_jobs : list JobRow :=
  [sample_queued "a" 3 (seconds 10) 0; sample_queued "b" 2 (seconds 70) 1; sample_queued "c" 1 (seconds 110) 0].
Definition sample_specs : list SpecRow := [sample_queued_spec "a"; sample_queued_spec "b"; sample_queued_spec "c"].
Definition sample_descriptor (resume_at : option Z) : Descriptor :=
  {| qd_tenant_id := "tenant"; qd_min_cpu := -1; qd_max_cpu := 1000; qd_min_memory := -1; qd_max_memory := 1000;
     qd_users := ["user"]; qd_resume_at := resume_at; qd_group := None |}.
Definition sample_query : list QueueRow :=
  batch_base sample_jobs sample_specs (seconds 140) [("cpu-iterative", 1)] (sample_descriptor (Some (seconds 20))).

Lemma sample_jobs_ok :
  (∀ j, j ∈ sample_jobs → j_state j = JS_QUEUED → 0 ≤ j_base_priority j ≤ 2) ∧ NoDup (j_job_id <$> sample_jobs) ∧
  NoDup (sp_job_id <$> sample_specs).
Proof.
  split_and!; [|apply (bool_decide_eq_true_1 _); by vm_compute..].
  intros j Hj _. unfold sample_jobs in Hj. rewrite !elem_of_cons in Hj.
  destruct Hj as [->|[->|[->|Hj]]]; [cbn; lia..|set_solver].
Qed.

Lemma sample_query_ok : queue_ok (Some (seconds 20)) sample_query.
Proof. destruct sample_jobs_ok as (Hb & Hj & Hs). exact (base_ok _ _ _ _ (sample_descriptor (Some (seconds 20))) Hb Hj Hs). Qed.
Lemma sample_query_jobs r :
  r ∈ sample_query → qr_job r ∈ sample_jobs ∧ j_tenant_id (qr_job r) = "tenant" ∧
    j_submitter_user_id (qr_job r) ∈ ["user"] ∧ j_state (qr_job r) = JS_QUEUED.
Proof.
  intros (Hj & _)%joined_elem. split; [done|]. unfold sample_jobs in Hj. rewrite !elem_of_cons in Hj.
  destruct Hj as [->|[->|[->|Hj]]]; [cbn; set_solver..|set_solver].
Qed.
Lemma sample_query_priorities r : r ∈ sample_query → qr_base r ∈ [0; 1; 2].
Proof. intros Hr. pose proof (qk_base _ _ sample_query_ok r Hr). assert (qr_base r = 0 ∨ qr_base r = 1 ∨ qr_base r = 2) by lia. set_solver. Qed.

(** The first two jobs are ahead of the one that waited less; the cursor is after them. *)
Lemma window_rows_correct_witness :
  (qr_id <$> (window (seconds 140) sample_query None).1) = ["b"; "a"; "c"] ∧
  _window_rows sample_jobs sample_query (seconds 140) [0; 1; 2] (Some (seconds 20)) "tenant" ["user"] (Some (2, 3, "a")) =
  window (seconds 140) sample_query (Some (2, 3, "a")).
Proof.
  split; [vm_compute; reflexivity|].
  exact (window_rows_correct _ _ _ _ _ _ _ sample_query_ok sample_query_priorities sample_query_jobs _).
Defined.

