(* ===== verification/Authority.v ===== *)
(** * Worker authority and callbacks

    The part of [src/nexa/application/worker_service.py] that authenticates a
    worker, opens and completes callback receipts, resolves a presented authority
    to its rows and judges whether it is live, and the renewal and adoption of an
    attempt; with [_callback], [reserve_result], [_transition] and [start_attempt]
    of [src/nexa/application/execution_service.py].

    Row locks ([with_for_update]) have no counterpart: a transaction body runs
    alone.  Each reading of the database clock is an argument. *)

From Stdlib Require Import Ascii.
From S2P Require Import Prelude PyDecimal PyValue WorkerModels Security Database.

Local Open Scope string_scope.
Local Open Scope list_scope.
Local Open Scope Z_scope.

Definition state_conflict (message : string) : SvcError := ApplicationError "state_conflict" 409 message.
Definition stale_authority (message : string) : SvcError := ApplicationError "stale_authority" 409 message.
Definition _AUTHENTICATION_ERROR : SvcError :=
  ApplicationError "authentication_required" 401 "Invalid credentials".

(** [str.lower()] on ASCII text. *)
Definition lower_char (c : ascii) : ascii :=
  let n := nat_of_ascii c in
  if ((65 <=? n) && (n <=? 90))%nat then ascii_of_nat (n + 32) else c.
Fixpoint str_lower (s : string) : string :=
  match s with
  | "" => ""
  | String c s => String (lower_char c) (str_lower s)
  end.

(** ** Authentication *)

Section secrets.
(** [hashlib.sha256(..).digest()]. *)
Variable sha256 : string → string.

Definition _mode : Tx OperationalMode :=
  policies ← select T_policy_versions pv_is_current;
  policy ← one policies;
  mret (pv_operational_mode policy).

Definition revalidate_worker_credential (credential expected_worker_id : string) (now : Z) : Tx string :=
  match parse credential with
  | Raise _ => se_raise _AUTHENTICATION_ERROR
  | Ret parsed =>
      let digest := sha256 (ps_secret parsed) in
      credentials ← select T_worker_credentials (λ r, bool_decide (wc_credential_id r = ps_identifier parsed));
      row ← one_or_none credentials;
      match row with
      | None => se_raise _AUTHENTICATION_ERROR
      | Some row =>
          _ ← se_when (negb (bool_decide (wc_worker_id row = expected_worker_id))
                    || negb (bool_decide (wc_credential_hash row = digest))
                    || negb (is_none (wc_revoked_at row))
                    || (wc_expires_at row <=? now)
                    || negb (bool_decide (wc_scopes row = ["worker:local"])))
                _AUTHENTICATION_ERROR;
          mret (wc_worker_id row)
      end
  end.

Definition _worker_auth (worker_id credential : string) (now : Z) : Tx WorkerRow :=
  workers ← select T_workers (λ r, bool_decide (wk_worker_id r = worker_id));
  worker ← one_or_none workers;
  match worker with
  | None => se_raise _AUTHENTICATION_ERROR
  | Some worker =>
      _ ← revalidate_worker_credential credential worker_id now;
      mret worker
  end.

Definition _require_current_incarnation (worker : WorkerRow) (incarnation_id : string)
    (require_reconciling : bool) : Tx IncarnationRow :=
  _ ← se_when (negb (bool_decide (wk_current_incarnation_id worker = Some incarnation_id)))
        (stale_authority "Worker incarnation is stale");
  incarnations ← select T_worker_incarnations (λ r,
    bool_decide (wi_worker_id r = wk_worker_id worker) &&
    bool_decide (wi_worker_incarnation_id r = incarnation_id));
  incarnation ← one_or_none incarnations;
  match incarnation with
  | None => se_raise (stale_authority "Worker incarnation is stale")
  | Some incarnation =>
      _ ← se_when (negb (is_none (wi_ended_at incarnation)))
            (stale_authority "Worker incarnation is stale");
      _ ← se_when (require_reconciling && negb (is_none (wi_reconcile_completed_at incarnation)))
            (state_conflict "Worker reconciliation is complete");
      mret incarnation
  end.

(** ** Callback receipts *)

Definition same_callback (worker_id operation_id callback_id : string) (r : ReceiptRow) : bool :=
  bool_decide (cr_worker_id r = worker_id) && bool_decide (cr_operation_id r = operation_id) &&
  bool_decide (cr_callback_id r = callback_id).

Definition _begin_callback (worker_id operation_id callback_id payload_hash : string)
    : Tx (option string * option Ack) :=
  _ ← _mode;
  receipt_id ← new_uuid7;
  found ← select T_callback_receipts (same_callback worker_id operation_id callback_id);
  match found with
  | [] =>
      _ ← insert T_callback_receipts
            (MkReceiptRow receipt_id worker_id operation_id callback_id payload_hash None);
      mret (Some receipt_id, None)
  | _ =>
      row ← one found;
      _ ← se_when (negb (bool_decide (cr_payload_hash row = payload_hash)))
            (ApplicationError "idempotency_conflict" 409
               "Callback ID was already used with a different request");
      match cr_acknowledgment row with
      | None => se_raise (ApplicationErrorAfter "idempotency_in_progress" 409
                            "An identical callback is still in progress" 1)
      | Some acknowledgment => mret (None, Some acknowledgment)
      end
  end.

Definition _complete_callback (receipt_id : option string) (body : Ack) : Tx () :=
  count ← update T_callback_receipts
            (λ r, bool_decide (Some (cr_receipt_id r) = receipt_id) && is_none (cr_acknowledgment r))
            (λ r, r <| cr_acknowledgment := Some body |>);
  se_when (negb (count =? 1)) (RuntimeError "Callback receipt is not pending").

(** ** The rows of an authority *)

Record AuthorityRows := {
  ar_job : JobRow;
  ar_attempt : AttemptRow;
  ar_lease : LeaseRow;
  ar_allocation : AllocationRow;
  ar_grant : GrantRow;
}.

(** The comparison of an authority with its rows. *)
Definition authority_matches (authority : Authority) (worker_id : string) (r : AuthorityRows) : bool :=
  let fence := a_job_fence authority in
  bool_decide (j_job_id (ar_job r) = at_job_id (ar_attempt r)) &&
  (j_job_fence (ar_job r) =? fence) && (at_job_fence (ar_attempt r) =? fence) &&
  bool_decide (at_worker_id (ar_attempt r) = worker_id) &&
  bool_decide (le_attempt_id (ar_lease r) = a_attempt_id authority) &&
  bool_decide (le_allocation_id (ar_lease r) = a_allocation_id authority) &&
  bool_decide (le_worker_id (ar_lease r) = worker_id) && (le_job_fence (ar_lease r) =? fence) &&
  bool_decide (al_attempt_id (ar_allocation r) = a_attempt_id authority) &&
  bool_decide (al_job_id (ar_allocation r) = j_job_id (ar_job r)) &&
  bool_decide (al_worker_id (ar_allocation r) = worker_id) &&
  bool_decide (gr_worker_incarnation_id (ar_grant r) = Some (a_worker_incarnation_id authority)) &&
  bool_decide (gr_lease_id (ar_grant r) = a_lease_id authority) &&
  bool_decide (gr_allocation_id (ar_grant r) = a_allocation_id authority) &&
  bool_decide (gr_worker_id (ar_grant r) = worker_id) && (gr_job_fence (ar_grant r) =? fence).

Definition live_grant (g : GrantRow) : bool := is_none (gr_ended_at g).
Definition live_lease (l : LeaseRow) : bool := is_none (le_revoked_at l).

Definition _authority_rows (authority : Authority) (worker_id : string) : Tx AuthorityRows :=
  _ ← se_when (negb (bool_decide (a_worker_id authority = worker_id)))
        (ApplicationError "permission_denied" 403 "Worker authority mismatch");
  refs ← select T_attempts (λ r, bool_decide (at_attempt_id r = a_attempt_id authority));
  ref ← one_or_none refs;
  match ref with
  | None => se_raise (state_conflict "Attempt is not available")
  | Some ref =>
      jobs ← select T_jobs (λ r, bool_decide (j_job_id r = at_job_id ref));
      job ← one jobs;
      attempts ← select T_attempts (λ r, bool_decide (at_attempt_id r = a_attempt_id authority));
      attempt ← one attempts;
      leases ← select T_attempt_leases (λ r, bool_decide (le_lease_id r = a_lease_id authority));
      lease ← one_or_none leases;
      allocations ← select T_allocations
                      (λ r, bool_decide (al_allocation_id r = a_allocation_id authority));
      allocation ← one_or_none allocations;
      grants ← select T_attempt_authority_grants (λ r,
                 bool_decide (gr_attempt_id r = a_attempt_id authority) && live_grant r);
      grant ← one_or_none grants;
      _ ← se_when (bool_decide (j_desired_state job = DS_CANCELLED)
                && bool_decide (j_job_id job = at_job_id attempt)
                && bool_decide (at_worker_id attempt = worker_id))
            (stale_authority "Job cancellation is committed");
      match lease, allocation, grant with
      | Some lease, Some allocation, Some grant =>
          let found := {| ar_job := job; ar_attempt := attempt; ar_lease := lease;
                          ar_allocation := allocation; ar_grant := grant |} in
          _ ← se_when (negb (authority_matches authority worker_id found))
                (stale_authority "Worker authority is stale");
          mret found
      | _, _, _ => se_raise (stale_authority "Worker authority is stale")
      end
  end.

(** The job's check constraint excludes the states STARTING and CHECKPOINTING the
    source also lists for a normal run. *)
Definition _live_authority (r : AuthorityRows) (now : Z) : Tx () :=
  let job := ar_job r in
  let attempt := ar_attempt r in
  let paused := bool_decide (j_desired_state job = DS_PAUSED) in
  _ ← se_when (bool_decide (j_desired_state job = DS_CANCELLED))
        (stale_authority "Job cancellation is committed");
  let normal_run :=
    bool_decide (j_desired_state job = DS_RUNNING) &&
    bool_decide (j_state job ∈ [JS_DISPATCHING; JS_RUNNING]) &&
    bool_decide (at_execution_intent attempt = "RUN") in
  let pausing_run :=
    paused && bool_decide (j_state job = JS_PAUSING) &&
    bool_decide (at_execution_intent attempt = "RUN") in
  let checkpoint_for_pause :=
    paused && bool_decide (j_state job ∈ [JS_DISPATCHING; JS_PAUSING]) &&
    bool_decide (at_execution_intent attempt = "CHECKPOINT_FOR_PAUSE") in
  let live_states :=
    [AS_CREATED; AS_CLAIMED; AS_STARTING; AS_RUNNING; AS_CHECKPOINTING] ++
    (if paused then [AS_STOPPING] else []) in
  se_when (negb (normal_run || pausing_run || checkpoint_for_pause)
        || negb (bool_decide (at_state attempt ∈ live_states))
        || negb (bool_decide (al_state (ar_allocation r) = AL_HELD))
        || negb (live_lease (ar_lease r))
        || (le_expires_at (ar_lease r) <=? now))
    (stale_authority "Attempt is not live").

Definition _result_authority (r : AuthorityRows) : Tx () :=
  se_when (negb (bool_decide (j_desired_state (ar_job r) = DS_RUNNING))
        || negb (bool_decide (at_execution_intent (ar_attempt r) = "RUN")))
    (stale_authority "Attempt may not produce a result").

(** ** Renewal and adoption *)

Definition _LEASE_DURATION : Z := seconds 45.

(** What a worker callback carries besides its body, and the clock readings of the
    credential checks and of the handler. *)
Record CallbackHeader := {
  h_worker_id : string;
  h_credential : string;
  h_attempt_id : string;
  h_callback_id : string;
  h_payload_hash : string;
  h_auth_time : Z;
  h_recheck_time : Z;
  h_now : Z;
}.

Record RenewRequest := { rn_authority : Authority; rn_progress_sequence : Z; rn_progress : pyval }.

Definition has_attempt (attempt_id : string) (r : AttemptRow) : bool :=
  bool_decide (at_attempt_id r = attempt_id).
Definition has_lease (lease_id : string) (r : LeaseRow) : bool := bool_decide (le_lease_id r = lease_id).

Definition assert_receipt (receipt_id : option string) : Tx () :=
  se_when (is_none receipt_id) (PyError (Exn "AssertionError" "")).

Definition incarnation_current (r : AuthorityRows) (incarnation : string) : bool :=
  bool_decide (at_worker_incarnation_id (ar_attempt r) = Some incarnation) &&
  bool_decide (le_current_worker_incarnation_id (ar_lease r) = Some incarnation).

Definition renew_attempt (h : CallbackHeader) (request : RenewRequest) : Tx Ack :=
  '(receipt_id, replay) ← _begin_callback (h_worker_id h) "workerRenewAttempt" (h_callback_id h)
                            (h_payload_hash h);
  mode ← _mode;
  worker ← _worker_auth (h_worker_id h) (h_credential h) (h_auth_time h);
  let authority := rn_authority request in
  _ ← se_when (negb (bool_decide (a_attempt_id authority = h_attempt_id h))
            || negb (bool_decide (wk_current_incarnation_id worker = Some (a_worker_incarnation_id authority))))
        (stale_authority "Authority is stale");
  _ ← _require_current_incarnation worker (a_worker_incarnation_id authority) false;
  match replay with
  | Some replay => mret replay
  | None =>
      _ ← se_when (bool_decide (mode = WRITE_FROZEN)) (state_conflict "Writes are frozen");
      r ← _authority_rows authority (h_worker_id h);
      _ ← revalidate_worker_credential (h_credential h) (h_worker_id h) (h_recheck_time h);
      let now := h_now h in
      _ ← _live_authority r now;
      _ ← se_when (negb (incarnation_current r (a_worker_incarnation_id authority)))
            (stale_authority "Authority is stale");
      let sequence := rn_progress_sequence request in
      let recorded := at_progress_sequence (ar_attempt r) in
      _ ← se_when ((sequence <? recorded)
                || ((sequence =? recorded) && negb (py_eq (rn_progress request) (at_progress_snapshot (ar_attempt r)))))
            (state_conflict "Progress sequence conflicts");
      _ ← (if recorded <? sequence
           then update_ T_attempts (has_attempt (h_attempt_id h))
                  (λ a, a <| at_progress_sequence := sequence |> <| at_progress_snapshot := rn_progress request |>)
           else mret ());
      let expiry := now + _LEASE_DURATION in
      _ ← update_ T_attempt_leases (has_lease (a_lease_id authority)) (λ l, l <| le_expires_at := expiry |>);
      let response := AckRenew now expiry (j_desired_state (ar_job r)) in
      _ ← assert_receipt receipt_id;
      _ ← _complete_callback receipt_id response;
      mret response
  end.

Record ContainerRef := { ct_container_id : string; ct_runtime_identity_digest : string }.

Record AdoptRequest := {
  ad_prior_authority : Authority;
  ad_current_worker_incarnation_id : string;
  ad_container : ContainerRef;
}.

Definition adopt_attempt (h : CallbackHeader) (request : AdoptRequest) : Tx Ack :=
  '(receipt_id, replay) ← _begin_callback (h_worker_id h) "workerAdoptAttempt" (h_callback_id h)
                            (h_payload_hash h);
  mode ← _mode;
  worker ← _worker_auth (h_worker_id h) (h_credential h) (h_auth_time h);
  let current := ad_current_worker_incarnation_id request in
  incarnation ← _require_current_incarnation worker current true;
  let prior := ad_prior_authority request in
  _ ← se_when (negb (bool_decide (a_attempt_id prior = h_attempt_id h))
            || negb (bool_decide (a_worker_id prior = h_worker_id h)))
        (state_conflict "Authority mismatch");
  predecessors ← select T_worker_incarnations (λ r,
    bool_decide (wi_worker_incarnation_id r = a_worker_incarnation_id prior) &&
    bool_decide (wi_worker_id r = h_worker_id h));
  predecessor ← one_or_none predecessors;
  _ ← se_when (match predecessor with
               | None => true
               | Some p => is_none (wi_ended_at p) || negb (wi_sequence p + 1 =? wi_sequence incarnation)
               end)
        (state_conflict "Not the prior incarnation");
  match replay with
  | Some replay => mret replay
  | None =>
      _ ← se_when (bool_decide (mode = WRITE_FROZEN)) (state_conflict "Writes are frozen");
      r ← _authority_rows prior (h_worker_id h);
      containers ← select T_container_identities (λ c,
        bool_decide (ci_attempt_id c = h_attempt_id h) &&
        bool_decide (ci_container_id c = ct_container_id (ad_container request)));
      container ← one_or_none containers;
      _ ← se_when (match container with
                   | None => true
                   | Some c =>
                       negb (bool_decide (ci_allocation_id c = a_allocation_id prior))
                       || negb (bool_decide (ci_startup_nonce c = at_startup_nonce (ar_attempt r)))
                       || negb (bool_decide (ci_runtime_identity_digest c
                                             = ct_runtime_identity_digest (ad_container request)))
                       || negb (is_none (ci_stopped_at c))
                   end)
            (state_conflict "Container identity mismatch");
      checkpoints ← select T_checkpoint_reservations (λ c,
        bool_decide (ck_attempt_id c = h_attempt_id h) && bool_decide (ck_state c = "RESERVED"));
      checkpoint ← one_or_none checkpoints;
      results ← select T_result_reservations (λ c,
        bool_decide (rr_attempt_id c = h_attempt_id h) && bool_decide (rr_state c = "ACTIVE"));
      result ← one_or_none results;
      let grant_id := gr_grant_id (ar_grant r) in
      let foreign g := negb (bool_decide (g = grant_id)) in
      _ ← se_when (match checkpoint with Some c => foreign (ck_authority_grant_id c) | None => false end
                || match result with Some c => foreign (rr_authority_grant_id c) | None => false end)
            (state_conflict "Reservation lineage mismatch");
      _ ← revalidate_worker_credential (h_credential h) (h_worker_id h) (h_recheck_time h);
      let now := h_now h in
      _ ← _live_authority r now;
      _ ← se_when (negb (incarnation_current r (a_worker_incarnation_id prior)))
            (stale_authority "Authority is stale");
      next_grant ← new_uuid7;
      _ ← update_ T_attempt_authority_grants (λ g, bool_decide (gr_grant_id g = grant_id))
            (λ g, g <| gr_ended_at := Some now |>);
      _ ← insert T_attempt_authority_grants
            (MkGrantRow next_grant (at_tenant_id (ar_attempt r)) (j_job_id (ar_job r)) (h_attempt_id h)
               (a_allocation_id prior) (a_lease_id prior) (h_worker_id h) (Some current)
               (a_job_fence prior) (Some grant_id) (h_callback_id h) now None);
      let expiry := now + _LEASE_DURATION in
      _ ← update_ T_attempts (has_attempt (h_attempt_id h))
            (λ a, a <| at_worker_incarnation_id := Some current |>);
      _ ← update_ T_attempt_leases (has_lease (a_lease_id prior))
            (λ l, l <| le_current_worker_incarnation_id := Some current |> <| le_expires_at := expiry |>);
      _ ← match checkpoint with
          | None => mret ()
          | Some c => update_ T_checkpoint_reservations
                        (λ x, bool_decide (ck_checkpoint_id x = ck_checkpoint_id c))
                        (λ x, x <| ck_authority_grant_id := next_grant |>)
          end;
      _ ← match result with
          | None => mret ()
          | Some c => update_ T_result_reservations (λ x, bool_decide (rr_result_id x = rr_result_id c))
                        (λ x, x <| rr_authority_grant_id := next_grant |>)
          end;
      let response :=
        AckAdopt (h_callback_id h) now
          {| a_worker_id := h_worker_id h; a_worker_incarnation_id := current;
             a_attempt_id := h_attempt_id h; a_allocation_id := a_allocation_id prior;
             a_lease_id := a_lease_id prior; a_job_fence := a_job_fence prior |}
          (ck_checkpoint_id <$> checkpoint) (rr_result_id <$> result) expiry in
      _ ← assert_receipt receipt_id;
      _ ← _complete_callback receipt_id response;
      mret response
  end.

(** ** Starting an attempt and reserving its result *)

(** The receipt, and the acknowledgment to replay or the rows of a live callback. *)
Definition _callback (h : CallbackHeader) (authority : Authority) (operation_id : string)
    : Tx (option string * (Ack + AuthorityRows)) :=
  _ ← se_when (negb (bool_decide (a_attempt_id authority = h_attempt_id h)))
        (state_conflict "Attempt identity mismatch");
  '(receipt, replay) ← _begin_callback (a_worker_id authority) operation_id (h_callback_id h)
                         (h_payload_hash h);
  _ ← _mode;
  worker ← _worker_auth (a_worker_id authority) (h_credential h) (h_auth_time h);
  _ ← _require_current_incarnation worker (a_worker_incarnation_id authority) false;
  match replay with
  | Some replay => mret (receipt, inl replay)
  | None =>
      r ← _authority_rows authority (a_worker_id authority);
      mret (receipt, inr r)
  end.

Definition reserve_result (h : CallbackHeader) (authority : Authority) : Tx Ack :=
  '(receipt, found) ← _callback h authority "workerReserveResult";
  match found with
  | inl replay => mret replay
  | inr r =>
      let now := h_now h in
      _ ← _live_authority r now;
      _ ← _result_authority r;
      _ ← se_when (negb (bool_decide (at_state (ar_attempt r) = AS_RUNNING)))
            (state_conflict "Attempt has not started");
      existing ← select T_result_reservations (λ c,
        bool_decide (rr_job_id c = j_job_id (ar_job r)) && bool_decide (rr_state c = "ACTIVE"));
      existing ← one_or_none existing;
      _ ← se_when (negb (is_none existing))
            (state_conflict "A different result reservation callback is already active");
      result_id ← new_uuid7;
      _ ← insert T_result_reservations
            (MkResultReservationRow result_id (j_tenant_id (ar_job r)) (j_job_id (ar_job r)) (h_attempt_id h)
               (gr_grant_id (ar_grant r)) (h_callback_id h) "ACTIVE" now);
      let body := AckReserveResult (h_callback_id h) result_id (j_job_id (ar_job r)) (h_attempt_id h) now in
      _ ← _complete_callback receipt body;
      mret body
  end.

(** The job row with its version and event sequence advanced. *)
Definition next_version (job r : JobRow) : JobRow :=
  r <| j_version := j_version job + 1 |> <| j_event_sequence := j_event_sequence job + 1 |>.

Definition _transition (job : JobRow) (authority : Authority) (st : JobState) (event_type : string)
    (changes : JobRow → JobRow) : Tx () :=
  _ ← update_ T_jobs (λ r, bool_decide (j_job_id r = j_job_id job))
        (λ r, next_version job ((changes r) <| j_state := st |>));
  event_id ← new_uuid7;
  _ ← insert T_events
        (MkEventRow event_id (j_tenant_id job) (j_job_id job) (j_event_sequence job + 1) event_type
           (Some (str_lower event_type)) "WORKER" (a_worker_id authority));
  audit_id ← new_uuid7;
  insert T_audit_records
    (MkAuditRow audit_id "WORKER" (a_worker_id authority) (Some (j_tenant_id job)) (str_lower event_type) "JOB"
       (j_job_id job) (Some (j_version job)) (Some (j_version job + 1)) (Some (str_lower event_type))).

Definition _inherits (job_id : string) : Tx bool :=
  references ← select T_checkpoint_references (λ r, bool_decide (cf_target_job_id r = job_id));
  mret (negb (bool_decide (length references = 0%nat))).

Record StartRequest := {
  st_authority : Authority;
  st_startup_nonce : string;
  st_executor_operation_sequence : Z;
  st_container : ContainerRef;
}.

Definition start_attempt (h : CallbackHeader) (request : StartRequest) : Tx Ack :=
  let authority := st_authority request in
  '(receipt, found) ← _callback h authority "workerStartAttempt";
  match found with
  | inl replay => mret replay
  | inr r =>
      let now := h_now h in
      let job := ar_job r in
      let attempt := ar_attempt r in
      _ ← _live_authority r now;
      _ ← se_when (negb (bool_decide (at_state attempt = AS_CLAIMED))
                || is_none (at_claimed_at attempt)
                || (at_created_at attempt + seconds 30 <=? now)
                || negb (bool_decide (st_startup_nonce request = at_startup_nonce attempt)))
            (state_conflict "Attempt startup identity or budget is invalid");
      let context := at_execution_context attempt in
      inherits ← (if 1 <? at_attempt_number attempt then mret true else _inherits (j_job_id job));
      _ ← se_when (inherits
                && negb (py_truth (get_key "restart_safe" (get_key "template_snapshot" context)))
                && is_VNone (get_key "restore_checkpoint" context))
            (state_conflict "Checkpoint restore is required for this Attempt");
      _ ← insert T_container_identities
            (MkContainerRow (j_tenant_id job) (j_job_id job) (h_attempt_id h) (a_allocation_id authority)
               (st_startup_nonce request) (st_executor_operation_sequence request)
               (ct_container_id (st_container request)) (ct_runtime_identity_digest (st_container request))
               now None None);
      let expires := now + seconds 45 in
      _ ← update_ T_attempts (has_attempt (h_attempt_id h))
            (λ a, a <| at_state := AS_RUNNING |> <| at_started_at := Some now |>
                    <| at_executor_operation_sequence := Some (st_executor_operation_sequence request) |>);
      _ ← update_ T_attempt_leases (has_lease (a_lease_id authority)) (λ l, l <| le_expires_at := expires |>);
      let started :=
        if bool_decide (at_execution_intent attempt = "CHECKPOINT_FOR_PAUSE") then JS_PAUSING else JS_RUNNING in
      _ ← _transition job authority started "ATTEMPT_STARTED" (λ r, r);
      let body := AckStart (h_callback_id h) now started (j_version job + 1) expires in
      _ ← _complete_callback receipt body;
      mret body
  end.
End secrets.
