(* ===== verification/Capabilities.v ===== *)
(** * Adapters and worker capabilities

    [src/nexa/domain/workload_adapters.py], the allowlist of workload adapters, and
    the functions of [src/nexa/application/job_service.py] that decide whether a
    template runs on a worker's inventory.  Version strings are compared as
    sequences of numbers; the comparison is shown equivalent to comparing the
    versions continued with zeros.  Strings hold ASCII characters, so [isdigit]
    accepts the digits [0] to [9] alone. *)

From Stdlib Require Import Ascii.
From S2P Require Import Prelude PyDecimal PyValue WorkerModels Database Authority.

Local Open Scope string_scope.
Local Open Scope list_scope.
Local Open Scope Z_scope.

(** ** The adapters *)

Definition JSON : string := "application/json".
Definition OCTET_STREAM : string := "application/octet-stream".
Definition ARROW_FILE : string := "application/vnd.apache.arrow.file".
Definition NDJSON : string := "application/x-ndjson".
Definition PARQUET : string := "application/vnd.apache.parquet".
Definition CPU_RESULT : string := "application/vnd.nexa.cpu-iterative-result+json".

Record FileRule := { rule_logical_name : string; rule_media_type : string }.

Record AdapterDescriptor := {
  adapter_id : string;
  adapter_version : string;
  template_id : string;
  framework : string;
  manifest_framework : string;
  framework_version : option string;
  checkpoint_format : string;
  checkpoint_label_required : bool;
  input_kind : string;
  input_media_type : string;
  input_target_path : string;
  model_kind : option string;
  model_media_type : option string;
  model_target_path : option string;
  state_components : list string;
  checkpoint_files : list FileRule;
  result_files : list FileRule;
  chunked : bool;
  upload_media_types : list (string * list string);
}.

(** One or more digits, and what follows them. *)
Fixpoint skip_digits (s : string) : string :=
  match s with
  | String c s' => if is_digit c then skip_digits s' else s
  | "" => ""
  end.
Definition eat_number (s : string) : option string :=
  match s with
  | String c s' => if is_digit c then Some (skip_digits s') else None
  | "" => None
  end.
Definition eat_dot (s : string) : option string :=
  match s with
  | String c s' => if Ascii.eqb c "."%char then Some s' else None
  | "" => None
  end.

Definition label_char (c : ascii) : bool :=
  is_digit c || in_range "A"%char "Z"%char c || in_range "a"%char "z"%char c
  || Ascii.eqb c "."%char || Ascii.eqb c "-"%char.

(** Three numbers separated by dots, then optionally a hyphen or a plus sign and a
    label. *)
Definition _SEMVER_LABELLED (s : string) : bool :=
  match (a ← eat_number s; b ← eat_dot a; c ← eat_number b; d ← eat_dot c; eat_number d) with
  | None => false
  | Some "" => true
  | Some (String c rest) =>
      (Ascii.eqb c "-"%char || Ascii.eqb c "+"%char) && negb (String.eqb rest "") && string_forall label_char rest
  end.

Definition framework_version_matches (d : AdapterDescriptor) (value : pyval) : bool :=
  match value with
  | VStr v =>
      _SEMVER_LABELLED v && match framework_version d with None => true | Some w => String.eqb v w end
  | _ => false
  end.

Definition CPU_ITERATIVE : AdapterDescriptor := {|
  adapter_id := "cpu.iterative";
  adapter_version := "1.0.0";
  template_id := "cpu-iterative";
  framework := "NEXA_CPU";
  manifest_framework := "PYTHON";
  framework_version := Some "1.0.0";
  checkpoint_format := "cpu-state-v1";
  checkpoint_label_required := false;
  input_kind := "INPUT";
  input_media_type := "application/vnd.nexa.cpu-iterative-input+json";
  input_target_path := "/input/input.json";
  model_kind := None;
  model_media_type := None;
  model_target_path := None;
  state_components := ["ACCUMULATOR"];
  checkpoint_files := [{| rule_logical_name := "state.json"; rule_media_type := JSON |}];
  result_files := [{| rule_logical_name := "result.json"; rule_media_type := CPU_RESULT |}];
  chunked := false;
  upload_media_types :=
    [("RESULT_FILE", [CPU_RESULT; JSON]); ("RESULT_MANIFEST", [JSON]); ("CHECKPOINT_FILE", [JSON]);
     ("CHECKPOINT_MANIFEST", [JSON])];
|}.

Definition PYTORCH_CIFAR10 : AdapterDescriptor := {|
  adapter_id := "pytorch.cifar10";
  adapter_version := "1.0.0";
  template_id := "pytorch-cifar10-cnn";
  framework := "PYTORCH";
  manifest_framework := "PYTORCH";
  framework_version := None;
  checkpoint_format := "pytorch-cifar10-state-v1";
  checkpoint_label_required := true;
  input_kind := "DATASET";
  input_media_type := ARROW_FILE;
  input_target_path := "/input/dataset.arrow";
  model_kind := None;
  model_media_type := None;
  model_target_path := None;
  state_components := ["MODEL"; "OPTIMIZER"; "RNG_PYTHON"; "RNG_NUMPY"; "RNG_TORCH_CPU"; "SAMPLER"];
  checkpoint_files :=
    [{| rule_logical_name := "model.safetensors"; rule_media_type := OCTET_STREAM |};
     {| rule_logical_name := "optimizer.safetensors"; rule_media_type := OCTET_STREAM |};
     {| rule_logical_name := "rng.safetensors"; rule_media_type := OCTET_STREAM |};
     {| rule_logical_name := "training-state.json"; rule_media_type := JSON |}];
  result_files :=
    [{| rule_logical_name := "model.safetensors"; rule_media_type := OCTET_STREAM |};
     {| rule_logical_name := "metrics.json"; rule_media_type := JSON |}];
  chunked := false;
  upload_media_types :=
    [("RESULT_FILE", [OCTET_STREAM; JSON]); ("RESULT_MANIFEST", [JSON]); ("CHECKPOINT_FILE", [OCTET_STREAM; JSON]);
     ("CHECKPOINT_MANIFEST", [JSON])];
|}.

Definition BATCH_INFERENCE : AdapterDescriptor := {|
  adapter_id := "batch.inference";
  adapter_version := "1.0.0";
  template_id := "batch-inference";
  framework := "PYTORCH";
  manifest_framework := "PYTORCH";
  framework_version := None;
  checkpoint_format := "batch-inference-state-v1";
  checkpoint_label_required := true;
  input_kind := "DATASET";
  input_media_type := ARROW_FILE;
  input_target_path := "/input/dataset.arrow";
  model_kind := Some "MODEL";
  model_media_type := Some OCTET_STREAM;
  model_target_path := Some "/input/model.safetensors";
  state_components := ["INFERENCE_CURSOR"];
  checkpoint_files := [{| rule_logical_name := "inference-state.json"; rule_media_type := JSON |}];
  result_files := [{| rule_logical_name := "summary.json"; rule_media_type := JSON |}];
  chunked := true;
  upload_media_types :=
    [("RESULT_FILE", [JSON; NDJSON; PARQUET]); ("RESULT_MANIFEST", [JSON]); ("CHECKPOINT_FILE", [JSON]);
     ("CHECKPOINT_MANIFEST", [JSON]); ("CHUNK_OUTPUT_MANIFEST", [JSON])];
|}.

Definition DESCRIPTORS : list AdapterDescriptor := [CPU_ITERATIVE; PYTORCH_CIFAR10; BATCH_INFERENCE].
Definition _BY_ADAPTER : list ((string * string) * AdapterDescriptor) :=
  (λ d, ((adapter_id d, adapter_version d), d)) <$> DESCRIPTORS.
Definition _BY_TEMPLATE : list (string * AdapterDescriptor) := (λ d, (template_id d, d)) <$> DESCRIPTORS.

(** A dictionary's key must be hashable: a list or a document is not. *)
Definition hashable (v : pyval) : bool := match v with VList _ | VDict _ => false | _ => true end.
Definition unhashable : SvcError := PyError (Exn "TypeError" "unhashable type").

Definition descriptor (id version : pyval) : outcome SvcError (option AdapterDescriptor) :=
  if negb (hashable id && hashable version) then Raise unhashable
  else Ret match id, version with
           | VStr i, VStr v => dict_get (i, v) _BY_ADAPTER
           | _, _ => None
           end.

(** The adapters are told apart by their identifiers: [owner is not found]. *)
Definition same_adapter (d e : AdapterDescriptor) : bool := bool_decide (adapter_id d = adapter_id e).

Definition template_descriptor (template : TemplateRow) : option AdapterDescriptor :=
  match dict_get (tv_adapter_id template, tv_adapter_version template) _BY_ADAPTER with
  | Some found => if bool_decide (template_id found = tv_template_id template) then Some found else None
  | None => None
  end.

Definition runtime_descriptor (template : TemplateRow) : option AdapterDescriptor :=
  match dict_get (tv_adapter_id template, tv_adapter_version template) _BY_ADAPTER with
  | None => None
  | Some found =>
      match dict_get (tv_template_id template) _BY_TEMPLATE with
      | Some owner => if same_adapter owner found then Some found else None
      | None => Some found
      end
  end.

Definition descriptor_for_labels (labels : pyval) : outcome SvcError (option AdapterDescriptor) :=
  match labels with
  | VDict _ =>
      if negb (py_eq (get_key "io.nexa.runner" labels) (VStr "trusted-runner-v1")) then Ret None
      else
        found ← descriptor (get_key "io.nexa.adapter.id" labels) (get_key "io.nexa.adapter.version" labels);
        Ret match found with
            | None => None
            | Some found =>
                if negb (py_eq (get_key "io.nexa.framework" labels) (VStr (framework found)))
                   || negb (framework_version_matches found (get_key "io.nexa.framework.version" labels))
                then None
                else
                  let checkpoint := get_key "io.nexa.runner.checkpoint" labels in
                  if negb (py_eq checkpoint (VStr (checkpoint_format found)))
                     && (checkpoint_label_required found || negb (is_VNone checkpoint))
                  then None else Some found
            end
  | _ => Ret None
  end.

(** ** Versions *)

(** [value.split(sep, 1)[0]]. *)
Fixpoint before (sep : ascii) (s : string) : string :=
  match s with
  | "" => ""
  | String c s => if Ascii.eqb c sep then "" else String c (before sep s)
  end.

Definition digit_of (c : ascii) : Z := Z.of_nat (nat_of_ascii c) - 48.
Fixpoint number_of (acc : Z) (s : string) : Z :=
  match s with
  | "" => acc
  | String c s => number_of (acc * 10 + digit_of c) s
  end.

Definition _version_parts (value : pyval) : option (list Z) :=
  match value with
  | VStr v =>
      if String.eqb v "" then None
      else
        let parts := split_on "."%char (before "-"%char (before "+"%char v)) in
        if negb (forallb is_number parts) then None else Some (number_of 0 <$> parts)
  | _ => None
  end.

(** [a >= b] on tuples. *)
Fixpoint tuple_ge (a b : list Z) : bool :=
  match a, b with
  | _, [] => true
  | [], _ :: _ => false
  | x :: a, y :: b => (y <? x) || ((x =? y) && tuple_ge a b)
  end.

Definition pad (width : nat) (l : list Z) : list Z := l ++ replicate (width - length l) 0.

Definition _version_at_least (actual minimum : pyval) : bool :=
  if is_VNone minimum then true
  else
    match _version_parts actual, _version_parts minimum with
    | Some a, Some m =>
        let width := Nat.max (length a) (length m) in
        tuple_ge (pad width a) (pad width m)
    | _, _ => false
    end.

(** ** Requirements and inventories *)

Definition infeasible (message : string) : SvcError := ApplicationError "infeasible_request" 422 message.
Definition invalid_requirements : SvcError := infeasible "The template capability requirements are invalid".

Definition requirement_keys : list string :=
  ["architectures"; "adapter_id"; "adapter_version"; "image_digest"; "device"; "framework"; "framework_version";
   "cuda_runtime_min"; "driver_min"; "compute_capability_min"].

Definition is_str (v : pyval) : bool := match v with VStr _ => true | _ => false end.
Definition str_in (v : pyval) (l : list string) : bool :=
  match v with VStr s => bool_decide (s ∈ l) | _ => false end.

(** [value in {..}] of a set of strings. *)
Definition in_set (v : pyval) (l : list string) : outcome SvcError bool :=
  if hashable v then Ret (str_in v l) else Raise unhashable.

Definition str_of (v : pyval) : string := match v with VStr s => s | _ => "" end.

Definition bad_architectures (v : pyval) : bool :=
  match v with
  | VList l =>
      (length l =? 0)%nat || negb (forallb (λ a, str_in a ["linux/amd64"; "linux/arm64"]) l)
      || negb (length l =? length (remove_dups (str_of <$> l)))%nat
  | _ => true
  end.

(** [any(not isinstance(..))]: a string that is there and not empty. *)
Definition text_field (v : pyval) : bool := is_str v && py_truth v.

Definition template_field (template : TemplateRow) (key : string) : pyval :=
  if bool_decide (key = "adapter_id") then VStr (tv_adapter_id template)
  else if bool_decide (key = "adapter_version") then VStr (tv_adapter_version template)
  else VStr (tv_image_digest template).

Definition _inventory_requirements (template : TemplateRow) : outcome SvcError (list (string * pyval)) :=
  let raw := tv_capability_requirements template in
  match (if py_truth raw then raw else VDict []) with
  | VDict requirements =>
      let field k := get_key k (VDict requirements) in
      _ ← raise_when (negb (bool_decide (requirements.*1 ⊆ requirement_keys)
                            && bool_decide (requirement_keys ⊆ requirements.*1))) invalid_requirements;
      _ ← raise_when (bad_architectures (field "architectures")) invalid_requirements;
      _ ← raise_when (negb (forallb (λ k, text_field (field k))
                              ["adapter_id"; "adapter_version"; "image_digest"; "framework_version"]))
            invalid_requirements;
      device ← in_set (field "device") ["CPU"; "CUDA"];
      _ ← raise_when (negb device) invalid_requirements;
      framework ← in_set (field "framework") ["PYTORCH"; "NEXA_CPU"];
      _ ← raise_when (negb framework) invalid_requirements;
      _ ← raise_when (negb (forallb (λ k, is_VNone (field k) || text_field (field k))
                              ["cuda_runtime_min"; "driver_min"; "compute_capability_min"]))
            invalid_requirements;
      _ ← raise_when (negb (forallb (λ k, py_eq (field k) (template_field template k))
                              ["adapter_id"; "adapter_version"; "image_digest"]))
            (infeasible "The template capability binding is inconsistent");
      Ret (List.filter (λ kv, negb (is_VNone kv.2)) requirements)
  | _ => Raise (infeasible "The template capability requirements are unavailable")
  end.

(** The elements of a list that are documents. *)
Definition documents (v : pyval) : list pyval :=
  match v with
  | VList l => List.filter (λ e, match e with VDict _ => true | _ => false end) l
  | _ => []
  end.
Definition is_list (v : pyval) : bool := match v with VList _ => true | _ => false end.
Definition is_true (v : pyval) : bool := match v with VBool true => true | _ => false end.

(** [value in architectures] of a list. *)
Definition member (v l : pyval) : bool := match l with VList l => existsb (py_eq v) l | _ => false end.

Section supports.
Context (row : list (string * pyval)) (requirements : list (string * pyval)).

Definition req (k : string) : pyval := get_key k (VDict requirements).
Definition has_req (k : string) : bool := negb (is_VNone (req k)).
Definition of_row (k : string) : pyval := get_key k (VDict row).

(** A requirement that is absent, or equal to the entry's field. *)
Definition agrees (k : string) (entry : pyval) : bool := negb (has_req k) || py_eq (get_key k entry) (req k).

Definition adapters_support (capabilities : pyval) : bool :=
  negb (has_req "adapter_id" || has_req "adapter_version")
  || existsb (λ e, py_eq (get_key "adapter_id" e) (req "adapter_id")
                   && py_eq (get_key "adapter_version" e) (req "adapter_version"))
       (documents (get_key "adapters" capabilities)).

Definition images_support (capabilities : pyval) : bool :=
  negb (has_req "image_digest")
  || existsb (λ e, py_eq (get_key "image_digest" e) (req "image_digest") && is_true (get_key "verified" e)
                   && py_eq (get_key "architecture" e) (of_row "architecture"))
       (documents (get_key "images" capabilities)).

Definition frameworks_support (capabilities : pyval) : bool :=
  negb (has_req "framework" || has_req "framework_version" || has_req "device" || has_req "cuda_runtime_min")
  || existsb (λ e, agrees "framework" e && agrees "framework_version" e && agrees "device" e
                   && _version_at_least (get_key "cuda_runtime_version" e) (req "cuda_runtime_min"))
       (documents (get_key "frameworks" capabilities)).

Definition devices_support (capabilities : pyval) : bool :=
  negb (py_eq (req "device") (VStr "CUDA"))
  || existsb (λ e, is_true (get_key "healthy" e)
                   && _version_at_least (get_key "driver_version" e) (req "driver_min")
                   && _version_at_least (get_key "compute_capability" e) (req "compute_capability_min"))
       (documents (if is_list (of_row "gpu_devices") then of_row "gpu_devices"
                   else get_key "gpu_devices" capabilities)).

Definition _inventory_supports : bool :=
  if (length requirements =? 0)%nat then true
  else if has_req "architectures" && negb (member (of_row "architecture") (req "architectures")) then false
  else
    match (let c := of_row "workload_capabilities" in if py_truth c then c else VDict []) with
    | VDict d =>
        let capabilities := VDict d in
        adapters_support capabilities && images_support capabilities && frameworks_support capabilities
        && devices_support capabilities
    | _ => false
    end.
End supports.

Definition template_runs_on (template : TemplateRow) (inventory : list (string * pyval)) : outcome SvcError bool :=
  match runtime_descriptor template with
  | None => Ret false
  | Some adapter =>
      match _inventory_requirements template with
      | Raise (ApplicationError _ _ _) => Ret false
      | Raise e => Raise e
      | Ret requirements =>
          Ret (py_eq (get_key "framework" (VDict requirements)) (VStr (framework adapter))
               && _inventory_supports inventory requirements)
      end
  end.

Definition _worker_is_ready (row : WorkerRow) (now : Z) : bool :=
  bool_decide (wk_health row = "READY") && bool_decide (wk_admin_state row = "ENABLED")
  && match wk_last_heartbeat_at row with Some heartbeat => now - seconds 30 <=? heartbeat | None => false end.

(** ** Comparing versions *)

(** The reference: a version is its numbers continued with zeros for ever, and one
    is at least another when they agree everywhere or are decided, at the first place
    they differ, by the larger number. *)
Definition version_at (l : list Z) (n : nat) : Z := nth n l 0.
Definition version_ge (a m : list Z) : Prop :=
  (∀ n, version_at a n = version_at m n) ∨
  ∃ k, (∀ n, (n < k)%nat → version_at a n = version_at m n) ∧ version_at m k < version_at a k.

Lemma version_at_pad w l n : version_at (pad w l) n = version_at l n.
Proof.
  unfold version_at, pad. destruct (decide (n < length l)%nat) as [Hn|Hn].
  - by rewrite app_nth1.
  - rewrite app_nth2, (nth_overflow l) by lia. generalize (n - length l)%nat, (w - length l)%nat.
    intros i k. revert i. induction k as [|k IH]; intros [|i]; cbn; auto.
Qed.

Lemma tuple_ge_spec a b : length a = length b → tuple_ge a b = true ↔ version_ge a b.
Proof.
  revert b. induction a as [|x a IH]; intros [|y b] Hlen; [..|injection Hlen as Hlen]; cbn [tuple_ge]; try done.
  - split; [|done]. intros _. by left.
  - rewrite orb_true_iff, andb_true_iff, Z.ltb_lt, Z.eqb_eq, (IH b Hlen). split.
    + intros [Hlt|[-> [Heq|(k & Heq & Hlt)]]].
      * right. exists 0%nat. split; [lia|done].
      * left. intros [|n]; [done|]. apply Heq.
      * right. exists (S k). split; [|done]. intros [|n] Hn; [done|]. apply Heq. lia.
    + intros [Heq|([|k] & Heq & Hlt)].
      * right. split; [apply (Heq 0%nat)|]. left. intros n. apply (Heq (S n)).
      * by left.
      * right. split; [apply (Heq 0%nat); lia|]. right. exists k. split; [|done]. intros n Hn. apply (Heq (S n)). lia.
Qed.

Lemma pad_length w l : (length l ≤ w)%nat → length (pad w l) = w.
Proof. intros H. unfold pad. rewrite length_app, length_replicate. lia. Qed.

(** Comparing padded tuples is comparing versions.  [_version_at_least], which
    pads the shorter of the two versions and compares tuples, accepts exactly when no
    minimum is asked for, or when both texts are versions and the actual one is at
    least the minimum as sequences continued with zeros: [1.2] is at least [1.2.0],
    and [1.10] is at least [1.9]. *)
Theorem version_comparison_equivalent actual minimum :
  _version_at_least actual minimum = true ↔
  minimum = VNone ∨
  ∃ a m, _version_parts actual = Some a ∧ _version_parts minimum = Some m ∧ version_ge a m.
Proof.
  unfold _version_at_least. destruct (is_VNone minimum) eqn:Hmin.
  { split; [|done]. intros _. left. by destruct minimum. }
  assert (minimum ≠ VNone) as Hne by (by intros ->).
  destruct (_version_parts actual) as [a|], (_version_parts minimum) as [m|];
    try (split; [done|]; intros [?|(? & ? & ? & ? & _)]; congruence).
  rewrite tuple_ge_spec by (rewrite !pad_length; lia). unfold version_ge. setoid_rewrite version_at_pad.
  naive_solver.
Qed.
