(* ===== verification/Training.v ===== *)
(** * Training states and launch documents

    [src/nexa/workloads/training_state.py], the state document of a training
    checkpoint, and [src/nexa/workloads/adapter_launch.py], the launch document the
    worker writes and the runner checks, with the fixed command line made from it.
    The cursor the runner derives from a valid state is one the server accepts for
    the same job. *)

From Stdlib Require Import Ascii.
From stdpp Require Import pretty.
From S2P Require Import Prelude PyValue PyDecimal WorkerModels Database Authority Capabilities.
From S2P Require Import Json Strict Chunks Safetensors.

Local Open Scope string_scope.
Local Open Scope list_scope.
Local Open Scope Z_scope.

(** ** Numbers *)

Definition float_of_int (n : Z) : spec_float := binary_normalize 53 1024 n 0 false.
Definition finite (f : spec_float) : bool := match f with S754_zero _ | S754_finite _ _ _ => true | _ => false end.
Definition OverflowError : exn := Exn "OverflowError" "int too large to convert to float".
Definition float_unit (f : spec_float) : bool := SFltb (S754_zero false) f && SFleb f (float_of_int 1).

(** [type(v) in (int, float) and math.isfinite(v) and 0 < v <= 1]: [isfinite] converts an
    integer. *)
Definition unit_rate (v : pyval) : outcome exn bool :=
  match v with
  | VInt n => if finite (float_of_int n) then Ret ((0 <? n) && (n <=? 1)) else Raise OverflowError
  | VFloat f => Ret (finite f && float_unit f)
  | _ => Ret false
  end.

Definition ARCHITECTURE_VERSION : string := "1".
Definition PREPROCESSING : string := "cifar10-u8-chw-v1".
Definition OPTIMIZER : string := "sgd-momentum-v1".
(** [0.9] *)
Definition MOMENTUM : spec_float := py_float "0.9".

(** ** [pytorch_arch.py] *)

Module Arch.
Definition MT19937_WORDS : Z := 624.
Definition TORCH_CPU_RNG_BYTES : Z := 5056.
Definition PARAMETERS : list (string * list Z) :=
  [("conv1.weight", [16; 3; 3; 3]); ("conv1.bias", [16]); ("conv2.weight", [32; 16; 3; 3]); ("conv2.bias", [32]);
   ("fc1.weight", [64; 32 * 8 * 8]); ("fc1.bias", [64]); ("fc2.weight", [NUM_CLASSES; 64]); ("fc2.bias", [NUM_CLASSES])].
Definition PARAMETER_COUNT : Z := 136874.
Definition MODEL_METADATA : list (string * string) :=
  [("nexa.architecture_id", ARCHITECTURE_ID); ("nexa.architecture_version", ARCHITECTURE_VERSION);
   ("nexa.preprocessing", PREPROCESSING)].
Definition OPTIMIZER_PREFIX : string := "momentum_buffer.".
Definition OPTIMIZER_METADATA : list (string * string) := [("nexa.architecture_id", ARCHITECTURE_ID); ("nexa.optimizer", OPTIMIZER)].
Definition RNG_TENSORS : list (string * (string * list Z)) :=
  [("python.mt19937", ("U32", [MT19937_WORDS + 1])); ("numpy.mt19937", ("U32", [MT19937_WORDS + 1]));
   ("torch.cpu", ("U8", [TORCH_CPU_RNG_BYTES]))].
Definition RNG_METADATA : list (string * string) := [("nexa.rng", "python-numpy-torch-cpu-v1")].

(** [a == b] on dicts. *)
Definition same_dict {V} `{EqDecision V} (a b : list (string * V)) : bool :=
  (length a =? length b)%nat && forallb (λ '(k, v), bool_decide (dict_get k b = Some v)) a.

Definition _require (header : Header) (expected : list (string * (string * list Z))) (meta : list (string * string)) : outcome exn () :=
  _ ← raise_when (negb (same_dict (List.map (λ '(name, info), (name, (dtype info, shape info))) (tensors header)) expected))
        (SafetensorsError "tensor names, dtypes or shapes do not match the architecture");
  raise_when (negb (same_dict (metadata header) meta)) (SafetensorsError "file metadata does not match the architecture").

Definition validate_model_header (header : Header) : outcome exn () :=
  _require header (List.map (λ '(name, shape), (name, ("F32", shape))) PARAMETERS) MODEL_METADATA.
Definition validate_optimizer_header (header : Header) : outcome exn () :=
  _require header (List.map (λ '(name, shape), (OPTIMIZER_PREFIX +:+ name, ("F32", shape))) PARAMETERS) OPTIMIZER_METADATA.
Definition validate_rng_header (header : Header) : outcome exn () := _require header RNG_TENSORS RNG_METADATA.

(** The parameter count is that of the shapes. *)
Example parameter_count : foldr Z.add 0 (List.map (λ '(_, shape), _element_count shape) PARAMETERS) = PARAMETER_COUNT.
Proof. reflexivity. Qed.
End Arch.

(** ** [training_state.py] *)

Module State.
Definition TrainingStateError (message : string) : exn := Exn "TrainingStateError" message.

Definition FORMAT : string := "pytorch-cifar10-state-v1".
Definition SAMPLER_ALGORITHM : string := "nexa-sampler-v1".
Definition MAX_STATE_BYTES : Z := 16 * 1024.
Definition MAX_EPOCHS : Z := 100.
Definition MAX_BATCH_SIZE : Z := 512.
Definition MIN_SUBSET : Z := 100.
Definition MAX_SUBSET : Z := 50000.
Definition MAX_SEED : Z := 2 ^ 31 - 1.
Definition MAX_THREADS : Z := 64.
Definition STATE_FILE : string := "training-state.json".
Definition CHECKPOINT_FILES : list (string * string) :=
  [("model.safetensors", "model."); ("optimizer.safetensors", "optimizer."); ("rng.safetensors", "rng.")].
Definition state_fields : list string :=
  ["schema_version"; "format"; "architecture_id"; "architecture_version"; "preprocessing"; "optimizer"; "threads";
   "input_checksum"; "spec_checksum"; "cursor"; "sampler"; "sample_order"].

Definition batches_per_epoch (subset_size batch_size : Z) : Z := - ((- subset_size) / batch_size).

(** [struct.pack(f"<{len(order)}I", *order)] *)
Definition pack_u32s (order : list Z) : string := foldr (λ n s, le_bytes 4 n +:+ s) "" order.

(** [d[k]] of a nested document whose fields were checked. *)
Definition sub (k : string) (d : list (string * pyval)) : list (string * pyval) :=
  match field k d with VDict e => e | _ => [] end.
Definition is_none (v : pyval) : bool := match v with VNone => true | _ => false end.

Section state.
(** [hashlib.sha256(..).hexdigest()] and [random.Random(text).shuffle(list(range(size)))]. *)
Context (sha256_hex : string → string) (shuffled : string → Z → list Z).

Definition digest (data : string) : string := "sha256:" +:+ sha256_hex data.
Definition permutation (seed epoch size : Z) : list Z :=
  shuffled (SAMPLER_ALGORITHM +:+ ":" +:+ pretty seed +:+ ":" +:+ pretty epoch) size.
Definition permutation_checksum (order : list Z) : string := digest (pack_u32s order).
Definition initial_order_digest (epoch : Z) : string := digest ("nexa-sample-order-v1:" +:+ pretty epoch).

(** [bytes.fromhex] of a hexadecimal digest. *)
Fixpoint from_hex (s : string) : option string :=
  match s with
  | "" => Some ""
  | String a (String b r) =>
      x ← hex_value a; y ← hex_value b; rest ← from_hex r; Some (String (asc (x * 16 + y)) rest)
  | _ => None
  end.
Definition chain_order_digest (previous : string) (positions : list Z) : outcome exn string :=
  before ← or_raise (from_hex (default previous (strip_prefix "sha256:" previous)))
    (Exn "ValueError" "non-hexadecimal number found in fromhex() arg");
  Ret (digest (before +:+ pack_u32s positions)).

(** The sub-documents, each checked before its fields are read. *)
Definition check_optimizer (optimizer : pyval) : outcome exn () :=
  d ← as_fields optimizer ["algorithm"; "learning_rate"; "momentum"] (TrainingStateError "training state optimizer is invalid");
  raise_if_any
    [Ret (negb (str_is (field "algorithm" d) OPTIMIZER)); Ret (negb (py_eq (field "momentum" d) (VFloat MOMENTUM)));
     negb <$> unit_rate (field "learning_rate" d)]
    (TrainingStateError "training state optimizer is invalid").

Definition check_sampler (sampler : pyval) : outcome exn (list (string * pyval)) :=
  d ← as_fields sampler ["algorithm"; "seed"; "subset_size"; "batch_size"; "epochs"; "permutation_checksum"]
        (TrainingStateError "training state sampler is invalid");
  _ ← raise_when (negb (str_is (field "algorithm" d) SAMPLER_ALGORITHM)
                  || negb (int_within 0 MAX_SEED (field "seed" d))
                  || negb (int_within MIN_SUBSET MAX_SUBSET (field "subset_size" d))
                  || negb (int_within 1 MAX_BATCH_SIZE (field "batch_size" d))
                  || negb (int_within 1 MAX_EPOCHS (field "epochs" d)))
        (TrainingStateError "training state sampler is invalid");
  Ret d.

Definition check_cursor (cursor : pyval) (epochs per_epoch : Z) : outcome exn (list (string * pyval)) :=
  d ← as_fields cursor ["epoch"; "batch_index"; "step"] (TrainingStateError "training state cursor is invalid");
  let epoch := int_value (field "epoch" d) in
  let batch_index := int_value (field "batch_index" d) in
  _ ← raise_when (negb (int_within 0 epochs (field "epoch" d))
                  || negb (int_within 0 (per_epoch - 1) (field "batch_index" d))
                  || ((epoch =? epochs) && negb (batch_index =? 0))
                  || negb (py_eq (field "step" d) (VInt (epoch * per_epoch + batch_index))))
        (TrainingStateError "training state cursor is invalid");
  Ret d.

Definition check_order (order : pyval) (epoch : Z) : outcome exn (list (string * pyval)) :=
  d ← as_fields order ["completed"; "running"] (TrainingStateError "training state sample order is invalid");
  _ ← raise_when (match field "completed" d with
                  | VList l => negb (Z.of_nat (length l) =? epoch) || negb (forallb (str_matches _CHECKSUM) l)
                  | _ => true
                  end) (TrainingStateError "training state sample order is invalid");
  Ret d.

Definition validate_training_state (document : pyval) (verify_permutation : bool) : outcome exn (list (string * pyval)) :=
  d ← as_fields document state_fields (TrainingStateError "training state fields are not closed");
  _ ← raise_when (negb (py_eq (field "schema_version" d) (VInt 1)) || negb (str_is (field "format" d) FORMAT)
                  || negb (str_is (field "architecture_id" d) ARCHITECTURE_ID)
                  || negb (str_is (field "architecture_version" d) ARCHITECTURE_VERSION)
                  || negb (str_is (field "preprocessing" d) PREPROCESSING))
        (TrainingStateError "training state identity is not allowlisted");
  _ ← check_optimizer (field "optimizer" d);
  _ ← raise_when (negb (int_within 1 MAX_THREADS (field "threads" d))) (TrainingStateError "training state thread count is invalid");
  _ ← raise_when (negb (str_matches _CHECKSUM (field "input_checksum" d)) || negb (str_matches _CHECKSUM (field "spec_checksum" d)))
        (TrainingStateError "training state checksums are invalid");
  sampler ← check_sampler (field "sampler" d);
  let epochs := int_value (field "epochs" sampler) in
  let subset := int_value (field "subset_size" sampler) in
  let per_epoch := batches_per_epoch subset (int_value (field "batch_size" sampler)) in
  cursor ← check_cursor (field "cursor" d) epochs per_epoch;
  let epoch := int_value (field "epoch" cursor) in
  let finished := epoch =? epochs in
  let carried := field "permutation_checksum" sampler in
  _ ← (if finished then
         raise_when (negb (is_none carried)) (TrainingStateError "finished training state must not carry a permutation")
       else
         raise_when (negb (str_matches _CHECKSUM carried)
                     || (verify_permutation && negb (str_is carried (permutation_checksum
                           (permutation (int_value (field "seed" sampler)) epoch subset)))))
           (TrainingStateError "training state permutation does not match the sampler"));
  order ← check_order (field "sample_order" d) epoch;
  let running := field "running" order in
  _ ← (if finished then
         raise_when (negb (is_none running)) (TrainingStateError "finished training state must not carry a running digest")
       else
         raise_when (negb (str_matches _CHECKSUM running)
                     || ((int_value (field "batch_index" cursor) =? 0) && negb (str_is running (initial_order_digest epoch))))
           (TrainingStateError "training state running digest is invalid"));
  Ret d.

Section parse.
Context (float_repr : spec_float → string) (limit stack : nat).

Definition hooks : Hooks := {|
  object_pairs := unique_pairs (TrainingStateError "duplicate training state key");
  parse_float := parse_float default_hooks;
  parse_int := parse_int default_hooks;
  parse_constant := λ value, Raise (TrainingStateError ("invalid JSON constant " +:+ value));
|}.

Definition parse_training_state (raw : string) (verify_permutation : bool) : outcome exn (list (string * pyval)) :=
  _ ← raise_when (MAX_STATE_BYTES <? byte_len raw) (TrainingStateError "training state is too large");
  document ← except ["UnicodeDecodeError"; "JSONDecodeError"] (text ← decode_utf8 raw; loads hooks limit text)
    (λ _, Raise (TrainingStateError "training state is not strict JSON"));
  validated ← validate_training_state document verify_permutation;
  canonical ← canonical_json float_repr stack (VDict validated);
  _ ← raise_when (negb (String.eqb canonical raw)) (TrainingStateError "training state is not canonical JSON");
  Ret validated.

(** The four checkpoint files together. *)
Definition validate_checkpoint_files (files : list (string * string)) : outcome exn (list (string * pyval)) :=
  _ ← raise_when (negb (fields_are (List.map (λ '(k, v), (k, VStr v)) files) (STATE_FILE :: CHECKPOINT_FILES.*1)))
        (TrainingStateError "checkpoint files are not the closed set");
  document ← parse_training_state (default "" (dict_get STATE_FILE files)) true;
  _ ← for_each [("model.safetensors", Arch.validate_model_header); ("optimizer.safetensors", Arch.validate_optimizer_header);
                ("rng.safetensors", Arch.validate_rng_header)] (λ _ '(name, validate),
        let contents := default "" (dict_get name files) in
        except ["SafetensorsError"] (header ← parse_header limit contents (byte_len contents); validate header)
          (λ _, Raise (TrainingStateError (name +:+ " does not match the architecture")))) ();
  Ret document.

Definition SNAPSHOT_METADATA_KEY : string := "nexa.training_state".
Definition starts_with (prefix s : string) : bool := match strip_prefix prefix s with Some _ => true | None => false end.

Definition split_snapshot (raw : string) : outcome exn (list (string * pyval) * list (string * string)) :=
  let malformed {A} (m : outcome exn A) : outcome exn A :=
    except ["SafetensorsError"] m (λ e, Raise (TrainingStateError ("snapshot is malformed: " +:+ exn_message e))) in
  header ← malformed (parse_header limit raw (byte_len raw));
  _ ← raise_when (negb (fields_are (List.map (λ '(k, v), (k, VStr v)) (metadata header)) [SNAPSHOT_METADATA_KEY]))
        (TrainingStateError "snapshot metadata is not closed");
  state_raw ← encode_utf8 (default "" (dict_get SNAPSHOT_METADATA_KEY (metadata header)));
  _ ← raise_when (negb (forallb (λ name, existsb (λ p, starts_with p name) CHECKPOINT_FILES.*2) (tensors header).*1))
        (TrainingStateError "snapshot holds tensors outside the checkpoint components");
  files ← malformed (mapM (λ '(name, (prefix, meta)), file ← select_prefix limit raw prefix meta; Ret (name, file))
    [("model.safetensors", ("model.", Arch.MODEL_METADATA)); ("optimizer.safetensors", ("optimizer.", Arch.OPTIMIZER_METADATA));
     ("rng.safetensors", ("rng.", Arch.RNG_METADATA))]);
  let files := files ++ [(STATE_FILE, state_raw)] in
  document ← validate_checkpoint_files files;
  Ret (document, files).

Definition sampler_state_checksum (d : list (string * pyval)) : outcome exn string :=
  text ← canonical_json float_repr stack (VDict (List.map (λ k, (k, field k d)) ["cursor"; "sampler"; "sample_order"]));
  Ret (digest text).

Definition cursor_item (d : list (string * pyval)) : Z :=
  let cursor := sub "cursor" d in
  let sampler := sub "sampler" d in
  if int_value (field "epoch" cursor) =? int_value (field "epochs" sampler) then 0
  else Z.min (int_value (field "subset_size" sampler))
         (int_value (field "batch_index" cursor) * int_value (field "batch_size" sampler)).

Definition runtime_cursor (d : list (string * pyval)) : outcome exn (list (string * pyval)) :=
  let cursor := sub "cursor" d in
  checksum ← sampler_state_checksum d;
  Ret [("step", field "step" cursor); ("epoch", field "epoch" cursor); ("item_cursor", VInt (cursor_item d));
       ("sampler_state_checksum", VStr checksum)].
End parse.

Definition total_steps (d : list (string * pyval)) : Z :=
  let sampler := sub "sampler" d in
  int_value (field "epochs" sampler)
  * batches_per_epoch (int_value (field "subset_size" sampler)) (int_value (field "batch_size" sampler)).
End state.
End State.

(** ** [adapter_launch.py] *)

Module Launch.
Import Manifest.

Definition LaunchSpecError (message : string) : exn := Exn "LaunchSpecError" message.

Definition SCHEMA_VERSION : Z := 3.
Definition OUTPUT_DIR : string := "/output".
Definition RESTORE_DIR : string := "/input/restore".
Definition RECOGNIZED_DIR : string := "/input/recognized".
Definition TRAINING_STATE_PATH : string := "/output/state.safetensors".
Definition INFERENCE_STATE_PATH : string := "/output/inference-state.json".
Definition CHUNK_MANIFEST_NAME : string := "chunk-output-manifest.json".
Local Open Scope regex_scope.
Definition _SEMVER : regex := plus digit · text "." · plus digit · text "." · plus digit.
Local Close Scope regex_scope.
Definition _FIELDS : list string :=
  ["schema_version"; "adapter_id"; "adapter_version"; "startup_nonce"; "parameters"; "threads"; "spec_checksum"; "inputs";
   "output_dir"; "provenance"; "checkpoint"; "restore"].
Definition RECOGNIZED_KEY : string := "recognized_chunks".
Definition PROVENANCE_FIELDS : list string :=
  ["tenant_id"; "job_id"; "session_id"; "attempt_id"; "job_fence"; "input_checksum"; "spec_checksum"; "template_id";
   "template_version"; "adapter_id"; "adapter_version"; "image_digest"].
Definition COMPATIBILITY_FIELDS : list string :=
  ["architecture"; "device_type"; "framework"; "framework_version"; "cuda_version"; "minimum_driver_version";
   "gpu_compute_capability"; "checkpointable"; "restart_safe"].
Definition TRAINING_PARAMETERS : list string := ["epochs"; "batch_size"; "learning_rate"; "seed"; "subset_size"].
Definition INFERENCE_PARAMETERS : list string := ["chunk_size"; "batch_size"; "output_format"].
Definition TRAINING_CURSOR_FIELDS : list string := ["step"; "epoch"; "item_cursor"; "sampler_state_checksum"].
Definition INFERENCE_CURSOR_FIELDS : list string := ["step"; "epoch"; "item_cursor"].
Definition INFERENCE_WINDOW : Z := 8.

(** [uuid.UUID(v).version == 7 and str(uuid.UUID(v)) == v]: the canonical text. *)
Definition _uuid7 (v : pyval) : bool := str_matches _UUID7 v.
Definition _checksum (v : pyval) : bool := str_matches _CHECKSUM v.

(** [descriptor(id, version)], whose key must be hashable. *)
Definition find_adapter (id version : pyval) : outcome exn (option AdapterDescriptor) :=
  if negb (hashable id && hashable version) then Raise Unhashable
  else Ret match id, version with VStr i, VStr v => dict_get (i, v) _BY_ADAPTER | _, _ => None end.

Definition adapter_for (spec : pyval) : outcome exn AdapterDescriptor :=
  match spec with
  | VDict d =>
      found ← find_adapter (field "adapter_id" d) (field "adapter_version" d);
      match found with
      | Some a => if same_adapter a CPU_ITERATIVE then Raise (LaunchSpecError "launch spec adapter is not a v3 adapter") else Ret a
      | None => Raise (LaunchSpecError "launch spec adapter is not a v3 adapter")
      end
  | _ => Raise (LaunchSpecError "launch spec is not an object")
  end.

Definition state_path (adapter : AdapterDescriptor) : string :=
  if chunked adapter then INFERENCE_STATE_PATH else TRAINING_STATE_PATH.
Definition input_paths (adapter : AdapterDescriptor) : list (string * pyval) :=
  ("dataset", VStr (input_target_path adapter)) ::
  match model_target_path adapter with Some p => [("model", VStr p)] | None => [] end.
Definition restore_path (logical_name : string) : string := RESTORE_DIR +:+ "/" +:+ logical_name.
Definition threads_for (cpu_millis : Z) : Z := Z.min State.MAX_THREADS (Z.max 1 (cpu_millis / 1000)).

Definition validate_parameters (adapter : AdapterDescriptor) (value : pyval) : outcome exn (list (string * pyval)) :=
  if chunked adapter then
    let e := LaunchSpecError "inference parameters are invalid" in
    d ← as_fields value INFERENCE_PARAMETERS e;
    _ ← raise_if_any
          [Ret (negb (int_within 1 100000 (field "chunk_size" d))); Ret (negb (int_within 1 4096 (field "batch_size" d)));
           negb <$> in_table (field "output_format" d) CHUNK_MEDIA_TYPES] e;
    Ret d
  else
    let e := LaunchSpecError "training parameters are invalid" in
    d ← as_fields value TRAINING_PARAMETERS e;
    _ ← raise_when (negb (int_within 1 State.MAX_EPOCHS (field "epochs" d))
                    || negb (int_within 1 State.MAX_BATCH_SIZE (field "batch_size" d))
                    || negb (int_within 0 State.MAX_SEED (field "seed" d))
                    || negb (int_within State.MIN_SUBSET State.MAX_SUBSET (field "subset_size" d))
                    || match field "learning_rate" d with VFloat f => negb (finite f && float_unit f) | _ => true end) e;
    Ret d.

Definition validate_provenance (adapter : AdapterDescriptor) (value : pyval) : outcome exn (list (string * pyval)) :=
  d ← as_fields value PROVENANCE_FIELDS (LaunchSpecError "provenance fields are invalid");
  _ ← raise_when (negb (forallb (λ k, _uuid7 (field k d)) ["tenant_id"; "job_id"; "session_id"]))
        (LaunchSpecError "provenance identity is invalid");
  _ ← raise_when (negb (_uuid7 (field "attempt_id" d)) || negb (int_within 1 (2 ^ 63 - 1) (field "job_fence" d)))
        (LaunchSpecError "provenance attempt is invalid");
  _ ← raise_when (negb (forallb (λ k, _checksum (field k d)) ["input_checksum"; "spec_checksum"]))
        (LaunchSpecError "provenance checksums are invalid");
  _ ← raise_when (negb (_checksum (field "image_digest" d))) (LaunchSpecError "provenance image digest is invalid");
  _ ← raise_when (negb (str_is (field "template_id" d) (template_id adapter))
                  || negb (int_within 1 (2 ^ 31 - 1) (field "template_version" d))
                  || negb (str_is (field "adapter_id" d) (adapter_id adapter))
                  || negb (str_is (field "adapter_version" d) (adapter_version adapter)))
        (LaunchSpecError "provenance template or adapter is invalid");
  Ret d.

Definition compatibility (architecture framework_version restart_safe : pyval) : list (string * pyval) :=
  [("architecture", architecture); ("device_type", VStr "CPU"); ("framework", VStr "PYTORCH");
   ("framework_version", framework_version); ("cuda_version", VNone); ("minimum_driver_version", VNone);
   ("gpu_compute_capability", VNone); ("checkpointable", VBool true); ("restart_safe", restart_safe)].

Definition _validate_compatibility (value : pyval) : outcome exn () :=
  let e := LaunchSpecError "checkpoint compatibility is invalid" in
  d ← as_fields value COMPATIBILITY_FIELDS e;
  raise_if_any
    [negb <$> in_table (field "architecture" d) [("linux/amd64", ""); ("linux/arm64", "")];
     Ret (negb (str_matches _SEMVER (field "framework_version" d)));
     Ret (match field "restart_safe" d with VBool _ => false | _ => true end);
     Ret (negb (py_eq value (VDict (compatibility (field "architecture" d) (field "framework_version" d) (field "restart_safe" d)))))] e.

(** The parameters were validated. *)
Definition validate_training_cursor (cursor : pyval) (parameters : list (string * pyval)) : outcome exn (list (string * pyval)) :=
  let subset := int_value (field "subset_size" parameters) in
  let batch := int_value (field "batch_size" parameters) in
  let epochs := int_value (field "epochs" parameters) in
  let per_epoch := State.batches_per_epoch subset batch in
  d ← as_fields cursor TRAINING_CURSOR_FIELDS (LaunchSpecError "training cursor is invalid");
  _ ← raise_when (negb (int_within 0 epochs (field "epoch" d)) || negb (int_within 0 (epochs * per_epoch) (field "step" d))
                  || negb (int_within 0 subset (field "item_cursor" d)) || negb (_checksum (field "sampler_state_checksum" d)))
        (LaunchSpecError "training cursor is invalid");
  let epoch := int_value (field "epoch" d) in
  let batch_index := int_value (field "step" d) - epoch * per_epoch in
  let item_cursor := if epoch =? epochs then 0 else Z.min subset (batch_index * batch) in
  _ ← raise_when ((negb ((0 <=? batch_index) && (batch_index <? per_epoch)) && negb ((epoch =? epochs) && (batch_index =? 0)))
                  || negb (py_eq (field "item_cursor" d) (VInt item_cursor)))
        (LaunchSpecError "training cursor is inconsistent");
  Ret d.

Definition validate_inference_cursor (cursor : pyval) : outcome exn (list (string * pyval)) :=
  let e := LaunchSpecError "inference cursor is invalid" in
  d ← as_fields cursor INFERENCE_CURSOR_FIELDS e;
  _ ← raise_when (negb (int_within 0 0 (field "epoch" d)) || negb (int_within 1 MAX_CHUNKS (field "step" d))
                  || negb (int_within (int_value (field "step" d)) Inference.MAX_ITEMS (field "item_cursor" d))) e;
  Ret d.

Definition _validate_restore (adapter : AdapterDescriptor) (value : pyval) (parameters : list (string * pyval)) : outcome exn () :=
  d ← as_fields value ["checkpoint_id"; "checkpoint_sequence"; "cursor"; "files"] (LaunchSpecError "restore is invalid");
  _ ← raise_when (negb (_uuid7 (field "checkpoint_id" d)) || negb (int_within 1 (2 ^ 53 - 1) (field "checkpoint_sequence" d)))
        (LaunchSpecError "restore is invalid");
  let rules := rule_logical_name <$> checkpoint_files adapter in
  names ← (if chunked adapter then
             _ ← validate_inference_cursor (field "cursor" d); Ret (rules ++ [CHUNK_MANIFEST_NAME])
           else _ ← validate_training_cursor (field "cursor" d) parameters; Ret rules);
  let listed v := match v with VDict item => field "logical_name" item | _ => VNone end in
  files ← or_raise (match field "files" d with
                    | VList l => if py_eq (VList (List.map listed l)) (VList (VStr <$> names)) then Some l else None
                    | _ => None
                    end) (LaunchSpecError "restore files are not the adapter checkpoint files");
  for_each files (λ _ v,
    item ← as_fields v ["logical_name"; "path"; "checksum"; "size_bytes"] (LaunchSpecError "restore file entry is invalid");
    raise_when (negb (str_is (field "path" item) (restore_path (str_of (field "logical_name" item))))
                || negb (_checksum (field "checksum" item)) || negb (int_within 1 (16 * 1024 ^ 2) (field "size_bytes" item)))
      (LaunchSpecError "restore file entry is invalid")) ().

(** [value["restore"]["cursor"]["step"]], or 0. *)
Definition first_chunk (restore : pyval) : Z :=
  match restore with VDict r => int_value (get_key "step" (field "cursor" r)) | _ => 0 end.

Definition _validate_recognized (adapter : AdapterDescriptor) (recognized restore : pyval) (parameters : list (string * pyval))
    : outcome exn () :=
  let e := LaunchSpecError "launch spec recognized chunks are invalid" in
  _ ← raise_when (negb (chunked adapter) || match recognized with VList (_ :: _) => false | _ => true end) e;
  except ["ChunkManifestError"]
    (_ ← validate_recognized recognized (first_chunk restore) (int_value (field "chunk_size" parameters)); Ret ())
    (λ _, Raise e).

Definition recognized_paths (d : list (string * pyval)) : outcome exn (list string) :=
  match field RECOGNIZED_KEY d with
  | VList (_ :: _ as items) =>
      let output_format := str_of (get_key "output_format" (field "parameters" d)) in
      mapM (λ offset, name ← Inference.chunk_file_name (first_chunk (field "restore" d) + offset) output_format;
                      Ret (RECOGNIZED_DIR +:+ "/" +:+ name)) (seqZ 0 (Z.of_nat (length items)))
  | _ => Ret []
  end.

Definition check_checkpoint (adapter : AdapterDescriptor) (checkpoint : pyval) : outcome exn () :=
  match checkpoint with
  | VNone => Ret ()
  | _ =>
      c ← as_fields checkpoint ["state_path"; "compatibility"] (LaunchSpecError "launch spec checkpoint is invalid");
      _ ← raise_when (negb (str_is (field "state_path" c) (state_path adapter))) (LaunchSpecError "launch spec checkpoint is invalid");
      _validate_compatibility (field "compatibility" c)
  end.

Definition validate_launch_spec (value : pyval) : outcome exn (list (string * pyval)) :=
  d ← or_raise (match value with
                | VDict d => if fields_have d _FIELDS && fields_in d (RECOGNIZED_KEY :: _FIELDS) then Some d else None
                | _ => None
                end) (LaunchSpecError "launch spec fields are invalid");
  _ ← raise_when (negb (int_within SCHEMA_VERSION SCHEMA_VERSION (field "schema_version" d)))
        (LaunchSpecError "launch spec schema version is invalid");
  adapter ← adapter_for value;
  _ ← raise_when (negb (_uuid7 (field "startup_nonce" d))) (LaunchSpecError "launch spec startup nonce is invalid");
  parameters ← validate_parameters adapter (field "parameters" d);
  _ ← raise_when (negb (int_within 1 State.MAX_THREADS (field "threads" d))) (LaunchSpecError "launch spec thread count is invalid");
  provenance ← validate_provenance adapter (field "provenance" d);
  _ ← raise_when (negb (_checksum (field "spec_checksum" d))
                  || negb (py_eq (field "spec_checksum" d) (field "spec_checksum" provenance)))
        (LaunchSpecError "launch spec checksum does not match provenance");
  _ ← raise_when (negb (py_eq (field "inputs" d) (VDict (input_paths adapter))) || negb (str_is (field "output_dir" d) OUTPUT_DIR))
        (LaunchSpecError "launch spec paths are invalid");
  _ ← check_checkpoint adapter (field "checkpoint" d);
  _ ← (if is_VNone (field "restore" d) then Ret ()
       else
         _ ← raise_when (is_VNone (field "checkpoint" d)) (LaunchSpecError "restore requires a checkpoint launch");
         _validate_restore adapter (field "restore" d) parameters);
  _ ← (if dict_mem RECOGNIZED_KEY d then _validate_recognized adapter (field RECOGNIZED_KEY d) (field "restore" d) parameters
       else Ret ());
  Ret d.

(** [repr] of a float, and [str] of an integer. *)
Section command.
Context (float_repr : spec_float → string).

Definition int_text (v : pyval) : string := pretty (int_value v).

(** The specification was validated. *)
Definition workload_command (d : list (string * pyval)) : outcome exn (list string) :=
  adapter ← adapter_for (VDict d);
  let parameter k := get_key k (field "parameters" d) in
  let input k := str_of (get_key k (field "inputs" d)) in
  let has k := negb (is_VNone (field k d)) in
  if chunked adapter then
    Ret (["python"; "-m"; "nexa.workloads.batch_inference"; "--dataset"; input "dataset"; "--model"; input "model";
          "--output-dir"; str_of (field "output_dir" d); "--chunk-size"; int_text (parameter "chunk_size");
          "--batch-size"; int_text (parameter "batch_size"); "--output-format"; str_of (parameter "output_format");
          "--threads"; int_text (field "threads" d); "--spec-checksum"; str_of (field "spec_checksum" d)]
         ++ (if has "checkpoint" then ["--window"; pretty INFERENCE_WINDOW] else [])
         ++ (if has "restore" then ["--resume-state";
               restore_path (default "" (rule_logical_name <$> head (checkpoint_files adapter)))] else [])
         ++ (if dict_mem RECOGNIZED_KEY d then
               ["--recognized-dir"; RECOGNIZED_DIR; "--recognized-count";
                pretty (match field RECOGNIZED_KEY d with VList l => Z.of_nat (length l) | _ => 0 end)] else []))
  else
    Ret (["python"; "-m"; "nexa.workloads.pytorch_cifar10"; "--dataset"; input "dataset"; "--output-dir";
          str_of (field "output_dir" d); "--epochs"; int_text (parameter "epochs"); "--batch-size"; int_text (parameter "batch_size");
          "--learning-rate"; match parameter "learning_rate" with VFloat f => float_repr f | _ => "" end;
          "--seed"; int_text (parameter "seed"); "--subset-size"; int_text (parameter "subset_size");
          "--threads"; int_text (field "threads" d); "--spec-checksum"; str_of (field "spec_checksum" d)]
         ++ (if has "checkpoint" then ["--state-output"; str_of (get_key "state_path" (field "checkpoint" d))] else [])
         ++ (if has "restore" then ["--resume-dir"; RESTORE_DIR] else [])).
End command.

(** The fields of the job a validated state must agree with; [parameters[k]] raises. *)
Definition differs (v : pyval) (k : string) (parameters : list (string * pyval)) : outcome exn bool :=
  w ← item k parameters; Ret (negb (py_eq v w)).

Definition check_training_state (d parameters : list (string * pyval)) (threads input_checksum spec_checksum : pyval) : outcome exn () :=
  let sampler := State.sub "sampler" d in
  raise_if_any
    [Ret (negb (py_eq (field "input_checksum" d) input_checksum)); Ret (negb (py_eq (field "spec_checksum" d) spec_checksum));
     Ret (negb (py_eq (field "threads" d) threads));
     differs (field "learning_rate" (State.sub "optimizer" d)) "learning_rate" parameters;
     differs (field "seed" sampler) "seed" parameters; differs (field "subset_size" sampler) "subset_size" parameters;
     differs (field "batch_size" sampler) "batch_size" parameters; differs (field "epochs" sampler) "epochs" parameters]
    (LaunchSpecError "training state does not belong to this job").

Definition check_inference_state (d parameters : list (string * pyval)) (threads input_checksum spec_checksum model_checksum : pyval)
    : outcome exn () :=
  _ ← raise_if_any
        (List.map (λ name, differs (field name d) name parameters) INFERENCE_PARAMETERS ++
         [Ret (negb (py_eq (field "threads" d) threads)); Ret (negb (py_eq (field "input_checksum" d) input_checksum));
          Ret (negb (py_eq (field "spec_checksum" d) spec_checksum)); Ret (negb (py_eq (field "model_checksum" d) model_checksum))])
        (LaunchSpecError "inference state does not belong to this job");
  raise_when (MAX_CHUNKS <? Inference.chunk_count (int_value (field "item_count" d)) (int_value (field "chunk_size" d)))
    (LaunchSpecError "inference output has more chunks than a manifest can list").

(** *** Metrics of a finished run *)

Definition METRICS_FORMAT : string := "pytorch-cifar10-metrics-v1".
Definition MAX_METRICS_BYTES : Z := 64 * 1024.
Definition MANIFEST_METRICS : list string :=
  ["model_checksum"; "epochs"; "steps"; "subset_size"; "batch_size"; "eval_items"; "train_loss"; "eval_loss"; "eval_accuracy";
   "model_l2_norm"; "optimizer_momentum_l2_norm"].
Definition _METRICS_FIELDS : list string :=
  ["schema_version"; "format"; "architecture_id"; "input_checksum"; "spec_checksum"; "parameter_l2_norms";
   "epoch_sample_order_digests"] ++ MANIFEST_METRICS.

(** [type(v) is float and math.isfinite(v) and low <= v <= high] *)
Definition _finite (v : pyval) (low high : spec_float) : bool :=
  match v with VFloat f => finite f && SFleb low f && SFleb f high | _ => false end.

Section metrics.
Context (float_repr : spec_float → string) (limit stack : nat).

Definition metrics_hooks : Hooks := {|
  object_pairs := unique_pairs (LaunchSpecError "duplicate metrics key");
  parse_float := parse_float default_hooks;
  parse_int := parse_int default_hooks;
  parse_constant := λ value, Raise (LaunchSpecError ("invalid JSON constant " +:+ value));
|}.

(** The job's parameters were validated. *)
Definition parse_training_metrics (raw : string) (parameters : list (string * pyval)) (input_checksum spec_checksum model_checksum : string)
    : outcome exn (list (string * pyval)) :=
  _ ← raise_when (MAX_METRICS_BYTES <? byte_len raw) (LaunchSpecError "metrics are too large");
  document ← except ["UnicodeDecodeError"; "JSONDecodeError"] (text ← decode_utf8 raw; loads metrics_hooks limit text)
    (λ _, Raise (LaunchSpecError "metrics are not strict JSON"));
  d ← as_fields document _METRICS_FIELDS (LaunchSpecError "metrics fields are not closed");
  canonical ← except ("TypeError" :: value_errors) (text ← canonical_json float_repr stack document; Ret (String.eqb text raw)) (λ _, Ret false);
  let epochs := int_value (field "epochs" parameters) in
  let per_epoch := State.batches_per_epoch (int_value (field "subset_size" parameters)) (int_value (field "batch_size" parameters)) in
  let zero := S754_zero false in
  _ ← raise_when (negb canonical || negb (py_eq (field "schema_version" d) (VInt 1)) || negb (str_is (field "format" d) METRICS_FORMAT)
                  || negb (str_is (field "architecture_id" d) ARCHITECTURE_ID) || negb (str_is (field "input_checksum" d) input_checksum)
                  || negb (str_is (field "spec_checksum" d) spec_checksum) || negb (str_is (field "model_checksum" d) model_checksum)
                  || negb (py_eq (field "epochs" d) (field "epochs" parameters))
                  || negb (py_eq (field "subset_size" d) (field "subset_size" parameters))
                  || negb (py_eq (field "batch_size" d) (field "batch_size" parameters))
                  || negb (py_eq (field "steps" d) (VInt (epochs * per_epoch)))
                  || negb (int_within 1 State.MAX_SUBSET (field "eval_items" d))
                  || negb (forallb (λ k, _finite (field k d) zero (float_of_int 1000000))
                             ["train_loss"; "eval_loss"; "model_l2_norm"; "optimizer_momentum_l2_norm"])
                  || negb (_finite (field "eval_accuracy" d) zero (float_of_int 1))
                  || match field "epoch_sample_order_digests" d with
                     | VList l => negb (Z.of_nat (length l) =? epochs) || negb (forallb _checksum l)
                     | _ => true
                     end
                  || match field "parameter_l2_norms" d with
                     | VDict norms => negb (fields_are norms Arch.PARAMETERS.*1)
                                      || negb (forallb (λ '(_, v), _finite v zero (float_of_int 1000000)) norms)
                     | _ => true
                     end)
        (LaunchSpecError "metrics do not describe this finished run");
  Ret d.
End metrics.

Definition manifest_metrics (d : list (string * pyval)) : list (string * pyval) := List.map (λ k, (k, field k d)) MANIFEST_METRICS.
End Launch.

(** ** The cursor of a training state *)

Module TrainingCursor.
Import State Launch.

Lemma batches_cover subset batch : 1 ≤ subset → 1 ≤ batch →
  1 ≤ batches_per_epoch subset batch ∧ (batches_per_epoch subset batch - 1) * batch < subset ≤ batches_per_epoch subset batch * batch.
Proof.
  intros Hs Hb. unfold batches_per_epoch. pose proof (Z.div_mod (- subset) batch). pose proof (Z.mod_pos_bound (- subset) batch). nia.
Qed.

(** The integers of a valid state. *)
Record state_numbers (d : list (string * pyval)) (epoch batch_index epochs subset batch : Z) : Prop := {
  sn_epoch : field "epoch" (sub "cursor" d) = VInt epoch;
  sn_batch : field "batch_index" (sub "cursor" d) = VInt batch_index;
  sn_step : py_eq (field "step" (sub "cursor" d)) (VInt (epoch * batches_per_epoch subset batch + batch_index)) = true;
  sn_epochs : field "epochs" (sub "sampler" d) = VInt epochs;
  sn_subset : field "subset_size" (sub "sampler" d) = VInt subset;
  sn_size : field "batch_size" (sub "sampler" d) = VInt batch;
  sn_range : 0 ≤ epoch ≤ epochs ∧ 0 ≤ batch_index < batches_per_epoch subset batch ∧ (epoch = epochs → batch_index = 0);
  sn_bounds : 1 ≤ epochs ∧ 1 ≤ subset ∧ 1 ≤ batch;
}.

Lemma validate_numbers sha256_hex shuffled document verify d :
  validate_training_state sha256_hex shuffled document verify = Ret d →
  ∃ epoch batch_index epochs subset batch, state_numbers d epoch batch_index epochs subset batch.
Proof.
  intros H. unfold validate_training_state in H. apply bind_Ret in H as (d' & _ & H).
  do 4 (apply bind_Ret in H as (? & _ & H)). apply bind_Ret in H as (sampler & Hsa & H).
  apply bind_Ret in H as (cursor & Hcu & H). apply bind_Ret in H as (? & _ & H). apply bind_Ret in H as (? & _ & H).
  apply bind_Ret in H as (? & _ & H). injection H as ->.
  unfold check_sampler in Hsa. apply bind_Ret in Hsa as (s & [Hs _]%as_fields_Ret & Hsa).
  apply bind_Ret in Hsa as (? & Hg%raise_when_Ret & [= ->]). rewrite !orb_false_iff, !negb_false_iff in Hg.
  destruct Hg as ((((_ & _) & Hsub) & Hbat) & Hep). apply int_within_spec in Hsub as (subset & Hsub & ?), Hbat as (batch & Hbat & ?), Hep as (epochs & Hep & ?).
  unfold check_cursor in Hcu. apply bind_Ret in Hcu as (c & [Hc _]%as_fields_Ret & Hcu).
  apply bind_Ret in Hcu as (? & Hg%raise_when_Ret & [= ->]). rewrite !orb_false_iff, !negb_false_iff in Hg.
  destruct Hg as (((He & Hb) & Hend) & Hst). rewrite Hep, Hsub, Hbat in *. cbn [int_value] in *.
  apply int_within_spec in He as (epoch & He & ?), Hb as (bi & Hb & ?). rewrite He, Hb in *. cbn [int_value] in *.
  exists epoch, bi, epochs, subset, batch. unfold MIN_SUBSET, MAX_SUBSET in *.
  split; unfold sub; rewrite ?Hs, ?Hc; try done; [|lia].
  split_and!; [lia..|]. intros ->. rewrite Z.eqb_refl in Hend. cbn in Hend. apply negb_false_iff, Z.eqb_eq in Hend. done.
Qed.

Lemma differs_same v k parameters n m : differs v k parameters = Ret false → v = VInt n → field k parameters = VInt m → n = m.
Proof.
  intros H -> Hm. unfold differs, Manifest.item in H. apply bind_Ret in H as (w & Hw%or_raise_Ret & H).
  unfold field in Hm. rewrite Hw in Hm. cbn in Hm. subst w. rewrite py_eq_int in H.
  assert (negb (n =? m) = false) by congruence. lia.
Qed.

(** The cursor of a valid training state is one the server accepts.  The state was
    checked field by field, belongs to the job's parameters, and its step is an integer;
    the cursor [runtime_cursor] derives from it then passes [validate_training_cursor]
    for those parameters. *)
Theorem derived_cursor_accepted sha256_hex shuffled float_repr stack document verify d adapter parameters threads input spec n cursor :
  (∀ data, fullmatch (times 64 hex) (sha256_hex data) = true) →
  validate_training_state sha256_hex shuffled document verify = Ret d →
  chunked adapter = false → validate_parameters adapter (VDict parameters) = Ret parameters →
  check_training_state d parameters threads input spec = Ret () →
  field "step" (sub "cursor" d) = VInt n →
  runtime_cursor sha256_hex float_repr stack d = Ret cursor →
  validate_training_cursor (VDict cursor) parameters = Ret cursor.
Proof.
  intros Hsha Hv Had Hp Hc Hn Hr. destruct (validate_numbers _ _ _ _ _ Hv) as (epoch & bi & epochs & subset & batch & [He Hb Hst Hes Hsu Hba Hrange Hbounds]).
  unfold validate_parameters in Hp. rewrite Had in Hp. apply bind_Ret in Hp as (? & _ & Hp).
  apply bind_Ret in Hp as (? & Hg%raise_when_Ret & [= ->]). rewrite !orb_false_iff, !negb_false_iff in Hg.
  destruct Hg as ((((G1 & G2) & _) & G4) & _).
  apply int_within_spec in G1 as (epochs' & G1 & _), G2 as (batch' & G2 & _), G4 as (subset' & G4 & _).
  apply Coverage.raise_if_any_Ret in Hc. repeat (apply Forall_cons in Hc as [? Hc]).
  assert (epochs' = epochs) as -> by (symmetry; eapply differs_same; [|exact Hes|exact G1]; done).
  assert (batch' = batch) as -> by (symmetry; eapply differs_same; [|exact Hba|exact G2]; done).
  assert (subset' = subset) as -> by (symmetry; eapply differs_same; [|exact Hsu|exact G4]; done).
  unfold runtime_cursor, sampler_state_checksum, cursor_item in Hr. apply bind_Ret in Hr as (sum & Hsum & [= <-]).
  apply bind_Ret in Hsum as (text & _ & [= <-]). rewrite Hn in Hst |- *. rewrite py_eq_int in Hst. apply Z.eqb_eq in Hst as ->.
  rewrite He, Hb, Hes, Hsu, Hba. cbn [int_value]. unfold validate_training_cursor. rewrite G1, G2, G4. cbn [int_value].
  match goal with |- context [as_fields (VDict ?c) _ _] => change (as_fields (VDict c) _ _) with (Ret (E := exn) c); set (cur := c) end.
  cbn [mbind outcome_bind]. change (field "epoch" cur) with (VInt epoch). change (field "sampler_state_checksum" cur) with (VStr (digest sha256_hex text)).
  change (field "step" cur) with (VInt (epoch * batches_per_epoch subset batch + bi)).
  change (field "item_cursor" cur) with (VInt (if epoch =? epochs then 0 else Z.min subset (bi * batch))).
  pose proof (batches_cover subset batch) as Hcover. cbn [int_within int_value].
  assert (_checksum (VStr (digest sha256_hex text)) = true) as ->.
  { by apply checksum_of_hex. }
  rewrite py_eq_int. replace (epoch * batches_per_epoch subset batch + bi - epoch * batches_per_epoch subset batch) with bi by lia.
  rewrite Z.eqb_refl. unfold between. rewrite !(proj2 (Z.leb_le _ _)), (proj2 (Z.ltb_lt _ _)); [done|..].
  all: destruct (Z.eqb_spec epoch epochs); nia.
Qed.
End TrainingCursor.

(** ** Samples *)

Module TrainingSamples.
Import State Launch TrainingCursor.

Definition sample_hex (_ : string) : string := zeros 64.
Definition sample_shuffle (_ : string) (size : Z) : list Z := seqZ 0 size.
Definition sample_sum : pyval := VStr ("sha256:" +:+ zeros 64).
Definition sample_rate : spec_float := py_float "0.1".
Definition sample_document (step rate : pyval) : list (string * pyval) :=
  [("schema_version", VInt 1); ("format", VStr FORMAT); ("architecture_id", VStr ARCHITECTURE_ID);
   ("architecture_version", VStr ARCHITECTURE_VERSION); ("preprocessing", VStr PREPROCESSING);
   ("optimizer", VDict [("algorithm", VStr OPTIMIZER); ("learning_rate", rate); ("momentum", VFloat MOMENTUM)]);
   ("threads", VInt 2); ("input_checksum", sample_sum); ("spec_checksum", sample_sum);
   ("cursor", VDict [("epoch", VInt 0); ("batch_index", VInt 1); ("step", step)]);
   ("sampler", VDict [("algorithm", VStr SAMPLER_ALGORITHM); ("seed", VInt 7); ("subset_size", VInt 100); ("batch_size", VInt 64);
                      ("epochs", VInt 2); ("permutation_checksum", sample_sum)]);
   ("sample_order", VDict [("completed", VList []); ("running", sample_sum)])].
Definition sample_parameters : list (string * pyval) :=
  [("epochs", VInt 2); ("batch_size", VInt 64); ("learning_rate", VFloat sample_rate); ("seed", VInt 7); ("subset_size", VInt 100)].

Lemma derived_cursor_accepted_witness :
  ∃ cursor, runtime_cursor sample_hex (λ _, "0.1") 9 (sample_document (VInt 1) (VFloat sample_rate)) = Ret cursor ∧
    field "item_cursor" cursor = VInt 64 ∧ validate_training_cursor (VDict cursor) sample_parameters = Ret cursor.
Proof.
  destruct (runtime_cursor sample_hex (λ _, "0.1") 9 (sample_document (VInt 1) (VFloat sample_rate))) as [cursor|] eqn:Hr; [|by vm_compute in Hr].
  exists cursor. split_and!; [done|vm_compute in Hr; by injection Hr as <-|].
  apply (derived_cursor_accepted sample_hex sample_shuffle (λ _, "0.1") 9 (VDict (sample_document (VInt 1) (VFloat sample_rate))) true
    (sample_document (VInt 1) (VFloat sample_rate)) PYTORCH_CIFAR10 sample_parameters (VInt 2) sample_sum sample_sum 1 cursor);
    [by vm_compute..|exact Hr].
Defined.

(** [true] passes for the integers that are compared by value only. *)
Example training_step_true :
  validate_training_state sample_hex sample_shuffle (VDict (sample_document (VBool true) (VFloat sample_rate))) true
  = Ret (sample_document (VBool true) (VFloat sample_rate)).
Proof. vm_compute. reflexivity. Qed.

(** A learning rate of more than 308 digits is not a [TrainingStateError]. *)
Example training_rate_overflow :
  validate_training_state sample_hex sample_shuffle (VDict (sample_document (VInt 1) (VInt (10 ^ 400)))) true = Raise OverflowError.
Proof. vm_compute. reflexivity. Qed.
End TrainingSamples.
