(* ===== verification/CheckpointManifest.v ===== *)
(** * Checkpoint manifests

    [src/nexa/application/checkpoint_validation.py]: the checks of a checkpoint
    manifest and of the state files it names, which publishing and restoring share.
    The canonical encoder of the [rfc8785] package is a parameter; what is assumed of
    it is RFC 8785 on documents without floats whose member names are ASCII.  The
    theorems say what an accepted manifest is bound to, and that the server accepts
    exactly the state bytes the CPU workload writes. *)

From Stdlib Require Import Ascii.
From stdpp Require Import pretty.
From S2P Require Import Prelude PyValue PyDecimal WorkerModels Database Authority Capabilities.
From S2P Require Import Json Strict Chunks Safetensors Training CpuWorkload.

Local Open Scope string_scope.
Local Open Scope list_scope.
Local Open Scope Z_scope.

(** [CheckpointManifestError] carries a reason code; other exceptions pass through. *)
Inductive fault :=
| ManifestError (reason_code message : string)
| Other (e : exn).

Definition lift {A} (m : outcome exn A) : outcome fault A := match m with Ret a => Ret a | Raise e => Raise (Other e) end.
(** [if not cond: _fail(reason, message)] and the negated form of a Python guard. *)
Definition unless (ok : bool) (reason message : string) : outcome fault () := raise_when (negb ok) (ManifestError reason message).
(** [try: m; except classes: _fail(reason, message)] *)
Definition failing {A} (classes : list string) (m : outcome exn A) (reason message : string) : outcome fault A :=
  match m with
  | Ret a => Ret a
  | Raise e => if bool_decide (exn_class e ∈ classes) then Raise (ManifestError reason message) else Raise (Other e)
  end.

Definition CHECKPOINT_MANIFEST_MAX_BYTES : Z := 1024 * 1024.
Definition CPU_STATE_MAX_BYTES : Z := 4096.
Definition ADAPTER_TENSOR_MAX_BYTES : Z := 1024 * 1024.
Local Open Scope regex_scope.
Definition _TIMESTAMP : regex :=
  times 4 digit · text "-" · times 2 digit · text "-" · times 2 digit · text "T" · times 2 digit · text ":" · times 2 digit
  · text ":" · times 2 digit · text "." · times 3 digit · text "Z".
Definition lower : regex := Chars (range "a" "z").
Definition _LOGICAL_NAME : regex :=
  lower · upto 127 (Chars (λ c, range "a" "z" c || range "0" "9" c || Ascii.eqb c "_" || Ascii.eqb c "." || Ascii.eqb c "-")).
Local Close Scope regex_scope.
Definition _REQUIRED : list string :=
  ["kind"; "schema_version"; "checkpoint_id"; "checkpoint_sequence"; "created_at"; "provenance"; "compatibility"; "cursor";
   "state_components"; "files"; "manifest_checksum"].
Definition _PROVENANCE : list string := Launch.PROVENANCE_FIELDS.
Definition _COMPATIBILITY : list string := Launch.COMPATIBILITY_FIELDS.
Definition _CURSOR_REQUIRED : list string := ["step"; "epoch"; "item_cursor"].
Definition _CURSOR_OPTIONAL : list string := ["accumulator"; "sampler_state_checksum"].
Definition _STATE_COMPONENTS : list string :=
  ["ACCUMULATOR"; "MODEL"; "OPTIMIZER"; "RNG_PYTHON"; "RNG_NUMPY"; "RNG_TORCH_CPU"; "RNG_TORCH_CUDA"; "SAMPLER"; "INFERENCE_CURSOR"].
Definition _FILE_FIELDS : list string := ["artifact_id"; "logical_name"; "media_type"; "size_bytes"; "checksum"].
Definition _CHUNK_REFERENCE : list string := ["artifact_id"; "checksum"].
Definition _FRAMEWORKS : list (string * string) := [("NEXA_CPU", "PYTHON"); ("PYTORCH", "PYTORCH")].

(** ** Parsing *)

Definition strict_hooks : Hooks := {|
  object_pairs := unique_pairs (Exn "ValueError" "duplicate key");
  parse_float := λ _, Raise (Exn "ValueError" "floating point numbers are not allowed");
  parse_int := λ text, n ← py_int text;
    if _MAX_SAFE_INTEGER <? Z.abs n then Raise (Exn "ValueError" "integer is outside the canonical JSON range") else Ret (VInt n);
  parse_constant := λ _, Raise (Exn "ValueError" "non-finite numbers are not allowed");
|}.

Definition parse_strict_json (depth : nat) (raw : string) (limit : Z) (reason : string) : outcome fault pyval :=
  _ ← unless (byte_len raw <=? limit) reason "Checkpoint document exceeds its size bound";
  failing ("RecursionError" :: value_errors) (text ← decode_utf8 raw; loads strict_hooks depth text)
    reason "Checkpoint document is not strict JSON".

Definition parse_checkpoint_manifest (depth : nat) (raw : string) : outcome fault (list (string * pyval)) :=
  manifest ← parse_strict_json depth raw CHECKPOINT_MANIFEST_MAX_BYTES "CHECKPOINT_MANIFEST_INVALID";
  match manifest with
  | VDict d => Ret d
  | _ => Raise (ManifestError "CHECKPOINT_MANIFEST_INVALID" "Checkpoint manifest must be an object")
  end.

(** ** What is expected *)

(** [v or {}] *)
Definition or_empty (v : pyval) : list (string * pyval) := match v with VDict d => d | _ => [] end.
Definition list_or_empty (v : pyval) : list pyval := match v with VList l => l | _ => [] end.

Definition expected_compatibility (requirements : list (string * pyval)) (checkpointable restart_safe : bool) (architecture : pyval)
    : outcome fault (list (string * pyval)) :=
  let framework := match get_key "framework" (VDict requirements) with VStr s => dict_get s _FRAMEWORKS | _ => None end in
  let fails := Raise (ManifestError "CHECKPOINT_COMPATIBILITY_MISMATCH" "Checkpoint environment is unsupported") in
  match architecture, framework with
  | VStr _, Some f =>
      if existsb (py_eq architecture) (list_or_empty (get_key "architectures" (VDict requirements))) then
        let get k := get_key k (VDict requirements) in
        Ret [("architecture", architecture); ("device_type", get "device"); ("framework", VStr f);
             ("framework_version", get "framework_version"); ("cuda_version", get "cuda_runtime_min");
             ("minimum_driver_version", get "driver_min"); ("gpu_compute_capability", get "compute_capability_min");
             ("checkpointable", VBool checkpointable); ("restart_safe", VBool restart_safe)]
      else fails
  | _, _ => fails
  end.

(** Identifiers are their canonical texts. *)
Definition checkpoint_provenance (tenant_id job_id session_id attempt_id : string) (fence : Z) (input_checksum spec_checksum template : string)
    (template_version : Z) (adapter version image_digest : string) : list (string * pyval) :=
  [("tenant_id", VStr tenant_id); ("job_id", VStr job_id); ("session_id", VStr session_id); ("attempt_id", VStr attempt_id);
   ("job_fence", VInt fence); ("input_checksum", VStr input_checksum); ("spec_checksum", VStr spec_checksum);
   ("template_id", VStr template); ("template_version", VInt template_version); ("adapter_id", VStr adapter);
   ("adapter_version", VStr version); ("image_digest", VStr image_digest)].

(** ** The schema of a manifest *)

(** [datetime.fromisoformat] on a text that matched [_TIMESTAMP]: the calendar. *)
Definition number_at (a n : nat) (s : string) : Z := dec_value 0 (String.substring a n s).
Definition leap (y : Z) : bool := (y mod 4 =? 0) && (negb (y mod 100 =? 0) || (y mod 400 =? 0)).
Definition month_days (y m : Z) : Z :=
  if m =? 2 then (if leap y then 29 else 28) else if (m =? 4) || (m =? 6) || (m =? 9) || (m =? 11) then 30 else 31.
Definition calendar (s : string) : bool :=
  let y := number_at 0 4 s in
  let m := number_at 5 2 s in
  (1 <=? y) && between 1 m 12 && between 1 (number_at 8 2 s) (month_days y m)
  && (number_at 11 2 s <=? 23) && (number_at 14 2 s <=? 59) && (number_at 17 2 s <=? 59).

Definition valid_file (entry : pyval) : bool :=
  match entry with
  | VDict d =>
      fields_are d _FILE_FIELDS && str_matches _UUID7 (field "artifact_id" d) && str_matches _LOGICAL_NAME (field "logical_name" d)
      && match field "media_type" d with VStr s => between 1 (py_len s) 127 | _ => false end
      && int_within 0 (10 * 1024 ^ 3) (field "size_bytes" d) && str_matches _CHECKSUM (field "checksum" d)
  | _ => false
  end.

Definition str_of (v : pyval) : string := match v with VStr s => s | _ => "" end.

(** The loop over the files, with the names and identifiers seen. *)
Definition check_file (seen : list string * list string) (entry : pyval) : outcome fault (list string * list string) :=
  let '(names, identifiers) := seen in
  _ ← unless (valid_file entry) "CHECKPOINT_FILES_INVALID" "Checkpoint file entry is invalid";
  let name := str_of (get_key "logical_name" entry) in
  let identifier := str_of (get_key "artifact_id" entry) in
  _ ← unless (negb (existsb (String.eqb name) names || existsb (String.eqb identifier) identifiers))
        "CHECKPOINT_FILES_INVALID" "Checkpoint file entries must be unique";
  Ret (names ++ [name], identifiers ++ [identifier]).

(** [len(set(l)) == len(l)] for strings. *)
Fixpoint distinct (l : list string) : bool :=
  match l with [] => true | s :: l => negb (existsb (String.eqb s) l) && distinct l end.

Definition _check_schema (d : list (string * pyval)) : outcome fault () :=
  let invalid := "CHECKPOINT_MANIFEST_INVALID" in
  _ ← unless (fields_have d _REQUIRED && fields_in d ("chunk_output_manifest" :: _REQUIRED)) invalid "Checkpoint manifest fields are invalid";
  _ ← unless (str_is (field "kind" d) "CHECKPOINT" && int_within 1 1 (field "schema_version" d)
              && str_matches _UUID7 (field "checkpoint_id" d)
              && match field "checkpoint_sequence" d with VInt n => 1 <=? n | _ => false end
              && str_matches _CHECKSUM (field "manifest_checksum" d))
        invalid "Checkpoint manifest identity is invalid";
  _ ← unless (str_matches _TIMESTAMP (field "created_at" d)) invalid "Checkpoint timestamp is invalid";
  _ ← unless (calendar (str_of (field "created_at" d))) invalid "Checkpoint timestamp is invalid";
  _ ← unless (match field "provenance" d with VDict p => fields_are p _PROVENANCE | _ => false end)
        "CHECKPOINT_PROVENANCE_MISMATCH" "Checkpoint provenance fields are invalid";
  _ ← unless (match field "compatibility" d with VDict c => fields_are c _COMPATIBILITY | _ => false end)
        "CHECKPOINT_COMPATIBILITY_MISMATCH" "Checkpoint compatibility fields are invalid";
  _ ← unless (match field "cursor" d with
              | VDict c => fields_have c _CURSOR_REQUIRED && fields_in c (_CURSOR_REQUIRED ++ _CURSOR_OPTIONAL)
                           && forallb (λ k, match field k c with VInt n => 0 <=? n | _ => false end) _CURSOR_REQUIRED
              | _ => false
              end) "CHECKPOINT_CURSOR_INVALID" "Checkpoint cursor is invalid";
  _ ← unless (match field "state_components" d with
              | VList (_ :: _ as l) =>
                  forallb (λ v, match v with VStr s => existsb (String.eqb s) _STATE_COMPONENTS | _ => false end) l
                  && distinct (List.map str_of l)
              | _ => false
              end) invalid "Checkpoint state components are invalid";
  files ← match field "files" d with
          | VList l => if between 1 (Z.of_nat (length l)) 64 then Ret l
                       else Raise (ManifestError "CHECKPOINT_FILES_INVALID" "Checkpoint requires 1..64 file entries")
          | _ => Raise (ManifestError "CHECKPOINT_FILES_INVALID" "Checkpoint requires 1..64 file entries")
          end;
  _ ← for_each files check_file ([], []);
  Ret ().

Definition chunk_reference_required (provenance : pyval) : bool :=
  str_is (get_key "template_id" provenance) (template_id BATCH_INFERENCE).

Definition _check_chunk_reference (d : list (string * pyval)) : outcome fault () :=
  if chunk_reference_required (field "provenance" d) then
    unless (match field "chunk_output_manifest" d with
            | VDict r => fields_are r _CHUNK_REFERENCE && str_matches _UUID7 (field "artifact_id" r) && str_matches _CHECKSUM (field "checksum" r)
            | _ => false
            end) "CHECKPOINT_MANIFEST_INVALID" "Inference checkpoint chunk reference is invalid"
  else unless (negb (dict_mem "chunk_output_manifest" d)) "CHECKPOINT_MANIFEST_INVALID" "Checkpoint manifest must omit chunk outputs".

(** ** Per adapter; the schema was checked *)

Definition cursor_of (d : list (string * pyval)) : list (string * pyval) := or_empty (field "cursor" d).
Definition files_of (d : list (string * pyval)) : list (list (string * pyval)) := or_empty <$> list_or_empty (field "files" d).

Definition _check_cpu (d parameters : list (string * pyval)) : outcome fault () :=
  let invalid := "CHECKPOINT_CURSOR_INVALID" in
  '(iterations, modulus) ← match get_key "iterations" (VDict parameters), get_key "modulus" (VDict parameters) with
                           | VInt i, VInt m => Ret (i, m)
                           | _, _ => Raise (ManifestError invalid "CPU checkpoint parameters are unavailable")
                           end;
  let cursor := cursor_of d in
  let number k := int_value (field k cursor) in
  _ ← unless (fields_are cursor ["step"; "epoch"; "item_cursor"; "accumulator"] && (number "step" <=? iterations)
              && (number "epoch" =? 0) && (number "item_cursor" =? number "step")
              && match field "accumulator" cursor with VInt a => (0 <=? a) && (a <? modulus) | _ => false end)
        invalid "CPU checkpoint cursor is outside the job bounds";
  _ ← unless (py_eq (field "state_components" d) (VList [VStr "ACCUMULATOR"]))
        "CHECKPOINT_MANIFEST_INVALID" "CPU checkpoint must declare only ACCUMULATOR";
  unless (match files_of d with
          | [f] => str_is (field "logical_name" f) "state.json" && str_is (field "media_type" f) "application/json"
                   && int_within 1 CPU_STATE_MAX_BYTES (field "size_bytes" f)
          | _ => false
          end) "CHECKPOINT_FILES_INVALID" "CPU checkpoint requires one bounded state.json".

(** [[(e["logical_name"], e["media_type"]) for e in files] == [(r.logical_name, r.media_type) for r in rules]] *)
Definition files_follow (files : list (list (string * pyval))) (rules : list FileRule) : bool :=
  (length files =? length rules)%nat
  && forallb (λ '(f, r), str_is (field "logical_name" f) (rule_logical_name r) && str_is (field "media_type" f) (rule_media_type r))
       (zip files rules).

Definition adapter_errors : list string := ["LaunchSpecError"; "KeyError"; "TypeError"].

Definition _check_training (d : list (string * pyval)) (parameters : pyval) (adapter : AdapterDescriptor) : outcome fault () :=
  _ ← failing adapter_errors
        (p ← Launch.validate_parameters adapter parameters; Launch.validate_training_cursor (field "cursor" d) p)
        "CHECKPOINT_CURSOR_INVALID" "Training checkpoint cursor is outside the job bounds";
  _ ← unless (py_eq (field "state_components" d) (VList (VStr <$> state_components adapter)))
        "CHECKPOINT_MANIFEST_INVALID" "Training checkpoint components are not the adapter set";
  let bound f := if str_is (field "media_type" f) JSON then State.MAX_STATE_BYTES else ADAPTER_TENSOR_MAX_BYTES in
  unless (files_follow (files_of d) (checkpoint_files adapter)
          && forallb (λ f, int_within 1 (bound f) (field "size_bytes" f)) (files_of d))
    "CHECKPOINT_FILES_INVALID" "Training checkpoint files are not the bounded set".

Definition _check_inference (d : list (string * pyval)) (parameters : pyval) (adapter : AdapterDescriptor) : outcome fault () :=
  p ← failing adapter_errors (Launch.validate_parameters adapter parameters)
        "CHECKPOINT_CURSOR_INVALID" "Inference checkpoint parameters are unavailable";
  let cursor := cursor_of d in
  let number k := int_value (field k cursor) in
  _ ← unless (fields_are cursor _CURSOR_REQUIRED && (number "epoch" =? 0) && between 1 (number "step") Manifest.MAX_CHUNKS
              && between (number "step") (number "item_cursor") (number "step" * int_value (field "chunk_size" p)))
        "CHECKPOINT_CURSOR_INVALID" "Inference checkpoint cursor is outside the job bounds";
  _ ← unless (py_eq (field "state_components" d) (VList (VStr <$> state_components adapter)))
        "CHECKPOINT_MANIFEST_INVALID" "Inference checkpoint components are not the adapter set";
  unless (files_follow (files_of d) (checkpoint_files adapter)
          && forallb (λ f, int_within 1 Inference.MAX_DOCUMENT_BYTES (field "size_bytes" f)) (files_of d))
    "CHECKPOINT_FILES_INVALID" "Inference checkpoint files are not the bounded set".

(** ** The whole manifest *)

(** [type(a) is type(b)] *)
Definition same_type (a b : pyval) : bool :=
  match a, b with
  | VNone, VNone | VBool _, VBool _ | VInt _, VInt _ | VFloat _, VFloat _ | VStr _, VStr _ | VList _, VList _ | VDict _, VDict _ => true
  | _, _ => false
  end.
Definition bound_to (names : list string) (declared : pyval) (expected : list (string * pyval)) : bool :=
  forallb (λ k, py_eq (get_key k declared) (get_key k (VDict expected)) && same_type (get_key k declared) (get_key k (VDict expected))) names.

(** The facts of the database a manifest is checked against. *)
Record Origin := {
  o_artifact : Artifact;
  o_checkpoint_id : string;
  o_sequence : Z;
  o_provenance : list (string * pyval);
  o_compatibility : list (string * pyval);
  o_parameters : list (string * pyval);
}.

Definition canonical_errors : list string := "TypeError" :: "FloatDomainError" :: "IntegerDomainError" :: value_errors.

Section validate.
Context (sha256_hex : string → string).
(** [rfc8785.dumps] *)
Context (rfc8785_dumps : pyval → outcome exn string).
Context (depth : nat).

Definition checksum_of (raw : string) : string := "sha256:" +:+ sha256_hex raw.

(** The format of the state belongs to the adapter of the provenance. *)
Definition check_adapter (d parameters : list (string * pyval)) : outcome fault () :=
  let of_provenance k := get_key k (field "provenance" d) in
  if str_is (of_provenance "adapter_id") (adapter_id CPU_ITERATIVE) then _check_cpu d parameters
  else
    found ← lift (Launch.find_adapter (of_provenance "adapter_id") (of_provenance "adapter_version"));
    let unsupported := Raise (ManifestError "CHECKPOINT_TEMPLATE_UNSUPPORTED" "Checkpoint template is not supported") in
    match found with
    | None => unsupported
    | Some adapter =>
        if negb (same_adapter adapter PYTORCH_CIFAR10 || same_adapter adapter BATCH_INFERENCE)
           || negb (str_is (of_provenance "template_id") (template_id adapter))
           || negb (str_is (get_key "framework" (field "compatibility" d)) (manifest_framework adapter))
        then unsupported
        else if chunked adapter then _check_inference d (VDict parameters) adapter
        else _check_training d (VDict parameters) adapter
    end.

Definition validate_checkpoint_manifest (manifest : pyval) (raw : string) (o : Origin) : outcome fault (list pyval) :=
  parsed ← parse_checkpoint_manifest depth raw;
  let fresh := "CHECKPOINT_MANIFEST_NOT_CANONICAL" in
  _ ← unless (py_eq manifest (VDict parsed)) fresh "Checkpoint request differs from its bytes";
  _ ← _check_schema parsed;
  '(canonical, without_checksum) ← failing canonical_errors
    (c ← rfc8785_dumps (VDict parsed); w ← rfc8785_dumps (VDict (dict_del "manifest_checksum" parsed)); Ret (c, w))
    fresh "Checkpoint manifest is not canonical";
  _ ← unless (String.eqb raw canonical) fresh "Checkpoint manifest is not canonical";
  _ ← unless (str_is (field "manifest_checksum" parsed) (checksum_of without_checksum))
        "CHECKPOINT_MANIFEST_CHECKSUM_MISMATCH" "Checkpoint manifest checksum mismatch";
  let a := o_artifact o in
  _ ← unless (String.eqb (a_kind a) "CHECKPOINT_MANIFEST" && String.eqb (a_media_type a) "application/json"
              && (a_size_bytes a =? byte_len raw) && String.eqb (a_checksum a) (checksum_of raw))
        "CHECKPOINT_MANIFEST_CHECKSUM_MISMATCH" "Checkpoint manifest artifact mismatch";
  _ ← unless (str_is (field "checkpoint_id" parsed) (o_checkpoint_id o) && py_eq (field "checkpoint_sequence" parsed) (VInt (o_sequence o)))
        "CHECKPOINT_IDENTITY_MISMATCH" "Checkpoint identity differs from its reservation";
  _ ← unless (bound_to _PROVENANCE (field "provenance" parsed) (o_provenance o))
        "CHECKPOINT_PROVENANCE_MISMATCH" "Checkpoint provenance mismatch";
  _ ← unless (bound_to _COMPATIBILITY (field "compatibility" parsed) (o_compatibility o))
        "CHECKPOINT_COMPATIBILITY_MISMATCH" "Checkpoint compatibility mismatch";
  _ ← _check_chunk_reference parsed;
  _ ← check_adapter parsed (o_parameters o);
  Ret (list_or_empty (field "files" parsed)).

(** ** The files of a manifest *)

(** One turn of [check_file_artifacts]; [rows] is keyed by identifier. *)
Definition bind_file (rows : list (string * Artifact)) (tenant_id : string) (bound : list Artifact) (entry : pyval)
    : outcome fault (list Artifact) :=
  let invalid := Raise (ManifestError "CHECKPOINT_FILES_INVALID" "Checkpoint file binding is invalid") in
  match dict_get (str_of (get_key "artifact_id" entry)) rows with
  | None => invalid
  | Some row =>
      if String.eqb (a_tenant_id row) tenant_id && String.eqb (a_state row) "COMMITTED" && String.eqb (a_kind row) "CHECKPOINT_FILE"
         && str_is (get_key "media_type" entry) (a_media_type row) && py_eq (VInt (a_size_bytes row)) (get_key "size_bytes" entry)
         && str_is (get_key "checksum" entry) (a_checksum row)
      then Ret (bound ++ [row]) else invalid
  end.
Definition check_file_artifacts (entries : list pyval) (rows : list (string * Artifact)) (tenant_id : string) : outcome fault (list Artifact) :=
  for_each entries (bind_file rows tenant_id) [].

Definition validate_cpu_state (raw : string) (d : list (string * pyval)) : outcome fault pyval :=
  let invalid := "CHECKPOINT_STATE_INVALID" in
  state ← parse_strict_json depth raw CPU_STATE_MAX_BYTES invalid;
  accumulator ← lift (Manifest.item "accumulator" (cursor_of d));
  let of_provenance k := get_key k (field "provenance" d) in
  let expected := VDict [("schema_version", VInt 1); ("step", field "step" (cursor_of d)); ("accumulator", accumulator);
                         ("input_checksum", of_provenance "input_checksum"); ("spec_checksum", of_provenance "spec_checksum")] in
  canonical ← failing canonical_errors (rfc8785_dumps state) invalid "Checkpoint state is not canonical";
  _ ← unless (py_eq state expected && String.eqb raw canonical) invalid "Checkpoint state differs from its manifest";
  Ret state.

Section workload_files.
Context (shuffled : string → Z → list Z) (float_repr : spec_float → string) (stack : nat).

(** [contents] maps logical names to the bytes read; [model_checksum] is absent when the
    job has no model, and no validated document has that value. *)
Definition validate_training_state_files (contents : list (string * string)) (d parameters : list (string * pyval))
    : outcome fault (list (string * pyval)) :=
  let invalid := "CHECKPOINT_STATE_INVALID" in
  let of_provenance k := get_key k (field "provenance" d) in
  document ← failing ["TrainingStateError"; "LaunchSpecError"; "KeyError"]
    (raw ← match dict_get State.STATE_FILE contents with
           | Some raw => Ret raw
           | None => Raise (State.TrainingStateError "training state is absent")
           end;
     document ← State.parse_training_state sha256_hex shuffled float_repr depth stack raw true;
     _ ← Launch.check_training_state document parameters (field "threads" document)
           (of_provenance "input_checksum") (of_provenance "spec_checksum");
     Ret document)
    invalid "Training state differs from its job";
  cursor ← lift (State.runtime_cursor sha256_hex float_repr stack document);
  _ ← unless (py_eq (VDict cursor) (field "cursor" d)) invalid "Training state differs from its manifest cursor";
  Ret document.

Definition validate_inference_state_files (contents : list (string * string)) (d parameters : list (string * pyval))
    (model_checksum : option string) : outcome fault (list (string * pyval)) :=
  let invalid := "CHECKPOINT_STATE_INVALID" in
  let of_provenance k := get_key k (field "provenance" d) in
  document ← failing ["InferenceStateError"]
    (raw ← match checkpoint_files BATCH_INFERENCE with
           | [rule] => match dict_get (rule_logical_name rule) contents with
                       | Some raw => Ret raw
                       | None => Raise (Inference.InferenceStateError "inference state is absent")
                       end
           | _ => Raise (Exn "ValueError" "too many values to unpack")
           end;
     Inference.parse_state float_repr depth stack raw)
    invalid "Inference state is not the closed format";
  _ ← unless (forallb (λ k, py_eq (field k document) (get_key k (VDict parameters))) Launch.INFERENCE_PARAMETERS
              && py_eq (field "input_checksum" document) (of_provenance "input_checksum")
              && py_eq (field "spec_checksum" document) (of_provenance "spec_checksum")
              && match model_checksum with Some m => str_is (field "model_checksum" document) m | None => false end
              && (Inference.chunk_count (int_value (field "item_count" document)) (int_value (field "chunk_size" document))
                  <=? Manifest.MAX_CHUNKS))
        invalid "Inference state differs from its job";
  _ ← unless (py_eq (Inference.runtime_cursor document) (field "cursor" d)) invalid "Inference state differs from its manifest cursor";
  Ret document.

(** Raises [ChunkManifestError]; each caller maps it to its own rejection. *)
Definition check_chunk_manifest (raw : string) (a : Artifact) (reference provenance : list (string * pyval)) (model_checksum : string)
    (state : list (string * pyval)) (chunk_total : Z) : outcome exn (list pyval) :=
  let checksum := checksum_of raw in
  _ ← raise_when (negb (str_is (field "artifact_id" reference) (a_artifact_id a) && String.eqb (a_state a) "COMMITTED"
                        && String.eqb (a_kind a) "CHUNK_OUTPUT_MANIFEST" && String.eqb (a_media_type a) Manifest.MEDIA_TYPE
                        && (a_size_bytes a =? byte_len raw) && String.eqb (a_checksum a) checksum
                        && str_is (field "checksum" reference) checksum))
        (Manifest.ChunkManifestError "chunk-output manifest artifact mismatch");
  Manifest.parse float_repr depth stack sha256_hex raw
    {| Manifest.provenance := provenance; Manifest.model_checksum := model_checksum;
       Manifest.item_count := int_value (field "item_count" state); Manifest.chunk_size := int_value (field "chunk_size" state);
       Manifest.output_format := str_of (field "output_format" state); Manifest.chunk_total := chunk_total |}.
End workload_files.
End validate.

(** ** Documents equal in Python *)

(** No member is a boolean or a float, which Python identifies with integers. *)
Fixpoint exact (v : pyval) : bool :=
  match v with
  | VBool _ | VFloat _ => false
  | VList l => forallb exact l
  | VDict d => forallb (λ '(_, v), exact v) d
  | _ => true
  end.

Lemma sorted_dict_perm d e :
  NoDup d.*1 → List.map (λ '(k, v), (k, json_sorted v)) d ≡ₚ List.map (λ '(k, v), (k, json_sorted v)) e → sorted_dict d = sorted_dict e.
Proof.
  intros Hnd Hp. assert (sorted_dict d ≡ₚ sorted_dict e) as Hperm by (unfold sorted_dict; by rewrite !py_sorted_perm).
  apply (StronglySorted_unique_strong (λ a b, String.leb a.1 b.1 = true)); auto using sorted_dict_sorted.
  intros [k v] [k' v'] H1 H2 Hle Hge. rewrite <- Hperm in H2. cbn in Hle, Hge.
  assert (k = k') as <- by (by apply String.leb_antisym).
  assert (NoDup (sorted_dict d).*1) as Hnd' by (by rewrite sorted_dict_keys).
  apply dict_elem_get in H1, H2; [|done..]. congruence.
Qed.

(** Equal exact documents have one canonical form. *)
Lemma exact_eq_sorted u v :
  wf_value u = true → exact u = true → exact v = true → py_eq u v = true → json_sorted u = json_sorted v.
Proof.
  revert v. induction u as [| | | | |l IH|d IH] using pyval_nested_ind; intros v Hwf Hu Hv He; destruct v as [| |m| |s'|l'|e]; try done.
  - rewrite py_eq_int in He. apply Z.eqb_eq in He. by subst.
  - cbn in He. apply String.eqb_eq in He. by subst.
  - cbn in Hwf, Hu, Hv, He |- *. f_equal. revert l' Hv He. induction IH as [|x l Hx _ IHl]; intros [|y l'] Hv He; try done.
    cbn in *. bool_simpl. f_equal; auto.
  - rewrite !json_sorted_dict. f_equal. cbn [wf_value exact py_eq] in *.
    apply andb_true_iff in Hwf as [Hnd Hwf]. apply bool_decide_eq_true in Hnd. apply andb_true_iff in He as [Hlen He].
    apply Nat.eqb_eq in Hlen. apply sorted_dict_perm; [done|].
    apply submseteq_length_Permutation; [|rewrite !length_map; lia]. apply NoDup_submseteq.
    { apply (NoDup_fmap_1 fst). by rewrite map_json_keys. }
    intros [k w] Hin%list_elem_of_In%in_map_iff. destruct Hin as ([k' x] & [= -> <-] & Hin).
    rewrite forallb_forall in Hwf, Hu, Hv, He. specialize (Hwf _ Hin). specialize (Hu _ Hin). specialize (He _ Hin).
    cbn in Hwf, Hu, He. destruct (dict_get k e) as [y|] eqn:Hy; [|done]. apply dict_get_elem, list_elem_of_In in Hy.
    specialize (Hv _ Hy). cbn in Hv. rewrite Forall_forall in IH.
    apply list_elem_of_In, in_map_iff. exists (k, y). split; [|done]. f_equal. symmetry.
    apply (IH (k, x)); [by apply list_elem_of_In|done..].
Qed.

(** What strict parsing accepts has safe integers, no floats and distinct member names. *)
Definition strict (v : pyval) : bool := printable (λ _, true) safe_int v.

Lemma strict_dict d : strict (VDict d) = true ↔ NoDup d.*1 ∧ Forall (λ kv, strict kv.2 = true) d.
Proof.
  unfold strict. cbn. rewrite andb_true_iff, bool_decide_eq_true, forallb_forall, Forall_forall.
  apply and_iff_compat_l. split; intros H [k v] Hin; (apply (H (k, v)); by apply list_elem_of_In).
Qed.

Lemma strict_wf v : strict v = true → wf_value v = true.
Proof.
  induction v as [| | | | |l IH|d IH] using pyval_nested_ind; intros Hs; try done.
  - unfold strict in *. cbn in *. rewrite forallb_forall in *. intros x Hx. rewrite Forall_forall in IH.
    apply IH; [by apply list_elem_of_In|auto].
  - apply strict_dict in Hs as [Hnd Hs]. cbn. rewrite bool_decide_eq_true_2 by done. apply forallb_forall.
    intros [k x] Hx%list_elem_of_In. rewrite Forall_forall in IH, Hs. by apply (IH (k, x)), (Hs (k, x)).
Qed.

Lemma strict_get d k n : strict (VDict d) = true → dict_get k d = Some (VInt n) → Z.abs n ≤ _MAX_SAFE_INTEGER.
Proof.
  intros [_ Hs]%strict_dict Hk%dict_get_elem. rewrite Forall_forall in Hs. specialize (Hs _ Hk). by apply Z.leb_le.
Qed.

Lemma parse_strict depth raw limit reason v : parse_strict_json depth raw limit reason = Ret v → strict v = true.
Proof.
  intros H. apply bind_Ret in H as ([] & _ & H). unfold failing in H. destruct (_ ≫= _) as [v'|] eqn:Hl; [|by case_bool_decide].
  assert (v' = v) as <- by congruence. clear H. apply bind_Ret in Hl as (text & _ & Hl).
  assert (good (λ _, True) (λ v, strict v = true) (loads strict_hooks depth text)) as Hg; [|by rewrite Hl in Hg].
  apply (loads_good _ _ _ (String.length text)); try done.
  - intros l Hw. unfold strict. cbn. apply forallb_forall. intros u Hu%list_elem_of_In. rewrite Forall_forall in Hw. by apply Hw.
  - intros ps Hps. cbn [strict_hooks object_pairs]. rewrite unique_pairs_spec. destruct (bool_decide _) eqn:Hnd; [|done].
    cbn [good]. apply strict_dict. apply bool_decide_eq_true in Hnd. done.
  - intros t _. cbn. destruct (py_int t) as [m|]; [|done]. cbn. unfold strict, safe_int. destruct (_ <? _) eqn:Hm; [done|].
    cbn. apply Z.leb_le. lia.
Qed.

Section cpu_states.
Context (rfc8785_dumps : pyval → outcome exn string) (fr : spec_float → string) (depth : nat).
(** RFC 8785 on documents without floats: members in the order of their names, no spaces. *)
Context (Hrfc : ∀ v, plain v = true → rfc8785_dumps v = Ret (dumps json_raw_string fr (json_sorted v))).
Context (Hdepth : (0 < depth)%nat).
Context (n a : Z) (input spec : string) (Hst : checked n a input spec).

Lemma state_plain : plain (sorted_document n a input spec) = true.
Proof.
  destruct Hst as (? & ? & ? & ?). apply plain_dict. split; [apply (bool_decide_eq_true_1 _); by vm_compute|].
  repeat apply Forall_cons_2; [..|apply Forall_nil_2]; (split; [done|]); cbn [snd];
    first [by apply plain_safe|by apply checksum_plain|done].
Qed.

Lemma state_canonical : dumps json_raw_string fr (sorted_document n a input spec) = state_text n a input spec.
Proof.
  destruct Hst as (_ & _ & Hi & Hs). unfold sorted_document. cbn [dumps List.map join foldr].
  rewrite !(json_raw_simple input), !(json_raw_simple spec) by (by apply checksum_simple).
  rewrite !json_raw_simple by done. change (pretty 1) with "1". unfold state_text.
  by repeat first [rewrite str_assoc|rewrite str_cons|rewrite str_nil].
Qed.

Lemma rfc8785_state v : json_sorted v = sorted_document n a input spec → rfc8785_dumps v = Ret (state_text n a input spec).
Proof.
  intros Hv. rewrite Hrfc; [by rewrite Hv, state_canonical|]. apply plain_sorted_iff. rewrite Hv. apply state_plain.
Qed.

Lemma parse_strict_state reason :
  parse_strict_json depth (state_text n a input spec) CPU_STATE_MAX_BYTES reason = Ret (sorted_document n a input spec).
Proof.
  unfold parse_strict_json. pose proof (state_text_size n a input spec Hst) as Hsize.
  unfold unless. rewrite (proj2 (Z.leb_le _ _)) by (unfold CPU_STATE_MAX_BYTES, STATE_MAX_BYTES in *; lia).
  cbn [negb raise_when mbind outcome_bind]. unfold decode_utf8. rewrite is_ascii_utf8 by (by apply (state_text_ascii fr)).
  cbn [mbind outcome_bind]. rewrite <- state_canonical.
  rewrite (loads_canonical strict_hooks fr (sorted_document n a input spec)); [done|..].
  - intros m Hm. cbn. rewrite py_int_pretty by (by apply safe_short). cbn. unfold safe_int in Hm.
    by rewrite (proj2 (Z.ltb_ge _ _)) by (bool_simpl; lia).
  - intros ps Hps. cbn. by rewrite unique_pairs_spec, bool_decide_eq_true_2.
  - apply state_plain.
  - cbn. lia.
Qed.

(** The cursor and the provenance of a checked manifest of a CPU job. *)
Record at_state (d : list (string * pyval)) : Prop := {
  as_step : field "step" (cursor_of d) = VInt n;
  as_accumulator : dict_get "accumulator" (cursor_of d) = Some (VInt a);
  as_input : get_key "input_checksum" (field "provenance" d) = VStr input;
  as_spec : get_key "spec_checksum" (field "provenance" d) = VStr spec;
}.

Lemma validate_cpu_state_written d : at_state d →
  validate_cpu_state rfc8785_dumps depth (state_text n a input spec) d = Ret (sorted_document n a input spec).
Proof.
  intros [Hs Ha Hi Hp]. unfold validate_cpu_state. rewrite parse_strict_state. cbn [mbind outcome_bind].
  unfold Manifest.item. rewrite Ha. cbn [or_raise lift mbind outcome_bind]. rewrite Hs, Hi, Hp, rfc8785_state by done.
  cbn [failing mbind outcome_bind]. rewrite String.eqb_refl, andb_true_r.
  rewrite <- (document_sorted n a input spec). unfold state_document. 
  rewrite json_sorted_eq_l by (apply plain_wf, plain_sorted_iff; apply state_plain). done.
Qed.

Lemma validate_cpu_state_inv d raw s : at_state d → validate_cpu_state rfc8785_dumps depth raw d = Ret s → exact s = true →
  raw = state_text n a input spec.
Proof.
  intros [Hs Ha Hi Hp] H Hex. unfold validate_cpu_state in H. apply bind_Ret in H as (s' & Hwf%parse_strict%strict_wf & H).
  apply bind_Ret in H as (acc & Hacc & H). unfold Manifest.item in Hacc. rewrite Ha in Hacc. injection Hacc as <-.
  rewrite Hs, Hi, Hp in H. apply bind_Ret in H as (canonical & Hc & H). apply bind_Ret in H as ([] & Hg%raise_when_Ret & H).
  assert (s' = s) as -> by congruence. apply negb_false_iff, andb_true_iff in Hg as [He Hr%String.eqb_eq]. subst raw.
  apply exact_eq_sorted in He; [|done..]. rewrite rfc8785_state in Hc; [|exact He]. cbn in Hc. congruence.
Qed.
End cpu_states.

(** ** What an accepted manifest is bound to *)

Definition scalar (v : pyval) : bool := match v with VNone | VBool _ | VInt _ | VStr _ => true | _ => false end.

Lemma same_scalar u v : py_eq u v = true → same_type u v = true → scalar v = true → u = v.
Proof.
  destruct u as [|b|n| |s| |], v as [|b'|n'| |s'| |]; try done.
  - by destruct b, b'.
  - rewrite py_eq_int. intros ->%Z.eqb_eq. done.
  - cbn. intros ->%String.eqb_eq. done.
Qed.

Lemma bound_to_spec names declared expected k : bound_to names declared expected = true → k ∈ names →
  scalar (get_key k (VDict expected)) = true → get_key k declared = get_key k (VDict expected).
Proof.
  unfold bound_to. rewrite forallb_forall. intros H Hk%list_elem_of_In. specialize (H _ Hk).
  apply andb_true_iff in H as [? ?]. by apply same_scalar.
Qed.

Lemma unless_Ret ok reason message u : unless ok reason message = Ret u → ok = true.
Proof. unfold unless. by intros H%raise_when_Ret%negb_false_iff. Qed.

Section accepted.
Context (sha256_hex : string → string) (rfc8785_dumps : pyval → outcome exn string) (depth : nat).

(** The facts an accepted manifest establishes about its bytes and its origin. *)
Record accepted (manifest : pyval) (raw : string) (o : Origin) (files : list pyval) (parsed : list (string * pyval)) : Prop := {
  ac_parsed : parse_checkpoint_manifest depth raw = Ret parsed;
  ac_request : py_eq manifest (VDict parsed) = true;
  ac_schema : _check_schema parsed = Ret ();
  ac_canonical : rfc8785_dumps (VDict parsed) = Ret raw;
  ac_checksum : ∃ body, rfc8785_dumps (VDict (dict_del "manifest_checksum" parsed)) = Ret body ∧
    field "manifest_checksum" parsed = VStr (checksum_of sha256_hex body);
  ac_artifact : a_kind (o_artifact o) = "CHECKPOINT_MANIFEST" ∧ a_size_bytes (o_artifact o) = byte_len raw ∧
    a_checksum (o_artifact o) = checksum_of sha256_hex raw;
  ac_identity : field "checkpoint_id" parsed = VStr (o_checkpoint_id o) ∧ py_eq (field "checkpoint_sequence" parsed) (VInt (o_sequence o)) = true;
  ac_provenance : bound_to _PROVENANCE (field "provenance" parsed) (o_provenance o) = true;
  ac_compatibility : bound_to _COMPATIBILITY (field "compatibility" parsed) (o_compatibility o) = true;
  ac_chunks : _check_chunk_reference parsed = Ret ();
  ac_adapter : check_adapter parsed (o_parameters o) = Ret ();
  ac_files : files = list_or_empty (field "files" parsed);
}.

Lemma failing_Ret {A} classes (m : outcome exn A) reason message x : failing classes m reason message = Ret x → m = Ret x.
Proof. unfold failing. destruct m; [congruence|]. by case_bool_decide. Qed.

Lemma validate_checkpoint_manifest_inv manifest raw o files :
  validate_checkpoint_manifest sha256_hex rfc8785_dumps depth manifest raw o = Ret files → ∃ parsed, accepted manifest raw o files parsed.
Proof.
  intros H. apply bind_Ret in H as (parsed & Hp & H). apply bind_Ret in H as ([] & Hreq%unless_Ret & H).
  apply bind_Ret in H as ([] & Hs & H). apply bind_Ret in H as ([canonical body] & Hc%failing_Ret & H).
  apply bind_Ret in Hc as (c & Hc & Hb). apply bind_Ret in Hb as (b & Hb & [= -> ->]).
  apply bind_Ret in H as ([] & Hr%unless_Ret%String.eqb_eq & H). subst canonical.
  apply bind_Ret in H as ([] & Hsum%unless_Ret%str_is_spec & H). apply bind_Ret in H as ([] & Ha%unless_Ret & H).
  apply bind_Ret in H as ([] & Hid%unless_Ret & H). apply bind_Ret in H as ([] & Hpr%unless_Ret & H).
  apply bind_Ret in H as ([] & Hco%unless_Ret & H). apply bind_Ret in H as ([] & Hch & H).
  apply bind_Ret in H as ([] & Had & [= <-]).
  apply andb_true_iff in Hid as [Hid%str_is_spec Hseq]. rewrite !andb_true_iff in Ha. destruct Ha as (((Hk & _) & Hz) & Hcs).
  apply String.eqb_eq in Hk, Hcs. apply Z.eqb_eq in Hz. exists parsed. by split; eauto.
Qed.

Lemma check_schema_cursor d : _check_schema d = Ret () → ∃ c, field "cursor" d = VDict c ∧
  ∀ k, k ∈ _CURSOR_REQUIRED → ∃ n, dict_get k c = Some (VInt n) ∧ 0 ≤ n.
Proof.
  intros H. unfold _check_schema in H. do 6 (apply bind_Ret in H as ([] & _ & H)). apply bind_Ret in H as ([] & Hc%unless_Ret & _).
  destruct (field "cursor" d) as [| | | | | |c] eqn:Hd; try done. exists c. split; [done|]. intros k Hk.
  rewrite !andb_true_iff in Hc. destruct Hc as (_ & Hc). rewrite forallb_forall in Hc.
  specialize (Hc k (proj1 (list_elem_of_In _ _) Hk)). unfold field in Hc.
  destruct (dict_get k c) as [[]|]; try done. cbn in Hc. apply Z.leb_le in Hc. eauto.
Qed.
End accepted.

Lemma parse_checkpoint_strict depth raw d : parse_checkpoint_manifest depth raw = Ret d → strict (VDict d) = true.
Proof.
  intros H. apply bind_Ret in H as (v & Hv%parse_strict & H). destruct v; try done. by injection H as <-.
Qed.

Lemma strict_field d k c : strict (VDict d) = true → field k d = VDict c → strict (VDict c) = true.
Proof.
  intros [_ Hs]%strict_dict Hk. unfold field in Hk. destruct (dict_get k d) as [v|] eqn:Hv; [|done]. cbn in Hk. subst v.
  apply dict_get_elem in Hv. rewrite Forall_forall in Hs. apply (Hs _ Hv).
Qed.

(** The parameters and the cursor of an accepted manifest of a CPU job. *)
Lemma check_cpu_inv d parameters c :
  _check_cpu d parameters = Ret () → field "cursor" d = VDict c →
  (∀ k, k ∈ _CURSOR_REQUIRED → ∃ n, dict_get k c = Some (VInt n) ∧ 0 ≤ n) →
  ∃ iterations modulus n a, get_key "iterations" (VDict parameters) = VInt iterations ∧ get_key "modulus" (VDict parameters) = VInt modulus ∧
    dict_get "step" c = Some (VInt n) ∧ dict_get "accumulator" c = Some (VInt a) ∧ 0 ≤ n ≤ iterations ∧ 0 ≤ a < modulus.
Proof.
  intros H Hc Hreq. unfold _check_cpu in H. apply bind_Ret in H as ([iterations modulus] & Hp & H).
  apply bind_Ret in H as ([] & Hg%unless_Ret & _). unfold cursor_of in Hg. rewrite Hc in Hg. cbn [or_empty] in Hg.
  destruct (get_key "iterations" _) as [| |i| | | |]; try done. destruct (get_key "modulus" _) as [| |m| | | |]; try done.
  injection Hp as -> ->. destruct (Hreq "step") as (n & Hn & ?); [set_solver|]. rewrite !andb_true_iff in Hg.
  destruct Hg as ((((_ & Hle) & _) & _) & Hacc). unfold field in Hle, Hacc. rewrite Hn in Hle. cbn in Hle.
  destruct (dict_get "accumulator" c) as [[| |a| | | |]|]; try done. cbn in Hacc. bool_simpl.
  exists iterations, modulus, n, a. split_and!; done || lia.
Qed.

Section restores.
Context (sha256_hex : string → string) (rfc8785_dumps : pyval → outcome exn string) (fr : spec_float → string) (depth limit : nat).
Context (Hrfc : ∀ v, plain v = true → rfc8785_dumps v = Ret (dumps json_raw_string fr (json_sorted v))).
Context (Hdepth : (0 < depth)%nat) (Hlimit : (0 < limit)%nat).
(** The provenance the server derives for a job of the CPU adapter. *)
Context (tenant_id job_id session_id attempt_id template version image : string) (fence template_version : Z).
Context (input spec : string) (Hinput : fullmatch _CHECKSUM input = true) (Hspec : fullmatch _CHECKSUM spec = true).
Let expected : list (string * pyval) :=
  checkpoint_provenance tenant_id job_id session_id attempt_id fence input spec template template_version (adapter_id CPU_ITERATIVE) version image.

Lemma accepted_provenance_key manifest raw o files parsed k :
  accepted sha256_hex rfc8785_dumps depth manifest raw o files parsed → o_provenance o = expected → k ∈ _PROVENANCE →
  get_key k (field "provenance" parsed) = get_key k (VDict expected).
Proof.
  intros Hac He Hk. rewrite <- He. apply (bound_to_spec _ _ _ _ (ac_provenance _ _ _ _ _ _ _ _ Hac) Hk). rewrite He.
  unfold _PROVENANCE, Launch.PROVENANCE_FIELDS in Hk. repeat (apply elem_of_cons in Hk as [->|Hk]; [done|]). by apply not_elem_of_nil in Hk.
Qed.

(** The cursor an accepted manifest of this job names. *)
Lemma accepted_cpu_cursor manifest raw o files parsed :
  accepted sha256_hex rfc8785_dumps depth manifest raw o files parsed → o_provenance o = expected →
  ∃ iterations modulus n a,
    get_key "iterations" (VDict (o_parameters o)) = VInt iterations ∧ get_key "modulus" (VDict (o_parameters o)) = VInt modulus ∧
    n ≤ iterations ∧ a < modulus ∧ checked n a input spec ∧ at_state n a input spec parsed.
Proof.
  intros Hac He. pose proof (λ k, accepted_provenance_key _ _ _ _ _ k Hac He) as Hk.
  pose proof (ac_adapter _ _ _ _ _ _ _ _ Hac) as Had. unfold check_adapter in Had.
  rewrite (Hk "adapter_id") in Had by (apply (bool_decide_eq_true_1 _); by vm_compute).
  change (str_is (get_key "adapter_id" (VDict expected)) _) with true in Had. cbn iota in Had.
  destruct (check_schema_cursor _ (ac_schema _ _ _ _ _ _ _ _ Hac)) as (c & Hc & Hreq).
  destruct (check_cpu_inv _ _ c Had Hc Hreq) as (iterations & modulus & n & a & Hi & Hm & Hn & Ha & Hnr & Har).
  pose proof (parse_checkpoint_strict _ _ _ (ac_parsed _ _ _ _ _ _ _ _ Hac)) as Hst.
  pose proof (strict_field _ _ _ Hst Hc) as Hsc. pose proof (strict_get _ _ _ Hsc Hn). pose proof (strict_get _ _ _ Hsc Ha).
  exists iterations, modulus, n, a. split_and!; [done|done|lia|lia|..].
  - split_and!; done || lia.
  - split; unfold cursor_of; rewrite ?Hc; cbn [or_empty].
    + unfold field. by rewrite Hn.
    + done.
    + rewrite Hk by (apply (bool_decide_eq_true_1 _); by vm_compute). done.
    + rewrite Hk by (apply (bool_decide_eq_true_1 _); by vm_compute). done.
Qed.

End restores.

(** ** Inference checkpoints *)

Lemma validate_state_inv document d : Inference.validate_state document = Ret d → document = VDict d ∧
  ∃ next items size, field "next_chunk" d = VInt next ∧ field "item_count" d = VInt items ∧ field "chunk_size" d = VInt size ∧
    1 ≤ items ∧ 1 ≤ size ∧ 0 ≤ next.
Proof.
  intros H. apply bind_Ret in H as (d' & [-> _]%as_fields_Ret & H). apply bind_Ret in H as (? & _ & H).
  apply bind_Ret in H as ([] & Hid & H). apply bind_Ret in H as ([] & Hnext%raise_when_Ret & H).
  apply bind_Ret in H as ([] & _ & [= ->]). apply negb_false_iff, int_within_spec in Hnext as (n & Hn & Hr).
  destruct (Summary._check_identity_inv d () Hid) as (items & size & Hi & Hs & Hir & Hsr).
  split; [done|]. exists n, items, size. split_and!; done || lia.
Qed.

Lemma py_eq_field k d e v : py_eq (VDict d) (VDict e) = true → dict_get k d = Some v → py_eq v (field k e) = true.
Proof.
  cbn [py_eq]. rewrite andb_true_iff, forallb_forall. intros [_ H] Hk%dict_get_elem%list_elem_of_In. specialize (H _ Hk). cbn in H.
  unfold field. by destruct (dict_get k e).
Qed.

(** The entries of an accepted chunk manifest are exactly the items before the cursor of
    the checkpoint whose state file was accepted. *)
Lemma inference_checkpoint_covers sha256_hex depth fr stack contents d parameters model state raw a reference provenance chunks step item :
  _check_schema d = Ret () → field "step" (cursor_of d) = VInt step → field "item_cursor" (cursor_of d) = VInt item →
  validate_inference_state_files depth fr stack contents d parameters (Some model) = Ret state →
  check_chunk_manifest sha256_hex depth fr stack raw a reference provenance model state step = Ret chunks →
  ∃ entries, chunks = VDict <$> entries ∧ Z.of_nat (length entries) = step ∧
    mjoin (Coverage.items_of <$> entries) = seqZ 0 item ∧ NoDup (Manifest.artifact_of <$> entries).
Proof.
  intros Hschema Hstep Hitem Hv Hc. destruct (check_schema_cursor _ Hschema) as (c & Hcur & _).
  unfold cursor_of in Hstep, Hitem. rewrite Hcur in Hstep, Hitem. cbn [or_empty] in Hstep, Hitem.
  apply bind_Ret in Hv as (document & Hd%failing_Ret & Hv). apply bind_Ret in Hv as ([] & _ & Hv).
  apply bind_Ret in Hv as ([] & Hrun%unless_Ret & [= ->]). apply bind_Ret in Hd as (sraw & _ & Hd).
  do 2 (apply bind_Ret in Hd as (? & _ & Hd)). apply bind_Ret in Hd as (v & Hval & Hd). do 2 (apply bind_Ret in Hd as (? & _ & Hd)).
  injection Hd as ->. apply validate_state_inv in Hval as (_ & next & items & size & Hn & Hi & Hs & ? & ? & ?).
  rewrite Hcur in Hrun. unfold Inference.runtime_cursor in Hrun. rewrite Hn in Hrun.
  pose proof (py_eq_field "step" _ _ _ Hrun eq_refl) as E1. pose proof (py_eq_field "item_cursor" _ _ _ Hrun eq_refl) as E2.
  rewrite Hstep, py_eq_int in E1. rewrite Hitem, py_eq_int in E2. apply Z.eqb_eq in E1, E2. subst step item.
  apply bind_Ret in Hc as ([] & _ & Hc). apply Coverage.parse_covers in Hc; cbn [Manifest.chunk_size] in *; [|rewrite Hs; cbn; lia].
  destruct Hc as (entries & ? & Hlen & Htile & ?). cbn [Manifest.item_count Manifest.chunk_size Manifest.chunk_total] in *.
  exists entries. split_and!; try done. unfold Inference.item_cursor. by rewrite Hn.
Qed.

(** ** Sample runs *)

Module ManifestSamples.
Import Chunks.Samples.

(** An encoder that satisfies the hypothesis, and a digest. *)
Definition sample_dumps (v : pyval) : outcome exn string := Ret (dumps json_raw_string (λ _, "") (json_sorted v)).
Definition text_of (v : pyval) : string := dumps json_raw_string (λ _, "") (json_sorted v).

Definition sample_provenance (template adapter version : string) : list (string * pyval) :=
  checkpoint_provenance (sample_uuid "1") (sample_uuid "2") (sample_uuid "3") (sample_uuid "a") 3 sample_checksum sample_checksum template 1
    adapter version sample_checksum.
Definition sample_compatibility : list (string * pyval) :=
  [("architecture", VStr "linux/amd64"); ("device_type", VStr "CPU"); ("framework", VStr "PYTORCH"); ("framework_version", VStr "2.4.1");
   ("cuda_version", VNone); ("minimum_driver_version", VNone); ("gpu_compute_capability", VNone); ("checkpointable", VBool true);
   ("restart_safe", VBool true)].

Definition sample_manifest (provenance cursor : list (string * pyval)) (component name : string) (size : Z) (chunks : list (string * pyval)) : pyval :=
  VDict ([("kind", VStr "CHECKPOINT"); ("schema_version", VInt 1); ("checkpoint_id", VStr (sample_uuid "c")); ("checkpoint_sequence", VInt 1);
          ("created_at", VStr "2024-02-29T23:59:59.000Z"); ("provenance", VDict provenance); ("compatibility", VDict sample_compatibility);
          ("cursor", VDict cursor); ("state_components", VList [VStr component]);
          ("files", VList [VDict [("artifact_id", VStr (sample_uuid "f")); ("logical_name", VStr name); ("media_type", VStr "application/json");
                                  ("size_bytes", VInt size); ("checksum", VStr sample_checksum)]]);
          ("manifest_checksum", VStr sample_checksum)] ++ chunks).

Definition sample_artifact (id kind : string) (bytes : string) : Artifact :=
  {| a_artifact_id := sample_uuid id; a_tenant_id := sample_uuid "1"; a_state := "COMMITTED"; a_kind := kind; a_media_type := "application/json";
     a_size_bytes := byte_len bytes; a_checksum := sample_checksum; a_blob_key := id |}.

Definition cpu_provenance : list (string * pyval) := sample_provenance "cpu-iterative" (adapter_id CPU_ITERATIVE) "1.0.0".
Definition cpu_manifest : pyval :=
  sample_manifest cpu_provenance [("step", VInt 1); ("epoch", VInt 0); ("item_cursor", VInt 1); ("accumulator", VInt 7)] "ACCUMULATOR" "state.json" 220 [].
Definition cpu_origin : Origin := {|
  o_artifact := sample_artifact "m" "CHECKPOINT_MANIFEST" (text_of cpu_manifest); o_checkpoint_id := sample_uuid "c"; o_sequence := 1;
  o_provenance := cpu_provenance; o_compatibility := sample_compatibility; o_parameters := [("iterations", VInt 9); ("modulus", VInt 11)];
|}.


(** The server accepts [true] where the workload requires the integer 1. *)
Definition true_state : string :=
  text_of (VDict [("accumulator", VInt 7); ("input_checksum", VStr sample_checksum); ("schema_version", VBool true);
                  ("spec_checksum", VStr sample_checksum); ("step", VBool true)]).
Example cpu_state_true_accepted :
  (∃ s, validate_cpu_state sample_dumps 9 true_state (or_empty cpu_manifest) = Ret s) ∧
  decode_state (λ _, "") 9 true_state 9 11 sample_checksum sample_checksum = Raise (CpuStateError "state schema version is unsupported").
Proof. split; [eexists|]; vm_compute; reflexivity. Qed.

(** A training state file that holds a number of more than 4300 digits is not refused as one
    that differs from its job: the [ValueError] of [int] leaves the validation. *)
Example training_digits_escape :
  validate_training_state_files sample_digest 9 (λ _ _, []) (λ _, "") 9 [(State.STATE_FILE, String "1" (zeros 4300))] [] []
  = Raise (Other int_too_long).
Proof. vm_compute. reflexivity. Qed.
End ManifestSamples.
