(* ===== verification/Restore.v ===== *)
(** * Restoring a checkpoint

    [src/nexa/application/checkpoint_restore.py]: which checkpoint a new attempt resumes
    from.  The candidates and the recognized chunks are a snapshot of the database, the
    blobs are read from the artifact store, and the newest candidate whose manifest,
    state files and chunks all verify is selected.  The store is a parameter: the result
    of opening and reading a blob.  The transactions around the scan are not modelled. *)

From S2P Require Import Prelude PyValue PyDecimal WorkerModels Database Authority Capabilities.
From S2P Require Import Json Strict Chunks Safetensors Training CpuWorkload CheckpointManifest.

Local Open Scope string_scope.
Local Open Scope list_scope.
Local Open Scope Z_scope.

(** ** The snapshot *)

Record CandidateRow := {
  cr_checkpoint_id : string;
  cr_job_id : string;
  cr_sequence : Z;
  cr_manifest_checksum : string;
  cr_compatibility : pyval;
}.

Record RecognizedRow := {
  rg_chunk_id : string;
  rg_artifact_id : string;
  rg_checksum : string;
  rg_range_start : Z;
  rg_range_end : Z;
  rg_source_attempt_id : string;
  rg_source_job_fence : Z;
  rg_session_id : string;
}.

(** [candidate["chunks"]] *)
Record ChunkScope := {
  sc_recognized : list (string * RecognizedRow);
  sc_extent : option (Z * Z);
  sc_model_checksum : option string;
  sc_manifest : option Artifact;
  sc_references : list (string * string);
  sc_files : list (string * Artifact);
}.

Record Candidate := {
  cd_row : CandidateRow;
  cd_manifest : option Artifact;
  cd_references : list (string * string);
  cd_files : list (string * Artifact);
  cd_provenance : list (string * pyval);
  cd_unproven : bool;
  cd_chunks : option ChunkScope;
}.

Record Plan := {
  pl_tenant_id : string;
  pl_job_id : string;
  pl_requirements : list (string * pyval);
  pl_checkpointable : bool;
  pl_restart_safe : bool;
  pl_architecture : option string;
  pl_parameters : list (string * pyval);
  pl_candidates : list Candidate;
}.

Definition _INCOMPATIBLE : list string := ["CHECKPOINT_COMPATIBILITY_MISMATCH"; "CHECKPOINT_TEMPLATE_UNSUPPORTED"].
Definition _INVENTORY_UNREPORTED : string := "Worker inventory is not reported yet".
Definition _storage_unavailable (message : string) : exn := Exn "ApplicationError" message.
Definition STORAGE_UNAVAILABLE : string := "Artifact storage is unavailable".

(** [(outcome, value)] of a verification. *)
Inductive verdict :=
| VALID (manifest : list (string * pyval)) (files : list Artifact)
| CORRUPT (reason : string)
| INCOMPATIBLE (reason : string).

(** Tuples of strings compare by their components. *)
Definition pair_leb (a b : string * string) : bool := if String.eqb a.1 b.1 then String.leb a.2 b.2 else String.leb a.1 b.1.
Definition names_of (f : pyval → pyval) (entries : list pyval) : list (string * string) :=
  py_sorted pair_leb (List.map (λ e, (str_of (get_key "artifact_id" (f e)), str_of (get_key "logical_name" (f e)))) entries).

Section restore.
(** Opening and reading a blob: the code of an [ArtifactError], or the bytes. *)
Context (store : string → string + string).
Context (sha256_hex : string → string) (rfc8785_dumps : pyval → outcome exn string) (depth stack : nat).
Context (shuffled : string → Z → list Z) (float_repr : spec_float → string).

(** The bytes, or the reason the blob is corrupt. *)
Definition _read_blob (row : Artifact) (limit : Z) : outcome exn (string + string) :=
  match store (a_blob_key row) with
  | inl code =>
      if String.eqb code "not_found" then Ret (inr "CHECKPOINT_BLOB_MISSING") else Raise (_storage_unavailable STORAGE_UNAVAILABLE)
  | inr bytes =>
      let raw := String.substring 0 (Z.to_nat (limit + 1)) bytes in
      if negb (byte_len raw =? a_size_bytes row) || negb (String.eqb (checksum_of sha256_hex raw) (a_checksum row))
      then Ret (inr "CHECKPOINT_CHECKSUM_MISMATCH") else Ret (inl raw)
  end.

(** ** Chunks *)

(** The checks of one entry against its recognized row and its file. *)
Definition chunk_recognized (chunks : ChunkScope) (provenance : list (string * pyval)) (entry : pyval) : option Artifact :=
  let file := get_key "file" entry in
  match dict_get (str_of (get_key "chunk_id" entry)) (sc_recognized chunks), dict_get (str_of (get_key "artifact_id" file)) (sc_files chunks) with
  | Some recognized, Some file_row =>
      if str_is (get_key "artifact_id" file) (rg_artifact_id recognized) && str_is (get_key "checksum" file) (rg_checksum recognized)
         && py_eq (VInt (rg_range_start recognized)) (get_key "start_index" entry)
         && py_eq (VInt (rg_range_end recognized)) (get_key "end_index_exclusive" entry)
         && str_is (get_key "source_attempt_id" entry) (rg_source_attempt_id recognized)
         && py_eq (VInt (rg_source_job_fence recognized)) (get_key "source_job_fence" entry)
         && str_is (get_key "session_id" (VDict provenance)) (rg_session_id recognized)
         && String.eqb (a_state file_row) "COMMITTED" && String.eqb (a_kind file_row) "RESULT_FILE"
         && str_is (get_key "media_type" file) (a_media_type file_row) && py_eq (VInt (a_size_bytes file_row)) (get_key "size_bytes" file)
         && str_is (get_key "checksum" file) (a_checksum file_row)
      then Some file_row else None
  | _, _ => None
  end.

(** The loop over the entries; [Some reason] ends it. *)
Fixpoint verify_entries (chunks : ChunkScope) (provenance : list (string * pyval)) (entries : list pyval) : outcome exn (option string) :=
  match entries with
  | [] => Ret None
  | entry :: entries =>
      match chunk_recognized chunks provenance entry with
      | None => Ret (Some "CHECKPOINT_FILES_INVALID")
      | Some file_row =>
          blob ← _read_blob file_row Manifest.MAX_CHUNK_FILE_BYTES;
          match blob with
          | inr reason => Ret (Some reason)
          | inl _ => verify_entries chunks provenance entries
          end
      end
  end.

(** The row of the chunk manifest, or the reason it is corrupt.  The model checksum is
    present: the state was accepted against it. *)
Definition _verify_chunks (manifest state : list (string * pyval)) (chunks : ChunkScope) (provenance : list (string * pyval))
    : outcome exn (Artifact + string) :=
  let invalid := Ret (inr "CHECKPOINT_FILES_INVALID") in
  if negb (bool_decide (sc_extent chunks = Some (int_value (field "item_count" state), int_value (field "chunk_size" state))))
  then Ret (inr "CHECKPOINT_STATE_INVALID")
  else
    let reference := or_empty (field "chunk_output_manifest" manifest) in
    match sc_manifest chunks with
    | None => invalid
    | Some row =>
        if negb (str_is (field "artifact_id" reference) (a_artifact_id row)) then invalid
        else
          blob ← _read_blob row Manifest.MAX_MANIFEST_BYTES;
          match blob with
          | inr reason => Ret (inr reason)
          | inl raw =>
              match check_chunk_manifest sha256_hex depth float_repr stack raw row reference provenance (default "" (sc_model_checksum chunks))
                      state (int_value (field "step" (cursor_of manifest))) with
              | Raise e => if String.eqb (exn_class e) "ChunkManifestError" then invalid else Raise e
              | Ret entries =>
                  if negb (bool_decide (names_of (get_key "file") entries = sc_references chunks)) then invalid
                  else
                    problem ← verify_entries chunks provenance entries;
                    Ret match problem with Some reason => inr reason | None => inl row end
              end
          end
    end.

(** ** One candidate *)

(** [except CheckpointManifestError as exc: handler] *)
Definition rejecting {A} (m : outcome fault A) (handler : string → verdict) (k : A → outcome exn verdict) : outcome exn verdict :=
  match m with
  | Ret x => k x
  | Raise (ManifestError reason _) => Ret (handler reason)
  | Raise (Other e) => Raise e
  end.

(** The contents of the files, by logical name. *)
Fixpoint read_files (cpu : bool) (bound : list (pyval * Artifact)) (contents : list (string * string))
    : outcome exn (list (string * string) + string) :=
  match bound with
  | [] => Ret (inl contents)
  | (entry, row) :: bound =>
      blob ← _read_blob row (if cpu then CPU_STATE_MAX_BYTES else a_size_bytes row);
      match blob with
      | inr reason => Ret (inr reason)
      | inl content => read_files cpu bound (dict_set (str_of (get_key "logical_name" entry)) content contents)
      end
  end.

(** The state files of the adapter; [state] is bound for an inference checkpoint. *)
Definition validate_state_files (cpu : bool) (manifest parameters : list (string * pyval)) (contents : list (string * string))
    (chunks : option ChunkScope) : outcome fault (option (list (string * pyval))) :=
  if cpu then
    _ ← for_each contents (λ _ kv, _ ← validate_cpu_state rfc8785_dumps depth kv.2 manifest; Ret ()) ();
    Ret None
  else match chunks with
       | Some c => state ← validate_inference_state_files depth float_repr stack contents manifest parameters (sc_model_checksum c);
                   Ret (Some state)
       | None => _ ← validate_training_state_files sha256_hex depth shuffled float_repr stack contents manifest parameters;
                 Ret None
       end.

Definition origin_of (row : CandidateRow) (manifest_row : Artifact) (c : Candidate) (compatibility parameters : list (string * pyval)) : Origin := {|
  o_artifact := manifest_row; o_checkpoint_id := cr_checkpoint_id row; o_sequence := cr_sequence row;
  o_provenance := cd_provenance c; o_compatibility := compatibility; o_parameters := parameters;
|}.

(** The manifest and its file entries, bound to artifact rows. *)
Definition validate_candidate (plan : Plan) (c : Candidate) (manifest_row : Artifact) (compatibility : list (string * pyval)) (raw : string)
    : outcome fault (list (string * pyval) * list (pyval * Artifact) + string) :=
  manifest ← parse_checkpoint_manifest depth raw;
  entries ← validate_checkpoint_manifest sha256_hex rfc8785_dumps depth (VDict manifest) raw
    (origin_of (cd_row c) manifest_row c compatibility (pl_parameters plan));
  if negb (bool_decide (names_of id entries = cd_references c)) then Ret (inr "CHECKPOINT_FILES_INVALID")
  else
    files ← check_file_artifacts entries (cd_files c) (pl_tenant_id plan);
    Ret (inl (manifest, zip entries files)).

Definition verify_candidate (plan : Plan) (c : Candidate) (compatibility : list (string * pyval)) : outcome exn verdict :=
  let row := cd_row c in
  if cd_unproven c then Ret (INCOMPATIBLE "CHECKPOINT_PROVENANCE_MISMATCH")
  else if negb (is_none (cd_chunks c)) && negb (String.eqb (cr_job_id row) (pl_job_id plan))
  then Ret (INCOMPATIBLE "CHECKPOINT_COMPATIBILITY_MISMATCH")
  else
    match cd_manifest c with
    | None => Ret (CORRUPT "CHECKPOINT_MANIFEST_INVALID")
    | Some manifest_row =>
        if negb (String.eqb (a_state manifest_row) "COMMITTED") || negb (String.eqb (a_kind manifest_row) "CHECKPOINT_MANIFEST")
           || negb (String.eqb (a_checksum manifest_row) (cr_manifest_checksum row))
        then Ret (CORRUPT "CHECKPOINT_MANIFEST_INVALID")
        else
          blob ← _read_blob manifest_row CHECKPOINT_MANIFEST_MAX_BYTES;
          match blob with
          | inr reason => Ret (CORRUPT reason)
          | inl raw =>
              rejecting (validate_candidate plan c manifest_row compatibility raw)
                (λ reason, if bool_decide (reason ∈ _INCOMPATIBLE) then INCOMPATIBLE reason else CORRUPT reason)
                (λ found, match found with
                 | inr reason => Ret (CORRUPT reason)
                 | inl (manifest, bound) =>
                     let cpu := str_is (get_key "adapter_id" (field "provenance" manifest)) "cpu.iterative" in
                     read ← read_files cpu bound [];
                     match read with
                     | inr reason => Ret (CORRUPT reason)
                     | inl contents =>
                         rejecting (validate_state_files cpu manifest (pl_parameters plan) contents (cd_chunks c)) CORRUPT
                           (λ state, match cd_chunks c with
                            | None => Ret (VALID manifest bound.*2)
                            | Some chunks =>
                                state ← or_raise state (Exn "UnboundLocalError" "state");
                                verified ← _verify_chunks manifest state chunks (cd_provenance c);
                                Ret match verified with
                                    | inr reason => CORRUPT reason
                                    | inl value => VALID manifest (bound.*2 ++ [value])
                                    end
                            end)
                     end
                 end)
          end
    end.

(** ** The scan *)

Record Scan := {
  sn_marks : list (string * string);
  sn_incompatible : list string;
  sn_selected : option (CandidateRow * list (string * pyval) * list Artifact);
  sn_remaining : list string;
}.

(** The loop over the candidates, newest first. *)
Fixpoint scan_candidates (plan : Plan) (compatibility : list (string * pyval)) (candidates : list Candidate)
    (rejected : list pyval) (marks : list (string * string)) (incompatible : list string)
    : outcome exn (list (string * string) * list string * option (CandidateRow * list (string * pyval) * list Artifact)) :=
  match candidates with
  | [] => Ret (marks, incompatible, None)
  | c :: candidates =>
      let row := cd_row c in
      if existsb (py_eq (cr_compatibility row)) rejected then scan_candidates plan compatibility candidates rejected marks incompatible
      else
        v ← verify_candidate plan c compatibility;
        match v with
        | CORRUPT value => scan_candidates plan compatibility candidates rejected (marks ++ [(cr_checkpoint_id row, value)]) incompatible
        | INCOMPATIBLE value =>
            let rejected := if String.eqb (cr_job_id row) (pl_job_id plan) then rejected ++ [cr_compatibility row] else rejected in
            scan_candidates plan compatibility candidates rejected marks (incompatible ++ [value])
        | VALID manifest files => Ret (marks, incompatible, Some (row, manifest, files))
        end
  end.

(** [configured]: the server has an artifact store. *)
Definition _scan_restore (configured : bool) (plan : Plan) : outcome exn Scan :=
  match pl_candidates plan with
  | [] => Ret {| sn_marks := []; sn_incompatible := []; sn_selected := None; sn_remaining := [] |}
  | _ :: _ =>
      _ ← raise_when (negb configured) (_storage_unavailable STORAGE_UNAVAILABLE);
      architecture ← or_raise (pl_architecture plan) (_storage_unavailable _INVENTORY_UNREPORTED);
      let compatibility :=
        match expected_compatibility (pl_requirements plan) (pl_checkpointable plan) (pl_restart_safe plan) (VStr architecture) with
        | Ret c => c
        | Raise _ => []
        end in
      '(marks, incompatible, selected) ← scan_candidates plan compatibility (pl_candidates plan) [] [] [];
      Ret {| sn_marks := marks; sn_incompatible := incompatible; sn_selected := selected;
             sn_remaining := List.filter (λ id, negb (existsb (String.eqb id) marks.*1))
                               (List.map (λ c, cr_checkpoint_id (cd_row c)) (pl_candidates plan)) |}
  end.

(** ** Chunks recognized after the cursor *)

Record RecognizedScope := {
  rs_rows : list RecognizedRow;
  rs_extent : option (Z * Z);
  rs_artifacts : list (string * Artifact);
}.

Definition recognized_item (row : RecognizedRow) (artifact : Artifact) : list (string * pyval) :=
  [("chunk_id", VStr (rg_chunk_id row)); ("start_index", VInt (rg_range_start row)); ("end_index_exclusive", VInt (rg_range_end row));
   ("artifact_id", VStr (rg_artifact_id row)); ("size_bytes", VInt (a_size_bytes artifact)); ("checksum", VStr (rg_checksum row));
   ("source_attempt_id", VStr (rg_source_attempt_id row)); ("source_job_fence", VInt (rg_source_job_fence row))].

(** The rows from [index] on; [None]: one of them cannot be carried forward. *)
Fixpoint scan_rows (artifacts : list (string * Artifact)) (item_count chunk_size index : Z) (rows : list RecognizedRow)
    : outcome exn (option (list (list (string * pyval)))) :=
  match rows with
  | [] => Ret (Some [])
  | row :: rows =>
      extent ← Inference.chunk_extent index item_count chunk_size;
      match dict_get (rg_artifact_id row) artifacts with
      | None => Ret None
      | Some artifact =>
          if negb (bool_decide ((rg_range_start row, rg_range_end row) = extent)) || negb (String.eqb (a_state artifact) "COMMITTED")
             || negb (String.eqb (a_kind artifact) "RESULT_FILE") || negb (String.eqb (a_checksum artifact) (rg_checksum row))
             || negb (between 1 (a_size_bytes artifact) Manifest.MAX_CHUNK_FILE_BYTES)
          then Ret None
          else
            blob ← _read_blob artifact Manifest.MAX_CHUNK_FILE_BYTES;
            match blob with
            | inr _ => Ret None
            | inl _ => rest ← scan_rows artifacts item_count chunk_size (index + 1) rows;
                       Ret (cons (recognized_item row artifact) <$> rest)
            end
      end
  end.

Definition _scan_recognized (configured : bool) (scope : RecognizedScope) (cursor : nat) : outcome exn (option (list (list (string * pyval)))) :=
  let rows := rs_rows scope in
  if negb (bool_decide (List.map rg_chunk_id rows = List.map Inference.chunk_id (seqZ 0 (Z.of_nat (length rows))))) then Ret None
  else if (length rows <=? cursor)%nat then Ret (Some [])
  else match rs_extent scope with
       | None => Ret None
       | Some (item_count, chunk_size) =>
           _ ← raise_when (negb configured) (_storage_unavailable STORAGE_UNAVAILABLE);
           scan_rows (rs_artifacts scope) item_count chunk_size (Z.of_nat cursor) (drop cursor rows)
       end.
End restore.

(** ** Chunks offered to the worker *)

(** What the schema keeps of a recognized row. *)
Definition row_ok (row : RecognizedRow) : Prop :=
  fullmatch _UUID7 (rg_artifact_id row) = true ∧ fullmatch _CHECKSUM (rg_checksum row) = true ∧
  fullmatch _UUID7 (rg_source_attempt_id row) = true ∧ 1 ≤ rg_source_job_fence row ≤ 2 ^ 53 - 1.

(** A row that can be carried forward as chunk [index]. *)
Record carried (item_count chunk_size index : Z) (row : RecognizedRow) (it : list (string * pyval)) : Prop := {
  ca_start : 0 ≤ index * chunk_size < item_count;
  ca_range : (rg_range_start row, rg_range_end row) = (index * chunk_size, Z.min item_count (index * chunk_size + chunk_size));
  ca_item : ∃ artifact, it = recognized_item row artifact ∧ 1 ≤ a_size_bytes artifact ≤ Manifest.MAX_CHUNK_FILE_BYTES;
}.

Section scan.
Context (store : string → string + string) (sha256_hex : string → string).

Lemma scan_rows_inv artifacts item_count chunk_size index rows items :
  scan_rows store sha256_hex artifacts item_count chunk_size index rows = Ret (Some items) →
  length items = length rows ∧
  ∀ i row it, rows !! i = Some row → items !! i = Some it → carried item_count chunk_size (index + Z.of_nat i) row it.
Proof.
  revert index items. induction rows as [|row rows IH]; intros index items H; cbn [scan_rows] in H.
  { injection H as <-. split; [done|]. by intros []. }
  apply bind_Ret in H as ([start stop] & He & H). unfold Inference.chunk_extent in He.
  destruct (negb _) eqn:Hr in He; [done|]. injection He as <- <-. apply negb_false_iff, andb_true_iff in Hr as [Hlo%Z.leb_le Hhi%Z.ltb_lt].
  destruct (dict_get _ _) as [artifact|]; [|done]. destruct (_ || _) eqn:Hg in H; [done|].
  rewrite !orb_false_iff, !negb_false_iff in Hg. destruct Hg as ((((Hrange%bool_decide_eq_true & _) & _) & _) & Hsize).
  apply bind_Ret in H as ([] & _ & H); [|done]. apply bind_Ret in H as ([rest|] & Hrest & [= <-]).
  apply IH in Hrest as [Hlen Hall]. split; [by cbn; rewrite Hlen|]. intros [|i] row' it' H1 H2; cbn in H1, H2.
  - injection H1 as <-. injection H2 as <-. rewrite Z.add_0_r. split; [lia|done|]. exists artifact. split; [done|].
    unfold between in Hsize. lia.
  - replace (index + Z.of_nat (S i)) with (index + 1 + Z.of_nat i) by lia. eauto.
Qed.

Lemma check_recognized_ok first size count seen off row it item_count :
  row_ok row → carried item_count size (first + off) row it → rg_chunk_id row = Inference.chunk_id (first + off) → 1 ≤ size →
  (off < count - 1 → (first + off + 1) * size < item_count) → off ≤ count - 1 → rg_artifact_id row ∉ seen →
  Manifest.check_recognized first size count seen off (VDict it) = Ret (seen ++ [rg_artifact_id row]).
Proof.
  intros (Ha & Hc & Hs & Hf) [Hstart Hrange (artifact & -> & Hz)] Hid Hsize Hnext Hle Hnew. injection Hrange as Hrs Hre.
  unfold Manifest.check_recognized, recognized_item.
  change (as_fields (VDict ?d) _ _) with (Ret (E := exn) d). cbn [mbind outcome_bind].
  set (d := [("chunk_id", _); _; _; _; _; _; _; _]).
  change (field "chunk_id" d) with (VStr (rg_chunk_id row)). change (field "start_index" d) with (VInt (rg_range_start row)).
  change (field "end_index_exclusive" d) with (VInt (rg_range_end row)). change (field "artifact_id" d) with (VStr (rg_artifact_id row)).
  change (field "size_bytes" d) with (VInt (a_size_bytes artifact)). change (field "checksum" d) with (VStr (rg_checksum row)).
  change (field "source_attempt_id" d) with (VStr (rg_source_attempt_id row)).
  change (field "source_job_fence" d) with (VInt (rg_source_job_fence row)).
  rewrite Hid, (proj2 (str_is_spec (VStr _) _) eq_refl), py_eq_int. cbn [int_within str_matches Manifest.str_of]. unfold between.
  rewrite Ha, Hc, Hs, Hrs, Hre. rewrite !(proj2 (Z.leb_le _ _)) by lia. cbn [andb negb orb].
  destruct (off =? count - 1) eqn:Hlast; cbn [negb andb orb raise_when mbind outcome_bind].
  - destruct (existsb _ _) eqn:He; [|done]. apply existsb_eqb in He. done.
  - rewrite Z.min_r by lia. rewrite Z.eqb_refl. cbn [negb andb orb raise_when mbind outcome_bind].
    destruct (existsb _ _) eqn:He; [|done]. apply existsb_eqb in He. done.
Qed.
Lemma check_recognized_all first size count item_count rows items off seen :
  length items = length rows → off + Z.of_nat (length rows) = count → Forall row_ok rows → 1 ≤ size →
  (∀ i row it, rows !! i = Some row → items !! i = Some it →
     carried item_count size (first + (off + Z.of_nat i)) row it ∧ rg_chunk_id row = Inference.chunk_id (first + (off + Z.of_nat i))) →
  NoDup (seen ++ (rg_artifact_id <$> rows)) →
  for_each (zip (seqZ off (Z.of_nat (length items))) (VDict <$> items))
    (λ seen '(offset, chunk), Manifest.check_recognized first size count seen offset chunk) seen = Ret (seen ++ (rg_artifact_id <$> rows)).
Proof.
  revert rows off seen. induction items as [|it items IH]; intros [|row rows] off seen Hlen Hoff Hok Hsize Hall Hnd; try done.
  { cbn. by rewrite app_nil_r. }
  apply Forall_cons in Hok as [Hrow Hok]. cbn [length] in *.
  replace (Z.of_nat (S (length items))) with (Z.succ (Z.of_nat (length items))) by lia. rewrite seqZ_cons by lia.
  replace (Z.pred (Z.succ (Z.of_nat (length items)))) with (Z.of_nat (length items)) by lia.
  cbn [fmap list_fmap zip zip_with for_each]. destruct (Hall 0%nat row it eq_refl eq_refl) as [Hc Hid]. rewrite Z.add_0_r in Hc, Hid.
  rewrite (check_recognized_ok first size count seen off row it item_count); [|done..| |lia|].
  - cbn [mbind outcome_bind]. cbn [fmap list_fmap] in Hnd. rewrite (cons_middle (rg_artifact_id row)), app_assoc in Hnd.
    rewrite (IH rows (Z.succ off) (seen ++ [rg_artifact_id row])); [|lia|lia|done|done| |done].
    + by rewrite <- app_assoc.
    + intros i row' it' H1 H2. replace (Z.succ off + Z.of_nat i) with (off + Z.of_nat (S i)) by lia. by apply Hall.
  - intros Hlt. destruct rows as [|row' rows], items as [|it' items]; cbn [length] in *; try lia.
    destruct (Hall 1%nat row' it' eq_refl eq_refl) as [[Hs _ _] _]. nia.
  - intros Hin. cbn in Hnd. apply NoDup_app in Hnd as (_ & Hnd & _). apply (Hnd _ Hin). by left.
Qed.

(** The worker accepts the chunks the server offers.  When the scan of the recognized
    chunks beyond the restored cursor returns a list, the check of the claim on the worker
    accepts that list from that cursor on, and it names every later chunk once. *)
Theorem recognized_items_accepted configured scope cursor item_count chunk_size items :
  rs_extent scope = Some (item_count, chunk_size) → 1 ≤ chunk_size → Forall row_ok (rs_rows scope) →
  NoDup (rg_artifact_id <$> rs_rows scope) → Z.of_nat (length (rs_rows scope)) ≤ Manifest.MAX_CHUNKS → Z.of_nat cursor ≤ Manifest.MAX_CHUNKS →
  _scan_recognized store sha256_hex configured scope cursor = Ret (Some items) →
  Manifest.validate_recognized (VList (VDict <$> items)) (Z.of_nat cursor) chunk_size = Ret (VDict <$> items) ∧
  (field "chunk_id" <$> items) = VStr ∘ rg_chunk_id <$> drop cursor (rs_rows scope).
Proof.
  intros Hext Hsize Hok Hnd Hmax Hcur H. unfold _scan_recognized in H. case_bool_decide as Hids; [|done]. cbn [negb] in H.
  unfold Manifest.validate_recognized, between. rewrite !(proj2 (Z.leb_le _ _)) by lia. cbn [andb mbind outcome_bind].
  rewrite length_fmap. destruct (Nat.leb_spec (length (rs_rows scope)) cursor) as [Hle|Hlt].
  { injection H as <-. rewrite (proj2 (Z.ltb_ge _ _)) by (cbn; lia). by rewrite drop_ge by done. }
  rewrite Hext in H. apply bind_Ret in H as ([] & _ & H). apply scan_rows_inv in H as [Hlen Hall]. rewrite length_drop in Hlen.
  rewrite (proj2 (Z.ltb_ge _ _)) by lia. cbn [raise_when mbind outcome_bind]. unfold Manifest.enumerate. rewrite length_fmap.
  rewrite (check_recognized_all (Z.of_nat cursor) chunk_size _ item_count (drop cursor (rs_rows scope)) items 0 []);
    [|by rewrite length_drop|rewrite length_drop; lia|by apply Forall_drop|done| |].
  - split; [done|]. apply list_eq. intros i. rewrite !list_lookup_fmap.
    destruct (drop cursor _ !! i) as [row|] eqn:Hr; cbn.
    + destruct (items !! i) as [it|] eqn:Hi; [|apply lookup_ge_None in Hi; apply lookup_lt_Some in Hr; rewrite length_drop in Hr; lia].
      destruct (Hall i row it Hr Hi) as [_ _ (artifact & -> & _)]. done.
    + apply lookup_ge_None in Hr. rewrite length_drop in Hr. by rewrite lookup_ge_None_2 by lia.
  - intros i row it Hr Hi. rewrite Z.add_0_l. split; [by apply Hall|]. rewrite lookup_drop in Hr.
    assert (List.map rg_chunk_id (rs_rows scope) !! (cursor + i)%nat = Some (rg_chunk_id row)) as Hrow.
    { change (List.map rg_chunk_id) with (fmap (M := list) rg_chunk_id). by rewrite list_lookup_fmap, Hr. }
    rewrite Hids in Hrow. change (List.map Inference.chunk_id) with (fmap (M := list) Inference.chunk_id) in Hrow.
    rewrite list_lookup_fmap, lookup_seqZ_lt in Hrow by (apply lookup_lt_Some in Hr; lia). injection Hrow as <-. f_equal. lia.
  - cbn. rewrite fmap_drop. rewrite <- (take_drop cursor (rg_artifact_id <$> rs_rows scope)) in Hnd. by apply NoDup_app in Hnd as (_ & _ & ?).
Qed.
End scan.

(** ** The selected checkpoint *)

Section selection.
Context (store : string → string + string).
Context (sha256_hex : string → string) (rfc8785_dumps : pyval → outcome exn string) (depth stack : nat).
Context (shuffled : string → Z → list Z) (float_repr : spec_float → string).

Let verify := verify_candidate store sha256_hex rfc8785_dumps depth stack shuffled float_repr.

(** Why a candidate of [all] is not selected. *)
Definition passed_over (plan : Plan) (compatibility : list (string * pyval)) (all : list Candidate) (c : Candidate) : Prop :=
  (∃ reason, verify plan c compatibility = Ret (CORRUPT reason)) ∨
  (∃ reason, verify plan c compatibility = Ret (INCOMPATIBLE reason)) ∨
  (∃ c' reason, c' ∈ all ∧ cr_job_id (cd_row c') = pl_job_id plan ∧ verify plan c' compatibility = Ret (INCOMPATIBLE reason) ∧
    py_eq (cr_compatibility (cd_row c)) (cr_compatibility (cd_row c')) = true).

(** The marks after [before]: its corrupt candidates that were examined. *)
Definition marks_of (plan : Plan) (compatibility : list (string * pyval)) (before : list Candidate) (mark : string * string) : Prop :=
  ∃ c, c ∈ before ∧ cr_checkpoint_id (cd_row c) = mark.1 ∧ verify plan c compatibility = Ret (CORRUPT mark.2).

Record scanned (plan : Plan) (compatibility : list (string * pyval)) (before : list Candidate) (marks : list (string * string)) : Prop := {
  sd_passed : Forall (passed_over plan compatibility before) before;
  sd_marks : Forall (marks_of plan compatibility before) marks;
}.

Lemma passed_over_mono plan compatibility all all' c :
  passed_over plan compatibility all c → passed_over plan compatibility (all ++ all') c.
Proof.
  intros [?|[?|(c' & reason & Hin & ?)]]; [by left|by right; left|]. right; right. exists c', reason. split; [|done].
  apply elem_of_app. by left.
Qed.

Lemma scanned_snoc plan compatibility before marks c new :
  scanned plan compatibility before marks → passed_over plan compatibility (before ++ [c]) c →
  Forall (marks_of plan compatibility (before ++ [c])) new → scanned plan compatibility (before ++ [c]) (marks ++ new).
Proof.
  intros [Hp Hm] Hc Hnew. split.
  - apply Forall_app. split; [|by apply Forall_singleton]. eapply Forall_impl; [exact Hp|]. intros x. apply passed_over_mono.
  - apply Forall_app. split; [|done]. eapply Forall_impl; [exact Hm|]. intros x (c' & ? & ?). exists c'. split; [|done].
    apply elem_of_app. by left.
Qed.

(** How a scan that has passed over [before] ends on [candidates]. *)
Definition ended (plan : Plan) (compatibility : list (string * pyval)) (before candidates : list Candidate) (marks : list (string * string))
    (selected : option (CandidateRow * list (string * pyval) * list Artifact)) : Prop :=
  ∃ passed rest, candidates = passed ++ rest ∧ scanned plan compatibility (before ++ passed) marks ∧
    match selected with
    | None => rest = []
    | Some (row, manifest, files) => ∃ c after, rest = c :: after ∧ cd_row c = row ∧ verify plan c compatibility = Ret (VALID manifest files)
    end.

Lemma ended_cons plan compatibility before c candidates marks selected :
  ended plan compatibility (before ++ [c]) candidates marks selected → ended plan compatibility before (c :: candidates) marks selected.
Proof. intros (passed & rest & -> & Hp & Hsel). exists (c :: passed), rest. rewrite <- app_assoc in Hp. done. Qed.

(** The environments of the incompatible candidates of this job. *)
Definition environments (plan : Plan) (compatibility : list (string * pyval)) (before : list Candidate) (v : pyval) : Prop :=
  ∃ c reason, c ∈ before ∧ cr_compatibility (cd_row c) = v ∧ cr_job_id (cd_row c) = pl_job_id plan ∧
    verify plan c compatibility = Ret (INCOMPATIBLE reason).

Lemma environments_mono plan compatibility before more rejected :
  Forall (environments plan compatibility before) rejected → Forall (environments plan compatibility (before ++ more)) rejected.
Proof.
  intros H. eapply Forall_impl; [exact H|]. intros v (c & reason & ? & ?). exists c, reason. split; [|done]. apply elem_of_app. by left.
Qed.

Lemma scan_candidates_inv plan compatibility before candidates rejected marks incompatible marks' incompatible' selected :
  scanned plan compatibility before marks → Forall (environments plan compatibility before) rejected →
  scan_candidates store sha256_hex rfc8785_dumps depth stack shuffled float_repr plan compatibility candidates rejected marks incompatible
    = Ret (marks', incompatible', selected) →
  ended plan compatibility before candidates marks' selected.
Proof.
  revert before rejected marks incompatible.
  induction candidates as [|c candidates IH]; intros before rejected marks incompatible Hs Hrej H; cbn [scan_candidates] in H.
  { injection H as <- <- <-. exists [], []. split_and!; [done|by rewrite app_nil_r|done]. }
  pose proof (environments_mono _ _ _ [c] _ Hrej) as Hrej'.
  assert (c ∈ before ++ [c]) as Hc by (apply elem_of_app; right; by apply list_elem_of_singleton).
  destruct (existsb _ rejected) eqn:Hex.
  { apply ended_cons. eapply IH; [|exact Hrej'|exact H]. rewrite <- (app_nil_r marks). apply scanned_snoc; [done| |done].
    apply existsb_exists in Hex as (v & Hv%list_elem_of_In & He). rewrite Forall_forall in Hrej'.
    destruct (Hrej' v Hv) as (c' & reason & Hin & Hcv & ? & ?). right; right. exists c', reason. by rewrite Hcv. }
  apply bind_Ret in H as (v & Hv & H). fold (verify plan c compatibility) in Hv. destruct v as [manifest files|reason|reason].
  - injection H as <- <- <-. exists [], (c :: candidates). split_and!; [done|by rewrite app_nil_r|by eauto].
  - apply ended_cons. eapply IH; [|exact Hrej'|exact H]. apply scanned_snoc; [done|by left; eauto|].
    apply Forall_singleton. by exists c.
  - apply ended_cons. eapply IH; [| |exact H].
    + rewrite <- (app_nil_r marks). apply scanned_snoc; [done|by right; left; eauto|done].
    + destruct (String.eqb_spec (cr_job_id (cd_row c)) (pl_job_id plan)) as [Ho|]; [|done]. apply Forall_app. split; [done|].
      apply Forall_singleton. by exists c, reason.
Qed.


Lemma rejecting_Ret {A} (m : outcome fault A) handler k v : rejecting m handler k = Ret v → (∀ reason, handler reason ≠ v) →
  ∃ x, m = Ret x ∧ k x = Ret v.
Proof. unfold rejecting. destruct m as [x|[reason message|e]]; [eauto|naive_solver|done]. Qed.

(** What a verification that ends in [VALID] went through. *)
Lemma verify_valid_inv plan c compatibility manifest files : verify plan c compatibility = Ret (VALID manifest files) →
  ∃ manifest_row raw bound contents state,
    validate_candidate sha256_hex rfc8785_dumps depth plan c manifest_row compatibility raw = Ret (inl (manifest, bound)) ∧
    let cpu := str_is (get_key "adapter_id" (field "provenance" manifest)) "cpu.iterative" in
    read_files store sha256_hex cpu bound [] = Ret (inl contents) ∧
    validate_state_files sha256_hex rfc8785_dumps depth stack shuffled float_repr cpu manifest (pl_parameters plan) contents (cd_chunks c) = Ret state ∧
    match cd_chunks c with
    | None => files = bound.*2
    | Some chunks => ∃ document row, state = Some document ∧ files = bound.*2 ++ [row] ∧
        _verify_chunks store sha256_hex depth stack float_repr manifest document chunks (cd_provenance c) = Ret (inl row)
    end.
Proof.
  unfold verify, verify_candidate. destruct (cd_unproven c); [done|]. destruct (negb _ && negb _); [done|].
  destruct (cd_manifest c) as [manifest_row|]; [|done]. destruct (_ || _); [done|]. intros H.
  apply bind_Ret in H as ([raw|reason] & _ & H); [|done].
  apply rejecting_Ret in H as ([[manifest' bound]|reason] & Hc & H); [|done|intros r; by case_bool_decide].
  apply bind_Ret in H as ([contents|reason] & Hr & H); [|done]. apply rejecting_Ret in H as (state & Hs & H); [|done].
  exists manifest_row, raw, bound, contents, state. destruct (cd_chunks c) as [chunks|].
  - apply bind_Ret in H as (document & Hd%or_raise_Ret & H). apply bind_Ret in H as ([row|reason] & Hv & [=]). subst. eauto 10.
  - injection H as -> <-. done.
Qed.

Lemma verify_entries_None chunks provenance entries : verify_entries store sha256_hex chunks provenance entries = Ret None →
  Forall (λ e, ∃ file bytes, chunk_recognized chunks provenance e = Some file ∧
    _read_blob store sha256_hex file Manifest.MAX_CHUNK_FILE_BYTES = Ret (inl bytes)) entries.
Proof.
  induction entries as [|e entries IH]; intros H; cbn in H; [constructor|].
  destruct (chunk_recognized chunks provenance e) as [file|] eqn:Hf; [|done].
  apply bind_Ret in H as ([bytes|reason] & Hb & H); [|done]. constructor; eauto.
Qed.

Lemma _verify_chunks_inv manifest document chunks provenance row :
  _verify_chunks store sha256_hex depth stack float_repr manifest document chunks provenance = Ret (inl row) →
  ∃ raw entries, check_chunk_manifest sha256_hex depth float_repr stack raw row (or_empty (field "chunk_output_manifest" manifest)) provenance
      (default "" (sc_model_checksum chunks)) document (int_value (field "step" (cursor_of manifest))) = Ret entries ∧
    verify_entries store sha256_hex chunks provenance entries = Ret None.
Proof.
  unfold _verify_chunks. destruct (negb _); [done|]. destruct (sc_manifest chunks) as [row'|]; [|done]. destruct (negb _); [done|].
  intros H. apply bind_Ret in H as ([raw|reason] & _ & H); [|done].
  destruct (check_chunk_manifest _ _ _ _ _ _ _ _ _ _ _) as [entries|e] eqn:Hc; [|by destruct (String.eqb _ _)].
  destruct (negb _); [done|]. apply bind_Ret in H as ([reason|] & Hv & [=]). subst row'. eauto.
Qed.

Lemma validate_candidate_inv plan c manifest_row compatibility raw manifest bound :
  validate_candidate sha256_hex rfc8785_dumps depth plan c manifest_row compatibility raw = Ret (inl (manifest, bound)) →
  ∃ entries, accepted sha256_hex rfc8785_dumps depth (VDict manifest) raw
    (origin_of (cd_row c) manifest_row c compatibility (pl_parameters plan)) entries manifest ∧
    ∃ files, check_file_artifacts entries (cd_files c) (pl_tenant_id plan) = Ret files ∧ bound = zip entries files.
Proof.
  intros H. apply bind_Ret in H as (m & Hm & H). apply bind_Ret in H as (entries & He & H). destruct (negb _); [done|].
  apply bind_Ret in H as (files & Hf & [= -> <-]). exists entries. split; [|eauto].
  apply validate_checkpoint_manifest_inv in He as (parsed & Hac). assert (parsed = manifest) as -> by (pose proof (ac_parsed _ _ _ _ _ _ _ _ Hac); congruence).
  done.
Qed.

End selection.

(** ** Sample runs *)

Module RestoreSamples.
Import Chunks.Samples ManifestSamples.

Definition inf_provenance : list (string * pyval) :=
  sample_provenance (template_id BATCH_INFERENCE) (adapter_id BATCH_INFERENCE) (adapter_version BATCH_INFERENCE).
Definition inf_expected : Manifest.Expected := {|
  Manifest.provenance := inf_provenance; Manifest.model_checksum := sample_checksum; Manifest.item_count := 5; Manifest.chunk_size := 4;
  Manifest.output_format := "JSONL"; Manifest.chunk_total := 1 |}.
Definition inf_chunks : string :=
  match entries ← Roundtrip.source_entries inf_expected "jsonl" "application/x-ndjson" [sample_source "1"];
        Manifest.build (λ _, "") 9 sample_digest inf_provenance sample_checksum (VDict <$> entries) with
  | Ret raw => raw | Raise _ => "" end.
Definition inf_state : string := text_of (sample_state (VInt 1)).
Definition inf_manifest : pyval :=
  sample_manifest inf_provenance [("step", VInt 1); ("epoch", VInt 0); ("item_cursor", VInt 4)] "INFERENCE_CURSOR" "inference-state.json"
    (byte_len inf_state)
    [("chunk_output_manifest", VDict [("artifact_id", VStr (sample_uuid "d")); ("checksum", VStr sample_checksum)])].
Definition chunk_bytes : string := "0123456789".

Definition sample_store (key : string) : string + string :=
  if String.eqb key "m" then inr (text_of inf_manifest) else if String.eqb key "f" then inr inf_state
  else if String.eqb key "d" then inr inf_chunks else if String.eqb key "1" then inr chunk_bytes else inl "not_found".

Definition recognized_row : RecognizedRow := {|
  rg_chunk_id := Inference.chunk_id 0; rg_artifact_id := sample_uuid "1"; rg_checksum := sample_checksum; rg_range_start := 0; rg_range_end := 4;
  rg_source_attempt_id := sample_uuid "a"; rg_source_job_fence := 3; rg_session_id := sample_uuid "3" |}.
Definition chunk_artifact : Artifact := {|
  a_artifact_id := sample_uuid "1"; a_tenant_id := sample_uuid "1"; a_state := "COMMITTED"; a_kind := "RESULT_FILE";
  a_media_type := "application/x-ndjson"; a_size_bytes := byte_len chunk_bytes; a_checksum := sample_checksum; a_blob_key := "1" |}.
Definition inf_scope : ChunkScope := {|
  sc_recognized := [(Inference.chunk_id 0, recognized_row)]; sc_extent := Some (5, 4); sc_model_checksum := Some sample_checksum;
  sc_manifest := Some (sample_artifact "d" "CHUNK_OUTPUT_MANIFEST" inf_chunks);
  sc_references := [(sample_uuid "1", Inference.chunk_id 0 +:+ ".jsonl")]; sc_files := [(sample_uuid "1", chunk_artifact)] |}.
Definition inf_candidate (manifest_key : string) : Candidate := {|
  cd_row := {| cr_checkpoint_id := sample_uuid "c"; cr_job_id := sample_uuid "2"; cr_sequence := 1; cr_manifest_checksum := sample_checksum;
               cr_compatibility := VDict sample_compatibility |};
  cd_manifest := Some (sample_artifact manifest_key "CHECKPOINT_MANIFEST" (text_of inf_manifest));
  cd_references := [(sample_uuid "f", "inference-state.json")];
  cd_files := [(sample_uuid "f", sample_artifact "f" "CHECKPOINT_FILE" inf_state)];
  cd_provenance := inf_provenance; cd_unproven := false; cd_chunks := Some inf_scope |}.
Definition inf_plan : Plan := {|
  pl_tenant_id := sample_uuid "1"; pl_job_id := sample_uuid "2";
  pl_requirements := [("framework", VStr "PYTORCH"); ("architectures", VList [VStr "linux/amd64"]); ("device", VStr "CPU");
                      ("framework_version", VStr "2.4.1")];
  pl_checkpointable := true; pl_restart_safe := true; pl_architecture := Some "linux/amd64";
  pl_parameters := [("chunk_size", VInt 4); ("batch_size", VInt 1); ("output_format", VStr "JSONL")];
  pl_candidates := [inf_candidate "x"; inf_candidate "m"] |}.
Definition sample_verify : Plan → Candidate → list (string * pyval) → outcome exn verdict :=
  verify_candidate sample_store sample_digest sample_dumps 9 9 (λ _ _, []) (λ _, "").

Lemma sample_item :
  match sample_verify inf_plan (inf_candidate "m") sample_compatibility with
  | Ret (VALID manifest _) => field "item_cursor" (cursor_of manifest)
  | _ => VNone
  end = VInt 4.
Proof. by vm_compute. Qed.


Lemma sample_marks :
  match _scan_restore sample_store sample_digest sample_dumps 9 9 (λ _ _, []) (λ _, "") true inf_plan with
  | Ret scan => sn_marks scan
  | Raise _ => []
  end = [(sample_uuid "c", "CHECKPOINT_BLOB_MISSING")].
Proof. by vm_compute. Qed.


Definition recognized_scope : RecognizedScope :=
  {| rs_rows := [recognized_row]; rs_extent := Some (5, 4); rs_artifacts := [(sample_uuid "1", chunk_artifact)] |}.
Lemma recognized_items_accepted_witness :
  ∃ items, _scan_recognized sample_store sample_digest true recognized_scope 0 = Ret (Some items) ∧
    Manifest.validate_recognized (VList (VDict <$> items)) 0 4 = Ret (VDict <$> items).
Proof.
  destruct (_scan_recognized sample_store sample_digest true recognized_scope 0) as [[items|]|] eqn:Hs; [|by vm_compute in Hs..].
  exists items. split; [done|].
  apply (recognized_items_accepted sample_store sample_digest true recognized_scope 0 5 4 items eq_refl); try lia; try done.
  - apply Forall_singleton. unfold row_ok. split_and!; first [by vm_compute|cbn; lia].
  - apply NoDup_singleton.
Defined.
End RestoreSamples.
