(* ===== verification/Eligibility.v ===== *)
(** * Queue eligibility

    [src/nexa/coordinator/eligibility.py]: a mutation of a policy, a template or a
    worker's inventory leaves an event with what the tenant's jobs could run on
    before and after it; the coordinator replays the events in bounded batches and
    sets from when each queued job counts as eligible.  The batch caches the
    compatibility of a template with an inventory; the cache is shown not to change
    its result. *)

From S2P Require Import Prelude PyDecimal PyValue Database Authority Capabilities.

Local Open Scope string_scope.
Local Open Scope list_scope.
Local Open Scope Z_scope.

Definition _BATCH_SIZE : nat := 64.

(** A version of a template with its family's [enabled] flag. *)
Notation Template := (TemplateRow * bool)%type.

Definition _compatible (template : option Template) (inventory : option (list (string * pyval)))
    : outcome SvcError bool :=
  match inventory, template with
  | Some inventory, Some (template, true) => template_runs_on template inventory
  | _, _ => Ret false
  end.

(** The cache's keys are a template's identity and an inventory's. *)
Notation Cache := (list ((string * Z) * pyval * bool))%type.
Notation Templates := (list ((string * Z) * Template))%type.

Definition template_key (spec : SpecRow) : string * Z := (sp_template_id spec, sp_template_version spec).

Definition inventory_key (inventory : option (list (string * pyval))) : pyval :=
  match inventory with
  | Some d => if py_truth (VDict d) then get_key "inventory_id" (VDict d) else VNone
  | None => VNone
  end.

Definition cached (key : string * Z) (id : pyval) (cache : Cache) : option bool :=
  snd <$> find (λ e, bool_decide (e.1.1 = key) && py_eq e.1.2 id) cache.

(** Resources the state does not offer; GPUs are not dispatched. *)
Definition impossible (spec : SpecRow) (state : EligibilityState) : bool :=
  negb (default true (es_enabled state)) || negb (sp_gpu_count spec =? 0) || (es_cpu state <? sp_cpu_millis spec)
  || (es_memory state <? sp_memory_bytes spec).

Definition _possible (spec : SpecRow) (state : EligibilityState) (templates : Templates) (cache : Cache)
    : outcome SvcError (bool * Cache) :=
  if impossible spec state then Ret (false, cache)
  else
    let key := template_key spec in
    let id := inventory_key (es_inventory state) in
    if negb (hashable id) then Raise unhashable
    else
      match cached key id cache with
      | Some b => Ret (b, cache)
      | None =>
          b ← _compatible (dict_get key templates) (es_inventory state);
          Ret (b, cache ++ [((key, id), b)])
      end.

Definition pending_event (e : EligibilityEventRow) : bool := is_none (qe_completed_at e).

Definition pending_eligibility_tenants : Tx (list string) :=
  events ← select T_queue_eligibility_events pending_event;
  mret (remove_dups (qe_tenant_id <$> events)).

(** ** One batch *)

(** Least recently processed first, then in the order of the events. *)
Definition event_leb (a b : EligibilityEventRow) : bool :=
  match qe_last_processed_at a, qe_last_processed_at b with
  | None, Some _ => true
  | Some _, None => false
  | None, None => qe_event_id a <=? qe_event_id b
  | Some x, Some y => (x <? y) || ((x =? y) && (qe_event_id a <=? qe_event_id b))
  end.

(** The first event of its tenant, of the tenant whose turn it is. *)
Definition next_event : Tx (option EligibilityEventRow) :=
  events ← select T_queue_eligibility_events pending_event;
  let oldest e := negb (existsb (λ o, bool_decide (qe_tenant_id o = qe_tenant_id e) && (qe_event_id o <? qe_event_id e))
                          events) in
  mret (head (py_sorted event_leb (List.filter oldest events))).

Definition all_templates : Tx Templates :=
  families ← select T_templates (λ _, true);
  versions ← select T_template_versions (λ _, true);
  mret (dict_of (mjoin ((λ v, (λ f, ((tv_template_id v, tv_version v), (v, tf_enabled f))) <$>
                            List.filter (λ f, bool_decide (tf_template_id f = tv_template_id v)) families) <$> versions))).

Definition job_spec_leb (a b : JobRow * SpecRow) : bool := String.leb (j_job_id a.1) (j_job_id b.1).

(** The next queued jobs of the event's tenant, with their specs. *)
Definition event_rows (event : EligibilityEventRow) : Tx (list (JobRow * SpecRow)) :=
  jobs ← select T_jobs (λ j, bool_decide (j_tenant_id j = qe_tenant_id event) && bool_decide (j_state j = JS_QUEUED)
           && (j_created_at j <=? qe_occurred_at event)
           && match qe_last_job_id event with Some last => String.ltb last (j_job_id j) | None => true end);
  specs ← select T_job_specs (λ _, true);
  mret (take _BATCH_SIZE (py_sorted job_spec_leb
          (mjoin ((λ j, (λ s, (j, s)) <$> List.filter (λ s, bool_decide (sp_job_id s = j_job_id j)) specs) <$> jobs)))).

(** From when a job that became possible counts as eligible. *)
Definition age_since (event : EligibilityEventRow) (job : JobRow) : Z :=
  Z.max (qe_occurred_at event) (default (qe_occurred_at event) (j_retry_ready_at job)).

(** The new age of a job, or none where it keeps the one it has; [old] and [new] say
    whether the job was and is possible. *)
Definition rebuilt_age (event : EligibilityEventRow) (job : JobRow) (new : bool) : option (option Z) :=
  let age := if new then Some (default (age_since event job) (j_eligible_since job)) else None in
  if bool_decide (j_eligible_since job = age) then None else Some age.
Definition changed_age (event : EligibilityEventRow) (job : JobRow) (old new : bool) : option (option Z) :=
  if Bool.eqb old new then None
  else
    let age := if new then Some (age_since event job) else None in
    if bool_decide (j_eligible_since job = age) then None else Some age.

Definition add_change (job : JobRow) (age : option (option Z)) (changes : list (string * option Z))
    : list (string * option Z) :=
  match age with Some age => changes ++ [(j_job_id job, age)] | None => changes end.

Definition scan_row (event : EligibilityEventRow) (templates : Templates)
    (st : list (string * option Z) * Cache * Cache) (row : JobRow * SpecRow)
    : outcome SvcError (list (string * option Z) * Cache * Cache) :=
  let '(changes, old_cache, new_cache) := st in
  let '(job, spec) := row in
  if es_rebuild_current_state (qe_old_state event) then
    '(new, new_cache) ← _possible spec (qe_new_state event) templates new_cache;
    Ret (add_change job (rebuilt_age event job new) changes, old_cache, new_cache)
  else
    '(old, old_cache) ← _possible spec (qe_old_state event) templates old_cache;
    '(new, new_cache) ← _possible spec (qe_new_state event) templates new_cache;
    Ret (add_change job (changed_age event job old new) changes, old_cache, new_cache).

Definition collect_changes (event : EligibilityEventRow) (templates : Templates) (rows : list (JobRow * SpecRow))
    : outcome SvcError (list (string * option Z)) :=
  '(changes, _, _) ← for_each rows (scan_row event templates) ([], [], []);
  Ret changes.

Definition process_eligibility_batch (now : Z) : Tx (list string) :=
  event ← next_event;
  _ ← match event with
      | None => mret ()
      | Some event =>
          templates ← all_templates;
          rows ← event_rows event;
          changes ← se_lift (collect_changes event templates rows);
          _ ← for_rows changes (λ c, update_ T_jobs (λ j, bool_decide (j_job_id j = c.1))
                                       (λ j, j <| j_eligible_since := c.2 |>));
          update_ T_queue_eligibility_events (λ e, qe_event_id e =? qe_event_id event)
            (λ e, e <| qe_last_job_id := match last rows with Some row => Some (j_job_id row.1) | None => qe_last_job_id event end |>
                    <| qe_last_processed_at := Some now |>
                    <| qe_completed_at := if (length rows <? _BATCH_SIZE)%nat then Some now else None |>)
      end;
  pending_eligibility_tenants.

(** ** The cache *)

(** The reference: compatibility decided afresh for every job. *)
Definition possible_afresh (spec : SpecRow) (state : EligibilityState) (templates : Templates) : outcome SvcError bool :=
  if impossible spec state then Ret false
  else if negb (hashable (inventory_key (es_inventory state))) then Raise unhashable
  else _compatible (dict_get (template_key spec) templates) (es_inventory state).

Definition new_age (event : EligibilityEventRow) (templates : Templates) (row : JobRow * SpecRow)
    : outcome SvcError (option (option Z)) :=
  let '(job, spec) := row in
  if es_rebuild_current_state (qe_old_state event) then
    new ← possible_afresh spec (qe_new_state event) templates;
    Ret (rebuilt_age event job new)
  else
    old ← possible_afresh spec (qe_old_state event) templates;
    new ← possible_afresh spec (qe_new_state event) templates;
    Ret (changed_age event job old new).

Definition collect_afresh (event : EligibilityEventRow) (templates : Templates) (rows : list (JobRow * SpecRow))
    : outcome SvcError (list (string * option Z)) :=
  for_each rows (λ changes row, age ← new_age event templates row; Ret (add_change row.1 age changes)) [].

Definition cache_ok (state : EligibilityState) (templates : Templates) (cache : Cache) : Prop :=
  ∀ key id b, ((key, id), b) ∈ cache → _compatible (dict_get key templates) (es_inventory state) = Ret b.

Lemma possible_cached spec state templates cache :
  cache_ok state templates cache →
  match possible_afresh spec state templates with
  | Ret b => ∃ cache', _possible spec state templates cache = Ret (b, cache') ∧ cache_ok state templates cache'
  | Raise e => _possible spec state templates cache = Raise e
  end.
Proof.
  intros Hok. unfold possible_afresh, _possible. destruct (impossible spec state); [eauto|].
  destruct (hashable _); cbn [negb]; [|done]. set (key := template_key spec). set (id := inventory_key _).
  unfold cached. destruct (find _ cache) as [[[k i] b]|] eqn:Hf; cbn [fmap option_fmap option_map].
  - apply find_some in Hf as [Hin Hk]. bool_simpl. cbn in *. subst k.
    apply list_elem_of_In, Hok in Hin. rewrite Hin. eauto.
  - destruct (_compatible (dict_get key templates) (es_inventory state)) as [b|e] eqn:Hc; cbn; [|done].
    eexists. split; [done|]. intros k i b' [Hin|Hin]%elem_of_app; [by eapply Hok|].
    apply list_elem_of_singleton in Hin. simplify_eq. done.
Qed.

Lemma scan_row_cached event templates changes oc nc row :
  cache_ok (qe_old_state event) templates oc → cache_ok (qe_new_state event) templates nc →
  match new_age event templates row with
  | Ret age => ∃ oc' nc', scan_row event templates (changes, oc, nc) row = Ret (add_change row.1 age changes, oc', nc') ∧
                 cache_ok (qe_old_state event) templates oc' ∧ cache_ok (qe_new_state event) templates nc'
  | Raise e => scan_row event templates (changes, oc, nc) row = Raise e
  end.
Proof.
  intros Ho Hn. destruct row as [job spec]. unfold new_age, scan_row.
  pose proof (possible_cached spec _ _ _ Ho) as Hold. pose proof (possible_cached spec _ _ _ Hn) as Hnew.
  destruct (es_rebuild_current_state _).
  - destruct (possible_afresh spec (qe_new_state event) templates) as [new|e]; cbn; [|by rewrite Hnew].
    destruct Hnew as (nc' & -> & Hn'). eauto.
  - destruct (possible_afresh spec (qe_old_state event) templates) as [old|e]; cbn; [|by rewrite Hold].
    destruct Hold as (oc' & -> & Ho'). cbn.
    destruct (possible_afresh spec (qe_new_state event) templates) as [new|e]; cbn; [|by rewrite Hnew].
    destruct Hnew as (nc' & -> & Hn'). eauto.
Qed.

(** The cache does not change a batch.  The ages [process_eligibility_batch]
    writes, computed with one cache per state shared by all the jobs of the batch,
    are those computed by deciding compatibility afresh for every job, and the batch
    fails exactly when that would. *)
Theorem eligibility_cache_equivalent event templates rows :
  collect_changes event templates rows = collect_afresh event templates rows.
Proof.
  unfold collect_changes, collect_afresh.
  assert (∀ rows changes oc nc, cache_ok (qe_old_state event) templates oc → cache_ok (qe_new_state event) templates nc →
    ('(changes, _, _) ← for_each rows (scan_row event templates) (changes, oc, nc); Ret changes) =
    for_each rows (λ changes row, age ← new_age event templates row; Ret (add_change row.1 age changes)) changes) as H.
  { clear rows. induction rows as [|row rows IH]; intros changes oc nc Ho Hn; [done|]. cbn [for_each].
    pose proof (scan_row_cached event templates changes oc nc row Ho Hn) as Hs.
    destruct (new_age event templates row) as [age|e]; [|by rewrite Hs].
    destruct Hs as (oc' & nc' & -> & Ho' & Hn'). by apply IH. }
  apply H; intros ? ? ? Hin; by apply elem_of_nil in Hin.
Qed.
