(* ===== verification/Idempotency.v ===== *)
(** * Request idempotency

    [src/nexa/application/idempotency.py]: a request is recorded as pending under
    its scope and key before it runs, and its response is stored with it in the
    same transaction, so that a repetition of the request is answered with the
    stored response. *)

From Stdlib Require Import Ascii.
From S2P Require Import Prelude PyDecimal PyValue WorkerModels Database Authority.

Local Open Scope string_scope.
Local Open Scope list_scope.
Local Open Scope Z_scope.

(** [^[!-~]{16,128}$] *)
Definition _KEY_PATTERN (key : string) : bool :=
  (16 <=? String.length key)%nat && (String.length key <=? 128)%nat
  && string_forall (in_range "!"%char "~"%char) key.
Definition _HASH_PATTERN (hash : string) : bool := _CHECKSUM hash.

Record StoredResponse := {
  sr_status : Z;
  sr_body : option ResponseBody;
  sr_headers : list (string * string);
}.

Record IdempotencyOutcome := { io_record_id : string; io_replay : option StoredResponse }.

(** What identifies a request, and the request itself. *)
Record RequestKey := {
  rk_context : string;
  rk_principal_id : string;
  rk_operation_id : string;
  rk_key : string;
}.

Definition _scope_predicates (k : RequestKey) (r : IdempotencyRow) : bool :=
  bool_decide (id_context r = rk_context k) && bool_decide (id_principal_id r = rk_principal_id k) &&
  bool_decide (id_operation_id r = rk_operation_id k) && bool_decide (id_idempotency_key r = rk_key k).

Definition pending_record (record_id : string) (k : RequestKey) (request_hash : string) (expires_at : Z)
    : IdempotencyRow :=
  MkIdempotencyRow record_id (rk_context k) (rk_principal_id k) (rk_operation_id k) (rk_key k) request_hash
    "PENDING" None None None None false expires_at.

(** The insertion that does nothing on a conflicting scope, with the identifier it
    returns. *)
Definition insert_pending (r : IdempotencyRow) (k : RequestKey) : Tx (option string) :=
  found ← select T_idempotency_records (_scope_predicates k);
  match found with
  | [] => _ ← insert T_idempotency_records r; mret (Some (id_idempotency_id r))
  | _ => mret None
  end.

Definition in_progress (message : string) : SvcError := ApplicationErrorAfter "idempotency_in_progress" 409 message 1.

(** [for _ in range(n)]: the record inserted, or the one that is there. *)
Fixpoint claim_record (n : nat) (r : IdempotencyRow) (k : RequestKey) : Tx (string + IdempotencyRow) :=
  match n with
  | O => se_raise (ApplicationErrorAfter "dependency_unavailable" 503
                     "Idempotency record is changing; retry the request" 1)
  | S n =>
      inserted ← insert_pending r k;
      match inserted with
      | Some record_id => mret (inl record_id)
      | None =>
          found ← select T_idempotency_records (_scope_predicates k);
          row ← one_or_none found;
          match row with
          | Some row => mret (inr row)
          | None => claim_record n r k
          end
      end
  end.

Definition begin_idempotency (k : RequestKey) (request_hash : string) (expires_at pending_wait_milliseconds : Z)
    : Tx IdempotencyOutcome :=
  _ ← se_when (negb (_KEY_PATTERN (rk_key k)))
        (ApplicationError "validation_failed" 422
           "Idempotency-Key must contain 16 to 128 visible ASCII characters");
  _ ← se_when (negb (_HASH_PATTERN request_hash))
        (PyError (ValueError "request_hash must be an RFC 8785 sha256 value"));
  _ ← se_when (negb ((0 <=? pending_wait_milliseconds) && (pending_wait_milliseconds <=? 30000)))
        (PyError (ValueError "pending_wait_milliseconds is outside the contract range"));
  record_id ← new_uuid7;
  claimed ← claim_record 3 (pending_record record_id k request_hash expires_at) k;
  match claimed with
  | inl record_id => mret {| io_record_id := record_id; io_replay := None |}
  | inr row =>
      _ ← se_when (negb (bool_decide (id_request_hash row = request_hash)))
            (ApplicationError "idempotency_conflict" 409
               "Idempotency-Key was already used with a different request");
      _ ← se_when (negb (bool_decide (id_state row = "COMPLETED")))
            (in_progress "An identical request is still in progress");
      _ ← se_when (id_one_time_secret row)
            (ApplicationError "one_time_secret_unavailable" 409
               "The one-time secret was already committed and cannot be replayed");
      match id_response_status row with
      | None => se_raise TypeError
      | Some status =>
          mret {| io_record_id := id_idempotency_id row;
                  io_replay := Some {| sr_status := status; sr_body := id_response_body row;
                                       sr_headers := default [] (id_response_headers row) |} |}
      end
  end.

Definition complete_idempotency (record_id : string) (status : Z) (body : option ResponseBody)
    (headers : list (string * string)) (resource_id : option string) (one_time_secret : bool) : Tx () :=
  _ ← se_when (negb ((100 <=? status) && (status <=? 599)))
        (PyError (ValueError "response status is outside the HTTP range"));
  count ← update T_idempotency_records
            (λ r, bool_decide (id_idempotency_id r = record_id) && bool_decide (id_state r = "PENDING"))
            (λ r, r <| id_state := "COMPLETED" |> <| id_response_status := Some status |>
                    <| id_response_body := body |> <| id_response_headers := Some headers |>
                    <| id_resource_id := resource_id |> <| id_one_time_secret := one_time_secret |>);
  se_when (negb (count =? 1)) (RuntimeError "Idempotency record is not pending").

(** ** Running the two calls *)

Lemma begin_writes k h e w : only_writes [T_idempotency_records] (begin_idempotency k h e w).
Proof.
  assert (∀ n r k, only_writes [T_idempotency_records] (claim_record n r k)) as Hc.
  { induction n as [|n IH]; intros r k'; cbn [claim_record]; unfold insert_pending; writes. }
  unfold begin_idempotency. writes.
Qed.
Lemma complete_writes r s b h i o : only_writes [T_idempotency_records] (complete_idempotency r s b h i o).
Proof. unfold complete_idempotency. writes. Qed.
#[export] Hint Resolve begin_writes complete_writes : writes.

(** Scopes of the records do not repeat ([uq_idempotency_scope]). *)
Definition scope_of_record (r : IdempotencyRow) : string * string * string * string :=
  (id_context r, id_principal_id r, id_operation_id r, id_idempotency_key r).
Definition scopes_unique (db : DB) : Prop := NoDup (scope_of_record <$> rows db T_idempotency_records).

Lemma scope_predicates_spec k r :
  _scope_predicates k r = true ↔
  scope_of_record r = (rk_context k, rk_principal_id k, rk_operation_id k, rk_key k).
Proof.
  unfold _scope_predicates, scope_of_record. rewrite !andb_true_iff, !bool_decide_eq_true. split.
  - by intros [[[-> ->] ->] ->].
  - by intros [= -> -> -> ->].
Qed.

Lemma filter_nil {A} (p : A → bool) l : List.filter p l = [] ↔ ∀ x, x ∈ l → p x = false.
Proof.
  split.
  - intros Hn x Hx. destruct (p x) eqn:E; [|done]. assert (x ∈ List.filter p l) as Hin by by apply elem_of_List_filter.
    rewrite Hn in Hin. by apply not_elem_of_nil in Hin.
  - intros H. induction l as [|x l IH]; simpl; [done|]. rewrite (H x) by set_solver. apply IH. set_solver.
Qed.

(** What one attempt at claiming a record gives when it returns. *)
Lemma claim_record_Ret n r k db c db' :
  claim_record n r k db = (Ret c, db') →
  (∃ row, c = inr row ∧ db' = db ∧ List.filter (_scope_predicates k) (rows db T_idempotency_records) = [row]) ∨
  (c = inl (id_idempotency_id r) ∧ List.filter (_scope_predicates k) (rows db T_idempotency_records) = [] ∧
   db' = put T_idempotency_records r db).
Proof.
  revert db. induction n as [|n IH]; intros db H; [done|]. cbn [claim_record] in H.
  apply tx_bind_Ret in H as (i & db1 & Hi & H). unfold insert_pending in Hi. tx Hi.
  destruct (List.filter _ _) as [|row rest] eqn:Hf; tx Hi.
  - tx H. right. done.
  - tx H. rewrite Hf in Hl. destruct Hl as [[? ->]|(a & Ha & ->)]; [done|]. tx H. left. eauto.
Qed.

Definition replay_of (row : IdempotencyRow) (status : Z) : StoredResponse :=
  {| sr_status := status; sr_body := id_response_body row; sr_headers := default [] (id_response_headers row) |}.

Definition request_ok (k : RequestKey) (hash : string) (wait : Z) : bool :=
  _KEY_PATTERN (rk_key k) && _HASH_PATTERN hash && ((0 <=? wait) && (wait <=? 30000)).

Lemma request_ok_spec k hash wait :
  request_ok k hash wait = true ↔
  _KEY_PATTERN (rk_key k) = true ∧ _HASH_PATTERN hash = true ∧ (0 <=? wait) && (wait <=? 30000) = true.
Proof. unfold request_ok. rewrite !andb_true_iff. tauto. Qed.

(** A request that is not answered from its record has made a pending one. *)
Lemma begin_Ret k hash expires wait db o db' :
  begin_idempotency k hash expires wait db = (Ret o, db') →
  request_ok k hash wait = true ∧
  ((io_replay o = None ∧ io_record_id o = new_ids db (ids_drawn db) ∧
    List.filter (_scope_predicates k) (rows db T_idempotency_records) = [] ∧
    db' = put T_idempotency_records (pending_record (new_ids db (ids_drawn db)) k hash expires) (draw db)) ∨
   (∃ row status, List.filter (_scope_predicates k) (rows db T_idempotency_records) = [row] ∧
      id_request_hash row = hash ∧ id_state row = "COMPLETED" ∧ id_one_time_secret row = false ∧
      id_response_status row = Some status ∧ io_replay o = Some (replay_of row status) ∧
      io_record_id o = id_idempotency_id row ∧ db' = draw db)).
Proof.
  unfold begin_idempotency. intros H. tx H. split.
  { apply request_ok_spec. apply negb_false_iff in Hg, Hg0, Hg1. done. }
  apply tx_bind_Ret in H as (c & db1 & Hc & H).
  apply claim_record_Ret in Hc as [(row & -> & -> & Hf)|(-> & Hf & ->)]; tx H; [|by left].
  right. destruct (id_response_status row) as [status|] eqn:Hs; tx H. bool_simpl. eauto 10.
Qed.

Lemma claim_found n r k db row :
  List.filter (_scope_predicates k) (rows db T_idempotency_records) = [row] →
  claim_record (S n) r k db = (Ret (inr row), db).
Proof.
  intros Hf. cbn [claim_record]. rewrite (tx_bind_eq _ _ db None db).
  - rewrite (tx_bind_eq (select T_idempotency_records (_scope_predicates k)) _ db [row] db) by by apply select_run.
    by rewrite (tx_bind_eq (one_or_none _) _ db (Some row) db).
  - unfold insert_pending. by rewrite (tx_bind_eq (select T_idempotency_records (_scope_predicates k)) _ db [row] db) by by apply select_run.
Qed.

(** A request with a record is answered from it. *)
Lemma begin_answer k hash expires wait db row :
  request_ok k hash wait = true →
  List.filter (_scope_predicates k) (rows db T_idempotency_records) = [row] →
  begin_idempotency k hash expires wait db =
  (if negb (bool_decide (id_request_hash row = hash)) then
     Raise (ApplicationError "idempotency_conflict" 409
              "Idempotency-Key was already used with a different request")
   else if negb (bool_decide (id_state row = "COMPLETED")) then
     Raise (in_progress "An identical request is still in progress")
   else if id_one_time_secret row then
     Raise (ApplicationError "one_time_secret_unavailable" 409
              "The one-time secret was already committed and cannot be replayed")
   else match id_response_status row with
        | None => Raise TypeError
        | Some status => Ret {| io_record_id := id_idempotency_id row; io_replay := Some (replay_of row status) |}
        end, draw db).
Proof.
  intros (Hk & Hh & Hw)%request_ok_spec Hf. unfold begin_idempotency. rewrite Hk, Hh, Hw.
  cbn [negb]. do 3 rewrite (tx_bind_eq (se_when false _) _ db () db) by done.
  rewrite (tx_bind_eq new_uuid7 _ db _ (draw db)) by done.
  rewrite (tx_bind_eq _ _ (draw db) (inr row) (draw db)) by by apply claim_found.
  destruct (bool_decide (id_request_hash row = hash)); [|done].
  destruct (bool_decide (id_state row = "COMPLETED")); [|done].
  destruct (id_one_time_secret row); [done|]. by destruct (id_response_status row).
Qed.

Definition completed (status : Z) (body : option ResponseBody) (headers : list (string * string))
    (resource_id : option string) (one_time_secret : bool) (r : IdempotencyRow) : IdempotencyRow :=
  r <| id_state := "COMPLETED" |> <| id_response_status := Some status |> <| id_response_body := body |>
    <| id_response_headers := Some headers |> <| id_resource_id := resource_id |>
    <| id_one_time_secret := one_time_secret |>.

Lemma modify_none {A} (p : A → bool) f l :
  List.filter p l = [] → (λ r, if p r then f r else r) <$> l = l.
Proof.
  intros Hn. rewrite filter_nil in Hn. rewrite <- (list_fmap_id l) at 2. apply list_fmap_ext.
  intros i x Hx%list_elem_of_lookup_2. by rewrite Hn.
Qed.

(** Completing the record just made changes that record only. *)
Lemma complete_pending rid status body headers res secret db u db' l r :
  complete_idempotency rid status body headers res secret db = (Ret u, db') →
  rows db T_idempotency_records = l ++ [r] → id_idempotency_id r = rid → id_state r = "PENDING" →
  rows db' T_idempotency_records = l ++ [completed status body headers res secret r].
Proof.
  unfold complete_idempotency. intros H Hrows Hid Hst. tx H.
  rename Hg0 into Hc. rewrite modify_same. apply negb_false_iff, Z.eqb_eq in Hc.
  set (p := λ x : IdempotencyRow, bool_decide (id_idempotency_id x = rid) && bool_decide (id_state x = "PENDING")) in *.
  change (Z.of_nat (length (List.filter p (rows db T_idempotency_records))) = 1) in Hc.
  change ((λ x : IdempotencyRow, if p x then completed status body headers res secret x else x)
    <$> (rows db T_idempotency_records : list IdempotencyRow) = l ++ [completed status body headers res secret r]).
  assert (p r = true) as Hr by (unfold p; by rewrite !bool_decide_eq_true_2).
  rewrite Hrows in Hc |- *. rewrite List.filter_app in Hc. rewrite fmap_app. cbn in *. rewrite Hr in *.
  rewrite length_app in Hc. cbn in Hc. f_equal. apply modify_none, nil_length_inv. lia.
Qed.

(** C15: A request runs once.  After [begin_idempotency] made its record and
    [complete_idempotency] stored the response, with anything between and after
    that leaves the idempotency table alone, every later request under the same key
    is answered from the record: with the stored response when its body hashes the
    same, with a conflict when it does not, and never by running again; a response
    that held a one-time secret is not repeated. *)
Theorem idempotent_request_runs_once k hash expires wait db o db1 db2 db3 db4 status body headers res secret :
  begin_idempotency k hash expires wait db = (Ret o, db1) → io_replay o = None →
  rows db2 T_idempotency_records = rows db1 T_idempotency_records →
  complete_idempotency (io_record_id o) status body headers res secret db2 = (Ret (), db3) →
  rows db4 T_idempotency_records = rows db3 T_idempotency_records →
  ∀ hash' expires' wait', request_ok k hash' wait' = true →
  begin_idempotency k hash' expires' wait' db4 =
  (if negb (bool_decide (hash' = hash)) then
     Raise (ApplicationError "idempotency_conflict" 409
              "Idempotency-Key was already used with a different request")
   else if secret then
     Raise (ApplicationError "one_time_secret_unavailable" 409
              "The one-time secret was already committed and cannot be replayed")
   else Ret {| io_record_id := io_record_id o;
               io_replay := Some {| sr_status := status; sr_body := body; sr_headers := headers |} |}, draw db4).
Proof.
  intros Hb Ho H2 Hc H4 hash' expires' wait' Hok.
  apply begin_Ret in Hb as [_ [(_ & Hid & Hf & ->)|(row & st & _ & _ & _ & _ & _ & Hr & _)]]; [|congruence].
  rewrite put_same in H2. eapply complete_pending in Hc; [|exact H2|done|done].
  set (r := pending_record _ k hash expires) in *.
  rewrite (begin_answer k hash' expires' wait' db4 (completed status body headers res secret r)); [|done|].
  - cbn. unfold replay_of. cbn. rewrite Hid. rewrite (bool_decide_ext (hash = hash') (hash' = hash)) by done. done.
  - rewrite H4, Hc, List.filter_app.
    change (List.filter (_scope_predicates k) (rows (draw db) T_idempotency_records))
      with (List.filter (_scope_predicates k) (rows db T_idempotency_records : list IdempotencyRow)).
    rewrite Hf. cbn. unfold _scope_predicates. cbn. by rewrite !bool_decide_eq_true_2.
Qed.

Definition sample_key : RequestKey :=
  {| rk_context := "tenant"; rk_principal_id := "user"; rk_operation_id := "cancelJob";
     rk_key := "0123456789abcdef" |}.
Definition sample_hash : string :=
  "sha256:0123456789abcdef0123456789abcdef0123456789abcdef0123456789abcdef".
Definition sample_begun : DB := (begin_idempotency sample_key sample_hash 100 0 empty_db).2.
Definition sample_completed : DB :=
  (complete_idempotency "id-0" 202 None [("ETag", "v2")] (Some "job") false sample_begun).2.

Lemma idempotent_request_runs_once_witness :
  begin_idempotency sample_key sample_hash 200 0 sample_completed =
  (Ret {| io_record_id := "id-0";
          io_replay := Some {| sr_status := 202; sr_body := None; sr_headers := [("ETag", "v2")] |} |},
   draw sample_completed).
Proof.
  refine (idempotent_request_runs_once sample_key sample_hash 100 0 empty_db
    {| io_record_id := "id-0"; io_replay := None |} sample_begun sample_begun sample_completed sample_completed
    202 None [("ETag", "v2")] (Some "job") false _ eq_refl eq_refl _ eq_refl sample_hash 200 0 _);
    vm_compute; reflexivity.
Defined.
