(* ===== verification/Identity.v ===== *)
(** * Users and their credentials

    [src/nexa/domain/identity.py] (principals, scopes and what they allow) and the
    credential operations of [src/nexa/application/identity_service.py]: resolving
    a browser session or a CLI token to a principal, revalidating it, creating and
    revoking CLI tokens, logging out; with [_authorize] of
    [src/nexa/application/job_service.py]. *)

From S2P Require Import Prelude PyDecimal PyValue WorkerModels Security Database Authority Idempotency.

Local Open Scope string_scope.
Local Open Scope list_scope.
Local Open Scope Z_scope.

(** ** Principals *)

Inductive CredentialKind := BROWSER | CLI | WORKER | BOOTSTRAP.

Inductive TokenScope :=
| JOBS_READ | JOBS_WRITE | ARTIFACTS_READ | ARTIFACTS_WRITE | TOKENS_WRITE | ADMIN_READ | ADMIN_WRITE.

#[export] Instance CredentialKind_dec : EqDecision CredentialKind.
Proof. solve_decision. Defined.
#[export] Instance TokenScope_dec : EqDecision TokenScope.
Proof. solve_decision. Defined.

Definition scope_value (s : TokenScope) : string :=
  match s with
  | JOBS_READ => "jobs:read"
  | JOBS_WRITE => "jobs:write"
  | ARTIFACTS_READ => "artifacts:read"
  | ARTIFACTS_WRITE => "artifacts:write"
  | TOKENS_WRITE => "tokens:write"
  | ADMIN_READ => "admin:read"
  | ADMIN_WRITE => "admin:write"
  end.

Definition all_scopes : list TokenScope :=
  [JOBS_READ; JOBS_WRITE; ARTIFACTS_READ; ARTIFACTS_WRITE; TOKENS_WRITE; ADMIN_READ; ADMIN_WRITE].

(** [TokenScope(value)]: the member with this value. *)
Definition scope_of (value : string) : option TokenScope :=
  List.find (λ s, String.eqb (scope_value s) value) all_scopes.

Record TenantMembership := { tm_tenant_id : string; tm_role : string }.

(** [scopes] is a frozen set: a list read through membership. *)
Record Principal := {
  p_user_id : option string;
  p_credential_kind : CredentialKind;
  p_credential_id : string;
  p_scopes : list TokenScope;
  p_memberships : list TenantMembership;
  p_system_admin : bool;
}.

Definition has_scope (p : Principal) (s : TokenScope) : bool := bool_decide (s ∈ p_scopes p).

Definition AuthorizationError (message : string) : exn := Exn "AuthorizationError" message.

Definition require_admin (p : Principal) (write : bool) : outcome exn () :=
  if is_none (p_user_id p) || negb (p_system_admin p)
  then Raise (AuthorizationError "An active SYSTEM_ADMIN grant is required")
  else match p_credential_kind p with
       | BROWSER => Ret ()
       | CLI =>
           let required := if write then ADMIN_WRITE else ADMIN_READ in
           raise_when (negb (has_scope p required))
             (AuthorizationError ("The exact " +:+ scope_value required +:+ " scope is required"))
       | _ => Raise (AuthorizationError "This credential type cannot call admin operations")
       end.

Definition require_tenant_membership (p : Principal) (tenant_id : string) : outcome exn TenantMembership :=
  match p_credential_kind p with
  | BROWSER | CLI =>
      or_raise (List.find (λ m, String.eqb (tm_tenant_id m) tenant_id) (p_memberships p))
        (AuthorizationError "An active target-tenant membership is required")
  | _ => Raise (AuthorizationError "This credential type has no tenant membership authority")
  end.

(** The scopes a principal may give to a new token. *)
Definition allowed_scopes (p : Principal) : outcome exn (list TokenScope) :=
  match p_credential_kind p with
  | CLI =>
      raise_when (negb (has_scope p TOKENS_WRITE))
        (AuthorizationError "The exact tokens:write scope is required");;
      Ret (p_scopes p)
  | BROWSER =>
      Ret ([TOKENS_WRITE]
           ++ (if bool_decide (length (p_memberships p) = 0%nat) then []
               else [JOBS_READ; JOBS_WRITE; ARTIFACTS_READ; ARTIFACTS_WRITE])
           ++ (if p_system_admin p then [ADMIN_READ; ADMIN_WRITE] else []))
  | _ => Raise (AuthorizationError "This credential type cannot create CLI tokens")
  end.

Definition validate_requested_token_scopes (p : Principal) (requested : list TokenScope) : outcome exn () :=
  raise_when (bool_decide (length requested = 0%nat))
    (AuthorizationError "At least one token scope is required");;
  allowed ← allowed_scopes p;
  raise_when (negb (forallb (λ s, bool_decide (s ∈ allowed)) requested))
    (AuthorizationError "Requested scopes exceed the caller's current authority").

(** ** Reading a principal *)

Definition audit (actor_id action target_type target_id reason : string) : Tx () :=
  audit_id ← new_uuid7;
  insert T_audit_records
    (MkAuditRow audit_id "USER" actor_id None action target_type target_id None None (Some reason)).

Definition _system_admin (user_id : string) : Tx bool :=
  grants ← select T_system_role_grants (λ r,
    bool_decide (rg_user_id r = user_id) && bool_decide (rg_role r = "SYSTEM_ADMIN") && is_none (rg_revoked_at r));
  grant ← one_or_none grants;
  mret (negb (is_none grant)).

Definition membership_leb (a b : MembershipRow) : bool := String.leb (mb_tenant_id a) (mb_tenant_id b).

Definition _memberships (user_id : string) : Tx (list TenantMembership) :=
  enabled ← select T_tenants tn_enabled;
  rows ← select T_memberships (λ m, bool_decide (mb_user_id m = user_id) &&
           existsb (λ t, bool_decide (tn_tenant_id t = mb_tenant_id m)) enabled);
  _ ← se_when (100 <? length rows)%nat
        (ApplicationError "dependency_unavailable" 503 "Principal membership context exceeds the API bound");
  mret ((λ m, {| tm_tenant_id := mb_tenant_id m; tm_role := mb_role m |}) <$> py_sorted membership_leb rows).

Definition _principal (user_id : string) (kind : CredentialKind) (credential_id : string)
    (scopes : list TokenScope) : Tx Principal :=
  memberships ← _memberships user_id;
  admin ← _system_admin user_id;
  mret {| p_user_id := Some user_id; p_credential_kind := kind; p_credential_id := credential_id;
          p_scopes := scopes; p_memberships := memberships; p_system_admin := admin |}.

(** A credential row joined with its user's [enabled] flag. *)
Definition with_user {A} (user_of : A → string) (found : list A) : Tx (option (A * bool)) :=
  users ← select T_users (λ _, true);
  one_or_none (mjoin ((λ a, (λ u, (a, us_enabled u)) <$>
                         List.filter (λ u, bool_decide (us_user_id u = user_of a)) users) <$> found)).

Definition browser_session (id : string) : Tx (option (BrowserSessionRow * bool)) :=
  found ← select T_browser_sessions (λ r, bool_decide (bs_browser_session_id r = id));
  with_user bs_user_id found.
Definition cli_token (id : string) : Tx (option (CliTokenRow * bool)) :=
  found ← select T_cli_tokens (λ r, bool_decide (tk_token_id r = id));
  with_user tk_user_id found.

(** A session is dead once revoked, expired, idle for too long, or its user is
    disabled; a token once revoked, expired, or its user is disabled. *)
Definition session_dead (idle_ttl now : Z) (row : BrowserSessionRow * bool) : bool :=
  negb (is_none (bs_revoked_at row.1)) || (bs_expires_at row.1 <=? now)
  || (bs_last_seen_at row.1 + seconds idle_ttl <=? now) || negb row.2.
Definition token_dead (now : Z) (row : CliTokenRow * bool) : bool :=
  negb (is_none (tk_revoked_at row.1)) || (tk_expires_at row.1 <=? now) || negb row.2.

(** [frozenset(TokenScope(scope) for scope in row["scopes"])]. *)
Definition row_scopes (row : CliTokenRow) : option (list TokenScope) := mapM scope_of (tk_scopes row).

Definition _revalidate_principal (idle_ttl now : Z) (principal : Principal) : Tx Principal :=
  match UUID (p_credential_id principal) with
  | None => se_raise _AUTHENTICATION_ERROR
  | Some credential_id =>
      match p_credential_kind principal with
      | BROWSER =>
          row ← browser_session credential_id;
          match row with
          | None => se_raise _AUTHENTICATION_ERROR
          | Some row =>
              _ ← se_when (session_dead idle_ttl now row) _AUTHENTICATION_ERROR;
              _principal (bs_user_id row.1) BROWSER (p_credential_id principal) []
          end
      | CLI =>
          row ← cli_token credential_id;
          match row with
          | None => se_raise _AUTHENTICATION_ERROR
          | Some row =>
              _ ← se_when (token_dead now row) _AUTHENTICATION_ERROR;
              match row_scopes row.1 with
              | None => se_raise (PyError (ValueError "not a valid TokenScope"))
              | Some scopes => _principal (tk_user_id row.1) CLI (p_credential_id principal) scopes
              end
          end
      | _ => se_raise _AUTHENTICATION_ERROR
      end
  end.

Definition permission_denied (message : string) : SvcError := ApplicationError "permission_denied" 403 message.

(** [job_service._authorize]. *)
Definition _authorize (idle_ttl now : Z) (principal : Principal) (tenant_id : string) (write : bool)
    : Tx Principal :=
  live ← _revalidate_principal idle_ttl now principal;
  match require_tenant_membership live tenant_id with
  | Raise _ => se_raise (permission_denied "Active tenant membership is required")
  | Ret _ =>
      let required := if write then JOBS_WRITE else JOBS_READ in
      _ ← se_when (bool_decide (p_credential_kind live = CLI) && negb (has_scope live required))
            (permission_denied ("The exact " +:+ scope_value required +:+ " scope is required"));
      mret live
  end.

(** ** Sessions and tokens *)

(** What a request carries for its idempotency record, and the settings. *)
Record IdentityRequest := {
  ir_principal : Principal;
  ir_idempotency_key : string;
  ir_request_hash : string;
}.
Record IdentitySettings := { browser_session_idle_ttl_seconds : Z; pending_wait_milliseconds : Z }.

Definition user_text (p : Principal) : string := default "None" (p_user_id p).

Definition identity_key (live : Principal) (operation_id : string) (q : IdentityRequest) : RequestKey :=
  {| rk_context := "GLOBAL"; rk_principal_id := user_text live; rk_operation_id := operation_id;
     rk_key := ir_idempotency_key q |}.

Definition days (n : Z) : Z := seconds (86400 * n).

Definition require_writable : Tx () :=
  mode ← _mode;
  se_when (bool_decide (mode = WRITE_FROZEN))
    (state_conflict "Credential mutation is disabled while writes are frozen").

Section codecs.
Variable sha256 : string → string.
Variable hmac_sha256 : string → string → string.
Variable settings : IdentitySettings.

Definition idle_ttl : Z := browser_session_idle_ttl_seconds settings.

Definition scope_leb (a b : string) : bool := String.leb a b.

(** [token_bytes] is what [secrets.token_bytes(32)] draws; [clock] is the clock
    reading of the revalidation and [now] the transaction's timestamp.  The result
    is the token's row and its text. *)
Definition create_cli_token (q : IdentityRequest) (name : string) (scopes : list TokenScope)
    (expires_in_seconds : Z) (token_bytes : string) (clock now : Z) : Tx (CliTokenRow * string) :=
  _ ← se_when (negb ((300 <=? expires_in_seconds) && (expires_in_seconds <=? 2592000)))
        (ApplicationError "validation_failed" 422 "Token expiry must be between 300 and 2592000 seconds");
  _ ← se_when (negb ((1 <=? String.length name)%nat && (String.length name <=? 64)%nat))
        (ApplicationError "validation_failed" 422 "Token name is invalid");
  token_id ← new_uuid7;
  let raw_token := issue token_bytes token_id in
  live ← _revalidate_principal idle_ttl clock (ir_principal q);
  match validate_requested_token_scopes live scopes with
  | Raise e => se_raise (permission_denied (exn_message e))
  | Ret _ =>
      outcome ← begin_idempotency (identity_key live "createCliToken" q) (ir_request_hash q) (now + days 30)
                  (pending_wait_milliseconds settings);
      _ ← require_writable;
      token_hash ← (match digest sha256 raw_token with
                    | Ret h => mret h
                    | Raise e => se_raise (PyError e)
                    end);
      match p_user_id live with
      | None => se_raise (PyError (Exn "IntegrityError" "user_id"))
      | Some user_id =>
          let row := MkCliTokenRow token_id user_id token_hash name (py_sorted scope_leb (scope_value <$> scopes))
                       (now + seconds expires_in_seconds) None in
          _ ← insert T_cli_tokens row;
          _ ← audit user_id "token.create" "CLI_TOKEN" token_id "CLI token created";
          _ ← complete_idempotency (io_record_id outcome) 201 (Some (TokenView row))
                [("Location", "/v1/tokens/" +:+ token_id)] (Some token_id) true;
          mret (row, raw_token)
      end
  end.

Definition resolve_cli_token (token : string) (clock : Z) : Tx Principal :=
  match parse token with
  | Raise _ => se_raise _AUTHENTICATION_ERROR
  | Ret parsed =>
      row ← cli_token (ps_identifier parsed);
      match row with
      | None => se_raise _AUTHENTICATION_ERROR
      | Some row =>
          _ ← se_when (negb (bool_decide (tk_token_hash row.1 = sha256 (ps_secret parsed)))
                    || token_dead clock row) _AUTHENTICATION_ERROR;
          match row_scopes row.1 with
          | None => se_raise _AUTHENTICATION_ERROR
          | Some scopes => _principal (tk_user_id row.1) CLI (ps_identifier parsed) scopes
          end
      end
  end.

Definition revoke_cli_token (q : IdentityRequest) (token_id : string) (clock now : Z) : Tx () :=
  live ← _revalidate_principal idle_ttl clock (ir_principal q);
  _ ← se_when (bool_decide (p_credential_kind live = CLI) && negb (has_scope live TOKENS_WRITE))
        (permission_denied "The exact tokens:write scope is required");
  outcome ← begin_idempotency (identity_key live "revokeCliToken" q) (ir_request_hash q) (now + days 30)
              (pending_wait_milliseconds settings);
  match io_replay outcome with
  | Some _ => mret ()
  | None =>
      _ ← require_writable;
      found ← select T_cli_tokens (λ r, bool_decide (tk_token_id r = token_id));
      row ← one_or_none found;
      match row with
      | None => se_raise (ApplicationError "resource_not_found" 404 "Token was not found")
      | Some row =>
          _ ← se_when (negb (bool_decide (Some (tk_user_id row) = p_user_id live)))
                (ApplicationError "resource_not_found" 404 "Token was not found");
          _ ← (if is_none (tk_revoked_at row)
               then update_ T_cli_tokens (λ r, bool_decide (tk_token_id r = token_id))
                      (λ r, r <| tk_revoked_at := Some now |>)
               else mret ());
          _ ← audit (user_text live) "token.revoke" "CLI_TOKEN" token_id "CLI token revoked";
          complete_idempotency (io_record_id outcome) 204 None [] (Some token_id) false
      end
  end.

(** Disabling a user ends its credentials. *)
Definition revoke_user_credentials (user_id : string) (revoked_at : Z) : Tx () :=
  _ ← update_ T_browser_sessions (λ r, bool_decide (bs_user_id r = user_id) && is_none (bs_revoked_at r))
        (λ r, r <| bs_revoked_at := Some revoked_at |>);
  update_ T_cli_tokens (λ r, bool_decide (tk_user_id r = user_id) && is_none (tk_revoked_at r))
    (λ r, r <| tk_revoked_at := Some revoked_at |>).

Record AuthenticatedSession := {
  as_principal : Principal;
  as_session_id : string;
  as_csrf_token : string;
  as_expires_at : Z;
}.

Definition resolve_browser_session (server_secret cookie : string) (clock : Z) : Tx AuthenticatedSession :=
  match parse cookie with
  | Raise _ => se_raise _AUTHENTICATION_ERROR
  | Ret parsed =>
      row ← browser_session (ps_identifier parsed);
      match row with
      | None => se_raise _AUTHENTICATION_ERROR
      | Some row =>
          _ ← se_when (negb (bool_decide (bs_secret_hash row.1 = sha256 (ps_secret parsed)))) _AUTHENTICATION_ERROR;
          mode ← _mode;
          _ ← se_when (session_dead idle_ttl clock row) _AUTHENTICATION_ERROR;
          principal ← _principal (bs_user_id row.1) BROWSER (ps_identifier parsed) [];
          _ ← se_when (bool_decide (mode = WRITE_FROZEN) && negb (p_system_admin principal)) _AUTHENTICATION_ERROR;
          _ ← (if bool_decide (mode = WRITE_FROZEN) then mret ()
               else update_ T_browser_sessions (λ r, bool_decide (bs_browser_session_id r = ps_identifier parsed))
                      (λ r, r <| bs_last_seen_at := clock |>));
          let csrf_token := csrf_issue hmac_sha256 server_secret cookie in
          _ ← se_when (negb (bool_decide (csrf_digest sha256 csrf_token = bs_csrf_secret_hash row.1)))
                _AUTHENTICATION_ERROR;
          mret {| as_principal := principal; as_session_id := ps_identifier parsed; as_csrf_token := csrf_token;
                  as_expires_at := bs_expires_at row.1 |}
      end
  end.

Definition logout (server_secret cookie csrf_token : string) (clock : Z) : Tx () :=
  match parse cookie with
  | Raise _ => se_raise _AUTHENTICATION_ERROR
  | Ret parsed =>
      row ← browser_session (ps_identifier parsed);
      match row with
      | None => se_raise _AUTHENTICATION_ERROR
      | Some row =>
          _ ← se_when (negb (bool_decide (bs_secret_hash row.1 = sha256 (ps_secret parsed)))) _AUTHENTICATION_ERROR;
          mode ← _mode;
          _ ← se_when (session_dead idle_ttl clock row) _AUTHENTICATION_ERROR;
          _ ← se_when (negb (csrf_verify sha256 hmac_sha256 server_secret cookie csrf_token (bs_csrf_secret_hash row.1)))
                (ApplicationError "invalid_csrf" 403 "The CSRF token is missing or does not match this session");
          admin ← _system_admin (bs_user_id row.1);
          _ ← se_when (bool_decide (mode = WRITE_FROZEN) && negb admin) _AUTHENTICATION_ERROR;
          _ ← update_ T_browser_sessions (λ r, bool_decide (bs_browser_session_id r = ps_identifier parsed))
                (λ r, r <| bs_revoked_at := Some clock |>);
          audit (bs_user_id row.1) "auth.logout" "BROWSER_SESSION" (ps_identifier parsed) "Browser session revoked"
      end
  end.
End codecs.

(** ** Delegation *)

(** The principal a token stands for when it is made by [p] with these scopes. *)
Definition token_principal (p : Principal) (credential_id : string) (scopes : list TokenScope) : Principal :=
  {| p_user_id := p_user_id p; p_credential_kind := CLI; p_credential_id := credential_id; p_scopes := scopes;
     p_memberships := p_memberships p; p_system_admin := p_system_admin p |}.

(** Principals reached from [p] by making tokens, tokens with those tokens, and so on. *)
Inductive derived (p : Principal) : Principal → Prop :=
| derived_self : derived p p
| derived_token q credential_id scopes :
    derived p q → validate_requested_token_scopes q scopes = Ret () →
    derived p (token_principal q credential_id scopes).

Lemma validate_Ret p scopes :
  validate_requested_token_scopes p scopes = Ret () →
  ∃ allowed, allowed_scopes p = Ret allowed ∧ scopes ⊆ allowed ∧ scopes ≠ [].
Proof.
  unfold validate_requested_token_scopes. case_bool_decide as Hne; [done|]. intros H.
  change (mbind ?f (raise_when false ?e)) with (f tt) in H. cbv beta in H.
  destruct (allowed_scopes p) as [allowed|] eqn:Ha; [|done]. exists allowed. split; [done|].
  change (mbind ?f (Ret ?a)) with (f a) in H. cbv beta in H.
  destruct (forallb _ scopes) eqn:Hall; [|done]. split; [|by intros ->].
  intros s Hs. rewrite forallb_forall in Hall. specialize (Hall s). rewrite <- list_elem_of_In in Hall.
  by apply Hall, bool_decide_eq_true in Hs.
Qed.

(** What [p] may do as an administrator or pass on, as one set of scopes. *)
Lemma allowed_token q id scopes allowed :
  validate_requested_token_scopes q scopes = Ret () →
  allowed_scopes (token_principal q id scopes) = Ret allowed →
  ∃ allowed', allowed_scopes q = Ret allowed' ∧ allowed ⊆ allowed'.
Proof.
  intros (allowed' & Ha' & Hsub & _)%validate_Ret. unfold allowed_scopes, has_scope. cbn.
  case_bool_decide; [|done]. intros [= <-]. eauto.
Qed.

Lemma derived_spec p q :
  derived p q →
  p_user_id q = p_user_id p ∧ p_memberships q = p_memberships p ∧ p_system_admin q = p_system_admin p ∧
  (q = p ∨ p_credential_kind q = CLI ∧ ∃ a, allowed_scopes p = Ret a ∧ p_scopes q ⊆ a).
Proof.
  induction 1 as [|q id scopes _ (Hu & Hm & Ha & Hq) Hv]; [auto|]. cbn. split_and!; [done..|].
  right. split; [done|]. destruct (validate_Ret q scopes Hv) as (a & Hal & Hsub & _).
  destruct Hq as [->|(Hk & a' & Ha' & Hsub')]; [eauto|]. exists a'. split; [done|].
  unfold allowed_scopes in Hal. rewrite Hk in Hal. destruct (has_scope q TOKENS_WRITE); [|done].
  injection Hal as <-. set_solver.
Qed.


(** ** Tokens in the database *)

Lemma system_admin_reads u : reads (_system_admin u).
Proof. unfold _system_admin. read_only. Qed.
Lemma memberships_reads u : reads (_memberships u).
Proof. unfold _memberships. read_only. Qed.
#[export] Hint Resolve system_admin_reads memberships_reads : reads.
Lemma principal_reads u k c s : reads (_principal u k c s).
Proof. unfold _principal. read_only. Qed.
Lemma with_user_reads {A} (f : A → string) l : reads (with_user f l).
Proof. unfold with_user. read_only. Qed.
#[export] Hint Resolve principal_reads with_user_reads : reads.
Lemma browser_session_reads i : reads (browser_session i).
Proof. unfold browser_session. read_only. Qed.
Lemma cli_token_reads i : reads (cli_token i).
Proof. unfold cli_token. read_only. Qed.
#[export] Hint Resolve browser_session_reads cli_token_reads : reads.
Lemma revalidate_reads ttl now p : reads (_revalidate_principal ttl now p).
Proof. unfold _revalidate_principal. read_only. Qed.
Lemma mode_reads : reads _mode.
Proof. unfold _mode. read_only. Qed.
#[export] Hint Resolve revalidate_reads mode_reads : reads.
Lemma authorize_reads ttl now p t w : reads (_authorize ttl now p t w).
Proof. unfold _authorize. read_only. Qed.
Lemma require_writable_reads : reads require_writable.
Proof. unfold require_writable. read_only. Qed.
Lemma resolve_token_reads sha token clock : reads (resolve_cli_token sha token clock).
Proof. unfold resolve_cli_token. read_only. Qed.
#[export] Hint Resolve authorize_reads require_writable_reads resolve_token_reads : reads.

Lemma audit_writes a b c d e : only_writes [T_audit_records] (audit a b c d e).
Proof. unfold audit. writes. Qed.
#[export] Hint Resolve audit_writes : writes.

Lemma scope_of_value s : scope_of (scope_value s) = Some s.
Proof. by destruct s. Qed.

Lemma row_scopes_created scopes id user h name e r :
  ∃ scopes', row_scopes (MkCliTokenRow id user h name (py_sorted scope_leb (scope_value <$> scopes)) e r) = Some scopes' ∧
             scopes' ≡ₚ scopes.
Proof.
  unfold row_scopes. cbn. destruct (Permutation_map_inv scope_value scopes
    (l1 := py_sorted scope_leb (scope_value <$> scopes))) as (l & Hl & Hp).
  { apply py_sorted_perm. }
  exists l. split; [|by symmetry]. rewrite Hl. clear.
  induction l as [|s l IH]; [done|]. cbn [map mapM]. by rewrite scope_of_value, IH.
Qed.

(** Rows under a unique key: the filter on a row's key finds that row alone. *)
Lemma filter_key {A} (key : A → string) l x :
  NoDup (key <$> l) → x ∈ l → List.filter (λ y, bool_decide (key y = key x)) l = [x].
Proof.
  induction l as [|y l IH]; [by intros _ ?%elem_of_nil|]. rewrite fmap_cons, NoDup_cons. intros [Hy Hnd].
  intros [->|Hx]%elem_of_cons; cbn.
  - rewrite bool_decide_eq_true_2 by done. f_equal. apply filter_nil. intros z Hz. apply bool_decide_eq_false.
    intros Heq. apply Hy. rewrite <- Heq. by apply list_elem_of_fmap_2.
  - rewrite bool_decide_eq_false_2; [by apply IH|]. intros Heq. apply Hy. rewrite Heq. by apply list_elem_of_fmap_2.
Qed.

Lemma filter_key_cases {A} (key : A → string) l k :
  NoDup (key <$> l) → List.filter (λ y, bool_decide (key y = k)) l = [] ∨
                      ∃ x, List.filter (λ y, bool_decide (key y = k)) l = [x].
Proof.
  intros Hnd. destruct (decide (k ∈ key <$> l)) as [(x & -> & Hx)%list_elem_of_fmap|Hk].
  - right. exists x. by apply filter_key.
  - left. apply filter_nil. intros z Hz. apply bool_decide_eq_false. intros <-. apply Hk. by apply list_elem_of_fmap_2.
Qed.

Section tokens.
Context (sha256 : string → string) (settings : IdentitySettings).

Lemma create_token_Ret q name scopes ttl bytes clock now db row raw db' :
  create_cli_token sha256 settings q name scopes ttl bytes clock now db = (Ret (row, raw), db') →
  canonical_uuid (new_ids db (ids_drawn db)) → String.length bytes = 32%nat →
  ∃ live user,
    _revalidate_principal (idle_ttl settings) clock (ir_principal q) (draw db) = (Ret live, draw db) ∧
    validate_requested_token_scopes live scopes = Ret () ∧ p_user_id live = Some user ∧
    row = MkCliTokenRow (new_ids db (ids_drawn db)) user (sha256 bytes) name
            (py_sorted scope_leb (scope_value <$> scopes)) (now + seconds ttl) None ∧
    raw = issue bytes (new_ids db (ids_drawn db)) ∧
    rows db' T_cli_tokens = rows db T_cli_tokens ++ [row] ∧
    ∀ t, t ∉ [T_cli_tokens; T_audit_records; T_idempotency_records] → rows db' t = rows db t.
Proof.
  unfold create_cli_token. intros H Hid Hlen. rx H.
  destruct (validate_requested_token_scopes x scopes) as [[]|] eqn:Hv; rx H.
  apply tx_bind_Ret in H as (o & db1 & Hb & H). rx H.
  match goal with Hd : match digest _ _ with _ => _ end _ = _ |- _ =>
    rewrite digest_issue in Hd by done; apply tx_mret in Hd as [[= ->] _] end.
  destruct (p_user_id x) as [user|] eqn:Hu; rx H.
  apply tx_bind_Ret in H as (? & db2 & Ha & H). apply tx_bind_Ret in H as (? & db3 & Hc & H). rx H.
  apply begin_writes in Hb as [Hb _]. apply audit_writes in Ha as [Ha _]. apply complete_writes in Hc as [Hc _].
  exists x, user. simplify_eq. split_and!; try done.
  - rewrite Hc, Ha, put_same, Hb by set_solver. done.
  - intros t Ht. rewrite Hc, Ha, put_other, Hb by set_solver. done.
Qed.

Lemma cli_token_run id db tok u :
  List.filter (λ r, bool_decide (tk_token_id r = id)) (rows db T_cli_tokens) = [tok] →
  List.filter (λ r, bool_decide (us_user_id r = tk_user_id tok)) (rows db T_users) = [u] →
  cli_token id db = (Ret (Some (tok, us_enabled u)), db).
Proof.
  intros Ht Hu. unfold cli_token. rewrite (tx_bind_eq _ _ db [tok] db) by by apply (select_run T_cli_tokens).
  unfold with_user. rewrite (tx_bind_eq _ _ db (rows db T_users) db).
  - cbn. by rewrite Hu.
  - apply (select_run T_users). by apply filter_all, Forall_true.
Qed.

(** A new token works.  Once [create_cli_token] returned, its text resolves,
    until it expires and while its user is enabled, to the user who asked for it
    with the scopes asked for, and a text with another secret for the same
    identifier is refused. *)
Theorem created_token_resolves q name scopes ttl bytes clock now db row raw db' u clock' :
  create_cli_token sha256 settings q name scopes ttl bytes clock now db = (Ret (row, raw), db') →
  canonical_uuid (new_ids db (ids_drawn db)) → String.length bytes = 32%nat →
  new_ids db (ids_drawn db) ∉ tk_token_id <$> rows db T_cli_tokens →
  List.filter (λ r, bool_decide (us_user_id r = tk_user_id row)) (rows db T_users) = [u] →
  us_enabled u = true → clock' < now + seconds ttl →
  (∃ scopes', scopes' ≡ₚ scopes ∧
     resolve_cli_token sha256 raw clock' db' = _principal (tk_user_id row) CLI (tk_token_id row) scopes' db') ∧
  ∀ token parsed, parse token = Ret parsed → ps_identifier parsed = tk_token_id row →
    sha256 (ps_secret parsed) ≠ sha256 bytes →
    resolve_cli_token sha256 token clock' db' = (Raise _AUTHENTICATION_ERROR, db').
Proof.
  intros H Hid Hlen Hfresh Hu Hen Hclock.
  destruct (create_token_Ret _ _ _ _ _ _ _ _ _ _ _ H Hid Hlen) as (live & user & _ & _ & _ & Hrow & -> & Hrows & Hkeep).
  assert (List.filter (λ r, bool_decide (tk_token_id r = tk_token_id row)) (rows db' T_cli_tokens) = [row]) as Hone.
  { rewrite Hrows, List.filter_app. rewrite (proj2 (filter_nil _ _)).
    - cbn. by rewrite bool_decide_eq_true_2.
    - intros r Hr. apply bool_decide_eq_false. intros Heq. apply Hfresh. rewrite Hrow in Heq. cbn in Heq.
      rewrite <- Heq. by apply list_elem_of_fmap_2. }
  assert (cli_token (tk_token_id row) db' = (Ret (Some (row, true)), db')) as Hrun.
  { rewrite <- Hen. apply cli_token_run; [done|]. by rewrite Hkeep by set_solver. }
  assert (token_dead clock' (row, true) = false) as Halive.
  { unfold token_dead. rewrite Hrow. cbn. rewrite orb_false_r. apply Z.leb_gt. lia. }
  split.
  - destruct (row_scopes_created scopes (new_ids db (ids_drawn db)) user (sha256 bytes) name (now + seconds ttl) None)
      as (scopes' & Hs & Hp). rewrite <- Hrow in Hs. exists scopes'. split; [done|].
    unfold resolve_cli_token. rewrite parse_issue by done. cbn [ps_identifier ps_secret].
    replace (new_ids db (ids_drawn db)) with (tk_token_id row) by by rewrite Hrow.
    rewrite (tx_bind_eq _ _ db' _ db' Hrun). rewrite Halive. rewrite bool_decide_eq_true_2 by by rewrite Hrow.
    rewrite (tx_bind_eq _ _ db' () db') by done. cbn [fst]. by rewrite Hs.
  - intros token parsed Hparse Hpid Hsha. unfold resolve_cli_token. rewrite Hparse, Hpid.
    rewrite (tx_bind_eq _ _ db' _ db' Hrun). rewrite bool_decide_eq_false_2; [done|]. by rewrite Hrow.
Qed.

(** ** Revocation *)

(** What can happen to the tokens: a token is made under an unused identifier, one
    is revoked, a user's credentials are revoked, or something else happens. *)
Inductive token_step (db : DB) : DB → Prop :=
| step_create q name scopes ttl bytes clock now row raw db' :
    create_cli_token sha256 settings q name scopes ttl bytes clock now db = (Ret (row, raw), db') →
    canonical_uuid (new_ids db (ids_drawn db)) → String.length bytes = 32%nat →
    new_ids db (ids_drawn db) ∉ tk_token_id <$> rows db T_cli_tokens → token_step db db'
| step_revoke q id clock now db' :
    revoke_cli_token settings q id clock now db = (Ret (), db') → token_step db db'
| step_revoke_user user now db' : revoke_user_credentials user now db = (Ret (), db') → token_step db db'
| step_other db' : rows db' T_cli_tokens = rows db T_cli_tokens → token_step db db'.

Definition token_revoked (id : string) (db : DB) : Prop :=
  NoDup (tk_token_id <$> rows db T_cli_tokens) ∧
  ∃ r, r ∈ rows db T_cli_tokens ∧ tk_token_id r = id ∧ is_none (tk_revoked_at r) = false.

(** Revoking rows keeps the revoked ones. *)
Lemma revoked_update id db p now :
  token_revoked id db → token_revoked id (modify T_cli_tokens p (λ r, r <| tk_revoked_at := Some now |>) db).
Proof.
  intros [Hnd (r & Hr & Hid & Hrev)]. unfold token_revoked. rewrite modify_same. split.
  - rewrite <- list_fmap_compose. erewrite list_fmap_ext; [exact Hnd|]. intros i x _. cbn. by destruct (p x).
  - exists (if p r then r <| tk_revoked_at := Some now |> else r). split; [|by destruct (p r)].
    by apply (list_elem_of_fmap_2 (λ r, if p r then r <| tk_revoked_at := Some now |> else r)).
Qed.

Lemma revoked_modify id db now :
  NoDup (tk_token_id <$> rows db T_cli_tokens) → id ∈ tk_token_id <$> rows db T_cli_tokens →
  token_revoked id (modify T_cli_tokens (λ r, bool_decide (tk_token_id r = id)) (λ r, r <| tk_revoked_at := Some now |>) db).
Proof.
  intros Hnd (r & -> & Hr)%list_elem_of_fmap. unfold token_revoked. rewrite modify_same. split.
  - rewrite <- list_fmap_compose. erewrite list_fmap_ext; [exact Hnd|]. intros i x _. cbn. by case_bool_decide.
  - eexists. split; [by apply (list_elem_of_fmap_2
      (λ x, if bool_decide (tk_token_id x = tk_token_id r) then x <| tk_revoked_at := Some now |> else x) _ r)|].
    by rewrite bool_decide_eq_true_2.
Qed.

Lemma revoked_rows id db db' :
  rows db' T_cli_tokens = rows db T_cli_tokens → token_revoked id db → token_revoked id db'.
Proof. unfold token_revoked. by intros ->. Qed.

(** The tokens after a revocation: as they were, or with the one revoked. *)
Lemma revoke_token_Ret q id clock now db db' :
  revoke_cli_token settings q id clock now db = (Ret (), db') →
  ∃ live, _revalidate_principal (idle_ttl settings) clock (ir_principal q) db = (Ret live, db) ∧
    (rows db' T_cli_tokens = rows db T_cli_tokens ∧
       (List.filter (_scope_predicates (identity_key live "revokeCliToken" q)) (rows db T_idempotency_records) ≠ [] ∨
        ∃ r, r ∈ rows db T_cli_tokens ∧ tk_token_id r = id ∧ is_none (tk_revoked_at r) = false) ∨
     id ∈ tk_token_id <$> rows db T_cli_tokens ∧
     rows db' T_cli_tokens =
       rows (modify T_cli_tokens (λ r, bool_decide (tk_token_id r = id)) (λ r, r <| tk_revoked_at := Some now |>) db)
         T_cli_tokens).
Proof.
  unfold revoke_cli_token. intros H. rx H. exists x. split; [done|].
  apply tx_bind_Ret in H as (o & db1 & Hb & H). pose proof Hb as [_ Hb']%begin_Ret.
  apply begin_writes in Hb as [Hb _].
  destruct (io_replay o) eqn:Ho; rx H.
  { left. rewrite Hb by set_solver. split; [done|]. left.
    destruct Hb' as [(? & _)|(row & st & Hf & _)]; [congruence|]. by rewrite Hf. }
  destruct Hl as [[_ ->]|(row & Hl & ->)]; rx H.
  assert (row ∈ rows db T_cli_tokens ∧ tk_token_id row = id) as [Hrow Hid].
  { assert (row ∈ List.filter (λ r : Database.row T_cli_tokens, bool_decide (tk_token_id r = id)) (rows db1 T_cli_tokens))
      as Hin by (apply list_elem_of_lookup_2 with 0%nat; exact (f_equal (λ l, l !! 0%nat) Hl)).
    apply elem_of_List_filter in Hin as [Hid Hin]. rewrite Hb in Hin by set_solver. by bool_simpl. }
  destruct (is_none (tk_revoked_at row)) eqn:Hrev; rx H;
    apply tx_bind_Ret in H as (? & db2 & Ha & H);
    apply audit_writes in Ha as [Ha _]; apply complete_writes in H as [Hc _].
  - right. rewrite Hc, Ha, !modify_same, Hb by set_solver. split; [|done]. rewrite <- Hid. by apply list_elem_of_fmap_2.
  - left. rewrite Hc, Ha, Hb by set_solver. split; [done|]. right. eauto.
Qed.

Lemma revoked_step id db db' : token_step db db' → token_revoked id db → token_revoked id db'.
Proof.
  intros [q name scopes ttl bytes clock now row raw db1 H Hc Hlen Hfresh|q i clock now db1 H|user now db1 H|db1 H] Hrev.
  - destruct (create_token_Ret _ _ _ _ _ _ _ _ _ _ _ H Hc Hlen) as (live & user & _ & _ & _ & Hrow & _ & Hrows & _).
    destruct Hrev as [Hnd (r & Hr & Hid)]. unfold token_revoked. rewrite Hrows. split.
    + rewrite fmap_app. apply NoDup_app. split_and!; [done| |apply NoDup_singleton].
      intros x Hx ->%list_elem_of_singleton. rewrite Hrow in Hx. done.
    + exists r. split; [|done]. apply elem_of_app. by left.
  - apply revoke_token_Ret in H as (live & _ & [[H _]|[_ H]]); [by eapply revoked_rows|].
    eapply revoked_rows; [exact H|]. by apply revoked_update.
  - unfold revoke_user_credentials in H. rx H.
    apply (revoked_update id (modify T_browser_sessions _ _ db)). by eapply revoked_rows; [|exact Hrev].
  - by eapply revoked_rows.
Qed.

(** A revoked token is refused whatever secret comes with its identifier. *)
Lemma revoked_resolve id db token parsed clock :
  token_revoked id db → NoDup (us_user_id <$> rows db T_users) →
  parse token = Ret parsed → ps_identifier parsed = id →
  resolve_cli_token sha256 token clock db = (Raise _AUTHENTICATION_ERROR, db).
Proof.
  intros [Hnd (r & Hr & Hid & Hrev)] Hus Hp Hi. unfold resolve_cli_token. rewrite Hp, Hi.
  pose proof (filter_key tk_token_id (rows db T_cli_tokens) r Hnd Hr) as Hone. rewrite Hid in Hone.
  destruct (filter_key_cases us_user_id (rows db T_users) (tk_user_id r) Hus) as [Hu|[u Hu]].
  - rewrite (tx_bind_eq _ _ db None db); [done|]. unfold cli_token.
    rewrite (tx_bind_eq _ _ db [r] db) by by apply (select_run T_cli_tokens). unfold with_user.
    rewrite (tx_bind_eq _ _ db (rows db T_users) db); [cbn; by rewrite Hu|].
    apply (select_run T_users). by apply filter_all, Forall_true.
  - rewrite (tx_bind_eq _ _ db (Some (r, us_enabled u)) db) by by apply cli_token_run.
    unfold token_dead. cbn. by rewrite Hrev, orb_true_r.
Qed.

(** C13: A revoked token never works again.  After [revoke_cli_token] ran on a token
    under an unused idempotency key, no sequence of tokens made, tokens revoked,
    users' credentials revoked and other work makes any text with that token's
    identifier resolve. *)
Theorem revoked_token_never_resolves q id clock now db db' db'' token parsed clock' :
  revoke_cli_token settings q id clock now db = (Ret (), db') →
  ir_idempotency_key q ∉ id_idempotency_key <$> rows db T_idempotency_records →
  NoDup (tk_token_id <$> rows db T_cli_tokens) →
  rtc token_step db' db'' → NoDup (us_user_id <$> rows db'' T_users) →
  parse token = Ret parsed → ps_identifier parsed = id →
  resolve_cli_token sha256 token clock' db'' = (Raise _AUTHENTICATION_ERROR, db'').
Proof.
  intros H Hkey Hnd Hsteps Hus Hp Hi. eapply revoked_resolve; [|done..].
  assert (token_revoked id db') as Hrev.
  { apply revoke_token_Ret in H as (live & _ & [[Hrows [Hf|Hr]]|[Hin Hrows]]).
    - destruct Hf. apply filter_nil. intros r Hr. apply not_true_is_false. intros Hs. apply Hkey.
      unfold _scope_predicates in Hs. bool_simpl. simplify_eq.
      change (rk_key (identity_key live "revokeCliToken" q) ∈ id_idempotency_key <$> rows db T_idempotency_records).
      match goal with Hk : _ = rk_key _ |- _ => rewrite <- Hk end. by apply list_elem_of_fmap_2.
    - eapply revoked_rows; [exact Hrows|]. by split.
    - eapply revoked_rows; [exact Hrows|]. by apply revoked_modify. }
  clear -Hsteps Hrev. induction Hsteps as [|a b c Hs _ IH]; [done|]. by eapply IH, revoked_step.
Qed.
End tokens.

(** ** A sample *)

Definition sample_hasher (s : string) : string := "hash:" +:+ s.
Definition sample_secret : string := "0123456789abcdef0123456789ABCDEF".
Definition sample_settings : IdentitySettings :=
  {| browser_session_idle_ttl_seconds := 3600; pending_wait_milliseconds := 0 |}.
Definition sample_session_id : string := "01890a5d-ac96-774b-bcce-b302099a8058".
Definition sample_browser : Principal :=
  {| p_user_id := Some "user"; p_credential_kind := BROWSER; p_credential_id := sample_session_id; p_scopes := [];
     p_memberships := [{| tm_tenant_id := "tenant"; tm_role := "MEMBER" |}]; p_system_admin := false |}.
Definition sample_cli : Principal := token_principal sample_browser sample_uuid [JOBS_READ; TOKENS_WRITE].


Definition sample_user : UserRow := MkUserRow "user" "kim" "Kim" "hash" true 1.
Definition sample_identity_db : DB :=
  {| rows := λ t, match t with
       | T_users => [sample_user]
       | T_tenants => [MkTenantRow "tenant" "slug" "Tenant" true 1]
       | T_memberships => [MkMembershipRow "tenant" "user" "MEMBER"]
       | T_browser_sessions => [MkBrowserSessionRow sample_session_id "user" "s" "c" (seconds 5000) None 0]
       | T_policy_versions => [MkPolicyRow 1 NORMAL true 1000]
       | _ => [] end;
     new_ids := λ _, sample_uuid; ids_drawn := 0 |}.
Definition sample_request : IdentityRequest :=
  {| ir_principal := sample_browser; ir_idempotency_key := "0123456789abcdef"; ir_request_hash := sample_hash |}.
Definition sample_create : outcome SvcError (CliTokenRow * string) * DB :=
  create_cli_token sample_hasher sample_settings sample_request "laptop" [JOBS_WRITE; JOBS_READ] 600 sample_secret 0 0
    sample_identity_db.
Definition sample_token_row : CliTokenRow :=
  MkCliTokenRow sample_uuid "user" ("hash:" +:+ sample_secret) "laptop" ["jobs:read"; "jobs:write"] (seconds 600) None.

Lemma created_token_resolves_witness :
  ∃ scopes', scopes' ≡ₚ [JOBS_WRITE; JOBS_READ] ∧
    resolve_cli_token sample_hasher (issue sample_secret sample_uuid) 5 sample_create.2 =
    _principal "user" CLI sample_uuid scopes' sample_create.2.
Proof.
  refine (proj1 (created_token_resolves sample_hasher sample_settings sample_request "laptop" [JOBS_WRITE; JOBS_READ] 600
    sample_secret 0 0 sample_identity_db sample_token_row _ sample_create.2 sample_user 5 _ sample_uuid_canonical
    eq_refl _ _ eq_refl _)).
  - vm_compute. reflexivity.
  - apply not_elem_of_nil.
  - vm_compute. reflexivity.
  - vm_compute. reflexivity.
Defined.

(** The token made above, revoked under another key. *)
Definition sample_revoke_request : IdentityRequest :=
  {| ir_principal := sample_browser; ir_idempotency_key := "fedcba9876543210"; ir_request_hash := sample_hash |}.
Definition sample_revoke : outcome SvcError () * DB :=
  revoke_cli_token sample_settings sample_revoke_request sample_uuid 1 1 sample_create.2.

Lemma revoked_token_never_resolves_witness :
  resolve_cli_token sample_hasher (issue sample_secret sample_uuid) 5 sample_revoke.2 =
  (Raise _AUTHENTICATION_ERROR, sample_revoke.2).
Proof.
  refine (revoked_token_never_resolves sample_hasher sample_settings sample_revoke_request sample_uuid 1 1
    sample_create.2 sample_revoke.2 sample_revoke.2 _ {| ps_identifier := sample_uuid; ps_secret := sample_secret |} 5
    _ _ _ (rtc_refl _ _) _ _ eq_refl).
  - vm_compute. reflexivity.
  - apply (bool_decide_eq_true_1 _). vm_compute. reflexivity.
  - apply (bool_decide_eq_true_1 _). vm_compute. reflexivity.
  - apply (bool_decide_eq_true_1 _). vm_compute. reflexivity.
  - vm_compute. reflexivity.
Defined.
