(* ===== verification/Dispatch.v ===== *)
(** * Dispatch, fencing and the lease reaper

    [src/nexa/coordinator/dispatch.py] (the effects of an accepted decision),
    [fence_attempt] and [revoke_leftover_authority] of
    [src/nexa/application/job_recovery.py], and [src/nexa/coordinator/reaper.py]. *)

From S2P Require Import Prelude PyDecimal PyValue Scheduling Database Ledger Authority.

Local Open Scope string_scope.
Local Open Scope list_scope.
Local Open Scope Z_scope.

Definition is_job (job_id : string) (r : JobRow) : bool := bool_decide (j_job_id r = job_id).

(** ** Events *)

(** [changes] are the keyword arguments, as a function on the job row; an event
    without a job is not recorded. *)
Definition _event (job : option JobRow) (holder_id event_type : string) (reason : option string)
    (keep_version : bool) (changes : JobRow → JobRow) : Tx () :=
  match job with
  | None => mret ()
  | Some job =>
      let version := if keep_version then j_version job else j_version job + 1 in
      _ ← update_ T_jobs (is_job (j_job_id job))
            (λ r, (changes r) <| j_version := version |> <| j_event_sequence := j_event_sequence job + 1 |>);
      event_id ← new_uuid7;
      _ ← insert T_events
            (MkEventRow event_id (j_tenant_id job) (j_job_id job) (j_event_sequence job + 1) event_type
               reason "COORDINATOR" holder_id);
      audit_id ← new_uuid7;
      insert T_audit_records
        (MkAuditRow audit_id "COORDINATOR" holder_id (Some (j_tenant_id job)) event_type "JOB" (j_job_id job)
           (Some (j_version job)) (Some version) reason)
  end.

(** ** Applying a decision *)

Definition _DISPATCHABLE : list (DesiredState * option string) :=
  [(DS_RUNNING, None); (DS_PAUSED, Some "CHECKPOINT_FOR_PAUSE")].

Definition max_attempt_number (attempts : list AttemptRow) : Z :=
  match at_attempt_number <$> attempts with
  | [] => 0
  | n :: ns => foldl Z.max n ns
  end.

Definition invalidate_reservation (reservation_id reason : string) (now : Z) : Tx () :=
  update_ T_reservations
    (λ r, bool_decide (rv_reservation_id r = reservation_id) && is_none (rv_invalidated_at r))
    (λ r, r <| rv_invalidated_at := Some now |> <| rv_invalidation_reason := Some reason |>).

(** One more active attempt in a scope. *)
Definition count_attempt (scope : string * string) : Tx () :=
  count ← update T_admission_counters
            (λ r, bool_decide (ac_scope_type r = scope.1) && bool_decide (ac_scope_id r = scope.2))
            (λ r, r <| ac_active_attempts := ac_active_attempts r + 1 |> <| ac_version := ac_version r + 1 |>);
  se_when (negb (count =? 1)) (RuntimeError "missing admitted job counter").

Definition job_scopes (job : JobRow) : list (string * string) :=
  [("GLOBAL", "global"); ("TENANT", j_tenant_id job);
   ("USER", j_tenant_id job +:+ ":" +:+ j_submitter_user_id job)].

(** The value the column [reconciliation_sequence] takes from its sequence: above every
    earlier one. *)
Definition next_reconciliation (l : list AllocationRow) : Z :=
  foldr (λ a m, Z.max (al_reconciliation_sequence a) m) 0 l + 1.

Definition dispatch_job (worker : WorkerRow) (job : JobRow) (now epoch : Z) (holder_id : string)
    (expected_job_version : Z) (reservation_id : option string) : Tx () :=
  _ ← se_when (negb (bool_decide (j_state job = JS_QUEUED))
            || negb (bool_decide ((j_desired_state job, j_recovery_intent job) ∈ _DISPATCHABLE))
            || negb (j_version job =? expected_job_version))
        (RuntimeError "stale dispatch proposal");
  live ← select T_attempt_authority_grants
           (λ r, bool_decide (gr_job_id r = j_job_id job) && live_grant r);
  _ ← se_when (negb (bool_decide (length live = 0%nat))) (RuntimeError "job already has live authority");
  specs ← select T_job_specs (λ r, bool_decide (sp_job_id r = j_job_id job));
  spec ← one specs;
  _ ← se_when (negb (sp_gpu_count spec =? 0)) (RuntimeError "B11 CPU dispatch cannot grant a GPU");
  attempt_id ← new_uuid7;
  allocation_id ← new_uuid7;
  lease_id ← new_uuid7;
  let fence := j_job_fence job + 1 in
  let incarnation := wk_current_incarnation_id worker in
  attempts ← select T_attempts (λ r, bool_decide (at_job_id r = j_job_id job));
  let number := max_attempt_number attempts + 1 in
  nonce ← new_uuid7;
  _ ← insert T_attempts
        (MkAttemptRow attempt_id (j_tenant_id job) (j_job_id job) number AS_CREATED
           (default "RUN" (j_recovery_intent job)) (wk_worker_id worker) incarnation fence nonce epoch
           None None 0 VNone VNone None now None None None);
  earlier ← select T_allocations (λ _, true);
  _ ← insert T_allocations
        (MkAllocationRow allocation_id (j_tenant_id job) (j_job_id job) attempt_id (wk_worker_id worker)
           (sp_cpu_millis spec) (sp_memory_bytes spec) 0 AL_HELD now None None None (next_reconciliation earlier));
  _ ← insert T_attempt_leases
        (MkLeaseRow lease_id (j_tenant_id job) (j_job_id job) attempt_id allocation_id (wk_worker_id worker)
           incarnation fence now (now + seconds 45) None None);
  grant_id ← new_uuid7;
  callback_id ← new_uuid7;
  _ ← insert T_attempt_authority_grants
        (MkGrantRow grant_id (j_tenant_id job) (j_job_id job) attempt_id allocation_id lease_id
           (wk_worker_id worker) incarnation fence None callback_id now None);
  _ ← for_rows (job_scopes job) count_attempt;
  _ ← _event (Some job) holder_id "JOB_DISPATCHING" None false
        (λ r, r <| j_state := JS_DISPATCHING |> <| j_job_fence := fence |> <| j_waiting_reason := None |>);
  _ ← match reservation_id with
      | Some rid => if bool_decide (rid = "") then mret () else invalidate_reservation rid "dispatched" now
      | None => mret ()
      end;
  rebase_locked now.

Definition apply_decision (decision : SchedulingDecision) (worker : WorkerRow) (job : option JobRow)
    (now epoch : Z) (holder_id : string) : Tx () :=
  match decision with
  | InvalidateReservation rid reason =>
      _ ← invalidate_reservation rid reason now;
      _event job holder_id "RESERVATION_INVALIDATED" (Some reason) false (λ r, r)
  | CreateReservation _ _ reason =>
      match job with
      | None => se_raise TypeError
      | Some j =>
          reservation_id ← new_uuid7;
          versions ← select T_policy_versions pv_is_current;
          version ← one versions;
          _ ← insert T_reservations
                (MkReservationRow reservation_id (j_tenant_id j) (j_job_id j)
                   (default now (j_eligible_since j)) (pv_policy_version version) now None None);
          _event job holder_id "RESERVATION_CREATED" (Some reason) false (λ r, r)
      end
  | Dispatch _ expected_job_version _ reservation_id =>
      match job with
      | None => se_raise TypeError
      | Some j => dispatch_job worker j now epoch holder_id expected_job_version reservation_id
      end
  | DrainForReservation _ _ | NoDecision _ _ => mret ()
  end.

(** ** Fencing *)

Definition of_attempt_lease (attempt_id : string) (r : LeaseRow) : bool :=
  bool_decide (le_attempt_id r = attempt_id) && live_lease r.
Definition of_attempt_grant (attempt_id : string) (r : GrantRow) : bool :=
  bool_decide (gr_attempt_id r = attempt_id) && live_grant r.

Definition abandon_results (attempt_id : string) : Tx () :=
  update_ T_result_reservations
    (λ r, bool_decide (rr_attempt_id r = attempt_id) && bool_decide (rr_state r = "ACTIVE"))
    (λ r, r <| rr_state := "ABANDONED" |>).
Definition abandon_checkpoints (attempt_id : string) (now : Z) : Tx () :=
  update_ T_checkpoint_reservations
    (λ r, bool_decide (ck_attempt_id r = attempt_id) && bool_decide (ck_state r = "RESERVED"))
    (λ r, r <| ck_state := "ABANDONED" |> <| ck_ended_at := Some now |>).

Definition fence_attempt (attempt_id : string) (now : Z) (st : AttemptState)
    (failure_class failure_reason revoke_reason : string) : Tx () :=
  _ ← update_ T_attempts (has_attempt attempt_id)
        (λ a, a <| at_state := st |> <| at_failure_class := Some failure_class |>
                <| at_failure_reason := Some failure_reason |>);
  _ ← update_ T_attempt_leases (of_attempt_lease attempt_id)
        (λ l, l <| le_revoked_at := Some now |> <| le_revoke_reason := Some revoke_reason |>);
  _ ← update_ T_attempt_authority_grants (of_attempt_grant attempt_id)
        (λ g, g <| gr_ended_at := Some now |>);
  _ ← update_ T_allocations
        (λ a, bool_decide (al_attempt_id a = attempt_id) && bool_decide (al_state a = AL_HELD))
        (λ a, a <| al_state := AL_QUARANTINED |> <| al_quarantined_at := Some now |>);
  _ ← abandon_results attempt_id;
  abandon_checkpoints attempt_id now.

Definition revoke_leftover_authority (attempt_id allocation_id : string) (now : Z) (revoke_reason : string)
    : Tx () :=
  _ ← update_ T_attempt_leases (of_attempt_lease attempt_id)
        (λ l, l <| le_revoked_at := Some now |> <| le_revoke_reason := Some revoke_reason |>);
  _ ← update_ T_attempt_authority_grants (of_attempt_grant attempt_id)
        (λ g, g <| gr_ended_at := Some now |>);
  _ ← update_ T_allocations
        (λ a, bool_decide (al_allocation_id a = allocation_id) && bool_decide (al_state a = AL_HELD))
        (λ a, a <| al_state := AL_QUARANTINED |> <| al_quarantined_at := Some now |>);
  _ ← abandon_checkpoints attempt_id now;
  abandon_results attempt_id.

(** ** The reaper *)

Definition BATCH_SIZE : nat := 16.
Definition _ACTIVE : list JobState := [JS_DISPATCHING; JS_RUNNING; JS_PAUSING].

(** Earlier expiry first, then the smaller identifier. *)
Definition expires_before (a b : LeaseRow) : bool :=
  (le_expires_at a <? le_expires_at b)
  || ((le_expires_at a =? le_expires_at b) && String.leb (le_lease_id a) (le_lease_id b)).

Definition expired_leases (limit : nat) (now : Z) : Tx (list string) :=
  leases ← select T_attempt_leases (λ r, live_lease r && (le_expires_at r <=? now));
  mret (le_lease_id <$> take limit (py_sorted expires_before leases)).

(** [now] is what [now_fn] reads after the row locks. *)
Definition reap_lease_locked (lease_id holder_id : string) (now : Z) : Tx bool :=
  refs ← select T_attempt_leases (has_lease lease_id);
  ref ← one_or_none refs;
  match ref with
  | None => mret false
  | Some ref =>
      jobs ← select T_jobs (is_job (le_job_id ref));
      job ← one jobs;
      attempts ← select T_attempts (has_attempt (le_attempt_id ref));
      attempt ← one attempts;
      leases ← select T_attempt_leases (has_lease lease_id);
      lease ← one leases;
      if negb (live_lease lease) || (now <? le_expires_at lease) then mret false
      else if bool_decide (j_state job ∈ _ACTIVE) && (at_job_fence attempt =? j_job_fence job) then
        _ ← fence_attempt (at_attempt_id attempt) now AS_LOST "INFRASTRUCTURE" "LEASE_EXPIRED" "LEASE_EXPIRED";
        _ ← _event (Some job) holder_id "ATTEMPT_LOST" (Some "LEASE_EXPIRED") false
              (λ r, r <| j_state := JS_RECOVERING |> <| j_job_fence := j_job_fence job + 1 |>);
        mret true
      else
        _ ← revoke_leftover_authority (at_attempt_id attempt) (le_allocation_id lease) now "LEASE_EXPIRED";
        _ ← _event (Some job) holder_id "LEASE_REVOKED" (Some "LEASE_EXPIRED") true (λ r, r);
        mret true
  end.
