(* ===== verification/Cleanup.v ===== *)
(** * Attempt failure and verified cleanup

    [src/nexa/application/execution_cleanup.py]: a worker reports that its attempt
    failed, which fences it, and later proves that the container is gone, which
    releases the allocation and decides what becomes of the job. *)

From S2P Require Import Prelude PyDecimal PyValue Database Ledger Authority Dispatch.

Local Open Scope string_scope.
Local Open Scope list_scope.
Local Open Scope Z_scope.

Definition _FAILURE_REASONS : list (string * list string) :=
  [("INFRASTRUCTURE", ["RECONCILIATION_IDENTITY_MISMATCH"; "EXECUTOR_UNAVAILABLE"; "STARTUP_FAILED";
                       "INPUT_DOWNLOAD_FAILED"; "OUTPUT_UPLOAD_FAILED"; "RUNNER_UNAVAILABLE"]);
   ("TIMEOUT", ["RUNTIME_LIMIT_REACHED"; "STARTUP_TIMEOUT"]);
   ("OOM", ["CONTAINER_OOM"]);
   ("INVALID_INPUT", ["INVALID_INPUT"; "INPUT_CHECKSUM_MISMATCH"]);
   ("INCOMPATIBLE", ["CAPABILITY_MISMATCH"; "IMAGE_MISMATCH"; "CHECKPOINT_RESTORE_UNAVAILABLE"]);
   ("INTERNAL", ["WORKLOAD_EXIT_NONZERO"; "RUNNER_PROTOCOL_ERROR"; "INVALID_RESULT";
                 "CHECKPOINT_PROTOCOL_ERROR"; "CHUNK_OUTPUT_CONFLICT"; "CHUNK_OUTPUT_UNAVAILABLE";
                 "CHECKPOINT_STORAGE_FAILED"])].

Definition _TERMINAL : list JobState := [JS_SUCCEEDED; JS_FAILED; JS_CANCELLED].

Definition _FAILABLE_ATTEMPT_STATES : list AttemptState :=
  [AS_CLAIMED; AS_STARTING; AS_RUNNING; AS_CHECKPOINTING].

Definition _conflict {A} (message : string) : Tx A := se_raise (state_conflict message).
Definition identity_message : string := "Cleanup identity or state is not valid".
Definition unavailable (message : string) : SvcError :=
  ApplicationErrorAfter "dependency_unavailable" 503 message 1.

(** ** Admission counters *)

Definition scope_row (scope : string * string) (r : CounterRow) : bool :=
  bool_decide (ac_scope_type r = scope.1) && bool_decide (ac_scope_id r = scope.2).

Fixpoint read_counters (scopes : list (string * string)) : Tx (list CounterRow) :=
  match scopes with
  | [] => mret []
  | scope :: scopes =>
      found ← select T_admission_counters (scope_row scope);
      row ← one_or_none found;
      match row with
      | None => se_raise (unavailable "Admission accounting is unavailable")
      | Some row => rest ← read_counters scopes; mret (row :: rest)
      end
  end.

Definition _lock_policy_counters (attempt_id : string) : Tx (OperationalMode * list CounterRow) :=
  attempts ← select T_attempts (has_attempt attempt_id);
  jobs ← select T_jobs (λ j, existsb (λ a, bool_decide (at_job_id a = j_job_id j)) attempts);
  ref ← one_or_none jobs;
  match ref with
  | None => _conflict identity_message
  | Some ref =>
      mode ← _mode;
      counters ← read_counters (job_scopes ref);
      mret (mode, counters)
  end.

Definition _adjust_counters (counters : list CounterRow) (outstanding active : Z) : Tx () :=
  for_rows counters (λ row,
    _ ← se_when ((ac_outstanding row <? outstanding) || (ac_active_attempts row <? active))
          (unavailable "Admission accounting is inconsistent");
    update_ T_admission_counters (scope_row (ac_scope_type row, ac_scope_id row))
      (λ r, r <| ac_outstanding := ac_outstanding row - outstanding |>
              <| ac_active_attempts := ac_active_attempts row - active |>
              <| ac_version := ac_version row + 1 |>)).

(** ** Events *)

Definition _event (job : JobRow) (worker_id event_type reason : string) (keep_version : bool)
    (changes : JobRow → JobRow) : Tx Z :=
  let sequence := j_event_sequence job + 1 in
  let version := if keep_version then j_version job else j_version job + 1 in
  _ ← update_ T_jobs (is_job (j_job_id job))
        (λ r, (changes r) <| j_event_sequence := sequence |> <| j_version := version |>);
  event_id ← new_uuid7;
  _ ← insert T_events
        (MkEventRow event_id (j_tenant_id job) (j_job_id job) sequence event_type (Some reason) "WORKER"
           worker_id);
  audit_id ← new_uuid7;
  _ ← insert T_audit_records
        (MkAuditRow audit_id "WORKER" worker_id (Some (j_tenant_id job)) (str_lower event_type) "JOB"
           (j_job_id job) (Some (j_version job)) (Some version) (Some reason));
  mret version.

(** ** Proofs about containers *)

Inductive CleanupProof :=
| NoContainerProof (startup_nonce : string) (executor_operation_sequence tombstone_sequence : Z)
| ContainerStoppedProof (startup_nonce : string) (executor_operation_sequence : Z)
    (container : ContainerRef) (stopped_at : Z).

Definition proof_nonce (p : CleanupProof) : string :=
  match p with NoContainerProof n _ _ | ContainerStoppedProof n _ _ _ => n end.
Definition proof_sequence (p : CleanupProof) : Z :=
  match p with NoContainerProof _ s _ | ContainerStoppedProof _ s _ _ => s end.

Definition _container (attempt_id : string) : Tx (option ContainerRow) :=
  found ← select T_container_identities (λ c, bool_decide (ci_attempt_id c = attempt_id));
  one_or_none found.

Definition same_container (c : ContainerRef) (row : ContainerRow) : bool :=
  bool_decide (ct_container_id c = ci_container_id row) &&
  bool_decide (ct_runtime_identity_digest c = ci_runtime_identity_digest row).

(** [x or 1] on an optional number: zero is falsy. *)
Definition sequence_or_one (s : option Z) : Z :=
  match s with Some n => if n =? 0 then 1 else n | None => 1 end.

Definition _proof_valid (attempt : AttemptRow) (container : option ContainerRow) (proof : CleanupProof) : bool :=
  if negb (bool_decide (proof_nonce proof = at_startup_nonce attempt)) then false
  else if proof_sequence proof <? sequence_or_one (at_executor_operation_sequence attempt) then false
  else match proof with
       | NoContainerProof _ sequence tombstone =>
           is_none container && is_none (at_started_at attempt) && (sequence <=? tombstone)
       | ContainerStoppedProof _ sequence c stopped_at =>
           match container with
           | None => false
           | Some row =>
               same_container c row && (ci_executor_create_sequence row <=? sequence) &&
               (ci_created_at row <=? stopped_at)
           end
       end.

(** ** Checkpoints that can be restored *)

Definition restorable (db : DB) (job_id : string) (c : CheckpointRow) : bool :=
  bool_decide (cp_job_id c = job_id)
  || existsb (λ f, bool_decide (cf_target_job_id f = job_id) &&
                   bool_decide (cf_source_checkpoint_id f = cp_checkpoint_id c))
       (rows db T_checkpoint_references).

Definition corrupt (db : DB) (c : CheckpointRow) : bool :=
  existsb (λ x, bool_decide (cx_checkpoint_id x = cp_checkpoint_id c)) (rows db T_checkpoint_corruptions).

Definition _committed_checkpoint (job_id : string) (attempt_id : option string) : Tx bool := λ db,
  (Ret (existsb (λ c, restorable db job_id c && bool_decide (cp_state c = "COMMITTED")
                   && negb (corrupt db c)
                   && match attempt_id with
                      | Some a => bool_decide (cp_attempt_id c = a)
                      | None => true
                      end) (rows db T_checkpoints)), db).

(** ** Failure *)

Inductive Observation :=
| NoContainerObservation (proof : CleanupProof)
| ContainerObservation (container : ContainerRef) (observed_at : Z) (oom_killed runtime_limit_reached : bool).

Record FailureRequest := {
  fr_authority : Authority;
  fr_failure_class : string;
  fr_reason_code : string;
  fr_observation : Observation;
}.

Section secrets.
Variable sha256 : string → string.

(** What the observation must agree with; a container seen before the start
    callback was accepted is bound to the attempt here. *)
Definition check_observation (h : CallbackHeader) (request : FailureRequest) (r : AuthorityRows) : Tx () :=
  let attempt := ar_attempt r in
  let job := ar_job r in
  container ← _container (h_attempt_id h);
  match fr_observation request with
  | NoContainerObservation proof =>
      _ ← se_when (negb (_proof_valid attempt container proof)) (state_conflict identity_message);
      se_when (bool_decide (fr_failure_class request = "OOM"))
        (state_conflict "Failure class contradicts observation")
  | ContainerObservation c observed_at oom_killed runtime_limit_reached =>
      container ←
        (if is_none container && bool_decide (at_state attempt = AS_CLAIMED)
            && is_none (at_started_at attempt) && bool_decide (j_state job = JS_DISPATCHING)
            && (at_created_at attempt <=? observed_at) && (observed_at <=? h_now h + seconds 5)
         then
           _ ← insert T_container_identities
                 (MkContainerRow (j_tenant_id job) (j_job_id job) (h_attempt_id h)
                    (al_allocation_id (ar_allocation r)) (at_startup_nonce attempt)
                    (sequence_or_one (at_executor_operation_sequence attempt)) (ct_container_id c)
                    (ct_runtime_identity_digest c) observed_at None None);
           _container (h_attempt_id h)
         else mret container);
      _ ← se_when (match container with None => true | Some row => negb (same_container c row) end)
            (state_conflict identity_message);
      let runtime_timeout :=
        bool_decide (fr_failure_class request = "TIMEOUT") &&
        bool_decide (fr_reason_code request = "RUNTIME_LIMIT_REACHED") in
      se_when (negb (eqb (bool_decide (fr_failure_class request = "OOM")) oom_killed)
            || negb (eqb runtime_timeout runtime_limit_reached))
        (state_conflict "Failure class contradicts observation")
  end.

Definition fail_attempt (h : CallbackHeader) (request : FailureRequest) : Tx Ack :=
  let worker_id := h_worker_id h in
  let attempt_id := h_attempt_id h in
  let authority := fr_authority request in
  '(receipt, replay) ← _begin_callback worker_id "workerFailAttempt" (h_callback_id h) (h_payload_hash h);
  '(mode, _) ← _lock_policy_counters attempt_id;
  worker ← _worker_auth sha256 worker_id (h_credential h) (h_auth_time h);
  _ ← _require_current_incarnation worker (a_worker_incarnation_id authority) false;
  _ ← se_when (negb (bool_decide (a_attempt_id authority = attempt_id))
            || negb (bool_decide (a_worker_id authority = worker_id)))
        (state_conflict identity_message);
  match replay with
  | Some replay => mret replay
  | None =>
      _ ← se_when (bool_decide (mode = WRITE_FROZEN)) (state_conflict "Writes are frozen");
      r ← _authority_rows authority worker_id;
      let now := h_now h in
      let job := ar_job r in
      let attempt := ar_attempt r in
      _ ← se_when (negb (bool_decide (j_state job ∈ [JS_DISPATCHING; JS_RUNNING; JS_PAUSING]))
                || negb (bool_decide (al_state (ar_allocation r) = AL_HELD))
                || negb (live_lease (ar_lease r)) || (le_expires_at (ar_lease r) <=? now))
            (stale_authority "Failure authority is stale");
      _ ← se_when (bool_decide (at_state attempt = AS_STOPPING)) (stale_authority "Attempt is already stopping");
      _ ← se_when (negb (bool_decide (at_state attempt ∈ _FAILABLE_ATTEMPT_STATES)))
            (state_conflict "Attempt cannot fail in its state");
      reasons ← (match dict_get (fr_failure_class request) _FAILURE_REASONS with
                 | Some reasons => mret reasons
                 | None => se_raise (PyError (Exn "KeyError" (fr_failure_class request)))
                 end);
      _ ← se_when (negb (bool_decide (fr_reason_code request ∈ reasons)))
            (ApplicationError "validation_failed" 422 "Unknown failure reason");
      _ ← check_observation h request r;
      _ ← update_ T_attempts (has_attempt attempt_id)
            (λ a, a <| at_state := AS_STOPPING |> <| at_failure_class := Some (fr_failure_class request) |>
                    <| at_failure_reason := Some (fr_reason_code request) |>);
      _ ← update_ T_attempt_leases (has_lease (le_lease_id (ar_lease r)))
            (λ l, l <| le_revoked_at := Some now |>);
      _ ← update_ T_attempt_authority_grants
            (λ g, bool_decide (gr_grant_id g = gr_grant_id (ar_grant r)))
            (λ g, g <| gr_ended_at := Some now |>);
      _ ← update_ T_allocations
            (λ a, bool_decide (al_allocation_id a = al_allocation_id (ar_allocation r)))
            (λ a, a <| al_state := AL_QUARANTINED |> <| al_quarantined_at := Some now |>);
      version ← _event job worker_id "ATTEMPT_FAILED" (fr_reason_code request) false
                  (λ j, j <| j_state := JS_RECOVERING |> <| j_job_fence := j_job_fence job + 1 |>);
      _ ← abandon_results attempt_id;
      _ ← abandon_checkpoints attempt_id now;
      let response := AckFail (h_callback_id h) now JS_RECOVERING version in
      _ ← _complete_callback receipt response;
      mret response
  end.

(** ** Verified cleanup *)

Record CleanupRequest := {
  cl_worker_id : string;
  cl_worker_incarnation_id : string;
  cl_attempt_id : string;
  cl_allocation_id : string;
  cl_job_fence : Z;
  cl_proof : CleanupProof;
}.

(** [idempotency_terminal_retention_days] is the number of days. *)
Definition extend_retention (job_id : string) (terminal_at retention_days : Z) : Tx () :=
  update_ T_idempotency_records (λ r, bool_decide (id_resource_id r = Some job_id))
    (λ r, r <| id_expires_at := Z.max (id_expires_at r) (terminal_at + seconds (86400 * retention_days)) |>).

Definition _store_cleanup_acknowledgment (receipt : option string) (replay : option Ack)
    (worker_id callback_id : string) (response : Ack) : Tx () :=
  match replay with
  | None => _complete_callback receipt response
  | Some _ =>
      count ← update T_callback_receipts
                (λ r, same_callback worker_id "workerReportCleanup" callback_id r &&
                      bool_decide (cr_acknowledgment r = replay))
                (λ r, r <| cr_acknowledgment := Some response |>);
      se_when (negb (count =? 1)) (RuntimeError "Pending cleanup receipt was not promoted")
  end.

(** What becomes of a recovering job: the state it enters and the changes to its row. *)
Record Recovery := { next_state : JobState; recovery_changes : JobRow → JobRow; retry : option ScheduleRow }.

Definition recover (job : JobRow) (attempt : AttemptRow) (restart_safe checkpointed : bool)
    (now jitter_ms : Z) : Recovery :=
  let infrastructure := bool_decide (at_failure_class attempt = Some "INFRASTRUCTURE") in
  let paused := bool_decide (j_desired_state job = DS_PAUSED) in
  if infrastructure && paused && checkpointed then
    {| next_state := JS_PAUSED;
       recovery_changes := λ r, r <| j_recovery_intent := None |> <| j_waiting_reason := None |>;
       retry := None |}
  else if infrastructure && (j_retry_count job <? j_max_retries job)
          && (restart_safe || (checkpointed && negb paused)) then
    let number := j_retry_count job + 1 in
    let ready_at := now + seconds (Z.min 30 (2 ^ (number - 1))) + jitter_ms * 1000 in
    {| next_state := JS_RETRY_WAIT;
       recovery_changes := λ r,
         (if paused then r <| j_recovery_intent := Some "CHECKPOINT_FOR_PAUSE" |> else r)
           <| j_retry_count := number |> <| j_retry_ready_at := Some ready_at |>
           <| j_waiting_reason := Some "waiting_for_retry" |>;
       retry := Some (MkScheduleRow (j_job_id job) (j_tenant_id job) number ready_at jitter_ms
                        "INFRASTRUCTURE" None) |}
  else {| next_state := JS_FAILED; recovery_changes := λ r, r; retry := None |}.

Definition end_attempt (attempt_id : string) (st : AttemptState) (now : Z) : Tx () :=
  update_ T_attempts (has_attempt attempt_id)
    (λ a, a <| at_state := st |> <| at_ended_at := Some now |>).

(** The branches on the job's state: the next state and the changes to the row. *)
Definition settle_job (job : JobRow) (attempt : AttemptRow) (now jitter_ms : Z)
    : Tx (JobState * (JobRow → JobRow)) :=
  let attempt_id := at_attempt_id attempt in
  match j_state job with
  | JS_CANCELLING => mret (JS_CANCELLED, λ r, r)
  | JS_PAUSING =>
      _ ← update_ T_attempts (has_attempt attempt_id)
            (λ a, a <| at_state := AS_CANCELLED |> <| at_failure_reason := Some "PAUSE" |>
                    <| at_ended_at := Some now |>);
      _ ← abandon_results attempt_id;
      mret (JS_PAUSED, λ r, r <| j_recovery_intent := None |> <| j_waiting_reason := None |>)
  | JS_RECOVERING =>
      specs ← select T_job_specs (λ s, bool_decide (sp_job_id s = j_job_id job));
      templates ← select T_template_versions (λ t,
        existsb (λ s, bool_decide (sp_template_id s = tv_template_id t)
                   && (sp_template_version s =? tv_version t)) specs);
      template ← one templates;
      checkpointed ← _committed_checkpoint (j_job_id job) None;
      let decided := recover job attempt (tv_restart_safe template) checkpointed now jitter_ms in
      _ ← match retry decided with
          | Some schedule => insert T_retry_schedules schedule
          | None => mret ()
          end;
      _ ← end_attempt attempt_id
            (if bool_decide (at_state attempt = AS_LOST) then AS_LOST else AS_FAILED) now;
      mret (next_state decided, recovery_changes decided)
  | st => mret (st, λ r, r)
  end.

(** From the accounting on: the allocation is released, the job settled, and the
    attempt's lease and grant ended. *)
Definition release_attempt (h : CallbackHeader) (request : CleanupRequest) (counters : list CounterRow)
    (job : JobRow) (attempt : AttemptRow) (lease : LeaseRow) (container : option ContainerRow)
    (jitter_ms retention_days clock : Z) : Tx () :=
  let attempt_id := h_attempt_id h in
  let now := h_now h in
  _ ← account_locked now clock;
  _ ← update_ T_allocations (λ a, bool_decide (al_allocation_id a = cl_allocation_id request))
        (λ a, a <| al_state := AL_RELEASED |> <| al_released_at := Some now |>
                <| al_release_reason := Some "VERIFIED_CLEANUP" |>);
  _ ← update_ T_allocation_gpu_claims (λ c, bool_decide (gc_allocation_id c = cl_allocation_id request))
        (λ c, c <| gc_released_at := Some now |>);
  '(next, changes) ← settle_job job attempt now jitter_ms;
  _ ← (if bool_decide (next = JS_CANCELLED) && negb (bool_decide (j_state job ∈ _TERMINAL))
       then end_attempt attempt_id (if bool_decide (at_state attempt = AS_LOST) then AS_LOST else AS_CANCELLED) now
       else mret ());
  let terminalized := bool_decide (next ∈ _TERMINAL) && negb (bool_decide (j_state job ∈ _TERMINAL)) in
  _ ← _adjust_counters counters (if terminalized then 1 else 0) 1;
  _ ← (if terminalized then extend_retention (j_job_id job) now retention_days else mret ());
  _ ← rebase_locked now;
  _ ← match container, cl_proof request with
      | Some _, ContainerStoppedProof _ _ _ stopped_at =>
          update_ T_container_identities (λ c, bool_decide (ci_attempt_id c = attempt_id))
            (λ c, c <| ci_stopped_at := Some stopped_at |> <| ci_verified_at := Some now |>)
      | _, _ => mret ()
      end;
  _ ← (if live_lease lease
       then update_ T_attempt_leases (has_lease (le_lease_id lease)) (λ l, l <| le_revoked_at := Some now |>)
       else mret ());
  _ ← update_ T_attempt_authority_grants (of_attempt_grant attempt_id) (λ g, g <| gr_ended_at := Some now |>);
  _ ← _event job (h_worker_id h) "ALLOCATION_RELEASED" "VERIFIED_CLEANUP" false
        (λ r, let r := changes r in
              let r := if terminalized
                       then r <| j_recovery_intent := None |> <| j_terminal_at := Some now |>
                       else r in
              r <| j_state := next |>);
  mret ().

(** [replay is not None and replay["verified"]]. *)
Definition verified_replay (replay : option Ack) : option Ack :=
  match replay with
  | Some (AckCleanup _ true _ _) => replay
  | _ => None
  end.

Definition report_cleanup (h : CallbackHeader) (request : CleanupRequest) (jitter_ms retention_days clock : Z)
    : Tx Ack :=
  let worker_id := h_worker_id h in
  let attempt_id := h_attempt_id h in
  '(receipt, replay) ← _begin_callback worker_id "workerReportCleanup" (h_callback_id h) (h_payload_hash h);
  '(mode, counters) ← _lock_policy_counters attempt_id;
  _ ← _worker_auth sha256 worker_id (h_credential h) (h_auth_time h);
  _ ← se_when (negb (bool_decide (cl_worker_id request = worker_id))
            || negb (bool_decide (cl_attempt_id request = attempt_id)))
        (state_conflict identity_message);
  attempts ← select T_attempts (has_attempt attempt_id);
  attempt ← one attempts;
  jobs ← select T_jobs (is_job (at_job_id attempt));
  job ← one jobs;
  leases ← select T_attempt_leases (λ l, bool_decide (le_attempt_id l = attempt_id));
  lease ← one leases;
  allocations ← select T_allocations (λ a, bool_decide (al_allocation_id a = cl_allocation_id request));
  allocation ← one_or_none allocations;
  grants ← select T_attempt_authority_grants (λ g,
    bool_decide (gr_attempt_id g = attempt_id) && bool_decide (gr_worker_id g = worker_id)
    && bool_decide (gr_worker_incarnation_id g = Some (cl_worker_incarnation_id request))
    && bool_decide (gr_allocation_id g = cl_allocation_id request)
    && (gr_job_fence g =? cl_job_fence request));
  lineage ← one_or_none grants;
  match allocation with
  | None => _conflict identity_message
  | Some allocation =>
      _ ← se_when (is_none lineage || negb (bool_decide (at_worker_id attempt = worker_id))
                || negb (at_job_fence attempt =? cl_job_fence request)
                || negb (bool_decide (al_attempt_id allocation = attempt_id)))
            (state_conflict identity_message);
      container ← _container attempt_id;
      _ ← se_when (negb (_proof_valid attempt container (cl_proof request))) (state_conflict identity_message);
      match verified_replay replay with
      | Some verified => mret verified
      | None =>
          let now := h_now h in
          let response := AckCleanup (h_callback_id h) true AL_RELEASED now in
          _ ← se_when (bool_decide (mode = WRITE_FROZEN)) (state_conflict "Writes are frozen");
          if bool_decide (al_state allocation = AL_RELEASED) then
            _ ← _store_cleanup_acknowledgment receipt replay worker_id (h_callback_id h) response;
            mret response
          else
            _ ← se_when (negb (bool_decide (j_state job ∈ _TERMINAL ++ [JS_RECOVERING; JS_CANCELLING; JS_PAUSING])))
                  (state_conflict "Failure or completion must be committed before cleanup");
            own_checkpoint ← _committed_checkpoint (j_job_id job) (Some attempt_id);
            _ ← se_when (bool_decide (j_state job = JS_PAUSING)
                      && negb (bool_decide (j_desired_state job = DS_PAUSED)
                               && bool_decide (at_state attempt = AS_STOPPING) && own_checkpoint))
                  (state_conflict "Pause checkpoint is not committed");
            if bool_decide (j_state job = JS_RECOVERING) && is_none (at_failure_class attempt) then
              let unverified := AckCleanup (h_callback_id h) false (al_state allocation) now in
              match replay with
              | Some replay => mret replay
              | None => _ ← _complete_callback receipt unverified; mret unverified
              end
            else
              _ ← release_attempt h request counters job attempt lease container jitter_ms retention_days clock;
              _ ← _store_cleanup_acknowledgment receipt replay worker_id (h_callback_id h) response;
              mret response
      end
  end.
End secrets.
