(* ===== verification/Retry.v ===== *)
(** * Retry promotion

    [src/nexa/coordinator/retry.py]: a job that waits for its retry re-enters the
    queue once its backoff elapsed, unless nothing it could run on is there or its
    tenant's limits no longer admit it; with [JobService._counter_lock] of
    [src/nexa/application/job_service.py]. *)

From S2P Require Import Prelude PyDecimal PyValue Database Ledger Authority Capabilities Eligibility Dispatch Cleanup.

Local Open Scope string_scope.
Local Open Scope list_scope.
Local Open Scope Z_scope.

Definition BATCH_SIZE : nat := 16.
Definition _BLOCKED : list string := ["waiting_for_compatibility"; "waiting_for_quota"].
Definition _PROMOTABLE : list (DesiredState * option string) :=
  [(DS_RUNNING, None); (DS_PAUSED, Some "CHECKPOINT_FOR_PAUSE")].

(** A job of a retry schedule that is due. *)
Definition _due (now : Z) (job : JobRow) (schedule : ScheduleRow) : bool :=
  is_none (rt_closed_at schedule) && (rt_ready_at schedule <=? now) && (rt_retry_number schedule =? j_retry_count job)
  && bool_decide (j_state job = JS_RETRY_WAIT)
  && ((bool_decide (j_desired_state job = DS_RUNNING) && is_none (j_recovery_intent job))
      || (bool_decide (j_desired_state job = DS_PAUSED)
          && bool_decide (j_recovery_intent job = Some "CHECKPOINT_FOR_PAUSE"))).

(** [ORDER BY waiting_reason IN (..)]: false, then true, then null. *)
Definition blocked_rank (job : JobRow) : Z :=
  match j_waiting_reason job with
  | None => 2
  | Some reason => if bool_decide (reason ∈ _BLOCKED) then 1 else 0
  end.
Definition candidate_leb (a b : JobRow * ScheduleRow) : bool :=
  let '(j, s) := a in
  let '(j', s') := b in
  (blocked_rank j <? blocked_rank j')
  || ((blocked_rank j =? blocked_rank j')
      && ((rt_ready_at s <? rt_ready_at s')
          || ((rt_ready_at s =? rt_ready_at s') && String.leb (rt_job_id s) (rt_job_id s')))).

Definition _candidates (now : Z) (limit : nat) : Tx (list JobRow) :=
  jobs ← select T_jobs (λ _, true);
  schedules ← select T_retry_schedules (λ _, true);
  mret (fst <$> take limit (py_sorted candidate_leb
          (mjoin ((λ j, (λ s, (j, s)) <$>
             List.filter (λ s, bool_decide (rt_job_id s = j_job_id j) && _due now j s) schedules) <$> jobs)))).

Definition _worker : Tx (option (WorkerRow * option InventoryRow)) :=
  workers ← select T_workers (λ _, true);
  match workers with
  | [worker] =>
      found ← select T_worker_inventories (λ r,
        bool_decide (in_worker_id r = wk_worker_id worker)
        && bool_decide (Some (in_inventory_version r) = wk_current_inventory_version worker)
        && bool_decide (Some (in_worker_incarnation_id r) = wk_current_incarnation_id worker));
      inventory ← one_or_none found;
      mret (Some (worker, inventory))
  | _ => mret None
  end.

(** The columns of an inventory that compatibility reads. *)
Definition inventory_document (r : InventoryRow) : list (string * pyval) :=
  [("architecture", VStr (in_architecture r)); ("workload_capabilities", in_workload_capabilities r)].

Definition job_template (spec : SpecRow) : Tx (option Template) :=
  versions ← select T_template_versions (λ t,
    bool_decide (tv_template_id t = sp_template_id spec) && (tv_version t =? sp_template_version spec));
  families ← select T_templates (λ f, bool_decide (tf_template_id f = sp_template_id spec));
  one_or_none (mjoin ((λ v, (λ f, (v, tf_enabled f)) <$> families) <$> versions)).

Definition _blocked_reason (job : JobRow) (inventory : option InventoryRow) : Tx (option string) :=
  specs ← select T_job_specs (λ r, bool_decide (sp_job_id r = j_job_id job));
  spec ← one specs;
  incompatible ← match inventory with
    | None => mret false
    | Some inventory =>
        template ← job_template spec;
        if negb (sp_gpu_count spec =? 0) || (in_allocatable_cpu_millis inventory <? sp_cpu_millis spec)
           || (in_allocatable_memory_bytes inventory <? sp_memory_bytes spec)
        then mret true
        else
          compatible ← se_lift (_compatible template (Some (inventory_document inventory)));
          mret (negb compatible)
    end;
  if (incompatible : bool) then mret (Some "waiting_for_compatibility")
  else
    policies ← select T_tenant_policies (λ p, bool_decide (tq_tenant_id p = j_tenant_id job) && tq_is_current p);
    policy ← one_or_none policies;
    mret match policy with
         | None => Some "waiting_for_quota"
         | Some p =>
             if (tq_cpu_limit_millis p <? sp_cpu_millis spec) || (tq_memory_limit_bytes p <? sp_memory_bytes spec)
                || (tq_gpu_limit p <? sp_gpu_count spec)
             then Some "waiting_for_quota" else None
         end.

(** The first job the batch would write to. *)
Fixpoint any_actionable (jobs : list JobRow) (inventory : option InventoryRow) : Tx bool :=
  match jobs with
  | [] => mret false
  | job :: jobs =>
      blocked ← _blocked_reason job inventory;
      if is_none blocked || negb (bool_decide (blocked = j_waiting_reason job)) then mret true
      else any_actionable jobs inventory
  end.

Definition retry_actionable (now : Z) (limit : nat) : Tx bool :=
  candidates ← _candidates now limit;
  if (length candidates =? 0)%nat then mret false
  else
    worker ← _worker;
    any_actionable candidates (worker ≫= snd).

(** [JobService._counter_lock]. *)
Definition _counter_lock (scope_type scope_id : string) : Tx CounterRow :=
  _ ← insert_new T_admission_counters (scope_row (scope_type, scope_id)) (MkCounterRow scope_type scope_id 0 0 1 None);
  found ← select T_admission_counters (scope_row (scope_type, scope_id));
  one found.

(** One round of the loop: whether the job was promoted. *)
Definition promote_job (now : Z) (holder_id : string) (inventory : option InventoryRow) (ready : bool) (sequence : Z)
    (job_id : string) : Tx bool :=
  jobs ← select T_jobs (is_job job_id);
  job ← one jobs;
  schedules ← select T_retry_schedules (λ s, bool_decide (rt_job_id s = job_id) && (rt_retry_number s =? j_retry_count job));
  schedule ← one_or_none schedules;
  match schedule with
  | None => mret false
  | Some schedule =>
      if negb (is_none (rt_closed_at schedule)) || (now <? rt_ready_at schedule)
         || negb (bool_decide (j_state job = JS_RETRY_WAIT))
         || negb (bool_decide ((j_desired_state job, j_recovery_intent job) ∈ _PROMOTABLE))
      then mret false
      else
        blocked ← _blocked_reason job inventory;
        match blocked with
        | Some reason =>
            _ ← (if bool_decide (j_waiting_reason job = Some reason) then mret ()
                 else Dispatch._event (Some job) holder_id "RETRY_BLOCKED" (Some reason) false
                        (λ r, r <| j_waiting_reason := Some reason |>));
            mret false
        | None =>
            closed ← update T_retry_schedules
                       (λ s, bool_decide (rt_job_id s = job_id) && (rt_retry_number s =? rt_retry_number schedule)
                             && is_none (rt_closed_at s))
                       (λ s, s <| rt_closed_at := Some now |>);
            _ ← se_when (negb (closed =? 1)) (RuntimeError "retry promotion lost its compare-and-set");
            _ ← Dispatch._event (Some job) holder_id "RETRY_READY" (Some "BACKOFF_ELAPSED") false
                  (λ r, r <| j_state := JS_QUEUED |> <| j_ready_sequence := sequence |>
                          <| j_waiting_reason := if ready then None else Some "waiting_for_worker" |>);
            mret true
        end
  end.

Fixpoint promote_jobs (now : Z) (holder_id : string) (inventory : option InventoryRow) (ready : bool)
    (sequence promoted : Z) (job_ids : list string) : Tx (Z * Z) :=
  match job_ids with
  | [] => mret (sequence, promoted)
  | job_id :: job_ids =>
      done ← promote_job now holder_id inventory ready sequence job_id;
      if (done : bool) then promote_jobs now holder_id inventory ready (sequence + 1) (promoted + 1) job_ids
      else promote_jobs now holder_id inventory ready sequence promoted job_ids
  end.

Definition promote_due_locked (now : Z) (holder_id : string) (limit : nat) : Tx Z :=
  due ← _candidates now limit;
  let job_ids := py_sorted String.leb (j_job_id <$> due) in
  if (length job_ids =? 0)%nat then mret 0
  else
    counter ← _counter_lock "GLOBAL" "global";
    worker ← _worker;
    let ready := match worker with Some (w, _) => _worker_is_ready w now | None => false end in
    '(sequence, promoted) ← promote_jobs now holder_id (worker ≫= snd) ready (ac_version counter) 0 job_ids;
    _ ← (if promoted =? 0 then mret ()
         else update_ T_admission_counters (scope_row ("GLOBAL", "global")) (λ r, r <| ac_version := sequence |>));
    mret promoted.
