(* ===== verification/Snapshot.v ===== *)
(** * Reading a scheduling snapshot

    [src/nexa/coordinator/snapshot.py]: [read_snapshot] maps the database to the
    snapshot the policy decides on, with a bounded window of candidates per tenant
    ([Windows]), and [persist_fairness_locked] writes the fairness state back.

    A tenant whose queued sizes fall into several cells of its quota staircase is read
    per user and cell, each cell with its own time from which ages count; the windows
    of its cells are merged.  The derived tables [queue_heads], [queue_submitters],
    [queue_request_sizes] and [quota_headroom_steps] are kept by triggers of the
    database and are read as they are. *)

From stdpp Require Import pretty.
From S2P Require Import Prelude PyDecimal Scheduling Accounting PyValue Database Sorting Ledger Windows Authority Capabilities.
From S2P Require Import Eligibility Dispatch Cleanup Retry.

Local Open Scope string_scope.
Local Open Scope list_scope.
Local Open Scope Z_scope.

(** ** The quota staircase *)

(** The sizes above a lower and up to an upper bound, and when they last fitted again. *)
Definition Interval : Type := Z * Z * option Z.
(** A rectangle of (cpu, memory) sizes: bounds and time. *)
Definition Cell : Type := Z * Z * Z * Z * option Z.

Definition cell_resume (c : Cell) : option Z := c.2.
Definition in_cell (c : Cell) (cpu memory : Z) : bool :=
  let '(cpu_lower, cpu_upper, memory_lower, memory_upper, _) := c in
  (cpu_lower <? cpu) && (cpu <=? cpu_upper) && (memory_lower <? memory) && (memory <=? memory_upper).

(** The latest of the times that are set. *)
Definition later (a b : option Z) : option Z :=
  match a, b with Some x, Some y => Some (Z.max x y) | Some x, None => Some x | None, b => b end.
Definition latest (values : list (option Z)) : option Z := foldr later None values.

(** The loop of [_quota_intervals]; [intervals] in reverse. *)
Fixpoint quota_steps (limit lower : Z) (intervals : list Interval) (steps : list (Z * option Z)) : list Interval :=
  match steps with
  | [] => reverse intervals
  | (upper, resumed_at) :: steps =>
      if limit <=? lower then reverse intervals
      else
        let upper := Z.min upper limit in
        let intervals :=
          match intervals with
          | (first, _, at') :: rest =>
              if bool_decide (at' = resumed_at) then (first, upper, resumed_at) :: rest
              else (lower, upper, resumed_at) :: intervals
          | [] => [(lower, upper, resumed_at)]
          end in
        quota_steps limit upper intervals steps
  end.
Definition _quota_intervals (steps : list (Z * option Z)) (limit : Z) : list Interval := quota_steps limit (-1) [] steps.

Definition _quota_cells (cpu_steps memory_steps : list (Z * option Z)) (max_cpu max_memory : Z) : list Cell :=
  mjoin ((λ c : Interval, (λ m : Interval, (c.1.1, c.1.2, m.1.1, m.1.2, latest [c.2; m.2])) <$>
           _quota_intervals memory_steps max_memory) <$> _quota_intervals cpu_steps max_cpu).

(** The cells of a tenant that hold a queued size. *)
Definition _populated_cells (sizes : list RequestSizeRow) (tenant_id : string) (cells : list Cell) : list Cell :=
  List.filter (λ c, existsb (λ z, bool_decide (qz_tenant_id z = tenant_id) && in_cell c (qz_cpu_millis z) (qz_memory_bytes z)) sizes)
    cells.

(** ** One tenant *)

(** The window reads of one tenant.  [pr_groups] are its readings per user and cell,
    with the time from which each counts; it is empty for a tenant read at once. *)
Record Prepared := {
  pr_limit : TenantPolicyRow;
  pr_tenant_active : Z;
  pr_enabled : bool;
  pr_users : list string;
  pr_query : list QueueRow;
  pr_cursor : option Cursor;
  pr_bounds : Z * Z * Z * Z;
  pr_cells : list Cell;
  pr_no_resume : bool;
  pr_resume_at : option Z;
  pr_tenant_resume : option Z;
}.

Definition find_key {A} (key : WindowKey) (l : list (WindowKey * A)) : option A :=
  snd <$> head (List.filter (λ item, bool_decide (item.1 = key)) l).

Definition counter_of (counters : list CounterRow) (scope : string * string) : option CounterRow :=
  last (List.filter (scope_row scope) counters).
Definition active_attempts_of (counters : list CounterRow) (scope : string * string) : Z :=
  match counter_of counters scope with Some c => ac_active_attempts c | None => 0 end.
Definition resumed_at_of (counters : list CounterRow) (scope : string * string) : option Z :=
  match counter_of counters scope with Some c => ac_eligible_resumed_at c | None => None end.

Section snapshot.
Context (now : Z) (jobs : list JobRow) (specs : list SpecRow) (counters : list CounterRow) (tenants : list TenantRow)
  (held_rows : list AllocationRow) (heads : list QueueHeadRow) (queue_submitters : list QueueSubmitterRow)
  (headroom : list HeadroomStepRow) (sizes : list RequestSizeRow) (compatible : list (string * Z)) (capacity : Resources)
  (pending_tenants : list string) (cursors : list (string * Cursor)) (active : option ReservationRow).

Definition user_scope (tenant_id user_id : string) : string * string := ("USER", tenant_id +:+ ":" +:+ user_id).

(** The steps of one resource, in the order of their bounds. *)
Definition tenant_steps (tenant_id resource : string) : list (Z * option Z) :=
  (λ r, (qt_upper_bound r, qt_resumed_at r)) <$>
    py_sorted (λ a b, qt_upper_bound a <=? qt_upper_bound b)
      (List.filter (λ r, bool_decide (qt_tenant_id r = tenant_id) && bool_decide (qt_resource r = resource)) headroom).

Definition sum_by {A} (f : A → Z) (l : list A) : Z := foldr (λ a s, f a + s) 0 l.

(** [fit_limits]: what the tenant's limits leave beside what it holds. *)
Definition fit_limits (limit : TenantPolicyRow) : Z * Z :=
  let owned := List.filter (λ r, bool_decide (al_tenant_id r = tq_tenant_id limit)) held_rows in
  (Z.min (cpu_millis capacity) (tq_cpu_limit_millis limit - sum_by al_cpu_millis owned),
   Z.min (memory_bytes capacity) (tq_memory_limit_bytes limit - sum_by al_memory_bytes owned)).

Definition submitters_of (tenant_id : string) : list string :=
  qu_user_id <$> List.filter (λ r, bool_decide (qu_tenant_id r = tenant_id)) queue_submitters.

(** [base_query] with its bounds. *)
Definition base_where (tenant_id : string) (bounds : Z * Z * Z * Z) (j : JobRow) (s : SpecRow) : bool :=
  let '(min_cpu, max_cpu, min_memory, max_memory) := bounds in
  bool_decide (j_tenant_id j = tenant_id) && bool_decide (j_state j = JS_QUEUED)
  && negb (is_none (j_eligible_since j)) && (is_none (j_retry_ready_at j) || col_le (j_retry_ready_at j) now)
  && bool_decide ((sp_template_id s, sp_template_version s) ∈ compatible) && (sp_gpu_count s =? 0)
  && (min_cpu <? sp_cpu_millis s) && (sp_cpu_millis s <=? max_cpu)
  && (min_memory <? sp_memory_bytes s) && (sp_memory_bytes s <=? max_memory).

Definition prepare (limit : TenantPolicyRow) : outcome SvcError Prepared :=
  let tenant_id := tq_tenant_id limit in
  let tenant_active := active_attempts_of counters ("TENANT", tenant_id) in
  let '(max_cpu, max_memory) := fit_limits limit in
  let cells := _populated_cells sizes tenant_id
                 (_quota_cells (tenant_steps tenant_id "cpu") (tenant_steps tenant_id "memory") max_cpu max_memory) in
  let '(bounds, quota_resume) :=
    match cells with
    | [(a, b, c, d, at')] => ((a, b, c, d), at')
    | _ => ((-1, max_cpu, -1, max_memory), None)
    end in
  match last (List.filter (λ t, bool_decide (tn_tenant_id t = tenant_id)) tenants) with
  | None => Raise (PyError (Exn "KeyError" tenant_id))
  | Some tenant =>
      let enabled := tn_enabled tenant && negb (bool_decide (tenant_id ∈ pending_tenants)) && negb (bool_decide (cells = [])) in
      let tenant_resume := latest [resumed_at_of counters ("TENANT", tenant_id); quota_resume] in
      let submitters := submitters_of tenant_id in
      let user_resumes := (λ u, resumed_at_of counters (user_scope tenant_id u)) <$> submitters in
      let resume_at := match user_resumes with [user_resume] => latest [tenant_resume; user_resume] | _ => None end in
      let no_resume := is_none tenant_resume && forallb is_none user_resumes in
      let effective_since j :=
        if no_resume then j_eligible_since j
        else match submitters with
             | [_] => latest [j_eligible_since j; resume_at]
             | _ => latest [j_eligible_since j; tenant_resume;
                            resumed_at_of counters (user_scope (j_tenant_id j) (j_submitter_user_id j))]
             end in
      let users := List.filter (λ u, active_attempts_of counters (user_scope tenant_id u) <? tq_user_active_limit limit) submitters in
      let query :=
        joined jobs specs (λ j s, base_where tenant_id bounds j s && enabled
                                  && negb (tq_tenant_active_limit limit <=? tenant_active)
                                  && (bool_decide (users = []) || bool_decide (j_submitter_user_id j ∈ users)))
          effective_since in
      Ret {| pr_limit := limit; pr_tenant_active := tenant_active; pr_enabled := enabled; pr_users := users;
             pr_query := query; pr_cursor := dict_get tenant_id cursors; pr_bounds := bounds; pr_cells := cells;
             pr_no_resume := no_resume; pr_resume_at := resume_at; pr_tenant_resume := tenant_resume |}
  end.

(** The tenant may be read at all. *)
Definition readable (p : Prepared) : bool :=
  negb (bool_decide (pr_users p = [])) && pr_enabled p && (pr_tenant_active p <? tq_tenant_active_limit (pr_limit p)).

Definition descriptor (p : Prepared) (bounds : Z * Z * Z * Z) (users : list string) (resume_at : option Z)
    (group : option (string * Z * option Cursor)) : Descriptor :=
  let '(a, b, c, d) := bounds in
  {| qd_tenant_id := tq_tenant_id (pr_limit p); qd_min_cpu := a; qd_max_cpu := b; qd_min_memory := c; qd_max_memory := d;
     qd_users := users; qd_resume_at := resume_at; qd_group := group |}.

Definition plain_descriptors (prepared : list Prepared) : list Descriptor :=
  (λ p, descriptor p (pr_bounds p) (pr_users p) None None) <$>
    List.filter (λ p, readable p && bool_decide (length (pr_cells p) = 1%nat) && pr_no_resume p && is_none (pr_cursor p)) prepared.
Definition resumed_descriptors (prepared : list Prepared) : list Descriptor :=
  (λ p, descriptor p (pr_bounds p) (pr_users p) (pr_resume_at p) None) <$>
    List.filter (λ p, readable p && bool_decide (length (pr_cells p) = 1%nat) && negb (is_none (pr_resume_at p))
                      && bool_decide (length (pr_users p) = 1%nat) && is_none (pr_cursor p)) prepared.

(** Whether a tenant is read per user and cell. *)
Definition grouped (p : Prepared) : bool :=
  readable p
  && negb (bool_decide (length (pr_cells p) = 1%nat)
           && (pr_no_resume p || (length (submitters_of (tq_tenant_id (pr_limit p))) <? 2)%nat)).

Definition number {A} (l : list A) : list (Z * A) := imap (λ i a, (Z.of_nat i, a)) l.

(** The descriptors of a grouped tenant, in the order of their indices, after [cursor]. *)
Definition group_descriptors (p : Prepared) (cursor : option Cursor) : list Descriptor :=
  let tenant_id := tq_tenant_id (pr_limit p) in
  let groups := match pr_cells p with
                | _ :: _ :: _ => (λ c : Cell, (c.1, cell_resume c)) <$> pr_cells p
                | _ => [(pr_bounds p, None)]
                end in
  (λ item : Z * (string * ((Z * Z * Z * Z) * option Z)),
     let '(index, (user_id, (bounds, quota_resume))) := item in
     descriptor p bounds [user_id]
       (latest [pr_tenant_resume p; resumed_at_of counters (user_scope tenant_id user_id); quota_resume])
       (Some (user_id, index, cursor))) <$>
    number (mjoin ((λ u, (λ g, (u, g)) <$> groups) <$> pr_users p)).

(** [_batched_window_rows] of the descriptors without and with a time to resume at. *)
Definition read_groups (descriptors : list Descriptor) : list (WindowKey * (list StreamRow * option QueueRow)) :=
  _batched_window_rows jobs specs now compatible (List.filter (λ d, is_none (qd_resume_at d)) descriptors)
  ++ _batched_window_rows jobs specs now compatible (List.filter (λ d, negb (is_none (qd_resume_at d))) descriptors).

Definition merged_group (results : list (WindowKey * (list StreamRow * option QueueRow))) (keys : list WindowKey) :
    list QueueRow * option QueueRow :=
  let found := (λ k, default ([], None) (find_key k results)) <$> keys in
  (w_row <$> take 16 (py_sorted normal_leb (mjoin (fst <$> found))),
   head (py_sorted (since_leb qr_since) (omap snd found))).

Definition group_window (p : Prepared) : list QueueRow * option QueueRow :=
  let descriptors := group_descriptors p (pr_cursor p) in
  let keys := descriptor_key <$> descriptors in
  let found := merged_group (read_groups descriptors) keys in
  match found.1, pr_cursor p with
  | [], Some _ => merged_group (read_groups (group_descriptors p None)) keys
  | _, _ => found
  end.

(** The window of one tenant, by the first of the readers that covers it. *)
Definition tenant_rows (prepared : list Prepared) (p : Prepared) : list QueueRow * option QueueRow :=
  let tenant_id := tq_tenant_id (pr_limit p) in
  let single := _batched_window_rows jobs specs now compatible (resumed_descriptors prepared)
                ++ _batched_window_rows jobs specs now compatible (plain_descriptors prepared) in
  if grouped p then group_window p
  else
    match find_key (tenant_id, None) single with
    | Some (rows, oldest) => (w_row <$> rows, oldest)
    | None =>
        if readable p
        then _window_rows jobs (pr_query p) now (qh_priority <$> List.filter (λ h, bool_decide (qh_tenant_id h = tenant_id)) heads)
               (pr_resume_at p) tenant_id (pr_users p) (pr_cursor p)
        else ([], None)
    end.

(** The job of the active reservation stays visible outside the window. *)
Definition reserved_row (p : Prepared) : Tx (option QueueRow) :=
  match active with
  | Some reservation =>
      if negb (bool_decide (pr_users p = [])) && bool_decide (rv_tenant_id reservation = tq_tenant_id (pr_limit p)) then
        reserved ← one_or_none (List.filter (λ r, bool_decide (qr_id r = rv_job_id reservation)) (pr_query p));
        mret match reserved, pr_cells p with
             | Some r, _ :: _ :: _ =>
                 match List.filter (λ c, in_cell c (sp_cpu_millis (qr_spec r)) (sp_memory_bytes (qr_spec r))) (pr_cells p) with
                 | [] => None
                 | cells => Some (MkQueueRow (qr_job r) (qr_spec r) (latest (qr_since r :: (cell_resume <$> cells))))
                 end
             | reserved, _ => reserved
             end
      else mret None
  | None => mret None
  end.

Definition candidate (p : Prepared) (r : QueueRow) : Candidate :=
  let j := qr_job r in
  let tenant_id := tq_tenant_id (pr_limit p) in
  {| job_id := j_job_id j; tenant_id := tenant_id; user_id := j_submitter_user_id j; job_version := j_version j;
     ready_sequence := j_ready_sequence j;
     resources := {| cpu_millis := sp_cpu_millis (qr_spec r); memory_bytes := sp_memory_bytes (qr_spec r);
                     gpu_count := sp_gpu_count (qr_spec r) |};
     base_priority := j_base_priority j;
     eligible_wait_seconds := Z.max 0 ((epoch_ms now - epoch_ms (default now (qr_since r))) / 1000);
     retry_ready_at_ms := match j_retry_ready_at j with Some t => epoch_ms t | None => 0 end;
     template_version := sp_template_version (qr_spec r); required_capabilities := ∅;
     tenant_active_attempts := pr_tenant_active p;
     user_active_attempts := active_attempts_of counters (user_scope tenant_id (j_submitter_user_id j));
     state := QUEUED; template_compatible := true; capabilities_compatible := true; policy_compatible := true |}.

(** [f"{priority}:{sequence}:{job_id}"]. *)
Definition cursor_text (c : Cursor) : string :=
  let '(priority, sequence, job_id) := c in pretty priority +:+ ":" +:+ pretty sequence +:+ ":" +:+ job_id.
Definition next_cursor (rows : list QueueRow) : option string :=
  match last rows with
  | None => None
  | Some r =>
      let age_minutes := Z.max 0 ((epoch_ms now - epoch_ms (default now (qr_since r))) / 60000) in
      Some (cursor_text (Z.min 2 (qr_base r + age_minutes), qr_ready r, qr_id r))
  end.

Definition tenant_window (prepared : list Prepared) (p : Prepared) : Tx (string * CandidateWindow) :=
  let '(rows, oldest) := tenant_rows prepared p in
  reserved ← reserved_row p;
  let oldest := match reserved with Some r => Some r | None => oldest end in
  mret (tq_tenant_id (pr_limit p),
        {| normal := candidate p <$> rows; oldest_eligible := candidate p <$> oldest;
           continuation_cursor := next_cursor rows |}).

Fixpoint each {A B} (f : A → Tx B) (l : list A) : Tx (list B) :=
  match l with
  | [] => mret []
  | a :: l => b ← f a; bs ← each f l; mret (b :: bs)
  end.
End snapshot.

(** ** The whole snapshot *)

Definition exhausted_tenants (quota_bytes : Z) : Tx (list string) :=
  found ← select T_artifact_storage_counters (λ c, quota_bytes <=? sc_committed_bytes c + sc_reserved_bytes c);
  mret (sc_tenant_id <$> found).

(** The template versions of enabled families that the inventory runs. *)
Fixpoint compatible_templates (inventory : InventoryRow) (templates : list TemplateRow) : outcome SvcError (list (string * Z)) :=
  match templates with
  | [] => Ret []
  | t :: templates =>
      runs ← template_runs_on t (inventory_document inventory);
      rest ← compatible_templates inventory templates;
      Ret (if runs : bool then (tv_template_id t, tv_version t) :: rest else rest)
  end.

Definition tenant_ledger (now : Z) (r : LedgerRow) : TenantLedger :=
  {| tl_tenant_id := fl_tenant_id r; virtual_score := fl_virtual_score r;
     accounted_through_ms := Z.min (epoch_ms (fl_accounted_through r)) (epoch_ms now);
     had_eligible_demand := fl_had_eligible_demand r |}.
Definition new_ledger (now : Z) (tenant_id : string) : TenantLedger :=
  {| tl_tenant_id := tenant_id; virtual_score := dec_zero; accounted_through_ms := epoch_ms now; had_eligible_demand := false |}.
(** [setdefault] for every policy. *)
Definition all_ledgers (now : Z) (ledgers : list LedgerRow) (limits : list TenantPolicyRow) : list TenantLedger :=
  foldl (λ acc limit, if existsb (λ l, bool_decide (tl_tenant_id l = tq_tenant_id limit)) acc then acc
                      else acc ++ [new_ledger now (tq_tenant_id limit)]) (tenant_ledger now <$> ledgers) limits.

Definition held_allocation (claims : list GpuClaimRow) (r : AllocationRow) : HeldAllocation :=
  {| ha_allocation_id := al_allocation_id r; ha_tenant_id := al_tenant_id r;
     ha_resources := {| cpu_millis := al_cpu_millis r; memory_bytes := al_memory_bytes r; gpu_count := al_gpu_count r |};
     ha_gpu_uuids := py_sorted String.leb
       (gc_gpu_uuid <$> List.filter (λ c, bool_decide (gc_allocation_id c = al_allocation_id r)) claims);
     ha_state := if bool_decide (al_state r = AL_HELD) then HELD else QUARANTINED |}.

Definition tenant_limit (exhausted : list string) (r : TenantPolicyRow) : TenantPolicySnapshot :=
  {| tp_tenant_id := tq_tenant_id r; weight := tq_weight r;
     resource_quota := {| cpu_millis := tq_cpu_limit_millis r; memory_bytes := tq_memory_limit_bytes r;
                          gpu_count := tq_gpu_limit r |};
     max_active_attempts := tq_tenant_active_limit r; max_user_active_attempts := tq_user_active_limit r;
     artifact_quota_available := negb (bool_decide (tq_tenant_id r ∈ exhausted)) |}.

Definition reservation_snapshot (r : ReservationRow) : ReservationSnapshot :=
  {| Scheduling.rs_reservation_id := rv_reservation_id r; Scheduling.rs_job_id := rv_job_id r; Scheduling.rs_tenant_id := rv_tenant_id r;
     Scheduling.rs_policy_version := rv_policy_version r; Scheduling.rs_invalid_reason := None |}.

Definition policy_leb (a b : TenantPolicyRow) : bool := String.leb (tq_tenant_id a) (tq_tenant_id b).

(** [advance_accounting], whose error is a [RuntimeError] here. *)
Definition accounted (snapshot : SchedulingSnapshot) (now_ms : Z) : outcome SvcError AccountingState :=
  match advance_accounting snapshot now_ms with
  | Ret s => Ret s
  | Raise (Err _) => Raise (RuntimeError "invalid scheduler snapshot")
  | Raise (Crash e) => Raise (PyError e)
  end.

Definition with_fairness (snapshot : SchedulingSnapshot) (ledgers : list TenantLedger) (floor : decimal) : SchedulingSnapshot :=
  {| policy_version := policy_version snapshot; allocatable_capacity := allocatable_capacity snapshot;
     held_allocations := held_allocations snapshot; tenant_ledgers := ledgers; tenant_limits := tenant_limits snapshot;
     candidates_by_tenant := candidates_by_tenant snapshot; active_reservation := active_reservation snapshot;
     virtual_floor := floor |}.

Definition capacity_of (inventory : InventoryRow) : Resources :=
  {| cpu_millis := in_allocatable_cpu_millis inventory; memory_bytes := in_allocatable_memory_bytes inventory;
     gpu_count := in_allocatable_gpu_count inventory |}.

Definition unreleased (r : AllocationRow) : bool := negb (bool_decide (al_state r = AL_RELEASED)).

Definition read_snapshot (now : Z) (policy : PolicyRow) (inventory : InventoryRow) (cursors : list (string * Cursor))
    (replay_eligibility : bool) (artifact_quota_bytes : option Z) : Tx SchedulingSnapshot :=
  pending_tenants ← (if replay_eligibility then process_eligibility_batch now else pending_eligibility_tenants);
  current ← select T_tenant_policies tq_is_current;
  let limits := py_sorted policy_leb current in
  counters ← select T_admission_counters (λ _, true);
  tenants ← select T_tenants (λ _, true);
  ledgers ← select T_fairness_ledgers (λ _, true);
  held_rows ← select T_allocations unreleased;
  claims ← select T_allocation_gpu_claims (λ c, is_none (gc_released_at c));
  found ← select T_reservations (λ r, is_none (rv_invalidated_at r));
  active ← one_or_none found;
  versions ← select T_template_versions (λ _, true);
  families ← select T_templates tf_enabled;
  compatible ← se_lift (compatible_templates inventory
    (List.filter (λ v, existsb (λ f, bool_decide (tf_template_id f = tv_template_id v)) families) versions));
  let capacity := capacity_of inventory in
  heads ← select T_queue_heads (λ _, true);
  submitters ← select T_queue_submitters (λ _, true);
  headroom ← select T_quota_headroom_steps (λ _, true);
  sizes ← select T_queue_request_sizes (λ _, true);
  jobs ← select T_jobs (λ _, true);
  specs ← select T_job_specs (λ _, true);
  prepared ← each (λ limit, se_lift (prepare now jobs specs counters tenants held_rows submitters headroom sizes compatible
                                       capacity pending_tenants cursors limit)) limits;
  windows ← each (tenant_window now jobs specs counters heads submitters compatible active prepared) prepared;
  state ← select T_fairness_state (λ _, true);
  floor ← one_or_none state;
  exhausted ← match artifact_quota_bytes with None => mret [] | Some quota => exhausted_tenants quota end;
  let snapshot :=
    {| policy_version := pv_policy_version policy; allocatable_capacity := capacity;
       held_allocations := held_allocation claims <$> held_rows; tenant_ledgers := all_ledgers now ledgers limits;
       tenant_limits := tenant_limit exhausted <$> limits; candidates_by_tenant := windows;
       active_reservation := reservation_snapshot <$> active;
       virtual_floor := match floor with Some f => fs_virtual_floor f | None => dec_zero end |} in
  state ← se_lift (accounted snapshot (epoch_ms now));
  mret (with_fairness snapshot (as_tenant_ledgers state) (as_virtual_floor state)).

(** The scores and demands of the ledgers, and the floor, at [boundary]. *)
Definition persist_fairness_locked (snapshot : SchedulingSnapshot) (boundary : Z) : Tx () :=
  let tenant_ids := tp_tenant_id <$> tenant_limits snapshot in
  ledgers ← select T_fairness_ledgers (λ r, bool_decide (fl_tenant_id r ∈ tenant_ids));
  let fresh := (λ r : LedgerRow, {| tl_tenant_id := fl_tenant_id r; virtual_score := fl_virtual_score r;
                        accounted_through_ms := epoch_ms (fl_accounted_through r);
                        had_eligible_demand := fl_had_eligible_demand r |}) <$> ledgers in
  state ← select T_fairness_state (λ _, true);
  floor ← one state;
  state ← se_lift (accounted (with_fairness snapshot fresh (fs_virtual_floor floor)) (epoch_ms boundary));
  _ ← for_rows (as_tenant_ledgers state) (λ l,
        score ← decimal_to_db (virtual_score l);
        update_ T_fairness_ledgers (λ r, bool_decide (fl_tenant_id r = tl_tenant_id l))
          (λ r, r <| fl_virtual_score := score |> <| fl_had_eligible_demand := had_eligible_demand l |>));
  floor ← decimal_to_db (as_virtual_floor state);
  update_ T_fairness_state (λ _, true) (λ r, r <| fs_virtual_floor := floor |>).
