(* ===== verification/Coordinator.v ===== *)
(** * The coordinator

    [src/nexa/coordinator/service.py]: the transactions of the coordinator process,
    with [artifact_quota.py] and [retention.py] of the same directory.  Every one
    begins and ends under live leadership and honours the operational mode.  A tick
    runs the maintenance steps when they are due, reads a snapshot, asks the policy
    for a decision, and commits the decision only if a fresh snapshot under the locks
    yields the same one.

    The state of the process (the cursors of the windows, the progress of the quota
    marks) is threaded beside the database; a transaction that raises leaves the
    database as it was.  Readings of the clocks are arguments.  Rows locked by others,
    which [SKIP LOCKED] leaves out, are not modelled. *)

From Stdlib Require Import Ascii.
From stdpp Require Import pretty.
From S2P Require Import Prelude PyDecimal Scheduling Accounting Policy PyValue Json Leadership Database Sorting Ledger Windows.
From S2P Require Import Authority Capabilities Eligibility Dispatch Cleanup Retry Snapshot.

Local Open Scope string_scope.
Local Open Scope list_scope.
Local Open Scope Z_scope.

(** ** Leadership and mode *)

Definition lost : SvcError := PyError LeadershipLost.

Section coordinator.
Context (holder_id : string) (artifact_quota_bytes : option Z).

(** [_leader] on the table; [_live] is the same read without the row lock. *)
Definition leader (epoch now : Z) : Tx Z :=
  found ← select T_coordinator_leadership (λ _, true);
  row ← one_or_none found;
  se_lift match _leader holder_id epoch now row with Ret t => Ret t | Raise e => Raise (PyError e) end.

Definition current_policy : Tx PolicyRow :=
  found ← select T_policy_versions pv_is_current;
  one found.
Definition operational_mode : Tx OperationalMode :=
  policy ← current_policy;
  mret (pv_operational_mode policy).

(** [delete(t).where(p)]. *)
Definition delete (t : table) (p : row t → bool) : Tx () := λ db,
  (Ret (), set_rows t (List.filter (λ r, negb (p r)) (rows db t)) db).

(** ** The ledger heartbeat *)

(** [clock] is the reading [lock_ledgers] is given; [boundary] the one after the locks. *)
Definition account (epoch live clock boundary : Z) : Tx (option Z) :=
  _ ← leader epoch live;
  ledgers ← lock_ledgers clock false;
  mode ← operational_mode;
  if bool_decide (mode = WRITE_FROZEN) then mret None
  else
    boundary ← leader epoch boundary;
    _ ← charge_locked ledgers boundary true boundary;
    mret (Some boundary).

(** ** Retries and expired leases *)

Definition promote_retries (epoch probe t1 t2 t3 : Z) : Tx Z :=
  actionable ← retry_actionable probe Retry.BATCH_SIZE;
  if negb actionable then mret 0
  else
    _ ← leader epoch t1;
    policy ← current_policy;
    now ← leader epoch t2;
    if bool_decide (pv_operational_mode policy = WRITE_FROZEN) then mret 0
    else
      promoted ← promote_due_locked now holder_id Retry.BATCH_SIZE;
      _ ← leader epoch t3;
      mret promoted.

(** One lease; the second reading is [now_fn], which is not called for a lease that is
    gone. *)
Definition reap (epoch : Z) (lease_id : string) (t1 t2 : Z) : Tx bool :=
  _ ← leader epoch t1;
  mode ← operational_mode;
  if bool_decide (mode = WRITE_FROZEN) then mret false
  else
    found ← select T_attempt_leases (has_lease lease_id);
    now ← (if bool_decide (length found = 0%nat) then mret t2 else leader epoch t2);
    reap_lease_locked lease_id holder_id now.

(** ** Retention of idempotency records *)

Definition SWEPT_OPERATIONS : list string := ["submitJob"; "cancelJob"; "pauseJob"; "resumeJob"; "retryFailedJob"].
Definition SWEEP_PARENT_OPERATION : string := "submitSweep".
Definition SWEEP_BATCH : nat := 100.
Definition RECHECK : Z := 86400000000.

Record SweepBatch := { sb_due : list string; sb_deferred : list (string * Z) }.

Definition record_leb (a b : IdempotencyRow) : bool :=
  (id_expires_at a <? id_expires_at b)
  || ((id_expires_at a =? id_expires_at b) && String.leb (id_idempotency_id a) (id_idempotency_id b)).

Definition terminal_job (jobs : list JobRow) (resource_id : option string) : bool :=
  existsb (λ j, bool_decide (Some (j_job_id j) = resource_id)
                && bool_decide (j_state j ∈ [JS_SUCCEEDED; JS_FAILED; JS_CANCELLED])) jobs.

(** [finished] of a sweep and the last expiry of its children's records; null where
    there is none. *)
Definition sweep_finished (parents : list SweepParentRow) (r : IdempotencyRow) : bool :=
  existsb (λ p, bool_decide (Some (sw_sweep_id p) = id_resource_id r)
                && (sw_accepted_count p + sw_rejected_count p =? sw_child_count p)) parents.
Definition child_expiry (children : list SweepChildRow) (records : list IdempotencyRow) (r : IdempotencyRow) : option Z :=
  let jobs := omap sx_job_id (List.filter (λ c, bool_decide (Some (sx_sweep_id c) = id_resource_id r)) children) in
  latest ((λ c, Some (id_expires_at c)) <$>
    List.filter (λ c, bool_decide (id_operation_id c = "submitJob")
                      && existsb (λ j, bool_decide (Some j = id_resource_id c)) jobs) records).

Definition sweep_batch (now : Z) : Tx SweepBatch :=
  records ← select T_idempotency_records (λ _, true);
  jobs ← select T_jobs (λ _, true);
  parents ← select T_sweep_parents (λ _, true);
  children ← select T_sweep_children (λ _, true);
  let expired p := py_sorted record_leb
    (List.filter (λ r, bool_decide (id_state r = "COMPLETED") && p (id_operation_id r) && (id_expires_at r <? now)) records) in
  let found := take SWEEP_BATCH (expired (λ o, bool_decide (o ∈ SWEPT_OPERATIONS))) in
  let due := id_idempotency_id <$> List.filter (λ r, terminal_job jobs (id_resource_id r)) found in
  let waiting := id_idempotency_id <$> List.filter (λ r, negb (terminal_job jobs (id_resource_id r))) found in
  let sweeps := take (SWEEP_BATCH - length found) (expired (λ o, bool_decide (o = SWEEP_PARENT_OPERATION))) in
  mret (foldl (λ b r,
          if negb (sweep_finished parents r) then
            {| sb_due := sb_due b; sb_deferred := sb_deferred b ++ [(id_idempotency_id r, now + RECHECK)] |}
          else match child_expiry children records r with
               | None => {| sb_due := sb_due b ++ [id_idempotency_id r]; sb_deferred := sb_deferred b |}
               | Some expiry =>
                   if now <? expiry
                   then {| sb_due := sb_due b; sb_deferred := sb_deferred b ++ [(id_idempotency_id r, expiry)] |}
                   else b
               end)
          {| sb_due := due; sb_deferred := (λ i, (i, now + RECHECK)) <$> waiting |} sweeps).

Definition sweep_idempotency (epoch now t1 t2 : Z) : Tx Z :=
  batch ← sweep_batch now;
  match sb_due batch, sb_deferred batch with
  | [], [] => mret 0
  | due, deferred =>
      _ ← leader epoch t1;
      mode ← operational_mode;
      if bool_decide (mode = WRITE_FROZEN) then mret 0
      else
        _ ← delete T_idempotency_records (λ r, bool_decide (id_idempotency_id r ∈ due));
        _ ← for_rows deferred (λ d,
              update_ T_idempotency_records (λ r, bool_decide (id_idempotency_id r = d.1))
                (λ r, r <| id_expires_at := Z.max (id_expires_at r) d.2 |>));
        _ ← leader epoch t2;
        mret (Z.of_nat (length due))
  end.

(** ** Byte quotas *)

Definition QUOTA_BATCH : nat := 256.
Definition QUOTA_REASON : string := "waiting_for_quota".

Definition mark_batch (tenant_id : string) (blocked : bool) (limit : nat) : Tx Z :=
  found ← select T_jobs (λ j, bool_decide (j_tenant_id j = tenant_id) && bool_decide (j_state j = JS_QUEUED)
                              && (if blocked then negb (bool_decide (j_waiting_reason j = Some QUOTA_REASON))
                                  else bool_decide (j_waiting_reason j = Some QUOTA_REASON)));
  let target := take limit (py_sorted String.leb (j_job_id <$> found)) in
  update T_jobs (λ j, bool_decide (j_job_id j ∈ target))
    (λ j, j <| j_waiting_reason := if blocked then Some QUOTA_REASON else None |> <| j_version := j_version j + 1 |>).

Fixpoint mark_all (blocked : bool) (tenants : list string) : Tx (list (string * Z)) :=
  match tenants with
  | [] => mret []
  | t :: tenants =>
      n ← mark_batch t blocked QUOTA_BATCH;
      rest ← mark_all blocked tenants;
      mret ((t, n) :: rest)
  end.

(** Exhausted tenants with the time their queue was last marked in full, and the tenants
    whose reason is still being cleared; [None] before the first pass. *)
Record QuotaState := { qs_blocked : list (string * option Z); qs_clearing : option (list string) }.

Definition minus (a b : list string) : list string := List.filter (λ x, negb (bool_decide (x ∈ b))) a.
Definition _QUOTA_RESCAN : Z := seconds 30.

(** What one pass found: exhausted, clearing, marked and cleared tenants, and whether it
    wrote. *)
Definition QuotaPass : Type := list string * list string * list (string * Z) * list (string * Z) * bool.

Definition quota_operation (state : QuotaState) (quota : Z) (epoch clock t1 t2 t3 : Z) : Tx QuotaPass :=
  found ← exhausted_tenants quota;
  let exhausted := py_sorted String.leb (remove_dups found) in
  tenants ← select T_tenants (λ _, true);
  let clearing := match qs_clearing state with
                  | None => minus (tn_tenant_id <$> tenants) exhausted
                  | Some clearing => minus (remove_dups (clearing ++ (qs_blocked state).*1)) exhausted
                  end in
  let marking := List.filter (λ t, match dict_get t (qs_blocked state) with
                                   | Some (Some at') => _QUOTA_RESCAN <=? clock - at'
                                   | _ => true
                                   end) exhausted in
  match marking, clearing with
  | [], [] => mret (exhausted, clearing, [], [], false)
  | _, _ =>
      _ ← leader epoch t1;
      mode ← operational_mode;
      _ ← leader epoch t2;
      if bool_decide (mode = WRITE_FROZEN) then mret (exhausted, clearing, [], [], false)
      else
        marked ← mark_all true marking;
        cleared ← mark_all false (py_sorted String.leb clearing);
        _ ← leader epoch t3;
        mret (exhausted, clearing, marked, cleared, true)
  end.

Definition quota_advance (state : QuotaState) (clock : Z) (pass : QuotaPass) : QuotaState :=
  let '(exhausted, clearing, marked, cleared, wrote) := pass in
  let full n := Z.of_nat QUOTA_BATCH <=? n in
  {| qs_blocked := (λ t, (t, match dict_get t marked with
                             | Some n => if full n then None else Some clock
                             | None => default None (dict_get t (qs_blocked state))
                             end)) <$> exhausted;
     qs_clearing :=
       if wrote || (is_none (qs_clearing state) && bool_decide (clearing = []))
       then Some (List.filter (λ t, full (default (Z.of_nat QUOTA_BATCH) (dict_get t cleared))) clearing)
       else qs_clearing state |}.

(** ** The decision *)

Definition _locks : Tx (PolicyRow * option (WorkerRow * option InventoryRow)) :=
  policy ← current_policy;
  worker ← Retry._worker;
  mret (policy, worker).

Definition reservation_replay_pending (snapshot : SchedulingSnapshot) : Tx bool :=
  match active_reservation snapshot with
  | None => mret false
  | Some reservation =>
      events ← select T_queue_eligibility_events (λ e,
        bool_decide (qe_tenant_id e = Scheduling.rs_tenant_id reservation) && pending_event e);
      mret (negb (bool_decide (length events = 0%nat)))
  end.

(** The readings of the clock in each of the two transactions of a tick. *)
Record SnapshotTimes := { sn_first : Z; sn_now : Z; sn_clock : Z; sn_boundary : Z; sn_last : Z }.
Record CommitTimes := { co_first : Z; co_now : Z; co_clock : Z; co_last : Z }.

Definition snapshot_operation (cursors : list (string * Cursor)) (epoch : Z) (t : SnapshotTimes) :
    Tx (option (SchedulingSnapshot * Z * bool)) :=
  _ ← leader epoch (sn_first t);
  '(policy, worker) ← _locks;
  now ← leader epoch (sn_now t);
  if negb (bool_decide (pv_operational_mode policy = NORMAL)) then mret None
  else match worker with
       | Some (worker, Some inventory) =>
           if negb (_worker_is_ready worker now) then mret None
           else
             snapshot ← read_snapshot now policy inventory cursors true artifact_quota_bytes;
             boundary ← account_now_locked (sn_clock t) (sn_boundary t);
             _ ← persist_fairness_locked snapshot boundary;
             _ ← leader epoch (sn_last t);
             pending ← reservation_replay_pending snapshot;
             mret (Some (snapshot, epoch_ms now, pending))
       | _ => mret None
       end.

Definition no_decision (reason : string) : SchedulingDecision := NoDecision reason [].

(** The job a decision is about. *)
Definition decided_job (decision : SchedulingDecision) : Tx (option string) :=
  match decision with
  | Dispatch job_id _ _ _ | CreateReservation job_id _ _ | DrainForReservation _ job_id => mret (Some job_id)
  | InvalidateReservation reservation_id _ =>
      found ← select T_reservations (λ r, bool_decide (rv_reservation_id r = reservation_id));
      found ← one_or_none found;
      mret (rv_job_id <$> found)
  | NoDecision _ _ => mret None
  end.

Definition commit_operation (cursors : list (string * Cursor)) (decision : SchedulingDecision) (epoch : Z) (t : CommitTimes) :
    Tx SchedulingDecision :=
  _ ← leader epoch (co_first t);
  '(policy, worker) ← _locks;
  match worker with
  | Some (worker, Some inventory) =>
      if negb (bool_decide (pv_operational_mode policy = NORMAL)) then mret (no_decision "worker_or_mode_changed")
      else
        job_id ← decided_job decision;
        job ← match job_id with
              | None => mret None
              | Some job_id => found ← select T_jobs (is_job job_id); one_or_none found
              end;
        now ← leader epoch (co_now t);
        if negb (_worker_is_ready worker now) then mret (no_decision "worker_changed")
        else
          fresh ← read_snapshot now policy inventory cursors false artifact_quota_bytes;
          pending ← reservation_replay_pending fresh;
          if (pending : bool) then mret (no_decision "reservation_eligibility_replay_pending")
          else match decide fresh (epoch_ms now) with
               | Raise (Crash e) => se_raise (PyError e)
               | Raise (Err _) => mret (no_decision "proposal_changed")
               | Ret checked =>
                   if negb (bool_decide (checked = decision)) then mret (no_decision "proposal_changed")
                   else
                     _ ← account_locked now (co_clock t);
                     _ ← persist_fairness_locked fresh now;
                     _ ← apply_decision decision worker job now epoch holder_id;
                     _ ← leader epoch (co_last t);
                     mret decision
               end
  | _ => mret (no_decision "worker_or_mode_changed")
  end.

(** ** The process *)

Record CoordinatorState := {
  cs_cursors : list (string * Cursor);
  cs_retry_probe_at : Z;
  cs_quota : QuotaState;
}.
Definition Process (A : Type) : Type := SE (CoordinatorState * DB) SvcError A.

(** [run_transaction]: what is not committed is rolled back. *)
Definition run_transaction {A} (m : Tx A) : Process A := λ '(cs, db),
  match m db with
  | (Ret a, db') => (Ret a, (cs, db'))
  | (Raise e, _) => (Raise e, (cs, db))
  end.

Definition is_lost (e : SvcError) : bool :=
  match e with PyError e => bool_decide (exn_class e = "LeadershipLost") | _ => false end.

(** [try: m except LeadershipLost: raise except Exception: fallback]. *)
Definition tolerate {A} (m : Process A) (fallback : A) : Process A := λ s,
  match m s with
  | (Raise e, s') => if is_lost e then (Raise e, s') else (Ret fallback, s')
  | r => r
  end.

Fixpoint reap_all (epoch t1 t2 : Z) (leases : list string) : Process Z :=
  match leases with
  | [] => mret 0
  | lease_id :: leases =>
      reaped ← tolerate (run_transaction (reap epoch lease_id t1 t2)) false;
      rest ← reap_all epoch t1 t2 leases;
      mret ((if (reaped : bool) then 1 else 0) + rest)
  end.

(** The readings of the clocks in the maintenance steps. *)
Record StepTimes := { sp_probe : Z; sp_1 : Z; sp_2 : Z; sp_3 : Z; sp_monotonic : Z }.

Definition reap_leases (epoch : Z) (t : StepTimes) : Process Z :=
  leases ← run_transaction (expired_leases Dispatch.BATCH_SIZE (sp_probe t));
  reap_all epoch (sp_1 t) (sp_2 t) leases.

Definition set_quota (q : QuotaState) : Process () := λ '(cs, db),
  (Ret (), ({| cs_cursors := cs_cursors cs; cs_retry_probe_at := cs_retry_probe_at cs; cs_quota := q |}, db)).

Definition track_artifact_quota (epoch : Z) (t : StepTimes) : Process Z :=
  match artifact_quota_bytes with
  | None => mret 0
  | Some quota =>
      '(cs, _) ← se_get;
      pass ← run_transaction (quota_operation (cs_quota cs) quota epoch (sp_monotonic t) (sp_1 t) (sp_2 t) (sp_3 t));
      _ ← set_quota (quota_advance (cs_quota cs) (sp_monotonic t) pass);
      let '(_, _, marked, cleared, _) := pass in
      mret (sum_by snd marked + sum_by snd cleared)
  end.

Definition maintenance (epoch : Z) (t : StepTimes) : Process () :=
  _ ← tolerate (reap_leases epoch t) 0;
  _ ← tolerate (run_transaction (promote_retries epoch (sp_probe t) (sp_1 t) (sp_2 t) (sp_3 t))) 0;
  _ ← tolerate (run_transaction (sweep_idempotency epoch (sp_probe t) (sp_1 t) (sp_2 t))) 0;
  _ ← tolerate (track_artifact_quota epoch t) 0;
  mret ().

(** [cursor.decode().split(":", 2)]. *)
Fixpoint break_colon (s : string) : option (string * string) :=
  match s with
  | "" => None
  | String c s => if Ascii.eqb c ":"%char then Some ("", s)
                  else '(a, b) ← break_colon s; Some (String c a, b)
  end.
Definition parse_cursor (text : string) : option Cursor :=
  '(priority, rest) ← break_colon text;
  '(sequence, job_id) ← break_colon rest;
  match py_int priority, py_int sequence with
  | Ret p, Ret q => Some (p, q, job_id)
  | _, _ => None
  end.

Definition set_cursor (tenant_id : string) (c : Cursor) : Process () := λ '(cs, db),
  (Ret (), ({| cs_cursors := dict_set tenant_id c (cs_cursors cs); cs_retry_probe_at := cs_retry_probe_at cs;
               cs_quota := cs_quota cs |}, db)).
Fixpoint keep_cursors (found : list (string * string)) : Process () :=
  match found with
  | [] => mret ()
  | (tenant_id, text) :: found =>
      match parse_cursor text with
      | None => se_raise (PyError (Exn "ValueError" ""))
      | Some c => _ ← set_cursor tenant_id c; keep_cursors found
      end
  end.
Definition set_probe (at' : Z) : Process () := λ '(cs, db),
  (Ret (), ({| cs_cursors := cs_cursors cs; cs_retry_probe_at := at'; cs_quota := cs_quota cs |}, db)).

Definition _tick (epoch monotonic : Z) (steps : StepTimes) (ts : SnapshotTimes) (tc : CommitTimes) : Process SchedulingDecision :=
  '(cs, _) ← se_get;
  _ ← (if cs_retry_probe_at cs <=? monotonic
       then _ ← set_probe (monotonic + seconds 1); maintenance epoch steps
       else mret ());
  prepared ← run_transaction (snapshot_operation (cs_cursors cs) epoch ts);
  match prepared with
  | None => mret (no_decision "worker_or_mode_unavailable")
  | Some (snapshot, now_ms, pending) =>
      if (pending : bool) then mret (no_decision "reservation_eligibility_replay_pending")
      else match decide snapshot now_ms with
           | Raise (Crash e) => se_raise (PyError e)
           | Raise (Err _) => se_raise (RuntimeError "invalid policy proposal")
           | Ret (NoDecision reason found) =>
               _ ← keep_cursors found;
               mret (NoDecision reason found)
           | Ret (DrainForReservation a b) => mret (DrainForReservation a b)
           | Ret decision => run_transaction (commit_operation (cs_cursors cs) decision epoch tc)
           end
  end.
End coordinator.
