(* ===== verification/PyFloat.v ===== *)
(** * Floating-point arithmetic on integers

    What the services use of Python's floats: the true division of two ints, the
    product of an int and a float, comparison with an int, and [math.ceil].  Floats
    are the binary64 numbers of [SpecFloat]; every operation rounds the exact result
    to nearest, ties to even. *)

From S2P Require Import Prelude PyValue.
From Stdlib Require Import SpecFloat.

Local Open Scope Z_scope.

(** An int as an unrounded number. *)
Definition float_exact (n : Z) : spec_float :=
  match n with
  | 0 => S754_zero false
  | Zpos p => S754_finite false p 0
  | Zneg p => S754_finite true p 0
  end.

(** [float(n)]. *)
Definition float_of_int (n : Z) : spec_float := binary_normalize 53 1024 n 0 false.

Definition ZeroDivisionError : exn := Exn "ZeroDivisionError" "division by zero".
Definition OverflowError : exn := Exn "OverflowError" "integer division result too large for a float".

(** [a / b]: the exact quotient, rounded once. *)
Definition int_truediv (a b : Z) : outcome exn spec_float :=
  if b =? 0 then Raise ZeroDivisionError
  else match SFdiv 53 1024 (float_exact a) (float_exact b) with
       | S754_infinity _ => Raise OverflowError
       | f => Ret f
       end.

(** [a * b] of two floats. *)
Definition float_mul (a b : spec_float) : spec_float := SFmul 53 1024 a b.

(** [f >= n] for an int [n]: exact. *)
Definition float_ge_int (f : spec_float) (n : Z) : bool :=
  match f with
  | S754_zero _ => n <=? 0
  | S754_infinity s => negb s
  | S754_nan => false
  | S754_finite s m e =>
      let c := if s then Zneg m else Zpos m in
      if 0 <=? e then n <=? c * 2 ^ e else n * 2 ^ (- e) <=? c
  end.

(** [math.ceil(f)]. *)
Definition float_ceil (f : spec_float) : outcome exn Z :=
  match f with
  | S754_zero _ => Ret 0
  | S754_infinity _ => Raise (Exn "OverflowError" "cannot convert float infinity to integer")
  | S754_nan => Raise (Exn "ValueError" "cannot convert float NaN to integer")
  | S754_finite s m e =>
      let c := if s then Zneg m else Zpos m in
      Ret (if 0 <=? e then c * 2 ^ e else - (- c / 2 ^ (- e)))
  end.

Example truediv_third : int_truediv 1 3 = Ret (S754_finite false 6004799503160661 (-54)).
Proof. reflexivity. Qed.

(** 29 of 100 parts, as a percentage, is just below 29. *)
Example percent_29 :
  match int_truediv 29 100 with
  | Ret f => float_ge_int (float_mul f (float_exact 100)) 29
  | Raise _ => true
  end = false.
Proof. reflexivity. Qed.
