(* ===== verification/JobSpecs.v ===== *)
(** * Job specifications

    The submission models of [src/nexa/api/schemas.py]: the resources, the parameters
    and the three kinds of job specification, as pydantic validates and dumps them.
    [model_validate] accepts a document with exactly the declared fields, each within
    its bounds; [model_dump] is the document a specification is stored and hashed as.
    A retry validates the stored document again, so that the two being inverse means a
    retried job runs the specification that was first submitted.

    How pydantic reads an identifier is the argument [uuid7]; what the theorems use of
    it is that a canonical identifier reads as itself. *)

From S2P Require Import Prelude PyValue WorkerModels Database Authority Capabilities.

Local Open Scope string_scope.
Local Open Scope list_scope.
Local Open Scope Z_scope.

(** ** The models *)

(** [ResourceRequestVector]. *)
Record ResourceRequest := { rq_cpu_millis : Z; rq_memory_bytes : Z; rq_gpu_count : Z }.

(** The parts of a specification its template decides. *)
Inductive JobBody :=
| CpuJobSpec (iterations seed modulus : Z)
| TrainingJobSpec (epochs batch_size : Z) (learning_rate : spec_float) (seed subset_size : Z)
| InferenceJobSpec (model_artifact_id : string) (chunk_size batch_size : Z) (output_format : string).

(** [JobSpecBase] with its body. *)
Record JobSpec := {
  spec_template_version : Z;
  spec_input_artifact_id : string;
  spec_resources : ResourceRequest;
  spec_priority : Z;
  spec_runtime_limit_seconds : Z;
  spec_checkpoint_interval_seconds : Z;
  spec_body : JobBody;
}.

Definition spec_template_id (spec : JobSpec) : string :=
  match spec_body spec with
  | CpuJobSpec _ _ _ => "cpu-iterative"
  | TrainingJobSpec _ _ _ _ _ => "pytorch-cifar10-cnn"
  | InferenceJobSpec _ _ _ _ => "batch-inference"
  end.

(** [getattr(spec, "model_artifact_id", None)]. *)
Definition spec_model_artifact_id (spec : JobSpec) : option string :=
  match spec_body spec with InferenceJobSpec m _ _ _ => Some m | _ => None end.

(** ** Dumping *)

Definition parameters_dump (body : JobBody) : list (string * pyval) :=
  match body with
  | CpuJobSpec iterations seed modulus =>
      [("iterations", VInt iterations); ("seed", VInt seed); ("modulus", VInt modulus)]
  | TrainingJobSpec epochs batch_size learning_rate seed subset_size =>
      [("epochs", VInt epochs); ("batch_size", VInt batch_size); ("learning_rate", VFloat learning_rate);
       ("seed", VInt seed); ("subset_size", VInt subset_size)]
  | InferenceJobSpec _ chunk_size batch_size output_format =>
      [("chunk_size", VInt chunk_size); ("batch_size", VInt batch_size); ("output_format", VStr output_format)]
  end.

Definition resources_dump (r : ResourceRequest) : list (string * pyval) :=
  [("cpu_millis", VInt (rq_cpu_millis r)); ("memory_bytes", VInt (rq_memory_bytes r));
   ("gpu_count", VInt (rq_gpu_count r))].

(** [spec.model_dump(mode="json")]: the inherited fields first. *)
Definition model_dump (spec : JobSpec) : pyval :=
  VDict
    ([("template_version", VInt (spec_template_version spec));
      ("input_artifact_id", VStr (spec_input_artifact_id spec));
      ("resources", VDict (resources_dump (spec_resources spec)));
      ("priority", VInt (spec_priority spec));
      ("runtime_limit_seconds", VInt (spec_runtime_limit_seconds spec));
      ("checkpoint_interval_seconds", VInt (spec_checkpoint_interval_seconds spec));
      ("template_id", VStr (spec_template_id spec))]
     ++ match spec_model_artifact_id spec with Some m => [("model_artifact_id", VStr m)] | None => [] end
     ++ [("parameters", VDict (parameters_dump (spec_body spec)))]).

(** ** Validating *)

(** [extra="forbid"] with every field required: the fields of a document. *)
Definition exact_fields (names : list string) (v : pyval) : option (list (string * pyval)) :=
  match v with
  | VDict d => if bool_decide (d.*1 ⊆ names) && bool_decide (names ⊆ d.*1) then Some d else None
  | _ => None
  end.

(** [StrictInt] with [ge] and [le]. *)
Definition strict_int (lo hi : Z) (v : option pyval) : option Z :=
  match v with
  | Some (VInt n) => if (lo <=? n) && (n <=? hi) then Some n else None
  | _ => None
  end.
(** [StrictInt] with [ge] alone. *)
Definition strict_int_from (lo : Z) (v : option pyval) : option Z :=
  match v with
  | Some (VInt n) => if lo <=? n then Some n else None
  | _ => None
  end.

Definition float_pos (f : spec_float) : bool :=
  match f with S754_finite false _ _ | S754_infinity false => true | _ => false end.
Definition float_le_one (f : spec_float) : bool :=
  match f with
  | S754_zero _ => true
  | S754_infinity s => s
  | S754_nan => false
  | S754_finite true _ _ => true
  | S754_finite false m e => if 0 <=? e then Zpos m * 2 ^ e <=? 1 else Zpos m <=? 2 ^ (- e)
  end.
(** [StrictFloat] with [gt=0] and [le=1]; an int is accepted and converted. *)
Definition strict_rate (v : option pyval) : option spec_float :=
  f ← match v with
      | Some (VFloat f) => Some f
      | Some (VInt n) => Some (binary_normalize 53 1024 n 0 false)
      | _ => None
      end;
  if float_pos f && float_le_one f then Some f else None.

#[local] Arguments strict_int : simpl never.
#[local] Arguments strict_int_from : simpl never.
#[local] Arguments strict_rate : simpl never.

Definition MAX_INT31 : Z := 2147483647.

Definition validate_cpu (v : pyval) : option JobBody :=
  d ← exact_fields ["iterations"; "seed"; "modulus"] v;
  iterations ← strict_int 1 1000000000 (dict_get "iterations" d);
  seed ← strict_int 0 MAX_INT31 (dict_get "seed" d);
  modulus ← strict_int 2 MAX_INT31 (dict_get "modulus" d);
  Some (CpuJobSpec iterations seed modulus).

Definition validate_training (v : pyval) : option JobBody :=
  d ← exact_fields ["epochs"; "batch_size"; "learning_rate"; "seed"; "subset_size"] v;
  epochs ← strict_int 1 100 (dict_get "epochs" d);
  batch_size ← strict_int 1 512 (dict_get "batch_size" d);
  learning_rate ← strict_rate (dict_get "learning_rate" d);
  seed ← strict_int 0 MAX_INT31 (dict_get "seed" d);
  subset_size ← strict_int 100 50000 (dict_get "subset_size" d);
  Some (TrainingJobSpec epochs batch_size learning_rate seed subset_size).

Definition validate_inference (model_artifact_id : string) (v : pyval) : option JobBody :=
  d ← exact_fields ["chunk_size"; "batch_size"; "output_format"] v;
  chunk_size ← strict_int 1 100000 (dict_get "chunk_size" d);
  batch_size ← strict_int 1 4096 (dict_get "batch_size" d);
  match dict_get "output_format" d with
  | Some (VStr f) =>
      if bool_decide (f ∈ ["JSONL"; "PARQUET"]) then Some (InferenceJobSpec model_artifact_id chunk_size batch_size f)
      else None
  | _ => None
  end.

Definition validate_resources (v : pyval) : option ResourceRequest :=
  d ← exact_fields ["cpu_millis"; "memory_bytes"; "gpu_count"] v;
  cpu ← strict_int 100 100000000 (dict_get "cpu_millis" d);
  memory ← strict_int 67108864 9223372036854775807 (dict_get "memory_bytes" d);
  gpu ← strict_int 0 1 (dict_get "gpu_count" d);
  Some {| rq_cpu_millis := cpu; rq_memory_bytes := memory; rq_gpu_count := gpu |}.

#[local] Arguments validate_cpu : simpl never.
#[local] Arguments validate_training : simpl never.
#[local] Arguments validate_inference : simpl never.
#[local] Arguments validate_resources : simpl never.

Definition base_fields : list string :=
  ["template_version"; "input_artifact_id"; "resources"; "priority"; "runtime_limit_seconds";
   "checkpoint_interval_seconds"; "template_id"; "parameters"].

Section validate.
Variable uuid7 : pyval → option string.

(** The body, by the discriminator [template_id]. *)
Definition validate_body (d : list (string * pyval)) : option JobBody :=
  parameters ← dict_get "parameters" d;
  match dict_get "template_id" d with
  | Some (VStr t) =>
      if bool_decide (t = "cpu-iterative") then
        _ ← exact_fields base_fields (VDict d); validate_cpu parameters
      else if bool_decide (t = "pytorch-cifar10-cnn") then
        _ ← exact_fields base_fields (VDict d); validate_training parameters
      else if bool_decide (t = "batch-inference") then
        _ ← exact_fields ("model_artifact_id" :: base_fields) (VDict d);
        m ← dict_get "model_artifact_id" d ≫= uuid7;
        validate_inference m parameters
      else None
  | _ => None
  end.

(** [JobSubmitRequest.model_validate({"spec": v}).spec]; [None] where it raises a
    [ValidationError]. *)
Definition model_validate (v : pyval) : option JobSpec :=
  match v with
  | VDict d =>
      body ← validate_body d;
      template_version ← strict_int_from 1 (dict_get "template_version" d);
      input_artifact_id ← dict_get "input_artifact_id" d ≫= uuid7;
      resources ← dict_get "resources" d ≫= validate_resources;
      priority ← strict_int 0 2 (dict_get "priority" d);
      runtime_limit ← strict_int 1 300 (dict_get "runtime_limit_seconds" d);
      interval ← strict_int 5 60 (dict_get "checkpoint_interval_seconds" d);
      Some {| spec_template_version := template_version; spec_input_artifact_id := input_artifact_id;
              spec_resources := resources; spec_priority := priority;
              spec_runtime_limit_seconds := runtime_limit; spec_checkpoint_interval_seconds := interval;
              spec_body := body |}
  | _ => None
  end.

(** ** What a validated specification satisfies *)

Definition body_ok (body : JobBody) : Prop :=
  match body with
  | CpuJobSpec iterations seed modulus =>
      1 ≤ iterations ≤ 1000000000 ∧ 0 ≤ seed ≤ MAX_INT31 ∧ 2 ≤ modulus ≤ MAX_INT31
  | TrainingJobSpec epochs batch_size learning_rate seed subset_size =>
      1 ≤ epochs ≤ 100 ∧ 1 ≤ batch_size ≤ 512 ∧ float_pos learning_rate && float_le_one learning_rate = true ∧
      0 ≤ seed ≤ MAX_INT31 ∧ 100 ≤ subset_size ≤ 50000
  | InferenceJobSpec _ chunk_size batch_size output_format =>
      1 ≤ chunk_size ≤ 100000 ∧ 1 ≤ batch_size ≤ 4096 ∧ output_format ∈ ["JSONL"; "PARQUET"]
  end.

Definition resources_ok (r : ResourceRequest) : Prop :=
  100 ≤ rq_cpu_millis r ≤ 100000000 ∧ 67108864 ≤ rq_memory_bytes r ≤ 9223372036854775807 ∧
  0 ≤ rq_gpu_count r ≤ 1.

Record spec_ok (spec : JobSpec) : Prop := {
  so_version : 1 ≤ spec_template_version spec;
  so_resources : resources_ok (spec_resources spec);
  so_priority : 0 ≤ spec_priority spec ≤ 2;
  so_runtime : 1 ≤ spec_runtime_limit_seconds spec ≤ 300;
  so_interval : 5 ≤ spec_checkpoint_interval_seconds spec ≤ 60;
  so_body : body_ok (spec_body spec);
}.

Lemma strict_int_Some lo hi v n : strict_int lo hi v = Some n ↔ v = Some (VInt n) ∧ lo ≤ n ≤ hi.
Proof.
  unfold strict_int. destruct v as [[]|]; simpl; try naive_solver.
  destruct ((lo <=? n0) && (n0 <=? hi)) eqn:E; bool_simpl; split; try naive_solver lia.
Qed.

Lemma strict_int_run lo hi n : lo ≤ n ≤ hi → strict_int lo hi (Some (VInt n)) = Some n.
Proof. intros. by apply strict_int_Some. Qed.

Lemma strict_rate_run f : float_pos f && float_le_one f = true → strict_rate (Some (VFloat f)) = Some f.
Proof. intros H. unfold strict_rate. simpl. by rewrite H. Qed.

Lemma strict_rate_Some v f : strict_rate v = Some f → float_pos f && float_le_one f = true.
Proof. unfold strict_rate. intros (g & _ & H)%bind_Some. case_match; naive_solver. Qed.

(** Splits a validation that succeeded into its steps. *)
Ltac fields H :=
  repeat match type of H with
  | (_ ≫= _) = Some _ => let a := fresh "a" in let Ha := fresh "Ha" in apply bind_Some in H as (a & Ha & H)
  | Some _ = Some _ => injection H as H
  end;
  repeat match goal with Ha : strict_int _ _ _ = Some _ |- _ => apply strict_int_Some in Ha as [_ Ha] end.

Lemma validate_cpu_ok v body : validate_cpu v = Some body → body_ok body.
Proof. unfold validate_cpu. intros H. fields H. subst. simpl. lia. Qed.

Lemma validate_training_ok v body : validate_training v = Some body → body_ok body.
Proof. unfold validate_training. intros H. fields H. subst. simpl. split_and!; eauto using strict_rate_Some; lia. Qed.

Lemma validate_inference_ok m v body : validate_inference m v = Some body → body_ok body.
Proof.
  unfold validate_inference. intros H. fields H. repeat (case_match; try discriminate). fields H. subst. simpl.
  split_and!; try lia. by apply (bool_decide_eq_true_1 _).
Qed.

Lemma validate_body_ok d body : validate_body d = Some body → body_ok body.
Proof.
  unfold validate_body. intros (p & _ & H)%bind_Some.
  repeat (case_match; try discriminate); fields H;
    eauto using validate_cpu_ok, validate_training_ok, validate_inference_ok.
Qed.

Lemma model_validate_ok v spec : model_validate v = Some spec → spec_ok spec.
Proof.
  destruct v as [| | | | | |d]; try discriminate. cbn [model_validate]. intros H. fields H. subst. split; simpl; try lia.
  - match goal with Hv : strict_int_from _ _ = Some _ |- _ => rename Hv into Hver end.
    unfold strict_int_from in Hver. repeat (case_match; try discriminate). simplify_eq. lia.
  - match goal with Hr : dict_get "resources" _ ≫= _ = Some _ |- _ =>
      apply bind_Some in Hr as (r & _ & Hr); unfold validate_resources in Hr; fields Hr end.
    subst. unfold resources_ok; simpl. lia.
  - by eapply validate_body_ok.
Qed.

(** ** Validating what was dumped *)

(** The identifiers of a specification are canonical: [uuid7] reads them as
    themselves. *)
Definition ids_canonical (spec : JobSpec) : Prop :=
  uuid7 (VStr (spec_input_artifact_id spec)) = Some (spec_input_artifact_id spec) ∧
  ∀ m, spec_model_artifact_id spec = Some m → uuid7 (VStr m) = Some m.

Lemma validate_resources_run r : resources_ok r → validate_resources (VDict (resources_dump r)) = Some r.
Proof.
  intros (H1 & H2 & H3). destruct r as [c m g]. unfold validate_resources. simpl in *.
  rewrite !strict_int_run by done. done.
Qed.

Lemma validate_parameters_run body :
  body_ok body →
  match body with
  | CpuJobSpec _ _ _ => validate_cpu (VDict (parameters_dump body)) = Some body
  | TrainingJobSpec _ _ _ _ _ => validate_training (VDict (parameters_dump body)) = Some body
  | InferenceJobSpec m _ _ _ => validate_inference m (VDict (parameters_dump body)) = Some body
  end.
Proof.
  destruct body as [i s m|e b l s n|m c b f]; simpl; intros H.
  - destruct H as (? & ? & ?). unfold validate_cpu. simpl. by rewrite !strict_int_run.
  - destruct H as (? & ? & ? & ? & ?). unfold validate_training. simpl.
    by rewrite !strict_int_run, strict_rate_run.
  - destruct H as (? & ? & Hf). unfold validate_inference. simpl. rewrite !strict_int_run by done. simpl.
    by rewrite bool_decide_eq_true_2.
Qed.

(** A specification survives being stored: validating the document it is dumped to
    gives the specification back. *)
Lemma dumped_spec_validates spec :
  spec_ok spec → ids_canonical spec → model_validate (model_dump spec) = Some spec.
Proof.
  intros [Hv Hr Hp Hl Hi Hb] [Hin Hm]. pose proof (validate_parameters_run _ Hb) as Hpar.
  destruct spec as [v inp r p l i body]. simpl in *. unfold model_dump, model_validate.
  assert (1 <=? v = true) as Hv' by lia.
  destruct body; simpl in *; unfold strict_int_from, validate_body, spec_template_id; simpl;
    [rewrite Hpar|rewrite Hpar|rewrite (Hm _ eq_refl); simpl; rewrite Hpar]; simpl;
    rewrite Hv', Hin; simpl; rewrite validate_resources_run by done; simpl; by rewrite !strict_int_run.
Qed.
End validate.
