(* ===== verification/Control.v ===== *)
(** * User control of jobs

    [src/nexa/application/job_control.py]: cancelling, pausing and resuming a job,
    the whole request from authorization and idempotent replay to the stored
    response, under its version precondition
    ([src/nexa/application/preconditions.py]); with [expected_compatibility] of
    [src/nexa/application/checkpoint_validation.py]. *)

From Stdlib Require Import Ascii.
From stdpp Require Import pretty.
From S2P Require Import Prelude PyDecimal PyValue WorkerModels Database Ledger Authority Idempotency Identity Dispatch Cleanup.

Local Open Scope string_scope.
Local Open Scope list_scope.
Local Open Scope Z_scope.

(** ** Version preconditions *)

Definition quote : ascii := ascii_of_nat 34.

Definition digit_value (c : ascii) : option Z :=
  let n := Z.of_nat (nat_of_ascii c) in
  if (48 <=? n) && (n <=? 57) then Some (n - 48) else None.

(** The digits of an ETag up to its closing quote. *)
Fixpoint etag_digits (acc : Z) (s : string) : option Z :=
  match s with
  | "" => None
  | String c s =>
      if Ascii.eqb c quote then (if String.eqb s "" then Some acc else None)
      else match digit_value c with
           | Some d => etag_digits (acc * 10 + d) s
           | None => None
           end
  end.

(** The pattern ["v([1-9][0-9]*)"] with its quotes. *)
Definition parse_etag (s : string) : option Z :=
  match s with
  | String q (String v (String c s)) =>
      if Ascii.eqb q quote && Ascii.eqb v "v"%char then
        match digit_value c with
        | Some d => if d =? 0 then None else etag_digits d s
        | None => None
        end
      else None
  | _ => None
  end.

(** A version given as a number, or as the If-Match header of a request. *)
Inductive ExpectedVersion :=
| VersionNumber (value : Z)
| VersionPrecondition (raw_value : option string).

Definition resolve_expected_version (value : ExpectedVersion) : outcome SvcError Z :=
  match value with
  | VersionNumber value =>
      if value <? 1 then Raise (PyError (ValueError "Expected version must be positive")) else Ret value
  | VersionPrecondition None => Raise (ApplicationError "precondition_required" 428 "If-Match is required")
  | VersionPrecondition (Some raw) =>
      match parse_etag raw with
      | None => Raise (ApplicationError "validation_failed" 400 "If-Match must be a strong version ETag")
      | Some version => Ret version
      end
  end.

(** ** Checkpoint compatibility *)

Definition _FRAMEWORKS : list (string * string) := [("NEXA_CPU", "PYTHON"); ("PYTORCH", "PYTORCH")].

Definition list_of (v : pyval) : list pyval := match v with VList l => l | _ => [] end.

(** [None] where the source raises [CheckpointManifestError]. *)
Definition expected_compatibility (template : TemplateRow) (architecture : pyval) : option pyval :=
  let requirements := tv_capability_requirements template in
  let framework :=
    match get_key "framework" requirements with
    | VStr f => dict_get f _FRAMEWORKS
    | _ => None
    end in
  match architecture, framework with
  | VStr a, Some framework =>
      if existsb (py_eq (VStr a)) (list_of (get_key "architectures" requirements)) then
        Some (VDict
          [("architecture", VStr a);
           ("device_type", get_key "device" requirements);
           ("framework", VStr framework);
           ("framework_version", get_key "framework_version" requirements);
           ("cuda_version", get_key "cuda_runtime_min" requirements);
           ("minimum_driver_version", get_key "driver_min" requirements);
           ("gpu_compute_capability", get_key "compute_capability_min" requirements);
           ("checkpointable", VBool (tv_checkpointable template));
           ("restart_safe", VBool (tv_restart_safe template))])
      else None
  | _, _ => None
  end.

Definition _restorable_checkpoint (job_id : string) (template : TemplateRow) : Tx bool := λ db,
  (Ret (existsb (λ c, restorable db job_id c && bool_decide (cp_state c = "COMMITTED") && negb (corrupt db c)
          && match expected_compatibility template (get_key "architecture" (cp_compatibility c)) with
             | Some expected => py_eq (cp_compatibility c) expected
             | None => false
             end) (rows db T_checkpoints)), db).

Definition spec_and_template (job_id : string) : Tx (SpecRow * TemplateRow) :=
  specs ← select T_job_specs (λ s, bool_decide (sp_job_id s = job_id));
  spec ← one specs;
  templates ← select T_template_versions (λ t,
    bool_decide (tv_template_id t = sp_template_id spec) && (tv_version t =? sp_template_version spec));
  template ← one templates;
  mret (spec, template).

(** ** The control pipeline *)

Definition _IMMEDIATE_CANCEL : list JobState := [JS_QUEUED; JS_RETRY_WAIT; JS_PAUSED].

Definition _state_conflict (message : string) : SvcError := state_conflict message.
(** A refused transition names the state the job is in. *)
Definition state_value (st : JobState) : string :=
  match st with
  | JS_QUEUED => "QUEUED" | JS_DISPATCHING => "DISPATCHING" | JS_RUNNING => "RUNNING" | JS_PAUSING => "PAUSING"
  | JS_PAUSED => "PAUSED" | JS_RECOVERING => "RECOVERING" | JS_RETRY_WAIT => "RETRY_WAIT"
  | JS_CANCELLING => "CANCELLING" | JS_SUCCEEDED => "SUCCEEDED"
  | JS_FAILED => "FAILED" | JS_CANCELLED => "CANCELLED"
  end.
Definition cannot (job : JobRow) (done_to_it : string) : SvcError :=
  _state_conflict ("A " +:+ state_value (j_state job) +:+ " job cannot be " +:+ done_to_it).
Definition _infeasible (message : string) : SvcError := ApplicationError "infeasible_request" 422 message.

(** What a control hands to a transition ([ControlContext]) and what the transition
    leaves in it: the staged job changes and whether the job becomes terminal. *)
Record ControlContext := { cc_job : JobRow; cc_counters : list CounterRow; cc_now : Z }.
Record Transition := {
  ct_event_type : string;
  ct_event_reason : string;
  ct_changes : JobRow → JobRow;
  ct_terminal : bool;
}.

Definition _control_counters (tenant_id submitter : string) : Tx (list CounterRow) :=
  read_counters [("GLOBAL", "global"); ("TENANT", tenant_id); ("USER", tenant_id +:+ ":" +:+ submitter)].

Definition _control_event (job : JobRow) (user_id action audit_reason event_type reason : string)
    (changes : JobRow → JobRow) : Tx () :=
  let before := j_version job in
  let sequence := j_event_sequence job + 1 in
  _ ← update_ T_jobs (is_job (j_job_id job))
        (λ r, (changes r) <| j_version := before + 1 |> <| j_event_sequence := sequence |>);
  event_id ← new_uuid7;
  _ ← insert T_events
        (MkEventRow event_id (j_tenant_id job) (j_job_id job) sequence event_type (Some reason) "USER" user_id);
  audit_id ← new_uuid7;
  insert T_audit_records
    (MkAuditRow audit_id "USER" user_id (Some (j_tenant_id job)) action "JOB" (j_job_id job) (Some before)
       (Some (before + 1)) (Some audit_reason)).

(** Who controls which job, and why. *)
Record ControlRequest := {
  co_principal : Principal;
  co_tenant_id : string;
  co_job_id : string;
  co_reason : string;
  co_idempotency_key : string;
  co_request_hash : string;
  co_if_match : option string;
}.

(** The settings a job request reads. *)
Record JobSettings := {
  js_idle_ttl : Z;
  js_retention_days : Z;
  js_pending_wait : Z;
}.

(** The readings of the clock in one request: when the principal is checked, the
    transaction's timestamp, and the time of the change. *)
Record Times := { t_checked : Z; t_started : Z; t_now : Z }.

(** [JobOperationResult]. *)
Record JobOperationResult := {
  jr_status : Z;
  jr_body : option ResponseBody;
  jr_headers : list (string * string);
}.

Definition replayed (replay : StoredResponse) : JobOperationResult :=
  {| jr_status := sr_status replay; jr_body := sr_body replay; jr_headers := sr_headers replay |}.

Definition of_job (tenant_id job_id : string) (r : JobRow) : bool :=
  bool_decide (j_tenant_id r = tenant_id) && is_job job_id r.

Definition _visible_submitter (live : Principal) (tenant_id job_id : string) : Tx string :=
  match require_tenant_membership live tenant_id with
  | Raise e => se_raise (PyError e)
  | Ret membership =>
      found ← select T_jobs (of_job tenant_id job_id);
      job ← one_or_none found;
      let not_found := ApplicationError "resource_not_found" 404 "Job was not found" in
      match job with
      | None => se_raise not_found
      | Some job =>
          let submitter := j_submitter_user_id job in
          _ ← se_when (negb (bool_decide (tm_role membership = "TENANT_ADMIN")) &&
                       negb (bool_decide (Some submitter = p_user_id live))) not_found;
          mret submitter
      end
  end.

(** [_job_query] for one job: its row joined with its spec and its session. *)
Definition _job_query (tenant_id job_id : string) : Tx (list (JobRow * SpecRow * SessionRow)) :=
  jobs ← select T_jobs (of_job tenant_id job_id);
  specs ← select T_job_specs (λ r, bool_decide (sp_job_id r = job_id));
  sessions ← select T_logical_sessions (λ r, bool_decide (ls_job_id r = job_id));
  mret (mjoin ((λ j, mjoin ((λ s, (λ l, (j, s, l)) <$> sessions) <$> specs)) <$> jobs)).

Definition _job_view (row : JobRow * SpecRow * SessionRow) : ResponseBody :=
  let '(job, spec, session) := row in
  JobView job (sp_canonical_spec spec) (sp_spec_checksum spec) (ls_session_id session).

Definition etag (version : Z) : string := String quote ("v" +:+ pretty version +:+ String quote "").

Definition job_key (live : Principal) (tenant_id operation_id key : string) : RequestKey :=
  {| rk_context := tenant_id; rk_principal_id := user_text live; rk_operation_id := operation_id; rk_key := key |}.

Section control.
Variable settings : JobSettings.

Definition _control (q : ControlRequest) (operation_id action : string) (t : Times)
    (apply : ControlContext → Tx Transition) : Tx JobOperationResult :=
  live ← _authorize (js_idle_ttl settings) (t_checked t) (co_principal q) (co_tenant_id q) true;
  submitter ← _visible_submitter live (co_tenant_id q) (co_job_id q);
  outcome ← begin_idempotency (job_key live (co_tenant_id q) operation_id (co_idempotency_key q))
              (co_request_hash q) (t_started t + days (js_retention_days settings)) (js_pending_wait settings);
  match io_replay outcome with
  | Some replay => mret (replayed replay)
  | None =>
      expected ← se_lift (resolve_expected_version (VersionPrecondition (co_if_match q)));
      mode ← _mode;
      _ ← se_when (bool_decide (mode = WRITE_FROZEN)) (_state_conflict "Writes are frozen");
      counters ← _control_counters (co_tenant_id q) submitter;
      jobs ← select T_jobs (of_job (co_tenant_id q) (co_job_id q));
      job ← one jobs;
      _ ← se_when (negb (j_version job =? expected))
            (ApplicationError "version_conflict" 412 "Job version does not match If-Match");
      x ← apply {| cc_job := job; cc_counters := counters; cc_now := t_now t |};
      _ ← _control_event job (user_text live) action (co_reason q) (ct_event_type x) (ct_event_reason x) (ct_changes x);
      rows ← _job_query (co_tenant_id q) (co_job_id q);
      row ← one rows;
      let headers := [("ETag", etag (j_version row.1.1))] in
      _ ← complete_idempotency (io_record_id outcome) 202 (Some (_job_view row)) headers (Some (co_job_id q)) false;
      _ ← (if ct_terminal x then extend_retention (co_job_id q) (t_now t) (js_retention_days settings) else mret ());
      mret {| jr_status := 202; jr_body := Some (_job_view row); jr_headers := headers |}
  end.

(** The attempt of a job whose lease is not revoked: the rows of the join of
    attempts and leases. *)
Definition _lock_live_attempt (job_id : string) : Tx (option AttemptRow) :=
  leases ← select T_attempt_leases live_lease;
  attempts ← select T_attempts (λ a, bool_decide (at_job_id a = job_id));
  one_or_none (mjoin ((λ a, (λ _, a) <$> List.filter (λ l, bool_decide (le_attempt_id l = at_attempt_id a)) leases)
                       <$> attempts)).

Definition cancel_apply (c : ControlContext) : Tx Transition :=
  let job := cc_job c in
  let now := cc_now c in
  let job_id := j_job_id job in
  if bool_decide (j_state job ∈ _IMMEDIATE_CANCEL) then
    _ ← update_ T_reservations (λ r, bool_decide (rv_job_id r = job_id) && is_none (rv_invalidated_at r))
          (λ r, r <| rv_invalidated_at := Some now |> <| rv_invalidation_reason := Some "job_cancelled" |>);
    _ ← update_ T_retry_schedules (λ r, bool_decide (rt_job_id r = job_id) && is_none (rt_closed_at r))
          (λ r, r <| rt_closed_at := Some now |>);
    _ ← _adjust_counters (cc_counters c) 1 0;
    mret {| ct_event_type := "JOB_CANCELLED"; ct_event_reason := "USER_CANCEL";
            ct_changes := λ r, r <| j_state := JS_CANCELLED |> <| j_desired_state := DS_CANCELLED |>
                                 <| j_recovery_intent := None |> <| j_waiting_reason := None |>
                                 <| j_terminal_at := Some now |>;
            ct_terminal := true |}
  else if bool_decide (j_state job ∈ _ACTIVE) then
    attempt ← _lock_live_attempt job_id;
    match attempt with
    | None =>
        mret {| ct_event_type := "CANCEL_REQUESTED"; ct_event_reason := "USER_CANCEL";
                ct_changes := λ r, r <| j_state := JS_CANCELLING |> <| j_desired_state := DS_CANCELLED |>;
                ct_terminal := false |}
    | Some attempt =>
        _ ← fence_attempt (at_attempt_id attempt) now AS_STOPPING "USER_CANCEL" "USER_CANCEL" "USER_CANCEL";
        mret {| ct_event_type := "CANCEL_REQUESTED"; ct_event_reason := "USER_CANCEL";
                ct_changes := λ r, r <| j_state := JS_CANCELLING |> <| j_desired_state := DS_CANCELLED |>
                                     <| j_job_fence := j_job_fence job + 1 |>;
                ct_terminal := false |}
    end
  else if bool_decide (j_state job = JS_RECOVERING) then
    mret {| ct_event_type := "CANCEL_REQUESTED"; ct_event_reason := "USER_CANCEL";
            ct_changes := λ r, r <| j_state := JS_CANCELLING |> <| j_desired_state := DS_CANCELLED |>;
            ct_terminal := false |}
  else se_raise (cannot job "cancelled").

Definition pause_apply (c : ControlContext) : Tx Transition :=
  let job := cc_job c in
  '(_, template) ← spec_and_template (j_job_id job);
  _ ← se_when (negb (tv_checkpointable template)) (_infeasible "Job template is not checkpointable");
  _ ← se_when (negb (bool_decide (j_state job = JS_RUNNING)) || negb (bool_decide (j_desired_state job = DS_RUNNING)))
        (cannot job "paused");
  mret {| ct_event_type := "PAUSE_REQUESTED"; ct_event_reason := "USER_PAUSE";
          ct_changes := λ r, r <| j_state := JS_PAUSING |> <| j_desired_state := DS_PAUSED |>;
          ct_terminal := false |}.

Definition resume_apply (c : ControlContext) : Tx Transition :=
  let job := cc_job c in
  _ ← se_when (negb (bool_decide (j_state job = JS_PAUSED))) (cannot job "resumed");
  '(_, template) ← spec_and_template (j_job_id job);
  restorable ← _restorable_checkpoint (j_job_id job) template;
  _ ← se_when (negb (tv_restart_safe template || restorable))
        (_infeasible "No compatible checkpoint or restart-safe input");
  match cc_counters c with
  | [] => se_raise (PyError (Exn "IndexError" "list index out of range"))
  | global_counter :: _ =>
      _ ← update_ T_admission_counters (scope_row ("GLOBAL", "global"))
            (λ r, r <| ac_version := ac_version global_counter + 1 |>);
      mret {| ct_event_type := "JOB_RESUMED"; ct_event_reason := "USER_RESUME";
              ct_changes := λ r, r <| j_state := JS_QUEUED |> <| j_desired_state := DS_RUNNING |>
                                   <| j_recovery_intent := None |> <| j_waiting_reason := None |>
                                   <| j_ready_sequence := ac_version global_counter |>;
              ct_terminal := false |}
  end.

Definition cancel_job (q : ControlRequest) (t : Times) : Tx JobOperationResult :=
  _control q "cancelJob" "job.cancel" t cancel_apply.
Definition pause_job (q : ControlRequest) (t : Times) : Tx JobOperationResult :=
  _control q "pauseJob" "job.pause" t pause_apply.
Definition resume_job (q : ControlRequest) (t : Times) : Tx JobOperationResult :=
  _control q "resumeJob" "job.resume" t resume_apply.
End control.
