(* ===== verification/Admission.v ===== *)
(** * Admission

    Submitting a job and retrying a failed one: [submit], [_admit] and [_create_job] of
    [src/nexa/application/job_service.py] with the validation they do,
    [retry_failed_job] of [src/nexa/application/job_control.py] and the storage checks
    of [src/nexa/application/storage_pressure.py].  Identifiers drawn before the
    transaction begins, the disk reading taken there and the verification of a retry's
    checkpoint are arguments; so are the readings of the clock. *)

From Stdlib Require Import Ascii.
From stdpp Require Import pretty.
From S2P Require Import Prelude PyDecimal PyValue PyFloat WorkerModels Database Ledger RateLimit Authority Capabilities.
From S2P Require Import Idempotency Identity Dispatch Cleanup Retry JobSpecs Control.

Local Open Scope string_scope.
Local Open Scope list_scope.
Local Open Scope Z_scope.

(** ** Storage pressure *)

Definition ADMISSION : string := "admission".
Definition USER_UPLOAD : string := "user_upload".
Definition WORKER_UPLOAD : string := "worker_upload".

Record StorageReading := { sr_total : Z; sr_free : Z }.

(** The settings the storage checks read. *)
Record StorageSettings := {
  ss_high_watermark : Z;
  ss_critical_watermark : Z;
  ss_tenant_quota_bytes : Z;
}.

Definition lift_exn {A} (m : outcome exn A) : outcome SvcError A :=
  match m with Ret a => Ret a | Raise e => Raise (PyError e) end.

Definition used_percent (r : StorageReading) (extra_bytes : Z) : outcome SvcError spec_float :=
  f ← lift_exn (int_truediv (sr_total r - sr_free r + extra_bytes) (sr_total r));
  Ret (float_mul f (float_exact 100)).

Definition unavailable : SvcError :=
  ApplicationErrorAfter "dependency_unavailable" 503 "Artifact storage capacity cannot be checked" 1.
Definition pressure : SvcError := ApplicationErrorAfter "storage_pressure" 503 "Artifact storage is under pressure" 1.

(** A reading, or the error to raise once the replay was looked for.  The disk usage
    the store reports is [None] where it raises an [ArtifactError]. *)
Definition Reading : Type := StorageReading + SvcError.
Definition read_storage (disk_usage : option (Z * Z)) : Reading :=
  match disk_usage with
  | None => inr unavailable
  | Some (total, free) => inl {| sr_total := total; sr_free := free |}
  end.

Definition enforce_watermark (settings : StorageSettings) (reading : Reading) (operation : string) (extra_bytes : Z) :
    outcome SvcError () :=
  match reading with
  | inr error => Raise error
  | inl reading =>
      used ← used_percent reading extra_bytes;
      let threshold :=
        if bool_decide (operation = WORKER_UPLOAD) then ss_critical_watermark settings else ss_high_watermark settings in
      raise_when (float_ge_int used threshold) pressure
  end.

(** A disk filled exactly to a watermark of 57 percent is admitted: the percentage is
    computed in floating point, and 57 / 100 * 100 is below 57. *)
Example watermark_rounding :
  enforce_watermark {| ss_high_watermark := 57; ss_critical_watermark := 95; ss_tenant_quota_bytes := 0 |}
    (read_storage (Some (100, 43))) ADMISSION 0 = Ret ().
Proof. by vm_compute. Qed.

Definition enforce_byte_quota (settings : StorageSettings) (tenant_id : string) : Tx () :=
  found ← select T_artifact_storage_counters (λ r, bool_decide (sc_tenant_id r = tenant_id));
  row ← one_or_none found;
  let used := match row with None => 0 | Some r => sc_committed_bytes r + sc_reserved_bytes r end in
  se_when (ss_tenant_quota_bytes settings <=? used)
    (ApplicationErrorAfter "quota_exceeded" 429 "Tenant artifact quota exceeded" 1).

(** An error of the store, by its code, as the clients see it. *)
Definition store_failure (code message : string) : SvcError :=
  if bool_decide (code = "payload_too_large") then ApplicationError "payload_too_large" 413 message
  else if bool_decide (code = "checksum_mismatch") then ApplicationError "checksum_mismatch" 422 message
  else if bool_decide (code ∈ ["size_mismatch"; "validation_failed"]) then ApplicationError "validation_failed" 422 message
  else if bool_decide (code = "storage_full") then pressure
  else ApplicationErrorAfter "dependency_unavailable" 503 "Artifact storage is unavailable" 1.

(** ** Validating a specification against its template *)

Definition type_error : SvcError := PyError (Exn "TypeError" "").

Definition number_ltb (a b : Z * Z) : bool :=
  let e := Z.min a.2 b.2 in a.1 * 2 ^ (a.2 - e) <? b.1 * 2 ^ (b.2 - e).

(** [a < b] where [a] is a number or a string; an infinity or NaN is ordered as
    Python orders it. *)
Definition py_lt (a b : pyval) : outcome SvcError bool :=
  match a, b with
  | VStr s, VStr t => Ret (negb (String.leb t s))
  | VFloat S754_nan, (VBool _ | VInt _ | VFloat _) | (VBool _ | VInt _ | VFloat _), VFloat S754_nan => Ret false
  | VFloat (S754_infinity s), VFloat (S754_infinity t) => Ret (s && negb t)
  | VFloat (S754_infinity s), (VBool _ | VInt _ | VFloat _) => Ret s
  | (VBool _ | VInt _ | VFloat _), VFloat (S754_infinity s) => Ret (negb s)
  | _, _ =>
      match finite_number a, finite_number b with
      | Some x, Some y => Ret (number_ltb x y)
      | _, _ => Raise type_error
      end
  end.

Fixpoint starts_with (s t : string) : bool :=
  match s, t with
  | "", _ => true
  | String c s, String d t => Ascii.eqb c d && starts_with s t
  | String _ _, "" => false
  end.
Fixpoint occurs_in (s t : string) : bool :=
  starts_with s t || match t with "" => false | String _ t => occurs_in s t end.

(** [value in container] where [value] is a number or a string. *)
Definition py_in (value container : pyval) : outcome SvcError bool :=
  match container with
  | VList l => Ret (existsb (py_eq value) l)
  | VDict d => Ret (existsb (λ k, py_eq value (VStr k)) d.*1)
  | VStr t => match value with VStr s => Ret (occurs_in s t) | _ => Raise type_error end
  | _ => Raise type_error
  end.

Definition declaration_fields (d : pyval) : option (string * pyval) :=
  match d with
  | VDict _ => match get_key "name" d with VStr name => Some (name, d) | _ => None end
  | _ => None
  end.

(** [type(value)] against the declared type. *)
Definition valid_type (declared value : pyval) : bool :=
  match declared, value with
  | VStr "INTEGER", VInt _ | VStr "NUMBER", (VInt _ | VFloat _) | VStr "BOOLEAN", VBool _
  | VStr "STRING", VStr _ | VStr "ENUM", VStr _ => true
  | _, _ => false
  end.

(** [declaration.get(key, default)]. *)
Definition get_default (key : string) (default : pyval) (d : pyval) : pyval :=
  match d with VDict f => match dict_get key f with Some v => v | None => default end | _ => default end.

Definition check_parameter (parameters : list (string * pyval)) (declared : string * pyval) : outcome SvcError () :=
  let '(name, declaration) := declared in
  match dict_get name parameters with
  | None =>
      raise_when (py_truth (get_default "required" (VBool true) declaration))
        (infeasible "A required template parameter is missing")
  | Some value =>
      let declared_type := get_key "type" declaration in
      _ ← raise_when (negb (hashable declared_type)) unhashable;
      _ ← raise_when (negb (valid_type declared_type value)) (infeasible "A template parameter has the wrong type");
      let minimum := get_key "minimum" declaration in
      let maximum := get_key "maximum" declaration in
      let outside := infeasible "A template parameter is outside its allowed bounds" in
      below ← (if is_VNone minimum then Ret false else py_lt value minimum);
      _ ← raise_when below outside;
      above ← (if is_VNone maximum then Ret false else py_lt maximum value);
      _ ← raise_when above outside;
      let enum_values := get_key "enum_values" declaration in
      if is_VNone enum_values then Ret ()
      else
        allowed ← py_in value enum_values;
        raise_when (negb allowed) (infeasible "A template parameter is not an allowed value")
  end.

Definition _validate_parameter_schema (template : TemplateRow) (parameters : list (string * pyval)) :
    outcome SvcError () :=
  let unavailable := infeasible "The template parameter schema is unavailable" in
  declarations ← match (if is_VNone (tv_parameter_schema template) then VList [] else tv_parameter_schema template) with
                 | VList l => or_raise (mapM declaration_fields l) unavailable
                 | _ => Raise unavailable
                 end;
  _ ← raise_when (negb (bool_decide (NoDup declarations.*1)) || negb (bool_decide (parameters.*1 ⊆ declarations.*1)))
        (infeasible "Job parameters do not match the selected template");
  for_each declarations (λ _, check_parameter parameters) ().

Definition bounds_unavailable : SvcError := infeasible "The template resource bounds are unavailable".

(** The keys among these that a document has, with their values. *)
Definition present (keys : list string) (d : list (string * pyval)) : list pyval :=
  omap (λ k, dict_get k d) keys.

Definition is_natural (v : pyval) : option Z := match v with VInt n => if 0 <=? n then Some n else None | _ => None end.

Definition _integer_bound (declared : pyval) : outcome SvcError (option Z * Z) :=
  '(minimum, maximum) ← match declared with
    | VInt n => Ret (VNone, VInt n)
    | VDict d =>
        match present ["minimum"; "min"] d, present ["maximum"; "max"] d with
        | [], [maximum] => Ret (VNone, maximum)
        | [minimum], [maximum] => Ret (minimum, maximum)
        | _, _ => Raise bounds_unavailable
        end
    | _ => Ret (VNone, VNone)
    end;
  high ← or_raise (is_natural maximum) bounds_unavailable;
  if is_VNone minimum then Ret (None, high)
  else
    low ← or_raise (is_natural minimum) bounds_unavailable;
    _ ← raise_when (high <? low) bounds_unavailable;
    Ret (Some low, high).

(** One bound: [requested] within what [key] declares. *)
Definition within_bound (declared : list (string * pyval)) (key : string) (requested : Z) (error : SvcError) :
    outcome SvcError () :=
  bound ← or_raise (dict_get key declared) bounds_unavailable;
  '(minimum, maximum) ← _integer_bound bound;
  raise_when (match minimum with Some m => requested <? m | None => false end || (maximum <? requested)) error.

Definition _validate_resource_bounds (template : TemplateRow) (spec : JobSpec) : outcome SvcError () :=
  match tv_resource_bounds template with
  | VDict declared =>
      match get_key "resources" (VDict declared) with
      | VDict resources =>
          let exceeded := infeasible "Requested resources exceed the template bounds" in
          let r := spec_resources spec in
          _ ← within_bound resources "cpu_millis" (rq_cpu_millis r) exceeded;
          _ ← within_bound resources "memory_bytes" (rq_memory_bytes r) exceeded;
          _ ← within_bound resources "gpu_count" (rq_gpu_count r) exceeded;
          let limits := infeasible "Runtime limits exceed the template bounds" in
          _ ← within_bound declared "runtime_limit_seconds" (spec_runtime_limit_seconds spec) limits;
          within_bound declared "checkpoint_interval_seconds" (spec_checkpoint_interval_seconds spec) limits
      | _ => Raise bounds_unavailable
      end
  | _ => Raise bounds_unavailable
  end.

(** ** Templates and artifacts *)

Definition enabled_template (template_id : string) (version : Z) : Tx TemplateRow :=
  families ← select T_templates (λ f, bool_decide (tf_template_id f = template_id) && tf_enabled f);
  versions ← select T_template_versions (λ v, bool_decide (tv_template_id v = template_id) && (tv_version v =? version));
  found ← one_or_none (mjoin ((λ f, versions) <$> families));
  match found with
  | Some template => mret template
  | None => se_raise (infeasible "The requested template is unavailable")
  end.

Definition committed (tenant_id : string) (ids : list string) (a : Artifact) : bool :=
  bool_decide (a_tenant_id a = tenant_id) && bool_decide (a_artifact_id a ∈ ids) && bool_decide (a_state a = "COMMITTED").

(** [artifacts_by_id[id]]. *)
Definition artifact_of (rows : list Artifact) (id : string) : option Artifact :=
  dict_get id (dict_of ((λ a, (a_artifact_id a, a)) <$> rows)).

Definition incompatible (adapter : AdapterDescriptor) (input : Artifact) (model : option Artifact) : bool :=
  negb (bool_decide (a_kind input = input_kind adapter))
  || negb (bool_decide (a_media_type input = input_media_type adapter))
  || match model_kind adapter with
     | None => false
     | Some kind =>
         match model with
         | None => true
         | Some m => negb (bool_decide (a_kind m = kind)) || negb (bool_decide (Some (a_media_type m) = model_media_type adapter))
         end
     end.

Definition device_mismatch (requirements : list (string * pyval)) (gpu_count : Z) : bool :=
  let device := get_key "device" (VDict requirements) in
  (py_eq device (VStr "CPU") && negb (gpu_count =? 0)) || (py_eq device (VStr "CUDA") && negb (gpu_count =? 1)).

Definition _validate_template_and_artifacts (tenant_id : string) (spec : JobSpec) :
    Tx (TemplateRow * Artifact * option Artifact) :=
  template ← enabled_template (spec_template_id spec) (spec_template_version spec);
  _ ← se_lift (_validate_parameter_schema template (parameters_dump (spec_body spec)));
  let ids := spec_input_artifact_id spec :: match spec_model_artifact_id spec with Some m => [m] | None => [] end in
  rows ← select T_artifacts (committed tenant_id ids);
  let missing := ApplicationError "resource_not_found" 404 "The referenced artifact was not found" in
  _ ← se_when (negb (length (remove_dups (a_artifact_id <$> rows)) =? length (remove_dups ids))%nat) missing;
  input ← match artifact_of rows (spec_input_artifact_id spec) with
          | Some a => mret a
          | None => se_raise (PyError (Exn "KeyError" (spec_input_artifact_id spec)))
          end;
  match template_descriptor template with
  | None => se_raise (infeasible "The template artifact compatibility rules are unavailable")
  | Some adapter =>
      let model := spec_model_artifact_id spec ≫= artifact_of rows in
      _ ← se_when (incompatible adapter input model)
            (infeasible "The input or model artifact is incompatible with the template");
      _ ← se_lift (_validate_resource_bounds template spec);
      match (if py_truth (tv_capability_requirements template) then tv_capability_requirements template else VDict []) with
      | VDict requirements =>
          _ ← se_when (device_mismatch requirements (rq_gpu_count (spec_resources spec)))
                (infeasible "Requested resources are incompatible with the template capability");
          mret (template, input, model)
      | _ => se_raise (infeasible "The template capability requirements are unavailable")
      end
  end.

(** ** Workers that could run it *)

Definition gpu_document (g : GpuDeviceRow) : pyval :=
  VDict [("worker_id", VStr (gd_worker_id g)); ("inventory_version", VInt (gd_inventory_version g));
         ("inventory_id", VStr (gd_inventory_id g)); ("gpu_uuid", VStr (gd_gpu_uuid g)); ("model", VStr (gd_model g));
         ("memory_bytes", VInt (gd_memory_bytes g)); ("compute_capability", VStr (gd_compute_capability g));
         ("driver_version", VStr (gd_driver_version g)); ("api_version", VStr (gd_api_version g));
         ("healthy", VBool (gd_healthy g))].

(** The current inventory of a worker. *)
Definition current_of (w : WorkerRow) (i : InventoryRow) : bool :=
  bool_decide (in_worker_id i = wk_worker_id w)
  && bool_decide (Some (in_worker_incarnation_id i) = wk_current_incarnation_id w)
  && bool_decide (Some (in_inventory_version i) = wk_current_inventory_version w).

Definition capable (requirements : list (string * pyval)) (devices : list GpuDeviceRow) (r : ResourceRequest)
    (row : WorkerRow * InventoryRow) : bool :=
  let '(w, i) := row in
  let gpus := List.filter (λ g, bool_decide (gd_worker_id g = wk_worker_id w)
                                && (gd_inventory_version g =? in_inventory_version i)) devices in
  let document := inventory_document i ++
    (if (length requirements =? 0)%nat then [] else [("gpu_devices", VList (gpu_document <$> gpus))]) in
  (rq_cpu_millis r <=? in_allocatable_cpu_millis i) && (rq_memory_bytes r <=? in_allocatable_memory_bytes i)
  && (rq_gpu_count r <=? in_allocatable_gpu_count i) && _inventory_supports document requirements.

Definition _waiting_reason (spec : JobSpec) (requirements : list (string * pyval)) (now : Z) : Tx (option string) :=
  workers ← select T_workers (λ w, negb (bool_decide (wk_admin_state w = "DISABLED")));
  inventories ← select T_worker_inventories (λ _, true);
  devices ← select T_gpu_devices (λ _, true);
  let rows := mjoin ((λ w, (λ i, (w, i)) <$> List.filter (current_of w) inventories) <$> workers) in
  let requested := spec_resources spec in
  if (length rows =? 0)%nat then
    _ ← se_when (negb (rq_gpu_count requested =? 0)) (infeasible "No configured GPU can satisfy the request");
    mret (Some "waiting_for_worker")
  else
    let able := List.filter (capable requirements devices requested) rows in
    _ ← se_when (length able =? 0)%nat (infeasible "No configured worker can satisfy the request");
    mret (if existsb (λ row, _worker_is_ready row.1 now) able then None else Some "waiting_for_worker").

(** ** Admission *)

(** The readings of the clock in one submission: when the principal is checked, the
    transaction's timestamp, and when each rate bucket is read. *)
Record SubmitTimes := { st_checked : Z; st_started : Z; st_tenant_rate : Z; st_user_rate : Z }.

Section admission.
Context (settings : JobSettings) (storage : StorageSettings).

Definition enforce_storage (tenant_id : string) (reading : option Reading) : Tx () :=
  _ ← match reading with
      | None => mret ()
      | Some reading => se_lift (enforce_watermark storage reading ADMISSION 0)
      end;
  enforce_byte_quota storage tenant_id.

Definition _admit (live : Principal) (tenant_id : string) (check_storage : bool) (reading : option Reading)
    (t : SubmitTimes) : Tx (TenantPolicyRow * CounterRow * string) :=
  policies ← select T_policy_versions pv_is_current;
  global_policy ← one policies;
  _ ← se_when (bool_decide (pv_operational_mode global_policy ∈ [ADMISSION_OFF; WRITE_FROZEN]))
        (state_conflict "New job submissions are disabled in the current operational mode");
  _ ← (if check_storage then enforce_storage tenant_id reading else mret ());
  found ← select T_tenant_policies (λ p, bool_decide (tq_tenant_id p = tenant_id) && tq_is_current p);
  found ← one_or_none found;
  match found with
  | None => se_raise (ApplicationErrorAfter "dependency_unavailable" 503 "Tenant admission policy is unavailable" 1)
  | Some tenant_policy =>
      global_counter ← _counter_lock "GLOBAL" "global";
      tenant_counter ← _counter_lock "TENANT" tenant_id;
      let user_scope_id := tenant_id +:+ ":" +:+ user_text live in
      user_counter ← _counter_lock "USER" user_scope_id;
      _ ← se_when (pv_global_outstanding_limit global_policy <=? ac_outstanding global_counter)
            (ApplicationErrorAfter "queue_full" 503 "The durable queue is full" 1);
      _ ← se_when (tq_outstanding_limit tenant_policy <=? ac_outstanding tenant_counter)
            (ApplicationErrorAfter "quota_exceeded" 429 "Tenant outstanding quota exceeded" 1);
      _ ← se_when (tq_user_outstanding_limit tenant_policy <=? ac_outstanding user_counter)
            (ApplicationErrorAfter "quota_exceeded" 429 "User outstanding quota exceeded" 1);
      _ ← _rate_lock "TENANT" tenant_id (tq_tenant_rate_burst tenant_policy) (tq_tenant_rate_per_second tenant_policy)
            (st_tenant_rate t);
      _ ← _rate_lock "USER" user_scope_id (tq_user_rate_burst tenant_policy) (tq_user_rate_per_second tenant_policy)
            (st_user_rate t);
      mret (tenant_policy, global_counter, user_scope_id)
  end.

(** The counters a job is outstanding in. *)
Definition counted (tenant_id user_scope_id : string) (r : CounterRow) : bool :=
  scope_row ("GLOBAL", "global") r || scope_row ("TENANT", tenant_id) r || scope_row ("USER", user_scope_id) r.

(** What the caller of [_create_job] decides: whose job, of which specification, and
    why. *)
Record NewJob := {
  nj_tenant_id : string;
  nj_job_id : string;
  nj_session_id : string;
  nj_spec : JobSpec;
  nj_payload : pyval;
  nj_checksum : string;
  nj_retry_of : option string;
  nj_event_reason : string;
  nj_action : string;
  nj_audit_reason : string;
}.

Definition reference (n : NewJob) (purpose logical_name : string) (a : Artifact) : ArtifactReferenceRow :=
  MkArtifactReferenceRow (nj_tenant_id n) (a_artifact_id a) "JOB_SPEC" (nj_job_id n) purpose logical_name.

(** The rows of a new job and of its specification. *)
Definition queued_row (n : NewJob) (submitter : string) (waiting_reason : option string) (ready_sequence now : Z) : JobRow :=
  MkJobRow (nj_job_id n) (nj_tenant_id n) submitter JS_QUEUED DS_RUNNING waiting_reason None 1 0 1 0 0 2 (nj_retry_of n)
    ready_sequence (Some now) None None now (spec_priority (nj_spec n)).
Definition spec_row (n : NewJob) : SpecRow :=
  let spec := nj_spec n in
  let requested := spec_resources spec in
  MkSpecRow (nj_job_id n) (nj_payload n) (nj_checksum n) (spec_template_id spec) (spec_template_version spec)
    (rq_cpu_millis requested) (rq_memory_bytes requested) (rq_gpu_count requested) (nj_tenant_id n)
    (spec_input_artifact_id spec) (spec_model_artifact_id spec) (spec_runtime_limit_seconds spec)
    (spec_checkpoint_interval_seconds spec).

(** One more outstanding job. *)
Definition bump (r : CounterRow) : CounterRow :=
  r <| ac_outstanding := ac_outstanding r + 1 |> <| ac_version := ac_version r + 1 |>.

Definition _create_job (live : Principal) (n : NewJob) (tenant_policy : TenantPolicyRow) (global_counter : CounterRow)
    (user_scope_id : string) (now : Z) : Tx () :=
  let spec := nj_spec n in
  let requested := spec_resources spec in
  '(template, input, model) ← _validate_template_and_artifacts (nj_tenant_id n) spec;
  _ ← se_when ((tq_cpu_limit_millis tenant_policy <? rq_cpu_millis requested)
               || (tq_memory_limit_bytes tenant_policy <? rq_memory_bytes requested)
               || (tq_gpu_limit tenant_policy <? rq_gpu_count requested))
        (infeasible "Requested resources exceed the tenant limit");
  requirements ← se_lift (_inventory_requirements template);
  waiting_reason ← _waiting_reason spec requirements now;
  submitter ← match p_user_id live with
              | Some u => mret u
              | None => se_raise (PyError (Exn "IntegrityError" "submitter_user_id"))
              end;
  _ ← insert T_jobs (queued_row n submitter waiting_reason (ac_version global_counter) now);
  _ ← insert T_logical_sessions (MkSessionRow (nj_session_id n) (nj_tenant_id n) (nj_job_id n));
  _ ← insert T_job_specs (spec_row n);
  _ ← insert T_artifact_references (reference n "INPUT" "input.data" input);
  _ ← match model with
      | None => mret ()
      | Some m => insert T_artifact_references (reference n "MODEL" "model.data" m)
      end;
  event_id ← new_uuid7;
  _ ← insert T_events
        (MkEventRow event_id (nj_tenant_id n) (nj_job_id n) 1 "JOB_ACCEPTED" (Some (nj_event_reason n)) "USER" (user_text live));
  _ ← update_ T_admission_counters (counted (nj_tenant_id n) user_scope_id) bump;
  audit_id ← new_uuid7;
  insert T_audit_records
    (MkAuditRow audit_id "USER" (user_text live) (Some (nj_tenant_id n)) (nj_action n) "JOB" (nj_job_id n) None (Some 1)
       (Some (nj_audit_reason n))).

(** ** Submitting *)

Context (jcs_request_hash : pyval → string) (uuid7 : pyval → option string).

Record SubmitRequest := {
  sq_principal : Principal;
  sq_tenant_id : string;
  sq_spec : JobSpec;
  sq_idempotency_key : string;
  sq_request_hash : string;
}.

Definition submitted_job (q : SubmitRequest) (job_id session_id : string) : NewJob :=
  {| nj_tenant_id := sq_tenant_id q; nj_job_id := job_id; nj_session_id := session_id; nj_spec := sq_spec q;
     nj_payload := model_dump (sq_spec q); nj_checksum := jcs_request_hash (model_dump (sq_spec q));
     nj_retry_of := None; nj_event_reason := "Job accepted"; nj_action := "job.submit";
     nj_audit_reason := "Job accepted" |}.

(** The stored response of a created job. *)
Definition accepted_response (record_id tenant_id job_id : string) (headers : list (string * string)) :
    Tx JobOperationResult :=
  rows ← _job_query tenant_id job_id;
  row ← one rows;
  _ ← complete_idempotency record_id 202 (Some (_job_view row)) headers (Some job_id) false;
  mret {| jr_status := 202; jr_body := Some (_job_view row); jr_headers := headers |}.

Definition submit (q : SubmitRequest) (job_id session_id : string) (reading : option Reading) (t : SubmitTimes) :
    Tx JobOperationResult :=
  live ← _authorize (js_idle_ttl settings) (st_checked t) (sq_principal q) (sq_tenant_id q) true;
  outcome ← begin_idempotency (job_key live (sq_tenant_id q) "submitJob" (sq_idempotency_key q)) (sq_request_hash q)
              (st_started t + days (js_retention_days settings)) (js_pending_wait settings);
  match io_replay outcome with
  | Some replay => mret (replayed replay)
  | None =>
      '(tenant_policy, global_counter, user_scope_id) ← _admit live (sq_tenant_id q) true reading t;
      _ ← _create_job live (submitted_job q job_id session_id) tenant_policy global_counter user_scope_id (st_started t);
      accepted_response (io_record_id outcome) (sq_tenant_id q) job_id [("Location", "/v1/jobs/" +:+ job_id); ("ETag", etag 1)]
  end.

(** ** Retrying a failed job *)

(** What the verification of the requested checkpoint, before the transaction,
    found. *)
Inductive Scan :=
| ScanValid (checkpoint_id : string)
| ScanInvalid (reason : string)
| ScanMissing
| ScanSkip
| ScanUnavailable.

Definition is_valid_scan (scan : Scan) (checkpoint_id : string) : bool :=
  match scan with ScanValid c => bool_decide (c = checkpoint_id) | _ => false end.

(** [retry_lineage]: the job and the jobs it was retried from.  The walk visits a job
    once, so that one step per job is enough. *)
Fixpoint lineage (fuel : nat) (jobs : list JobRow) (seen : list string) (job_id : string) : list string :=
  match fuel with
  | O => seen
  | S fuel =>
      if bool_decide (job_id ∈ seen) then seen
      else match List.find (is_job job_id) jobs with
           | None => seen
           | Some job =>
               match j_retry_of_job_id job with
               | None => job_id :: seen
               | Some source => lineage fuel jobs (job_id :: seen) source
               end
           end
  end.
Definition retry_lineage (tenant_id job_id : string) : Tx (list string) :=
  jobs ← select T_jobs (λ j, bool_decide (j_tenant_id j = tenant_id));
  mret (lineage (S (length jobs)) jobs [] job_id).

(** [try: m except ApplicationError: raise e]. *)
Definition or_else {A} (m : Tx A) (e : SvcError) : Tx A := λ db,
  match m db with
  | (Raise (ApplicationError _ _ _), db') | (Raise (ApplicationErrorAfter _ _ _ _), db') => (Raise e, db')
  | r => r
  end.

Definition not_compatible : SvcError := _infeasible "Checkpoint is not a compatible committed checkpoint".

Definition _lock_retry_checkpoint (live : Principal) (tenant_id : string) (source_spec : SpecRow)
    (checkpoint_id : string) (scan : Scan) : Tx () :=
  let not_found := ApplicationError "resource_not_found" 404 "Checkpoint was not found" in
  found ← select T_checkpoints (λ c, bool_decide (cp_checkpoint_id c = checkpoint_id) && bool_decide (cp_tenant_id c = tenant_id));
  found ← one_or_none found;
  match found with
  | None => se_raise not_found
  | Some row =>
      _ ← or_else (_visible_submitter live tenant_id (cp_job_id row)) not_found;
      _ ← se_when (match scan with ScanUnavailable => true | _ => false end)
            (ApplicationErrorAfter "dependency_unavailable" 503 "Artifact storage is unavailable" 1);
      specs ← select T_job_specs (λ s, bool_decide (sp_job_id s = cp_job_id row));
      owner_spec ← one specs;
      corrupt ← select T_checkpoint_corruptions (λ x, bool_decide (cx_checkpoint_id x = checkpoint_id));
      related ← retry_lineage tenant_id (sp_job_id source_spec);
      _ ← se_when (negb (bool_decide (cp_state row = "COMMITTED")) || negb (length corrupt =? 0)%nat
                   || negb (bool_decide (cp_job_id row ∈ related))
                   || negb (bool_decide (sp_spec_checksum owner_spec = sp_spec_checksum source_spec))
                   || negb (is_valid_scan scan checkpoint_id)) not_compatible;
      files ← select T_artifact_references (λ r, bool_decide (af_tenant_id r = tenant_id)
                && bool_decide (af_owner_type r = "CHECKPOINT") && bool_decide (af_owner_id r = checkpoint_id)
                && bool_decide (af_purpose r = "CHECKPOINT_FILE"));
      let wanted := remove_dups (cp_manifest_artifact_id row :: (af_artifact_id <$> files)) in
      locked ← select T_artifacts (committed tenant_id wanted);
      se_when (negb (length locked =? length wanted)%nat) not_compatible
  end.

Record RetryRequest := {
  ry_principal : Principal;
  ry_tenant_id : string;
  ry_job_id : string;
  ry_reason : string;
  ry_checkpoint_id : option string;
  ry_idempotency_key : string;
  ry_request_hash : string;
  ry_if_match : option string;
}.

Definition retried_job (q : RetryRequest) (job_id session_id : string) (spec : JobSpec) (source : SpecRow) : NewJob :=
  {| nj_tenant_id := ry_tenant_id q; nj_job_id := job_id; nj_session_id := session_id; nj_spec := spec;
     nj_payload := sp_canonical_spec source; nj_checksum := sp_spec_checksum source;
     nj_retry_of := Some (ry_job_id q); nj_event_reason := "MANUAL_RETRY"; nj_action := "job.retry";
     nj_audit_reason := ry_reason q |}.

Definition retry_failed_job (q : RetryRequest) (job_id session_id : string) (scan : Scan) (t : SubmitTimes) :
    Tx JobOperationResult :=
  let tenant_id := ry_tenant_id q in
  live ← _authorize (js_idle_ttl settings) (st_checked t) (ry_principal q) tenant_id true;
  _ ← _visible_submitter live tenant_id (ry_job_id q);
  outcome ← begin_idempotency (job_key live tenant_id "retryFailedJob" (ry_idempotency_key q)) (ry_request_hash q)
              (st_started t + days (js_retention_days settings)) (js_pending_wait settings);
  match io_replay outcome with
  | Some replay => mret (replayed replay)
  | None =>
      expected ← se_lift (resolve_expected_version (VersionPrecondition (ry_if_match q)));
      '(tenant_policy, global_counter, user_scope_id) ← _admit live tenant_id false None t;
      jobs ← select T_jobs (of_job tenant_id (ry_job_id q));
      source ← one jobs;
      _ ← se_when (negb (j_version source =? expected))
            (ApplicationError "version_conflict" 412 "Job version does not match If-Match");
      _ ← se_when (negb (bool_decide (j_state source = JS_FAILED))) (cannot source "retried");
      specs ← select T_job_specs (λ s, bool_decide (sp_job_id s = ry_job_id q));
      source_spec ← one specs;
      _ ← match ry_checkpoint_id q with
          | None => mret ()
          | Some checkpoint_id => _lock_retry_checkpoint live tenant_id source_spec checkpoint_id scan
          end;
      match model_validate uuid7 (sp_canonical_spec source_spec) with
      | None => se_raise (_infeasible "The source job spec cannot be admitted again")
      | Some spec =>
          _ ← _create_job live (retried_job q job_id session_id spec source_spec) tenant_policy global_counter
                user_scope_id (st_started t);
          _ ← match ry_checkpoint_id q with
              | None => mret ()
              | Some checkpoint_id => insert T_checkpoint_references (MkCheckpointReferenceRow checkpoint_id job_id)
              end;
          accepted_response (io_record_id outcome) tenant_id job_id [("ETag", etag 1)]
      end
  end.
End admission.
