(* ===== verification/Workers.v ===== *)
(** * Administrative control of workers

    [src/nexa/application/admin_workers.py]: draining and disabling a worker, the
    whole request from authorization to the stored response.  Disabling fences every
    attempt whose lease on the worker is not revoked.  With [_authorize],
    [_ensure_mutable] and [_audit] of [src/nexa/application/admin_service.py]. *)

From S2P Require Import Prelude PyDecimal PyValue WorkerModels Database Ledger Authority Idempotency Identity.
From S2P Require Import Dispatch Cleanup Control.

Local Open Scope string_scope.
Local Open Scope list_scope.
Local Open Scope Z_scope.

(** ** The administrative pipeline *)

(** [AdminService._authorize]. *)
Definition admin_authorize (idle_ttl now : Z) (principal : Principal) (write : bool) : Tx Principal :=
  live ← _revalidate_principal idle_ttl now principal;
  match require_admin live write with
  | Raise (Exn _ message) => se_raise (permission_denied message)
  | Ret _ => mret live
  end.

Definition _ensure_mutable : Tx () :=
  mode ← _mode;
  se_when (bool_decide (mode = WRITE_FROZEN))
    (state_conflict "Administrative mutations are disabled while writes are frozen").

(** [AdminService._audit]. *)
Definition admin_audit (actor_id action target_type target_id reason : string) (before after : option Z) : Tx () :=
  audit_id ← new_uuid7;
  insert T_audit_records
    (MkAuditRow audit_id "ADMIN" actor_id None action target_type target_id before after (Some reason)).

(** ** Fencing a worker's attempts *)

Definition _job_event (job : JobRow) (actor_id event_type : string) (keep_version : bool) (changes : JobRow → JobRow)
    : Tx () :=
  let version := if keep_version then j_version job else j_version job + 1 in
  _ ← update_ T_jobs (is_job (j_job_id job))
        (λ r, (changes r) <| j_version := version |> <| j_event_sequence := j_event_sequence job + 1 |>);
  event_id ← new_uuid7;
  _ ← insert T_events
        (MkEventRow event_id (j_tenant_id job) (j_job_id job) (j_event_sequence job + 1) event_type
           (Some "WORKER_DISABLED") "ADMIN" actor_id);
  audit_id ← new_uuid7;
  insert T_audit_records
    (MkAuditRow audit_id "ADMIN" actor_id (Some (j_tenant_id job)) event_type "JOB" (j_job_id job)
       (Some (j_version job)) (Some version) (Some "WORKER_DISABLED")).

Definition lease_leb (a b : string * string) : bool :=
  String.ltb a.1 b.1 || (bool_decide (a.1 = b.1) && String.leb a.2 b.2).

(** The jobs and leases of the worker's allocations, by job and lease. *)
Definition worker_leases (worker_id : string) : Tx (list (string * string)) :=
  allocations ← select T_allocations (λ a, bool_decide (al_worker_id a = worker_id));
  leases ← select T_attempt_leases live_lease;
  mret (py_sorted lease_leb
          (mjoin ((λ l, (λ _, (le_job_id l, le_lease_id l)) <$>
                     List.filter (λ a, bool_decide (al_allocation_id a = le_allocation_id l)) allocations) <$> leases))).

Definition fence_worker_lease (now : Z) (actor_id : string) (probe : string * string) : Tx () :=
  jobs ← select T_jobs (is_job probe.1);
  job ← one jobs;
  leases ← select T_attempt_leases (has_lease probe.2);
  lease ← one leases;
  attempts ← select T_attempts (has_attempt (le_attempt_id lease));
  attempt ← one attempts;
  if negb (live_lease lease) then mret ()
  else if bool_decide (j_state job ∈ _ACTIVE) && (at_job_fence attempt =? j_job_fence job) then
    _ ← fence_attempt (at_attempt_id attempt) now AS_STOPPING "INFRASTRUCTURE" "WORKER_DISABLED" "WORKER_DISABLED";
    _job_event job actor_id "ATTEMPT_FENCED" false
      (λ r, r <| j_state := JS_RECOVERING |> <| j_job_fence := j_job_fence job + 1 |>)
  else
    _ ← revoke_leftover_authority (at_attempt_id attempt) (le_allocation_id lease) now "WORKER_DISABLED";
    _job_event job actor_id "LEASE_REVOKED" true (λ r, r).

Definition _fence_worker_attempts (worker_id : string) (now : Z) (actor_id : string) : Tx () :=
  probe ← worker_leases worker_id;
  for_rows probe (fence_worker_lease now actor_id).

(** ** Requests *)

Definition _worker (worker_id : string) : Tx WorkerRow :=
  found ← select T_workers (λ r, bool_decide (wk_worker_id r = worker_id));
  row ← one_or_none found;
  match row with
  | None => se_raise (ApplicationError "resource_not_found" 404 "Worker was not found")
  | Some row => mret row
  end.

Record WorkerRequest := {
  wr_principal : Principal;
  wr_worker_id : string;
  wr_reason : string;
  wr_expected_version : ExpectedVersion;
  wr_idempotency_key : string;
  wr_request_hash : string;
}.

Section workers.
Variable settings : JobSettings.

(** [apply] returns the changes of the worker's row. *)
Definition _mutate_worker (q : WorkerRequest) (operation_id action : string) (status : Z) (t : Times)
    (apply : WorkerRow → Z → Principal → Tx (WorkerRow → WorkerRow)) : Tx (option ResponseBody) :=
  live ← admin_authorize (js_idle_ttl settings) (t_checked t) (wr_principal q) true;
  outcome ← begin_idempotency (job_key live "GLOBAL" operation_id (wr_idempotency_key q)) (wr_request_hash q)
              (t_started t + days 30) (js_pending_wait settings);
  match io_replay outcome with
  | Some replay => mret (sr_body replay)
  | None =>
      required_version ← se_lift (resolve_expected_version (wr_expected_version q));
      _ ← _ensure_mutable;
      worker ← _worker (wr_worker_id q);
      _ ← se_when (negb (wk_version worker =? required_version))
            (ApplicationError "version_conflict" 412 "Worker version does not match If-Match");
      values ← apply worker (t_now t) live;
      _ ← update_ T_workers (λ r, bool_decide (wk_worker_id r = wr_worker_id q))
            (λ r, (values r) <| wk_version := wk_version worker + 1 |>);
      updated ← _worker (wr_worker_id q);
      _ ← admin_audit (user_text live) action "WORKER" (wr_worker_id q) (wr_reason q) (Some (wk_version worker))
            (Some (wk_version updated));
      _ ← complete_idempotency (io_record_id outcome) status (Some (WorkerView updated))
            [("ETag", etag (wk_version updated))] (Some (wr_worker_id q)) false;
      mret (Some (WorkerView updated))
  end.

Definition drain_worker (q : WorkerRequest) (t : Times) : Tx (option ResponseBody) :=
  _mutate_worker q "adminDrainWorker" "admin.worker.drain" 202 t (λ worker _ _,
    _ ← se_when (negb (bool_decide (wk_admin_state worker = "ENABLED")))
          (state_conflict ("A " +:+ wk_admin_state worker +:+ " worker cannot be drained"));
    mret (λ r, r <| wk_admin_state := "DRAINING" |>)).

Definition disable_worker (q : WorkerRequest) (t : Times) : Tx (option ResponseBody) :=
  _mutate_worker q "adminDisableWorker" "admin.worker.disable" 202 t (λ worker now live,
    _ ← se_when (bool_decide (wk_admin_state worker = "DISABLED")) (state_conflict "The worker is already disabled");
    _ ← _fence_worker_attempts (wr_worker_id q) now (user_text live);
    mret (λ r, r <| wk_admin_state := "DISABLED" |> <| wk_health := "STARTING" |> <| wk_ready_at := None |>)).
End workers.
