(* ===== verification/PolicyService.v ===== *)
(** * Policies

    [src/nexa/application/policy_service.py]: the versions of the global policy, with
    the operational mode, and of the tenants' policies; with
    [validate_mode_transition] of [src/nexa/domain/policy.py].  A policy is never
    updated in place: the current version is retired and the next one inserted.

    The evidence an operator's recovery needs is behind an interface,
    [RecoveryProofProvider]; its answers are functions of the database. *)

From Stdlib Require Import Ascii.
From stdpp Require Import pretty.
From S2P Require Import Prelude PyDecimal PyValue WorkerModels Database Ledger Authority Capabilities Idempotency Identity.
From S2P Require Import Dispatch Cleanup Control Workers Admission.

Local Open Scope string_scope.
Local Open Scope list_scope.
Local Open Scope Z_scope.

(** ** Operational modes *)

Definition PolicyTransitionError (message : string) : exn := Exn "PolicyTransitionError" message.

Definition validate_mode_transition (current target : OperationalMode)
    (freeze_ready restore_verified readiness_verified : bool) : outcome exn () :=
  if bool_decide (current = target) then
    Raise (PolicyTransitionError "Operational mode transition must change state")
  else match current, target with
       | NORMAL, ADMISSION_OFF => Ret ()
       | ADMISSION_OFF, WRITE_FROZEN =>
           raise_when (negb freeze_ready)
             (PolicyTransitionError "Freeze requires stopped containers and reconciled unreleased allocations")
       | WRITE_FROZEN, ADMISSION_OFF =>
           raise_when (negb restore_verified)
             (PolicyTransitionError "Restore verification is required before leaving frozen mode")
       | ADMISSION_OFF, NORMAL =>
           raise_when (negb readiness_verified)
             (PolicyTransitionError "Readiness and worker reconciliation are required")
       | _, _ => Raise (PolicyTransitionError "Operational mode transitions cannot skip an intermediate state")
       end.

(** [OperationalMode(text)]. *)
Definition mode_of (text : string) : option OperationalMode :=
  if bool_decide (text = "NORMAL") then Some NORMAL
  else if bool_decide (text = "ADMISSION_OFF") then Some ADMISSION_OFF
  else if bool_decide (text = "WRITE_FROZEN") then Some WRITE_FROZEN
  else None.

Record RecoveryProofProvider := {
  freeze_ready : DB → bool;
  restore_verified : DB → bool;
  readiness_verified : DB → bool;
}.

Definition FailClosedRecoveryProofProvider : RecoveryProofProvider := {|
  freeze_ready := λ _, false;
  restore_verified := λ _, false;
  readiness_verified := λ _, false;
|}.

(** ** Requests *)

(** [PolicyService._authorize]. *)
Definition policy_authorize := admin_authorize.

(** [PolicyService._audit]. *)
Definition policy_audit (actor_id action target_type target_id reason : string) (before after : option Z)
    (tenant_id : option string) : Tx () :=
  audit_id ← new_uuid7;
  insert T_audit_records
    (MkAuditRow audit_id "ADMIN" actor_id tenant_id action target_type target_id before after (Some reason)).

Definition validation_failed (message : string) : SvcError := ApplicationError "validation_failed" 422 message.

(** A parameter of a policy change: a [Decimal], or a JSON value. *)
Inductive PolicyValue := PV_decimal (d : decimal) | PV_json (v : pyval).

Definition _positive_decimal (value : PolicyValue) (name : string) (maximum : option decimal) : outcome SvcError decimal :=
  let bad := validation_failed (name +:+ " must be positive") in
  match value with
  | PV_json _ => Raise bad
  | PV_decimal d =>
      _ ← raise_when (negb (is_finite d) || dec_leb d dec_zero) bad;
      _ ← raise_when (match maximum with Some m => dec_ltb m d | None => false end)
            (validation_failed (name +:+ " exceeds its maximum"));
      Ret d
  end.

Definition _positive_int (value : PolicyValue) (name : string) : outcome SvcError Z :=
  match value with
  | PV_json (VInt n) => if n <? 1 then Raise (validation_failed (name +:+ " must be positive")) else Ret n
  | _ => Raise (validation_failed (name +:+ " must be positive"))
  end.

Definition _MAX_CPU_MILLIS : Z := 100000000.
Definition _MAX_MEMORY_BYTES : Z := 9223372036854775807.

Definition resource_field (resource : list (string * pyval)) (field : string) (maximum : Z) : outcome SvcError Z :=
  match get_key field (VDict resource) with
  | VInt value =>
      _ ← raise_when (value <? 0) (validation_failed ("resource_limit." +:+ field +:+ " must be nonnegative"));
      _ ← raise_when (maximum <? value) (validation_failed ("resource_limit." +:+ field +:+ " exceeds its maximum"));
      Ret value
  | _ => Raise (validation_failed ("resource_limit." +:+ field +:+ " must be nonnegative"))
  end.

Definition allowed_changes : list string :=
  ["weight"; "outstanding_limit"; "user_outstanding_limit"; "concurrent_attempt_limit"; "user_concurrent_attempt_limit";
   "resource_limit"; "submit_rate_per_second"; "submit_burst"; "user_submit_rate_per_second"; "user_submit_burst"].

(** [if name in changes: values[column] = check(changes[name])], as an update of the
    row the values replace columns of. *)
Definition change {A} (changes : list (string * PolicyValue)) (name : string) (check : PolicyValue → outcome SvcError A)
    (write : A → TenantPolicyRow → TenantPolicyRow) (values : TenantPolicyRow → TenantPolicyRow) :
    outcome SvcError (TenantPolicyRow → TenantPolicyRow) :=
  match dict_get name changes with
  | None => Ret values
  | Some value => a ← check value; Ret (λ r, write a (values r))
  end.

Definition check_resources (value : PolicyValue) : outcome SvcError (Z * Z * Z) :=
  let keys := ["cpu_millis"; "memory_bytes"; "gpu_count"] in
  let bad := validation_failed "resource_limit must contain CPU, memory and GPU values" in
  match value with
  | PV_json (VDict resource) =>
      _ ← raise_when (negb (bool_decide (resource.*1 ⊆ keys) && bool_decide (keys ⊆ resource.*1))) bad;
      cpu ← resource_field resource "cpu_millis" _MAX_CPU_MILLIS;
      memory ← resource_field resource "memory_bytes" _MAX_MEMORY_BYTES;
      gpu ← resource_field resource "gpu_count" 1;
      Ret (cpu, memory, gpu)
  | _ => Raise bad
  end.

Definition _validated_tenant_changes (changes : list (string * PolicyValue)) :
    outcome SvcError (TenantPolicyRow → TenantPolicyRow) :=
  _ ← raise_when (length changes =? 0)%nat (validation_failed "At least one tenant policy field must be updated");
  _ ← raise_when (negb (bool_decide (changes.*1 ⊆ allowed_changes))) (validation_failed "Unknown tenant policy field");
  let int name value := _positive_int value name in
  let decimal name value := _positive_decimal value name None in
  v ← change changes "weight" (λ v, _positive_decimal v "weight" (Some (dec_of_Z 1000))) (λ d r, r <| tq_weight := d |>) (λ r, r);
  v ← change changes "outstanding_limit" (int "outstanding_limit") (λ n r, r <| tq_outstanding_limit := n |>) v;
  v ← change changes "user_outstanding_limit" (int "user_outstanding_limit")
        (λ n r, r <| tq_user_outstanding_limit := n |>) v;
  v ← change changes "concurrent_attempt_limit" (int "concurrent_attempt_limit")
        (λ n r, r <| tq_tenant_active_limit := n |>) v;
  v ← change changes "user_concurrent_attempt_limit" (int "user_concurrent_attempt_limit")
        (λ n r, r <| tq_user_active_limit := n |>) v;
  v ← change changes "submit_rate_per_second" (decimal "submit_rate_per_second")
        (λ d r, r <| tq_tenant_rate_per_second := d |>) v;
  v ← change changes "user_submit_rate_per_second" (decimal "user_submit_rate_per_second")
        (λ d r, r <| tq_user_rate_per_second := d |>) v;
  v ← change changes "submit_burst" (int "submit_burst") (λ n r, r <| tq_tenant_rate_burst := dec_of_Z n |>) v;
  v ← change changes "user_submit_burst" (int "user_submit_burst") (λ n r, r <| tq_user_rate_burst := dec_of_Z n |>) v;
  change changes "resource_limit" check_resources
    (λ '(cpu, memory, gpu) r,
       r <| tq_cpu_limit_millis := cpu |> <| tq_memory_limit_bytes := memory |> <| tq_gpu_limit := gpu |>) v.

Record GlobalPolicyRequest := {
  gq_principal : Principal;
  gq_expected_version : ExpectedVersion;
  gq_outstanding_limit : option Z;
  gq_operational_mode : option string;
  gq_idempotency_key : string;
  gq_request_hash : string;
}.

Record TenantPolicyRequest := {
  tr_principal : Principal;
  tr_tenant_id : string;
  tr_expected_version : ExpectedVersion;
  tr_changes : list (string * PolicyValue);
  tr_idempotency_key : string;
  tr_request_hash : string;
}.

(** Raised, and caught by the caller, when a reopening needs the storage probe. *)
Definition _StorageProbeRequired : SvcError := PyError (Exn "_StorageProbeRequired" "").

(** The session a provider is handed reads the database. *)
Definition session : Tx DB := λ db, (Ret db, db).

Section policy_service.
Context (settings : JobSettings) (proofs : RecoveryProofProvider).

Definition get_global_policy (principal : Principal) (t : Times) : Tx PolicyRow :=
  live ← policy_authorize (js_idle_ttl settings) (t_checked t) principal false;
  found ← select T_policy_versions pv_is_current;
  row ← one found;
  _ ← policy_audit (user_text live) "admin.policy.global.get" "GLOBAL_POLICY" "current" "Global policy read"
        (Some (pv_policy_version row)) (Some (pv_policy_version row)) None;
  mret row.

Definition tenant_policy_not_found : SvcError := ApplicationError "resource_not_found" 404 "Tenant policy was not found".

Definition current_policy (tenant_id : string) (p : TenantPolicyRow) : bool :=
  bool_decide (tq_tenant_id p = tenant_id) && tq_is_current p.

Definition get_tenant_policy (principal : Principal) (tenant_id : string) (t : Times) : Tx TenantPolicyRow :=
  live ← policy_authorize (js_idle_ttl settings) (t_checked t) principal false;
  found ← select T_tenant_policies (current_policy tenant_id);
  found ← one_or_none found;
  match found with
  | None => se_raise tenant_policy_not_found
  | Some row =>
      _ ← policy_audit (user_text live) "admin.policy.tenant.get" "TENANT_POLICY" tenant_id "Tenant policy read"
            (Some (tq_version row)) (Some (tq_version row)) (Some tenant_id);
      mret row
  end.

(** ** The global policy *)

(** The change of mode, with the evidence it needs; a reopening alone reads the
    workers.  [clock] is the database time read after the ledger locks, if it is
    read. *)
Definition change_mode (current target : OperationalMode) (storage_ready : option bool) (t : Times) (clock : Z) : Tx () :=
  let reopen := bool_decide (current = ADMISSION_OFF) && bool_decide (target = NORMAL) in
  if bool_decide (current = target) then mret ()
  else
    unreleased ← select T_allocations (λ a, negb (bool_decide (al_state a = AL_RELEASED)));
    db ← session;
    _ ← match validate_mode_transition current target ((length unreleased =? 0)%nat && freeze_ready proofs db)
                (restore_verified proofs db)
                (reopen && bool_decide (storage_ready = Some true) && readiness_verified proofs db) with
        | Ret _ => mret ()
        | Raise (Exn _ message) => se_raise (state_conflict message)
        end;
    if bool_decide (target = WRITE_FROZEN) then account_locked (t_now t) clock else mret ().

Definition update_global_operation (q : GlobalPolicyRequest) (target_mode : option OperationalMode)
    (storage_ready : option bool) (t : Times) (clock : Z) : Tx (option ResponseBody) :=
  live ← policy_authorize (js_idle_ttl settings) (t_checked t) (gq_principal q) true;
  outcome ← begin_idempotency (job_key live "GLOBAL" "adminUpdateGlobalPolicy" (gq_idempotency_key q))
              (gq_request_hash q) (t_started t + days 30) (js_pending_wait settings);
  match io_replay outcome with
  | Some replay => mret (sr_body replay)
  | None =>
      required_version ← se_lift (resolve_expected_version (gq_expected_version q));
      found ← select T_policy_versions pv_is_current;
      current ← one found;
      _ ← se_when (negb (pv_policy_version current =? required_version))
            (ApplicationError "version_conflict" 412 "Global policy version does not match If-Match");
      let current_mode := pv_operational_mode current in
      _ ← se_when (bool_decide (current_mode = WRITE_FROZEN) && negb (bool_decide (target_mode = Some ADMISSION_OFF)))
            (state_conflict "Only a verified restore transition may mutate frozen policy");
      _ ← se_when (bool_decide (current_mode = WRITE_FROZEN) && negb (is_none (gq_outstanding_limit q)))
            (state_conflict "Frozen recovery transition cannot change admission limits");
      let new_limit := default (pv_global_outstanding_limit current) (gq_outstanding_limit q) in
      counters ← select T_admission_counters (scope_row ("GLOBAL", "global"));
      counter ← one_or_none counters;
      _ ← se_when (match counter with Some c => new_limit <? ac_outstanding c | None => false end)
            (state_conflict "Global outstanding limit is below the committed counter");
      let new_mode := default current_mode target_mode in
      _ ← se_when (bool_decide (current_mode = ADMISSION_OFF) && bool_decide (new_mode = NORMAL) && is_none storage_ready)
            _StorageProbeRequired;
      _ ← change_mode current_mode new_mode storage_ready t clock;
      let new_version := pv_policy_version current + 1 in
      _ ← update_ T_policy_versions (λ r, pv_policy_version r =? pv_policy_version current)
            (λ r, r <| pv_is_current := false |>);
      let row := MkPolicyRow new_version new_mode true new_limit in
      _ ← insert T_policy_versions row;
      _ ← policy_audit (user_text live) "admin.policy.global.update" "GLOBAL_POLICY" (pretty new_version)
            "Global policy version updated" (Some (pv_policy_version current)) (Some new_version) None;
      _ ← complete_idempotency (io_record_id outcome) 200 (Some (GlobalPolicyView row)) [("ETag", etag new_version)] None false;
      mret (Some (GlobalPolicyView row))
  end.

(** The whole request.  [probe] is the answer of the storage probe where one is
    configured; it is asked for only after the first transaction was rolled back. *)
Definition update_global_policy (q : GlobalPolicyRequest) (probe : option bool) (t : Times) (clock : Z) (t' : Times) (clock' : Z) :
    Tx (option ResponseBody) := λ db,
  if is_none (gq_outstanding_limit q) && is_none (gq_operational_mode q) then
    (Raise (validation_failed "At least one global policy field must be updated"), db)
  else if match gq_outstanding_limit q with Some n => negb ((1 <=? n) && (n <=? 1000000)) | None => false end then
    (Raise (validation_failed "Global outstanding limit is outside the approved bounds"), db)
  else
    match (match gq_operational_mode q with
           | None => Some None
           | Some text => Some <$> mode_of text
           end) with
    | None => (Raise (validation_failed "Unknown operational mode"), db)
    | Some target_mode =>
        match probe with
        | None => update_global_operation q target_mode (Some true) t clock db
        | Some storage_ready =>
            match update_global_operation q target_mode None t clock db with
            | (Raise (PyError e), db') =>
                if bool_decide (exn_class e = "_StorageProbeRequired")
                then update_global_operation q target_mode (Some storage_ready) t' clock' db
                else (Raise (PyError e), db')
            | r => r
            end
        end
    end.

(** ** Tenant policies *)

(** [scope_id.like(f"{tenant_id}:%")] of an identifier without wildcards. *)
Definition user_counter_of (tenant_id : string) (c : CounterRow) : bool :=
  bool_decide (ac_scope_type c = "USER") && starts_with (tenant_id +:+ ":") (ac_scope_id c).

Definition sum_of {A} (f : A → Z) (l : list A) : Z := fold_right (λ a s, f a + s) 0 l.

(** A counter that was at the old limit and is below the new one. *)
Definition resumed (old new active : Z) : bool := (old <=? active) && (active <? new).

Definition update_tenant_policy (q : TenantPolicyRequest) (t : Times) (clock : Z) : Tx (option ResponseBody) :=
  values ← se_lift (_validated_tenant_changes (tr_changes q));
  let tenant_id := tr_tenant_id q in
  live ← policy_authorize (js_idle_ttl settings) (t_checked t) (tr_principal q) true;
  outcome ← begin_idempotency (job_key live "GLOBAL" "adminUpdateTenantPolicy" (tr_idempotency_key q))
              (tr_request_hash q) (t_started t + days 30) (js_pending_wait settings);
  match io_replay outcome with
  | Some replay => mret (sr_body replay)
  | None =>
      required_version ← se_lift (resolve_expected_version (tr_expected_version q));
      mode ← _mode;
      _ ← se_when (bool_decide (mode = WRITE_FROZEN))
            (state_conflict "Tenant policy mutation is disabled while writes are frozen");
      found ← select T_tenant_policies (current_policy tenant_id);
      found ← one_or_none found;
      match found with
      | None => se_raise tenant_policy_not_found
      | Some current =>
          _ ← se_when (negb (tq_version current =? required_version))
                (ApplicationError "version_conflict" 412 "Tenant policy version does not match If-Match");
          let final := values current in
          counters ← select T_admission_counters (scope_row ("TENANT", tenant_id));
          tenant_counter ← one_or_none counters;
          _ ← se_when (match tenant_counter with
                       | Some c => (tq_outstanding_limit final <? ac_outstanding c)
                                   || (tq_tenant_active_limit final <? ac_active_attempts c)
                       | None => false
                       end) (state_conflict "Tenant policy is below a committed admission counter");
          user_counters ← select T_admission_counters (user_counter_of tenant_id);
          _ ← se_when (existsb (λ c, (tq_user_outstanding_limit final <? ac_outstanding c)
                                     || (tq_user_active_limit final <? ac_active_attempts c)) user_counters)
                (state_conflict "Tenant policy is below a committed user counter");
          held ← select T_allocations (λ a, bool_decide (al_tenant_id a = tenant_id)
                                            && negb (bool_decide (al_state a = AL_RELEASED)));
          _ ← se_when ((tq_cpu_limit_millis final <? sum_of al_cpu_millis held)
                       || (tq_memory_limit_bytes final <? sum_of al_memory_bytes held)
                       || (tq_gpu_limit final <? sum_of al_gpu_count held))
                (state_conflict "Tenant resource policy is below unreleased allocations");
          let now := t_now t in
          _ ← account_locked now clock;
          let new_version := tq_version current + 1 in
          _ ← update_ T_tenant_policies (λ r, bool_decide (tq_tenant_id r = tenant_id) && (tq_version r =? tq_version current))
                (λ r, r <| tq_is_current := false |>);
          let row := final <| tq_tenant_id := tenant_id |> <| tq_version := new_version |> <| tq_is_current := true |> in
          _ ← insert T_tenant_policies row;
          _ ← (if match tenant_counter with
                  | Some c => resumed (tq_tenant_active_limit current) (tq_tenant_active_limit final) (ac_active_attempts c)
                  | None => false
                  end
               then update_ T_admission_counters (scope_row ("TENANT", tenant_id))
                      (λ r, r <| ac_eligible_resumed_at := Some now |>)
               else mret ());
          _ ← for_rows user_counters (λ c,
                if resumed (tq_user_active_limit current) (tq_user_active_limit final) (ac_active_attempts c)
                then update_ T_admission_counters (scope_row ("USER", ac_scope_id c))
                       (λ r, r <| ac_eligible_resumed_at := Some now |>)
                else mret ());
          _ ← rebase_locked now;
          _ ← policy_audit (user_text live) "admin.policy.tenant.update" "TENANT_POLICY" tenant_id
                "Tenant policy version updated" (Some (tq_version current)) (Some new_version) (Some tenant_id);
          _ ← complete_idempotency (io_record_id outcome) 200 (Some (TenantPolicyView row)) [("ETag", etag new_version)] None
                false;
          mret (Some (TenantPolicyView row))
      end
  end.
End policy_service.
