(* ===== verification/WorkerSession.v ===== *)
(** * Worker sessions

    [src/nexa/application/worker_service.py]: the life of a worker process seen by the
    control plane.  [create_incarnation] replaces the process a worker runs as;
    [get_reconciliation] pages through what the server still holds for it;
    [heartbeat] records its inventory and decides whether it is READY; [poll] and
    [sweep_health].  With [enable_worker] and [worker_readiness_failure] of
    [admin_workers.py] and the proof that reopens normal operation,
    [readiness_proof.py].

    The JCS hash of an inventory, the HMAC of a cursor and whether the artifact store
    passes its write probe are parameters; clock readings are arguments. *)

From Stdlib Require Import Ascii SpecFloat.
From stdpp Require Import pretty.
From S2P Require Import Prelude PyDecimal PyValue Json WorkerModels Security Cursors Database Sorting Ledger Authority.
From S2P Require Import Capabilities Idempotency Identity PyFloat Control Workers Admission PolicyService.

Local Open Scope string_scope.
Local Open Scope list_scope.
Local Open Scope Z_scope.

(** ** Requests *)

Record RuntimeCapability := {
  rc_docker_version : string;
  rc_oci_runtime : string;
  rc_oci_runtime_version : string;
  rc_cgroups_version : Z;
  rc_kernel_release : string;
  rc_seccomp_available : bool;
}.
Record AdapterCapability := { ac_adapter_id : string; ac_adapter_version : string }.
Record ImageCapability := { ic_image_digest : string; ic_architecture : string; ic_verified : bool }.
Record FrameworkCapability := {
  fc_framework : string;
  fc_framework_version : string;
  fc_device : string;
  fc_cuda_runtime_version : option string;
}.
Record GpuDevice := {
  gv_uuid : string;
  gv_model : string;
  gv_memory_bytes : Z;
  gv_compute_capability : string;
  gv_driver_version : string;
  gv_cuda_driver_api_version : string;
  gv_healthy : bool;
}.
Record WorkerInventory := {
  iv_architecture : string;
  iv_host_cpu_millis : Z;
  iv_host_memory_bytes : Z;
  iv_cpu_millis : Z;
  iv_memory_bytes : Z;
  iv_gpu_count : Z;
  iv_runtime : RuntimeCapability;
  iv_adapters : list AdapterCapability;
  iv_images : list ImageCapability;
  iv_frameworks : list FrameworkCapability;
  iv_gpu_devices : list GpuDevice;
  iv_discovered_at : string;
}.

Definition opt_str (s : option string) : pyval := match s with Some s => VStr s | None => VNone end.

Definition runtime_value (r : RuntimeCapability) : pyval :=
  VDict [("docker_version", VStr (rc_docker_version r)); ("oci_runtime", VStr (rc_oci_runtime r));
         ("oci_runtime_version", VStr (rc_oci_runtime_version r)); ("cgroups_version", VInt (rc_cgroups_version r));
         ("kernel_release", VStr (rc_kernel_release r)); ("seccomp_available", VBool (rc_seccomp_available r))].
Definition adapters_value (l : list AdapterCapability) : pyval :=
  VList ((λ a, VDict [("adapter_id", VStr (ac_adapter_id a)); ("adapter_version", VStr (ac_adapter_version a))]) <$> l).
Definition images_value (l : list ImageCapability) : pyval :=
  VList ((λ i, VDict [("image_digest", VStr (ic_image_digest i)); ("architecture", VStr (ic_architecture i));
                      ("verified", VBool (ic_verified i))]) <$> l).
Definition frameworks_value (l : list FrameworkCapability) : pyval :=
  VList ((λ f, VDict [("framework", VStr (fc_framework f)); ("framework_version", VStr (fc_framework_version f));
                      ("device", VStr (fc_device f)); ("cuda_runtime_version", opt_str (fc_cuda_runtime_version f))]) <$> l).
Definition device_value (d : GpuDevice) : pyval :=
  VDict [("uuid", VStr (gv_uuid d)); ("model", VStr (gv_model d)); ("memory_bytes", VInt (gv_memory_bytes d));
         ("compute_capability", VStr (gv_compute_capability d)); ("driver_version", VStr (gv_driver_version d));
         ("cuda_driver_api_version", VStr (gv_cuda_driver_api_version d)); ("healthy", VBool (gv_healthy d))].

(** [json_wire_value(inventory.model_dump())] without [discovered_at]: what the checksum
    is taken of. *)
Definition inventory_value (v : WorkerInventory) : pyval :=
  VDict [("architecture", VStr (iv_architecture v)); ("host_cpu_millis", VInt (iv_host_cpu_millis v));
         ("host_memory_bytes", VInt (iv_host_memory_bytes v));
         ("allocatable", VDict [("cpu_millis", VInt (iv_cpu_millis v)); ("memory_bytes", VInt (iv_memory_bytes v));
                                ("gpu_count", VInt (iv_gpu_count v))]);
         ("runtime", runtime_value (iv_runtime v)); ("adapters", adapters_value (iv_adapters v));
         ("images", images_value (iv_images v)); ("frameworks", frameworks_value (iv_frameworks v));
         ("gpu_devices", VList (device_value <$> iv_gpu_devices v))].
Definition workload_value (v : WorkerInventory) : pyval :=
  VDict [("adapters", adapters_value (iv_adapters v)); ("images", images_value (iv_images v));
         ("frameworks", frameworks_value (iv_frameworks v))].

Record HeartbeatRequest := {
  hb_worker_incarnation_id : string;
  hb_observed_health : string;
  hb_reconcile_complete : bool;
  hb_inventory : WorkerInventory;
  hb_observed_containers : list ContainerRef;
}.

(** ** Incarnations *)

Record IncarnationRequest := {
  nr_worker_id : string;
  nr_credential : string;
  nr_process_start_nonce : string;
  nr_idempotency_key : string;
  nr_request_hash : string;
}.
Record IncarnationTimes := { nt_started : Z; nt_auth : Z; nt_now : Z }.

(** [coalesce(max(..), 0)]. *)
Definition coalesce_max (l : list Z) : Z := match l with [] => 0 | x :: l => foldl Z.max x l end.

Definition incarnation_of (worker_id incarnation_id : string) (r : IncarnationRow) : bool :=
  bool_decide (wi_worker_id r = worker_id) && bool_decide (wi_worker_incarnation_id r = incarnation_id).

(** The sequence of the incarnation before; it is ended. *)
Definition end_previous (worker : WorkerRow) (now : Z) : Tx Z :=
  match wk_current_incarnation_id worker with
  | Some previous_id =>
      found ← select T_worker_incarnations (incarnation_of (wk_worker_id worker) previous_id);
      previous ← one found;
      _ ← update_ T_worker_incarnations (λ r, incarnation_of (wk_worker_id worker) previous_id r && is_none (wi_ended_at r))
            (λ r, r <| wi_ended_at := Some now |>);
      mret (wi_sequence previous)
  | None =>
      found ← select T_worker_incarnations (λ r, bool_decide (wi_worker_id r = wk_worker_id worker));
      mret (coalesce_max (wi_sequence <$> found))
  end.

Definition is_worker (worker_id : string) (r : WorkerRow) : bool := bool_decide (wk_worker_id r = worker_id).

Section service.
Context (sha256 : string → string) (pending_wait : Z).

Definition create_incarnation (q : IncarnationRequest) (t : IncarnationTimes) : Tx (option ResponseBody) :=
  let worker_id := nr_worker_id q in
  outcome ← begin_idempotency
    {| rk_context := "WORKER:" +:+ worker_id; rk_principal_id := worker_id; rk_operation_id := "workerCreateIncarnation";
       rk_key := nr_idempotency_key q |} (nr_request_hash q) (nt_started t + days 30) pending_wait;
  mode ← _mode;
  worker ← _worker_auth sha256 worker_id (nr_credential q) (nt_auth t);
  match io_replay outcome with
  | Some replay => mret (sr_body replay)
  | None =>
      _ ← se_when (bool_decide (mode = WRITE_FROZEN))
            (state_conflict "Worker incarnation creation is disabled while writes are frozen");
      found ← select T_worker_incarnations (λ r,
        bool_decide (wi_worker_id r = worker_id) && bool_decide (wi_process_start_nonce r = nr_process_start_nonce q));
      duplicate ← one_or_none found;
      _ ← se_when (negb (is_none duplicate)) (state_conflict "Process start nonce already belongs to an incarnation");
      let now := nt_now t in
      previous_sequence ← end_previous worker now;
      incarnation_id ← new_uuid7;
      let sequence := previous_sequence + 1 in
      _ ← insert T_worker_incarnations
            (MkIncarnationRow incarnation_id worker_id sequence None None (nr_process_start_nonce q) now None None None false None);
      _ ← update_ T_workers (is_worker worker_id)
            (λ r, r <| wk_current_incarnation_id := Some incarnation_id |> <| wk_current_inventory_version := None |>
                    <| wk_health := "STARTING" |> <| wk_last_heartbeat_at := None |> <| wk_ready_at := None |>
                    <| wk_version := wk_version r + 1 |>);
      let response := IncarnationView worker_id incarnation_id sequence (nr_process_start_nonce q) now in
      _ ← complete_idempotency (io_record_id outcome) 201 (Some response) [] (Some incarnation_id) false;
      mret (Some response)
  end.
End service.

(** ** Reconciliation *)

Definition unreleased_on (worker_id : string) (a : AllocationRow) : bool :=
  bool_decide (al_worker_id a = worker_id) && negb (bool_decide (al_state a = AL_RELEASED)).

(** [str(int(max or 0))]: the newest allocation the worker has to account for. *)
Definition _reconciliation_snapshot (worker_id : string) : Tx string :=
  found ← select T_allocations (unreleased_on worker_id);
  let newest := head (py_sorted (λ a b, b <=? a) (al_reconciliation_sequence <$> found)) in
  mret (pretty (default 0 newest)).

(** [ORDER BY key DESC LIMIT 1]. *)
Definition newest_by {A} (key : A → Z) (l : list A) : option A := head (py_sorted (λ a b, key b <=? key a) l).
Definition newest_lease (l : list LeaseRow) : option LeaseRow :=
  head (py_sorted (λ a b, (le_issued_at b <? le_issued_at a)
                          || ((le_issued_at a =? le_issued_at b) && String.leb (le_lease_id b) (le_lease_id a))) l).
Definition newest_grant (l : list GrantRow) : option GrantRow :=
  head (py_sorted (λ a b, (gr_granted_at b <? gr_granted_at a)
                          || ((gr_granted_at a =? gr_granted_at b) && String.leb (gr_grant_id b) (gr_grant_id a))) l).
(** [.one()] of at most one row. *)
Definition required {A} (found : option A) : Tx A :=
  match found with Some a => mret a | None => one [] end.

Record CompletionReceipt := {
  cx_callback_id : string;
  cx_result_id : string;
  cx_manifest_artifact_id : string;
  cx_acknowledgment : Ack;
}.
Record ReconciliationItem := {
  ri_worker_incarnation_id : option string;
  ri_lease_id : string;
  ri_job_fence : Z;
  ri_live : bool;
  ri_lease_expires_at : Z;
  ri_desired_state : DesiredState;
  ri_allocation : AllocationRow;
  ri_gpu_uuids : list string;
  ri_startup_nonce : string;
  ri_claim_state : string;
  ri_expected_container : option (string * string);
  ri_completion_receipt : option CompletionReceipt;
}.

(** The receipt of the completion that made the job succeed. *)
Definition completion_receipt (allocation : AllocationRow) : Tx (option CompletionReceipt) :=
  found ← select T_results (λ r, bool_decide (rs_job_id r = al_job_id allocation));
  result ← one_or_none found;
  match result with
  | Some result =>
      match rs_completion_callback_id result with
      | Some callback_id =>
          found ← select T_callback_receipts (same_callback (al_worker_id allocation) "workerCompleteAttempt" callback_id);
          callback ← one_or_none found;
          match callback with
          | None => mret None
          | Some callback =>
              match cr_acknowledgment callback with
              | Some (AckComplete acknowledged accepted job_state) =>
                  _ ← se_when (negb (bool_decide (rs_attempt_id result = al_attempt_id allocation))
                            || negb (bool_decide (acknowledged = callback_id)) || negb accepted
                            || negb (bool_decide (job_state = JS_SUCCEEDED)))
                        (RuntimeError "committed completion receipt has invalid identity");
                  mret (Some {| cx_callback_id := callback_id; cx_result_id := rs_result_id result;
                                cx_manifest_artifact_id := rs_manifest_artifact_id result;
                                cx_acknowledgment := AckComplete acknowledged accepted job_state |})
              | _ => se_raise (RuntimeError "committed completion receipt has invalid identity")
              end
          end
      | None => mret None
      end
  | None => mret None
  end.

Definition _reconciliation_item (now : Z) (allocation : AllocationRow) : Tx ReconciliationItem :=
  attempts ← select T_attempts (has_attempt (al_attempt_id allocation));
  attempt ← one attempts;
  leases ← select T_attempt_leases (λ r, bool_decide (le_attempt_id r = al_attempt_id allocation));
  lease ← required (newest_lease leases);
  grants ← select T_attempt_authority_grants (λ r, bool_decide (gr_attempt_id r = al_attempt_id allocation));
  grant ← required (newest_grant grants);
  jobs ← select T_jobs (λ r, bool_decide (j_job_id r = al_job_id allocation));
  job ← one jobs;
  containers ← select T_container_identities (λ r, bool_decide (ci_attempt_id r = al_attempt_id allocation));
  let container := newest_by ci_created_at containers in
  claims ← select T_allocation_gpu_claims (λ c,
    bool_decide (gc_allocation_id c = al_allocation_id allocation) && is_none (gc_released_at c));
  let live := is_none (le_revoked_at lease) && (now <? le_expires_at lease) && is_none (gr_ended_at grant)
              && bool_decide (al_state allocation = AL_HELD)
              && negb (bool_decide (j_state job ∈ [JS_SUCCEEDED; JS_FAILED; JS_CANCELLED])) in
  receipt ← (if bool_decide (j_state job = JS_SUCCEEDED) then completion_receipt allocation else mret None);
  mret {| ri_worker_incarnation_id := gr_worker_incarnation_id grant; ri_lease_id := le_lease_id lease;
          ri_job_fence := at_job_fence attempt; ri_live := live; ri_lease_expires_at := le_expires_at lease;
          ri_desired_state := j_desired_state job; ri_allocation := allocation;
          ri_gpu_uuids := py_sorted String.leb (gc_gpu_uuid <$> claims); ri_startup_nonce := at_startup_nonce attempt;
          ri_claim_state := match container with
                            | Some _ => "STARTED"
                            | None => if is_none (at_claimed_at attempt) then "UNCLAIMED" else "CLAIMED"
                            end;
          ri_expected_container := (λ c, (ci_container_id c, ci_runtime_identity_digest c)) <$> container;
          ri_completion_receipt := receipt |}.

Fixpoint reconciliation_items (now : Z) (l : list AllocationRow) : Tx (list ReconciliationItem) :=
  match l with
  | [] => mret []
  | a :: l => i ← _reconciliation_item now a; rest ← reconciliation_items now l; mret (i :: rest)
  end.

Definition pagination_changed : SvcError := state_conflict "Reconciliation pagination changed; restart from the first page".
Definition invalid_reconciliation_cursor : SvcError :=
  ApplicationError "invalid_cursor" 400 "The reconciliation cursor is invalid or stale".

Record ReconciliationPage := {
  rp_server_time : Z;
  rp_items : list ReconciliationItem;
  rp_next_cursor : option string;
  rp_page_size : nat;
}.
Record ReconciliationRequest := {
  rr_worker_id : string;
  rr_credential : string;
  rr_incarnation_id : string;
  rr_page_size : nat;
  rr_cursor : option string;
}.

Section reconciliation.
Context (sha256 : string → string) (hmac_sha256 : string → string → string) (loads_encoded : string → outcome exn pyval).
Context (int_text : string → outcome exn Z) (recursion_limit : nat) (cursor_key : string) (cursor_ttl_seconds : Z).

Definition reconciliation_binding (worker_id incarnation_id snapshot : string) : list (string * string) :=
  [("operation", "workerGetReconciliation"); ("worker_id", worker_id); ("worker_incarnation_id", incarnation_id);
   ("snapshot", snapshot)].

Definition decode_position (now : Z) (cursor : string) (binding : list (string * string)) : outcome exn string :=
  check_codec cursor_key cursor_ttl_seconds;;
  position ← decode hmac_sha256 loads_encoded int_text recursion_limit cursor_key now cursor binding;
  allocation_id ← or_raise (dict_get "allocation_id" position) KeyError;
  or_raise (UUID allocation_id) (ValueError "badly formed hexadecimal UUID string").

(** Where the page starts: after the last allocation of the page before. *)
Definition page_start (now : Z) (cursor : option string) (binding : list (string * string)) (incarnation : IncarnationRow) :
    Tx (option string) :=
  match cursor with
  | None => mret None
  | Some cursor =>
      match decode_position now cursor binding with
      | Raise e =>
          if bool_decide (exn_class e ∈ ["CursorError"; "KeyError"; "SecurityConfigurationError"] ++ value_errors)
          then se_raise invalid_reconciliation_cursor else se_raise (PyError e)
      | Ret after =>
          _ ← se_when (negb (bool_decide (wi_reconciliation_after incarnation = Some after)) || wi_reconciliation_drained incarnation)
                pagination_changed;
          mret (Some after)
      end
  end.

(** [int(snapshot)] of a text [_reconciliation_snapshot] made. *)
Definition snapshot_bound (snapshot : string) : Tx Z :=
  match py_int snapshot with Ret n => mret n | Raise e => se_raise (PyError e) end.

Definition get_reconciliation (q : ReconciliationRequest) (auth now : Z) : Tx ReconciliationPage :=
  let worker_id := rr_worker_id q in
  mode ← _mode;
  worker ← _worker_auth sha256 worker_id (rr_credential q) auth;
  incarnation ← _require_current_incarnation worker (rr_incarnation_id q) false;
  _ ← se_when (bool_decide (mode = WRITE_FROZEN)) (state_conflict "Writes are frozen");
  snapshot ← match rr_cursor q with
             | None => newest ← _reconciliation_snapshot worker_id; mret (Some newest)
             | Some _ => mret (wi_reconciliation_snapshot incarnation)
             end;
  match snapshot with
  | None => se_raise pagination_changed
  | Some snapshot =>
      let binding := reconciliation_binding worker_id (rr_incarnation_id q) snapshot in
      after ← page_start now (rr_cursor q) binding incarnation;
      bound ← snapshot_bound snapshot;
      found ← select T_allocations (λ a,
        unreleased_on worker_id a && (al_reconciliation_sequence a <=? bound)
        && match after with Some after => String.ltb after (al_allocation_id a) | None => true end);
      let page := take (S (rr_page_size q)) (py_sorted (λ a b, String.leb (al_allocation_id a) (al_allocation_id b)) found) in
      let visible := take (rr_page_size q) page in
      items ← reconciliation_items now visible;
      next ← (if (rr_page_size q <? length page)%nat then
                match last visible with
                | None => se_raise (PyError (Exn "IndexError" "list index out of range"))
                | Some a =>
                    _ ← match check_codec cursor_key cursor_ttl_seconds with
                        | Ret _ => mret () | Raise e => se_raise (PyError e)
                        end;
                    mret (Some (al_allocation_id a, encode hmac_sha256 cursor_key cursor_ttl_seconds now binding
                                                      [("allocation_id", al_allocation_id a)]))
                end
              else mret None);
      _ ← update_ T_worker_incarnations (λ r, bool_decide (wi_worker_incarnation_id r = rr_incarnation_id q))
            (λ r, r <| wi_reconciliation_snapshot := Some snapshot |> <| wi_reconciliation_after := fst <$> next |>
                    <| wi_reconciliation_drained := is_none next |>
                    <| wi_reconcile_completed_at := if is_none (rr_cursor q) then None else wi_reconcile_completed_at incarnation |>
                    <| wi_ready_at := if is_none (rr_cursor q) then None else wi_ready_at incarnation |>);
      mret {| rp_server_time := now; rp_items := items; rp_next_cursor := snd <$> next; rp_page_size := rr_page_size q |}
  end.
End reconciliation.

(** ** Readiness *)

(** [max(floor, math.ceil(host * 0.20))]: what stays with the host. *)
Definition host_floor (least host : Z) : outcome exn Z :=
  match float_of_int host with
  | S754_infinity _ => Raise (Exn "OverflowError" "int too large to convert to float")
  | f => share ← float_ceil (float_mul f (py_float "0.20")); Ret (Z.max least share)
  end.

Fixpoint all_verified (images : list pyval) : outcome exn bool :=
  match images with
  | [] => Ret true
  | image :: images =>
      verified ← py_subscript image "verified";
      if py_truth verified then all_verified images else Ret false
  end.

(** On the documents of an inventory: its runtime and its images. *)
Definition _inventory_can_be_ready (host_cpu host_memory cpu memory : Z) (runtime images : pyval) : outcome exn bool :=
  floor_cpu ← host_floor 1000 host_cpu;
  floor_memory ← host_floor (2 * 1024 ^ 3) host_memory;
  seccomp ← py_subscript runtime "seccomp_available";
  if negb (is_true seccomp) then Ret false
  else if negb (cpu <=? host_cpu - floor_cpu) then Ret false
  else if negb (memory <=? host_memory - floor_memory) then Ret false
  else match images with
       | VList l => all_verified l
       | VStr s => if bool_decide (s = "") then Ret true else Raise Cursors.TypeError
       | VDict d => if bool_decide (length d = 0%nat) then Ret true else Raise Cursors.TypeError
       | _ => Raise Cursors.TypeError
       end.

Definition lift_exn {A} (m : outcome exn A) : Tx A :=
  match m with Ret a => mret a | Raise e => se_raise (PyError e) end.

Definition sum_Z (l : list Z) : Z := foldr Z.add 0 l.

Definition _held_capacity (worker_id : string) : Tx (Z * Z * Z) :=
  found ← select T_allocations (unreleased_on worker_id);
  mret (sum_Z (al_cpu_millis <$> found), sum_Z (al_memory_bytes <$> found), sum_Z (al_gpu_count <$> found)).

(** Pages of one hundred, until one is empty. *)
Fixpoint unreleased_pages (fuel : nat) (worker_id : string) (after : option string) : Tx (list string) :=
  match fuel with
  | O => mret []
  | S fuel =>
      found ← select T_allocations (λ a,
        unreleased_on worker_id a && match after with Some after => String.ltb after (al_allocation_id a) | None => true end);
      let batch := take 100 (py_sorted String.leb (al_allocation_id <$> found)) in
      match last batch with
      | None => mret []
      | Some after => rest ← unreleased_pages fuel worker_id (Some after); mret (batch ++ rest)
      end
  end.
Definition _unreleased_allocation_ids (worker_id : string) : Tx (list string) :=
  all ← select T_allocations (λ _, true);
  unreleased_pages (S (length all)) worker_id None.

(** One allocation: [None] when the worker cannot be ready, else what is left of the
    containers it observed. *)
Definition allocation_ready (incarnation_id : string) (now : Z) (observed : list (string * string)) (allocation_id : string) :
    Tx (option (list (string * string))) :=
  found ← select T_allocations (λ a, bool_decide (al_allocation_id a = allocation_id));
  allocation ← one found;
  if negb (bool_decide (al_state allocation = AL_HELD)) then mret None
  else
    attempts ← select T_attempts (has_attempt (al_attempt_id allocation));
    attempt ← one attempts;
    leases ← select T_attempt_leases (λ r, bool_decide (le_attempt_id r = al_attempt_id allocation));
    lease ← required (newest_by le_issued_at leases);
    grants ← select T_attempt_authority_grants (λ r, bool_decide (gr_attempt_id r = al_attempt_id allocation));
    grant ← required (newest_by gr_granted_at grants);
    containers ← select T_container_identities (λ r, bool_decide (ci_attempt_id r = al_attempt_id allocation));
    jobs ← select T_jobs (λ r, bool_decide (j_job_id r = al_job_id allocation));
    job ← one jobs;
    if negb (bool_decide (j_desired_state job ∈ [DS_RUNNING; DS_PAUSED]))
       || negb (bool_decide (at_worker_incarnation_id attempt = Some incarnation_id))
       || negb (bool_decide (le_current_worker_incarnation_id lease = Some incarnation_id))
       || negb (is_none (le_revoked_at lease)) || (le_expires_at lease <=? now)
       || negb (bool_decide (gr_worker_incarnation_id grant = Some incarnation_id)) || negb (is_none (gr_ended_at grant))
    then mret None
    else
      mret match newest_by ci_created_at containers with
           | None => if bool_decide (at_state attempt = AS_CREATED) then Some observed else None
           | Some container =>
               let identity := (ci_container_id container, ci_runtime_identity_digest container) in
               if bool_decide (identity ∈ observed) then Some (List.filter (λ o, negb (bool_decide (o = identity))) observed)
               else None
           end.

Fixpoint allocations_ready (incarnation_id : string) (now : Z) (observed : list (string * string)) (ids : list string) : Tx bool :=
  match ids with
  | [] => mret (bool_decide (observed = []))
  | id :: ids =>
      left ← allocation_ready incarnation_id now observed id;
      match left with
      | None => mret false
      | Some observed => allocations_ready incarnation_id now observed ids
      end
  end.

(** [observed] is a set. *)
Definition _can_be_ready (worker_id incarnation_id : string) (observed : list (string * string)) (now : Z) : Tx bool :=
  ids ← _unreleased_allocation_ids worker_id;
  allocations_ready incarnation_id now observed ids.

(** ** Heartbeats *)

Section heartbeat.
Context (sha256 : string → string) (jcs_request_hash : pyval → string).

Definition current_checksum (worker : WorkerRow) : Tx (option string) :=
  match wk_current_inventory_version worker with
  | None => mret None
  | Some version =>
      found ← select T_worker_inventories (λ r,
        bool_decide (in_worker_id r = wk_worker_id worker) && (in_inventory_version r =? version));
      row ← one found;
      mret (Some (in_checksum row))
  end.

Definition insert_device (worker_id : string) (version : Z) (inventory_id : string) (d : GpuDevice) : Tx () :=
  insert T_gpu_devices
    (MkGpuDeviceRow worker_id version inventory_id (gv_uuid d) (gv_model d) (gv_memory_bytes d) (gv_compute_capability d)
       (gv_driver_version d) (gv_cuda_driver_api_version d) (gv_healthy d)).

(** A new inventory, once it covers what is held and the ledger is charged up to [now]. *)
Definition record_inventory (worker_id incarnation_id : string) (v : WorkerInventory) (checksum : string) (now clock : Z) : Tx Z :=
  '(held_cpu, held_memory, held_gpu) ← _held_capacity worker_id;
  _ ← se_when ((iv_cpu_millis v <? held_cpu) || (iv_memory_bytes v <? held_memory) || (iv_gpu_count v <? held_gpu))
        (state_conflict "Inventory cannot cover unreleased allocations");
  _ ← account_locked now clock;
  found ← select T_worker_inventories (λ r, bool_decide (in_worker_id r = worker_id));
  let version := coalesce_max (in_inventory_version <$> found) + 1 in
  inventory_id ← new_uuid7;
  _ ← insert T_worker_inventories
        (MkInventoryRow inventory_id worker_id incarnation_id version (iv_architecture v) (iv_cpu_millis v) (iv_memory_bytes v)
           (iv_gpu_count v) (workload_value v) (iv_host_cpu_millis v) (iv_host_memory_bytes v) (runtime_value (iv_runtime v)) checksum);
  _ ← for_rows (iv_gpu_devices v) (insert_device worker_id version inventory_id);
  mret version.

(** [a and b] of a check that reads. *)
Definition and_then (a : bool) (b : Tx bool) : Tx bool := if a then b else mret false.

(** Every READY check but the state an administrator set. *)
Definition passes_checks (worker_id : string) (incarnation : IncarnationRow) (request : HeartbeatRequest) (storage_ready : bool)
    (now : Z) : Tx bool :=
  let v := hb_inventory request in
  let observed := remove_dups ((λ c, (ct_container_id c, ct_runtime_identity_digest c)) <$> hb_observed_containers request) in
  and_then (bool_decide (hb_observed_health request = "READY") && hb_reconcile_complete request && storage_ready)
    (capable ← lift_exn (_inventory_can_be_ready (iv_host_cpu_millis v) (iv_host_memory_bytes v) (iv_cpu_millis v) (iv_memory_bytes v)
                           (runtime_value (iv_runtime v)) (images_value (iv_images v)));
     and_then (capable && wi_reconciliation_drained incarnation)
       (snapshot ← _reconciliation_snapshot worker_id;
        and_then (bool_decide (wi_reconciliation_snapshot incarnation = Some snapshot))
          (_can_be_ready worker_id (hb_worker_incarnation_id request) observed now))).

Definition or_now (o : option Z) (now : Z) : option Z := match o with Some t => Some t | None => Some now end.

Record HeartbeatHeader := {
  hh_worker_id : string;
  hh_credential : string;
  hh_callback_id : string;
  hh_payload_hash : string;
  hh_auth : Z;
  hh_now : Z;
  hh_clock : Z;
}.

(** The row of the worker after the heartbeat; its version moves with a visible change. *)
Definition beaten_worker (worker : WorkerRow) (ready : bool) (version : option Z) (now : Z) (r : WorkerRow) : WorkerRow :=
  let health := if ready then "READY" else "STARTING" in
  let ready_at := if ready then or_now (wk_ready_at worker) now else None in
  let changed := negb (bool_decide (health = wk_health worker))
                 || negb (bool_decide (version = wk_current_inventory_version worker))
                 || negb (bool_decide (ready_at = wk_ready_at worker)) in
  r <| wk_health := health |> <| wk_current_inventory_version := version |> <| wk_last_heartbeat_at := Some now |>
    <| wk_ready_at := ready_at |> <| wk_version := if changed then wk_version r + 1 else wk_version r |>.

(** [storage_ready]: the write probe of the artifact store passed, where it was run. *)
Definition heartbeat (h : HeartbeatHeader) (request : HeartbeatRequest) (storage_ready : bool) : Tx Ack :=
  let worker_id := hh_worker_id h in
  '(receipt_id, replay) ← _begin_callback worker_id "workerHeartbeat" (hh_callback_id h) (hh_payload_hash h);
  mode ← _mode;
  worker ← _worker_auth sha256 worker_id (hh_credential h) (hh_auth h);
  let incarnation_id := hb_worker_incarnation_id request in
  incarnation ← _require_current_incarnation worker incarnation_id false;
  match replay with
  | Some replay => mret replay
  | None =>
      _ ← assert_receipt receipt_id;
      _ ← se_when (bool_decide (mode = WRITE_FROZEN)) (state_conflict "Worker heartbeat is disabled while writes are frozen");
      let now := hh_now h in
      let checksum := jcs_request_hash (inventory_value (hb_inventory request)) in
      current ← current_checksum worker;
      let changed := negb (bool_decide (Some checksum = current)) in
      version ← (if changed
                 then version ← record_inventory worker_id incarnation_id (hb_inventory request) checksum now (hh_clock h);
                      mret (Some version)
                 else mret (wk_current_inventory_version worker));
      passes ← passes_checks worker_id incarnation request storage_ready now;
      let ready := passes && negb (bool_decide (wk_admin_state worker = "DISABLED")) in
      _ ← update_ T_worker_incarnations (λ r, bool_decide (wi_worker_incarnation_id r = incarnation_id))
            (λ r, let r := r <| wi_ready_checked_at := if passes : bool then Some now else None |> in
                  if ready
                  then r <| wi_reconcile_completed_at := or_now (wi_reconcile_completed_at incarnation) now |>
                         <| wi_ready_at := or_now (wi_ready_at incarnation) now |>
                  else r);
      _ ← update_ T_workers (is_worker worker_id) (beaten_worker worker ready version now);
      _ ← (if changed then rebase_locked now else mret ());
      let response := AckHeartbeat now (wk_admin_state worker) incarnation_id in
      _ ← _complete_callback receipt_id response;
      mret response
  end.

(** ** Polls *)

(** The reading of the clock and the delay before the next poll; there is never an
    offer in the answer. *)
Definition poll (worker_id credential incarnation_id : string) (long_poll_seconds auth now : Z) : Tx (Z * Z) :=
  mode ← _mode;
  worker ← _worker_auth sha256 worker_id credential auth;
  _ ← _require_current_incarnation worker incarnation_id false;
  _ ← se_when (bool_decide (mode = WRITE_FROZEN) || negb (bool_decide (wk_health worker = "READY"))
            || bool_decide (wk_admin_state worker = "DISABLED"))
        (state_conflict "Worker is not eligible to poll for dispatch");
  mret (now, Z.min (Z.max long_poll_seconds 0) 30).
End heartbeat.

(** ** Workers that fall silent *)

Definition silent_health (age : Z) : option string :=
  if seconds 30 <=? age then Some "UNAVAILABLE" else if seconds 15 <=? age then Some "SUSPECT" else None.

Fixpoint sweep_workers (now : Z) (l : list (WorkerRow * IncarnationRow)) : Tx Z :=
  match l with
  | [] => mret 0
  | (w, i) :: l =>
      let age := now - default (wi_process_started_at i) (wk_last_heartbeat_at w) in
      match silent_health age with
      | Some health =>
          if bool_decide (wk_health w = health) then sweep_workers now l
          else
            _ ← update_ T_workers (is_worker (wk_worker_id w))
                  (λ r, r <| wk_health := health |> <| wk_ready_at := None |> <| wk_version := wk_version r + 1 |>);
            rest ← sweep_workers now l;
            mret (1 + rest)
      | None => sweep_workers now l
      end
  end.

Definition sweep_health (now : Z) : Tx Z :=
  mode ← _mode;
  if bool_decide (mode = WRITE_FROZEN) then mret 0
  else
    workers ← select T_workers (λ _, true);
    incarnations ← select T_worker_incarnations (λ _, true);
    sweep_workers now
      (mjoin ((λ w, (λ i, (w, i)) <$>
         List.filter (λ i, bool_decide (Some (wi_worker_incarnation_id i) = wk_current_incarnation_id w)) incarnations) <$> workers)).

(** ** Evidence that a worker is ready *)

Definition _HEARTBEAT_FRESH : Z := seconds 30.

(** The part of [AdminWorkerService._inventory_view] that readiness uses: the row of the
    current inventory and its images. *)
Definition _inventory_view (worker : WorkerRow) : Tx (option (InventoryRow * pyval)) :=
  match wk_current_inventory_version worker with
  | None => mret None
  | Some version =>
      found ← select T_worker_inventories (λ r,
        bool_decide (in_worker_id r = wk_worker_id worker) && (in_inventory_version r =? version));
      row ← one_or_none found;
      match row with
      | None => mret None
      | Some row =>
          _ ← lift_exn (py_subscript (in_workload_capabilities row) "adapters");
          images ← lift_exn (py_subscript (in_workload_capabilities row) "images");
          _ ← lift_exn (py_subscript (in_workload_capabilities row) "frameworks");
          mret (Some (row, images))
      end
  end.

Definition no_fresh_heartbeat : string := "The worker has no fresh heartbeat".
Definition heartbeat_not_ready : string := "The latest worker heartbeat did not pass the READY checks".
Definition not_reconciled : string := "The current worker incarnation is not reconciled".
Definition inventory_fails : string := "The worker inventory does not pass capability checks".

Definition worker_readiness_failure (worker : WorkerRow) (now : Z) : Tx (option string) :=
  match wk_last_heartbeat_at worker with
  | None => mret (Some no_fresh_heartbeat)
  | Some heartbeat =>
      if heartbeat <? now - _HEARTBEAT_FRESH then mret (Some no_fresh_heartbeat)
      else
        found ← select T_worker_incarnations (λ r,
          bool_decide (Some (wi_worker_incarnation_id r) = wk_current_incarnation_id worker));
        incarnation ← one_or_none found;
        match incarnation with
        | None => mret (Some not_reconciled)
        | Some incarnation =>
            if negb (bool_decide (wi_ready_checked_at incarnation = Some heartbeat)) then mret (Some heartbeat_not_ready)
            else if negb (is_none (wi_ended_at incarnation)) || negb (wi_reconciliation_drained incarnation)
            then mret (Some not_reconciled)
            else
              snapshot ← _reconciliation_snapshot (wk_worker_id worker);
              if negb (bool_decide (wi_reconciliation_snapshot incarnation = Some snapshot)) then mret (Some not_reconciled)
              else
                view ← _inventory_view worker;
                match view with
                | None => mret (Some inventory_fails)
                | Some (i, images) =>
                    capable ← lift_exn (_inventory_can_be_ready (in_host_cpu_millis i) (in_host_memory_bytes i)
                                          (in_allocatable_cpu_millis i) (in_allocatable_memory_bytes i)
                                          (in_runtime_capabilities i) images);
                    mret (if capable : bool then None else Some inventory_fails)
                end
        end
  end.

Definition _require_enable_ready (worker : WorkerRow) (now : Z) : Tx () :=
  _ ← se_when (bool_decide (wk_admin_state worker = "DRAINING") && negb (bool_decide (wk_health worker = "READY")))
        (state_conflict "The worker is not READY");
  failure ← worker_readiness_failure worker now;
  _ ← match failure with Some message => se_raise (state_conflict message) | None => mret () end;
  pending ← select T_allocations (λ a,
    bool_decide (al_worker_id a = wk_worker_id worker) && bool_decide (al_state a = AL_QUARANTINED));
  se_when (negb (bool_decide (length pending = 0%nat))) (state_conflict "Quarantined allocations still await verified cleanup").

Definition enable_worker (settings : JobSettings) (q : WorkerRequest) (t : Times) : Tx (option ResponseBody) :=
  _mutate_worker settings q "adminEnableWorker" "admin.worker.enable" 200 t (λ worker now _,
    _ ← se_when (bool_decide (wk_admin_state worker = "ENABLED")) (state_conflict "The worker is already enabled");
    _ ← _require_enable_ready worker now;
    mret (λ r, r <| wk_admin_state := "ENABLED" |>)).

(** ** Reopening normal operation *)

Definition _FAILURE_CODES : list (string * string) :=
  [(no_fresh_heartbeat, "worker_heartbeat_stale"); (heartbeat_not_ready, "worker_heartbeat_not_ready");
   (not_reconciled, "worker_not_reconciled"); (inventory_fails, "worker_inventory")].

Fixpoint workers_failure (now : Z) (workers : list WorkerRow) : Tx (option string) :=
  match workers with
  | [] => mret None
  | worker :: workers =>
      if negb (bool_decide (wk_admin_state worker = "ENABLED")) then mret (Some "worker_not_enabled")
      else if negb (bool_decide (wk_health worker = "READY")) then mret (Some "worker_not_ready")
      else
        failure ← worker_readiness_failure worker now;
        match failure with
        | Some message =>
            match dict_get message _FAILURE_CODES with
            | Some code => mret (Some code)
            | None => se_raise (PyError (Exn "KeyError" message))
            end
        | None => workers_failure now workers
        end
  end.

(** [schema_current]: the migrations in the database are those the code knows. *)
Definition _failure (schema_current : bool) (now : Z) : Tx (option string) :=
  if negb schema_current then mret (Some "schema")
  else
    workers ← select T_workers (λ _, true);
    match py_sorted (λ a b, String.leb (wk_worker_id a) (wk_worker_id b)) workers with
    | [] => mret (Some "no_worker")
    | workers => workers_failure now workers
    end.

(** The transitions that freeze writes and that restore fail closed.  An exception of the
    check ends the transaction of the mode change as a failed check does. *)
Definition ReadinessRecoveryProofProvider (schema_current : bool) (now : Z) : RecoveryProofProvider := {|
  freeze_ready := λ _, false;
  restore_verified := λ _, false;
  readiness_verified := λ db, match (_failure schema_current now db).1 with Ret None => true | _ => false end;
|}.

(** ** What the session reads *)

Lemma worker_auth_reads sha256 w c now : reads (_worker_auth sha256 w c now).
Proof. unfold _worker_auth, revalidate_worker_credential. read_only. Qed.
Lemma incarnation_reads w i b : reads (_require_current_incarnation w i b).
Proof. unfold _require_current_incarnation. read_only. Qed.
#[export] Hint Resolve worker_auth_reads incarnation_reads : reads.

Lemma worker_auth_Ret sha256 w c now db worker db' :
  _worker_auth sha256 w c now db = (Ret worker, db') →
  List.filter (is_worker w) (rows db T_workers) = [worker] ∧ wk_worker_id worker = w.
Proof.
  unfold _worker_auth. intros H. tx H. destruct x as [x|]; [|discriminate H].
  apply tx_bind_Ret in H as (i & db1 & Hc & H). tx H. destruct Hl as [[_ [=]]|(o & Ho & [= ->])]. split; [exact Ho|].
  apply filter_one in Ho as [_ Ho]. by apply bool_decide_eq_true in Ho.
Qed.

Lemma current_checksum_Ret worker db c db' :
  current_checksum worker db = (Ret c, db') → db' = db ∧
  ∀ v, wk_current_inventory_version worker = Some v →
    ∃ i, i ∈ rows db T_worker_inventories ∧ in_worker_id i = wk_worker_id worker ∧ in_inventory_version i = v ∧ c = Some (in_checksum i).
Proof.
  unfold current_checksum. intros H. destruct (wk_current_inventory_version worker) as [v|]; tx H; [|done].
  split; [done|]. intros v' [= <-]. apply filter_one in Hl as [Hin Hp]. bool_simpl. eauto.
Qed.
