(* ===== verification/Checkpoint.v ===== *)
(** * Reserving checkpoints

    [reserve_checkpoint] of [src/nexa/application/checkpoint_service.py]: an attempt
    that runs, or that is asked to pause, takes the next checkpoint sequence of its
    job. *)

From S2P Require Import Prelude PyDecimal PyValue Database Authority Dispatch Cleanup Control.

Local Open Scope string_scope.
Local Open Scope list_scope.
Local Open Scope Z_scope.

Definition _checkpoint_phase (job : JobRow) (attempt : AttemptRow) : bool :=
  if bool_decide (j_state job = JS_RUNNING) then
    bool_decide (j_desired_state job = DS_RUNNING) && is_none (j_recovery_intent job)
    && bool_decide (at_execution_intent attempt = "RUN")
  else
    bool_decide (j_state job = JS_PAUSING) && bool_decide (j_desired_state job = DS_PAUSED)
    && bool_decide (j_recovery_intent job =
         if bool_decide (at_execution_intent attempt = "RUN") then None else Some "CHECKPOINT_FOR_PAUSE")
    && bool_decide (at_execution_intent attempt ∈ ["RUN"; "CHECKPOINT_FOR_PAUSE"]).

Definition reserve_checkpoint (sha256 : string → string) (h : CallbackHeader) (authority : Authority) : Tx Ack :=
  '(receipt, found) ← _callback sha256 h authority "workerReserveCheckpoint";
  match found with
  | inl replay => mret replay
  | inr r =>
      mode ← _mode;
      _ ← se_when (bool_decide (mode = WRITE_FROZEN)) (state_conflict "Writes are frozen");
      let job := ar_job r in
      let now := h_now h in
      _ ← _live_authority r now;
      _ ← se_when (negb (bool_decide (at_state (ar_attempt r) = AS_RUNNING)) || negb (_checkpoint_phase job (ar_attempt r)))
            (state_conflict "Attempt cannot reserve a checkpoint now");
      '(_, template) ← spec_and_template (j_job_id job);
      _ ← se_when (negb (tv_checkpointable template)) (state_conflict "Template is not checkpointable");
      reserved ← select T_checkpoint_reservations (λ c,
        bool_decide (ck_attempt_id c = h_attempt_id h) && bool_decide (ck_state c = "RESERVED"));
      result ← select T_result_reservations (λ c,
        bool_decide (rr_job_id c = j_job_id job) && bool_decide (rr_state c = "ACTIVE"));
      _ ← se_when (negb (is_none (head reserved)) || negb (is_none (head result)))
            (state_conflict "A checkpoint or result reservation is already active");
      let sequence := j_checkpoint_sequence job + 1 in
      checkpoint_id ← new_uuid7;
      _ ← update_ T_jobs (is_job (j_job_id job)) (λ j, j <| j_checkpoint_sequence := sequence |>);
      _ ← insert T_checkpoint_reservations
            (MkCheckpointReservationRow checkpoint_id (j_job_id job) (h_attempt_id h) (gr_grant_id (ar_grant r)) sequence
               (h_callback_id h) "RESERVED" now None);
      _ ← update_ T_attempts (has_attempt (h_attempt_id h)) (λ a, a <| at_state := AS_CHECKPOINTING |>);
      let body := AckReserveCheckpoint (h_callback_id h) checkpoint_id (j_job_id job) (h_attempt_id h) sequence now in
      _ ← _complete_callback receipt body;
      mret body
  end.
