(* ===== verification/Fencing.v ===== *)
(** * The authority protocol

    An abstract specification of who may act for a job, as a state machine on the
    identities, fences and liveness of the rows: the coordinator grants an attempt
    authority under a fresh fence, the attempt may be taken over by the worker's
    next incarnation, fenced, revoked, and finally released by verified cleanup.
    The invariant of the machine is that a job has at most one live authority,
    which carries the job's current fence, and at most one allocation that is not
    released.  [Lifecycle] shows that the database operations refine it. *)

From S2P Require Import Prelude PyDecimal PyValue Database.

Local Open Scope string_scope.
Local Open Scope list_scope.
Local Open Scope Z_scope.

Record AJob := MkAJob { vj_id : string; vj_fence : Z; vj_state : JobState }.
Record AAttempt := MkAAttempt { va_id : string; va_job : string; va_fence : Z }.
Record ALease := MkALease { vl_id : string; vl_job : string; vl_attempt : string; vl_live : bool }.
Record AAlloc := MkAAlloc { vo_id : string; vo_job : string; vo_attempt : string; vo_held : bool }.
Record AGrant := MkAGrant {
  vg_id : string; vg_job : string; vg_attempt : string; vg_alloc : string; vg_lease : string;
  vg_fence : Z; vg_live : bool;
}.
Record AState := MkAState {
  v_jobs : list AJob;
  v_attempts : list AAttempt;
  v_leases : list ALease;
  v_allocs : list AAlloc;
  v_grants : list AGrant;
}.

#[export] Instance eta_AJob : Eta AJob := λ r, MkAJob (vj_id r) (vj_fence r) (vj_state r).
#[export] Instance eta_ALease : Eta ALease := λ r,
  MkALease (vl_id r) (vl_job r) (vl_attempt r) (vl_live r).
#[export] Instance eta_AAlloc : Eta AAlloc := λ r, MkAAlloc (vo_id r) (vo_job r) (vo_attempt r) (vo_held r).
#[export] Instance eta_AGrant : Eta AGrant := λ r,
  MkAGrant (vg_id r) (vg_job r) (vg_attempt r) (vg_alloc r) (vg_lease r) (vg_fence r) (vg_live r).
#[export] Instance eta_AState : Eta AState := λ s,
  MkAState (v_jobs s) (v_attempts s) (v_leases s) (v_allocs s) (v_grants s).

(** ** Steps *)

(** States in which a live authority may exist, and in which an allocation may be
    held. *)
Definition may_live (st : JobState) : bool :=
  match st with JS_DISPATCHING | JS_RUNNING | JS_PAUSING | JS_SUCCEEDED => true | _ => false end.
Definition occupies (st : JobState) : bool :=
  may_live st || match st with JS_RECOVERING | JS_CANCELLING => true | _ => false end.

(** [x] with [f] applied where [p] holds. *)
Definition where_ {A} (p : A → bool) (f : A → A) (l : list A) : list A :=
  (λ x, if p x then f x else x) <$> l.
#[global] Arguments where_ {A} p f l : simpl never.

Definition set_job (j : string) (f : AJob → AJob) (s : AState) : AState :=
  s <| v_jobs := where_ (λ x, bool_decide (vj_id x = j)) f (v_jobs s) |>.

Definition end_grants (p : AGrant → bool) (s : AState) : AState :=
  s <| v_grants := where_ p (λ g, g <| vg_live := false |>) (v_grants s) |>.

Definition revoke_leases (p : ALease → bool) (s : AState) : AState :=
  s <| v_leases := where_ p (λ l, l <| vl_live := false |>) (v_leases s) |>.

(** The attempt loses its lease and its grant. *)
Definition drop_attempt (a : string) (s : AState) : AState :=
  end_grants (λ g, bool_decide (vg_attempt g = a)) (revoke_leases (λ l, bool_decide (vl_attempt l = a)) s).

Definition no_live_grant (j : string) (s : AState) : Prop :=
  ∀ g, g ∈ v_grants s → vg_live g = true → vg_job g ≠ j.
Definition no_held_alloc (j : string) (s : AState) : Prop :=
  ∀ o, o ∈ v_allocs s → vo_held o = true → vo_job o ≠ j.

Inductive auth_step (s : AState) : AState → Prop :=
| auth_stutter : auth_step s s
| auth_create j :
    vj_id j ∉ vj_id <$> v_jobs s → auth_step s (s <| v_jobs := v_jobs s ++ [j] |>)
| auth_move j st :
    (may_live st = true ∨ no_live_grant j s) → (occupies st = true ∨ no_held_alloc j s) →
    auth_step s (set_job j (λ x, x <| vj_state := st |>) s)
| auth_dispatch j a l o g :
    j ∈ v_jobs s → vj_state j = JS_QUEUED → no_live_grant (vj_id j) s →
    a ∉ va_id <$> v_attempts s → l ∉ vl_id <$> v_leases s →
    o ∉ vo_id <$> v_allocs s → g ∉ vg_id <$> v_grants s →
    let fence := vj_fence j + 1 in
    let s1 := MkAState (v_jobs s) (v_attempts s ++ [MkAAttempt a (vj_id j) fence])
                (v_leases s ++ [MkALease l (vj_id j) a true]) (v_allocs s ++ [MkAAlloc o (vj_id j) a true])
                (v_grants s ++ [MkAGrant g (vj_id j) a o l fence true]) in
    auth_step s (set_job (vj_id j) (λ x, x <| vj_fence := fence |> <| vj_state := JS_DISPATCHING |>) s1)
| auth_fence j a st :
    j ∈ v_jobs s → occupies st = true → may_live st = false →
    (∀ g, g ∈ v_grants s → vg_live g = true → vg_job g = vj_id j → vg_attempt g = a) →
    (occupies (vj_state j) = true) →
    auth_step s (set_job (vj_id j) (λ x, x <| vj_fence := vj_fence j + 1 |> <| vj_state := st |>)
                   (drop_attempt a s))
| auth_revoke a : auth_step s (drop_attempt a s)
| auth_adopt g g' :
    g ∈ v_grants s → vg_live g = true → g' ∉ vg_id <$> v_grants s →
    let s1 := end_grants (λ x, bool_decide (vg_id x = vg_id g)) s in
    auth_step s (s1 <| v_grants := v_grants s1 ++ [MkAGrant g' (vg_job g) (vg_attempt g) (vg_alloc g)
                                                    (vg_lease g) (vg_fence g) true] |>)
| auth_release o st :
    o ∈ v_allocs s → vo_held o = true →
    let s1 := s <| v_allocs := where_ (λ x, bool_decide (vo_id x = vo_id o)) (λ x, x <| vo_held := false |>)
                                 (v_allocs s) |> in
    auth_step s (set_job (vo_job o) (λ x, x <| vj_state := st |>) (drop_attempt (vo_attempt o) s1)).

(** ** The invariant *)

Record auth_inv (s : AState) : Prop := {
  inv_jobs : NoDup (vj_id <$> v_jobs s);
  inv_attempts : NoDup (va_id <$> v_attempts s);
  inv_leases : NoDup (vl_id <$> v_leases s);
  inv_allocs : NoDup (vo_id <$> v_allocs s);
  inv_grants : NoDup (vg_id <$> v_grants s);
  inv_attempt_job : ∀ a, a ∈ v_attempts s → va_job a ∈ vj_id <$> v_jobs s;
  inv_alloc_job : ∀ o, o ∈ v_allocs s → vo_job o ∈ vj_id <$> v_jobs s;
  inv_attempt_fence : ∀ a j, a ∈ v_attempts s → j ∈ v_jobs s → vj_id j = va_job a → va_fence a ≤ vj_fence j;
  inv_attempt_unique : ∀ a a', a ∈ v_attempts s → a' ∈ v_attempts s →
    va_job a = va_job a' → va_fence a = va_fence a' → a = a';
  inv_grant_attempt : ∀ g, g ∈ v_grants s →
    ∃ a, a ∈ v_attempts s ∧ va_id a = vg_attempt g ∧ va_job a = vg_job g ∧ va_fence a = vg_fence g;
  inv_lease_attempt : ∀ l, l ∈ v_leases s →
    ∃ a, a ∈ v_attempts s ∧ va_id a = vl_attempt l ∧ va_job a = vl_job l;
  inv_alloc_attempt : ∀ o, o ∈ v_allocs s →
    ∃ a, a ∈ v_attempts s ∧ va_id a = vo_attempt o ∧ va_job a = vo_job o;
  inv_live_job : ∀ g j, g ∈ v_grants s → vg_live g = true → j ∈ v_jobs s → vj_id j = vg_job g →
    vj_fence j = vg_fence g ∧ may_live (vj_state j) = true;
  inv_live_unique : ∀ g g', g ∈ v_grants s → g' ∈ v_grants s → vg_live g = true → vg_live g' = true →
    vg_job g = vg_job g' → g = g';
  inv_live_lease : ∀ g, g ∈ v_grants s → vg_live g = true →
    ∃ l, l ∈ v_leases s ∧ vl_live l = true ∧ vl_id l = vg_lease g ∧ vl_attempt l = vg_attempt g;
  inv_lease_live : ∀ l, l ∈ v_leases s → vl_live l = true →
    ∃ g, g ∈ v_grants s ∧ vg_live g = true ∧ vg_lease g = vl_id l ∧ vg_attempt g = vl_attempt l;
  inv_live_alloc : ∀ g, g ∈ v_grants s → vg_live g = true →
    ∃ o, o ∈ v_allocs s ∧ vo_held o = true ∧ vo_id o = vg_alloc g ∧ vo_job o = vg_job g ∧
         vo_attempt o = vg_attempt g;
  inv_held_state : ∀ o j, o ∈ v_allocs s → vo_held o = true → j ∈ v_jobs s → vj_id j = vo_job o →
    occupies (vj_state j) = true;
  inv_held_unique : ∀ o o', o ∈ v_allocs s → o' ∈ v_allocs s → vo_held o = true → vo_held o' = true →
    vo_job o = vo_job o' → o = o';
}.

Lemma elem_where {A} (p : A → bool) f (l : list A) x :
  x ∈ where_ p f l ↔ ∃ y, y ∈ l ∧ x = if p y then f y else y.
Proof. unfold where_. rewrite list_elem_of_fmap. naive_solver. Qed.

Lemma where_key {A K} (key : A → K) (p : A → bool) f (l : list A) :
  (∀ x, key (f x) = key x) → key <$> where_ p f l = key <$> l.
Proof.
  intros Hf. unfold where_. rewrite <- list_fmap_compose. apply list_fmap_ext. intros i x _. simpl.
  by destruct (p x).
Qed.

(** ** The invariant is inductive *)

Lemma set_job_inv s k f :
  auth_inv s → (∀ x, vj_id (f x) = vj_id x) →
  (∀ x, x ∈ v_jobs s → vj_id x = k → vj_fence x ≤ vj_fence (f x)) →
  (∀ x g, x ∈ v_jobs s → vj_id x = k → g ∈ v_grants s → vg_live g = true → vg_job g = k →
     vj_fence (f x) = vg_fence g ∧ may_live (vj_state (f x)) = true) →
  (∀ x o, x ∈ v_jobs s → vj_id x = k → o ∈ v_allocs s → vo_held o = true → vo_job o = k →
     occupies (vj_state (f x)) = true) →
  auth_inv (set_job k f s).
Proof.
  intros Hinv Hid Hfence Hlive Hheld.
  assert (vj_id <$> v_jobs (set_job k f s) = vj_id <$> v_jobs s) as Hids by by apply where_key.
  split; rewrite ?Hids; try apply Hinv; cbn.
  - intros a j Ha (x & Hx & ->)%elem_where. case_bool_decide as Hk; [|by apply Hinv].
    rewrite Hid. intros Hj. pose proof (inv_attempt_fence s Hinv a x Ha Hx Hj). specialize (Hfence x Hx Hk). lia.
  - intros g j Hg Hl (x & Hx & ->)%elem_where. case_bool_decide as Hk; [|by apply Hinv].
    rewrite Hid. intros Hj. apply Hlive; congruence.
  - intros o j Ho Hh (x & Hx & ->)%elem_where. case_bool_decide as Hk; [|by apply Hinv].
    rewrite Hid. intros Hj. apply (Hheld x o); congruence.
Qed.

(** A live grant after a [drop_attempt] was live before, and not the attempt's. *)
Lemma end_grants_live p s g :
  g ∈ v_grants (end_grants p s) → vg_live g = true → g ∈ v_grants s ∧ p g = false.
Proof. intros (x & Hx & ->)%elem_where. by destruct (p x) eqn:Hp. Qed.

Lemma end_grants_elem p s g : g ∈ v_grants (end_grants p s) → ∃ x, x ∈ v_grants s ∧
  vg_attempt x = vg_attempt g ∧ vg_job x = vg_job g ∧ vg_fence x = vg_fence g.
Proof. intros (x & Hx & ->)%elem_where. exists x. by destruct (p x). Qed.

Lemma end_grants_keep p s g : g ∈ v_grants s → p g = false → g ∈ v_grants (end_grants p s).
Proof. intros Hg Hp. apply elem_where. exists g. by rewrite Hp. Qed.

Lemma revoke_leases_live p s l :
  l ∈ v_leases (revoke_leases p s) → vl_live l = true → l ∈ v_leases s ∧ p l = false.
Proof. intros (x & Hx & ->)%elem_where. by destruct (p x) eqn:Hp. Qed.

Lemma revoke_leases_keep p s l : l ∈ v_leases s → p l = false → l ∈ v_leases (revoke_leases p s).
Proof. intros Hl Hp. apply elem_where. exists l. by rewrite Hp. Qed.

Lemma drop_attempt_live a s g :
  g ∈ v_grants (drop_attempt a s) → vg_live g = true → g ∈ v_grants s ∧ vg_attempt g ≠ a.
Proof. intros Hg Hl. apply end_grants_live in Hg as [Hg Hp]; [|done]. bool_simpl. done. Qed.

Lemma drop_attempt_inv s a : auth_inv s → auth_inv (drop_attempt a s).
Proof.
  intros Hinv. split; cbn; rewrite ?where_key by done; try apply Hinv.
  - intros g Hg. change (g ∈ v_grants (drop_attempt a s)) in Hg.
    apply end_grants_elem in Hg as (x & Hx & <- & <- & <-). by apply (inv_grant_attempt s Hinv).
  - intros l (x & Hx & ->)%elem_where. destruct (inv_lease_attempt s Hinv x Hx) as (y & ? & ? & ?).
    exists y. by case_bool_decide.
  - intros g j Hg Hl. destruct (drop_attempt_live a s g Hg Hl) as [Hg' _]. by apply Hinv.
  - intros g g' Hg Hg' Hl Hl'. destruct (drop_attempt_live a s g Hg Hl) as [? _],
      (drop_attempt_live a s g' Hg' Hl') as [? _]. by apply Hinv.
  - intros g Hg Hl. destruct (drop_attempt_live a s g Hg Hl) as [Hg' Hna].
    destruct (inv_live_lease s Hinv g Hg' Hl) as (l & Hlin & Hll & Hid & Hat).
    exists l. split_and!; [|done..]. apply (revoke_leases_keep _ s); [done|].
    apply bool_decide_eq_false. congruence.
  - intros l Hlin Hll. apply (revoke_leases_live _ s) in Hlin as [Hlin Hp]; [|done]. bool_simpl.
    destruct (inv_lease_live s Hinv l Hlin Hll) as (g & Hg & Hgl & Hid & Hat).
    exists g. split_and!; [|done..]. apply (end_grants_keep _ s); [done|].
    apply bool_decide_eq_false. congruence.
  - intros g Hg Hl. destruct (drop_attempt_live a s g Hg Hl) as [Hg' _].
    by apply (inv_live_alloc s Hinv).
Qed.

Lemma where_ext {A} (p p' : A → bool) f (l : list A) :
  (∀ x, x ∈ l → p x ≠ p' x → f x = x) → where_ p f l = where_ p' f l.
Proof.
  intros H. apply list_fmap_ext. intros i x Hx%list_elem_of_lookup_2. specialize (H x Hx).
  destruct (p x), (p' x); [done|by apply H|symmetry; by apply H|done].
Qed.

(** Grants of one attempt belong to one job. *)
Lemma grant_attempt_job s g g' :
  auth_inv s → g ∈ v_grants s → g' ∈ v_grants s → vg_attempt g = vg_attempt g' → vg_job g = vg_job g'.
Proof.
  intros Hinv Hg Hg' Heq.
  destruct (inv_grant_attempt s Hinv g Hg) as (a & Ha & Hid & <- & _),
    (inv_grant_attempt s Hinv g' Hg') as (a' & Ha' & Hid' & <- & _).
  f_equal. eapply (NoDup_fmap_elem va_id); [apply Hinv|done..|congruence].
Qed.

(** Ending a live grant and its lease is all there is to end of its attempt. *)
Lemma drop_attempt_one s g l :
  auth_inv s → g ∈ v_grants s → vg_live g = true → l ∈ v_leases s → vl_id l = vg_lease g →
  end_grants (λ x, bool_decide (vg_id x = vg_id g)) (revoke_leases (λ x, bool_decide (vl_id x = vl_id l)) s)
  = drop_attempt (vg_attempt g) s.
Proof.
  intros Hinv Hg Hl Hin Hid. destruct (inv_live_lease s Hinv g Hg Hl) as (l' & Hl' & _ & Hid' & Ha').
  rewrite (NoDup_fmap_elem vl_id (v_leases s) l' l) in Ha' by (try apply Hinv; congruence).
  unfold drop_attempt, end_grants, revoke_leases, set_field. cbn. f_equal.
  - apply where_ext. intros x Hx Hne. destruct (vl_live x) eqn:Hlx; [|by destruct x; cbn in *; subst].
    exfalso. apply Hne, bool_decide_ext.
    destruct (inv_lease_live s Hinv x Hx Hlx) as (y & Hy & Hly & Hlease & Hya). split; intros Heq.
    + rewrite (NoDup_fmap_elem vl_id (v_leases s) x l); [done|apply Hinv|done..].
    + rewrite (inv_live_unique s Hinv y g) in Hlease; [congruence|done..|].
      apply (grant_attempt_job s); [done..|congruence].
  - apply where_ext. intros x Hx Hne. destruct (vg_live x) eqn:Hlx; [|by destruct x; cbn in *; subst].
    exfalso. apply Hne, bool_decide_ext. split; intros Heq.
    + by rewrite (NoDup_fmap_elem vg_id (v_grants s) x g); [|apply Hinv|..].
    + rewrite (inv_live_unique s Hinv x g); [done..|]. by apply (grant_attempt_job s).
Qed.

Lemma release_alloc_inv s o :
  auth_inv s → o ∈ v_allocs s →
  (∀ g, g ∈ v_grants s → vg_live g = true → vg_attempt g ≠ vo_attempt o) →
  auth_inv (s <| v_allocs := where_ (λ x, bool_decide (vo_id x = vo_id o)) (λ x, x <| vo_held := false |>)
                               (v_allocs s) |>).
Proof.
  intros Hinv Ho Hno.
  assert (∀ x, x ∈ where_ (λ x, bool_decide (vo_id x = vo_id o)) (λ x, x <| vo_held := false |>) (v_allocs s) →
            vo_held x = true → x ∈ v_allocs s) as Hback.
  { intros x (y & Hy & ->)%elem_where. by case_bool_decide. }
  split; cbn; rewrite ?where_key by done; try apply Hinv.
  - intros x (y & Hy & ->)%elem_where. case_bool_decide; by apply (inv_alloc_job s Hinv y).
  - intros x (y & Hy & ->)%elem_where. case_bool_decide; by apply (inv_alloc_attempt s Hinv y).
  - intros g Hg Hl. destruct (inv_live_alloc s Hinv g Hg Hl) as (x & Hx & Hh & Hid & Hj & Ha).
    exists x. split_and!; [|done..]. apply elem_where. exists x. split; [done|].
    case_bool_decide as Heq; [|done]. exfalso.
    apply (NoDup_fmap_elem vo_id) with (l := v_allocs s) in Heq; [|apply Hinv|done..]. subst.
    by apply (Hno g).
  - intros x j Hx Hh. apply Hinv; auto.
  - intros x x' Hx Hx' Hh Hh'. apply Hinv; auto.
Qed.

Lemma NoDup_snoc {A} (x : A) l : NoDup l → x ∉ l → NoDup (l ++ [x]).
Proof. intros Hnd Hx. apply NoDup_app. split_and!; [done|set_solver|apply NoDup_singleton]. Qed.

(** The row just appended, and a row that was there before. *)
Ltac last_row := eexists; split; [apply elem_of_app; right; by apply list_elem_of_singleton|done].
Ltac kept_row H := destruct H as (? & ? & ?); eexists; split; [apply elem_of_app; left; eassumption|done].

(** Adding the rows of a new attempt to a job that has moved to its fence. *)
Lemma add_attempt_inv s j a l o g :
  auth_inv s → j ∈ v_jobs s → may_live (vj_state j) = true →
  (∀ x, x ∈ v_attempts s → va_job x = vj_id j → va_fence x < vj_fence j) →
  no_live_grant (vj_id j) s → no_held_alloc (vj_id j) s →
  a ∉ va_id <$> v_attempts s → l ∉ vl_id <$> v_leases s →
  o ∉ vo_id <$> v_allocs s → g ∉ vg_id <$> v_grants s →
  auth_inv (MkAState (v_jobs s) (v_attempts s ++ [MkAAttempt a (vj_id j) (vj_fence j)])
              (v_leases s ++ [MkALease l (vj_id j) a true]) (v_allocs s ++ [MkAAlloc o (vj_id j) a true])
              (v_grants s ++ [MkAGrant g (vj_id j) a o l (vj_fence j) true])).
Proof.
  intros Hinv Hj Hlive Hless Hng Hna Ha Hl Ho Hg.
  assert (∀ x, x ∈ v_jobs s → vj_id x = vj_id j → x = j) as Hjob
    by (intros; eapply (NoDup_fmap_elem vj_id); [apply Hinv|done..]).
  split; cbn; rewrite ?fmap_app; try (apply NoDup_snoc; [apply Hinv|done]); try apply Hinv.
  - intros x [Hx| ->%list_elem_of_singleton]%elem_of_app; [by apply Hinv|]. apply list_elem_of_fmap. eauto.
  - intros x [Hx| ->%list_elem_of_singleton]%elem_of_app; [by apply Hinv|]. apply list_elem_of_fmap. eauto.
  - intros x k [Hx| ->%list_elem_of_singleton]%elem_of_app; [by apply Hinv|]. cbn. intros Hk Hid.
    by rewrite (Hjob k Hk Hid).
  - intros x x' [Hx| ->%list_elem_of_singleton]%elem_of_app [Hx'| ->%list_elem_of_singleton]%elem_of_app; cbn;
      [by apply Hinv|intros E F|intros E F|done]; exfalso.
    + specialize (Hless x Hx E). lia.
    + specialize (Hless x' Hx' (eq_sym E)). lia.
  - intros x [Hx| ->%list_elem_of_singleton]%elem_of_app.
    + kept_row (inv_grant_attempt s Hinv x Hx).
    + last_row.
  - intros x [Hx| ->%list_elem_of_singleton]%elem_of_app.
    + kept_row (inv_lease_attempt s Hinv x Hx).
    + last_row.
  - intros x [Hx| ->%list_elem_of_singleton]%elem_of_app.
    + kept_row (inv_alloc_attempt s Hinv x Hx).
    + last_row.
  - intros x k [Hx| ->%list_elem_of_singleton]%elem_of_app; [by apply Hinv|]. cbn. intros _ Hk Hid.
    by rewrite (Hjob k Hk Hid).
  - intros x x' [Hx| ->%list_elem_of_singleton]%elem_of_app [Hx'| ->%list_elem_of_singleton]%elem_of_app; cbn;
      [by apply Hinv|intros L _ E|intros _ L E|done]; exfalso.
    + by apply (Hng x Hx L).
    + by apply (Hng x' Hx' L).
  - intros x [Hx| ->%list_elem_of_singleton]%elem_of_app; cbn; intros L.
    + kept_row (inv_live_lease s Hinv x Hx L).
    + last_row.
  - intros x [Hx| ->%list_elem_of_singleton]%elem_of_app; cbn; intros L.
    + kept_row (inv_lease_live s Hinv x Hx L).
    + last_row.
  - intros x [Hx| ->%list_elem_of_singleton]%elem_of_app; cbn; intros L.
    + kept_row (inv_live_alloc s Hinv x Hx L).
    + last_row.
  - intros x k [Hx| ->%list_elem_of_singleton]%elem_of_app; [by apply Hinv|]. cbn. intros _ Hk Hid.
    rewrite (Hjob k Hk Hid). unfold occupies. by rewrite Hlive.
  - intros x x' [Hx| ->%list_elem_of_singleton]%elem_of_app [Hx'| ->%list_elem_of_singleton]%elem_of_app; cbn;
      [by apply Hinv|intros L _ E|intros _ L E|done]; exfalso.
    + by apply (Hna x Hx L).
    + by apply (Hna x' Hx' L).
Qed.

(** Passing a live grant on to a new one for the same attempt. *)
Lemma adopt_inv s g g' :
  auth_inv s → g ∈ v_grants s → vg_live g = true → g' ∉ vg_id <$> v_grants s →
  let s1 := end_grants (λ x, bool_decide (vg_id x = vg_id g)) s in
  auth_inv (s1 <| v_grants := v_grants s1 ++ [MkAGrant g' (vg_job g) (vg_attempt g) (vg_alloc g)
                                               (vg_lease g) (vg_fence g) true] |>).
Proof.
  intros Hinv Hg Hl Hfresh s1.
  set (n := MkAGrant g' (vg_job g) (vg_attempt g) (vg_alloc g) (vg_lease g) (vg_fence g) true).
  assert (∀ x, x ∈ v_grants s1 ++ [n] → vg_live x = true →
    ∃ y, y ∈ v_grants s ∧ vg_live y = true ∧ vg_job y = vg_job x ∧ vg_attempt y = vg_attempt x ∧
      vg_alloc y = vg_alloc x ∧ vg_lease y = vg_lease x ∧ vg_fence y = vg_fence x) as Hback.
  { intros x [Hx| ->%list_elem_of_singleton]%elem_of_app Hlx; [|by exists g].
    apply end_grants_live in Hx as [Hx _]; [|done]. by exists x. }
  assert (∀ x, x ∈ v_grants s1 → vg_live x = true → vg_job x ≠ vg_job g) as Hother.
  { intros x Hx Hlx Hj. apply end_grants_live in Hx as [Hx Hp]; [|done]. bool_simpl.
    by rewrite (inv_live_unique s Hinv x g) in Hp. }
  split; cbn; try apply Hinv.
  - rewrite fmap_app. apply NoDup_snoc; rewrite where_key by done; [apply Hinv|done].
  - intros x [Hx| ->%list_elem_of_singleton]%elem_of_app; [|by apply (inv_grant_attempt s Hinv g)].
    apply end_grants_elem in Hx as (y & Hy & <- & <- & <-). by apply (inv_grant_attempt s Hinv).
  - intros x j Hx Hlx. destruct (Hback x Hx Hlx) as (y & Hy & Hly & <- & _ & _ & _ & <-). by apply Hinv.
  - intros x x' Hx Hx' Hlx Hlx' Hj.
    apply elem_of_app in Hx as [Hx|Hx%list_elem_of_singleton], Hx' as [Hx'|Hx'%list_elem_of_singleton]; subst.
    + apply end_grants_live in Hx as [? _], Hx' as [? _]; [|done..]. by apply Hinv.
    + exfalso. by apply (Hother x).
    + exfalso. by apply (Hother x').
    + done.
  - intros x Hx Hlx. destruct (Hback x Hx Hlx) as (y & Hy & Hly & _ & <- & _ & <- & _).
    by apply (inv_live_lease s Hinv y).
  - intros l Hin Hll. destruct (inv_lease_live s Hinv l Hin Hll) as (x & Hx & Hlx & Hid & Ha).
    destruct (decide (vg_id x = vg_id g)) as [Heq|Hne].
    + apply (NoDup_fmap_elem vg_id) with (l := v_grants s) in Heq; [|apply Hinv|done..]. subst.
      exists n. split; [apply elem_of_app; right; by apply list_elem_of_singleton|done].
    + exists x. split; [|done]. apply elem_of_app. left. apply (end_grants_keep _ s); [done|].
      by apply bool_decide_eq_false.
  - intros x Hx Hlx. destruct (Hback x Hx Hlx) as (y & Hy & Hly & <- & <- & <- & _).
    by apply (inv_live_alloc s Hinv y).
Qed.

Lemma create_job_inv s j :
  auth_inv s → vj_id j ∉ vj_id <$> v_jobs s → auth_inv (s <| v_jobs := v_jobs s ++ [j] |>).
Proof.
  intros Hinv Hj.
  split; cbn; rewrite ?fmap_app; try apply Hinv.
  - apply NoDup_snoc; [apply Hinv|done].
  - intros a Ha. apply elem_of_app. left. by apply Hinv.
  - intros o Ho. apply elem_of_app. left. by apply Hinv.
  - intros a x Ha [Hx| ->%list_elem_of_singleton]%elem_of_app; [by apply Hinv|]. intros Hid.
    destruct Hj. rewrite Hid. by apply Hinv.
  - intros g x Hg Hl [Hx| ->%list_elem_of_singleton]%elem_of_app; [by apply Hinv|]. intros Hid.
    destruct (inv_grant_attempt s Hinv g Hg) as (a & Ha & _ & Hja & _).
    destruct Hj. rewrite Hid, <- Hja. by apply Hinv.
  - intros o x Ho Hh [Hx| ->%list_elem_of_singleton]%elem_of_app; [by apply Hinv|]. intros Hid.
    destruct Hj. rewrite Hid. by apply Hinv.
Qed.

Lemma auth_step_inv s s' : auth_step s s' → auth_inv s → auth_inv s'.
Proof.
  intros Hstep Hinv. destruct Hstep as
    [|j Hj|k st Hl Ho|j a l o g Hj Hst Hng Ha Hl Ho Hg fence s1|j a st Hj Ho Hm Hall Hocc|a|g g' Hg Hl Hf s1|o st Ho Hh s1].
  - done.
  - by apply create_job_inv.
  - apply set_job_inv; cbn; [done|done|done|..].
    + intros x g Hx Hid Hg Hlg Hjg. split; [by apply Hinv; [..|congruence]|].
      destruct Hl as [Hl|Hl]; [done|]. by destruct (Hl g).
    + intros x o Hx Hid Hin Hh Hjo. destruct Ho as [Ho|Ho]; [done|]. by destruct (Ho o).
  - set (f := λ x, x <| vj_fence := fence |> <| vj_state := JS_DISPATCHING |>).
    assert (no_held_alloc (vj_id j) s) as Hna.
    { intros x Hx Hh Hjx. pose proof (inv_held_state s Hinv x j Hx Hh Hj (eq_sym Hjx)) as H.
      by rewrite Hst in H. }
    assert (auth_inv (set_job (vj_id j) f s)) as Hset.
    { apply set_job_inv; [done|done|..].
      - intros x Hx Hid. rewrite (NoDup_fmap_elem vj_id (v_jobs s) x j); [cbn; lia|apply Hinv|done..].
      - intros x y _ _ Hy Hly Hjy. by destruct (Hng y).
      - intros x y _ _ Hy Hhy Hjy. by destruct (Hna y). }
    apply (add_attempt_inv (set_job (vj_id j) f s) (f j) a l o g); [done|..|done|done|done|done|done|done].
    + apply elem_where. exists j. by rewrite bool_decide_true.
    + done.
    + intros x Hx Hjx. pose proof (inv_attempt_fence s Hinv x j Hx Hj (eq_sym Hjx)). cbn. lia.
  - apply set_job_inv; cbn; [by apply drop_attempt_inv|done|..].
    + intros x Hx Hid. rewrite (NoDup_fmap_elem vj_id (v_jobs s) x j); [lia|apply Hinv|done..].
    + intros x g _ _ Hg Hlg Hjg. destruct (drop_attempt_live a s g Hg Hlg) as [Hg' Hne].
      by destruct Hne; apply Hall.
    + done.
  - by apply drop_attempt_inv.
  - by apply adopt_inv.
  - assert (auth_inv (drop_attempt (vo_attempt o) s1)) as Hdrop.
    { pose proof (drop_attempt_inv s (vo_attempt o) Hinv) as Hd.
      apply (release_alloc_inv _ o) in Hd; [exact Hd|done|].
      intros g Hg Hlg. by apply drop_attempt_live in Hg as [_ ?]. }
    apply set_job_inv; [done|done|done|..].
    + intros x g _ _ Hg Hlg Hjg. exfalso. destruct (drop_attempt_live _ _ _ Hg Hlg) as [Hg' Hne].
      destruct (inv_live_alloc s Hinv g Hg' Hlg) as (y & Hy & Hhy & _ & Hjy & Hay).
      rewrite (inv_held_unique s Hinv y o) in Hay; [by destruct Hne|done..|congruence].
    + intros x y _ _ Hy Hhy Hjy. exfalso. cbn in Hy. apply elem_where in Hy as (z & Hz & ->).
      case_bool_decide as Heq; [done|]. destruct Heq.
      by rewrite (inv_held_unique s Hinv z o).
Qed.

(** Fences never move back. *)
Lemma auth_step_fence s s' j :
  auth_step s s' → auth_inv s → j ∈ v_jobs s →
  ∃ j', j' ∈ v_jobs s' ∧ vj_id j' = vj_id j ∧ vj_fence j ≤ vj_fence j'.
Proof.
  intros Hstep Hinv Hj.
  assert (∀ k f (t : AState), v_jobs t = v_jobs s → (∀ x, vj_id (f x) = vj_id x) →
    (∀ x, x ∈ v_jobs s → vj_id x = k → vj_fence x ≤ vj_fence (f x)) →
    ∃ j', j' ∈ v_jobs (set_job k f t) ∧ vj_id j' = vj_id j ∧ vj_fence j ≤ vj_fence j') as Hset.
  { intros k f t Ht Hid Hle. exists (if bool_decide (vj_id j = k) then f j else j).
    split; [apply elem_where; exists j; by rewrite Ht|]. case_bool_decide; [|done]. auto. }
  assert (∀ x y, x ∈ v_jobs s → y ∈ v_jobs s → vj_id x = vj_id y → x = y) as Huniq
    by (intros; eapply (NoDup_fmap_elem vj_id); [apply Hinv|done..]).
  destruct Hstep as [|k Hk|k st Hl Ho|k a l o g Hk Hst _ _ _ _ _ fence s1|k a st Hk _ _ _ _|a|g g' _ _ _ s1|o st _ _ s1].
  - by exists j.
  - exists j. split; [|done]. apply elem_of_app. by left.
  - by apply Hset.
  - apply Hset; [done..|]. intros x Hx Hid. rewrite (Huniq x k); [cbn; lia|done..].
  - apply Hset; [done..|]. intros x Hx Hid. rewrite (Huniq x k); [cbn; lia|done..].
  - by exists j.
  - by exists j.
  - by apply Hset.
Qed.
