(* ===== verification/View.v ===== *)
(** * The authority view of a database

    What the authority protocol ([Fencing]) sees of a database: the identities,
    fences and liveness of jobs, attempts, leases, allocations and grants.  Most
    statements of an operation leave the view alone; this file has the lemmas and
    tactics that run an operation and compute the view of the database it leaves. *)

From S2P Require Import Prelude PyDecimal PyValue Scheduling Database Ledger Authority Idempotency Identity.
From S2P Require Import Capabilities Eligibility Dispatch Cleanup Retry Control Workers Checkpoint.
From S2P Require Import Fencing.

Local Open Scope string_scope.
Local Open Scope list_scope.
Local Open Scope Z_scope.

(** ** The view of a database *)

Definition view_job (j : JobRow) : AJob := MkAJob (j_job_id j) (j_job_fence j) (j_state j).
Definition view_attempt (a : AttemptRow) : AAttempt :=
  MkAAttempt (at_attempt_id a) (at_job_id a) (at_job_fence a).
Definition view_lease (l : LeaseRow) : ALease := 
  MkALease (le_lease_id l) (le_job_id l) (le_attempt_id l) (live_lease l).
Definition view_alloc (o : AllocationRow) : AAlloc :=
  MkAAlloc (al_allocation_id o) (al_job_id o) (al_attempt_id o) (unreleased o).
Definition view_grant (g : GrantRow) : AGrant :=
  MkAGrant (gr_grant_id g) (gr_job_id g) (gr_attempt_id g) (gr_allocation_id g) (gr_lease_id g)
    (gr_job_fence g) (live_grant g).

Definition view (db : DB) : AState :=
  MkAState (view_job <$> rows db T_jobs) (view_attempt <$> rows db T_attempts)
    (view_lease <$> rows db T_attempt_leases) (view_alloc <$> rows db T_allocations)
    (view_grant <$> rows db T_attempt_authority_grants).

(** Identifiers drawn from now on are new. *)
Definition used_ids (db : DB) : list string :=
  (at_attempt_id <$> rows db T_attempts) ++ (le_lease_id <$> rows db T_attempt_leases) ++
  (al_allocation_id <$> rows db T_allocations) ++ (gr_grant_id <$> rows db T_attempt_authority_grants).

Definition ids_ok (db : DB) : Prop :=
  (∀ n m, new_ids db n = new_ids db m → n = m) ∧
  ∀ n, (ids_drawn db ≤ n)%nat → new_ids db n ∉ used_ids db.

(** Tables the view does not depend on; most calls write to the quiet ones alone. *)
Definition quiet_tables : list table :=
  [T_logical_sessions; T_templates; T_template_versions; T_queue_eligibility_events;
   T_allocation_gpu_claims; T_container_identities;
   T_admission_counters; T_reservations; T_events; T_audit_records;
   T_allocation_ledger_segments; T_fairness_ledgers; T_fairness_state; T_tenant_policies;
   T_policy_versions; T_workers; T_worker_credentials; T_worker_incarnations; T_worker_inventories;
   T_callback_receipts; T_checkpoint_reservations; T_checkpoints; T_checkpoint_corruptions;
   T_checkpoint_references; T_result_reservations; T_idempotency_records; T_users; T_tenants;
   T_memberships; T_system_role_grants; T_browser_sessions; T_cli_tokens;
   T_gpu_devices; T_results; T_rate_buckets; T_artifacts; T_artifact_references;
   T_artifact_storage_counters; T_coordinator_leadership; T_queue_heads; T_queue_submitters;
   T_quota_headroom_steps; T_queue_request_sizes; T_sweep_parents; T_sweep_children].
Definition unseen_tables : list table := T_job_specs :: T_retry_schedules :: quiet_tables.

(** The database after operations that touch none of the view's tables. *)
Record quiet (db db' : DB) : Prop := {
  quiet_rows : ∀ t, t ∉ quiet_tables → rows db' t = rows db t;
  quiet_ids : new_ids db' = new_ids db;
  quiet_drawn : (ids_drawn db ≤ ids_drawn db')%nat;
}.

#[export] Instance quiet_preorder : PreOrder quiet.
Proof.
  split; [done|]. intros x y z [] []. split; [|congruence|lia]. intros t Ht. rewrite quiet_rows1; auto.
Qed.

Lemma quiet_run {A} (m : Tx A) db r db' : only_writes quiet_tables m → m db = (r, db') → quiet db db'.
Proof. intros Hm H. destruct (Hm _ _ _ H) as (? & ? & ?). by split. Qed.

Lemma quiet_view db db' : quiet db db' → view db' = view db.
Proof. intros [H _ _]. unfold view. rewrite !H by set_solver. done. Qed.

Lemma quiet_used db db' : quiet db db' → used_ids db' = used_ids db.
Proof. intros [H _ _]. unfold used_ids. rewrite !H by set_solver. done. Qed.

Lemma ids_ok_used db db' :
  ids_ok db → new_ids db' = new_ids db → (ids_drawn db ≤ ids_drawn db')%nat → used_ids db' ⊆ used_ids db →
  ids_ok db'.
Proof.
  intros [Hinj Hnew] Hn Hd Hu. split; rewrite Hn; [done|]. intros n Hle Hin. apply (Hnew n); [lia|]. by apply Hu.
Qed.

Lemma quiet_ids_ok db db' : quiet db db' → ids_ok db → ids_ok db'.
Proof. intros Hq Hok. destruct Hq as [Hr Hn Hd] eqn:E. eapply ids_ok_used; [done..|]. by rewrite (quiet_used db db'). Qed.

(** ** What the parts of the operations write *)

Lemma mode_writes : only_writes [] _mode.
Proof. unfold _mode. writes. Qed.
Lemma credential_writes sha256 c w now :
  only_writes [] (revalidate_worker_credential sha256 c w now).
Proof. unfold revalidate_worker_credential. writes. Qed.
#[export] Hint Resolve mode_writes credential_writes : writes.

Lemma worker_auth_writes sha256 w c now : only_writes [] (_worker_auth sha256 w c now).
Proof. unfold _worker_auth. writes. Qed.
Lemma incarnation_writes w i b : only_writes [] (_require_current_incarnation w i b).
Proof. unfold _require_current_incarnation. writes. Qed.
Lemma begin_callback_writes w o c h : only_writes [T_callback_receipts] (_begin_callback w o c h).
Proof. unfold _begin_callback. writes. Qed.
Lemma complete_callback_writes r b : only_writes [T_callback_receipts] (_complete_callback r b).
Proof. unfold _complete_callback. writes. Qed.
Lemma authority_rows_writes a w : only_writes [] (_authority_rows a w).
Proof. unfold _authority_rows. writes. Qed.
Lemma live_authority_writes r now : only_writes [] (_live_authority r now).
Proof. unfold _live_authority. writes. Qed.
Lemma result_authority_writes r : only_writes [] (_result_authority r).
Proof. unfold _result_authority. writes. Qed.
Lemma assert_receipt_writes r : only_writes [] (assert_receipt r).
Proof. unfold assert_receipt. writes. Qed.
Lemma inherits_writes j : only_writes [] (_inherits j).
Proof. unfold _inherits. writes. Qed.
#[export] Hint Resolve worker_auth_writes incarnation_writes begin_callback_writes complete_callback_writes
  authority_rows_writes live_authority_writes result_authority_writes assert_receipt_writes
  inherits_writes : writes.

Lemma callback_writes sha256 h a o : only_writes [T_callback_receipts] (_callback sha256 h a o).
Proof. unfold _callback. writes. Qed.
Lemma invalidate_writes r s now : only_writes [T_reservations] (invalidate_reservation r s now).
Proof. unfold invalidate_reservation. writes. Qed.
Lemma count_attempt_writes s : only_writes [T_admission_counters] (count_attempt s).
Proof. unfold count_attempt. writes. Qed.
Lemma abandon_results_writes a : only_writes [T_result_reservations] (abandon_results a).
Proof. unfold abandon_results. writes. Qed.
Lemma abandon_checkpoints_writes a now : only_writes [T_checkpoint_reservations] (abandon_checkpoints a now).
Proof. unfold abandon_checkpoints. writes. Qed.
Lemma read_counters_writes s : only_writes [] (read_counters s).
Proof. induction s as [|x s IH]; simpl; writes. Qed.
#[export] Hint Resolve callback_writes invalidate_writes count_attempt_writes abandon_results_writes
  abandon_checkpoints_writes read_counters_writes : writes.

Lemma lock_policy_counters_writes a : only_writes [] (_lock_policy_counters a).
Proof. unfold _lock_policy_counters, _conflict. writes. Qed.
Lemma adjust_counters_writes cs o a : only_writes [T_admission_counters] (_adjust_counters cs o a).
Proof. unfold _adjust_counters. writes. Qed.
Lemma container_writes a : only_writes [] (_container a).
Proof. unfold _container. writes. Qed.
Lemma committed_checkpoint_writes j a : only_writes [] (_committed_checkpoint j a).
Proof. by apply only_writes_pure. Qed.
Lemma restorable_checkpoint_writes j t : only_writes [] (_restorable_checkpoint j t).
Proof. by apply only_writes_pure. Qed.
Lemma extend_retention_writes j t d : only_writes [T_idempotency_records] (extend_retention j t d).
Proof. unfold extend_retention. writes. Qed.
Lemma store_cleanup_writes r p w c a :
  only_writes [T_callback_receipts] (_store_cleanup_acknowledgment r p w c a).
Proof. unfold _store_cleanup_acknowledgment. writes. Qed.
#[export] Hint Resolve lock_policy_counters_writes adjust_counters_writes container_writes
  committed_checkpoint_writes restorable_checkpoint_writes extend_retention_writes store_cleanup_writes : writes.

Lemma check_observation_writes h q r : only_writes [T_container_identities] (check_observation h q r).
Proof. unfold check_observation. writes. Qed.
Lemma spec_and_template_writes j : only_writes [] (spec_and_template j).
Proof. unfold spec_and_template. writes. Qed.
Lemma live_attempt_writes j : only_writes [] (_lock_live_attempt j).
Proof. unfold _lock_live_attempt. writes. Qed.
Lemma lift_writes {A} (o : outcome SvcError A) : only_writes [] (se_lift o).
Proof. apply only_writes_pure. by destruct o. Qed.
Lemma authorize_writes ttl now p t w : only_writes [] (_authorize ttl now p t w).
Proof. apply only_writes_pure, authorize_reads. Qed.
Lemma visible_submitter_writes l t j : only_writes [] (_visible_submitter l t j).
Proof. unfold _visible_submitter. writes. Qed.
Lemma job_query_writes t j : only_writes [] (_job_query t j).
Proof. unfold _job_query. writes. Qed.
#[export] Hint Resolve check_observation_writes spec_and_template_writes live_attempt_writes lift_writes authorize_writes
  visible_submitter_writes job_query_writes : writes.
Lemma control_counters_writes t u : only_writes [] (_control_counters t u).
Proof. unfold _control_counters. writes. Qed.
#[export] Hint Resolve control_counters_writes : writes.

Lemma admin_authorize_reads ttl now p w : reads (admin_authorize ttl now p w).
Proof. unfold admin_authorize. read_only. Qed.
Lemma admin_authorize_writes ttl now p w : only_writes [] (admin_authorize ttl now p w).
Proof. apply only_writes_pure, admin_authorize_reads. Qed.
Lemma ensure_mutable_writes : only_writes [] _ensure_mutable.
Proof. unfold _ensure_mutable. writes. Qed.
Lemma admin_audit_writes a b c d e f g : only_writes [T_audit_records] (admin_audit a b c d e f g).
Proof. unfold admin_audit. writes. Qed.
Lemma worker_leases_writes w : only_writes [] (worker_leases w).
Proof. unfold worker_leases. writes. Qed.
Lemma worker_row_writes w : only_writes [] (Workers._worker w).
Proof. unfold Workers._worker. writes. Qed.
#[export] Hint Resolve admin_authorize_writes ensure_mutable_writes admin_audit_writes worker_leases_writes
  worker_row_writes : writes.

Lemma candidates_writes now n : only_writes [] (_candidates now n).
Proof. unfold _candidates. writes. Qed.
Lemma retry_worker_writes : only_writes [] Retry._worker.
Proof. unfold Retry._worker. writes. Qed.
Lemma job_template_writes s : only_writes [] (job_template s).
Proof. unfold job_template. writes. Qed.
Lemma counter_lock_writes a b : only_writes [T_admission_counters] (_counter_lock a b).
Proof. unfold _counter_lock. writes. Qed.
Lemma pending_tenants_writes : only_writes [] pending_eligibility_tenants.
Proof. unfold pending_eligibility_tenants. writes. Qed.
Lemma next_event_writes : only_writes [] next_event.
Proof. unfold next_event. writes. Qed.
Lemma all_templates_writes : only_writes [] all_templates.
Proof. unfold all_templates. writes. Qed.
Lemma event_rows_writes e : only_writes [] (event_rows e).
Proof. unfold event_rows. writes. Qed.
#[export] Hint Resolve candidates_writes retry_worker_writes job_template_writes counter_lock_writes
  pending_tenants_writes next_event_writes all_templates_writes event_rows_writes : writes.
Lemma blocked_reason_writes j i : only_writes [] (_blocked_reason j i).
Proof. unfold _blocked_reason. writes. Qed.
#[export] Hint Resolve blocked_reason_writes : writes.

(** ** Statements and the view *)

Section statements.
Context (db : DB).

Lemma fmap_where {A B} (g : A → B) p f p' f' (l : list A) :
  (∀ r, r ∈ l → g (if p r : bool then f r else r) = if p' (g r) : bool then f' (g r) else g r) →
  g <$> ((λ r, if p r then f r else r) <$> l) = where_ p' f' (g <$> l).
Proof.
  intros H. unfold where_. rewrite <- !list_fmap_compose. apply list_fmap_ext.
  intros i r Hr%list_elem_of_lookup_2. by apply H.
Qed.

Lemma view_update_jobs p f p' f' :
  (∀ r, r ∈ rows db T_jobs →
     view_job (if p r : bool then f r else r) = if p' (view_job r) : bool then f' (view_job r) else view_job r) →
  view (modify T_jobs p f db) =
  (view db) <| v_jobs := where_ p' f' (v_jobs (view db)) |>.
Proof. intros H. unfold view, set_field. cbn. f_equal. by apply fmap_where. Qed.

Lemma view_update_leases p f p' f' :
  (∀ r, r ∈ rows db T_attempt_leases →
     view_lease (if p r : bool then f r else r) =
     if p' (view_lease r) : bool then f' (view_lease r) else view_lease r) →
  view (modify T_attempt_leases p f db) =
  (view db) <| v_leases := where_ p' f' (v_leases (view db)) |>.
Proof. intros H. unfold view, set_field. cbn. f_equal. by apply fmap_where. Qed.

Lemma view_update_allocs p f p' f' :
  (∀ r, r ∈ rows db T_allocations →
     view_alloc (if p r : bool then f r else r) =
     if p' (view_alloc r) : bool then f' (view_alloc r) else view_alloc r) →
  view (modify T_allocations p f db) =
  (view db) <| v_allocs := where_ p' f' (v_allocs (view db)) |>.
Proof. intros H. unfold view, set_field. cbn. f_equal. by apply fmap_where. Qed.

Lemma view_update_grants p f p' f' :
  (∀ r, r ∈ rows db T_attempt_authority_grants →
     view_grant (if p r : bool then f r else r) =
     if p' (view_grant r) : bool then f' (view_grant r) else view_grant r) →
  view (modify T_attempt_authority_grants p f db) =
  (view db) <| v_grants := where_ p' f' (v_grants (view db)) |>.
Proof. intros H. unfold view, set_field. cbn. f_equal. by apply fmap_where. Qed.

(** Updates the view does not see. *)
Lemma where_id {A B} (g : A → B) p f (l : list A) :
  (∀ r, r ∈ l → p r = true → g (f r) = g r) → g <$> ((λ r, if p r : bool then f r else r) <$> l) = g <$> l.
Proof.
  intros H. rewrite <- list_fmap_compose. apply list_fmap_ext.
  intros i r Hr%list_elem_of_lookup_2. simpl. destruct (p r) eqn:Hp; auto.
Qed.

Lemma view_keep_attempts p f :
  (∀ r, view_attempt (f r) = view_attempt r) →
  view (modify T_attempts p f db) = view db.
Proof. intros H. unfold view. cbn. f_equal. apply where_id. auto. Qed.

Lemma view_keep_leases p f :
  (∀ r, view_lease (f r) = view_lease r) →
  view (modify T_attempt_leases p f db)
  = view db.
Proof. intros H. unfold view. cbn. f_equal. apply where_id. auto. Qed.

Lemma view_keep_allocs p f :
  (∀ r, p r = true → view_alloc (f r) = view_alloc r) →
  view (modify T_allocations p f db) = view db.
Proof. intros H. unfold view. cbn. f_equal. apply where_id. auto. Qed.

Lemma view_keep_jobs p f :
  (∀ r, r ∈ rows db T_jobs → p r = true → view_job (f r) = view_job r) →
  view (modify T_jobs p f db) = view db.
Proof. intros H. unfold view. cbn. f_equal. by apply where_id. Qed.

Lemma view_set_quiet t l : t ∈ unseen_tables → view (set_rows t l db) = view db.
Proof.
  intros Ht. unfold unseen_tables, quiet_tables in Ht. destruct t; first [reflexivity|exfalso; set_solver].
Qed.

Lemma view_put_quiet t r : t ∈ unseen_tables → view (put t r db) = view db.
Proof. apply view_set_quiet. Qed.

Lemma view_modify_quiet t p f : t ∈ unseen_tables → view (modify t p f db) = view db.
Proof. apply view_set_quiet. Qed.

Lemma view_draw : view (draw db) = view db.
Proof. done. Qed.

Lemma view_insert t r :
  view (put t r db) =
  match t return row t → AState with
  | T_jobs => λ r, (view db) <| v_jobs := v_jobs (view db) ++ [view_job r] |>
  | T_attempts => λ r, (view db) <| v_attempts := v_attempts (view db) ++ [view_attempt r] |>
  | T_attempt_leases => λ r, (view db) <| v_leases := v_leases (view db) ++ [view_lease r] |>
  | T_allocations => λ r, (view db) <| v_allocs := v_allocs (view db) ++ [view_alloc r] |>
  | T_attempt_authority_grants => λ r, (view db) <| v_grants := v_grants (view db) ++ [view_grant r] |>
  | _ => λ _, view db
  end r.
Proof.
  destruct t; try (by apply view_set_quiet; unfold unseen_tables, quiet_tables; set_solver);
    unfold view, set_field; cbn; by rewrite fmap_app.
Qed.

End statements.

(** ** Identifiers *)

(** Identifiers in [db] are those of [db0] or were drawn since. *)
Record grown (db0 db : DB) : Prop := {
  grown_ids : new_ids db = new_ids db0;
  grown_drawn : (ids_drawn db0 ≤ ids_drawn db)%nat;
  grown_used : ∀ x, x ∈ used_ids db → x ∈ used_ids db0 ∨
    ∃ n, (ids_drawn db0 ≤ n < ids_drawn db)%nat ∧ x = new_ids db0 n;
}.

Lemma grown_refl db : grown db db.
Proof. split; auto. Qed.

Lemma grown_same db0 db db' :
  grown db0 db → new_ids db' = new_ids db → (ids_drawn db ≤ ids_drawn db')%nat → used_ids db' ⊆ used_ids db →
  grown db0 db'.
Proof.
  intros [H1 H2 H3] Hn Hd Hu. split; [congruence|lia|]. intros x Hx%Hu. destruct (H3 x Hx) as [|(n & ? & ?)]; [auto|].
  right. exists n. split; [lia|done].
Qed.

Lemma grown_trans db0 db1 db2 : grown db0 db1 → grown db1 db2 → grown db0 db2.
Proof.
  intros [H1 H2 H3] [K1 K2 K3]. split; [congruence|lia|]. intros x Hx. destruct (K3 x Hx) as [Hx'|(n & ? & ->)].
  - destruct (H3 x Hx') as [|(n & ? & ->)]; [auto|]. right. exists n. split; [lia|done].
  - right. exists n. rewrite H1. split; [lia|done].
Qed.

Lemma grown_quiet db0 db db' : grown db0 db → quiet db db' → grown db0 db'.
Proof.
  intros Hg Hq. destruct Hq as [Hr Hn Hd] eqn:E. eapply grown_same; [done..|]. by rewrite (quiet_used db db').
Qed.

Lemma grown_draw db0 db :
  grown db0 db → grown db0 (draw db).
Proof. intros Hg. eapply grown_same; [done|done|simpl; lia|done]. Qed.

Lemma grown_set db0 db t l :
  grown db0 db → used_ids (set_rows t l db) ⊆ used_ids db → grown db0 (set_rows t l db).
Proof. intros Hg Hu. by eapply grown_same. Qed.

Lemma grown_ids_ok db db' : grown db db' → ids_ok db → ids_ok db'.
Proof.
  intros [H1 H2 H3] [Hinj Hnew]. split; rewrite H1; [done|]. intros n Hn Hin.
  destruct (H3 _ Hin) as [Hold|(m & Hm & Heq)]; [by apply (Hnew n); [lia|]|].
  apply Hinj in Heq. lia.
Qed.

(** Updates keep identifiers; tables other than the four do not hold any. *)
Definition id_tables : list table := [T_attempts; T_attempt_leases; T_allocations; T_attempt_authority_grants].

Lemma used_other db t l : t ∉ id_tables → used_ids (set_rows t l db) = used_ids db.
Proof. intros Ht. unfold used_ids. rewrite !set_rows_other; [done|..]; intros ->; set_solver. Qed.

Definition keeps_ids (t : table) : (row t → row t) → Prop :=
  match t with
  | T_attempts => λ f, ∀ r, at_attempt_id (f r) = at_attempt_id r
  | T_attempt_leases => λ f, ∀ r, le_lease_id (f r) = le_lease_id r
  | T_allocations => λ f, ∀ r, al_allocation_id (f r) = al_allocation_id r
  | T_attempt_authority_grants => λ f, ∀ r, gr_grant_id (f r) = gr_grant_id r
  | _ => λ _, True
  end.

Lemma used_update db t p f :
  keeps_ids t f → used_ids (modify t p f db) = used_ids db.
Proof.
  intros Hf.
  destruct t; try (apply used_other; set_solver); unfold used_ids; cbn in *; rewrite ?where_id; auto.
Qed.

Lemma grown_update db0 db t p f :
  grown db0 db → keeps_ids t f →
  grown db0 (modify t p f db).
Proof. intros Hg Hf. apply grown_set; [done|]. by apply reflexive_eq, used_update. Qed.

Definition row_id (t : table) : row t → option string :=
  match t with
  | T_attempts => λ r, Some (at_attempt_id r)
  | T_attempt_leases => λ r, Some (le_lease_id r)
  | T_allocations => λ r, Some (al_allocation_id r)
  | T_attempt_authority_grants => λ r, Some (gr_grant_id r)
  | _ => λ _, None
  end.

Lemma grown_insert db0 db t r :
  grown db0 db →
  (∀ x, row_id t r = Some x → ∃ n, (ids_drawn db0 ≤ n < ids_drawn db)%nat ∧ x = new_ids db0 n) →
  grown db0 (put t r db).
Proof.
  intros Hg Hr. destruct (row_id t r) as [x|] eqn:Hid.
  - destruct (Hr x eq_refl) as (n & Hn & ->). destruct Hg as [H1 H2 H3]. split; [done|done|].
    intros y Hy. destruct (decide (y ∈ used_ids db)) as [Hold|Hnew]; [by apply H3|].
    assert (y = new_ids db0 n) as ->; [|right; exists n; split; [simpl; lia|done]].
    unfold used_ids in *. destruct t; try done; cbn in *; injection Hid as <-; rewrite fmap_app in Hy; set_solver.
  - apply grown_set; [done|]. destruct t; try done; rewrite used_other; set_solver.
Qed.

(** ** Running operations *)

(** Runs [H] through a call that touches none of the view's tables. *)
Ltac quiet_step H :=
  lazymatch type of H with
  | (?m ≫= ?k) ?db = (Ret _, _) =>
      let Hw := fresh "Hw" in let Hm := fresh "Hm" in let Hq := fresh "Hq" in
      assert (only_writes quiet_tables m) as Hw by (solve [writes]);
      apply tx_bind_Ret in H as (? & ? & Hm & H);
      pose proof (quiet_run m _ _ _ Hw Hm) as Hq; clear Hw
  end.
Ltac quiet_last H :=
  lazymatch type of H with
  | (_ ≫= _) _ = _ => fail
  | ?m ?db = (_, _) =>
      let Hw := fresh "Hw" in
      assert (only_writes quiet_tables m) as Hw by (solve [writes]);
      apply (quiet_run m _ _ _ Hw) in H; clear Hw
  end.
Ltac case_run H :=
  let Hc := fresh "Hc" in
  lazymatch type of H with
  | (match ?x with _ => _ end ≫= _) _ = _ => destruct x eqn:Hc
  | (match ?x with _ => _ end) _ = _ => destruct x eqn:Hc
  end.
Ltac lx H := repeat first [tx_step H | quiet_step H | pair_step H | progress cbv zeta beta in H | quiet_last H].

(** A run of quiet calls is quiet. *)
Ltac quiet_chain := first [reflexivity | eassumption | etrans; [eassumption|]; quiet_chain].

(** The view of the database after a run. *)
Ltac vw :=
  repeat first
    [ match goal with Hq : quiet ?a ?b |- context [view ?b] => rewrite (quiet_view a b Hq) end
    | match goal with Hv : view ?b = _ |- context [view ?b] => rewrite Hv end
    | rewrite view_draw
    | rewrite view_insert; cbv beta iota
    | rewrite view_keep_attempts by done
    | rewrite view_keep_leases by done
    | rewrite view_modify_quiet by tables ].

(** Closes a goal [grown db db'] about a run. *)
Ltac grow :=
  repeat first
    [ apply grown_refl | assumption
    | eapply grown_quiet; [|eassumption]
    | match goal with Hg : grown ?a ?b |- grown _ ?b => apply (grown_trans _ a b); [|exact Hg] end
    | apply grown_update; [|done]
    | apply grown_draw
    | apply grown_insert; [|intros ? [=]; subst] ].

Lemma view_job_update db id F f' :
  (∀ r, view_job (F r) = f' (view_job r)) →
  view (modify T_jobs (is_job id) F db)
  = set_job id f' (view db).
Proof.
  intros HF. unfold set_job. apply (view_update_jobs db (is_job id) F). intros r _. unfold is_job. cbn.
  by case_bool_decide.
Qed.

Lemma set_job_id k s : set_job k (λ x, x) s = s.
Proof.
  destruct s as [js at' ls os gs]. unfold set_job, set_field. cbn. f_equal. unfold where_.
  induction js as [|j js IH]; [done|]. rewrite fmap_cons, IH. by case_bool_decide.
Qed.

(** The four event writers change the job row and append to quiet tables. *)
Lemma dispatch_event_view job holder et reason keep changes f' db u db' :
  Dispatch._event (Some job) holder et reason keep changes db = (Ret u, db') →
  (∀ r, view_job (changes r) = f' (view_job r)) →
  view db' = set_job (j_job_id job) f' (view db) ∧ grown db db'.
Proof.
  unfold Dispatch._event. intros H Hch. tx H.
  split; [|grow]. vw. by apply view_job_update.
Qed.

Lemma control_event_view job u act why et reason changes f' db v db' :
  _control_event job u act why et reason changes db = (Ret v, db') →
  (∀ r, view_job (changes r) = f' (view_job r)) →
  view db' = set_job (j_job_id job) f' (view db) ∧ grown db db'.
Proof.
  unfold _control_event. intros H Hch. tx H. split; [|grow]. vw. by apply view_job_update.
Qed.

Lemma job_event_view job actor et keep changes f' db v db' :
  _job_event job actor et keep changes db = (Ret v, db') →
  (∀ r, view_job (changes r) = f' (view_job r)) →
  view db' = set_job (j_job_id job) f' (view db) ∧ grown db db'.
Proof.
  unfold _job_event. intros H Hch. tx H. split; [|grow]. vw. by apply view_job_update.
Qed.
