(* ===== verification/Lifecycle.v ===== *)
(** * The life of an attempt's authority

    The coordinator's and the services' operations on the database ([Dispatch],
    [Authority], [Cleanup], [Control], [Workers], [Retry], [Eligibility],
    [Checkpoint]) refine the authority protocol of [Fencing]: a committed operation
    is a run of the protocol, mostly of one step.  [System] composes the operations. *)

From S2P Require Import Prelude PyDecimal PyValue Scheduling Database Ledger Authority Idempotency Identity.
From S2P Require Import Capabilities Eligibility Dispatch Cleanup Retry Control Workers Checkpoint Fencing View.

Local Open Scope string_scope.
Local Open Scope list_scope.
Local Open Scope Z_scope.

(** ** Dispatch *)

(** A fresh identifier is none of those in use. *)
Ltac fresh_id :=
  intros [_ H] Hn Hin; apply (H _ Hn); unfold used_ids; cbn in Hin; rewrite <- list_fmap_compose in Hin;
  rewrite !elem_of_app; auto.
Lemma fresh_attempt db n : ids_ok db → (ids_drawn db ≤ n)%nat → new_ids db n ∉ va_id <$> v_attempts (view db).
Proof. fresh_id. Qed.
Lemma fresh_lease db n : ids_ok db → (ids_drawn db ≤ n)%nat → new_ids db n ∉ vl_id <$> v_leases (view db).
Proof. fresh_id. Qed.
Lemma fresh_alloc db n : ids_ok db → (ids_drawn db ≤ n)%nat → new_ids db n ∉ vo_id <$> v_allocs (view db).
Proof. fresh_id. Qed.
Lemma fresh_grant db n : ids_ok db → (ids_drawn db ≤ n)%nat → new_ids db n ∉ vg_id <$> v_grants (view db).
Proof. fresh_id. Qed.

Lemma no_live_grant_rows db j :
  List.filter (λ r, bool_decide (gr_job_id r = j) && live_grant r) (rows db T_attempt_authority_grants) = [] →
  no_live_grant j (view db).
Proof.
  intros Hnil g (r & -> & Hr)%list_elem_of_fmap Hl Hj. cbn in *.
  assert (r ∈ List.filter (λ r, bool_decide (gr_job_id r = j) && live_grant r)
    (rows db T_attempt_authority_grants)) as Hin.
  { apply elem_of_List_filter. split; [|done]. rewrite Hl. by rewrite bool_decide_eq_true_2. }
  rewrite Hnil in Hin. by apply not_elem_of_nil in Hin.
Qed.

Lemma auth_step_eq s s1 s2 : auth_step s s1 → s2 = s1 → auth_step s s2.
Proof. by intros ? ->. Qed.

Lemma dispatch_refines worker job now epoch holder expected rid db u db' :
  dispatch_job worker job now epoch holder expected rid db = (Ret u, db') →
  job ∈ rows db T_jobs → ids_ok db → auth_step (view db) (view db') ∧ grown db db'.
Proof.
  unfold dispatch_job. intros H Hjob Hids. lx H.
  apply tx_bind_Ret in H as (? & ? & He & H).
  edestruct (dispatch_event_view _ _ _ _ _ _
    (λ x, x <| vj_fence := j_job_fence job + 1 |> <| vj_state := JS_DISPATCHING |>) _ _ _ He) as [Hv Hgr]; [done|].
  clear He. lx H. clear Hm Hm0. vw.
  apply negb_false_iff, bool_decide_eq_true_1, nil_length_inv in Hg0.
  bool_simpl. destruct_and?.
  split.
  - eapply auth_step_eq.
    + refine (auth_dispatch (view db) (view_job job) (new_ids db (ids_drawn db)) (new_ids db (S (S (ids_drawn db))))
        (new_ids db (S (ids_drawn db))) (new_ids db (S (S (S (S (ids_drawn db)))))) _ _
        (no_live_grant_rows db _ Hg0) _ _ _ _); [by apply list_elem_of_fmap_2|done|..].
      * apply fresh_attempt; [done|lia].
      * apply fresh_lease; [done|lia].
      * apply fresh_alloc; [done|lia].
      * apply fresh_grant; [done|lia].
    + reflexivity.
  - grow; cbn; eexists; (split; [|reflexivity]); lia.
Qed.

(** ** Fencing *)

Lemma view_revoke_attempt db a now rr :
  view (modify T_attempt_leases (of_attempt_lease a)
          (λ l, l <| le_revoked_at := Some now |> <| le_revoke_reason := Some rr |>) db)
  = revoke_leases (λ l, bool_decide (vl_attempt l = a)) (view db).
Proof.
  apply view_update_leases. intros l _. unfold of_attempt_lease, view_lease, live_lease, set_field. cbn.
  case_bool_decide; [|done]. by destruct (le_revoked_at l) eqn:E; simpl; rewrite ?E.
Qed.

Lemma view_end_attempt db a now :
  view (modify T_attempt_authority_grants (of_attempt_grant a) (λ g, g <| gr_ended_at := Some now |>) db)
  = end_grants (λ g, bool_decide (vg_attempt g = a)) (view db).
Proof.
  apply view_update_grants. intros g _. unfold of_attempt_grant, view_grant, live_grant, set_field. cbn.
  case_bool_decide; [|done]. by destruct (gr_ended_at g) eqn:E; simpl; rewrite ?E.
Qed.

(** Quarantining keeps an allocation unreleased. *)
Lemma view_quarantine db p now :
  (∀ r, r ∈ rows db T_allocations → p r = true → unreleased r = true) →
  view (modify T_allocations p (λ a, a <| al_state := AL_QUARANTINED |> <| al_quarantined_at := Some now |>) db)
  = view db.
Proof.
  intros Hp. unfold view. cbn. f_equal. apply where_id. intros r Hr Hpr. unfold view_alloc, set_field. cbn.
  f_equal. symmetry. by apply Hp.
Qed.

Lemma held_unreleased r : al_state r = AL_HELD → unreleased r = true.
Proof. unfold unreleased. by intros ->. Qed.

Lemma fence_attempt_view a now st fc fr rr db u db' :
  fence_attempt a now st fc fr rr db = (Ret u, db') → view db' = drop_attempt a (view db) ∧ grown db db'.
Proof.
  unfold fence_attempt. intros H. lx H. split; [|grow].
  vw. rewrite view_quarantine, view_end_attempt, view_revoke_attempt, view_keep_attempts; [done..|].
  intros r _ Hp. bool_simpl. by apply held_unreleased.
Qed.

Lemma revoke_leftover_view a o now rr db u db' :
  revoke_leftover_authority a o now rr db = (Ret u, db') → view db' = drop_attempt a (view db) ∧ grown db db'.
Proof.
  unfold revoke_leftover_authority. intros H. lx H. split; [|grow].
  vw. rewrite view_quarantine, view_end_attempt, view_revoke_attempt; [done|].
  intros r _ Hp. bool_simpl. by apply held_unreleased.
Qed.

(** The live grant of a job is that of the attempt with the job's fence. *)
Lemma current_attempt_grants s a j :
  auth_inv s → a ∈ v_attempts s → j ∈ v_jobs s → va_job a = vj_id j → va_fence a = vj_fence j →
  ∀ g, g ∈ v_grants s → vg_live g = true → vg_job g = vj_id j → vg_attempt g = va_id a.
Proof.
  intros Hinv Ha Hj Hjob Hf g Hg Hl Hgj.
  destruct (inv_grant_attempt s Hinv g Hg) as (a' & Ha' & <- & Hj' & Hf').
  destruct (inv_live_job s Hinv g j Hg Hl Hj) as [Hfence _]; [done|].
  rewrite (inv_attempt_unique s Hinv a a'); congruence.
Qed.

Lemma lease_job db l a :
  auth_inv (view db) → l ∈ rows db T_attempt_leases → a ∈ rows db T_attempts →
  at_attempt_id a = le_attempt_id l → at_job_id a = le_job_id l.
Proof.
  intros Hinv Hl Ha Heq.
  destruct (inv_lease_attempt _ Hinv (view_lease l)) as (x & (a' & -> & Ha')%list_elem_of_fmap & Hid & Hjob);
    [by apply list_elem_of_fmap_2|]. cbn in *.
  assert (view_attempt a' = view_attempt a) as Hsame; [|by injection Hsame; congruence].
  eapply (NoDup_fmap_elem va_id); [apply Hinv|by apply list_elem_of_fmap_2..|]. cbn. congruence.
Qed.

Lemma alloc_job db o a :
  auth_inv (view db) → o ∈ rows db T_allocations → a ∈ rows db T_attempts →
  at_attempt_id a = al_attempt_id o → at_job_id a = al_job_id o.
Proof.
  intros Hinv Ho Ha Heq.
  destruct (inv_alloc_attempt _ Hinv (view_alloc o)) as (x & (a' & -> & Ha')%list_elem_of_fmap & Hid & Hjob);
    [by apply list_elem_of_fmap_2|]. cbn in *.
  assert (view_attempt a' = view_attempt a) as Hsame; [|by injection Hsame; congruence].
  eapply (NoDup_fmap_elem va_id); [apply Hinv|by apply list_elem_of_fmap_2..|]. cbn. congruence.
Qed.

Lemma fence_step db j a st :
  auth_inv (view db) → j ∈ rows db T_jobs → a ∈ rows db T_attempts → at_job_id a = j_job_id j →
  at_job_fence a = j_job_fence j → occupies (j_state j) = true → occupies st = true → may_live st = false →
  auth_step (view db) (set_job (j_job_id j) (λ x, x <| vj_fence := j_job_fence j + 1 |> <| vj_state := st |>)
                         (drop_attempt (at_attempt_id a) (view db))).
Proof.
  intros Hinv Hj Ha Hjob Hfence Hocc Hst Hlive.
  apply (auth_fence (view db) (view_job j)); [by apply list_elem_of_fmap_2|done|done| |done].
  apply (current_attempt_grants (view db) (view_attempt a) (view_job j)); try done; by apply list_elem_of_fmap_2.
Qed.

Lemma active_occupies st : st ∈ _ACTIVE → occupies st = true.
Proof. unfold _ACTIVE. intros H. destruct st; first [reflexivity|exfalso; set_solver]. Qed.

Lemma reap_refines lease holder now db b db' :
  reap_lease_locked lease holder now db = (Ret b, db') →
  auth_inv (view db) → auth_step (view db) (view db') ∧ grown db db'.
Proof.
  unfold reap_lease_locked. intros H Hinv. lx H.
  destruct Hl as [[_ ->]|(ref & [Href _]%filter_one & ->)]; lx H; [split; [constructor|grow]|].
  apply filter_one in Hl as [Hj Hjid], Hl0 as [Ha Haid], Hl1 as [Hlin _]. unfold is_job, has_attempt in *. bool_simpl.
  destruct (_ || _); lx H; [split; [constructor|grow]|].
  destruct (bool_decide (_ ∈ _ACTIVE) && _) eqn:Hact; apply tx_bind_Ret in H as (? & ? & Hf & H);
    apply tx_bind_Ret in H as (? & ? & He & H); lx H.
  - apply fence_attempt_view in Hf as [Hv Hg].
    eapply (dispatch_event_view _ _ _ _ _ _
      (λ x, x <| vj_fence := j_job_fence _ + 1 |> <| vj_state := JS_RECOVERING |>)) in He as [Hv' Hg']; [|done].
    split; [|grow]. vw. bool_simpl. destruct_and?.
    apply fence_step; try done; [|by apply active_occupies]. rewrite (lease_job db ref); [congruence|done..].
  - apply revoke_leftover_view in Hf as [Hv Hg].
    eapply (dispatch_event_view _ _ _ _ _ _ (λ x, x)) in He as [Hv' Hg']; [|done].
    split; [|grow]. vw. rewrite set_job_id. constructor.
Qed.

(** ** Worker callbacks *)

(** What an accepted authority says of the database. *)
Record accepted (db : DB) (a : Database.Authority) (w : string) (r : AuthorityRows) : Prop := {
  acc_job : ar_job r ∈ rows db T_jobs;
  acc_attempt : ar_attempt r ∈ rows db T_attempts;
  acc_lease : ar_lease r ∈ rows db T_attempt_leases;
  acc_alloc : ar_allocation r ∈ rows db T_allocations;
  acc_grant : ar_grant r ∈ rows db T_attempt_authority_grants;
  acc_live : live_grant (ar_grant r) = true;
  acc_attempt_id : at_attempt_id (ar_attempt r) = a_attempt_id a;
  acc_lease_id : le_lease_id (ar_lease r) = a_lease_id a;
  acc_alloc_id : al_allocation_id (ar_allocation r) = a_allocation_id a;
  acc_grant_attempt : gr_attempt_id (ar_grant r) = a_attempt_id a;
  acc_worker : a_worker_id a = w;
  acc_matches : authority_matches a w r = true;
  acc_desired : j_desired_state (ar_job r) ≠ DS_CANCELLED;
}.

Lemma authority_rows_Ret a w db r db' :
  _authority_rows a w db = (Ret r, db') → db' = db ∧ accepted db a w r.
Proof.
  unfold _authority_rows. intros H. tx H.
  destruct Hl as [[_ ->]|(ref & _ & ->)]; tx H.
  destruct Hl1 as [[_ ->]|(lease & Hl1 & ->)]; [by destruct x2, x3|].
  destruct Hl2 as [[_ ->]|(alloc & Hl2 & ->)]; [done|].
  destruct Hl3 as [[_ ->]|(grant & Hl3 & ->)]; [done|]. cbv zeta in H. tx H.
  apply negb_false_iff in Hg1. split; [done|].
  apply filter_one in Hl as [? _], Hl0 as [? ?], Hl1 as [? ?], Hl2 as [? ?], Hl3 as [? ?].
  bool_simpl. destruct_and?. split; cbn; try done.
  intros Hc. unfold authority_matches in Hg1. cbn in Hg1. bool_simpl. destruct_and?.
  rewrite !bool_decide_eq_true_2 in Hg0 by done. done.
Qed.

(** The comparisons of [authority_matches], one by one. *)
Lemma accepted_matches db a w r :
  accepted db a w r →
  j_job_id (ar_job r) = at_job_id (ar_attempt r) ∧ j_job_fence (ar_job r) = a_job_fence a ∧
  at_job_fence (ar_attempt r) = a_job_fence a ∧ le_attempt_id (ar_lease r) = a_attempt_id a ∧
  al_attempt_id (ar_allocation r) = a_attempt_id a ∧ al_job_id (ar_allocation r) = j_job_id (ar_job r) ∧
  gr_worker_incarnation_id (ar_grant r) = Some (a_worker_incarnation_id a) ∧
  gr_lease_id (ar_grant r) = a_lease_id a ∧ gr_allocation_id (ar_grant r) = a_allocation_id a ∧
  gr_job_fence (ar_grant r) = a_job_fence a.
Proof.
  intros Hacc. pose proof (acc_matches _ _ _ _ Hacc) as Hm. unfold authority_matches in Hm.
  bool_simpl. destruct_and?. done.
Qed.

(** Reading rows after a quiet run is reading them before it. *)
Lemma accepted_quiet db db' a w r : quiet db db' → accepted db' a w r → accepted db a w r.
Proof.
  intros [Hq _ _] []. split; try done; by rewrite <- Hq by (unfold quiet_tables; set_solver).
Qed.

Lemma accepted_grant_job db a w r :
  auth_inv (view db) → accepted db a w r → gr_job_id (ar_grant r) = j_job_id (ar_job r).
Proof.
  intros Hinv Hacc. destruct (accepted_matches _ _ _ _ Hacc) as (Hj & _).
  destruct (inv_grant_attempt _ Hinv (view_grant (ar_grant r)))
    as (x & (a' & -> & Ha')%list_elem_of_fmap & Hid & Hjob & _); [apply list_elem_of_fmap_2, Hacc|]. cbn in *.
  assert (view_attempt a' = view_attempt (ar_attempt r)) as Hsame; [|injection Hsame; congruence].
  eapply (NoDup_fmap_elem va_id); [apply Hinv|apply list_elem_of_fmap_2; by try apply Hacc..|]. cbn.
  rewrite Hid. rewrite (acc_attempt_id _ _ _ _ Hacc). apply Hacc.
Qed.

Section callbacks.
Context (sha256 : string → string).

Lemma renew_refines h q db r db' :
  renew_attempt sha256 h q db = (Ret r, db') → view db' = view db ∧ grown db db'.
Proof.
  unfold renew_attempt. intros H. lx H. destruct o0; lx H; [split; [by vw|grow]|].
  case_run H; lx H; (split; [by vw|grow]).
Qed.

Lemma reserve_refines h a db r db' :
  reserve_result sha256 h a db = (Ret r, db') → view db' = view db ∧ grown db db'.
Proof.
  unfold reserve_result. intros H. lx H. destruct s; lx H; (split; [by vw|grow]).
Qed.

Lemma transition_view job a st et changes f' db u db' :
  _transition job a st et changes db = (Ret u, db') →
  (∀ r, view_job ((changes r) <| j_state := st |>) = f' (view_job r)) →
  view db' = set_job (j_job_id job) f' (view db) ∧ grown db db'.
Proof.
  unfold _transition. intros H Hch. tx H. split; [|grow]. vw. by apply view_job_update.
Qed.

Lemma start_refines h q db r db' :
  start_attempt sha256 h q db = (Ret r, db') → auth_step (view db) (view db') ∧ grown db db'.
Proof.
  unfold start_attempt. intros H. lx H. destruct s as [|rw]; lx H; [split; [vw; constructor|grow]|].
  apply tx_bind_Ret in H as (? & ? & He & H).
  match type of He with _transition _ _ ?st _ _ _ = _ =>
    eapply (transition_view _ _ st _ _ (λ x, x <| vj_state := st |>)) in He as [Hv Hg']; [|done] end.
  lx H. split; [|grow]. vw. apply auth_move; case_bool_decide; by left.
Qed.

(** Only the grant with this identifier is ended. *)
Lemma view_end_grant db id now :
  view (modify T_attempt_authority_grants (λ g, bool_decide (gr_grant_id g = id))
          (λ g, g <| gr_ended_at := Some now |>) db)
  = end_grants (λ g, bool_decide (vg_id g = id)) (view db).
Proof. apply view_update_grants. intros g _. unfold view_grant, set_field. cbn. by case_bool_decide. Qed.

Lemma adopt_refines h q db r db' :
  adopt_attempt sha256 h q db = (Ret r, db') → auth_inv (view db) → ids_ok db →
  auth_step (view db) (view db') ∧ grown db db'.
Proof.
  unfold adopt_attempt. intros H Hinv Hids. lx H. destruct o0; lx H; [split; [vw; constructor|grow]|].
  match goal with Ha : _authority_rows _ _ ?d = (Ret ?r, _) |- _ =>
    assert (accepted db (ad_prior_authority q) (h_worker_id h) r) as Hacc
      by (eapply (accepted_quiet db d); [quiet_chain|by eapply authority_rows_Ret]) end.
  match goal with Hv : _live_authority _ _ _ = (Ret _, ?d) |- _ =>
    assert (quiet db d) as [_ Hnew Hdrawn] by quiet_chain end.
  destruct (accepted_matches _ _ _ _ Hacc) as (_ & _ & _ & _ & _ & _ & _ & Hgl & Hga & Hgf).
  pose proof (accepted_grant_job _ _ _ _ Hinv Hacc) as Hgj. bool_simpl. destruct_and?. split.
  - vw. rewrite view_end_grant. vw.
    eapply auth_step_eq.
    + apply (auth_adopt (view db) (view_grant (ar_grant x7)) (new_ids x15 (ids_drawn x15)));
        [apply list_elem_of_fmap_2, Hacc|apply Hacc|]. rewrite Hnew. by apply fresh_grant.
    + cbn. rewrite Hgl, Hga, Hgf, Hgj, (acc_grant_attempt _ _ _ _ Hacc).
      match goal with E : a_attempt_id _ = h_attempt_id h |- _ => rewrite E end. done.
  - grow. rewrite Hnew. eexists. split; [|reflexivity]. cbn. lia.
Qed.

Lemma cleanup_event_view job w et reason keep changes f' db v db' :
  Cleanup._event job w et reason keep changes db = (Ret v, db') →
  (∀ r, view_job (changes r) = f' (view_job r)) →
  view db' = set_job (j_job_id job) f' (view db) ∧ grown db db'.
Proof.
  unfold Cleanup._event. intros H Hch. lx H. split; [|grow]. vw. by apply view_job_update.
Qed.

Lemma view_revoke_lease db id now :
  view (modify T_attempt_leases (has_lease id) (λ l, l <| le_revoked_at := Some now |>) db)
  = revoke_leases (λ l, bool_decide (vl_id l = id)) (view db).
Proof.
  apply view_update_leases. intros l _. unfold has_lease, view_lease, set_field. cbn. by case_bool_decide.
Qed.

Lemma accepted_drop db a w r :
  auth_inv (view db) → accepted db a w r →
  end_grants (λ g, bool_decide (vg_id g = gr_grant_id (ar_grant r)))
    (revoke_leases (λ l, bool_decide (vl_id l = le_lease_id (ar_lease r))) (view db))
  = drop_attempt (at_attempt_id (ar_attempt r)) (view db).
Proof.
  intros Hinv Hacc. destruct (accepted_matches _ _ _ _ Hacc) as (_ & _ & _ & _ & _ & _ & _ & Hl & _ & _).
  rewrite (acc_attempt_id _ _ _ _ Hacc), <- (acc_grant_attempt _ _ _ _ Hacc).
  apply (drop_attempt_one (view db) (view_grant (ar_grant r)) (view_lease (ar_lease r))); [done|..].
  - apply list_elem_of_fmap_2, Hacc.
  - apply Hacc.
  - apply list_elem_of_fmap_2, Hacc.
  - cbn. rewrite Hl. apply Hacc.
Qed.

Lemma accepted_alloc db a w r x :
  auth_inv (view db) → accepted db a w r → x ∈ rows db T_allocations →
  al_allocation_id x = al_allocation_id (ar_allocation r) → unreleased (ar_allocation r) = true → unreleased x = true.
Proof.
  intros Hinv Hacc Hx Hid Hr.
  assert (view_alloc x = view_alloc (ar_allocation r)) as Hsame; [|by injection Hsame; congruence].
  eapply (NoDup_fmap_elem vo_id); [apply Hinv|apply list_elem_of_fmap_2; by try apply Hacc..|done].
Qed.

Lemma fail_refines h q db r db' :
  fail_attempt sha256 h q db = (Ret r, db') → auth_inv (view db) →
  auth_step (view db) (view db') ∧ grown db db'.
Proof.
  unfold fail_attempt. intros H Hinv. lx H. destruct o0; lx H; [split; [vw; constructor|grow]|].
  match goal with Ha : _authority_rows _ _ ?d = (Ret ?r, _) |- _ =>
    assert (accepted db (fr_authority q) (h_worker_id h) r) as Hacc
      by (eapply (accepted_quiet db d); [quiet_chain|by eapply authority_rows_Ret]) end.
  match goal with Hv : check_observation _ _ _ _ = (Ret _, ?d) |- _ =>
    assert (quiet db d) as [Hrows _ _] by quiet_chain end.
  apply tx_bind_Ret in H as (? & ? & He & H).
  eapply (cleanup_event_view _ _ _ _ _ _
    (λ x, x <| vj_fence := j_job_fence (ar_job x5) + 1 |> <| vj_state := JS_RECOVERING |>)) in He as [Hv Hg'];
    [|done]. lx H. split; [|grow]. vw. bool_simpl. destruct_and?. rewrite view_quarantine.
  - rewrite view_end_grant, view_revoke_lease. vw. rewrite (accepted_drop db _ _ _ Hinv Hacc).
    destruct (accepted_matches _ _ _ _ Hacc) as (Hj & Hf & Hf' & _).
    apply fence_step; try done; try apply Hacc; [congruence|]. by apply active_occupies.
  - rewrite !modify_other, Hrows by (done || tables). intros y Hy Hp. bool_simpl. eapply accepted_alloc; try done.
    by apply held_unreleased.
Qed.

(** ** Verified cleanup *)

Lemma recover_view job attempt safe ck now jitter r :
  view_job (recovery_changes (recover job attempt safe ck now jitter) r) = view_job r.
Proof. unfold recover. by repeat case_match. Qed.

Lemma settle_view job attempt now jitter db next changes db' :
  settle_job job attempt now jitter db = (Ret (next, changes), db') →
  view db' = view db ∧ grown db db' ∧ (∀ r, view_job (changes r) = view_job r) ∧
  rows db' T_attempt_leases = rows db T_attempt_leases.
Proof.
  intros H. assert (only_writes [T_attempts; T_result_reservations; T_retry_schedules]
    (settle_job job attempt now jitter)) as Hw by (unfold settle_job, end_attempt; writes).
  destruct (Hw _ _ _ H) as [Hleases _]. rewrite (Hleases T_attempt_leases) by set_solver.
  unfold settle_job, end_attempt in H. clear Hw Hleases.
  destruct (j_state job); lx H; try (case_run H; lx H); simplify_eq; (split_and!; [by vw|grow| |done]); try done.
  all: intros r; apply recover_view.
Qed.

(** The single lease of an attempt is the one to revoke. *)
Lemma view_revoke_only db a lease now db1 :
  auth_inv (view db) → rows db1 T_attempt_leases = rows db T_attempt_leases →
  List.filter (λ l, bool_decide (le_attempt_id l = a)) (rows db T_attempt_leases) = [lease] →
  view (if live_lease lease
        then modify T_attempt_leases (has_lease (le_lease_id lease)) (λ l, l <| le_revoked_at := Some now |>) db1
        else db1)
  = revoke_leases (λ l, bool_decide (vl_attempt l = a)) (view db1).
Proof.
  intros Hinv Hrows Hone.
  assert (∀ l, l ∈ rows db T_attempt_leases → le_attempt_id l = a → l = lease) as Honly.
  { intros l Hl Ha. assert (l ∈ [lease]) as Hin%list_elem_of_singleton; [|done]. rewrite <- Hone.
    apply elem_of_List_filter. by rewrite bool_decide_eq_true_2. }
  apply filter_one in Hone as [Hin Ha]. bool_simpl. destruct (live_lease lease) eqn:Hlive.
  - apply view_update_leases. rewrite Hrows. intros l Hl. unfold has_lease, view_lease, set_field. cbn.
    assert (le_lease_id l = le_lease_id lease ↔ le_attempt_id l = a) as Heq; [|repeat case_bool_decide; tauto].
    split; [|by intros ->%Honly]. intros Hid.
    assert (view_lease l = view_lease lease) as Hsame; [|injection Hsame; congruence].
    eapply (NoDup_fmap_elem vl_id); [apply Hinv|by apply list_elem_of_fmap_2..|done].
  - unfold revoke_leases, set_field, view. cbn. f_equal. unfold where_. rewrite Hrows, <- list_fmap_compose.
    apply list_fmap_ext. intros i l Hl%list_elem_of_lookup_2. cbn. case_bool_decide as E; [|done].
    rewrite (Honly l Hl E). unfold view_lease. by rewrite Hlive.
Qed.

Lemma view_release db id now reason :
  view (modify T_allocations (λ a, bool_decide (al_allocation_id a = id))
          (λ a, a <| al_state := AL_RELEASED |> <| al_released_at := Some now |> <| al_release_reason := reason |>) db)
  = (view db) <| v_allocs := where_ (λ x, bool_decide (vo_id x = id)) (λ x, x <| vo_held := false |>)
                               (v_allocs (view db)) |>.
Proof. apply view_update_allocs. intros a _. unfold view_alloc, set_field. cbn. by case_bool_decide. Qed.

Lemma release_attempt_view h q cs job attempt lease container jitter days clock db u db' :
  release_attempt h q cs job attempt lease container jitter days clock db = (Ret u, db') →
  auth_inv (view db) →
  List.filter (λ l, bool_decide (le_attempt_id l = h_attempt_id h)) (rows db T_attempt_leases) = [lease] →
  grown db db' ∧ ∃ next, view db' =
    set_job (j_job_id job) (λ x, x <| vj_state := next |>) (drop_attempt (h_attempt_id h)
      ((view db) <| v_allocs := where_ (λ x, bool_decide (vo_id x = cl_allocation_id q))
                                  (λ x, x <| vo_held := false |>) (v_allocs (view db)) |>)).
Proof.
  unfold release_attempt. intros H Hinv Hlease. lx H.
  apply tx_bind_Ret in H as ([next changes] & db1 & Hs & H). apply settle_view in Hs as (Hv1 & Hg1 & Hch & Hl1).
  apply tx_bind_Ret in H as (? & db2 & He & H).
  assert (view db2 = view db1 ∧ grown db1 db2 ∧ rows db2 T_attempt_leases = rows db1 T_attempt_leases)
    as (Hv2 & Hg2 & Hl2).
  { case_run He; unfold end_attempt in He; lx He; (split_and!; [by vw|grow|done]). }
  clear He. lx H.
  match goal with Hq : quiet ?a x9 |- _ =>
    assert (rows x9 T_attempt_leases = rows db T_attempt_leases) as Hrows
  end.
  { assert (quiet db2 x9) as [Hr _ _] by quiet_chain. rewrite Hr, Hl2, Hl1, !modify_other by (done || tables).
    match goal with Hq : quiet db _ |- _ => by rewrite (quiet_rows _ _ Hq) by tables end. }
  pose proof (view_revoke_only db _ lease (h_now h) x9 Hinv Hrows Hlease) as Hv3.
  apply tx_bind_Ret in H as (? & db3 & He & H).
  assert (view db3 = revoke_leases (λ l, bool_decide (vl_attempt l = h_attempt_id h)) (view x9) ∧ grown x9 db3)
    as [Hv4 Hg4]. { case_run He; lx He; (split; [done|grow]). }
  clear He Hv3. lx H. apply tx_bind_Ret in H as (? & db4 & He & H). lx H.
  eapply (cleanup_event_view _ _ _ _ _ _ (λ x, x <| vj_state := next |>)) in He as [Hv5 Hg5].
  - split; [grow|]. exists next. vw. rewrite view_end_attempt. vw. rewrite view_release. vw. done.
  - intros r. rewrite <- (Hch r). by case_match.
Qed.

Lemma cleanup_refines h q jitter days clock db r db' :
  report_cleanup sha256 h q jitter days clock db = (Ret r, db') → auth_inv (view db) →
  auth_step (view db) (view db') ∧ grown db db'.
Proof.
  unfold report_cleanup. intros H Hinv. lx H.
  destruct Hl2 as [[_ ->]|(alloc & Halloc & ->)]; [done|]. lx H.
  case_run H; lx H; [split; [vw; constructor|grow]|].
  case_run H; lx H; [split; [vw; constructor|grow]|].
  case_run H; lx H; [split; [vw; constructor|grow]|].
  apply tx_bind_Ret in H as (? & db1 & Hr & H). lx H.
  assert (quiet db x2) as Hq2' by quiet_chain. assert (quiet x2 x10) as Hq10 by quiet_chain.
  apply release_attempt_view in Hr as [Hgr [next Hv]].
  - split; [|grow]. vw. apply filter_one in Hl as [Ha Haid], Hl0 as [_ Hjid], Halloc as [Ho Hoid].
    rewrite (quiet_rows _ _ Hq2') in Ha, Ho by tables. unfold is_job, has_attempt in *. bool_simpl. destruct_and?.
    eapply auth_step_eq; [apply (auth_release (view db) (view_alloc alloc) next)|].
    + by apply list_elem_of_fmap_2.
    + cbn. unfold unreleased. by rewrite bool_decide_eq_false_2.
    + assert (at_job_id x3 = al_job_id alloc) as Hjob by (apply (alloc_job db); congruence || done).
      cbn [vo_job vo_attempt vo_id view_alloc].
      replace (al_allocation_id alloc) with (cl_allocation_id q) by congruence.
      replace (al_attempt_id alloc) with (h_attempt_id h) by congruence.
      by replace (al_job_id alloc) with (j_job_id x4) by congruence.
  - by rewrite (quiet_view x2 x10), (quiet_view db x2).
  - by rewrite (quiet_rows x2 x10 Hq10) by tables.
Qed.
End callbacks.

(** ** User control *)

(** A job in a state without authority has none; in one that occupies nothing it
    holds no allocation. *)
Lemma no_live_state db j :
  auth_inv (view db) → j ∈ rows db T_jobs → may_live (j_state j) = false → no_live_grant (j_job_id j) (view db).
Proof.
  intros Hinv Hj Hst g Hg Hl Hgj.
  destruct (inv_live_job _ Hinv g (view_job j) Hg Hl) as [_ H]; [by apply list_elem_of_fmap_2|done|].
  cbn in H. congruence.
Qed.
Lemma no_held_state db j :
  auth_inv (view db) → j ∈ rows db T_jobs → occupies (j_state j) = false → no_held_alloc (j_job_id j) (view db).
Proof.
  intros Hinv Hj Hst o Ho Hh Hoj.
  pose proof (inv_held_state _ Hinv o (view_job j) Ho Hh) as H. cbn in H.
  rewrite H in Hst; [done|by apply list_elem_of_fmap_2|done].
Qed.

(** What a control does to the view: nothing when it is a replay, and otherwise what
    its transition does followed by the staged job changes. *)
Lemma control_view settings q op act t apply db r db' :
  _control settings q op act t apply db = (Ret r, db') →
  (view db' = view db ∧ grown db db') ∨
  ∃ db1 job counters x db2,
    quiet db db1 ∧ job ∈ rows db T_jobs ∧
    apply {| cc_job := job; cc_counters := counters; cc_now := t_now t |} db1 = (Ret x, db2) ∧
    ∀ f', (∀ r, view_job (ct_changes x r) = f' (view_job r)) → grown db db2 →
      view db' = set_job (j_job_id job) f' (view db2) ∧ grown db db'.
Proof.
  unfold _control. intros H. lx H. case_run H; lx H; [left; split; [by vw|grow]|]. right.
  apply tx_bind_Ret in H as (tr & db2 & Ha & H). apply tx_bind_Ret in H as (? & db3 & He & H).
  apply filter_one in Hl as [Hjob _].
  match type of Ha with _ ?d = _ => assert (quiet db d) as Hq' by quiet_chain end.
  rewrite (quiet_rows _ _ Hq') in Hjob by tables.
  eexists _, _, _, tr, db2. split; [exact Hq'|]. split; [exact Hjob|]. split; [exact Ha|].
  intros f' Hf' Hg2. eapply control_event_view in He as [Hv Hg']; [|exact Hf'].
  lx H. split; [by vw|grow].
Qed.

Lemma pause_refines settings q t db r db' :
  pause_job settings q t db = (Ret r, db') → auth_step (view db) (view db') ∧ grown db db'.
Proof.
  unfold pause_job. intros H. apply control_view in H as [[-> Hg]|(db1 & job & cs & x & db2 & Hq & Hj & Ha & Hv)];
    [split; [constructor|done]|].
  unfold pause_apply in Ha. lx Ha.
  edestruct (Hv (λ y, y <| vj_state := JS_PAUSING |>)) as [-> Hg']; [done|grow|]. split; [|done].
  vw. apply auth_move; by left.
Qed.

Lemma resume_refines settings q t db r db' :
  resume_job settings q t db = (Ret r, db') → auth_inv (view db) → auth_step (view db) (view db') ∧ grown db db'.
Proof.
  unfold resume_job. intros H Hinv. apply control_view in H as [[-> Hg]|(db1 & job & cs & x & db2 & Hq & Hj & Ha & Hv)];
    [split; [constructor|done]|].
  unfold resume_apply in Ha. cbn [cc_job cc_counters cc_now] in Ha. destruct cs as [|c cs]; lx Ha.
  edestruct (Hv (λ y, y <| vj_state := JS_QUEUED |>)) as [-> Hg']; [done|grow|]. split; [|done].
  bool_simpl. vw. apply auth_move; right; [apply no_live_state|apply no_held_state]; try done;
    match goal with E : j_state job = _ |- _ => by rewrite E end.
Qed.

(** The attempt found by [_lock_live_attempt] has the live authority of the job, and
    when none is found there is no live authority. *)
Lemma live_attempt_Ret job_id db o db' :
  _lock_live_attempt job_id db = (Ret o, db') → auth_inv (view db) →
  match o with
  | None => no_live_grant job_id (view db)
  | Some a => a ∈ rows db T_attempts ∧ at_job_id a = job_id ∧
      ∀ j, j ∈ rows db T_jobs → j_job_id j = job_id → at_job_fence a = j_job_fence j
  end.
Proof.
  unfold _lock_live_attempt. intros H Hinv. tx H. set (join := mjoin _) in *.
  assert (∀ a, a ∈ join ↔ (a ∈ rows db T_attempts ∧ at_job_id a = job_id) ∧
    ∃ l, l ∈ rows db T_attempt_leases ∧ live_lease l = true ∧ le_attempt_id l = at_attempt_id a) as Hjoin.
  { intros a. unfold join. rewrite list_elem_of_join. setoid_rewrite list_elem_of_fmap.
    setoid_rewrite elem_of_List_filter. setoid_rewrite bool_decide_eq_true. split.
    - intros (l & Ha & x & -> & Hx & Hxr). apply list_elem_of_fmap in Ha as (y & -> & Hy).
      apply elem_of_List_filter in Hy as [Hya Hy]. apply elem_of_List_filter in Hy as [Hyl Hy].
      apply bool_decide_eq_true in Hya. eauto 7.
    - intros ((Ha & Hj) & l & Hl & Hll & Hla). eexists. split; [|by exists a].
      apply list_elem_of_fmap. exists l. split; [done|]. apply elem_of_List_filter. rewrite bool_decide_eq_true. split; [done|].
      by apply elem_of_List_filter. }
  destruct join as [|a [|? ?]] eqn:Hone; [apply tx_mret in H as [[= ->] _]|apply tx_mret in H as [[= ->] _]|done].
  - intros g Hg Hl Hgj. destruct (inv_live_lease _ Hinv g Hg Hl) as (l & Hlr & Hll & _ & Hla).
    destruct (inv_grant_attempt _ Hinv g Hg) as (a & Har & Hid & Haj & _).
    apply list_elem_of_fmap in Hlr as (lr & -> & Hlr), Har as (ar & -> & Har). cbn in *.
    assert (ar ∈ []) as Hin; [|by apply elem_of_nil in Hin].
    apply Hjoin. split; [split; [done|congruence]|]. exists lr. split_and!; [done|done|congruence].
  - assert (a ∈ [a]) as ((Ha & Haj) & l & Hlr & Hll & Hla)%Hjoin by set_solver.
    split_and!; [done|done|]. intros j Hj Hjid.
    destruct (inv_lease_live _ Hinv (view_lease l)) as (g & Hg & Hgl & _ & Hga); [by apply list_elem_of_fmap_2|done|].
    destruct (inv_grant_attempt _ Hinv g Hg) as (a' & Ha' & Hid & Haj' & Haf).
    assert (a' = view_attempt a) as ->.
    { eapply (NoDup_fmap_elem va_id); [apply Hinv|done|by apply list_elem_of_fmap_2|]. cbn in *. congruence. }
    destruct (inv_live_job _ Hinv g (view_job j) Hg Hgl) as [Hf _]; [by apply list_elem_of_fmap_2|cbn in *; congruence|].
    cbn in *. congruence.
Qed.

Lemma cancel_refines settings q t db r db' :
  cancel_job settings q t db = (Ret r, db') → auth_inv (view db) → auth_step (view db) (view db') ∧ grown db db'.
Proof.
  unfold cancel_job. intros H Hinv. apply control_view in H as [[-> Hg]|(db1 & job & cs & x & db2 & Hq & Hj & Ha & Hv)];
    [split; [constructor|done]|].
  unfold cancel_apply in Ha. cbn [cc_job cc_counters cc_now] in Ha. cbv zeta in Ha.
  destruct (bool_decide (j_state job ∈ _IMMEDIATE_CANCEL)) eqn:Himm; [|destruct (bool_decide (j_state job ∈ _ACTIVE)) eqn:Hact].
  - lx Ha. edestruct (Hv (λ y, y <| vj_state := JS_CANCELLED |>)) as [-> Hg']; [done|grow|]. split; [|done].
    apply bool_decide_eq_true in Himm. vw. apply auth_move; right; [apply no_live_state|apply no_held_state]; try done;
      unfold _IMMEDIATE_CANCEL in Himm; destruct (j_state job); first [reflexivity|exfalso; set_solver].
  - apply tx_bind_Ret in Ha as (o & db3 & Hl & Ha).
    assert (only_writes quiet_tables (_lock_live_attempt (j_job_id job))) as Hw by writes.
    pose proof (quiet_run _ _ _ _ Hw Hl) as Hq3.
    apply live_attempt_Ret in Hl; [|by rewrite (quiet_view db db1)].
    destruct o as [a|].
    + destruct Hl as (Har & Haj & Hfence). apply tx_bind_Ret in Ha as (? & db4 & Hf & Ha). lx Ha.
      apply fence_attempt_view in Hf as [Hvf Hgf].
      edestruct (Hv (λ y, y <| vj_fence := j_job_fence job + 1 |> <| vj_state := JS_CANCELLING |>)) as [-> Hg'];
        [done|grow|]. split; [|done]. vw.
      rewrite (quiet_rows _ _ Hq) in Har, Hfence by tables. apply bool_decide_eq_true in Hact.
      apply fence_step; try done; [by apply Hfence|by apply active_occupies].
    + lx Ha. edestruct (Hv (λ y, y <| vj_state := JS_CANCELLING |>)) as [-> Hg']; [done|grow|]. split; [|done].
      vw. apply auth_move; [right|by left]. by rewrite <- (quiet_view db db1).
  - case_run Ha; lx Ha. edestruct (Hv (λ y, y <| vj_state := JS_CANCELLING |>)) as [-> Hg']; [done|grow|].
    split; [|done]. bool_simpl. vw. apply auth_move; [right|by left]. apply no_live_state; try done.
    match goal with E : j_state job = _ |- _ => by rewrite E end.
Qed.

(** ** Loops *)

(** A call made where [P] holds of the view is a run of the protocol. *)
Definition refines {A} (P : AState → Prop) (m : Tx A) : Prop := ∀ db a db',
  m db = (Ret a, db') → auth_inv (view db) → P (view db) → rtc auth_step (view db) (view db') ∧ grown db db'.

Definition stable (P : AState → Prop) : Prop := ∀ s s', auth_step s s' → P s → P s'.

Lemma run_inv s s' : rtc auth_step s s' → auth_inv s → auth_inv s'.
Proof. induction 1; eauto using auth_step_inv. Qed.
Lemma run_stable P s s' : stable P → rtc auth_step s s' → P s → P s'.
Proof. intros HP. induction 1; eauto. Qed.

Lemma refines_bind {A B} P (m : Tx A) (f : A → Tx B) :
  stable P → refines P m → (∀ a, refines P (f a)) → refines P (m ≫= f).
Proof.
  intros HP Hm Hf db b db' H Hinv Hp. apply tx_bind_Ret in H as (a & db1 & H1 & H2).
  destruct (Hm _ _ _ H1 Hinv Hp) as [Hs1 Hg1].
  destruct (Hf a _ _ _ H2) as [Hs2 Hg2]; [by eapply run_inv|by eapply run_stable|].
  split; [by etrans|by eapply grown_trans].
Qed.

Lemma refines_ret {A} P (a : A) : refines P (mret a).
Proof. intros db b db' H _ _. apply tx_mret in H as [_ ->]. split; [constructor|grow]. Qed.

(** A loop is one when every round is, where it starts. *)
Lemma refines_for {A} (P : A → AState → Prop) (l : list A) body :
  (∀ a, stable (P a)) → (∀ a, refines (P a) (body a)) → refines (λ s, ∀ a, a ∈ l → P a s) (for_rows l body).
Proof.
  intros HP Hb. induction l as [|a l IH]; [apply refines_ret|].
  intros db b db' H Hinv Hp. apply tx_bind_Ret in H as (u & db1 & H1 & H2).
  destruct (Hb a _ _ _ H1 Hinv) as [Hs1 Hg1]; [apply Hp; set_solver|].
  destruct (IH _ _ _ H2) as [Hs2 Hg2]; [by eapply run_inv| |split; [by etrans|by eapply grown_trans]].
  intros x Hx. eapply run_stable; [apply HP|done|]. apply Hp. set_solver.
Qed.

Lemma refines_step {A} P (m : Tx A) :
  (∀ db a db', m db = (Ret a, db') → auth_inv (view db) → P (view db) → auth_step (view db) (view db') ∧ grown db db') →
  refines P m.
Proof. intros Hm db a db' H Hinv Hp. destruct (Hm _ _ _ H Hinv Hp). split; [by apply rtc_once|done]. Qed.

(** ** Worker control *)

(** A lease keeps its job. *)
Definition lease_of (job_id lease_id : string) (s : AState) : Prop :=
  ∃ l, l ∈ v_leases s ∧ vl_id l = lease_id ∧ vl_job l = job_id.

Lemma lease_of_stable j l : stable (lease_of j l).
Proof.
  assert (∀ a s, lease_of j l s → lease_of j l (drop_attempt a s)) as Hdrop.
  { intros a s (x & Hx & Hid & Hj).
    exists (if bool_decide (vl_attempt x = a) then x <| vl_live := false |> else x).
    split; [apply elem_where; by exists x|]. by case_bool_decide. }
  intros s s' Hstep Hl. destruct Hstep; try done; try (apply (Hdrop _ _ Hl)).
  destruct Hl as (x & Hx & Hid & Hj). exists x. split; [|done]. cbn. apply elem_of_app. by left.
Qed.

Lemma fence_lease_refines now actor probe :
  refines (lease_of probe.1 probe.2) (fence_worker_lease now actor probe).
Proof.
  apply refines_step. intros db u db' H Hinv (l & (lr & -> & Hlr)%list_elem_of_fmap & Hlid' & Hljob).
  unfold fence_worker_lease in H. lx H.
  apply filter_one in Hl as [Hj Hjid], Hl0 as [Hlin Hlid], Hl1 as [Ha Haid]. unfold is_job, has_attempt, has_lease in *.
  bool_simpl. cbn in Hlid', Hljob.
  assert (le_job_id x0 = probe.1) as Hjob.
  { assert (view_lease x0 = view_lease lr) as Hsame; [|injection Hsame; congruence].
    eapply (NoDup_fmap_elem vl_id); [apply Hinv|by apply list_elem_of_fmap_2..|cbn; congruence]. }
  case_run H; lx H; [split; [constructor|grow]|]. case_run H; apply tx_bind_Ret in H as (? & ? & Hf & He).
  - apply fence_attempt_view in Hf as [Hv Hg].
    eapply (job_event_view _ _ _ _ _ (λ x, x <| vj_fence := j_job_fence _ + 1 |> <| vj_state := JS_RECOVERING |>)) in He
      as [Hv' Hg']; [|done].
    split; [|grow]. vw. bool_simpl. destruct_and?.
    apply fence_step; try done; [|by apply active_occupies]. rewrite (lease_job db x0); [congruence|done..].
  - apply revoke_leftover_view in Hf as [Hv Hg].
    eapply (job_event_view _ _ _ _ _ (λ x, x)) in He as [Hv' Hg']; [|done].
    split; [|grow]. vw. rewrite set_job_id. constructor.
Qed.

Definition anywhere : AState → Prop := λ _, True.
Lemma anywhere_stable : stable anywhere.
Proof. by intros s s'. Qed.

Lemma refines_quiet {A} P (m : Tx A) : only_writes quiet_tables m → refines P m.
Proof.
  intros Hw db a db' H _ _. pose proof (quiet_run m _ _ _ Hw H). split; [vw; constructor|grow].
Qed.

(** Runs [H] to its end where the rest of it is a chain of quiet calls. *)
Lemma refines_after {A} db (m : Tx A) db1 a db' P :
  m db1 = (Ret a, db') → refines P m → quiet db db1 → auth_inv (view db) → P (view db) →
  rtc auth_step (view db) (view db') ∧ grown db db'.
Proof.
  intros H Hm Hq Hinv Hp. destruct (Hm _ _ _ H) as [Hs Hg]; [by rewrite (quiet_view db db1)..|].
  rewrite (quiet_view db db1) in Hs by done. split; [done|]. eapply grown_trans; [|done]. eapply grown_quiet; [|done]. grow.
Qed.

Lemma fence_attempts_refines worker now actor : refines anywhere (_fence_worker_attempts worker now actor).
Proof.
  intros db u db' H Hinv _. unfold _fence_worker_attempts in H. apply tx_bind_Ret in H as (probe & db1 & Hp & H).
  assert (only_writes quiet_tables (worker_leases worker)) as Hw by writes. pose proof (quiet_run _ _ _ _ Hw Hp) as Hq.
  eapply (refines_after db); [exact H|apply (refines_for (λ p, lease_of p.1 p.2))|done|done|].
  - intros p. apply lease_of_stable.
  - intros p. apply fence_lease_refines.
  - unfold worker_leases in Hp. tx Hp. intros p Hin%py_sorted_elem.
    apply list_elem_of_join in Hin as (l & Hin & (x & -> & Hx)%list_elem_of_fmap).
    apply list_elem_of_fmap in Hin as (y & -> & _). apply elem_of_List_filter in Hx as [_ Hx].
    exists (view_lease x). split; [by apply list_elem_of_fmap_2|done].
Qed.

Lemma mutate_worker_refines settings q op act st t apply :
  (∀ w now live, refines anywhere (apply w now live)) → refines anywhere (_mutate_worker settings q op act st t apply).
Proof.
  intros Happly db r db' H Hinv _. unfold _mutate_worker in H. lx H.
  case_run H; lx H; [split; [vw; constructor|grow]|].
  apply tx_bind_Ret in H as (f & db1 & Ha & H).
  match type of Ha with apply _ _ _ ?d = _ => assert (quiet db d) as Hq' by quiet_chain end.
  destruct (refines_after db _ _ _ _ _ Ha (Happly _ _ _) Hq' Hinv I) as [Hs Hg1]. lx H.
  split; [|grow]. vw. done.
Qed.

Lemma disable_refines settings q t : refines anywhere (disable_worker settings q t).
Proof.
  unfold disable_worker. apply mutate_worker_refines. intros w now live. apply refines_bind; [apply anywhere_stable|apply refines_quiet; writes|].
  intros _. apply refines_bind; [apply anywhere_stable|apply fence_attempts_refines|]. intros _. apply refines_ret.
Qed.

Lemma drain_refines settings q t : refines anywhere (drain_worker settings q t).
Proof. unfold drain_worker. apply mutate_worker_refines. intros w now live. apply refines_quiet. writes. Qed.

(** ** The queue *)

Lemma promote_job_refines now holder inventory ready seq job_id :
  refines anywhere (promote_job now holder inventory ready seq job_id).
Proof.
  apply refines_step. intros db b db' H Hinv _. unfold promote_job in H. lx H.
  destruct Hl0 as [[_ ->]|(sched & _ & ->)]; lx H; [split; [constructor|grow]|].
  case_run H; lx H; [split; [constructor|grow]|].
  apply filter_one in Hl as [Hj Hjid]. bool_simpl. destruct_and?.
  case_run H.
  - apply tx_bind_Ret in H as (? & ? & He & H). lx H. case_run He; lx He; [split; [vw; constructor|grow]|].
    eapply (dispatch_event_view _ _ _ _ _ _ (λ x, x)) in He as [Hv Hg1]; [|done].
    split; [|grow]. vw. rewrite set_job_id. constructor.
  - lx H. apply tx_bind_Ret in H as (? & ? & He & H). lx H.
    eapply (dispatch_event_view _ _ _ _ _ _ (λ x, x <| vj_state := JS_QUEUED |>)) in He as [Hv Hg1]; [|done].
    split; [|grow]. vw.
    apply auth_move; right; [apply no_live_state|apply no_held_state]; try done;
      match goal with E : j_state _ = _ |- _ => by rewrite E end.
Qed.

Lemma promote_jobs_refines now holder inventory ready seq n ids :
  refines anywhere (promote_jobs now holder inventory ready seq n ids).
Proof.
  revert seq n. induction ids as [|id ids IH]; intros seq n; [apply refines_ret|].
  apply refines_bind; [apply anywhere_stable|apply promote_job_refines|]. intros []; apply IH.
Qed.

Lemma promote_refines now holder limit : refines anywhere (promote_due_locked now holder limit).
Proof.
  unfold promote_due_locked. apply refines_bind; [apply anywhere_stable|apply refines_quiet; writes|].
  intros due. cbv zeta. destruct (_ =? _)%nat; [apply refines_ret|].
  apply refines_bind; [apply anywhere_stable|apply refines_quiet; writes|]. intros c.
  apply refines_bind; [apply anywhere_stable|apply refines_quiet; writes|]. intros w.
  apply refines_bind; [apply anywhere_stable|apply promote_jobs_refines|]. intros [s p]. apply refines_quiet. writes.
Qed.

Lemma eligible_refines job_id (age : option Z) :
  refines anywhere (update_ T_jobs (λ j, bool_decide (j_job_id j = job_id)) (λ j, j <| j_eligible_since := age |>)).
Proof.
  intros db u db' H _ _. apply tx_update_ in H as [_ ->]. split; [|grow]. rewrite view_keep_jobs by done. constructor.
Qed.

Lemma eligibility_refines now : refines anywhere (process_eligibility_batch now).
Proof.
  unfold process_eligibility_batch. apply refines_bind; [apply anywhere_stable|apply refines_quiet; writes|].
  intros [e|]; (apply refines_bind; [apply anywhere_stable| |intros _; apply refines_quiet; writes]);
    [|apply refines_ret].
  do 3 (apply refines_bind; [apply anywhere_stable|apply refines_quiet; writes|]; intros ?).
  apply refines_bind; [apply anywhere_stable| |intros _; apply refines_quiet; writes].
  intros db u db' H Hinv _. eapply (refines_for (λ _, anywhere)); [..|done|done|done].
  - intros _. apply anywhere_stable.
  - intros c. apply eligible_refines.
Qed.

(** ** Checkpoints *)

Lemma reserve_checkpoint_refines sha256 h a : refines anywhere (reserve_checkpoint sha256 h a).
Proof.
  intros db r db' H _ _. unfold reserve_checkpoint in H. lx H. destruct s as [|rw]; lx H; [split; [vw; constructor|grow]|].
  split; [|grow]. vw. rewrite view_keep_jobs by done. vw. constructor.
Qed.
