(* ===== verification/System.v ===== *)
(** * The running system

    The committed transactions of the coordinator, the workers and the users as one
    step relation on databases, in any order and interleaving.  Every step refines
    the authority protocol of [Fencing]; the properties of a job's authority in
    every reachable database follow. *)

From stdpp Require Import pretty.
From S2P Require Import Prelude PyDecimal PyValue Scheduling Database Ledger Authority Idempotency Identity.
From S2P Require Import Eligibility Dispatch Cleanup Retry Control Workers Checkpoint Fencing View Lifecycle.

Local Open Scope string_scope.
Local Open Scope list_scope.
Local Open Scope Z_scope.

(** ** Steps *)

(** Job state changes of the transactions that are not modelled as operations: the
    recognition of a result ([complete_attempt]) and a pause aborted because its
    checkpoint is rejected ([publish_checkpoint]). *)
Definition recognized (st st' : JobState) : bool :=
  match st, st' with
  | JS_RUNNING, JS_SUCCEEDED | JS_PAUSING, JS_RUNNING => true
  | _, _ => false
  end.

Section system.
Context (sha256 : string → string) (settings : JobSettings).

(** The modelled operations, each a committed transaction. *)
Inductive sys_op (db : DB) : DB → Prop :=
| op_decision decision worker job now epoch holder db' :
    (∀ j, job = Some j → j ∈ rows db T_jobs) →
    apply_decision decision worker job now epoch holder db = (Ret (), db') → sys_op db db'
| op_reap lease holder now fenced db' : reap_lease_locked lease holder now db = (Ret fenced, db') → sys_op db db'
| op_renew h q ack db' : renew_attempt sha256 h q db = (Ret ack, db') → sys_op db db'
| op_reserve h a ack db' : reserve_result sha256 h a db = (Ret ack, db') → sys_op db db'
| op_start h q ack db' : start_attempt sha256 h q db = (Ret ack, db') → sys_op db db'
| op_adopt h q ack db' : adopt_attempt sha256 h q db = (Ret ack, db') → sys_op db db'
| op_fail h q ack db' : fail_attempt sha256 h q db = (Ret ack, db') → sys_op db db'
| op_cleanup h q jitter days clock ack db' :
    0 ≤ jitter ≤ 1000 → report_cleanup sha256 h q jitter days clock db = (Ret ack, db') → sys_op db db'
| op_cancel q t r db' : cancel_job settings q t db = (Ret r, db') → sys_op db db'
| op_pause q t r db' : pause_job settings q t db = (Ret r, db') → sys_op db db'
| op_resume q t r db' : resume_job settings q t db = (Ret r, db') → sys_op db db'
| op_disable q t r db' : disable_worker settings q t db = (Ret r, db') → sys_op db db'
| op_drain q t r db' : drain_worker settings q t db = (Ret r, db') → sys_op db db'
| op_promote now holder limit n db' : promote_due_locked now holder limit db = (Ret n, db') → sys_op db db'
| op_eligibility now tenants db' : process_eligibility_batch now db = (Ret tenants, db') → sys_op db db'
| op_checkpoint h a ack db' : reserve_checkpoint sha256 h a db = (Ret ack, db') → sys_op db db'.

(** A step of the system: an operation, or what the model leaves abstract. *)
Inductive sys_step (db : DB) : DB → Prop :=
| sys_operation db' : sys_op db db' → sys_step db db'
| sys_submit job db' :
    j_job_id job ∉ j_job_id <$> rows db T_jobs → view db' = view (put T_jobs job db) → grown db db' → sys_step db db'
| sys_recognize job f st db' :
    job ∈ rows db T_jobs → recognized (j_state job) st = true →
    (∀ r, view_job (f r) = (view_job r) <| vj_state := st |>) →
    quiet (modify T_jobs (is_job (j_job_id job)) f db) db' → sys_step db db'
| sys_unseen db' : view db' = view db → grown db db' → sys_step db db'.

(** A database before the first job. *)
Definition initial (db : DB) : Prop :=
  ids_ok db ∧ rows db T_jobs = [] ∧ rows db T_attempts = [] ∧ rows db T_attempt_leases = [] ∧
  rows db T_allocations = [] ∧ rows db T_attempt_authority_grants = [].

Definition reachable (db : DB) : Prop := ∃ db0, initial db0 ∧ rtc sys_step db0 db.

(** ** Every step refines the protocol *)

Lemma decision_refines decision worker job now epoch holder db db' :
  (∀ j, job = Some j → j ∈ rows db T_jobs) →
  apply_decision decision worker job now epoch holder db = (Ret (), db') → ids_ok db →
  auth_step (view db) (view db') ∧ grown db db'.
Proof.
  assert (∀ j et reason db1 db', Dispatch._event j holder et reason false (λ r, r) db1 = (Ret (), db') →
    view db' = view db1 ∧ grown db1 db') as Hevent.
  { intros [j|] et reason db1 db2 H; [|by apply tx_mret in H as [_ ->]; split; [|apply grown_refl]].
    apply (dispatch_event_view _ _ _ _ _ _ (λ x, x)) in H as [-> ?]; [|done]. by rewrite set_job_id. }
  intros Hjob H Hids. destruct decision; cbn [apply_decision] in H.
  - destruct job as [j|]; [|done]. eapply dispatch_refines; eauto.
  - destruct job as [j|]; [|done]. lx H. apply Hevent in H as [Hv Hg]. split; [|grow]. vw. constructor.
  - apply tx_mret in H as [_ ->]. split; [constructor|grow].
  - lx H. apply Hevent in H as [Hv Hg]. split; [|grow]. vw. constructor.
  - apply tx_mret in H as [_ ->]. split; [constructor|grow].
Qed.

Lemma sys_op_refines db db' :
  sys_op db db' → auth_inv (view db) → ids_ok db → rtc auth_step (view db) (view db') ∧ grown db db'.
Proof.
  assert (∀ s s' P, auth_step s s' ∧ P → rtc auth_step s s' ∧ P) as Hone.
  { intros s s' P [H ?]. split; [by apply rtc_once|done]. }
  intros Hstep Hinv Hids. destruct Hstep as
    [? ? ? ? ? ? ? ? H|? ? ? ? ? H|? ? ? ? H|? ? ? ? H|? ? ? ? H|? ? ? ? H|? ? ? ? H|? ? ? ? ? ? ? ? H|? ? ? ? H|? ? ? ? H
    |? ? ? ? H|? ? ? ? H|? ? ? ? H|? ? ? ? ? H|? ? ? H|? ? ? ? H].
  - by eapply Hone, decision_refines.
  - by eapply Hone, reap_refines.
  - apply renew_refines in H as [-> ?]. split; [constructor|done].
  - apply reserve_refines in H as [-> ?]. split; [constructor|done].
  - by eapply Hone, start_refines.
  - by eapply Hone, adopt_refines.
  - by eapply Hone, fail_refines.
  - by eapply Hone, cleanup_refines.
  - by eapply Hone, cancel_refines.
  - by eapply Hone, pause_refines.
  - by eapply Hone, resume_refines.
  - exact (disable_refines _ _ _ _ _ _ H Hinv I).
  - exact (drain_refines _ _ _ _ _ _ H Hinv I).
  - exact (promote_refines _ _ _ _ _ _ H Hinv I).
  - exact (eligibility_refines _ _ _ _ H Hinv I).
  - exact (reserve_checkpoint_refines _ _ _ _ _ _ H Hinv I).
Qed.

Lemma sys_step_refines db db' :
  sys_step db db' → auth_inv (view db) → ids_ok db → rtc auth_step (view db) (view db') ∧ grown db db'.
Proof.
  intros Hstep Hinv Hids. destruct Hstep as [db' H|job db' Hfresh Hv Hg|job f st db' Hj Hst Hf Hq|db' Hv Hg].
  - by apply sys_op_refines.
  - split; [apply rtc_once|done].  rewrite Hv, view_insert. cbv beta iota. apply (auth_create (view db) (view_job job)). cbn. by rewrite <- list_fmap_compose.
  - split; [apply rtc_once|grow]. vw. rewrite (view_job_update _ _ _ _ Hf). apply auth_move.
    + destruct (may_live st) eqn:Hm; [by left|right]. apply no_live_state; try done. by destruct (j_state job), st.
    + destruct (occupies st) eqn:Hm; [by left|right]. apply no_held_state; try done. by destruct (j_state job), st.
  - split; [|done]. rewrite Hv. constructor.
Qed.

Lemma system_run db db' :
  rtc sys_step db db' → auth_inv (view db) → ids_ok db →
  rtc auth_step (view db) (view db') ∧ auth_inv (view db') ∧ ids_ok db'.
Proof.
  induction 1 as [db|db db1 db2 Hstep _ IH]; intros Hinv Hids; [split_and!; [constructor|done..]|].
  destruct (sys_step_refines _ _ Hstep Hinv Hids) as [Ha Hg].
  destruct IH as (? & ? & ?); [by eapply run_inv|by eapply grown_ids_ok|].
  split_and!; [by etrans|done..].
Qed.

Lemma initial_inv db : initial db → auth_inv (view db) ∧ ids_ok db.
Proof.
  intros (Hids & Hj & Ha & Hl & Ho & Hg). split; [|done]. unfold view. rewrite Hj, Ha, Hl, Ho, Hg.
  split; cbn; try apply NoDup_nil_2; intros; set_solver.
Qed.

Lemma reachable_inv db : reachable db → auth_inv (view db) ∧ ids_ok db.
Proof. intros (db0 & [Hinv Hids]%initial_inv & Hrun). by destruct (system_run _ _ Hrun Hinv Hids) as (_ & ? & ?). Qed.

(** ** What the refinement gives *)

(** Attempts are never forgotten, and fences never move back. *)
Lemma auth_step_attempts s s' a : auth_step s s' → a ∈ v_attempts s → a ∈ v_attempts s'.
Proof. intros [] Ha; try done. cbn. apply elem_of_app. by left. Qed.

Lemma run_fence s s' : rtc auth_step s s' → auth_inv s → ∀ a j, a ∈ v_attempts s → j ∈ v_jobs s →
  a ∈ v_attempts s' ∧ ∃ j', j' ∈ v_jobs s' ∧ vj_id j' = vj_id j ∧ vj_fence j ≤ vj_fence j'.
Proof.
  induction 1 as [s|s s1 s2 Hstep _ IH]; intros Hinv a j Ha Hj; [split; [done|by exists j]|].
  destruct (auth_step_fence _ _ _ Hstep Hinv Hj) as (j1 & Hj1 & Hid1 & Hle1).
  destruct (IH (auth_step_inv _ _ Hstep Hinv) a j1) as (Ha2 & j2 & Hj2 & Hid2 & Hle2);
    [by eapply auth_step_attempts|done|].
  split; [done|]. exists j2. split_and!; [done|congruence|lia].
Qed.

(** Live leases of a job are those of its live grant. *)
Lemma live_lease_unique s : auth_inv s → ∀ l l', l ∈ v_leases s → l' ∈ v_leases s →
  vl_live l = true → vl_live l' = true → vl_job l = vl_job l' → l = l'.
Proof.
  intros Hinv l l' Hl Hl' Hv Hv' Hj.
  assert (∀ x, x ∈ v_leases s → vl_live x = true → ∃ g, g ∈ v_grants s ∧ vg_live g = true ∧
    vg_lease g = vl_id x ∧ vg_job g = vl_job x) as Hgrant.
  { intros x Hx Hlx. destruct (inv_lease_live s Hinv x Hx Hlx) as (g & Hg & Hgl & Hgx & Hga).
    exists g. split_and!; try done. destruct (inv_grant_attempt s Hinv g Hg) as (a & Ha & Hai & <- & _).
    destruct (inv_lease_attempt s Hinv x Hx) as (a' & Ha' & Hai' & <-).
    f_equal. eapply (NoDup_fmap_elem va_id); [apply Hinv|done..|congruence]. }
  destruct (Hgrant l Hl Hv) as (g & Hg & Hgl & Hgx & Hgj), (Hgrant l' Hl' Hv') as (g' & Hg' & Hgl' & Hgx' & Hgj').
  assert (g = g') as <- by (apply (inv_live_unique s Hinv); congruence).
  eapply (NoDup_fmap_elem vl_id); [apply Hinv|done..|congruence].
Qed.

(** Rows with the same identity in the view are the same row. *)
Lemma view_inj {A B} (f : A → B) (key : A → string) (vkey : B → string) l x y :
  (∀ a, vkey (f a) = key a) → NoDup (vkey <$> (f <$> l)) → x ∈ l → y ∈ l → f x = f y → x = y.
Proof.
  intros Hk Hnd Hx Hy Heq. rewrite <- list_fmap_compose in Hnd. eapply (NoDup_fmap_elem (vkey ∘ f)); try done.
  cbn. by rewrite Heq.
Qed.

(** C4: The system refines the authority protocol.  Every run of committed
    transactions from a database without jobs, whatever the order in which the
    coordinator's decisions, the reaper, the workers' callbacks and the users'
    controls commit, is, seen through [view], a run of the protocol. *)
Theorem system_refines_authority db0 db :
  initial db0 → rtc sys_step db0 db → rtc auth_step (MkAState [] [] [] [] []) (view db).
Proof.
  intros Hinit Hrun. pose proof Hinit as (_ & Hj & Ha & Hl & Ho & Hg). destruct (initial_inv _ Hinit) as [Hinv Hids].
  destruct (system_run _ _ Hrun Hinv Hids) as (Hr & _ & _). unfold view in Hr at 1. by rewrite Hj, Ha, Hl, Ho, Hg in Hr.
Qed.

(** C3: A job has one authority at a time.  In every reachable database at most one
    grant of a job has not ended, it carries the job's current fence, and the job is
    then dispatching, running, pausing or succeeded; at most one lease of a job is not revoked; and at
    most one allocation of a job is not released. *)
Theorem single_authority db :
  reachable db →
  (∀ g g', g ∈ rows db T_attempt_authority_grants → g' ∈ rows db T_attempt_authority_grants →
     live_grant g = true → live_grant g' = true → gr_job_id g = gr_job_id g' → g = g') ∧
  (∀ g j, g ∈ rows db T_attempt_authority_grants → live_grant g = true → j ∈ rows db T_jobs →
     j_job_id j = gr_job_id g →
     gr_job_fence g = j_job_fence j ∧ j_state j ∈ [JS_DISPATCHING; JS_RUNNING; JS_PAUSING; JS_SUCCEEDED]) ∧
  (∀ l l', l ∈ rows db T_attempt_leases → l' ∈ rows db T_attempt_leases →
     live_lease l = true → live_lease l' = true → le_job_id l = le_job_id l' → l = l') ∧
  (∀ o o', o ∈ rows db T_allocations → o' ∈ rows db T_allocations →
     unreleased o = true → unreleased o' = true → al_job_id o = al_job_id o' → o = o').
Proof.
  intros [Hinv _]%reachable_inv. split_and!.
  - intros g g' Hg Hg' Hl Hl' Hj. apply (view_inj view_grant gr_grant_id vg_id (rows db T_attempt_authority_grants));
      [done|apply Hinv|done..|]. by apply (inv_live_unique _ Hinv); [apply list_elem_of_fmap_2..| | |].
  - intros g j Hg Hl Hj Hid. destruct (inv_live_job _ Hinv (view_grant g) (view_job j)) as [Hf Hst];
      [by apply list_elem_of_fmap_2|done|by apply list_elem_of_fmap_2|done|].
    split; [done|]. cbn in Hst. destruct (j_state j); try done; set_solver.
  - intros l l' Hl Hl' Hv Hv' Hj. apply (view_inj view_lease le_lease_id vl_id (rows db T_attempt_leases));
      [done|apply Hinv|done..|]. by apply (live_lease_unique _ Hinv); [apply list_elem_of_fmap_2..| | |].
  - intros o o' Ho Ho' Hu Hu' Hj. apply (view_inj view_alloc al_allocation_id vo_id (rows db T_allocations));
      [done|apply Hinv|done..|]. by apply (inv_held_unique _ Hinv); [apply list_elem_of_fmap_2..| | |].
Qed.

(** Accepted authorities of a job agree.  When two authorities are accepted in a
    reachable database for the same job, they are the same authority of the same
    worker and find the same rows. *)
Theorem accepted_authorities_agree db a w r a' w' r' :
  reachable db → _authority_rows a w db = (Ret r, db) → _authority_rows a' w' db = (Ret r', db) →
  j_job_id (ar_job r) = j_job_id (ar_job r') → a = a' ∧ w = w' ∧ r = r'.
Proof.
  intros [Hinv _]%reachable_inv Hr Hr' Hj.
  pose proof (authority_rows_Ret _ _ _ _ _ Hr) as [_ Hacc]. pose proof (authority_rows_Ret _ _ _ _ _ Hr') as [_ Hacc'].
  assert (ar_grant r = ar_grant r') as Hgrant.
  { apply (view_inj view_grant gr_grant_id vg_id (rows db T_attempt_authority_grants));
      [done|apply Hinv|apply Hacc|apply Hacc'|].
    apply (inv_live_unique _ Hinv); [apply list_elem_of_fmap_2; apply Hacc|apply list_elem_of_fmap_2; apply Hacc'|
      apply Hacc|apply Hacc'|]. cbn.
    by rewrite (accepted_grant_job _ _ _ _ Hinv Hacc), (accepted_grant_job _ _ _ _ Hinv Hacc'). }
  pose proof (acc_matches _ _ _ _ Hacc) as Hm. pose proof (acc_matches _ _ _ _ Hacc') as Hm'.
  pose proof (acc_grant_attempt _ _ _ _ Hacc). pose proof (acc_grant_attempt _ _ _ _ Hacc').
  pose proof (acc_worker _ _ _ _ Hacc). pose proof (acc_worker _ _ _ _ Hacc').
  unfold authority_matches in Hm, Hm'. bool_simpl. destruct_and?. 
  assert (a = a' ∧ w = w') as [-> ->] by (destruct a, a'; cbn in *; split; [f_equal|]; congruence).
  split_and!; congruence.
Qed.

(** C1: A fenced authority is never accepted again.  Once the fence of its job has
    moved past the fence an authority carries, no transaction the system commits
    afterwards makes that authority acceptable. *)
Theorem fenced_authority_never_accepted db db' attempt job a w r db'' :
  reachable db → attempt ∈ rows db T_attempts → job ∈ rows db T_jobs → at_job_id attempt = j_job_id job →
  a_attempt_id a = at_attempt_id attempt → a_job_fence a < j_job_fence job →
  rtc sys_step db db' → _authority_rows a w db' ≠ (Ret r, db'').
Proof.
  intros [Hinv Hids]%reachable_inv Hat Hjob Haj Hid Hlt Hrun [_ Hacc]%authority_rows_Ret.
  destruct (system_run _ _ Hrun Hinv Hids) as (Hr & Hinv' & _).
  destruct (run_fence _ _ Hr Hinv (view_attempt attempt) (view_job job)) as (Hat' & j' & Hj' & Hjid & Hle);
    [by apply list_elem_of_fmap_2..|].
  destruct (accepted_matches _ _ _ _ Hacc) as (Hm1 & Hm2 & _).
  assert (view_attempt attempt = view_attempt (ar_attempt r)) as Hsame.
  { eapply (NoDup_fmap_elem va_id); [apply Hinv'|done|apply list_elem_of_fmap_2, Hacc|]. cbn.
    rewrite (acc_attempt_id _ _ _ _ Hacc). congruence. }
  injection Hsame as _ Hjj _.
  assert (j' = view_job (ar_job r)) as ->.
  { eapply (NoDup_fmap_elem vj_id); [apply Hinv'|done|apply list_elem_of_fmap_2, Hacc|]. cbn in *. congruence. }
  cbn in Hle. lia.
Qed.
End system.

(** ** A sample run: a job is submitted, dispatched and, when its lease expires, fenced *)

Definition system_worker : WorkerRow := MkWorkerRow "w" "ENABLED" "READY" (Some "inc") (Some 1) (Some 0) None 1.
Definition system_job : JobRow :=
  MkJobRow "job" "t1" "user" JS_QUEUED DS_RUNNING None None 1 0 1 0 0 2 None 1 (Some 0) None None 0 5.
Definition system_empty : DB :=
  set_rows T_job_specs [MkSpecRow "job" VNone "sum" "cpu-iterative" 1 1000 1024 0 "t1" "input" None 3600 60]
  (set_rows T_admission_counters
     [MkCounterRow "GLOBAL" "global" 1 0 1 None; MkCounterRow "TENANT" "t1" 1 0 1 None; MkCounterRow "USER" "t1:user" 1 0 1 None]
  (set_rows T_tenant_policies [MkTenantPolicyRow "t1" 1 (Finite 2 0) 8000 8192 0 true 100 10 8 4 (Finite 5 0) (Finite 20 0) (Finite 2 0) (Finite 10 0)]
  (set_rows T_policy_versions [MkPolicyRow 1 NORMAL true 1000]
  (set_rows T_workers [system_worker]
  (set_rows T_worker_inventories [MkInventoryRow "inv" "w" "inc" 1 "linux/amd64" 4000 8192 0 VNone 8000 16384 VNone "sha256:inv"]
  (set_rows T_fairness_ledgers [MkLedgerRow "t1" (Finite 5 0) 0 true 3] empty_db)))))).
Definition system_submitted : DB := put T_jobs system_job system_empty.
Definition system_dispatched : DB :=
  (apply_decision (Scheduling.Dispatch "job" 1 1 None) system_worker (Some system_job) 1000000 7 "holder"
     system_submitted).2.
Definition system_fenced : DB := (reap_lease_locked "id-2" "holder" (seconds 100) system_dispatched).2.

Definition system_hash (s : string) : string := s.
Definition system_settings : JobSettings := {| js_idle_ttl := 3600; js_retention_days := 30; js_pending_wait := 0 |}.
Definition system_authority : Database.Authority :=
  {| a_worker_id := "w"; a_worker_incarnation_id := "inc"; a_attempt_id := "id-0"; a_allocation_id := "id-1";
     a_lease_id := "id-2"; a_job_fence := 1 |}.

Lemma system_initial : initial system_empty.
Proof.
  split; [|by split_and!]. split.
  - intros n m H. cbn in H. injection H as H. by apply (inj pretty).
  - intros n _ H. by apply elem_of_nil in H.
Qed.

Lemma dispatched_run : rtc (sys_step system_hash system_settings) system_empty system_dispatched.
Proof.
  apply (rtc_l _ _ system_submitted).
  - apply (sys_submit _ _ _ system_job); [apply not_elem_of_nil|done|].
    apply grown_insert; [apply grown_refl|done].
  - apply rtc_once. apply sys_operation, (op_decision _ _ _ (Scheduling.Dispatch "job" 1 1 None) system_worker (Some system_job) 1000000 7 "holder").
    + intros j [= <-]. change (system_job ∈ [system_job]). set_solver.
    + unfold system_dispatched. apply ret_of. vm_compute. reflexivity.
Qed.

Lemma dispatched_reachable : reachable system_hash system_settings system_dispatched.
Proof. exists system_empty. split; [exact system_initial|exact dispatched_run]. Qed.

Lemma fenced_reachable : reachable system_hash system_settings system_fenced.
Proof.
  exists system_empty. split; [exact system_initial|]. eapply rtc_r; [exact dispatched_run|].
  apply sys_operation, (op_reap _ _ _ "id-2" "holder" (seconds 100) true). unfold system_fenced. apply ret_of. vm_compute. reflexivity.
Qed.

Lemma system_refines_authority_witness :
  rtc auth_step (MkAState [] [] [] [] []) (view system_dispatched).
Proof. exact (system_refines_authority system_hash system_settings _ _ system_initial dispatched_run). Defined.

(** The dispatched job has its one lease. *)
Lemma single_authority_witness :
  length (rows system_dispatched T_attempt_leases) = 1%nat ∧
  ∀ l l', l ∈ rows system_dispatched T_attempt_leases → l' ∈ rows system_dispatched T_attempt_leases →
  live_lease l = true → live_lease l' = true → le_job_id l = le_job_id l' → l = l'.
Proof.
  split; [vm_compute; reflexivity|].
  exact (proj1 (proj2 (proj2 (single_authority system_hash system_settings _ dispatched_reachable)))).
Defined.

Lemma accepted_authorities_agree_witness :
  ∃ r, _authority_rows system_authority "w" system_dispatched = (Ret r, system_dispatched) ∧
       ∀ a' w' r', _authority_rows a' w' system_dispatched = (Ret r', system_dispatched) →
         j_job_id (ar_job r) = j_job_id (ar_job r') → system_authority = a' ∧ "w" = w' ∧ r = r'.
Proof.
  assert (∃ r, _authority_rows system_authority "w" system_dispatched = (Ret r, system_dispatched)) as [r Hr]
    by (eexists; vm_compute; reflexivity).
  exists r. split; [exact Hr|]. intros a' w' r' Hr' Hj.
  exact (accepted_authorities_agree system_hash system_settings _ _ _ _ _ _ _ dispatched_reachable Hr Hr' Hj).
Defined.

(** The authority of the dispatch is refused once its lease was reaped. *)
Lemma fenced_authority_never_accepted_witness :
  a_attempt_id system_authority = "id-0" ∧
  ¬ ∃ r db'', _authority_rows system_authority "w" system_fenced = (Ret r, db'').
Proof.
  split; [reflexivity|]. intros (r & db'' & Hr). revert Hr.
  eapply (fenced_authority_never_accepted system_hash system_settings system_fenced system_fenced);
    [exact fenced_reachable|..|apply rtc_refl].
  - vm_compute. apply list_elem_of_here.
  - vm_compute. apply list_elem_of_here.
  - reflexivity.
  - reflexivity.
  - vm_compute. reflexivity.
Defined.
