(* ===== verification/Schema.v ===== *)
(** * The schema's check constraints

    The CHECK constraints of [src/nexa/infrastructure/persistence/schema_v1.py] and
    [schema_v16.py] on jobs, specs, attempts, retry schedules and allocations, and
    that the operations never write a row that breaks one: a transaction does not
    fail on a constraint the code was meant to respect.  The ceilings of the integer
    columns are not part of the checks here: the model's integers are unbounded. *)

From S2P Require Import Prelude PyDecimal PyValue Scheduling Database Ledger Authority Idempotency Identity.
From S2P Require Import Eligibility Dispatch Cleanup Retry Control Workers Checkpoint Fencing View Lifecycle System.

Local Open Scope string_scope.
Local Open Scope list_scope.
Local Open Scope Z_scope.

(** ** The constraints *)

(** The constraint of the second schema file: [state = 'QUEUED'] alone says that a
    job is dispatchable. *)
Definition queued_dispatchable (r : JobRow) : bool :=
  negb (bool_decide (j_state r = JS_QUEUED))
  || (bool_decide (j_desired_state r = DS_RUNNING) && is_none (j_recovery_intent r))
  || (bool_decide (j_desired_state r = DS_PAUSED)
      && bool_decide (j_recovery_intent r = Some "CHECKPOINT_FOR_PAUSE")).

Definition jobs_check (r : JobRow) : bool :=
  (1 <=? j_version r) && (0 <=? j_job_fence r) && (0 <=? j_event_sequence r) && (0 <=? j_checkpoint_sequence r)
  && (0 <=? j_retry_count r) && (j_retry_count r <=? 2) && (0 <=? j_max_retries r) && (j_max_retries r <=? 2)
  && (0 <=? j_ready_sequence r) && bool_decide (j_recovery_intent r ∈ [None; Some "CHECKPOINT_FOR_PAUSE"])
  && queued_dispatchable r.

Definition job_specs_check (r : SpecRow) : bool :=
  (100 <=? sp_cpu_millis r) && (0 <? sp_memory_bytes r) && bool_decide (sp_gpu_count r ∈ [0; 1]).

Definition attempts_check (r : AttemptRow) : bool :=
  (1 <=? at_attempt_number r) && (0 <=? at_job_fence r) && (0 <=? at_progress_sequence r)
  && bool_decide (at_execution_intent r ∈ ["RUN"; "CHECKPOINT_FOR_PAUSE"]).

Definition retry_schedules_check (r : ScheduleRow) : bool :=
  (1 <=? rt_retry_number r) && (rt_retry_number r <=? 2) && (0 <=? rt_jitter_milliseconds r)
  && (rt_jitter_milliseconds r <=? 1000).

Definition allocations_check (r : AllocationRow) : bool :=
  (0 <? al_cpu_millis r) && (0 <? al_memory_bytes r) && bool_decide (al_gpu_count r ∈ [0; 1])
  && Bool.eqb (bool_decide (al_state r = AL_RELEASED)) (negb (is_none (al_released_at r)))
  && (Bool.eqb (bool_decide (al_state r = AL_QUARANTINED)) (negb (is_none (al_quarantined_at r)))
      || bool_decide (al_state r = AL_RELEASED)).

Definition row_check (t : table) : row t → bool :=
  match t with
  | T_jobs => jobs_check
  | T_job_specs => job_specs_check
  | T_attempts => attempts_check
  | T_retry_schedules => retry_schedules_check
  | T_allocations => allocations_check
  | _ => λ _, true
  end.

Record typed (db : DB) : Prop := { typed_rows : ∀ t r, r ∈ rows db t → row_check t r = true }.

(** The constraints as propositions. *)
Record JobOk (r : JobRow) : Prop := {
  jc_version : 1 ≤ j_version r;
  jc_fence : 0 ≤ j_job_fence r;
  jc_events : 0 ≤ j_event_sequence r;
  jc_checkpoints : 0 ≤ j_checkpoint_sequence r;
  jc_retry_count : 0 ≤ j_retry_count r ≤ 2;
  jc_max_retries : 0 ≤ j_max_retries r ≤ 2;
  jc_ready_sequence : 0 ≤ j_ready_sequence r;
  jc_recovery_intent : j_recovery_intent r ∈ [None; Some "CHECKPOINT_FOR_PAUSE"];
  jc_queued_dispatchable : j_state r = JS_QUEUED → (j_desired_state r, j_recovery_intent r) ∈ _DISPATCHABLE;
}.

Record AttemptOk (r : AttemptRow) : Prop := {
  tc_number : 1 ≤ at_attempt_number r;
  tc_fence : 0 ≤ at_job_fence r;
  tc_progress : 0 ≤ at_progress_sequence r;
  tc_intent : at_execution_intent r ∈ ["RUN"; "CHECKPOINT_FOR_PAUSE"];
}.

Record AllocationOk (r : AllocationRow) : Prop := {
  alc_cpu : 0 < al_cpu_millis r;
  alc_memory : 0 < al_memory_bytes r;
  alc_gpu : al_gpu_count r ∈ [0; 1];
  alc_released : al_state r = AL_RELEASED ↔ al_released_at r ≠ None;
  alc_quarantined : al_state r = AL_RELEASED ∨ (al_state r = AL_QUARANTINED ↔ al_quarantined_at r ≠ None);
}.

Lemma jobs_checkP r : jobs_check r = true ↔ JobOk r.
Proof.
  unfold jobs_check, queued_dispatchable. rewrite !andb_true_iff, !orb_true_iff, !andb_true_iff, negb_true_iff, bool_decide_eq_false,
    !bool_decide_eq_true, !Z.leb_le.
  assert (is_none (j_recovery_intent r) = true ↔ j_recovery_intent r = None) as ->
    by (by destruct (j_recovery_intent r)).
  split.
  - intros H. destruct_and!. split; try done. intros Hq. unfold _DISPATCHABLE.
    match goal with H : _ ∨ _ |- _ => destruct H as [[?|[-> ->]]|[-> ->]] end; [done|set_solver..].
  - intros []. split_and!; try done; try lia.
    destruct (decide (j_state r = JS_QUEUED)) as [Hq|Hq]; [|by left; left].
    specialize (jc_queued_dispatchable0 Hq). unfold _DISPATCHABLE in *.
    apply elem_of_cons in jc_queued_dispatchable0 as [[= -> ->]|H]; [by left; right|].
    apply list_elem_of_singleton in H as [= -> ->]. by right.
Qed.

Lemma attempts_checkP r : attempts_check r = true ↔ AttemptOk r.
Proof.
  unfold attempts_check. rewrite !andb_true_iff, bool_decide_eq_true, !Z.leb_le. split.
  - intros. destruct_and!. by split.
  - intros []. by split_and!.
Qed.

Lemma allocations_checkP r : allocations_check r = true ↔ AllocationOk r.
Proof.
  unfold allocations_check.
  rewrite !andb_true_iff, orb_true_iff, !bool_decide_eq_true, !Z.ltb_lt, !Bool.eqb_true_iff.
  assert (∀ o : option Z, (negb (is_none o) = true) ↔ o ≠ None) as Hn by (by intros []).
  assert (∀ (P : Prop) `{Decision P} b, bool_decide P = b ↔ (P ↔ b = true)) as Hb
    by (intros P ? []; case_bool_decide; naive_solver).
  rewrite !Hb, !Hn. split.
  - intros. destruct_and!. split; naive_solver.
  - intros []. split_and!; naive_solver.
Qed.

(** ** Statements *)

Lemma typed_put t r db : typed db → row_check t r = true → typed (put t r db).
Proof.
  intros [Hdb] Hr. split. intros t' r' Hin. destruct (decide (t = t')) as [<-|Hne].
  - rewrite put_same in Hin. apply elem_of_app in Hin as [Hin| ->%list_elem_of_singleton]; [by apply Hdb|done].
  - rewrite put_other in Hin by done. by apply Hdb.
Qed.

Lemma typed_modify t p f db :
  typed db → (∀ r, r ∈ rows db t → p r = true → row_check t r = true → row_check t (f r) = true) → typed (modify t p f db).
Proof.
  intros [Hdb] Hf. split. intros t' r' Hin. destruct (decide (t = t')) as [<-|Hne].
  - rewrite modify_same in Hin. apply list_elem_of_fmap in Hin as (r & -> & Hr).
    destruct (p r) eqn:Hp; [apply Hf|]; auto.
  - rewrite modify_other in Hin by done. by apply Hdb.
Qed.

Lemma typed_draw db : typed db → typed (draw db).
Proof. by intros [Hdb]. Qed.

Definition checked_tables : list table := [T_jobs; T_job_specs; T_attempts; T_retry_schedules; T_allocations].

Lemma row_check_unchecked t r : t ∉ checked_tables → row_check t r = true.
Proof. intros Ht. destruct t; try done; exfalso; set_solver. Qed.

Lemma typed_quiet db db' : quiet db db' → typed db → typed db'.
Proof.
  intros Hq [Hdb]. split. intros t r Hr. destruct (decide (t ∈ checked_tables)) as [Ht|Ht]; [|by apply row_check_unchecked].
  apply Hdb. rewrite <- (quiet_rows _ _ Hq); [done|].
  unfold checked_tables in Ht. repeat (apply elem_of_cons in Ht as [->|Ht]; [tables|]). by apply elem_of_nil in Ht.
Qed.

Lemma job_ok db r : typed db → r ∈ rows db T_jobs → JobOk r.
Proof. intros Hdb Hr. by apply jobs_checkP, (typed_rows _ Hdb T_jobs). Qed.
Lemma attempt_ok db r : typed db → r ∈ rows db T_attempts → AttemptOk r.
Proof. intros Hdb Hr. by apply attempts_checkP, (typed_rows _ Hdb T_attempts). Qed.
Lemma allocation_ok db r : typed db → r ∈ rows db T_allocations → AllocationOk r.
Proof. intros Hdb Hr. by apply allocations_checkP, (typed_rows _ Hdb T_allocations). Qed.

(** Updates that keep the columns with constraints. *)
Lemma typed_attempts p f db :
  typed db → (∀ r, r ∈ rows db T_attempts → p r = true → AttemptOk r → AttemptOk (f r)) →
  typed (modify T_attempts p f db).
Proof.
  intros Hdb Hf. apply typed_modify; [done|]. intros r Hr Hp Hok. apply attempts_checkP, Hf; [done..|].
  by apply attempts_checkP.
Qed.
Lemma typed_jobs p f db :
  typed db → (∀ r, r ∈ rows db T_jobs → p r = true → JobOk r → JobOk (f r)) → typed (modify T_jobs p f db).
Proof.
  intros Hdb Hf. apply typed_modify; [done|]. intros r Hr Hp Hok. apply jobs_checkP, Hf; [done..|]. by apply jobs_checkP.
Qed.
Lemma typed_allocations p f db :
  typed db → (∀ r, r ∈ rows db T_allocations → p r = true → AllocationOk r → AllocationOk (f r)) →
  typed (modify T_allocations p f db).
Proof.
  intros Hdb Hf. apply typed_modify; [done|]. intros r Hr Hp Hok. apply allocations_checkP, Hf; [done..|].
  by apply allocations_checkP.
Qed.

Lemma same_attempt r r' :
  at_attempt_number r' = at_attempt_number r → at_job_fence r' = at_job_fence r →
  at_progress_sequence r' = at_progress_sequence r → at_execution_intent r' = at_execution_intent r →
  AttemptOk r → AttemptOk r'.
Proof. intros H1 H2 H3 H4 []. split; congruence. Qed.

(** Quarantining a held allocation. *)
Lemma quarantine_ok r now :
  al_state r = AL_HELD → AllocationOk r →
  AllocationOk (r <| al_state := AL_QUARANTINED |> <| al_quarantined_at := Some now |>).
Proof.
  intros Hst [Hc Hm Hg Hr Hq]. split; cbn; try done.
  - split; [done|]. intros H. apply Hr in H. congruence.
  - by right.
Qed.

Lemma release_ok r now reason :
  AllocationOk r →
  AllocationOk (r <| al_state := AL_RELEASED |> <| al_released_at := Some now |> <| al_release_reason := reason |>).
Proof. intros [Hc Hm Hg Hr Hq]. split; cbn; try done. by left. Qed.

(** A job with its version and events advanced, and in another state. *)
Lemma event_ok r v n :
  JobOk r → 1 ≤ v → 0 ≤ n → JobOk (r <| j_version := v |> <| j_event_sequence := n |>).
Proof. intros [] ? ?. by split. Qed.

Lemma moved_ok r st : JobOk r → st ≠ JS_QUEUED → JobOk (r <| j_state := st |>).
Proof. intros [] ?. by split. Qed.

(** Closes a goal [typed db'] about a run, up to the changes of checked rows. *)
Ltac ty :=
  repeat first
    [ assumption
    | match goal with
      | Hq : quiet ?a ?b |- typed ?b => apply (typed_quiet a b Hq)
      | Ht : typed ?a → typed ?b |- typed ?b => apply Ht
      end
    | apply typed_draw
    | apply typed_put; [|reflexivity]
    | apply typed_attempts; [|intros ? _ _; by apply same_attempt]
    | apply typed_modify; [|intros ? _ _ Hrow; first [reflexivity | exact Hrow]] ].

(** ** Events *)

Section events.
Context (job : JobRow) (changes : JobRow → JobRow) (db : DB).
Context (Hjob : JobOk job) (Hdb : typed db).
Context (Hch : ∀ r, r ∈ rows db T_jobs → is_job (j_job_id job) r = true → JobOk r → JobOk (changes r)).

Lemma typed_event_update v n :
  1 ≤ v → 0 ≤ n →
  typed (modify T_jobs (is_job (j_job_id job)) (λ r, (changes r) <| j_version := v |> <| j_event_sequence := n |>) db).
Proof. intros. apply typed_jobs; [done|]. intros r Hr Hp Hok. apply event_ok; auto. Qed.

Lemma versions_ok (keep : bool) : 1 ≤ (if keep then j_version job else j_version job + 1) ∧ 0 ≤ j_event_sequence job + 1.
Proof. destruct Hjob. destruct keep; lia. Qed.

Lemma dispatch_event_typed holder et reason keep u db' :
  Dispatch._event (Some job) holder et reason keep changes db = (Ret u, db') → typed db'.
Proof. unfold Dispatch._event. intros H. tx H. destruct (versions_ok keep). ty. by apply typed_event_update. Qed.

Lemma cleanup_event_typed w et reason keep v db' :
  Cleanup._event job w et reason keep changes db = (Ret v, db') → typed db'.
Proof.
  unfold Cleanup._event. intros H. tx H. destruct (versions_ok keep). ty.
  apply typed_jobs; [done|]. intros r Hr Hp Hok. destruct (Hch r Hr Hp Hok). by split.
Qed.

Lemma control_event_typed u act why et reason v db' :
  _control_event job u act why et reason changes db = (Ret v, db') → typed db'.
Proof. unfold _control_event. intros H. tx H. destruct (versions_ok false). ty. by apply typed_event_update. Qed.

Lemma job_event_typed actor et keep v db' :
  _job_event job actor et keep changes db = (Ret v, db') → typed db'.
Proof. unfold _job_event. intros H. tx H. destruct (versions_ok keep). ty. by apply typed_event_update. Qed.

Lemma transition_typed a st et v db' :
  st ≠ JS_QUEUED → _transition job a st et changes db = (Ret v, db') → typed db'.
Proof.
  unfold _transition. intros Hst H. tx H. destruct (versions_ok false). ty. apply typed_jobs; [done|].
  intros r Hr Hp Hok. apply event_ok; [|done..]. apply moved_ok; auto.
Qed.
End events.

(** ** Operations *)

(** What an operation commits respects the constraints. *)
Definition types {A} (m : Tx A) : Prop := ∀ db a db', m db = (Ret a, db') → typed db → typed db'.

Lemma fence_attempt_typed a now st fc fr rr : types (fence_attempt a now st fc fr rr).
Proof.
  intros db u db' H Hdb. unfold fence_attempt in H. lx H. ty. apply typed_allocations; [ty|].
  intros r _ Hp. bool_simpl. by apply quarantine_ok.
Qed.

Lemma revoke_leftover_typed a o now rr : types (revoke_leftover_authority a o now rr).
Proof.
  intros db u db' H Hdb. unfold revoke_leftover_authority in H. lx H. ty. apply typed_allocations; [ty|].
  intros r _ Hp. bool_simpl. by apply quarantine_ok.
Qed.

Lemma fenced_ok job r : JobOk job → JobOk r →
  JobOk (r <| j_state := JS_RECOVERING |> <| j_job_fence := j_job_fence job + 1 |>).
Proof. intros [] []. split; cbn; try done. lia. Qed.

Lemma reap_typed lease holder now : types (reap_lease_locked lease holder now).
Proof.
  intros db b db' H Hdb. unfold reap_lease_locked in H. lx H.
  destruct Hl as [[_ ->]|(ref & _ & ->)]; lx H; [done|].
  apply filter_one in Hl as [Hj _]. pose proof (job_ok _ _ Hdb Hj) as Hok.
  case_run H; lx H; [done|]. case_run H; apply tx_bind_Ret in H as (? & ? & Hf & H);
    apply tx_bind_Ret in H as (? & ? & He & H); lx H.
  - apply fence_attempt_typed in Hf. eapply dispatch_event_typed; [..|exact He]; [done|ty|].
    intros r _ _. by apply fenced_ok.
  - apply revoke_leftover_typed in Hf. eapply dispatch_event_typed; [..|exact He]; [done|ty|done].
Qed.

(** ** Callbacks *)

Section callbacks.
Context (sha256 : string → string).

Lemma renew_typed h q : types (renew_attempt sha256 h q).
Proof.
  intros db r db' H Hdb. unfold renew_attempt in H. lx H. destruct o0; lx H; [ty|].
  match goal with Ha : _authority_rows _ _ ?d = (Ret ?r, _) |- _ =>
    assert (accepted db (rn_authority q) (h_worker_id h) r) as Hacc
      by (eapply (accepted_quiet db d); [quiet_chain|by eapply authority_rows_Ret]) end.
  destruct (attempt_ok _ _ Hdb (acc_attempt _ _ _ _ Hacc)).
  case_run H; lx H; ty. apply typed_attempts; [ty|]. intros a _ _ []. bool_simpl. split; cbn; try done. lia.
Qed.

Lemma reserve_typed h a : types (reserve_result sha256 h a).
Proof. intros db r db' H Hdb. unfold reserve_result in H. lx H. destruct s; lx H; ty. Qed.

Lemma callback_accepted h a op db receipt r db' :
  _callback sha256 h a op db = (Ret (receipt, inr r), db') → accepted db a (a_worker_id a) r.
Proof.
  unfold _callback. intros H. repeat first [tx_step H | quiet_step H | pair_step H].
  case_run H; [by apply tx_mret in H as [[=] _]|]. quiet_step H. apply tx_mret in H as [[= <- <-] _].
  match goal with Ha : _authority_rows _ _ ?d = _ |- _ =>
    eapply (accepted_quiet db d); [quiet_chain|by eapply authority_rows_Ret] end.
Qed.

Lemma start_typed h q : types (start_attempt sha256 h q).
Proof.
  intros db r db' H Hdb. unfold start_attempt in H. lx H. destruct s as [|rw]; lx H; [ty|].
  match goal with Hc : _callback _ _ _ _ _ = _ |- _ => apply callback_accepted in Hc as Hacc end.
  pose proof (job_ok _ _ Hdb (acc_job _ _ _ _ Hacc)) as Hok.
  apply tx_bind_Ret in H as (? & ? & He & H). lx H. ty.
  eapply transition_typed; [..|exact He]; [done|ty|done|by case_bool_decide].
Qed.

Lemma adopt_typed h q : types (adopt_attempt sha256 h q).
Proof. intros db r db' H Hdb. unfold adopt_attempt in H. lx H. destruct o0; lx H; ty. Qed.

Lemma fail_typed h q db r db' :
  fail_attempt sha256 h q db = (Ret r, db') → auth_inv (view db) → typed db → typed db'.
Proof.
  intros H Hinv Hdb. unfold fail_attempt in H. lx H. destruct o0; lx H; [ty|].
  match goal with Ha : _authority_rows _ _ ?d = (Ret ?r, _) |- _ =>
    assert (accepted db (fr_authority q) (h_worker_id h) r) as Hacc
      by (eapply (accepted_quiet db d); [quiet_chain|by eapply authority_rows_Ret]) end.
  pose proof (job_ok _ _ Hdb (acc_job _ _ _ _ Hacc)) as Hok.
  match goal with Hv : check_observation _ _ _ _ = (Ret _, ?d) |- _ =>
    assert (quiet db d) as [Hrows _ _] by quiet_chain end.
  apply tx_bind_Ret in H as (? & ? & He & H). lx H. ty.
  eapply cleanup_event_typed; [..|exact He]; [done| |intros j _ _; by apply fenced_ok].
  apply typed_allocations; [ty|]. rewrite !modify_other, Hrows by (done || tables). intros y Hy Hp. bool_simpl.
  destruct_and?. apply quarantine_ok.
  rewrite (NoDup_fmap_elem al_allocation_id (rows db T_allocations) y (ar_allocation x5)); try done; [|apply Hacc].
  pose proof (inv_allocs _ Hinv) as Hnd. cbn in Hnd. by rewrite <- list_fmap_compose in Hnd.
Qed.

(** ** Cleanup *)

(** Changes that lead to a state other than QUEUED. *)
Definition settles (next : JobState) (changes : JobRow → JobRow) : Prop :=
  next ≠ JS_QUEUED ∧ ∀ r, JobOk r → JobOk ((changes r) <| j_state := next |>).

Lemma recover_ok job attempt safe ck now jitter :
  JobOk job → let d := recover job attempt safe ck now jitter in settles (next_state d) (recovery_changes d).
Proof.
  intros Hjob. unfold recover. destruct (_ && _ && ck); [|destruct (_ && _ && (safe || _)) eqn:Hretry]; cbn; (split; [done|]);
    intros r []; destruct Hjob; bool_simpl; destruct_and?; split; try done; cbn; try case_bool_decide; cbn; try done; try lia; set_solver.
Qed.

Lemma recover_schedule_ok job attempt safe ck now jitter sched :
  JobOk job → 0 ≤ jitter ≤ 1000 → retry (recover job attempt safe ck now jitter) = Some sched →
  retry_schedules_check sched = true.
Proof.
  intros [] Hj. unfold recover. destruct (_ && _ && ck); [done|]. destruct (_ && _ && (safe || _)) eqn:Hretry; [|done].
  intros [= <-]. unfold retry_schedules_check. cbn. bool_simpl. destruct_and?. rewrite !andb_true_iff, !Z.leb_le. lia.
Qed.

Lemma settle_typed job attempt now jitter db next changes db' :
  settle_job job attempt now jitter db = (Ret (next, changes), db') → typed db → JobOk job → 0 ≤ jitter ≤ 1000 →
  j_state job ≠ JS_QUEUED → typed db' ∧ settles next changes.
Proof.
  intros H Hdb Hjob Hjit Hst. unfold settle_job, end_attempt in H.
  destruct (j_state job) eqn:Hs; try done; lx H; try (case_run H; lx H); simplify_eq;
    (split; [ty|]); try (split; [done|]; intros r Hr; by apply moved_ok); try by apply recover_ok.
  - split; [done|]. intros r []. split; cbn; try done. set_solver.
  - apply typed_put; [ty|]. by eapply recover_schedule_ok.
Qed.

Lemma release_typed h q cs job attempt lease container jitter days clock db u db' :
  release_attempt h q cs job attempt lease container jitter days clock db = (Ret u, db') → typed db →
  JobOk job → 0 ≤ jitter ≤ 1000 → j_state job ≠ JS_QUEUED → typed db'.
Proof.
  unfold release_attempt. intros H Hdb Hjob Hjit Hst. lx H.
  apply tx_bind_Ret in H as ([next changes] & db1 & Hs & H).
  apply settle_typed in Hs as [Hdb1 [Hnext Hch]]; [|by ty; apply typed_allocations; [ty|intros; by apply release_ok]|done..].
  apply tx_bind_Ret in H as (? & db2 & He & H).
  assert (typed db2) as Hdb2 by (case_run He; unfold end_attempt in He; lx He; ty). clear He. lx H.
  apply tx_bind_Ret in H as (? & db3 & He & H).
  match type of He with _ ?d = _ => assert (typed d) as Hd by ty end.
  assert (typed db3) as Hdb3 by (case_run He; lx He; ty). clear He. lx H.
  apply tx_bind_Ret in H as (? & db4 & He & H). lx H.
  eapply cleanup_event_typed; [..|exact He]; [done|ty|].
  intros r _ _ Hr. destruct (Hch r Hr). case_match; [|by split]. split; cbn in *; try done. set_solver.
Qed.

Lemma cleanup_typed h q jitter days clock db r db' :
  report_cleanup sha256 h q jitter days clock db = (Ret r, db') → 0 ≤ jitter ≤ 1000 → typed db → typed db'.
Proof.
  unfold report_cleanup. intros H Hjit Hdb. lx H.
  destruct Hl2 as [[_ ->]|(alloc & Halloc & ->)]; [done|]. lx H.
  case_run H; lx H; [ty|]. case_run H; lx H; [ty|]. case_run H; lx H; [ty|].
  apply tx_bind_Ret in H as (? & db1 & Hr & H). lx H. ty.
  assert (quiet db x2) as Hq2' by quiet_chain. apply filter_one in Hl0 as [Hj _].
  rewrite (quiet_rows _ _ Hq2') in Hj by tables.
  eapply release_typed; [exact Hr|ty|by eapply job_ok|done|].
  intros Hst. rewrite Hst in *.
  match goal with E : negb (bool_decide (JS_QUEUED ∈ _)) = false |- _ => by vm_compute in E end.
Qed.

Lemma reserve_checkpoint_typed h a : types (reserve_checkpoint sha256 h a).
Proof.
  intros db r db' H Hdb. unfold reserve_checkpoint in H. lx H. destruct s as [|rw]; lx H; [ty|].
  match goal with Hc : _callback _ _ _ _ _ = _ |- _ => apply callback_accepted in Hc as Hacc end.
  destruct (job_ok _ _ Hdb (acc_job _ _ _ _ Hacc)).
  ty. apply typed_jobs; [ty|]. intros j _ _ []. split; cbn; try done. lia.
Qed.
End callbacks.

(** ** Dispatch *)

Lemma max_attempt_nonneg l : Forall AttemptOk l → 0 ≤ max_attempt_number l.
Proof.
  unfold max_attempt_number. intros H. destruct l as [|a l]; [done|]. cbn.
  apply Forall_cons in H as [[Ha _ _ _] Hl]. assert (0 ≤ at_attempt_number a) as Hn by lia. clear Ha.
  revert Hn. generalize (at_attempt_number a) as n. induction l as [|b l IH]; intros n Hn; [done|]. cbn.
  apply Forall_cons in Hl as [_ Hl]. apply IH; [done|lia].
Qed.

Lemma dispatch_typed worker job now epoch holder expected rid db u db' :
  dispatch_job worker job now epoch holder expected rid db = (Ret u, db') → job ∈ rows db T_jobs → typed db → typed db'.
Proof.
  unfold dispatch_job. intros H Hjob Hdb. pose proof (job_ok _ _ Hdb Hjob) as Hok. lx H.
  apply tx_bind_Ret in H as (? & ? & He & H). lx H. ty. apply filter_one in Hl as [Hspec _].
  pose proof (typed_rows _ Hdb T_job_specs _ Hspec) as Hsc. cbn in Hsc. unfold job_specs_check in Hsc. bool_simpl.
  eapply dispatch_event_typed; [..|exact He]; [done| |].
  - ty. apply typed_put; [apply typed_put; [ty|]|].
    + apply attempts_checkP. destruct Hok. split; cbn; [|lia|done|].
      * enough (0 ≤ max_attempt_number (List.filter (λ r : AttemptRow, bool_decide (at_job_id r = j_job_id job))
          (rows db T_attempts))) by lia.
        apply max_attempt_nonneg, Forall_forall. intros a [_ Ha]%elem_of_List_filter. by eapply attempt_ok.
      * apply elem_of_cons in jc_recovery_intent0 as [->|Hi]; [set_solver|]. apply list_elem_of_singleton in Hi as ->. set_solver.
    + apply allocations_checkP. split; cbn; try done; try lia; [set_solver|right; done].
  - intros r _ _ []. destruct Hok. split; cbn; try done. lia.
Qed.

Lemma decision_typed decision worker job now epoch holder db u db' :
  apply_decision decision worker job now epoch holder db = (Ret u, db') → (∀ j, job = Some j → j ∈ rows db T_jobs) →
  typed db → typed db'.
Proof.
  intros H Hjob Hdb.
  assert (∀ et reason db1 db2, typed db1 → Dispatch._event job holder et reason false (λ r, r) db1 = (Ret u, db2) →
    typed db2) as Hevent.
  { intros et reason db1 db2 Hd He. destruct job as [j|]; [|apply tx_mret in He as [_ ->]; ty].
    eapply dispatch_event_typed; [..|exact He]; [|ty|done]. eapply job_ok; [exact Hdb|by apply Hjob]. }
  destruct decision; cbn [apply_decision] in H.
  - destruct job as [j|]; [|done]. eapply dispatch_typed; eauto.
  - destruct job as [j|]; [|done]. lx H. eapply Hevent; [|exact H]. ty.
  - by apply tx_mret in H as [_ ->].
  - lx H. eapply Hevent; [|exact H]. ty.
  - by apply tx_mret in H as [_ ->].
Qed.

(** ** Control *)

(** The counters' own constraint, which the queue positions are taken from. *)
Definition counters_ok (db : DB) : Prop := ∀ c, c ∈ rows db T_admission_counters → 0 ≤ ac_version c.

Lemma read_counters_Ret scopes db cs db' :
  read_counters scopes db = (Ret cs, db') → counters_ok db → Forall (λ c, 0 ≤ ac_version c) cs.
Proof.
  revert db cs db'. induction scopes as [|x scopes IH]; intros db cs db' H Hc; cbn [read_counters] in H.
  { apply tx_mret in H as [[= ->] _]. constructor. }
  tx H. destruct Hl as [[_ ->]|(c & [Hin _]%filter_one & ->)]; [done|].
  apply tx_bind_Ret in H as (rest & db1 & Hr & H). apply tx_mret in H as [[= ->] _].
  constructor; [by apply Hc|by eapply IH].
Qed.

(** A call that leaves the counters alone. *)
Lemma counters_frame {A} (m : Tx A) db r db' :
  only_writes [T_idempotency_records] m → m db = (r, db') → counters_ok db →
  quiet db db' ∧ counters_ok db'.
Proof.
  intros Hm H Hc. destruct (Hm _ _ _ H) as (Hrows & _). split.
  - by apply (quiet_run m db r db'); [eapply only_writes_weaken; [|exact Hm]; set_solver|].
  - unfold counters_ok. by rewrite Hrows by set_solver.
Qed.

Ltac frame_step H :=
  let Hm := fresh "Hm" in let Hq := fresh "Hq" in let Hc := fresh "Hc" in
  apply tx_bind_Ret in H as (? & ? & Hm & H);
  apply counters_frame in Hm as [Hq Hc]; [|solve [writes]|eassumption].

Lemma control_typed settings q op act t apply db r db' :
  (∀ job cs db x db', JobOk job → typed db → Forall (λ c, 0 ≤ ac_version c) cs →
     apply {| cc_job := job; cc_counters := cs; cc_now := t_now t |} db = (Ret x, db') →
     typed db' ∧ ∀ r, JobOk r → JobOk (ct_changes x r)) →
  _control settings q op act t apply db = (Ret r, db') → counters_ok db → typed db → typed db'.
Proof.
  intros Happly H Hc Hdb. unfold _control in H. do 3 frame_step H.
  case_run H; [apply tx_mret in H as [_ ->]; ty|]. do 3 frame_step H.
  apply tx_bind_Ret in H as (cs & dbc & Hcs & H).
  apply read_counters_Ret in Hcs as Hcs'; [|assumption].
  apply counters_frame in Hcs as [Hqc _]; [|solve [writes]|assumption].
  repeat tx_step H. apply filter_one in Hl as [Hjob _].
  apply tx_bind_Ret in H as (tr & dbx & Hx & H).
  assert (typed dbc) as Hdbc by ty.
  destruct (Happly _ _ _ _ _ (job_ok _ _ Hdbc Hjob) Hdbc Hcs' Hx) as [Hdbx Hch].
  apply tx_bind_Ret in H as (? & dbe & He & H). apply control_event_typed in He; [|exact (job_ok _ _ Hdbc Hjob)|done|by auto].
  lx H; ty.
Qed.

Lemma pause_typed settings q t db r db' :
  pause_job settings q t db = (Ret r, db') → counters_ok db → typed db → typed db'.
Proof.
  unfold pause_job. apply control_typed. intros job cs db1 x db2 Hok Hdb _ H. unfold pause_apply in H. lx H.
  split; [ty|]. intros r0 []. by split.
Qed.

Lemma resume_typed settings q t db r db' :
  resume_job settings q t db = (Ret r, db') → counters_ok db → typed db → typed db'.
Proof.
  unfold resume_job. apply control_typed. intros job cs db1 x db2 Hok Hdb Hcs H. unfold resume_apply in H.
  repeat first [tx_step H | quiet_step H | pair_step H | progress cbv zeta beta in H]. cbn [cc_counters] in H.
  destruct cs as [|c cs]; [done|]. apply Forall_cons in Hcs as [Hc _]. lx H.
  split; [ty|]. intros r0 []. split; cbn; try done; intros; unfold _DISPATCHABLE; set_solver.
Qed.

Lemma cancel_typed settings q t db r db' :
  cancel_job settings q t db = (Ret r, db') → counters_ok db → typed db → typed db'.
Proof.
  unfold cancel_job. apply control_typed. intros job cs db1 x db2 Hok Hdb _ H. unfold cancel_apply in H.
  cbn [cc_job cc_now cc_counters] in H. case_run H; [|case_run H; [|case_run H; [|done]]].
  - lx H. split; [ty|]. intros r0 []. split; cbn; try done. set_solver.
  - quiet_step H. case_run H.
    + apply tx_bind_Ret in H as (? & ? & Hf & H). apply fence_attempt_typed in Hf. lx H.
      split; [ty|]. intros r0 []. split; cbn; try done. destruct Hok. lia.
    + lx H. split; [ty|]. intros r0 []. by split.
  - lx H. split; [ty|]. intros r0 []. by split.
Qed.

(** ** The queue and the workers *)

Lemma types_ret {A} (a : A) : types (mret a).
Proof. intros db b db' H. by apply tx_mret in H as [_ ->]. Qed.
Lemma types_quiet {A} (m : Tx A) : only_writes quiet_tables m → types m.
Proof. intros Hm db a db' H. eapply typed_quiet, quiet_run; eauto. Qed.
Lemma types_bind {A B} (m : Tx A) (f : A → Tx B) : types m → (∀ a, types (f a)) → types (m ≫= f).
Proof. intros Hm Hf db b db' H Hdb. apply tx_bind_Ret in H as (a & db1 & Ha & H). eapply Hf; [exact H|]. by eapply Hm. Qed.
Lemma types_for {A} (l : list A) body : (∀ a, types (body a)) → types (for_rows l body).
Proof. intros Hb. induction l as [|a l IH]; [apply types_ret|]. by apply types_bind; [|intros _]. Qed.

Lemma eligible_typed job_id (age : option Z) :
  types (update_ T_jobs (λ j, bool_decide (j_job_id j = job_id)) (λ j, j <| j_eligible_since := age |>)).
Proof. intros db u db' H Hdb. apply tx_update_ in H as [_ ->]. apply typed_jobs; [done|]. intros r _ _ []. by split. Qed.

Lemma eligibility_typed now : types (process_eligibility_batch now).
Proof.
  unfold process_eligibility_batch. apply types_bind; [apply types_quiet; writes|].
  intros [e|]; (apply types_bind; [|intros _; apply types_quiet; writes]); [|apply types_ret].
  do 3 (apply types_bind; [apply types_quiet; writes|]; intros ?).
  apply types_bind; [|intros _; apply types_quiet; writes]. apply types_for. intros c. apply eligible_typed.
Qed.

Lemma fence_lease_typed now actor probe : types (fence_worker_lease now actor probe).
Proof.
  intros db u db' H Hdb. unfold fence_worker_lease in H. lx H. apply filter_one in Hl as [Hj _].
  pose proof (job_ok _ _ Hdb Hj) as Hok. case_run H; [lx H; ty|].
  case_run H; apply tx_bind_Ret in H as (? & ? & Hf & He).
  - apply fence_attempt_typed in Hf. eapply job_event_typed; [..|exact He]; [done|ty|].
    intros r _ _ []. split; cbn; try done. destruct Hok. lia.
  - apply revoke_leftover_typed in Hf. eapply job_event_typed; [..|exact He]; [done|ty|done].
Qed.

Lemma mutate_worker_typed settings q op act st t apply :
  (∀ w now live, types (apply w now live)) → types (_mutate_worker settings q op act st t apply).
Proof.
  intros Happly db r db' H Hdb. unfold _mutate_worker in H. lx H. case_run H; lx H; [ty|].
  apply tx_bind_Ret in H as (f & db1 & Ha & H). apply Happly in Ha. lx H; ty.
Qed.

Lemma disable_typed settings q t : types (disable_worker settings q t).
Proof.
  unfold disable_worker. apply mutate_worker_typed. intros w now live. apply types_bind; [apply types_quiet; writes|].
  intros _. apply types_bind; [|intros _; apply types_ret]. unfold _fence_worker_attempts.
  apply types_bind; [apply types_quiet; writes|]. intros l. apply types_for. apply fence_lease_typed.
Qed.

Lemma drain_typed settings q t : types (drain_worker settings q t).
Proof. unfold drain_worker. apply mutate_worker_typed. intros w now live. apply types_quiet. writes. Qed.

Lemma promote_job_typed now holder inventory ready seq job_id : 0 ≤ seq → types (promote_job now holder inventory ready seq job_id).
Proof.
  intros Hseq db b db' H Hdb. unfold promote_job in H. lx H.
  destruct Hl0 as [[_ ->]|(sched & _ & ->)]; lx H; [ty|]. case_run H; lx H; [ty|].
  apply filter_one in Hl as Hj. destruct Hj as [Hj Hjid]. pose proof (job_ok _ _ Hdb Hj) as Hok. bool_simpl. destruct_and?.
  case_run H.
  - apply tx_bind_Ret in H as (? & ? & He & H). lx H. case_run He; lx He; [ty|].
    eapply dispatch_event_typed; [..|exact He]; [done|ty|]. intros r _ _ []. by split.
  - lx H. apply tx_bind_Ret in H as (? & ? & He & H). lx H.
    eapply dispatch_event_typed; [..|exact He]; [done|ty|]. intros r Hr Hp [].
    rewrite modify_other in Hr by done. rewrite (quiet_rows _ _ Hq) in Hr by tables.
    assert (r = x) as ->. { eapply filter_only; [exact Hl|done|]. unfold is_job in *. bool_simpl. apply bool_decide_eq_true. congruence. }
    split; cbn; try done.
Qed.

Lemma promote_jobs_typed now holder inventory ready seq n ids :
  0 ≤ seq → types (promote_jobs now holder inventory ready seq n ids).
Proof.
  revert seq n. induction ids as [|id ids IH]; intros seq n Hseq; [apply types_ret|].
  apply types_bind; [by apply promote_job_typed|]. intros []; apply IH; lia.
Qed.

Lemma counter_lock_version st id db c db' :
  _counter_lock st id db = (Ret c, db') → counters_ok db → 0 ≤ ac_version c.
Proof.
  unfold _counter_lock. intros H Hc. apply tx_bind_Ret in H as (? & db1 & Hn & H).
  assert (counters_ok db1) as Hc1.
  { unfold insert_new in Hn. destruct (existsb _ _); [by injection Hn as _ <-|]. tx Hn. intros r Hr.
    rewrite put_same in Hr. apply elem_of_app in Hr as [Hr| ->%list_elem_of_singleton]; [by apply Hc|done]. }
  tx H. apply one_Ret in H as [Hl _]. apply filter_one in Hl as [Hin _]. by apply Hc1.
Qed.

Lemma promote_typed now holder limit db n db' :
  promote_due_locked now holder limit db = (Ret n, db') → counters_ok db → typed db → typed db'.
Proof.
  unfold promote_due_locked. intros H Hc Hdb. frame_step H. cbv zeta in H.
  destruct (_ =? _)%nat; [apply tx_mret in H as [_ ->]; ty|]. apply tx_bind_Ret in H as (c & db1 & Hl & H).
  apply counter_lock_version in Hl as Hv; [|done].
  assert (types (_counter_lock "GLOBAL" "global")) as Hty by (apply types_quiet; writes). apply Hty in Hl.
  quiet_step H. apply tx_bind_Ret in H as ([s p] & db2 & Hp & H). apply promote_jobs_typed in Hp; [|done].
  lx H; ty.
Qed.

(** ** Every operation *)


Lemma typed_compute db : (∀ t, forallb (row_check t) (rows db t) = true) → typed db.
Proof.
  intros H. split. intros t r Hr. specialize (H t). rewrite forallb_forall in H. by apply H, list_elem_of_In.
Qed.

