(* ===== verification/PolicyChanges.v ===== *)
(** * Policy changes

    What the updates of [PolicyService] do to the policies in force: the operational
    mode moves along its edges with the evidence each needs, versions follow one
    another, and the limits never drop below what is already in use. *)

From S2P Require Import Prelude PyDecimal PyValue WorkerModels Database Ledger RateLimit Authority Capabilities.
From S2P Require Import Idempotency Identity Dispatch Cleanup Control Admission Workers PolicyService View Lifecycle System.

Local Open Scope string_scope.
Local Open Scope list_scope.
Local Open Scope Z_scope.

(** ** What an update of the global policy does *)

(** What a change of mode needs: nothing skips a state, and every step away from
    normal operation and back needs its evidence. *)
Definition mode_change (proofs : RecoveryProofProvider) (db : DB) (storage_ready : option bool)
    (current target : OperationalMode) : Prop :=
  match current, target with
  | NORMAL, ADMISSION_OFF => True
  | ADMISSION_OFF, WRITE_FROZEN =>
      freeze_ready proofs db = true ∧ ∀ a, a ∈ rows db T_allocations → al_state a = AL_RELEASED
  | WRITE_FROZEN, ADMISSION_OFF => restore_verified proofs db = true
  | ADMISSION_OFF, NORMAL => storage_ready = Some true ∧ readiness_verified proofs db = true
  | _, _ => False
  end.

Definition retire (version : Z) (r : PolicyRow) : PolicyRow :=
  if pv_policy_version r =? version then r <| pv_is_current := false |> else r.

(** The next version of the global policy, published over [current].  [db1] is the
    database once the request is recorded. *)
Record global_published (proofs : RecoveryProofProvider) (q : GlobalPolicyRequest) (target_mode : option OperationalMode)
    (storage_ready : option bool) (current row : PolicyRow) (db db' : DB) : Prop := {
  gp_current : List.filter pv_is_current (rows db T_policy_versions) = [current];
  gp_version : resolve_expected_version (gq_expected_version q) = Ret (pv_policy_version current);
  gp_row : row = MkPolicyRow (pv_policy_version current + 1) (default (pv_operational_mode current) target_mode) true
                   (default (pv_global_outstanding_limit current) (gq_outstanding_limit q));
  gp_rows : rows db' T_policy_versions = (retire (pv_policy_version current) <$> rows db T_policy_versions) ++ [row];
  gp_counter : ∀ c, c ∈ rows db T_admission_counters → scope_row ("GLOBAL", "global") c = true →
    ac_outstanding c ≤ pv_global_outstanding_limit row;
  gp_mode : pv_operational_mode row = pv_operational_mode current ∨
    ∃ db1, (∀ t, t ≠ T_idempotency_records → rows db1 t = rows db t) ∧
      mode_change proofs db1 storage_ready (pv_operational_mode current) (pv_operational_mode row);
  gp_frozen : pv_operational_mode current = WRITE_FROZEN →
    pv_operational_mode row = ADMISSION_OFF ∧ pv_global_outstanding_limit row = pv_global_outstanding_limit current;
}.

Section global_policy.
Context (settings : JobSettings) (proofs : RecoveryProofProvider).

Lemma validate_mode_Ret c t f r d :
  validate_mode_transition c t f r d = Ret () →
  match c, t with
  | NORMAL, ADMISSION_OFF => True
  | ADMISSION_OFF, WRITE_FROZEN => f = true
  | WRITE_FROZEN, ADMISSION_OFF => r = true
  | ADMISSION_OFF, NORMAL => d = true
  | _, _ => False
  end.
Proof. unfold validate_mode_transition. by destruct c, t, f, r, d. Qed.

Lemma session_writes : only_writes [] session.
Proof. by intros db r db' [= _ <-]. Qed.
Hint Resolve session_writes : writes.

Lemma change_mode_writes c tm sr t clock :
  only_writes [T_allocation_ledger_segments; T_fairness_ledgers; T_fairness_state] (change_mode proofs c tm sr t clock).
Proof. unfold change_mode. writes. Qed.
Hint Resolve change_mode_writes : writes.

Lemma unreleased_none db :
  length (List.filter (λ a, negb (bool_decide (al_state a = AL_RELEASED))) (rows db T_allocations)) = 0%nat →
  ∀ a, a ∈ rows db T_allocations → al_state a = AL_RELEASED.
Proof.
  intros Hn a Ha. apply length_zero_iff_nil in Hn. destruct (decide (al_state a = AL_RELEASED)) as [|Hr]; [done|].
  exfalso. assert (a ∈ List.filter (λ a, negb (bool_decide (al_state a = AL_RELEASED))) (rows db T_allocations)) as Hin.
  { apply elem_of_List_filter. split; [by rewrite bool_decide_eq_false_2|done]. }
  rewrite Hn in Hin. set_solver.
Qed.

Lemma change_mode_Ret c tm sr t clock db u db' :
  change_mode proofs c tm sr t clock db = (Ret u, db') → c = tm ∨ mode_change proofs db sr c tm.
Proof.
  unfold change_mode. case_bool_decide as Hc; [by left|]. intros H. right. tx_step H.
  apply tx_bind_Ret in H as (? & ? & [= <- <-] & H).
  apply tx_bind_Ret in H as (? & db1 & Hv & H). destruct (validate_mode_transition _ _ _ _ _) as [[]|[]] eqn:E; [|done].
  apply validate_mode_Ret in E. unfold mode_change. destruct c, tm; try done; cbn in *.
  - apply andb_true_iff in E as [E1 E2]. by apply bool_decide_eq_true in E1.
  - apply andb_true_iff in E as [E1 E2]. split; [done|]. apply unreleased_none. by apply Nat.eqb_eq.
Qed.

Lemma begin_unchanged k h e w db o db' t :
  begin_idempotency k h e w db = (o, db') → t ≠ T_idempotency_records → rows db' t = rows db t.
Proof. intros H Ht. destruct (begin_writes k h e w _ _ _ H) as [Hr _]. apply Hr. set_solver. Qed.

Lemma policy_audit_writes a ac ty ti re b af te : only_writes [T_audit_records] (policy_audit a ac ty ti re b af te).
Proof. unfold policy_audit. writes. Qed.
Hint Resolve policy_audit_writes : writes.

(** The audit record and the stored response end a policy update. *)
Lemma recorded_Ret {A} (x r : A) a ac ty ti re b af te i st body hd loc f db db' :
  (_ ← policy_audit a ac ty ti re b af te; _ ← complete_idempotency i st body hd loc f; mret x) db = (Ret r, db') →
  r = x ∧ ∀ t, t ∉ [T_audit_records; T_idempotency_records] → rows db' t = rows db t.
Proof.
  intros H. split; [|revert H; generalize (Ret r : outcome SvcError A); intros o H; eapply (ltac:(writes) :
    only_writes [T_audit_records; T_idempotency_records] (_ ← policy_audit a ac ty ti re b af te;
                  _ ← complete_idempotency i st body hd loc f; mret x)); exact H].
  apply tx_bind_Ret in H as (? & ? & _ & H). apply tx_bind_Ret in H as (? & ? & _ & H). by apply tx_mret in H as [[= ->] _].
Qed.

Lemma existsb_none {A} (f : A → bool) l : existsb f l = false → ∀ x, x ∈ l → f x = false.
Proof. intros H x Hx. rewrite <- not_true_iff_false, existsb_exists in *. intros Hf. apply H. exists x. by rewrite <- list_elem_of_In. Qed.

(** A guard on the only row, if there is one, holds of every row. *)
Lemma guard_all {A} (p bad : A → bool) l x :
  List.filter p l = [] ∧ x = None ∨ (∃ a, List.filter p l = [a] ∧ x = Some a) →
  match x with Some c => bad c | None => false end = false → ∀ c, c ∈ l → p c = true → bad c = false.
Proof.
  intros Hx Hb c Hin Hp. assert (c ∈ List.filter p l) as Hf by by apply elem_of_List_filter.
  destruct Hx as [[Hl _]|(a & Hl & ->)]; rewrite Hl in Hf; [set_solver|]. apply list_elem_of_singleton in Hf as ->. done.
Qed.

Lemma update_global_Ret q target sr t clock db r db' :
  update_global_operation settings proofs q target sr t clock db = (Ret r, db') →
  (∀ t, t ≠ T_idempotency_records → rows db' t = rows db t) ∨
  ∃ current row, r = Some (GlobalPolicyView row) ∧ global_published proofs q target sr current row db db' ∧
    rows db' T_admission_counters = rows db T_admission_counters ∧ rows db' T_tenant_policies = rows db T_tenant_policies.
Proof.
  unfold update_global_operation. intros H. apply tx_bind_Ret in H as (live & db0 & Hl & H).
  apply (reads_run _ _ _ _ (admin_authorize_reads _ _ _ _)) in Hl as ->.
  apply tx_bind_Ret in H as (o & db1 & Hb & H).
  destruct (io_replay o) as [replay|]; [left; apply tx_mret in H as [[= ->] ->]; intros; by eapply begin_unchanged|].
  right. apply tx_bind_Ret in H as (v & ? & Hv & H). injection Hv as Hv <-.
  do 2 tx_step H. rename x into current. do 4 tx_step H. tx_step H. do 2 tx_step H.
  apply tx_bind_Ret in H as (u & db2 & Hm & H). pose proof (change_mode_Ret _ _ _ _ _ _ _ _ Hm) as Hmode.
  apply (change_mode_writes _ _ _ _ _) in Hm as [Hrm _]. do 2 tx_step H.
  apply recorded_Ret in H as [-> Hrec].
  assert (∀ t, t ∉ [T_policy_versions; T_audit_records; T_idempotency_records; T_allocation_ledger_segments;
                    T_fairness_ledgers; T_fairness_state] → rows db' t = rows db t) as Hrows.
  { intros t' Ht. rewrite Hrec, put_other, modify_other, Hrm by set_solver. eapply begin_unchanged; set_solver. }
  pose proof (begin_unchanged _ _ _ _ _ _ _ T_policy_versions Hb ltac:(done)) as Hp.
  pose proof (begin_unchanged _ _ _ _ _ _ _ T_admission_counters Hb ltac:(done)) as Hc.
  rewrite Hp in Hl. rewrite Hc in Hl0. eexists current, _. split_and!; [done| |apply Hrows; set_solver..].
  split; [done| |done| | | |].
  - rewrite Hv. f_equal. lia.
  - rewrite Hrec, put_same, modify_same, Hrm, Hp by set_solver. done.
  - intros c Hin Hs. cbn. pose proof (guard_all _ _ _ _ Hl0 Hg2 c Hin Hs). simpl in *. lia.
  - destruct Hmode as [<-|Hmode]; [by left|]. right. exists db1. split; [|done]. intros. by eapply begin_unchanged.
  - intros Hf. rewrite Hf in *. rewrite bool_decide_eq_true_2 in Hg0, Hg1 by done. cbn in *.
    destruct (gq_outstanding_limit q); [done|]. split; [|done].
    apply negb_false_iff, bool_decide_eq_true in Hg0. by subst.
Qed.
End global_policy.

(** The mode a request asks for. *)
Definition requested_mode (q : GlobalPolicyRequest) (target : option OperationalMode) : Prop :=
  match gq_operational_mode q with None => target = None | Some text => mode_of text = target ∧ target ≠ None end.

Section whole_request.
Context (settings : JobSettings) (proofs : RecoveryProofProvider).

Lemma global_request_Ret q probe t clock t' clock' db r db' :
  update_global_policy settings proofs q probe t clock t' clock' db = (Ret r, db') →
  ∃ target sr t1 clock1, update_global_operation settings proofs q target sr t1 clock1 db = (Ret r, db') ∧
    requested_mode q target ∧ ∀ n, gq_outstanding_limit q = Some n → 1 ≤ n ≤ 1000000.
Proof.
  unfold update_global_policy. destruct (is_none _ && is_none _); [done|].
  destruct (match gq_outstanding_limit q with Some _ => _ | None => _ end) eqn:Hn; [done|].
  assert (∀ n, gq_outstanding_limit q = Some n → 1 ≤ n ≤ 1000000) as Hlim.
  { intros n Hq. rewrite Hq in Hn. lia. }
  destruct (match gq_operational_mode q with None => _ | Some _ => _ end) as [target|] eqn:Ht; [|done].
  assert (requested_mode q target) as Hreq.
  { unfold requested_mode. destruct (gq_operational_mode q) as [text|]; [|by simplify_eq].
    destruct (mode_of text); by simplify_eq/=. }
  destruct probe as [ready|]; [|intros; by eexists target, _, _, _].
  destruct (update_global_operation _ _ _ _ None _ _ db) as [[x|e] db1] eqn:E.
  - intros [= -> ->]. by eexists target, _, _, _.
  - intros H. assert (update_global_operation settings proofs q target (Some ready) t' clock' db = (Ret r, db')) as H'.
    { destruct e as [| |e]; try discriminate H. by destruct (bool_decide _) in H. }
    by eexists target, _, _, _.
Qed.

Lemma retired_filter v (l : list PolicyRow) current :
  List.filter pv_is_current l = [current] → pv_policy_version current = v →
  List.filter pv_is_current (retire v <$> l) = [].
Proof.
  intros Hl Hv. assert (∀ r, r ∈ l → pv_is_current (retire v r) = false) as Hr.
  { intros r Hin. unfold retire. destruct (pv_policy_version r =? v) eqn:E; [done|].
    destruct (pv_is_current r) eqn:Hc; [|done]. assert (r ∈ List.filter pv_is_current l) as Hf by by apply elem_of_List_filter.
    rewrite Hl in Hf. apply list_elem_of_singleton in Hf as ->. lia. }
  clear Hl. induction l as [|r l IH]; cbn; [done|]. rewrite Hr by set_solver. apply IH. intros x Hx. apply Hr. set_solver.
Qed.

End whole_request.

(** ** What an update of a tenant's policy does *)

Definition retire_tenant (tenant_id : string) (version : Z) (r : TenantPolicyRow) : TenantPolicyRow :=
  if bool_decide (tq_tenant_id r = tenant_id) && (tq_version r =? version) then r <| tq_is_current := false |> else r.

(** What a counter counts. *)
Definition counts (c : CounterRow) : string * string * Z * Z :=
  (ac_scope_type c, ac_scope_id c, ac_outstanding c, ac_active_attempts c).
Definition same_counts (db db' : DB) : Prop :=
  counts <$> rows db' T_admission_counters = counts <$> rows db T_admission_counters.

(** The next version of a tenant's policy, published over [current]: it covers what
    the tenant and its users already have outstanding, running and allocated. *)
Record tenant_published (q : TenantPolicyRequest) (current row : TenantPolicyRow) (db db' : DB) : Prop := {
  tp_current : List.filter (current_policy (tr_tenant_id q)) (rows db T_tenant_policies) = [current];
  tp_version : resolve_expected_version (tr_expected_version q) = Ret (tq_version current);
  tp_row : ∃ values, _validated_tenant_changes (tr_changes q) = Ret values ∧
    row = (values current) <| tq_tenant_id := tr_tenant_id q |> <| tq_version := tq_version current + 1 |>
            <| tq_is_current := true |>;
  tp_rows : rows db' T_tenant_policies =
    (retire_tenant (tr_tenant_id q) (tq_version current) <$> rows db T_tenant_policies) ++ [row];
  tp_counts : same_counts db db';
  tp_tenant_counter : ∀ c, c ∈ rows db T_admission_counters → scope_row ("TENANT", tr_tenant_id q) c = true →
    ac_outstanding c ≤ tq_outstanding_limit row ∧ ac_active_attempts c ≤ tq_tenant_active_limit row;
  tp_user_counters : ∀ c, c ∈ rows db T_admission_counters → user_counter_of (tr_tenant_id q) c = true →
    ac_outstanding c ≤ tq_user_outstanding_limit row ∧ ac_active_attempts c ≤ tq_user_active_limit row;
  tp_held : let held := List.filter (λ a, bool_decide (al_tenant_id a = tr_tenant_id q)
                                          && negb (bool_decide (al_state a = AL_RELEASED))) (rows db T_allocations) in
    sum_of al_cpu_millis held ≤ tq_cpu_limit_millis row ∧ sum_of al_memory_bytes held ≤ tq_memory_limit_bytes row ∧
    sum_of al_gpu_count held ≤ tq_gpu_limit row;
}.

Section tenant_policy.
Context (settings : JobSettings).

Lemma same_counts_modify p f db : (∀ c, counts (f c) = counts c) → same_counts db (modify T_admission_counters p f db).
Proof.
  intros Hf. unfold same_counts. rewrite modify_same, <- list_fmap_compose. apply list_fmap_ext. intros i c _. cbn.
  by destruct (p c).
Qed.

Lemma same_counts_trans db db1 db2 : same_counts db db1 → same_counts db1 db2 → same_counts db db2.
Proof. unfold same_counts. congruence. Qed.

(** A counter that may be active again is only stamped. *)
Local Notation stamp p b now :=
  (if b then update_ T_admission_counters p (λ r, r <| ac_eligible_resumed_at := Some now |>) else mret ()).

Lemma stamp_Ret p (b : bool) (now : Z) db u db' :
  (stamp p b now : Tx ()) db = (Ret u, db') → same_counts db db' ∧ ∀ t, t ≠ T_admission_counters → rows db' t = rows db t.
Proof.
  intros H. destruct b; tx_step H; [|done]. split; [by apply same_counts_modify|].
  intros. by apply modify_other.
Qed.

Lemma stamps_Ret {A} (p : A → CounterRow → bool) (b : A → bool) (now : Z) l db u db' :
  for_rows l (λ c, stamp (p c) (b c) now : Tx ()) db = (Ret u, db') →
  same_counts db db' ∧ ∀ t, t ≠ T_admission_counters → rows db' t = rows db t.
Proof.
  revert db. induction l as [|c l IH]; intros db H; cbn [for_rows] in H; [by tx_step H|].
  apply tx_bind_Ret in H as (? & db1 & H1 & H). apply stamp_Ret in H1 as [Hs1 H1]. apply IH in H as [Hs Hr].
  split; [by eapply same_counts_trans|]. intros t Ht. by rewrite Hr, H1.
Qed.

Lemma update_tenant_Ret q t clock db r db' :
  update_tenant_policy settings q t clock db = (Ret r, db') →
  (∀ t, t ≠ T_idempotency_records → rows db' t = rows db t) ∨
  ∃ current row, r = Some (TenantPolicyView row) ∧ tenant_published q current row db db' ∧
    rows db' T_policy_versions = rows db T_policy_versions.
Proof.
  unfold update_tenant_policy. intros H. apply tx_bind_Ret in H as (values & ? & Hval & H). injection Hval as Hval <-.
  apply tx_bind_Ret in H as (live & db0 & Hl & H).
  apply (reads_run _ _ _ _ (admin_authorize_reads _ _ _ _)) in Hl as ->.
  apply tx_bind_Ret in H as (o & db1 & Hb & H).
  destruct (io_replay o) as [replay|]; [left; apply tx_mret in H as [[= ->] ->]; intros; by eapply begin_unchanged|].
  right. apply tx_bind_Ret in H as (v & ? & Hv & H). injection Hv as Hv <-.
  apply tx_bind_Ret in H as (mode & ? & Hm & H). apply (reads_run _ _ _ _ mode_reads) in Hm as ->.
  do 2 tx_step H. tx_step H. destruct x as [current|]; [|done].
  destruct Hl as [[_ [=]]|(? & Hcur & [= <-])]. do 2 tx_step H. tx_step H. rename x into counter. tx H.
  apply tx_bind_Ret in H as (u1 & db2 & Ha & H). apply (account_locked_writes _ _) in Ha as [Hra _]. do 2 tx_step H.
  apply tx_bind_Ret in H as (u2 & db3 & Hs & H). apply stamp_Ret in Hs as [Hs Hrs].
  apply tx_bind_Ret in H as (u3 & db4 & Hu & H). apply (stamps_Ret (λ c, scope_row ("USER", ac_scope_id c))) in Hu as [Hu Hru].
  apply tx_bind_Ret in H as (u4 & db5 & Hr & H). apply (rebase_locked_writes _) in Hr as [Hrr _].
  apply recorded_Ret in H as [-> Hrec].
  pose proof (begin_unchanged _ _ _ _ _ _ _ T_tenant_policies Hb ltac:(done)) as Hp.
  pose proof (begin_unchanged _ _ _ _ _ _ _ T_admission_counters Hb ltac:(done)) as Hc.
  pose proof (begin_unchanged _ _ _ _ _ _ _ T_allocations Hb ltac:(done)) as Hal.
  pose proof (begin_unchanged _ _ _ _ _ _ _ T_policy_versions Hb ltac:(done)) as Hpv.
  rewrite Hp in Hcur. rewrite Hc in Hl, Hg2. rewrite Hal in Hg3.
  assert (same_counts db db') as Hcounts.
  { unfold same_counts in *. rewrite Hrec, Hrr, Hu, Hs, put_other, modify_other, Hra, Hc by (done || tables). done. }
  eexists current, _. split_and!; [done| |rewrite Hrec, Hrr, Hru, Hrs, put_other, modify_other, Hra by (done || tables); done].
  split; [done| |by exists values| |done| | |].
  - rewrite Hv. f_equal. lia.
  - rewrite Hrec, Hrr, Hru, Hrs, put_same, modify_same, Hra, Hp by (done || tables). done.
  - intros c Hin Hsc. pose proof (guard_all _ _ _ _ Hl Hg1 c Hin Hsc) as Hb'. cbn in *. lia.
  - intros c Hin Hsc. assert (c ∈ List.filter (user_counter_of (tr_tenant_id q)) (rows db T_admission_counters)) as Hf
      by by apply elem_of_List_filter.
    pose proof (existsb_none _ _ Hg2 c Hf). cbn in *. lia.
  - cbn in *. lia.
Qed.
End tenant_policy.

(** C20: A new version of a tenant's policy replaces the current one and never drops below
    what is in use: the tenant's and its users' outstanding jobs and running attempts,
    and the resources its unreleased allocations hold. *)
Theorem tenant_policy_covers_usage settings q t clock db r db' :
  update_tenant_policy settings q t clock db = (Ret r, db') →
  (∀ t, t ≠ T_idempotency_records → rows db' t = rows db t) ∨
  ∃ current row, r = Some (TenantPolicyView row) ∧ tenant_published q current row db db'.
Proof. intros H. destruct (update_tenant_Ret _ _ _ _ _ _ _ H) as [?|(c & row & -> & Hp & _)]; [by left|right; eauto]. Qed.

(** ** A sample: the system is frozen, and a tenant's limits are raised *)

Definition sample_operator : Principal := 
  {| p_user_id := Some "user"; p_credential_kind := BROWSER; p_credential_id := sample_session_id; p_scopes := [];
     p_memberships := []; p_system_admin := true |}.
Definition sample_policy_db (mode : OperationalMode) : DB :=
  set_rows T_policy_versions [MkPolicyRow 3 mode true 100]
  (set_rows T_system_role_grants [MkRoleGrantRow "user" "SYSTEM_ADMIN" 1 None 0 None]
  (set_rows T_fairness_state [MkFairnessRow "global" dec_zero]
  (set_rows T_admission_counters [MkCounterRow "TENANT" "tenant" 2 1 1 None]
  (set_rows T_tenant_policies
     [MkTenantPolicyRow "tenant" 7 (Finite 1 0) 8000 1073741824 0 true 2 1 2 1 (Finite 5 0) (Finite 20 0) (Finite 2 0) (Finite 10 0)]
     sample_identity_db)))).
Definition sample_proofs : RecoveryProofProvider :=
  {| freeze_ready := λ db, (length (rows db T_allocations) =? 0)%nat; restore_verified := λ _, false;
     readiness_verified := λ _, false |}.
Definition sample_freeze : GlobalPolicyRequest :=
  {| gq_principal := sample_operator; gq_expected_version := VersionPrecondition (Some (etag 3));
     gq_outstanding_limit := Some 50; gq_operational_mode := Some "WRITE_FROZEN";
     gq_idempotency_key := "0123456789abcdef"; gq_request_hash := sample_hash |}.
Definition sample_tenant_change : TenantPolicyRequest :=
  {| tr_principal := sample_operator; tr_tenant_id := "tenant"; tr_expected_version := VersionPrecondition (Some (etag 7));
     tr_changes := [("outstanding_limit", PV_json (VInt 10)); ("weight", PV_decimal (Finite 5 (-1)))];
     tr_idempotency_key := "0123456789abcdef"; tr_request_hash := sample_hash |}.
Definition sample_policy_times : Times := {| t_checked := 1; t_started := 1; t_now := 1 |}.

Local Notation sample_frozen :=
  (update_global_policy system_settings sample_proofs sample_freeze (Some true) sample_policy_times 1 sample_policy_times 1
     (sample_policy_db ADMISSION_OFF)).
Lemma sample_frozen_run : ∃ r, sample_frozen = (Ret r, sample_frozen.2).
Proof. eexists. apply ret_of. vm_compute. reflexivity. Qed.


Local Notation sample_tenant_changed :=
  (update_tenant_policy system_settings sample_tenant_change sample_policy_times 1 (sample_policy_db NORMAL)).
Lemma sample_tenant_changed_run : ∃ r, sample_tenant_changed = (Ret r, sample_tenant_changed.2).
Proof. eexists. apply ret_of. vm_compute. reflexivity. Qed.

(** The sample tenant is allowed more outstanding jobs. *)
Lemma tenant_policy_covers_usage_witness :
  ∃ r, sample_tenant_changed = (Ret r, sample_tenant_changed.2) ∧
  ((∀ t, t ≠ T_idempotency_records → rows sample_tenant_changed.2 t = rows (sample_policy_db NORMAL) t) ∨
   ∃ current row, r = Some (TenantPolicyView row) ∧
     tenant_published sample_tenant_change current row (sample_policy_db NORMAL) sample_tenant_changed.2).
Proof.
  destruct sample_tenant_changed_run as [r H]. exists r. split; [exact H|].
  exact (tenant_policy_covers_usage _ _ _ _ _ _ _ H).
Defined.
