(* ===== verification/Submission.v ===== *)
(** * What a submission does

    The effect of the admission operations of [Admission] on the database: the limits
    a submission was checked against, the rows of the job it creates, and that a
    submission and a retry are steps of the system of [System]. *)

From S2P Require Import Prelude PyDecimal PyValue WorkerModels Scheduling Database Ledger RateLimit Authority Capabilities.
From S2P Require Import Idempotency Identity Eligibility Dispatch Cleanup Retry JobSpecs Control Admission Workers.
From S2P Require Import Checkpoint Fencing View Lifecycle System.

Local Open Scope string_scope.
Local Open Scope list_scope.
Local Open Scope Z_scope.

(** ** What the parts write *)

Lemma byte_quota_writes s t : only_writes [] (enforce_byte_quota s t).
Proof. unfold enforce_byte_quota. writes. Qed.
#[export] Hint Resolve byte_quota_writes : writes.
Lemma enforce_storage_writes s t r : only_writes [] (enforce_storage s t r).
Proof. unfold enforce_storage. writes. Qed.
Lemma rate_lock_writes st id c r now : only_writes [T_rate_buckets] (_rate_lock st id c r now).
Proof. unfold _rate_lock. writes. Qed.
Lemma enabled_template_writes t v : only_writes [] (enabled_template t v).
Proof. unfold enabled_template. writes. Qed.
#[export] Hint Resolve enforce_storage_writes rate_lock_writes enabled_template_writes : writes.
Lemma validate_template_writes t s : only_writes [] (_validate_template_and_artifacts t s).
Proof. unfold _validate_template_and_artifacts. writes. Qed.
Lemma waiting_reason_writes s r now : only_writes [] (_waiting_reason s r now).
Proof. unfold _waiting_reason. writes. Qed.
Lemma lineage_writes t j : only_writes [] (retry_lineage t j).
Proof. unfold retry_lineage. writes. Qed.
Lemma or_else_writes {A} ts (m : Tx A) e : only_writes ts m → only_writes ts (or_else m e).
Proof.
  intros Hm db r db' H. unfold or_else in H. destruct (m db) as [o db1] eqn:Hrun.
  assert (db' = db1) as -> by (by destruct o as [|[]]; injection H). by eapply Hm.
Qed.
#[export] Hint Resolve validate_template_writes waiting_reason_writes lineage_writes : writes.
Lemma lock_retry_checkpoint_writes l t s c sc : only_writes [] (_lock_retry_checkpoint l t s c sc).
Proof. unfold _lock_retry_checkpoint. writes. apply or_else_writes. writes. Qed.
#[export] Hint Resolve lock_retry_checkpoint_writes : writes.
Lemma accepted_response_writes r t j h : only_writes [T_idempotency_records] (accepted_response r t j h).
Proof. unfold accepted_response. writes. Qed.
#[export] Hint Resolve accepted_response_writes : writes.

(** ** Locking a counter *)

Definition counters_in (s : string * string) (db : DB) : list CounterRow :=
  List.filter (scope_row s) (rows db T_admission_counters).

Lemma scope_row_ne s s' c : s ≠ s' → scope_row s c = true → scope_row s' c = false.
Proof.
  destruct s as [a b], s' as [a' b']. unfold scope_row. simpl. rewrite andb_true_iff, !bool_decide_eq_true.
  intros Hne [<- <-]. apply andb_false_iff. rewrite !bool_decide_eq_false. destruct (decide (ac_scope_type c = a')); [|auto].
  right. congruence.
Qed.

Lemma counter_lock_Ret st id db c db' :
  _counter_lock st id db = (Ret c, db') →
  counters_in (st, id) db' = [c] ∧ (∀ s, s ≠ (st, id) → counters_in s db' = counters_in s db) ∧
  (∀ t, t ≠ T_admission_counters → rows db' t = rows db t).
Proof.
  unfold _counter_lock. intros H. apply tx_bind_Ret in H as (u & db1 & Hi & H). tx_step H. apply one_Ret in H as [Hl ->].
  split; [done|]. revert Hi. unfold insert_new. destruct (existsb _ _); intros [= _ <-]; [done|]. split.
  - intros s Hs. unfold counters_in. rewrite put_same, List.filter_app. simpl.
    assert (scope_row s (MkCounterRow st id 0 0 1 None) = false) as ->; [|apply app_nil_r].
    apply (scope_row_ne (st, id)); [done|]. unfold scope_row. simpl. by rewrite !bool_decide_eq_true_2.
  - intros t Ht. by apply put_other.
Qed.

(** ** Admission *)

(** The limits a job was admitted under, and the counters it was checked against. *)
Record admitted (live : Principal) (tenant_id : string) (db db' : DB) (tenant_policy : TenantPolicyRow)
    (global_counter : CounterRow) (user_scope_id : string) : Prop := {
  ad_scope : user_scope_id = tenant_id +:+ ":" +:+ user_text live;
  ad_global : ∃ p, List.filter pv_is_current (rows db T_policy_versions) = [p] ∧ pv_operational_mode p = NORMAL ∧
    ac_outstanding global_counter < pv_global_outstanding_limit p;
  ad_policy : List.filter (λ p, bool_decide (tq_tenant_id p = tenant_id) && tq_is_current p) (rows db T_tenant_policies)
    = [tenant_policy];
  ad_global_counter : counters_in ("GLOBAL", "global") db' = [global_counter];
  ad_tenant_counter : ∃ c, counters_in ("TENANT", tenant_id) db' = [c] ∧ ac_outstanding c < tq_outstanding_limit tenant_policy;
  ad_user_counter : ∃ c, counters_in ("USER", user_scope_id) db' = [c] ∧
    ac_outstanding c < tq_user_outstanding_limit tenant_policy;
  ad_rows : ∀ t, t ∉ [T_admission_counters; T_rate_buckets] → rows db' t = rows db t;
  ad_others : ∀ s, s ∉ [("GLOBAL", "global"); ("TENANT", tenant_id); ("USER", user_scope_id)] →
    counters_in s db' = counters_in s db;
}.

Lemma enforce_storage_reads s t r : reads (enforce_storage s t r).
Proof. unfold enforce_storage, enforce_byte_quota. read_only; done. Qed.

Lemma counters_frame_rows {A} (m : Tx A) ts db r db' s :
  only_writes ts m → T_admission_counters ∉ ts → m db = (r, db') → counters_in s db' = counters_in s db.
Proof. intros Hm Hts H. unfold counters_in. destruct (Hm _ _ _ H) as [Hr _]. by rewrite Hr. Qed.

Lemma admit_Ret storage live tenant_id chk reading t db tp gc us db' :
  _admit storage live tenant_id chk reading t db = (Ret (tp, gc, us), db') → admitted live tenant_id db db' tp gc us.
Proof.
  unfold _admit. intros H. repeat tx_step H. rename x into p, Hl into Hp, Hg into Hmode.
  apply tx_bind_Ret in H as (u & db1 & Hs & H). assert (db1 = db) as ->.
  { destruct chk; [by apply (reads_run _ _ _ _ (enforce_storage_reads storage tenant_id reading)) in Hs|by injection Hs]. }
  repeat tx_step H. destruct Hl as [[_ ->]|(tp' & Htp & ->)]; [done|].
  apply tx_bind_Ret in H as (c1 & dbg & H1 & H). apply counter_lock_Ret in H1 as (Hg1 & Ho1 & Hr1).
  apply tx_bind_Ret in H as (c2 & dbt & H2 & H). apply counter_lock_Ret in H2 as (Hg2 & Ho2 & Hr2).
  cbv zeta in H. apply tx_bind_Ret in H as (c3 & dbu & H3 & H). apply counter_lock_Ret in H3 as (Hg3 & Ho3 & Hr3).
  repeat tx_step H. apply tx_bind_Ret in H as (r1 & dba & Ha & H). apply tx_bind_Ret in H as (r2 & dbb & Hb & H).
  apply tx_mret in H as [[= -> -> ->] ->].
  assert (∀ s, counters_in s dbb = counters_in s dbu) as Hcs.
  { intros s. transitivity (counters_in s dba).
    - eapply counters_frame_rows; [apply rate_lock_writes| |exact Hb]; set_solver.
    - eapply counters_frame_rows; [apply rate_lock_writes| |exact Ha]; set_solver. }
  assert (∀ t, t ∉ [T_admission_counters; T_rate_buckets] → rows dbb t = rows db t) as Hrows.
  { intros t' Ht'. destruct (rate_lock_writes _ _ _ _ _ _ _ _ Ha) as [Hra _], (rate_lock_writes _ _ _ _ _ _ _ _ Hb) as [Hrb _].
    rewrite Hrb, Hra, Hr3, Hr2, Hr1 by set_solver. done. }
  split; [done|..|done|].
  - exists p. split_and!; [done| |lia]. apply bool_decide_eq_false in Hmode. destruct (pv_operational_mode p); set_solver.
  - done.
  - by rewrite Hcs, Ho3, Ho2.
  - exists c2. rewrite Hcs, Ho3 by congruence. split; [done|lia].
  - exists c3. rewrite Hcs. split; [done|lia].
  - intros s Hns. rewrite Hcs, Ho3, Ho2, Ho1 by set_solver. done.
Qed.

(** ** The job that is created *)

(** The tables a new job is written to. *)
Definition job_tables : list table :=
  [T_jobs; T_logical_sessions; T_job_specs; T_artifact_references; T_events; T_admission_counters; T_audit_records].

(** Reads a table through the statements that wrote the database. *)
Lemma draw_rows db t : rows (draw db) t = rows db t.
Proof. done. Qed.
Ltac row_eq :=
  repeat first [ rewrite draw_rows | rewrite put_same | rewrite put_other by discriminate | rewrite modify_same
               | rewrite modify_other by discriminate ].

Record created (live : Principal) (n : NewJob) (tenant_policy : TenantPolicyRow) (ready_sequence : Z)
    (user_scope_id : string) (now : Z) (db db' : DB) : Prop := {
  ct_validated : ∃ template input model,
    _validate_template_and_artifacts (nj_tenant_id n) (nj_spec n) db = (Ret (template, input, model), db);
  ct_cpu : rq_cpu_millis (spec_resources (nj_spec n)) ≤ tq_cpu_limit_millis tenant_policy;
  ct_memory : rq_memory_bytes (spec_resources (nj_spec n)) ≤ tq_memory_limit_bytes tenant_policy;
  ct_gpu : rq_gpu_count (spec_resources (nj_spec n)) ≤ tq_gpu_limit tenant_policy;
  ct_job : ∃ submitter waiting_reason, p_user_id live = Some submitter ∧
    rows db' T_jobs = rows db T_jobs ++ [queued_row n submitter waiting_reason ready_sequence now];
  ct_spec : rows db' T_job_specs = rows db T_job_specs ++ [spec_row n];
  ct_counters : rows db' T_admission_counters =
    (λ r, if counted (nj_tenant_id n) user_scope_id r then bump r else r) <$> rows db T_admission_counters;
  ct_rows : ∀ t, t ∉ job_tables → rows db' t = rows db t;
  ct_ids : new_ids db' = new_ids db ∧ (ids_drawn db ≤ ids_drawn db')%nat;
}.

Lemma validate_template_reads t s : reads (_validate_template_and_artifacts t s).
Proof. unfold _validate_template_and_artifacts, enabled_template. read_only; done. Qed.
Lemma waiting_reason_reads s r now : reads (_waiting_reason s r now).
Proof. unfold _waiting_reason. read_only. Qed.
#[export] Hint Resolve validate_template_reads waiting_reason_reads : reads.

Lemma create_job_writes live n tp gc us now : only_writes job_tables (_create_job live n tp gc us now).
Proof. unfold _create_job. writes. Qed.

Lemma create_job_Ret live n tp gc us now db u db' :
  _create_job live n tp gc us now db = (Ret u, db') → created live n tp (ac_version gc) us now db db'.
Proof.
  intros H. destruct (create_job_writes live n tp gc us now _ _ _ H) as (Hrows & Hids).
  unfold _create_job in H. cbv zeta in H.
  apply tx_bind_Ret in H as ([[template input] model] & db1 & Hv & H).
  pose proof (reads_run _ _ _ _ (validate_template_reads _ _) Hv) as ->. tx_step H. bool_simpl.
  apply tx_bind_Ret in H as (req & db1 & Hreq & H). assert (db1 = db) as -> by (by injection Hreq). clear Hreq.
  apply tx_bind_Ret in H as (why & db1 & Hw & H). pose proof (reads_run _ _ _ _ (waiting_reason_reads _ _ _) Hw) as ->.
  destruct (p_user_id live) as [submitter|] eqn:Hu; [|discriminate H]. tx_step H.
  destruct model as [m|]; repeat tx_step H;
    (split; [by eauto 6|lia..|exists submitter, why; split; [done|]; row_eq; done|row_eq; done|row_eq; done|done|done]).
Qed.

(** ** What validation guarantees *)

(** [n] is within the bound a template declares for [key]. *)
Definition in_bound (declared : list (string * pyval)) (key : string) (n : Z) : Prop :=
  ∃ bound low high, dict_get key declared = Some bound ∧ _integer_bound bound = Ret (low, high) ∧
    (∀ l, low = Some l → l ≤ n) ∧ n ≤ high.

(** A specification within its template's bounds. *)
Definition in_template_bounds (template : TemplateRow) (spec : JobSpec) : Prop :=
  ∃ declared resources, tv_resource_bounds template = VDict declared ∧ get_key "resources" (VDict declared) = VDict resources ∧
    in_bound resources "cpu_millis" (rq_cpu_millis (spec_resources spec)) ∧
    in_bound resources "memory_bytes" (rq_memory_bytes (spec_resources spec)) ∧
    in_bound resources "gpu_count" (rq_gpu_count (spec_resources spec)) ∧
    in_bound declared "runtime_limit_seconds" (spec_runtime_limit_seconds spec) ∧
    in_bound declared "checkpoint_interval_seconds" (spec_checkpoint_interval_seconds spec).

Definition artifact_ids (spec : JobSpec) : list string :=
  spec_input_artifact_id spec :: match spec_model_artifact_id spec with Some m => [m] | None => [] end.

(** The template of a specification is enabled and bounds it, and its artifacts are
    committed artifacts of the tenant. *)
Record validated (tenant_id : string) (spec : JobSpec) (db : DB) : Prop := {
  va_template : ∃ template family, template ∈ rows db T_template_versions ∧ family ∈ rows db T_templates ∧
    tv_template_id template = spec_template_id spec ∧ tv_version template = spec_template_version spec ∧
    tf_template_id family = spec_template_id spec ∧ tf_enabled family = true ∧ in_template_bounds template spec;
  va_artifacts : ∀ id, id ∈ artifact_ids spec → ∃ a, a ∈ rows db T_artifacts ∧ a_artifact_id a = id ∧
    a_tenant_id a = tenant_id ∧ a_state a = "COMMITTED";
}.

Lemma within_bound_Ret declared key n e u : within_bound declared key n e = Ret u → in_bound declared key n.
Proof.
  unfold within_bound. rewrite bind_Ret. intros (bound & Hb & H). apply or_raise_Ret in Hb.
  rewrite bind_Ret in H. destruct H as ([low high] & Hi & H). apply raise_when_Ret, orb_false_iff in H as [Hlo Hhi].
  exists bound, low, high. split_and!; [done..| |lia]. intros l ->. lia.
Qed.

Lemma resource_bounds_Ret template spec u : _validate_resource_bounds template spec = Ret u → in_template_bounds template spec.
Proof.
  unfold _validate_resource_bounds. destruct (tv_resource_bounds template) as [| | | | | |declared] eqn:Hd; try discriminate.
  destruct (get_key "resources" (VDict declared)) as [| | | | | |resources] eqn:Hr; try discriminate. intros H.
  repeat (rewrite bind_Ret in H; destruct H as (? & ?%within_bound_Ret & H)). apply within_bound_Ret in H.
  exists declared, resources. by split_and!.
Qed.

Lemma NoDup_remove_dups_length {A} `{EqDecision A} (l l' : list A) :
  l ⊆ l' → length (remove_dups l) = length (remove_dups l') → l' ⊆ l.
Proof.
  intros Hsub Hlen. assert (remove_dups l ⊆+ remove_dups l') as Hs.
  { apply NoDup_submseteq; [apply NoDup_remove_dups|]. intros x. rewrite !elem_of_remove_dups. apply Hsub. }
  apply submseteq_length_Permutation in Hs; [|lia]. intros x Hx. apply elem_of_remove_dups. rewrite Hs.
  by apply elem_of_remove_dups.
Qed.

Lemma validate_template_Ret tenant_id spec db x db' :
  _validate_template_and_artifacts tenant_id spec db = (Ret x, db') → validated tenant_id spec db.
Proof.
  unfold _validate_template_and_artifacts, enabled_template. intros H.
  apply tx_bind_Ret in H as (template & db1 & Ht & H). tx Ht.
  destruct Hl as [[_ ->]|(tv & Hj & ->)]; [discriminate Ht|]. tx_step Ht.
  apply tx_bind_Ret in H as (u & db1 & Hs & H). assert (db1 = db) as -> by (by injection Hs). clear Hs.
  cbv zeta in H. repeat tx_step H. apply negb_false_iff, Nat.eqb_eq in Hg.
  destruct (artifact_of _ _) as [input|]; [|discriminate H]. tx_step H.
  destruct (template_descriptor tv) as [adapter|]; [|discriminate H]. repeat tx_step H.
  apply tx_bind_Ret in H as (u' & db1 & Hb & H). injection Hb as Hb <-. apply resource_bounds_Ret in Hb. split.
  - assert (tv ∈ [tv]) as Hin by set_solver. rewrite <- Hj in Hin. apply list_elem_of_join in Hin as (l & Hin & Hl).
    apply list_elem_of_fmap in Hl as (f & -> & Hf). apply elem_of_List_filter in Hf as [Hf Hfin], Hin as [Htv Htin].
    bool_simpl. exists tv, f. by split_and!.
  - fold (artifact_ids spec) in Hg. intros id Hid.
    apply (NoDup_remove_dups_length (a_artifact_id <$> List.filter (committed tenant_id (artifact_ids spec)) (rows db T_artifacts)))
      in Hid; [|intros y (a & -> & Ha)%list_elem_of_fmap; apply elem_of_List_filter in Ha as [Ha _];
                 unfold committed in Ha; by bool_simpl|exact Hg].
    apply list_elem_of_fmap in Hid as (a & -> & Ha). apply elem_of_List_filter in Ha as [Ha Hin].
    unfold committed in Ha. bool_simpl. eauto 6.
Qed.

(** ** Submissions *)

Lemma counters_bumped tenant_id us s db db' :
  rows db' T_admission_counters = (λ r, if counted tenant_id us r then bump r else r) <$> rows db T_admission_counters →
  counters_in s db' = (λ r, if counted tenant_id us r then bump r else r) <$> counters_in s db.
Proof.
  intros Hr. unfold counters_in. rewrite Hr. clear Hr. induction (rows db T_admission_counters) as [|r l IH]; [done|]. cbn.
  assert (scope_row s (if counted tenant_id us r then bump r else r) = scope_row s r) as -> by (by destruct (counted _ _ r)).
  destruct (scope_row s r); cbn; rewrite IH; done.
Qed.

Lemma counters_in_scope s db c : c ∈ counters_in s db → scope_row s c = true.
Proof. unfold counters_in. by intros [H _]%elem_of_List_filter. Qed.

(** One place is taken in each of the three scopes of the job, within the limits of
    the policies it was admitted under, and none anywhere else. *)
Record takes_place (tenant_id submitter : string) (db db' : DB) : Prop := {
  tp_global : ∃ p c, List.filter pv_is_current (rows db T_policy_versions) = [p] ∧ pv_operational_mode p = NORMAL ∧
    counters_in ("GLOBAL", "global") db' = [bump c] ∧ ac_outstanding c + 1 ≤ pv_global_outstanding_limit p;
  tp_tenant : ∃ tp c u,
    List.filter (λ p, bool_decide (tq_tenant_id p = tenant_id) && tq_is_current p) (rows db T_tenant_policies) = [tp] ∧
    counters_in ("TENANT", tenant_id) db' = [bump c] ∧ ac_outstanding c + 1 ≤ tq_outstanding_limit tp ∧
    counters_in ("USER", tenant_id +:+ ":" +:+ submitter) db' = [bump u] ∧ ac_outstanding u + 1 ≤ tq_user_outstanding_limit tp;
  tp_others : ∀ s, s ∉ [("GLOBAL", "global"); ("TENANT", tenant_id); ("USER", tenant_id +:+ ":" +:+ submitter)] →
    counters_in s db' = counters_in s db;
}.

(** A job created under an admission. *)
Record accepted_job (n : NewJob) (now : Z) (db db' : DB) : Prop := {
  aj_place : ∃ submitter waiting_reason ready_sequence, takes_place (nj_tenant_id n) submitter db db' ∧
    rows db' T_jobs = rows db T_jobs ++ [queued_row n submitter waiting_reason ready_sequence now];
  aj_spec : rows db' T_job_specs = rows db T_job_specs ++ [spec_row n];
  aj_limits : ∃ tp, List.filter (λ p, bool_decide (tq_tenant_id p = nj_tenant_id n) && tq_is_current p) (rows db T_tenant_policies)
      = [tp] ∧ rq_cpu_millis (spec_resources (nj_spec n)) ≤ tq_cpu_limit_millis tp ∧
    rq_memory_bytes (spec_resources (nj_spec n)) ≤ tq_memory_limit_bytes tp ∧
    rq_gpu_count (spec_resources (nj_spec n)) ≤ tq_gpu_limit tp;
  aj_validated : validated (nj_tenant_id n) (nj_spec n) db;
}.

(** The tables an admission and the records of the request write to. *)
Definition request_tables : list table := [T_idempotency_records; T_rate_buckets; T_checkpoint_references].

Lemma counted_one s tenant us c l db db1 :
  rows db1 T_admission_counters = (λ r, if counted tenant us r then bump r else r) <$> rows db T_admission_counters →
  s ∈ [("GLOBAL", "global"); ("TENANT", tenant); ("USER", us)] → counters_in s db = c :: l → l = [] →
  counters_in s db1 = [bump c].
Proof.
  intros Hb Hs Hc ->. rewrite (counters_bumped _ _ _ _ _ Hb), Hc. cbn.
  assert (scope_row s c = true) as Hsc by (apply (counters_in_scope s db); rewrite Hc; set_solver).
  assert (counted tenant us c = true) as ->; [|done]. unfold counted. rewrite !orb_true_iff. set_solver.
Qed.

Lemma counted_other s tenant us db db1 :
  rows db1 T_admission_counters = (λ r, if counted tenant us r then bump r else r) <$> rows db T_admission_counters →
  s ∉ [("GLOBAL", "global"); ("TENANT", tenant); ("USER", us)] → counters_in s db1 = counters_in s db.
Proof.
  intros Hb Hs. rewrite (counters_bumped _ _ _ _ _ Hb). rewrite <- (list_fmap_id (counters_in s db)) at 2.
  apply list_fmap_ext. intros i c Hi. apply list_elem_of_lookup_2, counters_in_scope in Hi.
  assert (counted tenant us c = false) as ->; [|done]. unfold counted.
  rewrite !(scope_row_ne s) by (done || set_solver). done.
Qed.

(** The body shared by [submit] and [retry_failed_job]: an admission, reads, a new job
    and its response. *)
Lemma accepted_run live n tp gc us now db0 db1 db2 db3 db' :
  (∀ t, t ∉ request_tables → rows db1 t = rows db0 t) →
  admitted live (nj_tenant_id n) db1 db2 tp gc us → created live n tp (ac_version gc) us now db2 db3 →
  (∀ t, t ∉ request_tables → rows db' t = rows db3 t) → accepted_job n now db0 db'.
Proof.
  intros H01 [-> (p & Hp & Hm & Hg) Htp Hgc (ct & Hct & Hctl) (cu & Hcu & Hcul) Hrows Hoth] Hcr H3.
  destruct Hcr as [(template & input & model & Hv) Hcpu Hmem Hgpu (u & why & Hu & Hjob) Hspec Hcnt Hother _].
  assert (∀ t, t ∉ T_admission_counters :: request_tables → rows db2 t = rows db0 t) as H02.
  { intros t Ht. rewrite Hrows, H01 by (unfold request_tables in *; set_solver). done. }
  assert (user_text live = u) as Hut by (unfold user_text; by rewrite Hu). rewrite Hut in *.
  assert (∀ s, counters_in s db' = counters_in s db3) as Hc'.
  { intros s. unfold counters_in. rewrite H3; [done|]. unfold request_tables. set_solver. }
  rewrite H01 in Hp, Htp by (unfold request_tables; set_solver). split.
  - exists u, why, (ac_version gc). split.
    + split.
      * exists p, gc. split_and!; [done..| |lia]. rewrite Hc'. eapply counted_one; [done| |done..]. set_solver.
      * exists tp, ct, cu. split_and!; [done| |lia| |lia]; rewrite Hc'; (eapply counted_one; [done| |done..]; set_solver).
      * intros s Hs. rewrite Hc', (counted_other _ _ _ _ _ Hcnt Hs), Hoth by done. unfold counters_in.
        rewrite H01; [done|]. unfold request_tables. set_solver.
    + rewrite H3, Hjob, H02 by (unfold request_tables; set_solver). done.
  - rewrite H3, Hspec, H02 by (unfold request_tables; set_solver). done.
  - by exists tp.
  - apply validate_template_Ret in Hv as [(tv & f & Ht & Hf & ?) Ha]. rewrite H02 in Ht, Hf by (unfold request_tables; set_solver).
    split; [by exists tv, f|]. intros id Hid. destruct (Ha id Hid) as (a & Hin & ?). rewrite H02 in Hin by (unfold request_tables; set_solver).
    eauto.
Qed.

Section submit.
Context (settings : JobSettings) (storage : StorageSettings) (jcs_request_hash : pyval → string)
  (uuid7 : pyval → option string).

Definition submit_tables : list table :=
  T_jobs :: List.filter (λ t, negb (bool_decide (t ∈ [T_policy_versions; T_tenant_policies; T_workers; T_worker_inventories])))
    unseen_tables.

Lemma admit_writes live t chk r ti : only_writes [T_admission_counters; T_rate_buckets] (_admit storage live t chk r ti).
Proof. unfold _admit. writes. Qed.
Hint Resolve admit_writes create_job_writes : writes.
Lemma submit_writes q j s r t : only_writes submit_tables (submit settings storage jcs_request_hash q j s r t).
Proof. unfold submit. writes. Qed.
Lemma retry_failed_writes q j s sc t : only_writes submit_tables (retry_failed_job settings storage uuid7 q j s sc t).
Proof. unfold retry_failed_job. writes. Qed.

(** A call that only writes records of the request. *)
Lemma request_frame {A} (m : Tx A) db r db' :
  only_writes request_tables m → m db = (r, db') → ∀ t, t ∉ request_tables → rows db' t = rows db t.
Proof. intros Hm H. apply (Hm _ _ _ H). Qed.

Lemma begin_frame k h e w db o db' :
  begin_idempotency k h e w db = (o, db') → ∀ t, t ∉ request_tables → rows db' t = rows db t.
Proof. apply request_frame. eapply only_writes_weaken; [|apply begin_writes]. unfold request_tables. set_solver. Qed.

Lemma response_frame r t j h db o db' :
  accepted_response r t j h db = (o, db') → ∀ t, t ∉ request_tables → rows db' t = rows db t.
Proof. apply request_frame. eapply only_writes_weaken; [|apply accepted_response_writes]. unfold request_tables. set_solver. Qed.

Lemma submit_Ret q job_id session_id reading t db r db' :
  submit settings storage jcs_request_hash q job_id session_id reading t db = (Ret r, db') →
  (∃ replay, r = replayed replay ∧ ∀ t, t ∉ request_tables → rows db' t = rows db t) ∨
  accepted_job (submitted_job jcs_request_hash q job_id session_id) (st_started t) db db'.
Proof.
  unfold submit. intros H. apply tx_bind_Ret in H as (live & db0 & Hl & H).
  apply (reads_run _ _ _ _ (authorize_reads _ _ _ _ _)) in Hl as ->.
  apply tx_bind_Ret in H as (o & db1 & Hb & H). pose proof (begin_frame _ _ _ _ _ _ _ Hb) as Hb'.
  destruct (io_replay o) as [replay|].
  { apply tx_mret in H as [[= ->] ->]. left. eauto. }
  right. apply tx_bind_Ret in H as ([[tp gc] us] & db2 & Ha & H). apply admit_Ret in Ha.
  apply tx_bind_Ret in H as (u & db3 & Hc & H). apply create_job_Ret in Hc.
  eapply accepted_run; [exact Hb'|exact Ha|exact Hc|exact (response_frame _ _ _ _ _ _ _ H)].
Qed.


Lemma lock_retry_checkpoint_reads l t s c sc : reads (_lock_retry_checkpoint l t s c sc).
Proof.
  unfold _lock_retry_checkpoint, retry_lineage, or_else, _visible_submitter. read_only; try done.
  intros db. match goal with |- context [match ?m db with _ => _ end] => assert (reads m) as Hm by (read_only; done) end.
  specialize (Hm db). by destruct (_ db) as [[|[]] ?].
Qed.

(** What a retry starts from: a failed job of the tenant and its specification. *)
Record retried (q : RetryRequest) (db : DB) (source : JobRow) (source_spec : SpecRow) : Prop := {
  rd_source : source ∈ rows db T_jobs;
  rd_id : j_job_id source = ry_job_id q;
  rd_tenant : j_tenant_id source = ry_tenant_id q;
  rd_failed : j_state source = JS_FAILED;
  rd_spec : source_spec ∈ rows db T_job_specs;
  rd_spec_id : sp_job_id source_spec = ry_job_id q;
}.

Lemma retry_failed_Ret q job_id session_id scan t db r db' :
  retry_failed_job settings storage uuid7 q job_id session_id scan t db = (Ret r, db') →
  (∃ replay, r = replayed replay ∧ ∀ t, t ∉ request_tables → rows db' t = rows db t) ∨
  ∃ source source_spec spec, retried q db source source_spec ∧
    model_validate uuid7 (sp_canonical_spec source_spec) = Some spec ∧
    accepted_job (retried_job q job_id session_id spec source_spec) (st_started t) db db'.
Proof.
  unfold retry_failed_job. cbv zeta. intros H. apply tx_bind_Ret in H as (live & db0 & Hl & H).
  apply (reads_run _ _ _ _ (authorize_reads _ _ _ _ _)) in Hl as ->.
  apply tx_bind_Ret in H as (sub & db0 & Hl & H).
  assert (db0 = db) as -> by (eapply reads_run; [|exact Hl]; unfold _visible_submitter; by read_only). clear Hl.
  apply tx_bind_Ret in H as (o & db1 & Hb & H). pose proof (begin_frame _ _ _ _ _ _ _ Hb) as Hb'.
  destruct (io_replay o) as [replay|].
  { apply tx_mret in H as [[= ->] ->]. left. eauto. }
  right. apply tx_bind_Ret in H as (expected & db0 & He & H). assert (db0 = db1) as -> by (by injection He). clear He.
  apply tx_bind_Ret in H as ([[tp gc] us] & db2 & Ha & H). apply admit_Ret in Ha. repeat tx_step H.
  rename x into source, x0 into source_spec, Hl into Hsrc, Hl0 into Hspec, Hg0 into Hst.
  apply tx_bind_Ret in H as (u & db3 & Hck & H). assert (db3 = db2) as ->.
  { destruct (ry_checkpoint_id q); [by apply (reads_run _ _ _ _ (lock_retry_checkpoint_reads _ _ _ _ _)) in Hck|by injection Hck]. }
  destruct (model_validate _ _) as [spec|] eqn:Hmv; [|discriminate H].
  apply tx_bind_Ret in H as (u1 & db3 & Hc & H). apply create_job_Ret in Hc.
  apply tx_bind_Ret in H as (u2 & db4 & Hcr & H).
  assert (∀ t, t ∉ request_tables → rows db4 t = rows db3 t) as H34.
  { destruct (ry_checkpoint_id q); [|by injection Hcr as _ <-]. apply tx_insert in Hcr as [_ ->].
    intros t' Ht'. apply put_other. unfold request_tables in Ht'. set_solver. }
  exists source, source_spec, spec.
  assert (∀ t, t ∉ T_admission_counters :: request_tables → rows db2 t = rows db t) as H02.
  { intros t' Ht'. rewrite (ad_rows _ _ _ _ _ _ _ Ha), Hb' by (unfold request_tables in *; set_solver). done. }
  split_and!; [|done|].
  - apply filter_one in Hsrc as [Hin Hof], Hspec as [Hsin Hsid]. rewrite H02 in Hin, Hsin by (unfold request_tables; set_solver).
    unfold of_job, is_job in Hof. bool_simpl. by split.
  - eapply accepted_run; [exact Hb'|exact Ha|exact Hc|].
    intros t' Ht'. rewrite (response_frame _ _ _ _ _ _ _ H), H34 by done. done.
Qed.

(** C39: A retry runs what failed: the job a retry creates has the specification of the
    failed job it was asked to retry, as it was first submitted, and is linked to it;
    it is admitted like any submission. *)
Theorem retry_resubmits q job_id session_id scan t spec db r db' :
  retry_failed_job settings storage uuid7 q job_id session_id scan t db = (Ret r, db') →
  (∀ s, s ∈ rows db T_job_specs → sp_job_id s = ry_job_id q → sp_canonical_spec s = model_dump spec) →
  spec_ok spec → ids_canonical uuid7 spec →
  (∃ replay, r = replayed replay ∧ ∀ t, t ∉ request_tables → rows db' t = rows db t) ∨
  ∃ source source_spec, retried q db source source_spec ∧
    accepted_job (retried_job q job_id session_id spec source_spec) (st_started t) db db'.
Proof.
  intros H Hspec Hok Hid. destruct (retry_failed_Ret _ _ _ _ _ _ _ _ H) as [?|(src & ss & spec' & Hr & Hv & Ha)]; [by left|].
  right. exists src, ss. split; [done|]. destruct Hr as [_ _ _ _ Hin Hsid]. rewrite (Hspec ss Hin Hsid) in Hv.
  rewrite dumped_spec_validates in Hv by done. by injection Hv as <-.
Qed.

(** ** Submissions are steps of the system *)

Lemma request_rows_view db db' :
  (∀ t, t ∉ request_tables → rows db' t = rows db t) → view db' = view db.
Proof. intros H. unfold view. by rewrite !H by (unfold request_tables; set_solver). Qed.

Lemma submit_grown {A} (m : Tx A) db r db' : only_writes submit_tables m → m db = (r, db') → grown db db'.
Proof.
  intros Hm H. destruct (Hm _ _ _ H) as (Hr & Hn & Hd). eapply grown_same; [apply grown_refl|done..|].
  unfold used_ids. rewrite !Hr by tables. done.
Qed.

Lemma accepted_is_step sha256 {A} (m : Tx A) n now db r db' :
  m db = (r, db') → only_writes submit_tables m → accepted_job n now db db' →
  nj_job_id n ∉ j_job_id <$> rows db T_jobs → sys_step sha256 settings db db'.
Proof.
  intros H Hm [(u & why & ready & _ & Hjob) _ _ _] Hid. eapply (sys_submit _ _ _ (queued_row n u why ready now)).
  - done.
  - destruct (Hm _ _ _ H) as [Hr _]. unfold view. rewrite put_same, Hjob, !put_other, !Hr by (done || tables). done.
  - by eapply submit_grown.
Qed.

(** C17: A submission under a fresh identifier is a step of the system, so that what
    [System] proves of every reachable database holds after it. *)
Theorem submission_is_step sha256 q job_id session_id reading t db r db' :
  submit settings storage jcs_request_hash q job_id session_id reading t db = (Ret r, db') →
  job_id ∉ j_job_id <$> rows db T_jobs → sys_step sha256 settings db db'.
Proof.
  intros H Hid. pose proof (submit_writes q job_id session_id reading t) as Hw.
  destruct (submit_Ret _ _ _ _ _ _ _ _ H) as [(replay & _ & Hrows)|Ha].
  - apply sys_unseen; [by apply request_rows_view|by eapply submit_grown].
  - by eapply accepted_is_step.
Qed.

Lemma retry_is_step sha256 q job_id session_id scan t db r db' :
  retry_failed_job settings storage uuid7 q job_id session_id scan t db = (Ret r, db') →
  job_id ∉ j_job_id <$> rows db T_jobs → sys_step sha256 settings db db'.
Proof.
  intros H Hid. pose proof (retry_failed_writes q job_id session_id scan t) as Hw.
  destruct (retry_failed_Ret _ _ _ _ _ _ _ _ H) as [(replay & _ & Hrows)|(src & ss & spec & _ & _ & Ha)].
  - apply sys_unseen; [by apply request_rows_view|by eapply submit_grown].
  - by eapply accepted_is_step.
Qed.
End submit.

(** ** A sample: a CPU job is submitted, fails, and is retried *)

Definition sample_spec : JobSpec :=
  {| spec_template_version := 1; spec_input_artifact_id := "input";
     spec_resources := {| rq_cpu_millis := 500; rq_memory_bytes := 67108864; rq_gpu_count := 0 |};
     spec_priority := 1; spec_runtime_limit_seconds := 60; spec_checkpoint_interval_seconds := 5;
     spec_body := CpuJobSpec 1000 1 97 |}.

Definition sample_digest : string := "sha256:image".
Definition sample_template : TemplateRow :=
  MkTemplateRow "cpu-iterative" 1
    (VDict [("architectures", VList [VStr "linux/amd64"]); ("adapter_id", VStr "cpu.iterative");
            ("adapter_version", VStr "1.0.0"); ("image_digest", VStr sample_digest); ("device", VStr "CPU");
            ("framework", VStr "NEXA_CPU"); ("framework_version", VStr "1.0.0"); ("cuda_runtime_min", VNone);
            ("driver_min", VNone); ("compute_capability_min", VNone)])
    "cpu.iterative" "1.0.0" sample_digest true true
    (VList [VDict [("name", VStr "iterations"); ("type", VStr "INTEGER"); ("minimum", VInt 1); ("maximum", VInt 100000)];
            VDict [("name", VStr "seed"); ("type", VStr "INTEGER")];
            VDict [("name", VStr "modulus"); ("type", VStr "INTEGER"); ("required", VBool false)]])
    (VDict [("resources", VDict [("cpu_millis", VDict [("min", VInt 100); ("max", VInt 4000)]);
                                 ("memory_bytes", VInt 1073741824); ("gpu_count", VInt 0)]);
            ("runtime_limit_seconds", VInt 300); ("checkpoint_interval_seconds", VDict [("minimum", VInt 5); ("maximum", VInt 60)])]).

Definition sample_job_db : DB :=
  set_rows T_templates [MkTemplateFamilyRow "cpu-iterative" true]
  (set_rows T_template_versions [sample_template]
  (set_rows T_artifacts
     [MkArtifact "input" "tenant" "COMMITTED" "INPUT" "application/vnd.nexa.cpu-iterative-input+json" 10 "sha256:x" "blob"]
  (set_rows T_tenant_policies
     [MkTenantPolicyRow "tenant" 1 (Finite 1 0) 8000 1073741824 0 true 2 1 2 1 (Finite 5 0) (Finite 20 0) (Finite 2 0) (Finite 10 0)]
     sample_identity_db))).

Definition sample_submit : SubmitRequest :=
  {| sq_principal := sample_browser; sq_tenant_id := "tenant"; sq_spec := sample_spec;
     sq_idempotency_key := "0123456789abcdef"; sq_request_hash := sample_hash |}.
Definition sample_times : SubmitTimes := {| st_checked := 1; st_started := 1; st_tenant_rate := 2; st_user_rate := 3 |}.
Definition sample_storage : StorageSettings :=
  {| ss_high_watermark := 85; ss_critical_watermark := 95; ss_tenant_quota_bytes := 1000000 |}.
Definition sample_reading : option Reading := Some (read_storage (Some (1000, 400))).
Definition sample_jcs (v : pyval) : string := "sha256:spec".
Local Notation sample_submitted :=
  (submit system_settings sample_storage sample_jcs sample_submit "job-1" "session-1" sample_reading sample_times
     sample_job_db).

Lemma sample_submitted_run : ∃ r, sample_submitted = (Ret r, sample_submitted.2).
Proof. eexists. apply ret_of. vm_compute. reflexivity. Qed.


(** The sample job after it failed for good. *)
Definition sample_new_job : NewJob := submitted_job sample_jcs sample_submit "job-1" "session-1".
Definition sample_failed_db : DB :=
  set_rows T_jobs [(queued_row sample_new_job "user" None 1 1) <| j_state := JS_FAILED |> <| j_version := 6 |>]
  (set_rows T_job_specs [spec_row sample_new_job] sample_job_db).
Definition sample_retry : RetryRequest :=
  {| ry_principal := sample_browser; ry_tenant_id := "tenant"; ry_job_id := "job-1"; ry_reason := "try again";
     ry_checkpoint_id := None; ry_idempotency_key := "0123456789abcdef"; ry_request_hash := sample_hash;
     ry_if_match := Some (etag 6) |}.
Definition sample_uuid7 (v : pyval) : option string := match v with VStr s => Some s | _ => None end.
Local Notation sample_retried :=
  (retry_failed_job system_settings sample_storage sample_uuid7 sample_retry "job-2" "session-2" ScanSkip sample_times
     sample_failed_db).

Lemma sample_retried_run : ∃ r, sample_retried = (Ret r, sample_retried.2).
Proof. eexists. apply ret_of. vm_compute. reflexivity. Qed.

Lemma sample_spec_ok : spec_ok sample_spec.
Proof. split; cbn; unfold resources_ok, body_ok, MAX_INT31; cbn; lia. Qed.
Lemma sample_specs_canonical s :
  s ∈ rows sample_failed_db T_job_specs → sp_job_id s = "job-1" → sp_canonical_spec s = model_dump sample_spec.
Proof.
  unfold sample_failed_db. rewrite set_rows_other, set_rows_same by done. intros ->%list_elem_of_singleton _. done.
Qed.

(** The failed sample job is retried. *)
Lemma retry_resubmits_witness :
  ∃ r, sample_retried = (Ret r, sample_retried.2) ∧
  ((∃ replay, r = replayed replay ∧ ∀ t, t ∉ request_tables → rows sample_retried.2 t = rows sample_failed_db t) ∨
   ∃ source source_spec, retried sample_retry sample_failed_db source source_spec ∧
     accepted_job (retried_job sample_retry "job-2" "session-2" sample_spec source_spec) (st_started sample_times)
       sample_failed_db sample_retried.2).
Proof.
  destruct sample_retried_run as [r H]. exists r. split; [exact H|]. apply (retry_resubmits _ _ _ _ _ _ _ _ _ _ _ _ H sample_specs_canonical sample_spec_ok).
  split; [done|intros m [=]].
Defined.

(** The sample submission is a step of the system. *)
Lemma submission_is_step_witness :
  ∃ r, sample_submitted = (Ret r, sample_submitted.2) ∧
  sys_step (λ _, "sha256:x") system_settings sample_job_db sample_submitted.2.
Proof.
  destruct sample_submitted_run as [r H]. exists r. split; [exact H|]. apply (submission_is_step _ _ _ _ _ _ _ _ _ _ _ _ H).
  apply (bool_decide_eq_true_1 _). by vm_compute.
Defined.
