(* ===== verification/Ticks.v ===== *)
(** * What a tick may do

    The coordinator over the database: a committed dispatch never overcommits the
    worker or a tenant, and nothing of the coordinator writes while writes are
    frozen. *)

From Stdlib Require Import Ascii.
From stdpp Require Import pretty.
From S2P Require Import Prelude PyDecimal Scheduling Accounting Policy PyValue Json Strict Leadership Database Sorting Ledger Windows.
From S2P Require Import Authority Capabilities Eligibility Dispatch Cleanup Retry Snapshot Coordinator View Lifecycle.
From S2P Require Import Security Identity JobSpecs Admission Submission.

Local Open Scope string_scope.
Local Open Scope list_scope.
Local Open Scope Z_scope.

(** ** What a snapshot holds *)

(** A row of the queue of a tenant. *)
Record in_queue (jobs : list JobRow) (specs : list SpecRow) (tenant : string) (r : QueueRow) : Prop := {
  qw_job : qr_job r ∈ jobs;
  qw_spec : qr_spec r ∈ specs;
  qw_ids : j_job_id (qr_job r) = sp_job_id (qr_spec r);
  qw_tenant : j_tenant_id (qr_job r) = tenant;
  qw_state : j_state (qr_job r) = JS_QUEUED;
}.

Lemma elem_take_sorted {A} (leb : A → A → bool) n l x : x ∈ take n (py_sorted leb l) → x ∈ l.
Proof. intros (i & Hi & _)%elem_of_take. by apply list_elem_of_lookup_2, py_sorted_elem in Hi. Qed.

Lemma head_sorted {A} (leb : A → A → bool) l x : head (py_sorted leb l) = Some x → x ∈ l.
Proof. intros H. apply (py_sorted_elem leb). destruct (py_sorted leb l); [done|]. injection H as ->. set_solver. Qed.

(** Follows an element through the lists it was taken from. *)
Ltac chase H :=
  lazymatch type of H with
  | _ ∈ take _ (py_sorted _ _) => apply elem_take_sorted in H; chase H
  | _ ∈ List.filter _ _ => apply elem_of_List_filter in H as [_ H]; chase H
  | _ ∈ _ <$> _ => apply list_elem_of_fmap in H as (? & -> & H); chase H
  | _ ∈ mjoin _ =>
      let l := fresh "l" in let Hl := fresh "Hl" in
      apply list_elem_of_join in H as (l & H & Hl);
      lazymatch type of Hl with
      | _ ∈ _ ++ _ => apply elem_of_app in Hl as [Hl|Hl]
      | _ => idtac
      end;
      (lazymatch type of Hl with
       | _ ∈ _ <$> _ => apply list_elem_of_fmap in Hl as (? & -> & Hl)
       | _ => apply list_elem_of_singleton in Hl as ->
       end); chase H
  | _ => idtac
  end.

Lemma head_take_sorted {A} (leb : A → A → bool) n l x : head (take n (py_sorted leb l)) = Some x → x ∈ l.
Proof. intros H. destruct (take n (py_sorted leb l)) as [|y t] eqn:E; [done|]. injection H as ->.
  eapply elem_take_sorted. rewrite E. set_solver. Qed.

Lemma head_elem {A} (l : list A) x : head l = Some x → x ∈ l.
Proof. destruct l; [done|]. intros [= ->]. set_solver. Qed.

Section rows.
Context (jobs : list JobRow) (specs : list SpecRow) (now : Z) (compatible : list (string * Z)).

Lemma base_queued d r : r ∈ batch_base jobs specs now compatible d → in_queue jobs specs (qd_tenant_id d) r.
Proof.
  intros (Hj & Hs & Hid & Hw & _)%joined_elem. unfold selects in Hw. rewrite !andb_true_iff, !bool_decide_eq_true in Hw.
  by split; try apply Hw.
Qed.

Lemma batch_rows d r :
  r ∈ w_row <$> (batch_window jobs specs now compatible d).1 ∨ (batch_window jobs specs now compatible d).2 = Some r →
  in_queue jobs specs (qd_tenant_id d) r.
Proof.
  intros H. apply base_queued. destruct H as [H|H].
  - change (r ∈ w_row <$> batch_normal jobs specs now compatible d) in H. unfold batch_normal in H. chase H.
    unfold batch_branch in H. by chase H.
  - change (head (batch_oldest jobs specs now compatible d) = Some r) in H. unfold batch_oldest in H.
    destruct (qd_resume_at d); apply head_take_sorted in H; [|done]. by chase H.
Qed.

Lemma window_row query priorities resume_at tenant users cursor r :
  let w := _window_rows jobs query now priorities resume_at tenant users cursor in
  r ∈ w.1 ∨ w.2 = Some r → r ∈ query.
Proof.
  assert (∀ after, let w := fetch jobs query now priorities resume_at tenant users after in
    r ∈ w.1 ∨ w.2 = Some r → r ∈ query) as Hf.
  { intros after w H. unfold w, fetch in H. clear w. set (l := fetch_result jobs query now priorities resume_at tenant users after) in *.
    assert (∃ x, r = w_row x ∧ x ∈ l) as (x & -> & Hx).
    { destruct H as [H|H]; simpl in H; [chase H; eauto|].
      destruct (head (List.filter w_is_oldest l)) as [x|] eqn:E; [|done]. injection H as <-. exists x. split; [done|].
      by apply head_elem, elem_of_List_filter in E as [_ E]. }
    apply py_sorted_elem in Hx. apply elem_of_app in Hx as [Hx|Hx].
    - chase Hx. unfold branch, with_age in Hx. repeat (case_match; try chase Hx); cbn; try done; set_solver.
    - chase Hx. cbn. unfold oldest_branch in Hx. destruct resume_at; chase Hx; done. }
  cbv zeta. unfold _window_rows. destruct cursor as [c|]; [|apply (Hf None)].
  destruct (fetch _ _ _ _ _ _ _ (Some c)) as [[|x l] o] eqn:E; [apply (Hf None)|].
  specialize (Hf (Some c)). by rewrite E in Hf.
Qed.

Lemma batched_rows ds key w :
  find_key key (_batched_window_rows jobs specs now compatible ds) = Some w →
  ∃ d, d ∈ ds ∧ descriptor_key d = key ∧ w = batch_window jobs specs now compatible d.
Proof.
  unfold find_key. destruct (head _) as [[k w']|] eqn:E; [|done]. cbn. intros [= <-].
  apply head_elem, elem_of_List_filter in E as [Hk E]. apply bool_decide_eq_true in Hk. cbn in Hk. subst k.
  unfold _batched_window_rows in E. destruct ds as [|d0 ds], compatible as [|c0 cs]; set_solver.
Qed.

Lemma find_key_app {A} key (l l' : list (WindowKey * A)) w :
  find_key key (l ++ l') = Some w → find_key key l = Some w ∨ find_key key l' = Some w.
Proof. unfold find_key. rewrite List.filter_app. destruct (List.filter _ l); [by right|by left]. Qed.

(** What [prepare] makes of a tenant's policy. *)
Record prepared_ok (counters : list CounterRow) (p : Prepared) : Prop := {
  po_active : pr_tenant_active p = active_attempts_of counters ("TENANT", tq_tenant_id (pr_limit p));
  po_query : ∀ r, r ∈ pr_query p → in_queue jobs specs (tq_tenant_id (pr_limit p)) r;
}.

Lemma prepare_Ret counters tenants held submitters headroom sizes capacity pending cursors limit p :
  prepare now jobs specs counters tenants held submitters headroom sizes compatible capacity pending cursors limit = Ret p →
  pr_limit p = limit ∧ prepared_ok counters p.
Proof.
  unfold prepare. destruct (fit_limits _ _ _) as [mc mm].
  destruct (match _populated_cells _ _ _ with [] => _ | _ => _ end) as [bounds qr]. destruct (last _) as [tenant|]; [|done].
  intros [= <-]. split; [done|]. split; [done|]. cbn. intros r (Hj & Hs & Hid & Hw & _)%joined_elem.
  rewrite !andb_true_iff in Hw. destruct Hw as [[[Hw _] _] _]. unfold base_where in Hw. destruct bounds as [[[a b] c] d].
  rewrite !andb_true_iff, !bool_decide_eq_true in Hw. by split; try apply Hw.
Qed.

Lemma found_rows ds k w r :
  find_key k (read_groups now jobs specs compatible ds) = Some w → r ∈ w_row <$> w.1 ∨ w.2 = Some r → in_queue jobs specs k.1 r.
Proof.
  intros Hw Hr. unfold read_groups in Hw. apply find_key_app in Hw as [Hw|Hw];
    apply batched_rows in Hw as (d & _ & <- & ->); by apply batch_rows.
Qed.

Lemma merged_rows ds keys t r :
  (∀ k, k ∈ keys → k.1 = t) →
  let w := merged_group (read_groups now jobs specs compatible ds) keys in
  r ∈ w.1 ∨ w.2 = Some r → in_queue jobs specs t r.
Proof.
  intros Ht w. set (results := read_groups now jobs specs compatible ds) in *.
  set (found := (λ k, default ([], None) (find_key k results)) <$> keys).
  intros H. assert (∃ f, f ∈ found ∧ (r ∈ w_row <$> f.1 ∨ f.2 = Some r)) as (f & Hf & Hr).
  { destruct H as [H|H].
    - change (r ∈ w_row <$> take 16 (py_sorted normal_leb (mjoin (fst <$> found)))) in H. chase H.
      exists x0. split; [done|left]. by apply list_elem_of_fmap_2.
    - change (head (py_sorted (since_leb qr_since) (omap snd found)) = Some r) in H. apply head_sorted in H.
      apply list_elem_of_omap in H as (f & Hf & Hr). eauto. }
  unfold found in Hf. apply list_elem_of_fmap in Hf as (k & -> & Hk).
  destruct (find_key k results) as [w'|] eqn:E; cbn in Hr; [|destruct Hr as [Hr|Hr]; [set_solver|done]].
  rewrite <- (Ht k Hk). by eapply found_rows.
Qed.

Lemma group_keys counters p cursor k :
  k ∈ descriptor_key <$> group_descriptors counters p cursor → k.1 = tq_tenant_id (pr_limit p).
Proof.
  intros Hk. apply list_elem_of_fmap in Hk as (d & -> & Hd). unfold group_descriptors in Hd.
  apply list_elem_of_fmap in Hd as ([i [u [b q]]] & -> & _). unfold descriptor. by destruct b as [[[? ?] ?] ?].
Qed.

Lemma group_rows counters p r :
  let w := group_window now jobs specs counters compatible p in
  r ∈ w.1 ∨ w.2 = Some r → in_queue jobs specs (tq_tenant_id (pr_limit p)) r.
Proof.
  cbv zeta. set (keys := descriptor_key <$> group_descriptors counters p (pr_cursor p)).
  assert (∀ k, k ∈ keys → k.1 = tq_tenant_id (pr_limit p)) as Hk by apply group_keys.
  assert (∃ ds, group_window now jobs specs counters compatible p = merged_group (read_groups now jobs specs compatible ds) keys)
    as [ds ->].
  { unfold group_window. repeat case_match; eauto. }
  apply (merged_rows _ _ _ _ Hk).
Qed.

Lemma tenant_rows_queued heads submitters counters prepared p r :
  prepared_ok counters p →
  let w := tenant_rows now jobs specs counters heads submitters compatible prepared p in
  r ∈ w.1 ∨ w.2 = Some r → in_queue jobs specs (tq_tenant_id (pr_limit p)) r.
Proof.
  intros Hp. cbv zeta. unfold tenant_rows. destruct (grouped _ _); [apply group_rows|].
  destruct (find_key _ _) as [[l o]|] eqn:E.
  - apply find_key_app in E as [E|E]; apply batched_rows in E as (d & _ & Hk & Hw);
      replace (tq_tenant_id (pr_limit p)) with (qd_tenant_id d) by (by injection Hk);
      pose proof (batch_rows d r) as Hb; by rewrite <- Hw in Hb.
  - destruct (readable p); [|cbn; intros [?|?]; [set_solver|done]]. intros H. apply Hp. by eapply window_row.
Qed.
End rows.

Lemma each_Ret {A B} (f : A → Tx B) l db bs db' :
  (∀ a, reads (f a)) → each f l db = (Ret bs, db') → db' = db ∧ ∀ b, b ∈ bs → ∃ a, a ∈ l ∧ f a db = (Ret b, db).
Proof.
  intros Hf. revert bs db'. induction l as [|a l IH]; intros bs db' H; cbn [each] in H.
  { apply tx_mret in H as [[= ->] ->]. split; [done|set_solver]. }
  apply tx_bind_Ret in H as (b & db1 & Hb & H). pose proof (reads_run _ _ _ _ (Hf a) Hb) as ->.
  apply tx_bind_Ret in H as (bs' & db2 & Hbs & H). apply IH in Hbs as [-> Hbs]. apply tx_mret in H as [[= ->] ->].
  split; [done|]. intros x [->|Hx]%elem_of_cons; [set_solver|]. destruct (Hbs x Hx) as (a' & ? & ?). set_solver.
Qed.

Lemma each_reads {A B} (f : A → Tx B) l : (∀ a, reads (f a)) → reads (each f l).
Proof. intros Hf. induction l as [|a l IH]; cbn [each]; read_only; auto. Qed.

Lemma reserved_reads active p : reads (reserved_row active p).
Proof. unfold reserved_row. read_only. Qed.
#[local] Hint Resolve reserved_reads : reads.

Lemma tenant_window_reads now jobs specs counters heads subs compatible active prepared p :
  reads (tenant_window now jobs specs counters heads subs compatible active prepared p).
Proof. unfold tenant_window. destruct (tenant_rows _ _ _ _ _ _ _ _ _). read_only. Qed.

Lemma reserved_Ret active p db r db' :
  reserved_row active p db = (Ret (Some r), db') → ∃ r0, r0 ∈ pr_query p ∧ qr_job r = qr_job r0 ∧ qr_spec r = qr_spec r0.
Proof.
  unfold reserved_row. destruct active as [rv|]; [|intros H; by apply tx_mret in H as [[=] _]].
  destruct (_ && _); [|intros H; by apply tx_mret in H as [[=] _]]. intros H. tx_step H. apply tx_mret in H as [[= H] _].
  destruct Hl as [[_ ->]|(r0 & Hl & ->)]; [done|]. apply filter_one in Hl as [Hin _]. exists r0. split; [done|].
  repeat case_match; simplify_eq/=; done.
Qed.

(** A candidate of a window stands for a queued row. *)
Lemma tenant_window_Ret now jobs specs counters heads subs compatible active prepared p db t w db' c :
  tenant_window now jobs specs counters heads subs compatible active prepared p db = (Ret (t, w), db') →
  prepared_ok jobs specs counters p → c ∈ window_candidates w →
  t = tq_tenant_id (pr_limit p) ∧ ∃ r, in_queue jobs specs t r ∧ c = candidate now counters p r.
Proof.
  unfold tenant_window. intros H Hp Hc.
  pose proof (λ r, tenant_rows_queued jobs specs now compatible heads subs counters prepared p r Hp) as Hrows.
  destruct (tenant_rows _ _ _ _ _ _ _ _ _) as [rows oldest].
  apply tx_bind_Ret in H as (reserved & db1 & Hr & H). apply tx_mret in H as [[= -> ->] _]. split; [done|].
  unfold window_candidates in Hc. apply elem_of_app in Hc as [Hc|Hc]; cbn in Hc.
  - apply list_elem_of_fmap in Hc as (r & -> & Hin). exists r. split; [|done]. apply Hrows. by left.
  - destruct reserved as [r|].
    + apply reserved_Ret in Hr as (r0 & Hin & Hj & Hs). apply Hp in Hin as [? ? ? ? ?]. apply list_elem_of_singleton in Hc as ->.
      exists r. split; [|done]. by split; rewrite ?Hj, ?Hs.
    + destruct oldest as [r|]; [|set_solver]. apply list_elem_of_singleton in Hc as ->. exists r.
      split; [|done]. apply Hrows. by right.
Qed.

(** What a snapshot says of the database it was read from. *)
Record snapshot_of (now : Z) (inventory : InventoryRow) (db : DB) (s : SchedulingSnapshot) : Prop := {
  sf_capacity : allocatable_capacity s = capacity_of inventory;
  sf_held : ∃ claims, held_allocations s = held_allocation claims <$> List.filter unreleased (rows db T_allocations);
  sf_limits : ∃ exhausted,
    tenant_limits s = tenant_limit exhausted <$> py_sorted policy_leb (List.filter tq_is_current (rows db T_tenant_policies));
  sf_candidates : ∀ t w c, (t, w) ∈ candidates_by_tenant s → c ∈ window_candidates w →
    ∃ r p, in_queue (rows db T_jobs) (rows db T_job_specs) t r ∧ tq_tenant_id (pr_limit p) = t ∧
      prepared_ok (rows db T_jobs) (rows db T_job_specs) (rows db T_admission_counters) p ∧
      c = candidate now (rows db T_admission_counters) p r;
}.

Lemma filter_true {A} (l : list A) : List.filter (λ _, true) l = l.
Proof. induction l as [|x l IH]; [done|]. cbn. by rewrite IH. Qed.

Lemma pending_reads : reads pending_eligibility_tenants.
Proof. unfold pending_eligibility_tenants. read_only. Qed.
Lemma exhausted_reads quota : reads (exhausted_tenants quota).
Proof. unfold exhausted_tenants. read_only. Qed.
#[local] Hint Resolve pending_reads exhausted_reads : reads.

Lemma read_snapshot_Ret now policy inventory cursors quota db s db' :
  read_snapshot now policy inventory cursors false quota db = (Ret s, db') →
  db' = db ∧ snapshot_of now inventory db s.
Proof.
  unfold read_snapshot. intros H. apply tx_bind_Ret in H as (pending & db1 & Hp & H).
  apply (reads_run _ _ _ _ pending_reads) in Hp as ->. do 7 tx_step H. tx_step H. do 2 tx_step H.
  apply tx_bind_Ret in H as (compatible & ? & Hcomp & H). injection Hcomp as _ <-. do 6 tx_step H.
  apply tx_bind_Ret in H as (prepared & ? & Hprep & H). apply each_Ret in Hprep as [-> Hprep]; [|done].
  apply tx_bind_Ret in H as (windows & ? & Hwin & H).
  apply each_Ret in Hwin as [-> Hwin]; [|intros; apply tenant_window_reads]. do 2 tx_step H.
  apply tx_bind_Ret in H as (exhausted & ? & Hex & H).
  assert (reads (match quota with None => mret [] | Some q => exhausted_tenants q end)) as Hrd by (destruct quota; read_only).
  apply (reads_run _ _ _ _ Hrd) in Hex as ->. apply tx_bind_Ret in H as (state & ? & Hst & H). injection Hst as _ <-.
  apply tx_mret in H as [[= ->] ->]. split; [done|]. rewrite !filter_true in Hwin, Hprep.
  split; cbn; [done|by eexists|by eexists|].
  intros t w c Hw Hc. destruct (Hwin (t, w) Hw) as (p & Hpin & Hrun). destruct (Hprep p Hpin) as (limit & _ & Hlim).
  injection Hlim as Hlim. apply prepare_Ret in Hlim as [_ Hok].
  destruct (tenant_window_Ret _ _ _ _ _ _ _ _ _ _ _ _ _ _ _ Hrun Hok Hc) as (-> & r & Hr & ->).
  by exists r, p.
Qed.

(** ** A committed dispatch *)

Lemma event_writes j h et r k f : only_writes [T_jobs; T_events; T_audit_records] (Dispatch._event j h et r k f).
Proof. unfold Dispatch._event. writes. Qed.
#[local] Hint Resolve event_writes : writes.

(** The allocation a dispatch makes. *)
Definition new_allocation (allocation_id attempt_id : string) (worker : WorkerRow) (job : JobRow) (spec : SpecRow) (now sequence : Z) :
    AllocationRow :=
  MkAllocationRow allocation_id (j_tenant_id job) (j_job_id job) attempt_id (wk_worker_id worker)
    (sp_cpu_millis spec) (sp_memory_bytes spec) 0 AL_HELD now None None None sequence.

Lemma dispatch_allocates worker job now epoch holder v rid db u db' :
  dispatch_job worker job now epoch holder v rid db = (Ret u, db') →
  j_state job = JS_QUEUED ∧ j_version job = v ∧ ∃ spec allocation_id attempt_id sequence,
    List.filter (λ r, bool_decide (sp_job_id r = j_job_id job)) (rows db T_job_specs) = [spec] ∧ sp_gpu_count spec = 0 ∧
    rows db' T_allocations = rows db T_allocations ++ [new_allocation allocation_id attempt_id worker job spec now sequence] ∧
    ∀ t, t ∈ [T_workers; T_worker_inventories] → rows db' t = rows db t.
Proof.
  unfold dispatch_job. intros H. tx_step H. rewrite !orb_false_iff, !negb_false_iff, bool_decide_eq_true in Hg.
  destruct Hg as [[Hst _] Hv]. split; [done|]. split; [lia|]. do 4 tx_step H. rename x into spec. do 9 tx_step H.
  exists spec. eexists _, _, _. split; [done|]. split; [lia|].
  match type of H with ?m ?d = _ => assert (only_writes [T_attempt_leases; T_attempt_authority_grants; T_admission_counters; T_jobs;
    T_events; T_audit_records; T_reservations; T_allocation_ledger_segments] m) as Hw by writes end.
  destruct (Hw _ _ _ H) as [Hr _]. split.
  - rewrite Hr by tables. rewrite put_same. by rewrite put_other.
  - intros t Ht. assert (t = T_workers ∨ t = T_worker_inventories) as [-> | ->] by set_solver; rewrite Hr by tables;
      cbn [rows draw]; by rewrite !put_other.
Qed.

(** What allocations hold together. *)
Definition allocation_resources (a : AllocationRow) : Resources :=
  {| cpu_millis := al_cpu_millis a; memory_bytes := al_memory_bytes a; gpu_count := al_gpu_count a |}.
Definition held_total (l : list AllocationRow) : Resources := res_sum (allocation_resources <$> l).
Definition held_for (tenant_id : string) (a : AllocationRow) : bool :=
  unreleased a && bool_decide (al_tenant_id a = tenant_id).
Definition limit_resources (limit : TenantPolicyRow) : Resources :=
  {| cpu_millis := tq_cpu_limit_millis limit; memory_bytes := tq_memory_limit_bytes limit; gpu_count := tq_gpu_limit limit |}.

(** Live leadership of [holder] at [now]. *)
Definition leads (holder_id : string) (epoch now : Z) (db : DB) : Prop :=
  ∃ row expires, rows db T_coordinator_leadership = [row] ∧ lr_holder_id row = Some holder_id ∧ lr_epoch row = epoch ∧
    lr_lease_expires_at row = Some expires ∧ now < expires.

(** The dispatch of [job] under the policies and the inventory of the database. *)
Record dispatch_fits (holder_id : string) (epoch now : Z) (db db' : DB) (worker : WorkerRow) (inventory : InventoryRow) (job : JobRow)
    (limit : TenantPolicyRow) : Prop := {
  df_leader : leads holder_id epoch now db;
  df_mode : ∃ policy, List.filter pv_is_current (rows db T_policy_versions) = [policy] ∧ pv_operational_mode policy = NORMAL;
  df_worker : rows db T_workers = [worker] ∧ _worker_is_ready worker now = true;
  df_inventory : inventory ∈ rows db T_worker_inventories ∧ in_worker_id inventory = wk_worker_id worker ∧
    Some (in_inventory_version inventory) = wk_current_inventory_version worker ∧
    Some (in_worker_incarnation_id inventory) = wk_current_incarnation_id worker;
  df_job : job ∈ rows db T_jobs ∧ j_state job = JS_QUEUED;
  df_limit : limit ∈ rows db T_tenant_policies ∧ tq_is_current limit = true ∧ tq_tenant_id limit = j_tenant_id job;
  df_capacity : res_le (held_total (List.filter unreleased (rows db' T_allocations))) (capacity_of inventory);
  df_quota : res_le (held_total (List.filter (held_for (j_tenant_id job)) (rows db' T_allocations))) (limit_resources limit);
  df_tenant_active : active_attempts_of (rows db T_admission_counters) ("TENANT", j_tenant_id job) < tq_tenant_active_limit limit;
  df_user_active : active_attempts_of (rows db T_admission_counters) (user_scope (j_tenant_id job) (j_submitter_user_id job))
    < tq_user_active_limit limit;
  df_allocation : ∃ a, rows db' T_allocations = rows db T_allocations ++ [a] ∧ al_worker_id a = wk_worker_id worker ∧
    al_job_id a = j_job_id job ∧ request_ok (allocation_resources a);
  df_kept : ∀ t, t ∈ [T_workers; T_worker_inventories] → rows db' t = rows db t;
}.

Lemma leader_reads holder epoch now : reads (leader holder epoch now).
Proof. unfold leader. read_only; done. Qed.
Lemma current_policy_reads : reads current_policy.
Proof. unfold current_policy. read_only. Qed.
#[local] Hint Resolve leader_reads current_policy_reads : reads.

Lemma leader_run holder epoch now db t db' :
  leader holder epoch now db = (Ret t, db') → db' = db ∧ t = now ∧ leads holder epoch now db.
Proof.
  unfold leader. intros H. tx_step H. tx_step H. injection H as H <-. split; [done|].
  rewrite filter_true in Hl. unfold _leader in H. destruct Hl as [[_ ->]|(row & Hr & ->)]; [done|].
  destruct (bool_decide _ || _) eqn:E; [done|]. apply orb_false_iff in E as [Eh Ee].
  apply bool_decide_eq_false in Eh. destruct (lr_lease_expires_at row) as [expires|] eqn:Hx; [|done].
  destruct (expires <=? now) eqn:El; [done|]. cbn in H. injection H as <-. split; [done|].
  exists row, expires. split_and!; try done; [by apply dec_stable|lia|lia].
Qed.

Lemma retry_worker_Ret db worker inventory db' :
  Retry._worker db = (Ret (Some (worker, Some inventory)), db') → rows db T_workers = [worker] ∧
    inventory ∈ rows db T_worker_inventories ∧ in_worker_id inventory = wk_worker_id worker ∧
    Some (in_inventory_version inventory) = wk_current_inventory_version worker ∧
    Some (in_worker_incarnation_id inventory) = wk_current_incarnation_id worker.
Proof.
  unfold Retry._worker. intros H. tx_step H. rewrite filter_true in H. destruct (rows db T_workers) as [|w [|]]; try discriminate H.
  tx_step H. tx_step H. apply tx_mret in H as [[= <- Hx] _]. split; [done|]. subst x.
  destruct Hl as [[_ [=]]|(a & Hl & [= <-])]. apply filter_one in Hl as [Hin Hp].
  rewrite !andb_true_iff, !bool_decide_eq_true in Hp. tauto.
Qed.

Lemma retry_worker_reads : reads Retry._worker.
Proof. unfold Retry._worker. read_only. Qed.
Lemma locks_reads : reads _locks.
Proof. unfold _locks. read_only. apply retry_worker_reads. Qed.
Lemma replay_pending_reads s : reads (reservation_replay_pending s).
Proof. unfold reservation_replay_pending. read_only. Qed.
#[local] Hint Resolve retry_worker_reads locks_reads replay_pending_reads : reads.

Lemma locks_Ret db policy worker inventory db' :
  _locks db = (Ret (policy, Some (worker, Some inventory)), db') →
  List.filter pv_is_current (rows db T_policy_versions) = [policy] ∧ Retry._worker db = (Ret (Some (worker, Some inventory)), db).
Proof.
  unfold _locks, current_policy. intros H. apply tx_bind_Ret in H as (p & db1 & Hp & H). tx_step Hp. apply one_Ret in Hp as [Hl ->].
  apply tx_bind_Ret in H as (w & db2 & Hw & H). apply tx_mret in H as [[= -> ->] _].
  by pose proof (reads_run _ _ _ _ retry_worker_reads Hw) as ->.
Qed.

Lemma persist_writes s b : only_writes [T_fairness_ledgers; T_fairness_state] (persist_fairness_locked s b).
Proof. unfold persist_fairness_locked. writes. Qed.

(** The steps of a commit that returns a dispatch. *)
Lemma commit_steps holder quota cursors decision epoch t db j ver pv rid db' :
  commit_operation holder quota cursors decision epoch t db = (Ret (Dispatch j ver pv rid), db') →
  ∃ policy worker inventory job fresh db1 db2,
    leads holder epoch (co_now t) db ∧ _locks db = (Ret (policy, Some (worker, Some inventory)), db) ∧
    pv_operational_mode policy = NORMAL ∧ List.filter (is_job j) (rows db T_jobs) = [job] ∧
    _worker_is_ready worker (co_now t) = true ∧ snapshot_of (co_now t) inventory db fresh ∧
    decide fresh (epoch_ms (co_now t)) = Ret (Dispatch j ver pv rid) ∧
    (∀ t, t ∉ [T_allocation_ledger_segments; T_fairness_ledgers; T_fairness_state] → rows db1 t = rows db t) ∧
    dispatch_job worker job (co_now t) epoch holder ver rid db1 = (Ret (), db2) ∧ db' = db2.
Proof.
  unfold commit_operation. intros H. apply tx_bind_Ret in H as (t1 & ? & Hl1 & H). apply leader_run in Hl1 as (-> & _ & _).
  apply tx_bind_Ret in H as ([policy w] & dbl & Hlk & H). pose proof (reads_run _ _ _ _ locks_reads Hlk) as ->.
  destruct w as [[worker [inventory|]]|]; [|apply tx_mret in H as [[=] _]..].
  destruct (bool_decide (pv_operational_mode policy = NORMAL)) eqn:Hm; [|apply tx_mret in H as [[=] _]]. cbn [negb] in H.
  apply bool_decide_eq_true in Hm.
  assert (∀ d, reads (decided_job d)) as Hdj by (intros []; unfold decided_job; read_only).
  apply tx_bind_Ret in H as (jid & ? & Hjid & H). pose proof (reads_run _ _ _ _ (Hdj decision) Hjid) as ->.
  apply tx_bind_Ret in H as (job & dbj & Hjob & H).
  assert (reads (match jid with None => mret None | Some i => found ← select T_jobs (is_job i); one_or_none found end)) as Hjr
    by (destruct jid; read_only).
  pose proof (reads_run _ _ _ _ Hjr Hjob) as ->.
  apply tx_bind_Ret in H as (now & ? & Hl2 & H). apply leader_run in Hl2 as (-> & -> & Hlead).
  destruct (_worker_is_ready worker (co_now t)) eqn:Hready; [|apply tx_mret in H as [[=] _]]. cbn [negb] in H.
  apply tx_bind_Ret in H as (fresh & ? & Hs & H). apply read_snapshot_Ret in Hs as [-> Hs].
  apply tx_bind_Ret in H as (pending & ? & Hp & H). pose proof (reads_run _ _ _ _ (replay_pending_reads fresh) Hp) as ->.
  destruct pending; [apply tx_mret in H as [[=] _]|].
  destruct (decide fresh (epoch_ms (co_now t))) as [checked|[|]] eqn:Hd; [|apply tx_mret in H as [[=] _]|done].
  destruct (bool_decide (checked = decision)) eqn:Hc; [|apply tx_mret in H as [[=] _]]. cbn [negb] in H.
  apply bool_decide_eq_true in Hc as ->.
  apply tx_bind_Ret in H as (u1 & db1 & Ha & H). apply (account_locked_writes _ _) in Ha as [Hra _].
  apply tx_bind_Ret in H as (u2 & db2 & Hpf & H). apply (persist_writes _ _) in Hpf as [Hrp _].
  apply tx_bind_Ret in H as (u3 & db3 & Had & H). apply tx_bind_Ret in H as (t3 & db4 & Hl3 & H).
  apply leader_run in Hl3 as (-> & _ & _). apply tx_mret in H as [[= <-] ->].
  unfold decided_job in Hjid. apply tx_mret in Hjid as [[= ->] _]. tx_step Hjob. apply one_or_none_Ret in Hjob as [Hjob _].
  cbn [apply_decision] in Had. destruct job as [job|]; [|done]. destruct Hjob as [[_ [=]]|(? & Hjob & [= <-])]. destruct u3.
  exists policy, worker, inventory, job, fresh, db2, db3. split_and!; try done.
  intros t' Ht. rewrite Hrp, Hra by set_solver. done.
Qed.

Lemma filter_snoc {A} (p : A → bool) l x : p x = true → List.filter p (l ++ [x]) = List.filter p l ++ [x].
Proof. intros Hp. rewrite List.filter_app. cbn. by rewrite Hp. Qed.

Lemma held_snoc p l a : p a = true → held_total (List.filter p (l ++ [a])) = res_add (held_total (List.filter p l)) (allocation_resources a).
Proof. intros Hp. unfold held_total. rewrite filter_snoc, fmap_app, res_sum_app by done. cbn. by rewrite res_add_zero_r. Qed.

(** What the snapshot counts as held is what the allocations hold. *)
Lemma snapshot_held now inventory db s t :
  snapshot_of now inventory db s →
  held_in_all (held_allocations s) = held_total (List.filter unreleased (rows db T_allocations)) ∧
  held_by t (held_allocations s) = held_total (List.filter (held_for t) (rows db T_allocations)).
Proof.
  intros [_ [claims ->] _ _]. unfold held_in_all, held_by, held_total. split.
  - by rewrite <- list_fmap_compose.
  - f_equal. induction (rows db T_allocations) as [|a l IH]; [done|]. unfold held_for in *. cbn.
    destruct (unreleased a); cbn; [|done]. destruct (bool_decide (al_tenant_id a = t)); cbn; [f_equal|]; done.
Qed.

Lemma snapshot_limit now inventory db s t p :
  snapshot_of now inventory db s → limit_of s t = Some p →
  ∃ limit, limit ∈ rows db T_tenant_policies ∧ tq_is_current limit = true ∧ tq_tenant_id limit = t ∧
    resource_quota p = limit_resources limit ∧ max_active_attempts p = tq_tenant_active_limit limit ∧
    max_user_active_attempts p = tq_user_active_limit limit.
Proof.
  intros [_ _ [exhausted Hl] _] Hp. unfold limit_of in Hp. rewrite Hl in Hp. apply dict_get_elem in Hp.
  apply list_elem_of_fmap in Hp as (q & [= -> ->] & Hq). apply list_elem_of_fmap in Hq as (limit & -> & Hq).
  apply py_sorted_elem, elem_of_List_filter in Hq as [Hc Hin]. by exists limit.
Qed.

Lemma commit_dispatch_fits holder quota cursors decision epoch t db j ver pv rid db' :
  commit_operation holder quota cursors decision epoch t db = (Ret (Dispatch j ver pv rid), db') →
  ∃ worker inventory job limit, j_job_id job = j ∧ j_version job = ver ∧
    dispatch_fits holder epoch (co_now t) db db' worker inventory job limit.
Proof.
  intros (policy & worker & inventory & job & s & db1 & db2 & Hlead & Hlk & Hmode & Hjob & Hready & Hs & Hd & Hsame & Hrun & ->)
    %commit_steps.
  apply locks_Ret in Hlk as [Hpol Hw]. apply retry_worker_Ret in Hw as (Hworker & Hinv).
  apply dispatch_allocates in Hrun as (Hst & Hver & spec & aid & atid & seq & Hspec & Hgpu & Halloc & Hkept).
  rewrite !Hsame in Hspec, Halloc by tables.
  destruct (dispatch_sound _ _ _ _ _ _ Hd) as (tn & w & c & p & Hw & Hc & Htc & Hp & Hj & _ & _ & Hrun & Hfit).
  destruct (sf_candidates _ _ _ _ Hs tn w c Hw Hc) as (r & pr & [Hrj Hrs Hids Hrt _] & Hprt & [Hact _] & ->).
  destruct (snapshot_limit _ _ _ _ _ _ Hs Hp) as (limit & Hlin & Hlcur & Hlt & Hquota & Htmax & Humax).
  assert (qr_job r = job) as Hrjob by (eapply filter_only; [exact Hjob|done|]; by apply bool_decide_eq_true_2).
  assert (qr_spec r = spec) as Hrspec.
  { eapply filter_only; [exact Hspec|done|]. apply bool_decide_eq_true_2. by rewrite <- Hids, Hrjob. }
  apply filter_one in Hjob as [Hjin Hjid]. apply bool_decide_eq_true in Hjid. rewrite Hrjob in Hrt. subst tn.
  destruct (snapshot_held _ _ _ _ (j_tenant_id job) Hs) as [Hall Hby]. destruct Hrun as [_ _ _ _ _ _ _ Hq Hta Hua].
  rewrite <- Hrt in *. set (a := new_allocation aid atid worker job spec (co_now t) seq) in *.
  assert (resources (candidate (co_now t) (rows db T_admission_counters) pr r) = allocation_resources a) as Hres.
  { unfold candidate, allocation_resources. cbn. by rewrite Hrspec, Hgpu. }
  rewrite Hres, Hall, Hby in *. rewrite (sf_capacity _ _ _ _ Hs) in Hfit.
  exists worker, inventory, job, limit. split_and!; [done..|]. split; [done|by exists policy|done|done|done|done|..].
  - by rewrite Halloc, held_snoc.
  - rewrite Halloc, held_snoc by (unfold held_for; cbn; by rewrite bool_decide_eq_true_2). by rewrite <- Hquota.
  - cbn in Hta. rewrite Hact, Hprt in Hta. by rewrite <- Htmax.
  - cbn in Hua. rewrite Hprt, Hrjob in Hua. by rewrite <- Humax.
  - exists a. split_and!; [done..|]. rewrite <- Hres. apply decide_inv in Hd as [Hws _]. by eapply wo_candidate.
  - intros t' Ht. rewrite Hkept by done. apply Hsame. set_solver.
Qed.


(** ** Steps of the process *)

(** [m] keeps [P] of the database, whether it returns or raises. *)
Definition holds (P : DB → Prop) {A} (m : Process A) : Prop := ∀ cs db r s', P db → m (cs, db) = (r, s') → P s'.2.

Section holds.
Context (P : DB → Prop).

Lemma holds_ret {A} (a : A) : holds P (mret a).
Proof. by intros cs db r s' HP [= <- <-]. Qed.
Lemma holds_raise {A} e : holds P (se_raise e : Process A).
Proof. by intros cs db r s' HP [= <- <-]. Qed.
Lemma holds_bind {A B} (m : Process A) (f : A → Process B) : holds P m → (∀ a, holds P (f a)) → holds P (m ≫= f).
Proof.
  intros Hm Hf cs db r s' HP H. apply se_bind_inv in H as [(a & [cs1 db1] & H1 & H)|(e & H1 & ->)]; [|by eapply Hm].
  eapply Hf; [|exact H]. by eapply (Hm _ _ _ _ HP H1).
Qed.
Lemma holds_tolerate {A} (m : Process A) a : holds P m → holds P (tolerate m a).
Proof.
  intros Hm cs db r s' HP H. unfold tolerate in H. destruct (m (cs, db)) as [r1 s1] eqn:E. apply Hm in E; [|done].
  destruct r1; [|destruct (is_lost _)]; by injection H as <- <-.
Qed.
Lemma holds_transaction {A} (m : Tx A) : (∀ db a db', P db → m db = (Ret a, db') → P db') → holds P (run_transaction m).
Proof.
  intros Hm cs db r s' HP H. unfold run_transaction in H. destruct (m db) as [[a|e] db'] eqn:E; injection H as <- <-; [|done].
  by eapply Hm.
Qed.
(** A step on the state of the process alone. *)
Lemma holds_local {A} (m : Process A) : (∀ cs db, ∃ r cs', m (cs, db) = (r, (cs', db))) → holds P m.
Proof. intros Hm cs db r s' HP H. destruct (Hm cs db) as (r1 & cs' & E). rewrite E in H. by injection H as <- <-. Qed.
Lemma holds_cursors found : holds P (keep_cursors found).
Proof.
  induction found as [|[t text] found IH]; cbn [keep_cursors]; [apply holds_ret|]. destruct (parse_cursor text); [|apply holds_raise].
  apply holds_bind; [apply holds_local; eauto|by intros _].
Qed.

(** The maintenance steps keep what each of their transactions keeps. *)
Section maintenance.
Context (holder : string) (quota : option Z) (epoch : Z).
Context (Hreap : ∀ l t1 t2 db a db', P db → reap holder epoch l t1 t2 db = (Ret a, db') → P db')
  (Hpromote : ∀ p t1 t2 t3 db a db', P db → promote_retries holder epoch p t1 t2 t3 db = (Ret a, db') → P db')
  (Hsweep : ∀ now t1 t2 db a db', P db → sweep_idempotency holder epoch now t1 t2 db = (Ret a, db') → P db')
  (Hquota : ∀ s q c t1 t2 t3 db a db', P db → quota_operation holder s q epoch c t1 t2 t3 db = (Ret a, db') → P db').

Lemma holds_reap_all t1 t2 leases : holds P (reap_all holder epoch t1 t2 leases).
Proof.
  induction leases as [|l leases IH]; cbn [reap_all]; [apply holds_ret|].
  apply holds_bind; [apply holds_tolerate, holds_transaction, Hreap|intros b].
  apply holds_bind; [exact IH|intros n; apply holds_ret].
Qed.

Lemma holds_maintenance t : holds P (maintenance holder quota epoch t).
Proof.
  unfold maintenance.
  apply holds_bind; [|intros _; apply holds_bind; [|intros _; apply holds_bind; [|intros _; apply holds_bind; [|intros _; apply holds_ret]]]];
    apply holds_tolerate.
  - apply holds_bind; [|intros l; apply holds_reap_all]. apply holds_transaction. intros db l db' HP H.
    assert (reads (expired_leases Dispatch.BATCH_SIZE (sp_probe t))) as Hr by (unfold expired_leases; read_only).
    by rewrite (reads_run _ _ _ _ Hr H).
  - apply holds_transaction, Hpromote.
  - apply holds_transaction, Hsweep.
  - unfold track_artifact_quota. destruct quota as [q|]; [|apply holds_ret].
    apply holds_bind; [apply holds_local; eauto|intros [cs db0]].
    apply holds_bind; [apply holds_transaction, Hquota|intros [[[[x1 x2] x3] x4] x5]].
    apply holds_bind; [apply holds_local; eauto|intros _; apply holds_ret].
Qed.

(** So does a tick, with the two transactions of the decision. *)
Context (Hsnapshot : ∀ c t db a db', P db → snapshot_operation holder quota c epoch t db = (Ret a, db') → P db')
  (Hcommit : ∀ c d t db a db', P db → commit_operation holder quota c d epoch t db = (Ret a, db') → P db').

Lemma holds_tick monotonic steps ts tc : holds P (_tick holder quota epoch monotonic steps ts tc).
Proof.
  unfold _tick. apply holds_bind; [apply holds_local; eauto|intros [cs db0]]. apply holds_bind.
  { destruct (_ <=? _); [|apply holds_ret]. apply holds_bind; [apply holds_local; eauto|intros _; apply holds_maintenance]. }
  intros _. apply holds_bind; [apply holds_transaction, Hsnapshot|]. intros [[[s now_ms] pending]|]; [|apply holds_ret].
  destruct pending; [apply holds_ret|]. destruct (decide s now_ms) as [d|[|]]; [|apply holds_raise..].
  destruct d; try apply holds_ret; try apply holds_transaction, Hcommit.
  apply holds_bind; [apply holds_cursors|intros _; apply holds_ret].
Qed.
End maintenance.
End holds.

(** ** Frozen writes *)

Definition frozen (db : DB) : Prop :=
  ∃ policy, List.filter pv_is_current (rows db T_policy_versions) = [policy] ∧ pv_operational_mode policy = WRITE_FROZEN.

(** [m] returns without a change. *)
Definition idle {A} (m : Tx A) (db : DB) : Prop := ∀ a db', m db = (Ret a, db') → db' = db.

Lemma mode_frozen db mode db' : frozen db → operational_mode db = (Ret mode, db') → mode = WRITE_FROZEN ∧ db' = db.
Proof.
  intros (p & Hp & Hm) H. unfold operational_mode, current_policy in H. apply tx_bind_Ret in H as (x & db1 & Hx & H).
  tx_step Hx. apply one_Ret in Hx as [Hl ->]. apply tx_mret in H as [[= ->] ->]. rewrite Hp in Hl. by injection Hl as <-.
Qed.

Section frozen.
Context (holder : string) (quota : option Z) (epoch : Z) (db : DB) (Hfrozen : frozen db).

Lemma blocked_reads j i : reads (_blocked_reason j i).
Proof. unfold _blocked_reason, job_template. read_only; done. Qed.
Hint Resolve blocked_reads : reads.
Lemma any_actionable_reads l i : reads (any_actionable l i).
Proof. induction l as [|j l IH]; cbn [any_actionable]; read_only. Qed.
Hint Resolve any_actionable_reads : reads.
Lemma retry_actionable_reads now n : reads (retry_actionable now n).
Proof. unfold retry_actionable, _candidates. read_only. Qed.

Lemma promote_idle p t1 t2 t3 : idle (promote_retries holder epoch p t1 t2 t3) db.
Proof.
  intros n db' H. unfold promote_retries in H. apply tx_bind_Ret in H as (b & db1 & Hb & H).
  apply (reads_run _ _ _ _ (retry_actionable_reads _ _)) in Hb as ->. destruct b; [|by apply tx_mret in H as [_ ->]]. cbn [negb] in H.
  apply tx_bind_Ret in H as (t & ? & Hl & H). apply leader_run in Hl as (-> & _).
  apply tx_bind_Ret in H as (q & ? & Hq & H). destruct Hfrozen as (p0 & Hp & Hm).
  unfold current_policy in Hq. tx_step Hq. apply one_Ret in Hq as [Hq ->]. rewrite Hp in Hq. injection Hq as <-.
  apply tx_bind_Ret in H as (t' & ? & Hl & H). apply leader_run in Hl as (-> & _). rewrite Hm in H.
  by apply tx_mret in H as [_ ->].
Qed.

Lemma reap_idle lease t1 t2 : idle (reap holder epoch lease t1 t2) db.
Proof.
  intros b db' H. unfold reap in H. apply tx_bind_Ret in H as (t & ? & Hl & H). apply leader_run in Hl as (-> & _).
  apply tx_bind_Ret in H as (m & ? & Hm & H). apply mode_frozen in Hm as [-> ->]; [|done]. by apply tx_mret in H as [_ ->].
Qed.

Lemma sweep_batch_reads now : reads (sweep_batch now).
Proof. unfold sweep_batch. read_only. Qed.

Lemma sweep_idle now t1 t2 : idle (sweep_idempotency holder epoch now t1 t2) db.
Proof.
  intros n db' H. unfold sweep_idempotency in H. apply tx_bind_Ret in H as (b & db1 & Hb & H).
  apply (reads_run _ _ _ _ (sweep_batch_reads _)) in Hb as ->.
  assert (∀ due deferred, (_ ← leader holder epoch t1; mode ← operational_mode;
      if bool_decide (mode = WRITE_FROZEN) then mret 0
      else _ ← delete T_idempotency_records (λ r, bool_decide (id_idempotency_id r ∈ due));
           _ ← for_rows deferred (λ d, update_ T_idempotency_records (λ r, bool_decide (id_idempotency_id r = d.1))
                                         (λ r, r <| id_expires_at := Z.max (id_expires_at r) d.2 |>));
           _ ← leader holder epoch t2; mret (Z.of_nat (length due))) db = (Ret n, db') → db' = db) as Hrun.
  { intros due deferred H'. apply tx_bind_Ret in H' as (t & ? & Hl & H'). apply leader_run in Hl as (-> & _).
    apply tx_bind_Ret in H' as (m & ? & Hm & H'). apply mode_frozen in Hm as [-> ->]; [|done]. by apply tx_mret in H' as [_ ->]. }
  destruct (sb_due b), (sb_deferred b); [by apply tx_mret in H as [_ ->]|exact (Hrun _ _ H)..].
Qed.

Lemma quota_idle state q clock t1 t2 t3 : idle (quota_operation holder state q epoch clock t1 t2 t3) db.
Proof.
  intros n db' H. unfold quota_operation in H. apply tx_bind_Ret in H as (b & db1 & Hb & H).
  apply (reads_run _ _ _ _ (exhausted_reads _)) in Hb as ->. tx_step H.
  destruct (List.filter _ _); destruct (match qs_clearing state with None => _ | Some _ => _ end);
    [by apply tx_mret in H as [_ ->]|..].
  all: apply tx_bind_Ret in H as (t & ? & Hl & H); apply leader_run in Hl as (-> & _);
    apply tx_bind_Ret in H as (m & ? & Hm & H); apply mode_frozen in Hm as [-> ->]; [|done];
    apply tx_bind_Ret in H as (t' & ? & Hl & H); apply leader_run in Hl as (-> & _); by apply tx_mret in H as [_ ->].
Qed.

Lemma locks_frozen p w db' : _locks db = (Ret (p, w), db') → db' = db ∧ pv_operational_mode p = WRITE_FROZEN.
Proof.
  intros H. split; [exact (reads_run _ _ _ _ locks_reads H)|]. destruct Hfrozen as (p0 & Hp & Hm).
  unfold _locks, current_policy in H. apply tx_bind_Ret in H as (x & ? & Hx & H).
  tx_step Hx. apply one_Ret in Hx as [Hx ->]. rewrite Hp in Hx. injection Hx as <-.
  apply tx_bind_Ret in H as (y & ? & _ & H). by apply tx_mret in H as [[= -> _] _].
Qed.

Lemma snapshot_idle cursors t : idle (snapshot_operation holder quota cursors epoch t) db.
Proof.
  intros a db' H. unfold snapshot_operation in H. apply tx_bind_Ret in H as (t1 & ? & Hl & H). apply leader_run in Hl as (-> & _).
  apply tx_bind_Ret in H as ([p w] & ? & Hlk & H). apply locks_frozen in Hlk as [-> Hm].
  apply tx_bind_Ret in H as (t2 & ? & Hl & H). apply leader_run in Hl as (-> & _).
  rewrite Hm in H. by apply tx_mret in H as [_ ->].
Qed.

Lemma commit_idle cursors d t : idle (commit_operation holder quota cursors d epoch t) db.
Proof.
  intros a db' H. unfold commit_operation in H. apply tx_bind_Ret in H as (t1 & ? & Hl & H). apply leader_run in Hl as (-> & _).
  apply tx_bind_Ret in H as ([p w] & ? & Hlk & H). apply locks_frozen in Hlk as [-> Hm].
  destruct w as [[worker [inventory|]]|]; [|by apply tx_mret in H as [_ ->]..]. rewrite Hm in H. by apply tx_mret in H as [_ ->].
Qed.

End frozen.

(** C23: While the current policy freezes writes, a tick leaves the database as it is: no
    retry is promoted, no lease reaped, no record swept, no queue row marked, nothing
    reserved or dispatched, whatever the tick returns or raises. *)
Theorem frozen_tick_writes_nothing holder quota epoch monotonic steps ts tc cs db r s' :
  frozen db → _tick holder quota epoch monotonic steps ts tc (cs, db) = (r, s') → s'.2 = db.
Proof.
  intros Hfrozen H. apply (holds_tick (λ d, d = db)) in H; [done|..|done]; intros; subst.
  - by eapply reap_idle.
  - by eapply promote_idle.
  - by eapply sweep_idle.
  - by eapply quota_idle.
  - by eapply snapshot_idle.
  - by eapply commit_idle.
Qed.

(** ** Cursors *)

Definition no_colon (c : ascii) : bool := negb (Ascii.eqb c ":"%char).

Lemma digits_no_colon p : all_chars no_colon (pretty (N.pos p)) = true.
Proof.
  assert (∀ c, between 48 (ord c) 57 = true → no_colon c = true) as Hd.
  { intros c Hc. unfold no_colon. destruct (Ascii.eqb_spec c ":"%char) as [->|]; done. }
  destruct (pretty_pos p) as (c & ds & -> & Hc & Hds & _). cbn [all_chars]. apply andb_true_iff. split.
  - apply Hd. unfold between in *. bool_simpl. lia.
  - eapply all_chars_impl; [|done]. intros d. unfold is_digit. apply Hd.
Qed.
Lemma pretty_no_colon (n : Z) : all_chars no_colon (pretty n) = true.
Proof.
  destruct n as [|p|p]; [done|apply digits_no_colon|]. change (pretty (Z.neg p)) with ("-" +:+ pretty (N.pos p)).
  by rewrite all_chars_app, digits_no_colon.
Qed.

Lemma break_at a s : all_chars no_colon a = true → break_colon (a +:+ ":" +:+ s) = Some (a, s).
Proof.
  induction a as [|c a IH]; cbn [all_chars]; intros H; [done|]. apply andb_true_iff in H as [Hc H].
  rewrite str_cons. cbn [break_colon]. unfold no_colon in Hc. apply negb_true_iff in Hc. rewrite Hc. by rewrite (IH H).
Qed.

(** The continuation an idle tick parses is the cursor its snapshot printed: the
    priority and the sequence as integers, and the whole identifier of the job, colons
    included. *)
Theorem cursor_roundtrip priority sequence job_id :
  short_int priority = true → short_int sequence = true →
  parse_cursor (cursor_text (priority, sequence, job_id)) = Some (priority, sequence, job_id).
Proof.
  intros Hp Hs. unfold parse_cursor, cursor_text. rewrite break_at by apply pretty_no_colon. cbn [mbind option_bind].
  rewrite break_at by apply pretty_no_colon. cbn [mbind option_bind]. by rewrite !py_int_pretty.
Qed.

(** ** A sample: the submitted job of [Submission] is dispatched *)

Definition sample_inventory : InventoryRow :=
  MkInventoryRow "inventory" "worker" "incarnation" 1 "linux/amd64" 4000 1073741824 0
    (VDict [("adapters", VList [VDict [("adapter_id", VStr "cpu.iterative"); ("adapter_version", VStr "1.0.0")]]);
            ("images", VList [VDict [("image_digest", VStr sample_digest); ("verified", VBool true);
                                     ("architecture", VStr "linux/amd64")]]);
            ("frameworks", VList [VDict [("framework", VStr "NEXA_CPU"); ("framework_version", VStr "1.0.0");
                                         ("device", VStr "CPU")]])])
    8000 2147483648 VNone "sha256:inventory".

(** The counters after the submission, and the rows the triggers keep for the queue. *)
Definition sample_queue_db (mode : OperationalMode) : DB :=
  set_rows T_policy_versions [MkPolicyRow 1 mode true 1000]
  (set_rows T_coordinator_leadership
     [{| lr_holder_id := Some "coordinator"; lr_epoch := 1; lr_renewed_at := Some 0; lr_lease_expires_at := Some (seconds 15) |}]
  (set_rows T_workers [MkWorkerRow "worker" "ENABLED" "READY" (Some "incarnation") (Some 1) (Some 0) (Some 0) 1]
  (set_rows T_worker_inventories [sample_inventory]
  (set_rows T_jobs [Admission.queued_row sample_new_job "user" None 1 1]
  (set_rows T_job_specs [spec_row sample_new_job]
  (set_rows T_admission_counters
     [MkCounterRow "GLOBAL" "global" 1 0 2 None; MkCounterRow "TENANT" "tenant" 1 0 1 None; MkCounterRow "USER" "tenant:user" 1 0 1 None]
  (set_rows T_queue_submitters [MkQueueSubmitterRow "tenant" "user"]
  (set_rows T_queue_heads [MkQueueHeadRow "tenant" 1]
  (set_rows T_quota_headroom_steps
     [MkHeadroomStepRow "tenant" "cpu" 8000 None; MkHeadroomStepRow "tenant" "memory" 1073741824 None]
  (set_rows T_queue_request_sizes [MkRequestSizeRow "tenant" 500 67108864] sample_job_db)))))))))).

Definition sample_process : CoordinatorState :=
  {| cs_cursors := []; cs_retry_probe_at := 0; cs_quota := {| qs_blocked := []; qs_clearing := None |} |}.
Definition sample_steps : StepTimes := {| sp_probe := 10; sp_1 := 11; sp_2 := 12; sp_3 := 13; sp_monotonic := 10 |}.
Definition sample_reads : SnapshotTimes := {| sn_first := 20; sn_now := 21; sn_clock := 22; sn_boundary := 23; sn_last := 24 |}.
Definition sample_commit : CommitTimes := {| co_first := 30; co_now := 31; co_clock := 32; co_last := 33 |}.
Local Notation sample_tick mode :=
  (_tick "coordinator" (Some 1000000) 1 10 sample_steps sample_reads sample_commit (sample_process, sample_queue_db mode)).

Lemma process_ret {A} (p : outcome SvcError A * (CoordinatorState * DB)) a : p.1 = Ret a → p = (Ret a, p.2).
Proof. destruct p. by intros [= ->]. Qed.
Lemma sample_tick_run : sample_tick NORMAL = (Ret (Dispatch "job-1" 1 1 None), (sample_tick NORMAL).2).
Proof. apply process_ret. vm_compute. reflexivity. Qed.
Lemma sample_frozen_tick_run : ∃ r, sample_tick WRITE_FROZEN = (Ret r, (sample_tick WRITE_FROZEN).2).
Proof. eexists. apply process_ret. vm_compute. reflexivity. Qed.
Lemma sample_is_frozen : frozen (sample_queue_db WRITE_FROZEN).
Proof. exists (MkPolicyRow 1 WRITE_FROZEN true 1000). unfold sample_queue_db. by rewrite set_rows_same. Qed.


(** The same tick, with writes frozen. *)
Lemma frozen_tick_writes_nothing_witness :
  ∃ r, sample_tick WRITE_FROZEN = (Ret r, (sample_tick WRITE_FROZEN).2) ∧
  (sample_tick WRITE_FROZEN).2.2 = sample_queue_db WRITE_FROZEN.
Proof.
  destruct sample_frozen_tick_run as [r H]. exists r. split; [exact H|].
  exact (frozen_tick_writes_nothing _ _ _ _ _ _ _ _ _ _ _ sample_is_frozen H).
Defined.
