(* ===== verification/Limits.v ===== *)
(** * Admission limits over the whole system

    The admission counters never exceed the limits of the current policies: not after
    a submission or a retry, which take an outstanding place, not after a policy update,
    which moves the limits, and not after any other operation, which gives places back
    or leaves them.  Together with [System] this covers every modelled transaction. *)

From Stdlib Require Import Ascii.
From S2P Require Import Prelude PyDecimal PyValue WorkerModels Scheduling Database Sorting Ledger RateLimit Authority Capabilities.
From S2P Require Import Idempotency Identity Eligibility Dispatch Cleanup Retry JobSpecs Control Admission Workers.
From S2P Require Import PolicyService Checkpoint Fencing View Lifecycle System PolicyChanges Submission.

Local Open Scope string_scope.
Local Open Scope list_scope.
Local Open Scope Z_scope.

(** ** Caps on the counters *)

Definition scope_of (c : CounterRow) : string * string := (ac_scope_type c, ac_scope_id c).

Lemma scope_rowP s c : scope_row s c = true ↔ scope_of c = s.
Proof.
  unfold scope_row, scope_of. destruct s as [a b]. simpl. rewrite andb_true_iff, !bool_decide_eq_true. naive_solver.
Qed.

(** Every table but the counters and the policies. *)
Definition other_tables : list table := T_jobs :: T_attempts :: T_attempt_leases :: T_allocations ::
  T_attempt_authority_grants ::
  List.filter (λ t, negb (bool_decide (t ∈ [T_admission_counters; T_policy_versions; T_tenant_policies]))) unseen_tables.

(** The policies are the same. *)
Definition same_policies (db db' : DB) : Prop :=
  rows db' T_policy_versions = rows db T_policy_versions ∧ rows db' T_tenant_policies = rows db T_tenant_policies.

Section caps.
(** [cap scope n]: [n] outstanding jobs are allowed in [scope]. *)
Context (cap : string * string → Z → Prop).
Context (cap_le : ∀ s n m, cap s n → m ≤ n → cap s m) (cap_zero : ∀ s, cap s 0).

Definition fits_cap (c : CounterRow) : Prop := cap (scope_of c) (ac_outstanding c).
Definition capped (db : DB) : Prop := ∀ c, c ∈ rows db T_admission_counters → fits_cap c.

(** [m] leaves the policies alone, keeps the counters within the caps, and returns a
    value that satisfies [Q]. *)
Definition keeps {A} (Q : A → Prop) (m : Tx A) : Prop :=
  ∀ db a db', m db = (Ret a, db') → capped db → same_policies db db' ∧ capped db' ∧ Q a.

Lemma keeps_ret {A} (Q : A → Prop) a : Q a → keeps Q (mret a).
Proof. intros HQ db a' db' H Hc. apply tx_mret in H as [[= ->] ->]. by split_and!. Qed.

Lemma keeps_raise {A} (Q : A → Prop) e : keeps Q (se_raise e).
Proof. intros db a db' H. discriminate H. Qed.

Lemma same_policies_trans db db1 db2 : same_policies db db1 → same_policies db1 db2 → same_policies db db2.
Proof. intros [] []. split; congruence. Qed.

Lemma keeps_bind {A B} (Q : A → Prop) (Q' : B → Prop) (m : Tx A) f :
  keeps Q m → (∀ a, Q a → keeps Q' (f a)) → keeps Q' (m ≫= f).
Proof.
  intros Hm Hf db b db' H Hc. apply tx_bind_Ret in H as (a & db1 & H1 & H2).
  destruct (Hm _ _ _ H1 Hc) as (Hs & Hc1 & Ha), (Hf a Ha _ _ _ H2 Hc1) as (Hs' & Hc' & Hb).
  split_and!; eauto using same_policies_trans.
Qed.

Lemma keeps_frame {A} (m : Tx A) : only_writes other_tables m → keeps (λ _, True) m.
Proof.
  intros Hm db a db' H Hc. destruct (Hm _ _ _ H) as [Hrows _].
  split_and!; [|unfold capped; rewrite Hrows by tables; done|done]. split; apply Hrows; tables.
Qed.

Lemma keeps_frame_bind {A B} (Q' : B → Prop) (m : Tx A) f :
  only_writes other_tables m → (∀ a, keeps Q' (f a)) → keeps Q' (m ≫= f).
Proof. intros Hm Hf. eapply keeps_bind; [by apply keeps_frame|]. auto. Qed.

Lemma capped_modify p f db :
  (∀ r, p r = true → fits_cap r → fits_cap (f r)) → capped db → capped (modify T_admission_counters p f db).
Proof.
  intros Hf Hc c Hin. rewrite modify_same in Hin. apply list_elem_of_fmap in Hin as (r & -> & Hr). apply Hc in Hr.
  destruct (p r) eqn:Hp; auto.
Qed.

Lemma same_modify p f db : same_policies db (modify T_admission_counters p f db).
Proof. split; by apply modify_other. Qed.

Lemma keeps_modify p f :
  (∀ r, p r = true → fits_cap r → fits_cap (f r)) → keeps (λ _, True) (update_ T_admission_counters p f).
Proof.
  intros Hf db u db' H Hc. apply tx_update_ in H as [_ ->]. split_and!; auto using same_modify, capped_modify.
Qed.

Lemma keeps_for {A} (l : list A) body : (∀ a, a ∈ l → keeps (λ _, True) (body a)) → keeps (λ _, True) (for_rows l body).
Proof.
  induction l as [|a l IH]; intros Hb; [by apply keeps_ret|]. cbn [for_rows].
  eapply keeps_bind; [apply Hb; set_solver|]. intros _ _. apply IH. set_solver.
Qed.

(** ** The operations on the counters *)

Lemma read_counters_keeps scopes : keeps (Forall fits_cap) (read_counters scopes).
Proof.
  induction scopes as [|x scopes IH]; cbn [read_counters]; [apply keeps_ret; constructor|].
  intros db cs db' H Hc. tx H. destruct Hl as [[_ ->]|(c & [Hin _]%filter_one & ->)]; [done|].
  apply tx_bind_Ret in H as (rest & db1 & Hr & H). apply tx_mret in H as [[= ->] ->].
  destruct (IH _ _ _ Hr Hc) as (Hs & Hc1 & Hrest). split_and!; [done..|]. constructor; [by apply Hc|done].
Qed.

Lemma adjust_keeps cs o a : Forall fits_cap cs → 0 ≤ o → keeps (λ _, True) (_adjust_counters cs o a).
Proof.
  intros Hcs Ho. unfold _adjust_counters. apply keeps_for. intros c Hin. apply keeps_frame_bind; [writes|]. intros _.
  apply keeps_modify. intros r Hr Hfit. rewrite Forall_forall in Hcs. specialize (Hcs c Hin).
  apply scope_rowP in Hr. unfold fits_cap, scope_of in *. simpl in *. injection Hr as -> ->.
  eapply cap_le; [exact Hcs|]. lia.
Qed.

Lemma count_attempt_keeps s : keeps (λ _, True) (count_attempt s).
Proof.
  unfold count_attempt. intros db u db' H Hc. tx_step H. apply tx_when in H as [_ ->].
  split_and!; [apply same_modify| |done]. apply capped_modify; [|done]. by intros.
Qed.

Lemma counter_lock_keeps st id : keeps fits_cap (_counter_lock st id).
Proof.
  unfold _counter_lock. intros db c db' H Hc. apply tx_bind_Ret in H as (u & db1 & Hi & H).
  assert (same_policies db db1 ∧ capped db1) as [Hs Hc1].
  { revert Hi. unfold insert_new. destruct (existsb _ _); intros [= _ <-]; [done|].
    split; [split; by apply put_other|]. intros r Hin.
    rewrite put_same in Hin. apply elem_of_app in Hin as [Hin|Hin%list_elem_of_singleton]; [by apply Hc|].
    subst r. apply cap_zero. }
  tx_step H. apply one_Ret in H as [Hl ->]. split_and!; [done..|]. apply filter_one in Hl as [Hin _]. by apply Hc1.
Qed.

Lemma lock_policy_keeps a : keeps (λ x, Forall fits_cap x.2) (_lock_policy_counters a).
Proof.
  unfold _lock_policy_counters. do 3 (apply keeps_frame_bind; [writes|intros ?]).
  match goal with |- keeps _ (match ?x with _ => _ end) => destruct x end; [|apply keeps_raise].
  apply keeps_frame_bind; [writes|intros ?]. eapply keeps_bind; [apply read_counters_keeps|]. intros cs Hcs.
  by apply keeps_ret.
Qed.

Create HintDb keeps.
Hint Resolve read_counters_keeps count_attempt_keeps counter_lock_keeps lock_policy_keeps : keeps.
Hint Extern 1 (keeps _ (for_rows _ _)) => apply keeps_for; intros ? ? : keeps.
Hint Extern 1 (keeps _ (update_ T_admission_counters _ _)) => apply keeps_modify; by intros : keeps.

(** Splits a body into its statements; those that leave the counters and the policies
    alone are framed away. *)
Ltac keep_step :=
  lazymatch goal with
  | |- keeps _ (let _ := _ in _) => cbv zeta
  | |- keeps _ (mret _) => by apply keeps_ret
  | |- keeps _ (se_raise _) => apply keeps_raise
  | |- keeps _ (match ?x with _ => _ end) => destruct x
  | |- keeps _ (_ ≫= _) =>
      first [ eapply keeps_bind; [solve [eauto with keeps nocore]|intros ? ?]
            | apply keeps_frame_bind; [solve [writes]|intros ?]
            | eapply (keeps_bind (λ _, True)); [|intros ? _] ]
  | |- keeps _ _ => first [ solve [eauto with keeps nocore] | apply keeps_frame; solve [writes] ]
  end.
Ltac keep := repeat keep_step.

(** What the events write. *)
Definition event_tables : list table := [T_jobs; T_events; T_audit_records].
Lemma dispatch_event_writes j h et r k v : only_writes event_tables (Dispatch._event j h et r k v).
Proof. unfold Dispatch._event. writes. Qed.
Lemma cleanup_event_writes j w et r k v : only_writes event_tables (Cleanup._event j w et r k v).
Proof. unfold Cleanup._event. writes. Qed.
Lemma control_event_writes j u a why et r v : only_writes event_tables (_control_event j u a why et r v).
Proof. unfold _control_event. writes. Qed.
Lemma job_event_writes j a et k v : only_writes event_tables (_job_event j a et k v).
Proof. unfold _job_event. writes. Qed.
Lemma transition_writes j a st et v : only_writes event_tables (_transition j a st et v).
Proof. unfold _transition. writes. Qed.
Hint Resolve dispatch_event_writes cleanup_event_writes control_event_writes job_event_writes transition_writes : writes.

Lemma fence_writes a now st fc fr rr : only_writes other_tables (fence_attempt a now st fc fr rr).
Proof. unfold fence_attempt. writes. Qed.
Lemma revoke_writes a o now rr : only_writes other_tables (revoke_leftover_authority a o now rr).
Proof. unfold revoke_leftover_authority. writes. Qed.
Lemma end_attempt_writes a st now : only_writes other_tables (end_attempt a st now).
Proof. unfold end_attempt. writes. Qed.
Hint Resolve fence_writes revoke_writes end_attempt_writes : writes.
Lemma fence_lease_writes now actor probe : only_writes other_tables (fence_worker_lease now actor probe).
Proof. unfold fence_worker_lease. writes. Qed.
Hint Resolve fence_lease_writes : writes.
Lemma promote_job_writes now h i r s j : only_writes other_tables (promote_job now h i r s j).
Proof. unfold promote_job. writes. Qed.
Hint Resolve promote_job_writes : writes.
Lemma promote_jobs_writes now h i r s n ids : only_writes other_tables (promote_jobs now h i r s n ids).
Proof. revert s n. induction ids as [|j ids IH]; intros s n; cbn [promote_jobs]; writes; apply IH. Qed.
Hint Resolve promote_jobs_writes : writes.

Lemma dispatch_keeps worker job now epoch holder v rid :
  keeps (λ _, True) (dispatch_job worker job now epoch holder v rid).
Proof. unfold dispatch_job. keep. Qed.
Hint Resolve dispatch_keeps : keeps.

Lemma decision_keeps decision worker job now epoch holder :
  keeps (λ _, True) (apply_decision decision worker job now epoch holder).
Proof. unfold apply_decision. keep. Qed.

Lemma promote_keeps now holder limit : keeps (λ _, True) (promote_due_locked now holder limit).
Proof. unfold promote_due_locked. keep. Qed.

Lemma eligibility_keeps now : keeps (λ _, True) (process_eligibility_batch now).
Proof. unfold process_eligibility_batch. keep. Qed.

Lemma reap_keeps lease holder now : keeps (λ _, True) (reap_lease_locked lease holder now).
Proof. unfold reap_lease_locked. keep. Qed.

(** The callbacks of a worker. *)
Section callbacks.
Context (sha256 : string → string) (h : CallbackHeader).

Lemma renew_keeps q : keeps (λ _, True) (renew_attempt sha256 h q).
Proof. unfold renew_attempt. keep. Qed.
Lemma reserve_keeps q : keeps (λ _, True) (reserve_result sha256 h q).
Proof. unfold reserve_result. keep. Qed.
Lemma start_keeps q : keeps (λ _, True) (start_attempt sha256 h q).
Proof. unfold start_attempt. keep. Qed.
Lemma adopt_keeps q : keeps (λ _, True) (adopt_attempt sha256 h q).
Proof. unfold adopt_attempt. keep. Qed.
Lemma fail_keeps q : keeps (λ _, True) (fail_attempt sha256 h q).
Proof. unfold fail_attempt. keep. Qed.
Lemma checkpoint_keeps q : keeps (λ _, True) (reserve_checkpoint sha256 h q).
Proof. unfold reserve_checkpoint. keep. Qed.

Lemma settle_keeps job attempt now jitter : keeps (λ _, True) (settle_job job attempt now jitter).
Proof. unfold settle_job. keep. Qed.
Hint Resolve settle_keeps : keeps.

Lemma release_keeps q cs job attempt lease c j d clock :
  Forall fits_cap cs → keeps (λ _, True) (release_attempt h q cs job attempt lease c j d clock).
Proof.
  intros Hcs. unfold release_attempt. assert (∀ o a, 0 ≤ o → keeps (λ _, True) (_adjust_counters cs o a)) as Ha
    by auto using adjust_keeps. keep. all: try (apply Ha; case_match; lia).
Qed.

Lemma cleanup_keeps q j d c : keeps (λ _, True) (report_cleanup sha256 h q j d c).
Proof. unfold report_cleanup. keep. all: try (apply release_keeps; done). Qed.
End callbacks.

(** The requests of users and administrators. *)
Section requests.
Context (settings : JobSettings).

Lemma control_keeps q op act t apply :
  (∀ c, Forall fits_cap (cc_counters c) → keeps (λ _, True) (apply c)) →
  keeps (λ _, True) (_control settings q op act t apply).
Proof. intros Ha. unfold _control. keep. Qed.

Lemma cancel_keeps q t : keeps (λ _, True) (cancel_job settings q t).
Proof. unfold cancel_job. apply control_keeps. intros c Hc. unfold cancel_apply. keep. by apply adjust_keeps. Qed.
Lemma pause_keeps q t : keeps (λ _, True) (pause_job settings q t).
Proof. unfold pause_job. apply control_keeps. intros c Hc. unfold pause_apply. keep. Qed.
Lemma resume_keeps q t : keeps (λ _, True) (resume_job settings q t).
Proof. unfold resume_job. apply control_keeps. intros c Hc. unfold resume_apply. keep. Qed.

Lemma disable_keeps q t : keeps (λ _, True) (disable_worker settings q t).
Proof. unfold disable_worker, _mutate_worker. keep. unfold _fence_worker_attempts. keep. Qed.
Lemma drain_keeps q t : keeps (λ _, True) (drain_worker settings q t).
Proof. unfold drain_worker, _mutate_worker. keep. Qed.
End requests.
End caps.

(** ** The limits of the policies in force *)

(** The current policies allow [n] outstanding jobs in [scope]. *)
Definition allows (db : DB) (scope : string * string) (n : Z) : Prop :=
  n ≤ 0 ∨
  (scope = ("GLOBAL", "global") →
     ∀ p, p ∈ rows db T_policy_versions → pv_is_current p = true → n ≤ pv_global_outstanding_limit p) ∧
  ∀ p, p ∈ rows db T_tenant_policies → tq_is_current p = true →
    (scope = ("TENANT", tq_tenant_id p) → n ≤ tq_outstanding_limit p) ∧
    (scope.1 = "USER" → starts_with (tq_tenant_id p +:+ ":") scope.2 = true → n ≤ tq_user_outstanding_limit p).

(** Every counter is within the limits.  The scope of a user is the identifier of the
    tenant, a colon and that of the user; a tenant's identifier has no colon. *)
Record within_limits (db : DB) : Prop := {
  wl_counters : capped (allows db) db;
  wl_tenants : ∀ p, p ∈ rows db T_tenant_policies → occurs_in ":" (tq_tenant_id p) = false;
}.

Lemma allows_le db s n m : allows db s n → m ≤ n → allows db s m.
Proof.
  intros [|[Hg Ht]] ?; [left; lia|right]. split; [intros; etrans; [done|by apply Hg]|].
  intros p Hp Hc. destruct (Ht p Hp Hc) as [H1 H2]. split; intros; (etrans; [done|auto]).
Qed.
Lemma allows_zero db s : allows db s 0.
Proof. by left. Qed.

Lemma same_policies_allows db db' s n : same_policies db db' → allows db' s n ↔ allows db s n.
Proof. intros [H1 H2]. unfold allows. by rewrite H1, H2. Qed.

Lemma keeps_within {A} (m : Tx A) db a db' :
  keeps (allows db) (λ _, True) m → m db = (Ret a, db') → within_limits db → within_limits db'.
Proof.
  intros Hm H [Hc Ht]. destruct (Hm _ _ _ H Hc) as (Hs & Hc' & _). split.
  - intros c Hin. apply (same_policies_allows db), Hc'; done.
  - destruct Hs as [_ ->]. done.
Qed.

Lemma unchanged_within db db' :
  same_policies db db' → rows db' T_admission_counters = rows db T_admission_counters → within_limits db → within_limits db'.
Proof.
  intros Hs Hc [Hw Ht]. split; [|by destruct Hs as [_ ->]]. intros c Hin. rewrite Hc in Hin.
  by apply (same_policies_allows db), Hw.
Qed.

Section steps.
Context (sha256 : string → string) (settings : JobSettings) (storage : StorageSettings) (jcs_request_hash : pyval → string)
  (uuid7 : pyval → option string) (proofs : RecoveryProofProvider).

Lemma op_within db db' : sys_op sha256 settings db db' → within_limits db → within_limits db'.
Proof.
  assert (∀ s n m, allows db s n → m ≤ n → allows db s m) as Hle by apply allows_le.
  assert (∀ s, allows db s 0) as H0 by apply allows_zero.
  intros Hop. destruct Hop as
    [? ? ? ? ? ? ? ? H|? ? ? ? ? H|? ? ? ? H|? ? ? ? H|? ? ? ? H|? ? ? ? H|? ? ? ? H|? ? ? ? ? ? ? ? H|? ? ? ? H|? ? ? ? H
    |? ? ? ? H|? ? ? ? H|? ? ? ? H|? ? ? ? ? H|? ? ? H|? ? ? ? H]; (eapply keeps_within; [|exact H]).
  - by apply decision_keeps.
  - by apply reap_keeps.
  - by apply renew_keeps.
  - by apply reserve_keeps.
  - by apply start_keeps.
  - by apply adopt_keeps.
  - by apply fail_keeps.
  - by apply cleanup_keeps.
  - by apply cancel_keeps.
  - by apply pause_keeps.
  - by apply resume_keeps.
  - by apply disable_keeps.
  - by apply drain_keeps.
  - by apply promote_keeps.
  - by apply eligibility_keeps.
  - by apply checkpoint_keeps.
Qed.

(** ** Submissions *)

Lemma prefix_tenant a b u :
  occurs_in ":" a = false → occurs_in ":" b = false → starts_with (a +:+ ":") (b +:+ ":" +:+ u) = true → a = b.
Proof.
  revert b. induction a as [|x a IH]; intros [|y b] Ha Hb H; [done| | |].
  - change (Ascii.eqb ":"%char y && true = true) in H. apply andb_true_iff in H as [H _].
    apply Ascii.eqb_eq in H as <-. done.
  - change (Ascii.eqb x ":"%char && starts_with (a +:+ ":") u = true) in H. apply andb_true_iff in H as [H _].
    by apply Ascii.eqb_eq in H as ->.
  - change (Ascii.eqb x y && starts_with (a +:+ ":") (b +:+ ":" +:+ u) = true) in H.
    apply andb_true_iff in H as [H1 H2]. apply Ascii.eqb_eq in H1 as ->. apply orb_false_iff in Ha as [_ Ha], Hb as [_ Hb].
    f_equal. by apply IH.
Qed.

Lemma counter_in_scope c db : c ∈ rows db T_admission_counters → c ∈ counters_in (scope_of c) db.
Proof. intros Hin. apply elem_of_List_filter. split; [by apply scope_rowP|done]. Qed.

Lemma place_allowed tenant submitter c db db' :
  takes_place tenant submitter db db' → within_limits db → c ∈ rows db' T_admission_counters →
  allows db (scope_of c) (ac_outstanding c).
Proof.
  intros [(p & g & Hp & _ & Hg & Hle) (tp & t & u & Htp & Ht & Htle & Hu & Hule) Hrest] [Hc Hid] Hin.
  apply counter_in_scope in Hin. destruct (decide (scope_of c ∈
    [("GLOBAL", "global"); ("TENANT", tenant); ("USER", tenant +:+ ":" +:+ submitter)])) as [Hs|Hs].
  2: { rewrite Hrest in Hin by done. apply elem_of_List_filter in Hin as [_ Hin]. by apply Hc. }
  right. assert (tp ∈ rows db T_tenant_policies ∧ tq_tenant_id tp = tenant) as [Htpin Htid].
  { apply filter_one in Htp as [? Hb]. apply andb_true_iff in Hb as [Hb _]. by apply bool_decide_eq_true in Hb. }
  assert (∀ q, q ∈ rows db T_tenant_policies → tq_is_current q = true → tq_tenant_id q = tenant → q = tp) as Honly.
  { intros q Hq Hcur He. eapply filter_only; [exact Htp|done|]. cbv beta. by rewrite He, Hcur, bool_decide_eq_true_2. }
  rewrite !elem_of_cons in Hs. destruct Hs as [Hs|[Hs|[Hs|Hs]]]; [| | |set_solver]; rewrite Hs in *;
    (rewrite Hg in Hin || rewrite Ht in Hin || rewrite Hu in Hin); apply list_elem_of_singleton in Hin as ->.
  - split; [|done]. intros _ p' Hp' Hcur. by rewrite (filter_only _ _ _ _ Hp Hp' Hcur).
  - split; [done|]. intros q Hq Hcur. split; [|done]. intros [= He]. by rewrite (Honly q).
  - split; [done|]. intros q Hq Hcur. split; [done|]. cbn. intros _ Hst. apply prefix_tenant in Hst; [|auto..].
    + by rewrite (Honly q).
    + rewrite <- Htid. auto.
Qed.

Lemma accepted_within n now db db' : accepted_job n now db db' → same_policies db db' → within_limits db → within_limits db'.
Proof.
  intros [(u & why & seq & Hp & _) _ _ _] Hs Hw. split; [|destruct Hs as [_ ->]; apply Hw].
  intros c Hin. apply (same_policies_allows db); [done|]. by eapply place_allowed.
Qed.

Lemma submit_policies {A} (m : Tx A) db r db' : only_writes submit_tables m → m db = (r, db') → same_policies db db'.
Proof. intros Hm H. destruct (Hm _ _ _ H) as [Hr _]. split; apply Hr; tables. Qed.

Lemma submit_within q job_id session_id reading t db r db' :
  submit settings storage jcs_request_hash q job_id session_id reading t db = (Ret r, db') →
  within_limits db → within_limits db'.
Proof.
  intros H. pose proof (submit_policies _ _ _ _ (submit_writes _ _ _ _ _ _ _ _) H) as Hs.
  destruct (submit_Ret _ _ _ _ _ _ _ _ _ _ _ H) as [(replay & _ & Hr)|Ha]; [|by eapply accepted_within].
  apply unchanged_within; [done|]. apply Hr. unfold request_tables. set_solver.
Qed.

Lemma retry_within q job_id session_id scan t db r db' :
  retry_failed_job settings storage uuid7 q job_id session_id scan t db = (Ret r, db') →
  within_limits db → within_limits db'.
Proof.
  intros H. pose proof (submit_policies _ _ _ _ (retry_failed_writes _ _ _ _ _ _ _ _) H) as Hs.
  destruct (retry_failed_Ret _ _ _ _ _ _ _ _ _ _ _ H) as [(replay & _ & Hr)|(? & ? & ? & _ & _ & Ha)];
    [|by eapply accepted_within].
  apply unchanged_within; [done|]. apply Hr. unfold request_tables. set_solver.
Qed.

(** ** Policy updates *)

Lemma global_within q probe t clock t' clock' db r db' :
  update_global_policy settings proofs q probe t clock t' clock' db = (Ret r, db') → within_limits db → within_limits db'.
Proof.
  intros H [Hw Hid]. destruct (global_request_Ret _ _ _ _ _ _ _ _ _ _ _ H) as (target & sr & t1 & c1 & Ho & _).
  destruct (update_global_Ret _ _ _ _ _ _ _ _ _ _ Ho) as [Hr|(current & row & -> & [Hcur _ Hrow Hrows Hct _ _] & Hc & Ht)].
  { apply (unchanged_within db); [split; by apply Hr|by apply Hr|by split]. }
  split; [|by rewrite Ht]. intros c Hin. rewrite Hc in Hin. destruct (Hw c Hin) as [?|[_ Hten]]; [by left|].
  right. split; [|by rewrite Ht]. intros Hs p Hp Hpc.
  assert (List.filter pv_is_current (rows db' T_policy_versions) = [row]) as Hone.
  { by rewrite Hrows, List.filter_app, (retired_filter _ _ current), Hrow. }
  rewrite (filter_only _ _ _ _ Hone Hp Hpc). apply Hct; [done|]. by apply scope_rowP.
Qed.

Lemma retired_tenant_filter id v (l : list TenantPolicyRow) current p :
  List.filter (current_policy id) l = [current] → tq_version current = v →
  p ∈ (retire_tenant id v <$> l) → tq_is_current p = true → p ∈ l ∧ tq_tenant_id p ≠ id.
Proof.
  intros Hl Hv Hp Hc. apply list_elem_of_fmap in Hp as (r & -> & Hr). unfold retire_tenant in *.
  destruct (bool_decide (tq_tenant_id r = id)) eqn:Hid; [|split; [done|by apply bool_decide_eq_false in Hid]].
  cbn in *. destruct (tq_version r =? v) eqn:Hver; [done|].
  assert (r = current) as ->; [|lia]. eapply filter_only; [exact Hl|done|]. unfold current_policy. by rewrite Hid, Hc.
Qed.

Lemma same_counts_elem db db' c :
  same_counts db db' → c ∈ rows db' T_admission_counters →
  ∃ c0, c0 ∈ rows db T_admission_counters ∧ scope_of c0 = scope_of c ∧ ac_outstanding c0 = ac_outstanding c.
Proof.
  unfold same_counts. intros Hs Hin. apply (list_elem_of_fmap_2 counts) in Hin. rewrite Hs in Hin.
  apply list_elem_of_fmap in Hin as (c0 & He & H0). exists c0. unfold scope_of. unfold counts in He. by injection He as -> -> -> _.
Qed.

Lemma tenant_within q t clock db r db' :
  update_tenant_policy settings q t clock db = (Ret r, db') → within_limits db → within_limits db'.
Proof.
  intros H [Hw Hid]. destruct (update_tenant_Ret _ _ _ _ _ _ _ H) as [Hr|(current & row & -> & Hp & Hg)].
  { apply (unchanged_within db); [split; by apply Hr|by apply Hr|by split]. }
  destruct Hp as [Hcur _ (values & _ & Hrow) Hrows Hcounts Htc Huc _].
  assert (tq_tenant_id row = tr_tenant_id q) as Hrid by by rewrite Hrow.
  assert (occurs_in ":" (tr_tenant_id q) = false) as Hcol.
  { apply filter_one in Hcur as [Hin He]. apply andb_true_iff in He as [He _]. apply bool_decide_eq_true in He as <-. auto. }
  split.
  - intros c Hin. destruct (same_counts_elem _ _ _ Hcounts Hin) as (c0 & H0 & Hs & Hn). unfold fits_cap. rewrite <- Hs, <- Hn.
    destruct (Hw c0 H0) as [?|[Hglob Hten]]; [by left|]. right. split; [by rewrite Hg|]. intros p Hp Hpc.
    rewrite Hrows in Hp. apply elem_of_app in Hp as [Hp|Hp%list_elem_of_singleton].
    { destruct (retired_tenant_filter _ _ _ _ _ Hcur eq_refl Hp Hpc). by apply Hten. }
    subst p. rewrite Hrid. split.
    + intros He. apply Htc; [done|]. by apply scope_rowP.
    + intros He Hst. apply Huc; [done|]. unfold user_counter_of. apply andb_true_iff. split; [by apply bool_decide_eq_true_2|done].
  - intros p Hp. rewrite Hrows in Hp. apply elem_of_app in Hp as [Hp|Hp%list_elem_of_singleton]; [|by rewrite Hp, Hrid].
    apply list_elem_of_fmap in Hp as (p0 & -> & Hp). unfold retire_tenant. destruct (_ && _); by apply (Hid p0).
Qed.

(** ** Every transaction *)

Inductive limit_step (db : DB) : DB → Prop :=
| ls_operation db' : sys_op sha256 settings db db' → limit_step db db'
| ls_submit q job_id session_id reading t r db' :
    submit settings storage jcs_request_hash q job_id session_id reading t db = (Ret r, db') → limit_step db db'
| ls_retry q job_id session_id scan t r db' :
    retry_failed_job settings storage uuid7 q job_id session_id scan t db = (Ret r, db') → limit_step db db'
| ls_global_policy q probe t clock t' clock' r db' :
    update_global_policy settings proofs q probe t clock t' clock' db = (Ret r, db') → limit_step db db'
| ls_tenant_policy q t clock r db' : update_tenant_policy settings q t clock db = (Ret r, db') → limit_step db db'.

(** C7: In every state the transactions reach, the jobs counted outstanding in the system,
    in each tenant and for each user are within the limits the current policies set:
    admission stops at the limits and policy updates never undercut the counters. *)
Theorem outstanding_within_limits db db' : rtc limit_step db db' → within_limits db → within_limits db'.
Proof.
  induction 1 as [db|db db1 db2 Hstep _ IH]; [done|]. intros Hw. apply IH.
  destruct Hstep as [? H|? ? ? ? ? ? ? H|? ? ? ? ? ? ? H|? ? ? ? ? ? ? ? H|? ? ? ? ? H].
  - by eapply op_within.
  - by eapply submit_within.
  - by eapply retry_within.
  - by eapply global_within.
  - by eapply tenant_within.
Qed.
End steps.

(** The sample submission keeps the sample database within its limits. *)
Local Notation sample_submitted :=
  (submit system_settings sample_storage sample_jcs sample_submit "job-1" "session-1" sample_reading sample_times
     sample_job_db).
Lemma sample_within_limits : within_limits sample_job_db.
Proof.
  split; [intros c Hin; by apply elem_of_nil in Hin|].
  intros p Hp. assert (Hl : rows sample_job_db T_tenant_policies = [_]) by (vm_compute; reflexivity).
  rewrite Hl in Hp. by apply list_elem_of_singleton in Hp as ->.
Qed.
Lemma sample_limit_step :
  limit_step (λ _, "sha256:x") system_settings sample_storage sample_jcs sample_uuid7 sample_proofs sample_job_db
    sample_submitted.2.
Proof. destruct sample_submitted_run as [r H]. exact (ls_submit _ _ _ _ _ _ _ _ _ _ _ _ _ _ H). Qed.
Lemma outstanding_within_limits_witness : within_limits sample_submitted.2.
Proof.
  exact (outstanding_within_limits _ _ _ _ _ _ _ _ (rtc_once _ _ sample_limit_step) sample_within_limits).
Defined.
