(* ===== verification/Capacity.v ===== *)
(** * Capacity over the whole system

    Whatever runs, the unreleased allocations of a worker fit the inventory it last
    reported: a dispatch is committed only when it fits, an inventory is accepted only
    when it covers what is held, and everything else only releases.  The steps are the
    whole transactions of the coordinator, of the worker's session and callbacks, and of
    users and administrators. *)

From S2P Require Import Prelude PyDecimal Scheduling Accounting Policy PyValue WorkerModels Leadership Security Cursors Database Sorting.
From S2P Require Import Ledger Windows Authority Capabilities Eligibility Idempotency Identity Dispatch Cleanup Retry Snapshot Coordinator.
From S2P Require Import JobSpecs Control Admission Workers PolicyService WorkerSession Checkpoint Fencing View Lifecycle System PolicyChanges.
From S2P Require Import Submission Ticks Limits.

Local Open Scope string_scope.
Local Open Scope list_scope.
Local Open Scope Z_scope.

(** ** What spares the capacity *)

Definition inventory_key (i : InventoryRow) : string * Z := (in_worker_id i, in_inventory_version i).
Definition worker_key (w : WorkerRow) : string * option Z := (wk_worker_id w, wk_current_inventory_version w).
Definition held_on (worker_id : string) (db : DB) : Resources :=
  held_total (List.filter (unreleased_on worker_id) (rows db T_allocations)).

(** [i] is the inventory [w] runs on. *)
Definition current_inventory (w : WorkerRow) (i : InventoryRow) : Prop :=
  in_worker_id i = wk_worker_id w ∧ wk_current_inventory_version w = Some (in_inventory_version i).

Record capacity_ok (db : DB) : Prop := {
  cp_unique : NoDup (inventory_key <$> rows db T_worker_inventories);
  cp_sizes : ∀ a, a ∈ rows db T_allocations → res_le res_zero (allocation_resources a);
  cp_covered : ∀ w i, w ∈ rows db T_workers → i ∈ rows db T_worker_inventories → current_inventory w i →
    res_le (held_on (wk_worker_id w) db) (capacity_of i);
}.

(** The same allocation, released or not, but not taken back. *)
Definition freed (a a' : AllocationRow) : Prop :=
  al_worker_id a' = al_worker_id a ∧ allocation_resources a' = allocation_resources a ∧ (unreleased a' = true → unreleased a = true).

Record spared (db db' : DB) : Prop := {
  sd_inventories : rows db' T_worker_inventories = rows db T_worker_inventories;
  sd_workers : worker_key <$> rows db' T_workers = worker_key <$> rows db T_workers;
  sd_allocations : Forall2 freed (rows db T_allocations) (rows db' T_allocations);
}.

#[export] Instance freed_preorder : PreOrder freed.
Proof.
  split; [by intros a|]. intros a b c (H1 & H2 & H3) (H4 & H5 & H6). split_and!; [congruence..|auto].
Qed.
#[export] Instance spared_preorder : PreOrder spared.
Proof.
  split; [intros db; by split|]. intros db1 db2 db3 [Hi1 Hw1 Ha1] [Hi2 Hw2 Ha2].
  split; [by rewrite Hi2|by rewrite Hw2|by etrans].
Qed.

Lemma res_le_refl r : res_le r r.
Proof. done. Qed.
Lemma res_le_trans a b c : res_le a b → res_le b c → res_le a c.
Proof. unfold res_le. intros (?&?&?) (?&?&?). split_and!; lia. Qed.
Lemma res_le_add a b c d : res_le a b → res_le c d → res_le (res_add a c) (res_add b d).
Proof. unfold res_le, res_add. cbn. intros (?&?&?) (?&?&?). split_and!; lia. Qed.

Lemma held_cons p a l :
  held_total (List.filter p (a :: l)) = res_add (if p a then allocation_resources a else res_zero) (held_total (List.filter p l)).
Proof. unfold held_total. cbn. destruct (p a); cbn; [done|by rewrite res_add_zero_l]. Qed.

(** Fewer allocations, no more held. *)
Lemma held_le (p q : AllocationRow → bool) l l' :
  Forall2 (λ a a', allocation_resources a' = allocation_resources a ∧ (q a' = true → p a = true)) l l' →
  (∀ a, a ∈ l → res_le res_zero (allocation_resources a)) →
  res_le (held_total (List.filter q l')) (held_total (List.filter p l)).
Proof.
  induction 1 as [|a a' l l' [Hr Hp] _ IH]; intros Hs; [done|]. rewrite !held_cons. apply res_le_add.
  - rewrite Hr. destruct (q a'); [rewrite Hp by done; done|]. destruct (p a); [apply Hs; set_solver|done].
  - apply IH. set_solver.
Qed.

Lemma unreleased_onP w a : unreleased_on w a = true ↔ al_worker_id a = w ∧ unreleased a = true.
Proof. unfold unreleased_on, unreleased. by rewrite andb_true_iff, bool_decide_eq_true. Qed.

Lemma freed_held w l l' :
  Forall2 freed l l' → (∀ a, a ∈ l → res_le res_zero (allocation_resources a)) →
  res_le (held_total (List.filter (unreleased_on w) l')) (held_total (List.filter (unreleased_on w) l)).
Proof.
  intros H. apply held_le. eapply Forall2_impl; [exact H|]. intros a a' (Hw & Hr & Hu). split; [done|].
  rewrite !unreleased_onP, Hw. naive_solver.
Qed.

Lemma spared_ok db db' : spared db db' → capacity_ok db → capacity_ok db'.
Proof.
  intros [Hi Hw Ha] [Hu Hs Hc]. split; [by rewrite Hi| |].
  - intros a Hin. apply list_elem_of_lookup in Hin as [n Hn]. destruct (Forall2_lookup_r _ _ _ _ _ Ha Hn) as (a0 & H0 & _ & -> & _).
    apply Hs. by eapply list_elem_of_lookup_2.
  - intros w i Hwin Hiin [Hid Hver]. rewrite Hi in Hiin. apply (list_elem_of_fmap_2 worker_key) in Hwin. rewrite Hw in Hwin.
    apply list_elem_of_fmap in Hwin as (w0 & He & Hw0). unfold worker_key in He. injection He as He1 He2.
    eapply res_le_trans; [by apply freed_held|]. rewrite He1. apply (Hc w0 i); [done..|]. split; congruence.
Qed.

(** ** Operations that spare it *)

Definition spare_tables : list table := T_jobs :: T_attempts :: T_attempt_leases :: T_attempt_authority_grants ::
  List.filter (λ t, negb (bool_decide (t ∈ [T_workers; T_worker_inventories]))) unseen_tables.

(** [m] spares the capacity and returns a value that satisfies [Q]. *)
Definition spares {A} (Q : A → Prop) (m : Tx A) : Prop := ∀ db a db', m db = (Ret a, db') → spared db db' ∧ Q a.

Lemma spares_ret {A} (Q : A → Prop) a : Q a → spares Q (mret a).
Proof. intros HQ db a' db' H. apply tx_mret in H as [[= ->] ->]. by split. Qed.
Lemma spares_raise {A} (Q : A → Prop) e : spares Q (se_raise e).
Proof. intros db a db' H. discriminate H. Qed.
Lemma spares_bind {A B} (Q : A → Prop) (Q' : B → Prop) (m : Tx A) f :
  spares Q m → (∀ a, Q a → spares Q' (f a)) → spares Q' (m ≫= f).
Proof.
  intros Hm Hf db b db' H. apply tx_bind_Ret in H as (a & db1 & H1 & H2).
  destruct (Hm _ _ _ H1) as [Hs Ha], (Hf a Ha _ _ _ H2) as [Hs' Hb]. split; [by etrans|done].
Qed.

Lemma frame_spared db db' : (∀ t, t ∉ spare_tables → rows db' t = rows db t) → spared db db'.
Proof. intros H. split; rewrite H by tables; done. Qed.
Lemma spares_frame {A} (m : Tx A) : only_writes spare_tables m → spares (λ _, True) m.
Proof. intros Hm db a db' H. destruct (Hm _ _ _ H) as [Hrows _]. split; [by apply frame_spared|done]. Qed.
Lemma framed {A} (m : Tx A) db a db' : m db = (a, db') → only_writes spare_tables m → spared db db'.
Proof. intros H Hm. destruct (Hm _ _ _ H) as [Hrows _]. by apply frame_spared. Qed.
Lemma spares_frame_bind {A B} (Q' : B → Prop) (m : Tx A) f :
  only_writes spare_tables m → (∀ a, spares Q' (f a)) → spares Q' (m ≫= f).
Proof. intros Hm Hf. eapply spares_bind; [by apply spares_frame|]. auto. Qed.

Lemma modify_allocations_spared p f db :
  (∀ a, p a = true → a ∈ rows db T_allocations → freed a (f a)) → spared db (modify T_allocations p f db).
Proof.
  intros Hf. split; [by rewrite modify_other..|]. rewrite modify_same. apply Forall2_fmap_r, Forall_Forall2_diag, Forall_forall.
  intros a Ha. change (freed a (if p a then f a else a)). destruct (p a) eqn:E; [by apply Hf|done].
Qed.
Lemma spares_allocations p f :
  (∀ a, p a = true → freed a (f a)) → spares (λ _, True) (update_ T_allocations p f).
Proof. intros Hf db u db' H. apply tx_update_ in H as [_ ->]. split; [apply modify_allocations_spared; auto|done]. Qed.

Lemma modify_workers_spared p f db :
  (∀ w, p w = true → w ∈ rows db T_workers → worker_key (f w) = worker_key w) → spared db (modify T_workers p f db).
Proof.
  intros Hf. split; [by rewrite modify_other| |by rewrite modify_other]. rewrite modify_same. rewrite <- list_fmap_compose.
  apply list_fmap_ext. intros i w Hw. cbn. destruct (p w) eqn:E; [|done]. apply Hf; [done|]. by eapply list_elem_of_lookup_2.
Qed.
Lemma spares_workers p f : (∀ w, worker_key (f w) = worker_key w) → spares (λ _, True) (update_ T_workers p f).
Proof. intros Hf db u db' H. apply tx_update_ in H as [_ ->]. split; [apply modify_workers_spared; auto|done]. Qed.

Lemma spares_for {A} (l : list A) body : (∀ a, spares (λ _, True) (body a)) → spares (λ _, True) (for_rows l body).
Proof.
  intros Hb. induction l as [|a l IH]; [by apply spares_ret|]. cbn [for_rows]. eapply spares_bind; [apply Hb|]. by intros _ _.
Qed.

Create HintDb spares.
#[export] Hint Extern 1 (spares _ (for_rows _ _)) => apply spares_for; intros ? : spares.
#[export] Hint Extern 1 (spares _ (update_ T_workers _ _)) => apply spares_workers; by intros : spares.

Ltac spare_step :=
  lazymatch goal with
  | |- spares _ (let _ := _ in _) => cbv zeta
  | |- spares _ (mret _) => by apply spares_ret
  | |- spares _ (se_raise _) => apply spares_raise
  | |- spares _ (match ?x with _ => _ end) => destruct x
  | |- spares _ (_ ≫= _) =>
      first [ eapply spares_bind; [solve [eauto with spares nocore]|intros ? ?]
            | apply spares_frame_bind; [solve [writes]|intros ?]
            | eapply (spares_bind (λ _, True)); [|intros ? _] ]
  | |- spares _ _ => first [ solve [eauto with spares nocore] | apply spares_frame; solve [writes] ]
  end.
Ltac spare := repeat spare_step.

#[local] Hint Resolve session_writes policy_audit_writes : writes.
#[local] Hint Resolve dispatch_event_writes cleanup_event_writes control_event_writes job_event_writes transition_writes : writes.

(** Quarantine takes a held allocation; a release ends it. *)
Lemma quarantine_freed now a : al_state a = AL_HELD → freed a (a <| al_state := AL_QUARANTINED |> <| al_quarantined_at := Some now |>).
Proof. intros Hs. split_and!; [done..|]. intros _. unfold unreleased. by rewrite Hs. Qed.
Lemma release_freed now why a :
  freed a (a <| al_state := AL_RELEASED |> <| al_released_at := Some now |> <| al_release_reason := why |>).
Proof. by split_and!. Qed.
Lemma spares_quarantine p now :
  spares (λ _, True) (update_ T_allocations (λ a, p a && bool_decide (al_state a = AL_HELD))
                        (λ a, a <| al_state := AL_QUARANTINED |> <| al_quarantined_at := Some now |>)).
Proof. apply spares_allocations. intros a [_ Ha]%andb_true_iff. apply bool_decide_eq_true in Ha. by apply quarantine_freed. Qed.
#[local] Hint Resolve spares_quarantine : spares.

Lemma fence_spares a now st fc fr rr : spares (λ _, True) (fence_attempt a now st fc fr rr).
Proof.
  unfold fence_attempt. do 3 spare_step. eapply spares_bind; [apply spares_quarantine|intros ? _]. spare.
Qed.
Lemma revoke_spares a o now rr : spares (λ _, True) (revoke_leftover_authority a o now rr).
Proof. unfold revoke_leftover_authority. do 2 spare_step. eapply spares_bind; [apply spares_quarantine|intros ? _]. spare. Qed.
#[local] Hint Resolve fence_spares revoke_spares : spares.
Lemma fence_lease_spares now actor probe : spares (λ _, True) (fence_worker_lease now actor probe).
Proof. unfold fence_worker_lease. spare. Qed.
#[local] Hint Resolve fence_lease_spares : spares.
Lemma reap_spares lease holder now : spares (λ _, True) (reap_lease_locked lease holder now).
Proof. unfold reap_lease_locked. spare. Qed.

(** The callbacks of a worker. *)
Section callbacks.
Context (sha256 : string → string) (h : CallbackHeader).

Lemma renew_spares q : spares (λ _, True) (renew_attempt sha256 h q).
Proof. unfold renew_attempt. spare. Qed.
Lemma reserve_spares q : spares (λ _, True) (reserve_result sha256 h q).
Proof. unfold reserve_result. spare. Qed.
Lemma start_spares q : spares (λ _, True) (start_attempt sha256 h q).
Proof. unfold start_attempt. spare. Qed.
Lemma adopt_spares q : spares (λ _, True) (adopt_attempt sha256 h q).
Proof. unfold adopt_attempt. spare. Qed.
Lemma checkpoint_spares q : spares (λ _, True) (reserve_checkpoint sha256 h q).
Proof. unfold reserve_checkpoint. spare. Qed.

Lemma settle_spares job attempt now jitter : spares (λ _, True) (settle_job job attempt now jitter).
Proof. unfold settle_job, end_attempt. spare. Qed.
Lemma spares_release p now why :
  spares (λ _, True) (update_ T_allocations p
    (λ a, a <| al_state := AL_RELEASED |> <| al_released_at := Some now |> <| al_release_reason := why |>)).
Proof. apply spares_allocations. intros a _. apply release_freed. Qed.
Hint Resolve settle_spares spares_release : spares.
Lemma release_spares q cs job attempt lease c j d clock :
  spares (λ _, True) (release_attempt h q cs job attempt lease c j d clock).
Proof. unfold release_attempt, end_attempt. spare. Qed.
Hint Resolve release_spares : spares.
Lemma cleanup_spares q j d c : spares (λ _, True) (report_cleanup sha256 h q j d c).
Proof. unfold report_cleanup. spare. Qed.

(** The allocation of an authority is the only one with its identifier. *)
Lemma authority_allocation authority worker_id db r db' :
  _authority_rows authority worker_id db = (Ret r, db') →
  ∀ a, a ∈ rows db T_allocations → al_allocation_id a = al_allocation_id (ar_allocation r) → a = ar_allocation r.
Proof.
  unfold _authority_rows. intros H. tx H. destruct x as [ref|]; [|discriminate H]. tx H.
  repeat case_match; try discriminate H. tx H. cbn [ar_allocation]. intros b Hb Hid.
  destruct Hl3 as [[_ [=]]|(o & Ho & [= ->])].
  pose proof (filter_one _ _ _ Ho) as [_ Ha]. cbv beta in Ha. apply bool_decide_eq_true in Ha.
  eapply filter_only; [exact Ho|done|]. apply bool_decide_eq_true. congruence.
Qed.

Lemma fail_spares q : spares (λ _, True) (fail_attempt sha256 h q).
Proof.
  unfold fail_attempt. spare_step. destruct a as [receipt replay]. spare_step. destruct a as [mode cs]. do 3 spare_step.
  destruct replay; [spare|]. spare_step. intros db r db' H. split; [|done].
  apply tx_bind_Ret in H as (x & db1 & Ha & H). pose proof (authority_allocation _ _ _ _ _ Ha) as Honly.
  destruct (authority_rows_writes _ _ _ _ _ Ha) as [Hr1 _]. do 3 tx_step H.
  apply tx_bind_Ret in H as (reasons & db2 & Hre & H).
  assert (db2 = db1) as -> by (destruct (dict_get _ _); [by apply tx_mret in Hre as [_ ->]|discriminate Hre]). tx_step H.
  apply tx_bind_Ret in H as (u & db3 & Ho & H). destruct (check_observation_writes _ _ _ _ _ _ Ho) as [Hr3 _]. do 4 tx_step H.
  match type of H with ?m ?d = _ => assert (spares (λ _, True) m) as Hm by spare; destruct (Hm _ _ _ H) as [Hs _] end.
  etrans; [|exact Hs]. etrans; [|apply modify_allocations_spared].
  - split; rewrite !modify_other, Hr3, Hr1 by (done || tables); done.
  - intros b Hid Hin. rewrite !modify_other, Hr3, Hr1 in Hin by (done || tables). apply bool_decide_eq_true in Hid.
    apply quarantine_freed. rewrite (Honly b Hin Hid). bool_simpl. destruct_and?. done.
Qed.
End callbacks.

(** The checks of a worker session only read. *)
Lemma lift_exn_writes {A} (m : outcome exn A) : only_writes [] (lift_exn m).
Proof. unfold lift_exn. writes. Qed.
Lemma required_writes {A} (o : option A) : only_writes [] (required o).
Proof. unfold required. writes. Qed.
Lemma snapshot_writes w : only_writes [] (_reconciliation_snapshot w).
Proof. unfold _reconciliation_snapshot. writes. Qed.
#[local] Hint Resolve lift_exn_writes required_writes snapshot_writes : writes.
Lemma inventory_view_writes w : only_writes [] (_inventory_view w).
Proof. unfold _inventory_view. writes. Qed.
#[local] Hint Resolve inventory_view_writes : writes.
Lemma readiness_writes w now : only_writes [] (worker_readiness_failure w now).
Proof. unfold worker_readiness_failure. writes. Qed.
#[local] Hint Resolve readiness_writes : writes.
Lemma enable_ready_writes w now : only_writes [] (_require_enable_ready w now).
Proof. unfold _require_enable_ready. writes. Qed.
#[local] Hint Resolve enable_ready_writes : writes.
Lemma pages_writes fuel w after : only_writes [] (unreleased_pages fuel w after).
Proof. revert after. induction fuel as [|fuel IH]; intros after; cbn [unreleased_pages]; writes. Qed.
#[local] Hint Resolve pages_writes : writes.
Lemma allocation_ready_writes i now o id : only_writes [] (allocation_ready i now o id).
Proof. unfold allocation_ready. writes. Qed.
#[local] Hint Resolve allocation_ready_writes : writes.
Lemma allocations_ready_writes i now o ids : only_writes [] (allocations_ready i now o ids).
Proof. revert o. induction ids as [|id ids IH]; intros o; cbn [allocations_ready]; writes. Qed.
#[local] Hint Resolve allocations_ready_writes : writes.
Lemma passes_writes w i q ok now : only_writes [] (passes_checks w i q ok now).
Proof. unfold passes_checks, and_then, _can_be_ready, _unreleased_allocation_ids. writes. Qed.
#[local] Hint Resolve passes_writes : writes.
Lemma receipt_writes a : only_writes [] (completion_receipt a).
Proof. unfold completion_receipt. writes. Qed.
#[local] Hint Resolve receipt_writes : writes.
Lemma item_writes now a : only_writes [] (_reconciliation_item now a).
Proof. unfold _reconciliation_item. writes. Qed.
#[local] Hint Resolve item_writes : writes.
Lemma items_writes now l : only_writes [] (reconciliation_items now l).
Proof. induction l as [|a l IH]; cbn [reconciliation_items]; writes. Qed.
#[local] Hint Resolve items_writes : writes.

(** The requests of users and administrators. *)
Section requests.
Context (settings : JobSettings).

Lemma control_spares q op act t apply :
  (∀ c, spares (λ _, True) (apply c)) → spares (λ _, True) (_control settings q op act t apply).
Proof. intros Ha. unfold _control. spare. Qed.
Lemma cancel_spares q t : spares (λ _, True) (cancel_job settings q t).
Proof. unfold cancel_job. apply control_spares. intros c. unfold cancel_apply. spare. Qed.
Lemma pause_spares q t : spares (λ _, True) (pause_job settings q t).
Proof. unfold pause_job. apply control_spares. intros c. unfold pause_apply. spare. Qed.
Lemma resume_spares q t : spares (λ _, True) (resume_job settings q t).
Proof. unfold resume_job. apply control_spares. intros c. unfold resume_apply. spare. Qed.

Definition same_key (values : WorkerRow → WorkerRow) : Prop := ∀ w, worker_key (values w) = worker_key w.

Lemma mutate_spares q op act status t apply :
  (∀ w now live, spares same_key (apply w now live)) → spares (λ _, True) (_mutate_worker settings q op act status t apply).
Proof.
  intros Ha. unfold _mutate_worker. do 2 spare_step. spare_step; [spare|]. do 4 spare_step. 
  eapply spares_bind; [apply Ha|]. intros values Hv. cbv beta in Hv. eapply spares_bind; [apply spares_workers; intros r; by apply Hv|].
  intros _ _. spare.
Qed.
Lemma disable_spares q t : spares (λ _, True) (disable_worker settings q t).
Proof. unfold disable_worker. apply mutate_spares. intros w now live. unfold _fence_worker_attempts. spare. Qed.
Lemma drain_spares q t : spares (λ _, True) (drain_worker settings q t).
Proof. unfold drain_worker. apply mutate_spares. intros w now live. spare. Qed.
Lemma enable_spares q t : spares (λ _, True) (enable_worker settings q t).
Proof. unfold enable_worker. apply mutate_spares. intros w now live. spare. Qed.
Lemma global_spares proofs q probe t clock t' clock' :
  spares (λ _, True) (update_global_policy settings proofs q probe t clock t' clock').
Proof.
  assert (∀ target sr t clock, spares (λ _, True) (update_global_operation settings proofs q target sr t clock)) as Ho.
  { intros. unfold update_global_operation, change_mode. spare. }
  intros db r db' H. apply global_request_Ret in H as (target & sr & t1 & c1 & H & _). by eapply Ho.
Qed.
Lemma tenant_spares q t clock : spares (λ _, True) (update_tenant_policy settings q t clock).
Proof. unfold update_tenant_policy. spare. Qed.
Lemma submit_spares storage jcs q j s r t : spares (λ _, True) (submit settings storage jcs q j s r t).
Proof. apply spares_frame. eapply only_writes_weaken; [|apply submit_writes]. tables. Qed.
Lemma retry_failed_spares storage uuid7 q j s sc t : spares (λ _, True) (retry_failed_job settings storage uuid7 q j s sc t).
Proof. apply spares_frame. eapply only_writes_weaken; [|apply retry_failed_writes]. tables. Qed.
End requests.

(** ** The session of a worker *)

Section session.
Context (sha256 : string → string).

Lemma reconciliation_spares hm le it n k ttl q auth now :
  spares (λ _, True) (get_reconciliation sha256 hm le it n k ttl q auth now).
Proof. unfold get_reconciliation, page_start, snapshot_bound. spare. Qed.

Lemma poll_spares w c i n auth now : spares (λ _, True) (poll sha256 w c i n auth now).
Proof. unfold poll. spare. Qed.

Lemma sweep_workers_spares now l : spares (λ _, True) (sweep_workers now l).
Proof.
  induction l as [|[w i] l IH]; cbn [sweep_workers]; [spare|].
  destruct (silent_health _); [|exact IH]. destruct (bool_decide _); [exact IH|]. spare.
Qed.
Hint Resolve sweep_workers_spares : spares.
Lemma sweep_spares now : spares (λ _, True) (sweep_health now).
Proof. unfold sweep_health. spare. Qed.
End session.

Lemma current_key w i : current_inventory w i → worker_key w = (in_worker_id i, Some (in_inventory_version i)).
Proof. intros [H1 H2]. unfold worker_key. by rewrite H1, H2. Qed.

(** An inventory no worker runs on yet. *)
Lemma put_inventory_ok i db :
  capacity_ok db → inventory_key i ∉ inventory_key <$> rows db T_worker_inventories →
  (∀ w, w ∈ rows db T_workers → ¬ current_inventory w i) → capacity_ok (put T_worker_inventories i db).
Proof.
  intros [Hu Hs Hc] Hk Hw. split.
  - rewrite put_same, fmap_app. apply NoDup_app. split_and!; [done|by intros k Hin ->%list_elem_of_singleton|apply NoDup_singleton].
  - rewrite put_other by done. done.
  - intros w j. unfold held_on. rewrite put_same, !put_other by done. intros Hwin Hj Hcur.
    apply elem_of_app in Hj as [Hj|Hj%list_elem_of_singleton]; [by apply Hc|]. subst j. by destruct (Hw w Hwin).
Qed.

(** A worker moves to another inventory. *)
Lemma move_worker_ok p f db :
  capacity_ok db → (∀ w, w ∈ rows db T_workers → p w = true → wk_worker_id (f w) = wk_worker_id w ∧
    ∀ i, i ∈ rows db T_worker_inventories → current_inventory (f w) i → res_le (held_on (wk_worker_id w) db) (capacity_of i)) →
  capacity_ok (modify T_workers p f db).
Proof.
  intros [Hu Hs Hc] Hf. split; [rewrite modify_other by done; done..|].
  intros w i. unfold held_on. rewrite modify_same, !modify_other by done. intros Hw Hi Hcur.
  apply list_elem_of_fmap in Hw as (w0 & -> & Hw0). destruct (p w0) eqn:E; [|by apply Hc].
  destruct (Hf w0 Hw0 E) as [Hid Hle]. rewrite Hid. by apply Hle.
Qed.

Lemma coalesce_max_ge l x : x ∈ l → x ≤ coalesce_max l.
Proof.
  unfold coalesce_max. destruct l as [|y l]; [set_solver|].
  assert (∀ l y, y ≤ foldl Z.max y l) as Hge.
  { clear. induction l as [|z l IH]; intros y; cbn; [done|]. specialize (IH (Z.max y z)). lia. }
  intros [->|Hx]%elem_of_cons; [apply Hge|]. revert y Hx. induction l as [|z l IH]; intros y Hx; [set_solver|]. cbn.
  apply elem_of_cons in Hx as [->|Hx]; [|by apply IH]. specialize (Hge l (Z.max y z)). lia.
Qed.

Lemma held_sums l :
  held_total l = {| cpu_millis := sum_Z (al_cpu_millis <$> l); memory_bytes := sum_Z (al_memory_bytes <$> l);
                    gpu_count := sum_Z (al_gpu_count <$> l) |}.
Proof.
  induction l as [|a l IH]; [done|]. unfold held_total in *. rewrite fmap_cons, res_sum_cons, IH. done.
Qed.

Lemma device_writes w v i d : only_writes [T_gpu_devices] (insert_device w v i d).
Proof. unfold insert_device. writes. Qed.
#[local] Hint Resolve device_writes : writes.

(** The inventory a heartbeat records is new, belongs to the worker and covers what the
    worker holds. *)
Lemma record_inventory_Ret w inc v checksum now clock db version db' :
  record_inventory w inc v checksum now clock db = (Ret version, db') →
  ∃ i db1, in_worker_id i = w ∧ in_inventory_version i = version ∧ spared db db1 ∧ spared (put T_worker_inventories i db1) db' ∧
    inventory_key i ∉ inventory_key <$> rows db T_worker_inventories ∧ res_le (held_on w db) (capacity_of i).
Proof.
  unfold record_inventory, _held_capacity. intros H. apply tx_bind_Ret in H as ([[c m] g] & ? & Hh & H). tx Hh. simplify_eq.
  tx_step H. apply tx_bind_Ret in H as (u & db1 & Ha & H).
  pose proof (framed _ _ _ _ Ha ltac:(writes)) as Hs1.
  do 3 tx_step H. match type of H with _ (put _ ?i ?d) = _ => exists i, d end.
  apply tx_bind_Ret in H as (u' & db2 & Hd & H). tx_step H.
  pose proof (framed _ _ _ _ Hd ltac:(writes)) as Hs2. split_and!; [done..| |exact Hs2| |].
  - etrans; [exact Hs1|]. by apply frame_spared.
  - rewrite (sd_inventories _ _ Hs1). intros Hk. apply list_elem_of_fmap in Hk as (j & Hk & Hj). unfold inventory_key in Hk.
    cbn in Hk. injection Hk as Hw Hv. assert (in_inventory_version j ≤ coalesce_max (in_inventory_version <$>
      List.filter (λ r, bool_decide (in_worker_id r = w)) (rows db T_worker_inventories))) as Hle; [|lia].
    apply coalesce_max_ge, list_elem_of_fmap_2, elem_of_List_filter. split; [by apply bool_decide_eq_true_2|done].
  - unfold held_on. rewrite held_sums. unfold res_le, capacity_of. cbn. bool_simpl. split_and!; lia.
Qed.

Lemma spared_held w db db' : spared db db' → capacity_ok db → res_le (held_on w db') (held_on w db).
Proof. intros Hs Hok. apply freed_held; [by apply sd_allocations|apply Hok]. Qed.

Lemma same_worker id worker w db db' :
  worker_key <$> rows db' T_workers = worker_key <$> rows db T_workers → List.filter (is_worker id) (rows db T_workers) = [worker] →
  w ∈ rows db' T_workers → wk_worker_id w = id → worker_key w = worker_key worker.
Proof.
  intros Hk Hone Hw Hid. apply (list_elem_of_fmap_2 worker_key) in Hw. rewrite Hk in Hw.
  apply list_elem_of_fmap in Hw as (w0 & He & Hw0). rewrite He. f_equal. eapply filter_only; [exact Hone|done|].
  unfold worker_key in He. injection He as He _. apply bool_decide_eq_true_2. congruence.
Qed.

(** After the inventory of a heartbeat is settled, the version the worker moves to covers
    what it holds. *)
Lemma settled_inventory_ok worker id inc v checksum now clock (changed : bool) db version db' :
  (if changed then version ← record_inventory id inc v checksum now clock; mret (Some version)
   else mret (wk_current_inventory_version worker)) db = (Ret version, db') →
  capacity_ok db → List.filter (is_worker id) (rows db T_workers) = [worker] → wk_worker_id worker = id →
  (∀ n, wk_current_inventory_version worker = Some n →
     ∃ i, i ∈ rows db T_worker_inventories ∧ in_worker_id i = id ∧ in_inventory_version i = n) →
  capacity_ok db' ∧ ∀ i, i ∈ rows db' T_worker_inventories → in_worker_id i = id → version = Some (in_inventory_version i) →
    res_le (held_on id db') (capacity_of i).
Proof.
  intros H Hok Hone Hid Hcur. destruct changed.
  - apply tx_bind_Ret in H as (n & db1 & Hr & H). tx_step H.
    apply record_inventory_Ret in Hr as (i & d & Hiid & Hiv & Hs1 & Hs2 & Hnew & Hfit).
    pose proof (spared_ok _ _ Hs1 Hok) as Hokd. rewrite <- (sd_inventories _ _ Hs1) in Hnew.
    assert (capacity_ok (put T_worker_inventories i d)) as Hokp.
    { apply put_inventory_ok; [done..|]. intros w Hw [Hwi Hwv]. apply Hnew. 
      pose proof (same_worker id worker w db d (sd_workers _ _ Hs1) Hone Hw ltac:(congruence)) as Hk.
      unfold worker_key in Hk. injection Hk as _ Hk. rewrite Hwv in Hk. symmetry in Hk.
      destruct (Hcur _ Hk) as (j & Hj & Hj1 & Hj2). rewrite (sd_inventories _ _ Hs1). apply list_elem_of_fmap. exists j.
      split; [|done]. unfold inventory_key. congruence. }
    pose proof (spared_ok _ _ Hs2 Hokp) as Hok'. split; [done|]. intros j Hj Hjid [= Hjv].
    assert (j = i) as ->.
    { rewrite (sd_inventories _ _ Hs2) in Hj. eapply (NoDup_fmap_elem inventory_key); [apply Hokp|done| |].
      - rewrite put_same. set_solver.
      - unfold inventory_key. congruence. }
    eapply res_le_trans; [by apply (spared_held _ _ _ Hs2)|]. unfold held_on at 1. rewrite put_other by done.
    eapply res_le_trans; [by apply (spared_held id _ _ Hs1)|done].
  - tx_step H. split; [done|]. intros i Hi Hii Hv. pose proof (filter_one _ _ _ Hone) as [Hw _].
    rewrite <- Hid. apply (cp_covered _ Hok); [done..|]. split; congruence.
Qed.

Lemma heartbeat_ok sha256 jcs h q storage db r db' :
  heartbeat sha256 jcs h q storage db = (Ret r, db') → capacity_ok db → capacity_ok db'.
Proof.
  unfold heartbeat. intros H Hok. apply tx_bind_Ret in H as ([receipt replay] & db1 & Hb & H).
  apply (spared_ok _ _ (framed _ _ _ _ Hb ltac:(writes))) in Hok. clear Hb.
  apply tx_bind_Ret in H as (mode & db2 & Hm & H). pose proof (reads_run _ _ _ _ mode_reads Hm) as ->.
  apply tx_bind_Ret in H as (worker & db3 & Hw & H). pose proof (reads_run _ _ _ _ (worker_auth_reads _ _ _ _) Hw) as ->.
  apply worker_auth_Ret in Hw as [Hw Hid].
  apply tx_bind_Ret in H as (inc & db4 & Hi & H). pose proof (reads_run _ _ _ _ (incarnation_reads _ _ _) Hi) as ->.
  destruct replay; [by apply tx_mret in H as [_ ->]|].
  apply tx_bind_Ret in H as (u & db5 & Ha & H). destruct (tx_when _ _ _ _ _ Ha) as [_ ->]. tx_step H.
  apply tx_bind_Ret in H as (current & db6 & Hc & H). apply current_checksum_Ret in Hc as [-> Hcur].
  apply tx_bind_Ret in H as (version & db7 & Hv & H).
  apply settled_inventory_ok in Hv as [Hok7 Hnew]; [|done..|intros n Hn; destruct (Hcur n Hn) as (i & ? & ? & ? & _); exists i; split_and!; congruence].
  apply tx_bind_Ret in H as (passes & db8 & Hp & H). destruct (passes_writes _ _ _ _ _ _ _ _ Hp) as [Hr8 _]. do 2 tx_step H.
  match type of H with ?m (modify _ _ _ ?d) = _ => pose proof (framed _ _ _ _ H ltac:(writes)) as Hlast;
    assert (∀ t, t ≠ T_worker_incarnations → rows d t = rows db7 t) as Hd by (intros t Ht; rewrite modify_other, Hr8 by (done || set_solver); done);
    assert (capacity_ok d) as Hok8 end.
  { eapply spared_ok; [|exact Hok7]. apply frame_spared. intros t Ht. apply Hd. intros ->. apply Ht. tables. }
  eapply spared_ok; [exact Hlast|]. apply move_worker_ok; [done|]. intros w Hw' Hp'. split; [done|].
  intros i Hii [Hc1 Hc2]. unfold held_on. rewrite Hd in Hii |- * by done. unfold is_worker in Hp'. bool_simpl.
  cbn in Hc1, Hc2. rewrite Hp'. apply Hnew; [done|congruence|done].
Qed.

Lemma end_previous_writes w now : only_writes [T_worker_incarnations] (end_previous w now).
Proof. unfold end_previous. writes. Qed.
#[local] Hint Resolve end_previous_writes : writes.

Lemma incarnation_ok sha256 wait q t db r db' :
  create_incarnation sha256 wait q t db = (Ret r, db') → capacity_ok db → capacity_ok db'.
Proof.
  unfold create_incarnation. intros H Hok. apply tx_bind_Ret in H as (o & db1 & Hb & H).
  apply (spared_ok _ _ (framed _ _ _ _ Hb ltac:(writes))) in Hok. clear Hb.
  apply tx_bind_Ret in H as (mode & db2 & Hm & H). pose proof (reads_run _ _ _ _ mode_reads Hm) as ->.
  apply tx_bind_Ret in H as (worker & db3 & Hw & H). pose proof (reads_run _ _ _ _ (worker_auth_reads _ _ _ _) Hw) as ->.
  destruct (io_replay o); [by apply tx_mret in H as [_ ->]|]. do 4 tx_step H.
  apply tx_bind_Ret in H as (n & db4 & He & H). apply (spared_ok _ _ (framed _ _ _ _ He ltac:(writes))) in Hok. do 3 tx_step H.
  eapply spared_ok; [by eapply (framed _ _ _ _ H); writes|]. apply move_worker_ok.
  - eapply spared_ok; [|exact Hok]. split; by rewrite put_other.
  - intros w _ _. split; [done|]. intros i _ [_ Hv]. discriminate Hv.
Qed.

(** ** The coordinator *)

Section coordinator.
Context (holder : string) (quota : option Z) (epoch : Z).

Lemma spares_reads {A} (m : Tx A) : reads m → spares (λ _, True) m.
Proof. intros Hm db a db' H. by rewrite (reads_run _ _ _ _ Hm H). Qed.

Lemma leader_spares now : spares (λ _, True) (leader holder epoch now).
Proof. apply spares_reads, leader_reads. Qed.
Lemma locks_spares : spares (λ _, True) _locks.
Proof. apply spares_reads, locks_reads. Qed.
Lemma mode_spares : spares (λ _, True) operational_mode.
Proof. unfold operational_mode, Coordinator.current_policy. spare. Qed.
Lemma replay_spares s : spares (λ _, True) (reservation_replay_pending s).
Proof. apply spares_reads, replay_pending_reads. Qed.
Hint Resolve leader_spares locks_spares mode_spares replay_spares : spares.

Lemma promote_job_spares now h i r s j : spares (λ _, True) (promote_job now h i r s j).
Proof. unfold promote_job. spare. Qed.
Hint Resolve promote_job_spares : spares.
Lemma promote_jobs_spares now h i r s n ids : spares (λ _, True) (promote_jobs now h i r s n ids).
Proof. revert s n. induction ids as [|j ids IH]; intros s n; cbn [promote_jobs]; spare. Qed.
Hint Resolve promote_jobs_spares : spares.
Lemma promote_spares now h n : spares (λ _, True) (promote_due_locked now h n).
Proof. unfold promote_due_locked. spare. Qed.
Hint Resolve promote_spares reap_spares : spares.

Lemma promote_retries_spares p t1 t2 t3 : spares (λ _, True) (promote_retries holder epoch p t1 t2 t3).
Proof.
  unfold promote_retries. eapply spares_bind; [apply spares_reads, retry_actionable_reads|intros b _].
  unfold Coordinator.current_policy. spare.
Qed.
Lemma reap_spares' l t1 t2 : spares (λ _, True) (reap holder epoch l t1 t2).
Proof. unfold reap. spare. Qed.
Lemma delete_writes t p : only_writes [t] (delete t p).
Proof. intros db a db' [= _ <-]. split; [|done]. intros t' Ht. apply set_rows_other. set_solver. Qed.
Hint Resolve delete_writes : writes.
Lemma sweep_idempotency_spares now t1 t2 : spares (λ _, True) (sweep_idempotency holder epoch now t1 t2).
Proof. unfold sweep_idempotency. eapply spares_bind; [apply spares_reads, sweep_batch_reads|intros b _]. spare. Qed.
Lemma mark_writes blocked l : only_writes [T_jobs] (mark_all blocked l).
Proof. induction l as [|t l IH]; cbn [mark_all]; unfold mark_batch; writes. Qed.
Hint Resolve mark_writes : writes.
Lemma quota_spares s q c t1 t2 t3 : spares (λ _, True) (quota_operation holder s q epoch c t1 t2 t3).
Proof. unfold quota_operation. eapply spares_bind; [apply spares_reads, exhausted_reads|intros b _]. spare. Qed.

Lemma each_spares {A B} (f : A → Tx B) l : (∀ a, spares (λ _, True) (f a)) → spares (λ _, True) (each f l).
Proof. intros Hf. induction l as [|a l IH]; cbn [each]; [by apply spares_ret|]. eapply spares_bind; [apply Hf|intros b _]. spare. Qed.
Lemma lift_spares {A} (m : outcome SvcError A) : spares (λ _, True) (se_lift m).
Proof. intros db a db' [= _ <-]. done. Qed.
Hint Resolve lift_spares : spares.
Lemma eligibility_spares now : spares (λ _, True) (process_eligibility_batch now).
Proof. unfold process_eligibility_batch. spare. Qed.

Lemma read_snapshot_spares now policy inventory cursors (replay : bool) :
  spares (λ _, True) (read_snapshot now policy inventory cursors replay quota).
Proof.
  unfold read_snapshot. eapply (spares_bind (λ _, True)).
  { destruct replay; [apply eligibility_spares|apply spares_reads, pending_reads]. }
  intros pending _. do 17 spare_step.
  eapply (spares_bind (λ _, True)); [apply each_spares; intros; apply lift_spares|intros prepared _].
  eapply (spares_bind (λ _, True)); [apply each_spares; intros; apply spares_reads, tenant_window_reads|intros windows _].
  do 2 spare_step. eapply (spares_bind (λ _, True)); [destruct quota; [apply spares_reads, exhausted_reads|by apply spares_ret]|intros ex _].
  spare.
Qed.
Hint Resolve read_snapshot_spares : spares.

Lemma persist_spares s b : spares (λ _, True) (persist_fairness_locked s b).
Proof. apply spares_frame. eapply only_writes_weaken; [|apply persist_writes]. tables. Qed.
Hint Resolve persist_spares : spares.
Lemma snapshot_spares c t : spares (λ _, True) (snapshot_operation holder quota c epoch t).
Proof. unfold snapshot_operation, account_now_locked. spare. Qed.

(** [m] spares the capacity unless it returns a value of [Q]. *)
Definition spares_or {A} (Q : A → Prop) (m : Tx A) : Prop := ∀ db a db', m db = (Ret a, db') → spared db db' ∨ Q a.
Lemma spares_or_bind {A B} (Q : B → Prop) (m : Tx A) f :
  spares (λ _, True) m → (∀ a, spares_or Q (f a)) → spares_or Q (m ≫= f).
Proof.
  intros Hm Hf db b db' H. apply tx_bind_Ret in H as (a & db1 & H1 & H2). destruct (Hm _ _ _ H1) as [Hs _].
  destruct (Hf a _ _ _ H2); [left; by etrans|by right].
Qed.
Lemma spares_or_spares {A} (Q : A → Prop) (m : Tx A) : spares (λ _, True) m → spares_or Q m.
Proof. intros Hm db a db' H. left. by eapply Hm. Qed.

Definition is_dispatch (d : SchedulingDecision) : Prop := match d with Dispatch _ _ _ _ => True | _ => False end.

Lemma apply_spares d worker job now : ¬ is_dispatch d → spares (λ _, True) (apply_decision d worker job now epoch holder).
Proof. intros Hd. unfold apply_decision. destruct d; try done; spare. Qed.

Lemma decided_spares d : spares (λ _, True) (decided_job d).
Proof. unfold decided_job. spare. Qed.
Hint Resolve decided_spares : spares.

Lemma commit_spares_or cursors d t : spares_or is_dispatch (commit_operation holder quota cursors d epoch t).
Proof.
  unfold commit_operation. apply spares_or_bind; [spare|intros t1]. apply spares_or_bind; [spare|intros [policy w]].
  destruct w as [[worker [inventory|]]|]; [|apply spares_or_spares; spare..].
  destruct (negb _); [apply spares_or_spares; spare|]. apply spares_or_bind; [spare|intros job_id].
  apply spares_or_bind; [spare|intros job]. apply spares_or_bind; [spare|intros now].
  destruct (negb _); [apply spares_or_spares; spare|]. apply spares_or_bind; [spare|intros fresh].
  apply spares_or_bind; [spare|intros pending]. destruct pending; [apply spares_or_spares; spare|].
  destruct (decide fresh (epoch_ms now)) as [checked|[|]]; [|apply spares_or_spares; spare..].
  destruct (negb _); [apply spares_or_spares; spare|]. apply spares_or_bind; [spare|intros u].
  apply spares_or_bind; [spare|intros u'].
  assert (is_dispatch d ∨ ¬ is_dispatch d) as [Hd|Hd] by (destruct d; cbn; tauto).
  - intros db a db' H. right. apply tx_bind_Ret in H as (? & ? & _ & H). apply tx_bind_Ret in H as (? & ? & _ & H).
    by apply tx_mret in H as [[= ->] _].
  - apply spares_or_spares. eapply (spares_bind (λ _, True)); [by apply apply_spares|intros ? _]. spare.
Qed.

Lemma commit_ok cursors d t db a db' :
  commit_operation holder quota cursors d epoch t db = (Ret a, db') → capacity_ok db → capacity_ok db'.
Proof.
  intros H Hok. destruct (commit_spares_or _ _ _ _ _ _ H) as [Hs|Hd]; [by eapply spared_ok|]. destruct a; try done.
  apply commit_dispatch_fits in H as (worker & inventory & job & limit & _ & _ & Hf).
  destruct Hf as [_ _ [Hw _] (Hiin & Hiid & Hiver & _) _ _ Hcap _ _ _ (a & Ha & Haw & _ & Hreq) Hkept].
  assert (rows db' T_workers = rows db T_workers) as Hkw by (apply Hkept; set_solver).
  assert (rows db' T_worker_inventories = rows db T_worker_inventories) as Hki by (apply Hkept; set_solver).
  assert (∀ b, b ∈ rows db' T_allocations → res_le res_zero (allocation_resources b)) as Hsizes.
  { intros b Hb. rewrite Ha in Hb. apply elem_of_app in Hb as [Hb|Hb%list_elem_of_singleton]; [by apply Hok|]. subst b.
    destruct Hreq as (? & ? & ?). unfold res_le. cbn in *. lia. }
  split; [by rewrite Hki; apply Hok|done|]. intros w i Hwin Hi [Hi1 Hi2]. rewrite Hkw, Hw in Hwin. apply list_elem_of_singleton in Hwin as ->.
  rewrite Hki in Hi. assert (i = inventory) as ->.
  { eapply (NoDup_fmap_elem inventory_key); [apply Hok|done..|]. unfold inventory_key. f_equal; congruence. }
  eapply res_le_trans; [|exact Hcap]. apply held_le; [|done]. apply Forall_Forall2_diag, Forall_forall. intros b _.
  split; [done|]. by intros [_ ?]%unreleased_onP.
Qed.

Lemma tick_ok monotonic steps ts tc cs db r s' :
  _tick holder quota epoch monotonic steps ts tc (cs, db) = (r, s') → capacity_ok db → capacity_ok s'.2.
Proof.
  intros H Hok. apply (holds_tick capacity_ok) in H; [done|..|done]; intros.
  - eapply spared_ok; [by eapply reap_spares'|done].
  - eapply spared_ok; [by eapply promote_retries_spares|done].
  - eapply spared_ok; [by eapply sweep_idempotency_spares|done].
  - eapply spared_ok; [by eapply quota_spares|done].
  - eapply spared_ok; [by eapply snapshot_spares|done].
  - by eapply commit_ok.
Qed.
End coordinator.

(** ** Every transaction *)

Section steps.
Context (sha256 : string → string) (hmac_sha256 : string → string → string) (loads_encoded : string → outcome exn pyval)
  (int_text : string → outcome exn Z) (recursion_limit : nat) (cursor_key : string) (cursor_ttl : Z)
  (settings : JobSettings) (storage : StorageSettings) (jcs_request_hash : pyval → string) (uuid7 : pyval → option string)
  (proofs : RecoveryProofProvider) (quota : option Z).

(** The coordinator's tick and ledger heartbeat, every request of a worker, and every
    request of a user or an administrator. *)
Inductive capacity_step (db : DB) : DB → Prop :=
| ct_tick holder epoch monotonic steps ts tc cs r cs' db' :
    _tick holder quota epoch monotonic steps ts tc (cs, db) = (r, (cs', db')) → capacity_step db db'
| ct_account holder epoch live clock boundary r db' : account holder epoch live clock boundary db = (Ret r, db') → capacity_step db db'
| ct_incarnation wait q t r db' : create_incarnation sha256 wait q t db = (Ret r, db') → capacity_step db db'
| ct_reconciliation q auth now r db' :
    get_reconciliation sha256 hmac_sha256 loads_encoded int_text recursion_limit cursor_key cursor_ttl q auth now db = (Ret r, db') →
    capacity_step db db'
| ct_heartbeat h q ready r db' : heartbeat sha256 jcs_request_hash h q ready db = (Ret r, db') → capacity_step db db'
| ct_sweep_health now r db' : sweep_health now db = (Ret r, db') → capacity_step db db'
| ct_renew h q r db' : renew_attempt sha256 h q db = (Ret r, db') → capacity_step db db'
| ct_adopt h q r db' : adopt_attempt sha256 h q db = (Ret r, db') → capacity_step db db'
| ct_start h q r db' : start_attempt sha256 h q db = (Ret r, db') → capacity_step db db'
| ct_reserve_result h q r db' : reserve_result sha256 h q db = (Ret r, db') → capacity_step db db'
| ct_reserve_checkpoint h q r db' : reserve_checkpoint sha256 h q db = (Ret r, db') → capacity_step db db'
| ct_fail h q r db' : fail_attempt sha256 h q db = (Ret r, db') → capacity_step db db'
| ct_cleanup h q j d c r db' : report_cleanup sha256 h q j d c db = (Ret r, db') → capacity_step db db'
| ct_submit q job_id session_id reading t r db' :
    submit settings storage jcs_request_hash q job_id session_id reading t db = (Ret r, db') → capacity_step db db'
| ct_retry q job_id session_id scan t r db' :
    retry_failed_job settings storage uuid7 q job_id session_id scan t db = (Ret r, db') → capacity_step db db'
| ct_cancel q t r db' : cancel_job settings q t db = (Ret r, db') → capacity_step db db'
| ct_pause q t r db' : pause_job settings q t db = (Ret r, db') → capacity_step db db'
| ct_resume q t r db' : resume_job settings q t db = (Ret r, db') → capacity_step db db'
| ct_drain q t r db' : drain_worker settings q t db = (Ret r, db') → capacity_step db db'
| ct_disable q t r db' : disable_worker settings q t db = (Ret r, db') → capacity_step db db'
| ct_enable q t r db' : enable_worker settings q t db = (Ret r, db') → capacity_step db db'
| ct_global_policy q probe t clock t' clock' r db' :
    update_global_policy settings proofs q probe t clock t' clock' db = (Ret r, db') → capacity_step db db'
| ct_tenant_policy q t clock r db' : update_tenant_policy settings q t clock db = (Ret r, db') → capacity_step db db'.

Lemma account_spares holder epoch live clock boundary : spares (λ _, True) (account holder epoch live clock boundary).
Proof. unfold account. pose proof (leader_spares holder epoch) as Hl. pose proof mode_spares as Hm. spare. Qed.

Lemma capacity_step_ok db db' : capacity_step db db' → capacity_ok db → capacity_ok db'.
Proof.
  assert (∀ A (m : Tx A) r, spares (λ _, True) m → m db = (Ret r, db') → capacity_ok db → capacity_ok db') as Hspare
    by (intros A m r Hm H; apply spared_ok; by eapply Hm).
  destruct 1.
  - by eapply (tick_ok _ _ _ _ _ _ _ _ _ _ (_, _)).
  - by eapply Hspare; [apply account_spares|].
  - by eapply incarnation_ok.
  - by eapply Hspare; [apply reconciliation_spares|].
  - by eapply heartbeat_ok.
  - by eapply Hspare; [apply sweep_spares|].
  - by eapply Hspare; [apply renew_spares|].
  - by eapply Hspare; [apply adopt_spares|].
  - by eapply Hspare; [apply start_spares|].
  - by eapply Hspare; [apply reserve_spares|].
  - by eapply Hspare; [apply checkpoint_spares|].
  - by eapply Hspare; [apply fail_spares|].
  - by eapply Hspare; [apply cleanup_spares|].
  - by eapply Hspare; [apply submit_spares|].
  - by eapply Hspare; [apply retry_failed_spares|].
  - by eapply Hspare; [apply cancel_spares|].
  - by eapply Hspare; [apply pause_spares|].
  - by eapply Hspare; [apply resume_spares|].
  - by eapply Hspare; [apply drain_spares|].
  - by eapply Hspare; [apply disable_spares|].
  - by eapply Hspare; [apply enable_spares|].
  - by eapply Hspare; [apply global_spares|].
  - by eapply Hspare; [apply tenant_spares|].
Qed.

Lemma tick_step holder epoch monotonic steps ts tc cs db :
  capacity_step db (_tick holder quota epoch monotonic steps ts tc (cs, db)).2.2.
Proof. destruct (_tick _ _ _ _ _ _ _ _) as [r [cs' db']] eqn:E. by eapply ct_tick. Qed.

(** C2: In every state the transactions reach, in whatever order they run, what a worker holds
    unreleased fits the inventory it runs on. *)
Theorem capacity_never_exceeded db db' w i :
  rtc capacity_step db db' → capacity_ok db →
  w ∈ rows db' T_workers → i ∈ rows db' T_worker_inventories → current_inventory w i →
  res_le (held_on (wk_worker_id w) db') (capacity_of i).
Proof.
  intros Hsteps Hok. assert (capacity_ok db') as Hok'; [|by apply Hok'].
  induction Hsteps as [db|db db1 db2 Hstep _ IH]; [done|]. apply IH. by eapply capacity_step_ok.
Qed.
End steps.

(** The sample tick of [Ticks] dispatches within the sample inventory. *)
Local Notation sample_tick :=
  (_tick "coordinator" (Some 1000000) 1 10 sample_steps sample_reads sample_commit (sample_process, sample_queue_db NORMAL)).
Lemma sample_capacity_ok : capacity_ok (sample_queue_db NORMAL).
Proof.
  assert (rows (sample_queue_db NORMAL) T_worker_inventories = [sample_inventory]) as Hi by (vm_compute; reflexivity).
  assert (rows (sample_queue_db NORMAL) T_allocations = []) as Ha by (vm_compute; reflexivity).
  split; [rewrite Hi; apply NoDup_singleton|rewrite Ha; intros a Hin; by apply elem_of_nil in Hin|].
  intros w i _ Hin _. rewrite Hi in Hin. apply list_elem_of_singleton in Hin as ->. unfold held_on. by rewrite Ha.
Qed.
Lemma sample_capacity_step :
  capacity_step (λ _, "") (λ _ _, "") (λ _, Raise (ValueError "")) (λ _, Raise (ValueError "")) 100 "" 1 system_settings sample_storage
    sample_jcs sample_uuid7 sample_proofs (Some 1000000) (sample_queue_db NORMAL) sample_tick.2.2.
Proof. apply tick_step. Qed.
Lemma sample_worker_row : ∃ w, w ∈ rows sample_tick.2.2 T_workers ∧ wk_worker_id w = "worker" ∧ current_inventory w sample_inventory.
Proof.
  exists (MkWorkerRow "worker" "ENABLED" "READY" (Some "incarnation") (Some 1) (Some 0) (Some 0) 1).
  assert (rows sample_tick.2.2 T_workers = [MkWorkerRow "worker" "ENABLED" "READY" (Some "incarnation") (Some 1) (Some 0) (Some 0) 1]) as ->
    by (vm_compute; reflexivity). split; [apply list_elem_of_singleton; done|done].
Qed.
Lemma sample_inventory_row : sample_inventory ∈ rows sample_tick.2.2 T_worker_inventories.
Proof.
  assert (rows sample_tick.2.2 T_worker_inventories = [sample_inventory]) as -> by (vm_compute; reflexivity).
  by apply list_elem_of_singleton.
Qed.
Lemma capacity_never_exceeded_witness : res_le (held_on "worker" sample_tick.2.2) (capacity_of sample_inventory).
Proof.
  destruct sample_worker_row as (w & Hw & Hid & Hcur). rewrite <- Hid.
  exact (capacity_never_exceeded _ _ _ _ _ _ _ _ _ _ _ _ _ _ _ _ _ (rtc_once _ _ sample_capacity_step) sample_capacity_ok Hw sample_inventory_row Hcur).
Defined.
