(* ===== verification/Sessions.v ===== *)
(** * What a worker session guarantees

    A heartbeat makes a worker READY only when every allocation the server still holds
    for it is accounted for, and only after the worker was shown them; normal operation
    is reopened only with every worker in that state. *)

From stdpp Require Import pretty.
From S2P Require Import Prelude PyDecimal Scheduling PyValue Json WorkerModels Security Cursors Database Sorting Ledger Authority.
From S2P Require Import Capabilities Idempotency Identity Control Workers Admission PolicyService WorkerSession View PolicyChanges Ticks Capacity System.

Local Open Scope string_scope.
Local Open Scope list_scope.
Local Open Scope Z_scope.

(** ** Pages *)

Lemma ltb_leb a b : String.ltb a b = negb (String.leb b a).
Proof.
  unfold String.ltb, String.leb. rewrite (String.compare_antisym a b). by destruct (String.compare b a).
Qed.
Lemma ltb_spec a b : String.ltb a b = true ↔ String.leb b a = false.
Proof. rewrite ltb_leb. apply negb_true_iff. Qed.

(** A sorted list is its first [n] elements and what is not below the last of them. *)
Lemma sorted_page {A} (leb : A → A → bool) n l x :
  (∀ a, leb a a = true) → StronglySorted (λ a b, leb a b = true) l → (0 < n)%nat → x ∈ l →
  x ∈ take n l ∨ ∃ z, last (take n l) = Some z ∧ leb z x = true.
Proof.
  intros Hrefl Hs. revert n. induction Hs as [|a l Hs IH Ha]; intros n Hn Hx; [set_solver|]. destruct n as [|n]; [lia|].
  cbn [take]. apply elem_of_cons in Hx as [->|Hx]; [left; left|]. rewrite Forall_forall in Ha.
  destruct n as [|n]; [right; exists a; split; [done|by apply Ha]|].
  destruct (IH (S n) ltac:(lia) Hx) as [Hin|(z & Hz & Hle)]; [left; by right|right]. exists z. split; [|done].
  rewrite last_cons. by rewrite Hz.
Qed.

(** The identifiers above [after]. *)
Definition above (after : option string) (id : string) : bool :=
  match after with Some after => String.ltb after id | None => true end.

Definition remaining (worker_id : string) (after : option string) (db : DB) : list string :=
  al_allocation_id <$> List.filter (λ a, unreleased_on worker_id a && above after (al_allocation_id a)) (rows db T_allocations).

Lemma remaining_elem w after db id :
  id ∈ remaining w after db ↔ ∃ a, a ∈ rows db T_allocations ∧ unreleased_on w a = true ∧ al_allocation_id a = id ∧ above after id = true.
Proof.
  unfold remaining. rewrite list_elem_of_fmap. split.
  - intros (a & -> & [[Hu Ha]%andb_true_iff Hin]%elem_of_List_filter). eauto.
  - intros (a & Hin & Hu & <- & Ha). exists a. split; [done|]. apply elem_of_List_filter. by rewrite Hu, Ha.
Qed.

Lemma above_mono after z id : above after z = true → above (Some z) id = true → above after id = true.
Proof.
  destruct after as [after|]; [|done]. cbn. rewrite !ltb_spec. intros H1 H2.
  destruct (String.leb id after) eqn:E; [|done]. 
  assert (String.leb after z = true) as H3 by (destruct (string_leb_total after z); congruence).
  rewrite (string_leb_trans id after z) in H2 by done. done.
Qed.

Lemma filter_fewer {A} (p q : A → bool) l : (∀ x, p x = true → q x = true) → (length (List.filter p l) ≤ length (List.filter q l))%nat.
Proof.
  intros Hpq. induction l as [|x l IH]; [done|]. cbn. specialize (Hpq x). destruct (p x), (q x); cbn; lia.
Qed.
Lemma filter_fewer_strict {A} (p q : A → bool) l x :
  (∀ x, p x = true → q x = true) → x ∈ l → p x = false → q x = true → (length (List.filter p l) < length (List.filter q l))%nat.
Proof.
  intros Hpq Hx Hp Hq. induction l as [|y l IH]; [by apply elem_of_nil in Hx|]. pose proof (filter_fewer p q l Hpq) as Hle.
  cbn. apply elem_of_cons in Hx as [<-|Hx]; [rewrite Hp, Hq; cbn; lia|]. specialize (IH Hx). specialize (Hpq y).
  destruct (p y), (q y); cbn; lia.
Qed.

Lemma remaining_shrinks w after z db :
  z ∈ remaining w after db → (length (remaining w (Some z) db) < length (remaining w after db))%nat.
Proof.
  intros (a & Ha & Hu & <- & Hab)%remaining_elem. unfold remaining. rewrite !length_fmap. apply (filter_fewer_strict _ _ _ a); [|done|..].
  - intros b. rewrite !andb_true_iff. intros [Hb Hz]. split; [done|]. by eapply above_mono.
  - cbn. by rewrite ltb_leb, string_leb_refl, andb_false_r.
  - by rewrite Hu, Hab.
Qed.

(** The pages of one hundred list the unreleased allocations of the worker, each of them
    and nothing else. *)
Lemma unreleased_pages_Ret fuel w after db ids db' :
  unreleased_pages fuel w after db = (Ret ids, db') → (length (remaining w after db) < fuel)%nat →
  db' = db ∧ ∀ id, id ∈ ids ↔ id ∈ remaining w after db.
Proof.
  revert after ids db'. induction fuel as [|fuel IH]; intros after ids db' H Hf; [lia|]. cbn [unreleased_pages] in H. tx_step H.
  change (al_allocation_id <$> List.filter _ _) with (remaining w after db) in H.
  set (page := take 100 (py_sorted String.leb (remaining w after db))) in *.
  assert (∀ id, id ∈ page → id ∈ remaining w after db) as Hpage.
  { intros id Hid. apply (py_sorted_elem String.leb). unfold page in Hid. by apply elem_of_take in Hid as (i & Hi%list_elem_of_lookup_2 & _). }
  destruct (last page) as [z|] eqn:Hz.
  - apply tx_bind_Ret in H as (rest & db1 & Hr & H). tx_step H. pose proof (Hpage z (last_Some_elem_of _ _ Hz)) as Hin.
    pose proof (remaining_shrinks _ _ _ _ Hin) as Hlt. apply IH in Hr as [-> Hrest]; [|lia]. split; [done|].
    intros id. rewrite elem_of_app, Hrest. split.
    { intros [?|(a & Ha & Hu & Hi & Hab)%remaining_elem]; [by apply Hpage|]. apply remaining_elem. exists a. split_and!; try done.
      apply remaining_elem in Hin as (_ & _ & _ & _ & Hz'). by eapply above_mono. }
    intros Hid. pose proof (proj2 (py_sorted_elem String.leb _ _) Hid) as Hs.
    destruct (sorted_page String.leb 100 _ id string_leb_refl (py_sorted_sorted _ string_leb_total string_leb_trans _) ltac:(lia) Hs)
      as [?|(z' & Hz' & Hle)]; [by left|]. fold page in Hz'. assert (z' = z) as -> by congruence.
    destruct (String.leb id z) eqn:E.
    + left. rewrite (string_leb_antisym id z) by done. by apply last_Some_elem_of.
    + right. apply remaining_elem in Hid as (a & Ha & Hu & Hi & _). apply remaining_elem. exists a. split_and!; try done.
      cbn. by rewrite ltb_leb, E.
  - tx_step H. split; [done|]. intros id. split; [by intros ?%elem_of_nil|]. intros Hid. apply last_None in Hz. unfold page in Hz.
    apply (py_sorted_elem String.leb) in Hid. destruct (py_sorted String.leb _); [by apply elem_of_nil in Hid|discriminate Hz].
Qed.

Lemma unreleased_ids_Ret w db ids db' :
  _unreleased_allocation_ids w db = (Ret ids, db') →
  db' = db ∧ ∀ id, id ∈ ids ↔ ∃ a, a ∈ rows db T_allocations ∧ unreleased_on w a = true ∧ al_allocation_id a = id.
Proof.
  unfold _unreleased_allocation_ids. intros H. tx_step H. apply unreleased_pages_Ret in H as [-> Hids].
  - split; [done|]. intros id. rewrite Hids, remaining_elem. cbn. naive_solver.
  - unfold remaining. rewrite length_fmap. apply Nat.lt_succ_r. by apply filter_fewer.
Qed.

(** ** Allocations accounted for *)

(** The container the server last saw an attempt run in. *)
Definition container_of (db : DB) (a : AllocationRow) : option (string * string) :=
  (λ c, (ci_container_id c, ci_runtime_identity_digest c)) <$>
    newest_by ci_created_at (List.filter (λ r, bool_decide (ci_attempt_id r = al_attempt_id a)) (rows db T_container_identities)).

(** The worker process [incarnation_id] may go on with an allocation it holds: its attempt,
    the newest lease and the newest grant are that process's, the lease is live, and the
    container is one the process observes, unless none was started. *)
Record accounted (incarnation_id : string) (now : Z) (observed : list (string * string)) (db : DB) (a : AllocationRow) : Prop := {
  ac_held : al_state a = AL_HELD;
  ac_job : ∃ j, j ∈ rows db T_jobs ∧ j_job_id j = al_job_id a ∧ j_desired_state j ∈ [DS_RUNNING; DS_PAUSED];
  ac_attempt : ∃ t, t ∈ rows db T_attempts ∧ at_attempt_id t = al_attempt_id a ∧ at_worker_incarnation_id t = Some incarnation_id ∧
    match container_of db a with Some identity => identity ∈ observed | None => at_state t = AS_CREATED end;
  ac_lease : ∃ l, newest_by le_issued_at (List.filter (λ r, bool_decide (le_attempt_id r = al_attempt_id a)) (rows db T_attempt_leases)) = Some l ∧
    le_current_worker_incarnation_id l = Some incarnation_id ∧ le_revoked_at l = None ∧ now < le_expires_at l;
  ac_grant : ∃ g, newest_by gr_granted_at (List.filter (λ r, bool_decide (gr_attempt_id r = al_attempt_id a))
                                             (rows db T_attempt_authority_grants)) = Some g ∧
    gr_worker_incarnation_id g = Some incarnation_id ∧ gr_ended_at g = None;
}.

Lemma accounted_more i now o o' db a : (∀ c, c ∈ o → c ∈ o') → accounted i now o db a → accounted i now o' db a.
Proof.
  intros Ho [? ? (t & ? & ? & ? & Hc) ? ?]. split; try done. exists t. split_and!; try done. destruct (container_of db a); auto.
Qed.

Lemma required_Ret {A} (found : option A) db a db' : required found db = (Ret a, db') → found = Some a ∧ db' = db.
Proof. destruct found; [|done]. by intros [= -> ->]. Qed.

Lemma allocation_ready_Ret i now o id db o' db' :
  allocation_ready i now o id db = (Ret (Some o'), db') →
  db' = db ∧ ∃ a, List.filter (λ a, bool_decide (al_allocation_id a = id)) (rows db T_allocations) = [a] ∧ accounted i now o db a ∧
    (∀ c, c ∈ o ↔ c ∈ o' ∨ container_of db a = Some c).
Proof.
  unfold allocation_ready. intros H. tx_step H. tx_step H. rename x into a.
  destruct (negb (bool_decide (al_state a = AL_HELD))) eqn:Hheld; [by apply tx_mret in H as [[=] _]|].
  tx_step H. tx_step H. rename x into t. tx_step H. apply tx_bind_Ret in H as (l & ? & [Hle ->]%required_Ret & H).
  tx_step H. apply tx_bind_Ret in H as (g & ? & [Hgr ->]%required_Ret & H). do 3 tx_step H. rename x into j.
  destruct (_ || _) eqn:Hguard in H; [by apply tx_mret in H as [[=] _]|]. apply tx_mret in H as [[= Hc] ->].
  split; [done|]. exists a. split; [done|]. apply filter_one in Hl0 as [Ht Hta], Hl1 as [Hj Hja]. unfold has_attempt in Hta. bool_simpl.
  repeat (apply orb_false_elim in Hguard as [Hguard ?]). bool_simpl.
  assert (match container_of db a with Some identity => identity ∈ o | None => at_state t = AS_CREATED end ∧
          (∀ c, c ∈ o ↔ c ∈ o' ∨ container_of db a = Some c)) as [Hcont Hleft].
  { unfold container_of. destruct (newest_by ci_created_at _) as [c|]; cbn in *; destruct (bool_decide _) eqn:Hb in Hc; try discriminate Hc;
      injection Hc as ->; bool_simpl; (split; [done|]); intros c'; [|naive_solver]. rewrite elem_of_List_filter.
    set (identity := (ci_container_id c, ci_runtime_identity_digest c)) in *.
    destruct (decide (c' = identity)) as [->|Hn]; [rewrite bool_decide_eq_true_2 by done|rewrite bool_decide_eq_false_2 by done]; cbn; naive_solver. }
  assert (le_revoked_at l = None) by by destruct (le_revoked_at l).
  assert (gr_ended_at g = None) by by destruct (gr_ended_at g).
  split; [|done]. split; eauto 10.
Qed.

Lemma allocations_ready_Ret i now o ids db db' :
  allocations_ready i now o ids db = (Ret true, db') →
  db' = db ∧ (∀ id, id ∈ ids → ∃ a, List.filter (λ a, bool_decide (al_allocation_id a = id)) (rows db T_allocations) = [a] ∧
                                    accounted i now o db a) ∧
  ∀ c, c ∈ o → ∃ a, al_allocation_id a ∈ ids ∧ a ∈ rows db T_allocations ∧ container_of db a = Some c.
Proof.
  revert o. induction ids as [|id ids IH]; intros o H; cbn [allocations_ready] in H.
  - apply tx_mret in H as [[= H] ->]. symmetry in H. apply bool_decide_eq_true in H as ->. split_and!; [done|set_solver..].
  - apply tx_bind_Ret in H as ([o'|] & db1 & Ha & H); [|by apply tx_mret in H as [[=] _]].
    apply allocation_ready_Ret in Ha as (-> & a & Hone & Hacc & Hleft). destruct (IH _ H) as (-> & Hids & Hcs). split_and!; [done| |].
    + intros id' [->|Hid]%elem_of_cons; [eauto|]. destruct (Hids id' Hid) as (b & Hb & Haccb). exists b. split; [done|].
      eapply accounted_more; [|done]. intros c Hc. apply Hleft. by left.
    + intros c [Hc|Hc]%Hleft.
      * destruct (Hcs c Hc) as (b & ? & ? & ?). exists b. split_and!; [by right|done..].
      * apply filter_one in Hone as [Hin Hid]. bool_simpl. exists a. split_and!; [rewrite Hid; left|done..].
Qed.

(** A worker is accounted for when each allocation it has not released is, and it runs no
    other container. *)
Definition worker_accounted (w i : string) (now : Z) (observed : list (string * string)) (db : DB) : Prop :=
  (∀ a, a ∈ rows db T_allocations → unreleased_on w a = true → accounted i now observed db a) ∧
  ∀ c, c ∈ observed → ∃ a, a ∈ rows db T_allocations ∧ unreleased_on w a = true ∧ container_of db a = Some c.

Lemma can_be_ready_Ret w i o now db db' :
  _can_be_ready w i o now db = (Ret true, db') → db' = db ∧ worker_accounted w i now o db.
Proof.
  unfold _can_be_ready. intros H. apply tx_bind_Ret in H as (ids & db1 & [-> Hids]%unreleased_ids_Ret & H).
  apply allocations_ready_Ret in H as (-> & Hacc & Hcs).
  assert (∀ a, a ∈ rows db T_allocations → al_allocation_id a ∈ ids →
    List.filter (λ b, bool_decide (al_allocation_id b = al_allocation_id a)) (rows db T_allocations) = [a] ∧ accounted i now o db a) as Hone.
  { intros a Ha Hid. destruct (Hacc _ Hid) as (b & Hb & Haccb).
    assert (a = b) as <-; [|done]. eapply filter_only; [exact Hb|done|]. by apply bool_decide_eq_true. }
  split; [done|split].
  - intros a Ha Hu. apply Hone; [done|]. apply Hids. eauto.
  - intros c Hc. destruct (Hcs c Hc) as (a & Hid & Ha & Hca). exists a. split_and!; try done. destruct (Hone a Ha Hid) as [Hf _].
    apply Hids in Hid as (b & Hb & Hu & Hid). 
    assert (b = a) as <-; [|done]. eapply filter_only; [exact Hf|done|]. by apply bool_decide_eq_true.
Qed.

(** ** A READY heartbeat *)

#[local] Hint Resolve device_writes snapshot_writes passes_writes : writes.

Definition heartbeat_tables : list table :=
  [T_callback_receipts; T_worker_inventories; T_gpu_devices; T_allocation_ledger_segments; T_fairness_ledgers; T_fairness_state;
   T_worker_incarnations; T_workers].

Lemma checksum_writes worker : only_writes [] (current_checksum worker).
Proof. unfold current_checksum. writes. Qed.
Lemma record_writes w i v c now clock :
  only_writes [T_worker_inventories; T_gpu_devices; T_allocation_ledger_segments; T_fairness_ledgers; T_fairness_state]
    (record_inventory w i v c now clock).
Proof. unfold record_inventory, _held_capacity. writes. Qed.
#[local] Hint Resolve checksum_writes record_writes : writes.

Lemma heartbeat_writes sha256 jcs h q storage : only_writes heartbeat_tables (heartbeat sha256 jcs h q storage).
Proof. unfold heartbeat, heartbeat_tables. writes. Qed.

Definition observed_of (q : HeartbeatRequest) : list (string * string) :=
  (λ c, (ct_container_id c, ct_runtime_identity_digest c)) <$> hb_observed_containers q.

Definition capable (v : WorkerInventory) : Prop :=
  _inventory_can_be_ready (iv_host_cpu_millis v) (iv_host_memory_bytes v) (iv_cpu_millis v) (iv_memory_bytes v)
    (runtime_value (iv_runtime v)) (images_value (iv_images v)) = Ret true.

(** The process was shown every allocation up to the newest, and none came since. *)
Definition reconciled (w i : string) (db : DB) (n : IncarnationRow) : Prop :=
  n ∈ rows db T_worker_incarnations ∧ wi_worker_incarnation_id n = i ∧ wi_ended_at n = None ∧ wi_reconciliation_drained n = true ∧
  ∃ snapshot, _reconciliation_snapshot w db = (Ret snapshot, db) ∧ wi_reconciliation_snapshot n = Some snapshot.

Record ready_worker (h : HeartbeatHeader) (q : HeartbeatRequest) (storage_ready : bool) (db : DB) (w : WorkerRow) : Prop := {
  rw_admin : wk_admin_state w ≠ "DISABLED";
  rw_beat : wk_last_heartbeat_at w = Some (hh_now h);
  rw_current : wk_current_incarnation_id w = Some (hb_worker_incarnation_id q);
  rw_reported : hb_observed_health q = "READY" ∧ hb_reconcile_complete q = true ∧ storage_ready = true;
  rw_capable : capable (hb_inventory q);
  rw_reconciled : ∃ n, reconciled (hh_worker_id h) (hb_worker_incarnation_id q) db n ∧ wi_worker_id n = hh_worker_id h ∧
    wi_ready_checked_at n = Some (hh_now h);
  rw_accounted : worker_accounted (hh_worker_id h) (hb_worker_incarnation_id q) (hh_now h) (observed_of q) db;
}.

Lemma and_then_Ret a b db db' : and_then a b db = (Ret true, db') → a = true ∧ b db = (Ret true, db').
Proof. destruct a; [done|]. by intros [= _]. Qed.

Lemma lift_exn_Ret {A} (m : outcome exn A) db a db' : lift_exn m db = (Ret a, db') → m = Ret a ∧ db' = db.
Proof. destruct m; [|done]. by intros [= -> ->]. Qed.

Lemma snapshot_runs w db : ∃ s, _reconciliation_snapshot w db = (Ret s, db).
Proof. unfold _reconciliation_snapshot. eexists. reflexivity. Qed.

Lemma passes_checks_Ret w n q storage now db db' :
  passes_checks w n q storage now db = (Ret true, db') →
  db' = db ∧ (hb_observed_health q = "READY" ∧ hb_reconcile_complete q = true ∧ storage = true) ∧ capable (hb_inventory q) ∧
  (wi_reconciliation_drained n = true ∧ ∃ s, _reconciliation_snapshot w db = (Ret s, db) ∧ wi_reconciliation_snapshot n = Some s) ∧
  worker_accounted w (hb_worker_incarnation_id q) now (observed_of q) db.
Proof.
  unfold passes_checks. intros [Hrep H]%and_then_Ret. apply tx_bind_Ret in H as (c & db1 & [Hc ->]%lift_exn_Ret & H).
  apply and_then_Ret in H as [Hd H]. apply tx_bind_Ret in H as (s & db1 & Hs & H).
  destruct (snapshot_runs w db) as [s' Hs']. rewrite Hs' in Hs. injection Hs as -> <-.
  apply and_then_Ret in H as [Hsn H]. apply can_be_ready_Ret in H as [-> [Hall Hcs]]. bool_simpl. 
  split; [done|]. split; [naive_solver|]. split; [naive_solver|]. split; [naive_solver|]. split.
  - intros a Ha Hu. eapply accounted_more; [|by apply Hall]. intros x Hx. by apply (proj1 (elem_of_remove_dups _ _)).
  - intros x Hx. apply Hcs. by apply elem_of_remove_dups.
Qed.

(** The checks only read. *)
Lemma lift_exn_reads {A} (m : outcome exn A) : reads (lift_exn m).
Proof. unfold lift_exn. read_only. Qed.
Lemma required_reads {A} (o : option A) : reads (required o).
Proof. unfold required. read_only. Qed.
Lemma snapshot_reads w : reads (_reconciliation_snapshot w).
Proof. unfold _reconciliation_snapshot. read_only. Qed.
#[local] Hint Resolve lift_exn_reads required_reads snapshot_reads : reads.
Lemma pages_reads fuel w after : reads (unreleased_pages fuel w after).
Proof. revert after. induction fuel; intros after; cbn; read_only; auto. Qed.
Lemma allocation_ready_reads i now o id : reads (allocation_ready i now o id).
Proof. unfold allocation_ready. read_only. Qed.
#[local] Hint Resolve pages_reads allocation_ready_reads : reads.
Lemma allocations_ready_reads i now o ids : reads (allocations_ready i now o ids).
Proof. revert o. induction ids; intros o; cbn; read_only; auto. Qed.
#[local] Hint Resolve allocations_ready_reads : reads.
Lemma passes_reads w n q storage now : reads (passes_checks w n q storage now).
Proof. unfold passes_checks, and_then, _can_be_ready, _unreleased_allocation_ids. read_only. Qed.

Lemma begin_fresh w op c hash db r replay db' :
  List.filter (same_callback w op c) (rows db T_callback_receipts) = [] →
  _begin_callback w op c hash db = (Ret (r, replay), db') → replay = None.
Proof.
  unfold _begin_callback. intros Hnone H. apply tx_bind_Ret in H as (m & db1 & Hm & H). apply (reads_run _ _ _ _ mode_reads) in Hm as ->.
  do 2 tx_step H. change (rows (draw db) T_callback_receipts) with (rows db T_callback_receipts) in H. rewrite Hnone in H.
  tx_step H. by apply tx_mret in H as [[= _ ->] _].
Qed.

Lemma current_incarnation_Ret worker i b db n db' :
  _require_current_incarnation worker i b db = (Ret n, db') →
  wk_current_incarnation_id worker = Some i ∧ n ∈ rows db T_worker_incarnations ∧ wi_worker_id n = wk_worker_id worker ∧
  wi_worker_incarnation_id n = i ∧ wi_ended_at n = None.
Proof.
  unfold _require_current_incarnation. intros H. do 3 tx_step H. destruct x as [x|]; [|discriminate H].
  do 3 tx_step H. simplify_eq. destruct Hl as [[_ [=]]|(o & Ho & [= ->])]. apply filter_one in Ho as [Hin Hp]. bool_simpl.
  split_and!; try done. by destruct (wi_ended_at o).
Qed.

(** Accounting reads six tables; snapshots read the allocations. *)
Definition session_reads : list table :=
  [T_allocations; T_jobs; T_attempts; T_attempt_leases; T_attempt_authority_grants; T_container_identities].

Lemma worker_accounted_frame w i now o db db' :
  (∀ t, t ∈ session_reads → rows db' t = rows db t) → worker_accounted w i now o db → worker_accounted w i now o db'.
Proof.
  intros Hr [Hall Hcs]. assert (∀ a, container_of db' a = container_of db a) as Hc.
  { intros a. unfold container_of. by rewrite Hr by (unfold session_reads; set_solver). }
  unfold session_reads in Hr. split.
  - intros a Ha Hu. rewrite Hr in Ha by set_solver. destruct (Hall a Ha Hu) as [H1 H2 H3 H4 H5].
    split; [done|..]; rewrite ?Hc; rewrite Hr by set_solver; done.
  - intros c Hx. destruct (Hcs c Hx) as (a & Ha & Hu & Hca). exists a. by rewrite Hc, Hr by set_solver.
Qed.

Lemma snapshot_frame w db db' s :
  rows db' T_allocations = rows db T_allocations → _reconciliation_snapshot w db = (Ret s, db) → _reconciliation_snapshot w db' = (Ret s, db').
Proof.
  unfold _reconciliation_snapshot. intros Hr H. tx_step H. apply tx_mret in H as [[= ->] _].
  unfold mbind, se_bind, select; cbn. by rewrite Hr.
Qed.

(** The run of a new heartbeat: the check in a database [db1] that differs from the first
    in what a heartbeat may have written so far, then the two rows. *)
Lemma fresh_heartbeat_Ret sha256 jcs h q storage db ack db' :
  heartbeat sha256 jcs h q storage db = (Ret ack, db') →
  List.filter (same_callback (hh_worker_id h) "workerHeartbeat" (hh_callback_id h)) (rows db T_callback_receipts) = [] →
  ∃ worker n version passes db1,
    List.filter (is_worker (hh_worker_id h)) (rows db1 T_workers) = [worker] ∧ wk_worker_id worker = hh_worker_id h ∧
    wk_current_incarnation_id worker = Some (hb_worker_incarnation_id q) ∧
    n ∈ rows db1 T_worker_incarnations ∧ wi_worker_id n = hh_worker_id h ∧ wi_worker_incarnation_id n = hb_worker_incarnation_id q ∧
    wi_ended_at n = None ∧ passes_checks (hh_worker_id h) n q storage (hh_now h) db1 = (Ret passes, db1) ∧
    let ready := passes && negb (bool_decide (wk_admin_state worker = "DISABLED")) in
    rows db' T_workers = (λ r, if is_worker (hh_worker_id h) r then beaten_worker worker ready version (hh_now h) r else r) <$> rows db1 T_workers ∧
    (∃ n', n' ∈ rows db' T_worker_incarnations ∧ wi_worker_id n' = wi_worker_id n ∧ wi_worker_incarnation_id n' = wi_worker_incarnation_id n ∧
       wi_ended_at n' = wi_ended_at n ∧ wi_reconciliation_drained n' = wi_reconciliation_drained n ∧
       wi_reconciliation_snapshot n' = wi_reconciliation_snapshot n ∧
       wi_ready_checked_at n' = if passes then Some (hh_now h) else None) ∧
    ∀ t, t ∈ session_reads → rows db' t = rows db1 t.
Proof.
  unfold heartbeat. intros H Hnone. apply tx_bind_Ret in H as ([receipt replay] & db1 & Hb & H).
  pose proof (begin_fresh _ _ _ _ _ _ _ _ Hnone Hb) as ->. clear Hb.
  apply tx_bind_Ret in H as (mode & db2 & Hm & H). pose proof (reads_run _ _ _ _ mode_reads Hm) as ->.
  apply tx_bind_Ret in H as (worker & db3 & Hw & H). pose proof (reads_run _ _ _ _ (worker_auth_reads _ _ _ _) Hw) as ->.
  apply worker_auth_Ret in Hw as [Hw Hid].
  apply tx_bind_Ret in H as (n & db4 & Hi & H). pose proof (reads_run _ _ _ _ (incarnation_reads _ _ _) Hi) as ->.
  apply current_incarnation_Ret in Hi as (Hcur & Hn & Hnw & Hni & Hend).
  apply tx_bind_Ret in H as (u & db5 & Ha & H). destruct (tx_when _ _ _ _ _ Ha) as [_ ->]. tx_step H.
  apply tx_bind_Ret in H as (current & db6 & [-> _]%current_checksum_Ret & H).
  apply tx_bind_Ret in H as (version & db7 & Hv & H).
  assert (∀ t, t ∈ [T_workers; T_worker_incarnations] → rows db7 t = rows db1 t) as Hr7.
  { match type of Hv with ?m _ = _ => assert (only_writes [T_worker_inventories; T_gpu_devices; T_allocation_ledger_segments;
      T_fairness_ledgers; T_fairness_state] m) as Hwr by writes end. intros t Ht. apply (Hwr _ _ _ Hv). set_solver. }
  apply tx_bind_Ret in H as (passes & db8 & Hp & H).
  pose proof (reads_run _ _ _ _ (passes_reads _ _ _ _ _) Hp) as ->. do 2 tx_step H.
  match type of H with ?m _ = _ => assert (only_writes [T_allocation_ledger_segments; T_callback_receipts] m) as Hlast by writes end.
  apply Hlast in H as [Hlast' _]. clear Hlast. exists worker, n, version, passes, db7.
  rewrite <- (Hr7 T_workers) in Hw by set_solver. rewrite <- (Hr7 T_worker_incarnations) in Hn by set_solver.
  split_and!; [done..|congruence|done|done|done| | |].
  - rewrite Hlast', modify_same, modify_other by (done || set_solver). done.
  - eexists. rewrite Hlast', modify_other, modify_same by (done || set_solver). split.
    + apply list_elem_of_fmap_2. exact Hn.
    + cbn. rewrite bool_decide_eq_true_2 by done. by destruct (passes && _).
  - intros t Ht. unfold session_reads in Ht. rewrite Hlast', !modify_other by set_solver. done.
Qed.

(** C5: A heartbeat that is not a replay leaves its worker READY only if the worker is not
    disabled, it reported so with an inventory that leaves the host its share, its process
    was shown every allocation it still has, and each of these allocations is one the
    process may go on with: held, with its job still wanted, its attempt, newest lease and
    newest grant the process's, the lease live, and its container among the observed ones.
    No other container is observed. *)
Theorem ready_worker_accounted sha256 jcs h q storage db ack db' w :
  heartbeat sha256 jcs h q storage db = (Ret ack, db') →
  List.filter (same_callback (hh_worker_id h) "workerHeartbeat" (hh_callback_id h)) (rows db T_callback_receipts) = [] →
  w ∈ rows db' T_workers → wk_worker_id w = hh_worker_id h → wk_health w = "READY" → ready_worker h q storage db' w.
Proof.
  intros H Hnone Hw Hid Hready.
  destruct (fresh_heartbeat_Ret _ _ _ _ _ _ _ _ H Hnone) as
    (worker & n & version & passes & db1 & Hone & Hwid & Hcur & Hn & Hnw & Hni & Hend & Hp & Hws & (n' & Hn' & En) & Hr).
  destruct En as (En1 & En2 & En3 & En4 & En5 & En6). rewrite Hws in Hw. apply list_elem_of_fmap in Hw as (r & -> & Hrow).
  destruct (is_worker (hh_worker_id h) r) eqn:Hisw; [|unfold is_worker in Hisw; bool_simpl; congruence].
  pose proof (filter_only _ _ _ _ Hone Hrow Hisw) as ->. destruct passes, (bool_decide (wk_admin_state worker = "DISABLED")) eqn:Hdis;
    try discriminate Hready. apply passes_checks_Ret in Hp as (_ & Hrep & Hcap & (Hdr & s & Hs & Hsn) & Hacc). bool_simpl. split; try done.
  - exists n'. split; [|by rewrite En1]. unfold reconciled. rewrite En2, En3, En4, En5. split_and!; try done. exists s. split; [|done].
    eapply snapshot_frame; [|exact Hs]. apply Hr. unfold session_reads. set_solver.
  - by eapply worker_accounted_frame.
Qed.

(** ** Reopening normal operation *)

(** A worker that takes work: enabled, READY, and its last heartbeat, no older than thirty
    seconds, passed the checks of a process that was shown every allocation it has. *)
Record serving (now : Z) (db : DB) (w : WorkerRow) : Prop := {
  sv_enabled : wk_admin_state w = "ENABLED";
  sv_ready : wk_health w = "READY";
  sv_process : ∃ beat n, wk_last_heartbeat_at w = Some beat ∧ now - 30000000 ≤ beat ∧
    wk_current_incarnation_id w = Some (wi_worker_incarnation_id n) ∧ reconciled (wk_worker_id w) (wi_worker_incarnation_id n) db n ∧
    wi_ready_checked_at n = Some beat;
  sv_inventory : ∃ i images, i ∈ rows db T_worker_inventories ∧ current_inventory w i ∧
    py_subscript (in_workload_capabilities i) "images" = Ret images ∧
    _inventory_can_be_ready (in_host_cpu_millis i) (in_host_memory_bytes i) (in_allocatable_cpu_millis i)
      (in_allocatable_memory_bytes i) (in_runtime_capabilities i) images = Ret true;
}.

Lemma inventory_view_Ret w db i images db' :
  _inventory_view w db = (Ret (Some (i, images)), db') →
  db' = db ∧ i ∈ rows db T_worker_inventories ∧ current_inventory w i ∧ py_subscript (in_workload_capabilities i) "images" = Ret images.
Proof.
  unfold _inventory_view. destruct (wk_current_inventory_version w) as [v|] eqn:Hv; [|by intros [= _]]. intros H. do 2 tx_step H.
  destruct x as [row|]; [|by apply tx_mret in H as [[=] _]]. destruct Hl as [[_ [=]]|(o & Ho & [= ->])].
  do 3 (apply tx_bind_Ret in H as (? & ? & Hx & H); apply lift_exn_Ret in Hx as [? ->]). apply tx_mret in H as [[= -> ->] ->].
  apply filter_one in Ho as [Hin Ho]. bool_simpl. split_and!; try done. by split; [|rewrite Hv; f_equal].
Qed.

Lemma readiness_None w now db db' :
  worker_readiness_failure w now db = (Ret None, db') → wk_admin_state w = "ENABLED" → wk_health w = "READY" → db' = db ∧ serving now db w.
Proof.
  unfold worker_readiness_failure. destruct (wk_last_heartbeat_at w) as [beat|] eqn:Hbeat; [|by intros [= _]].
  destruct (beat <? _) eqn:Hfresh; [by intros [= _]|]. intros H He Hh. do 2 tx_step H.
  destruct x as [n|]; [|by apply tx_mret in H as [[=] _]]. destruct Hl as [[_ [=]]|(o & Ho & [= ->])].
  destruct (negb _) eqn:Hck in H; [by apply tx_mret in H as [[=] _]|].
  destruct (_ || _) eqn:Hend in H; [by apply tx_mret in H as [[=] _]|].
  apply tx_bind_Ret in H as (s & db1 & Hs & H). destruct (snapshot_runs (wk_worker_id w) db) as [s' Hs']. rewrite Hs' in Hs. injection Hs as -> <-.
  destruct (negb _) eqn:Hsn in H; [by apply tx_mret in H as [[=] _]|].
  apply tx_bind_Ret in H as ([[i images]|] & db1 & Hv & H); [|by apply tx_mret in H as [[=] _]].
  apply inventory_view_Ret in Hv as (-> & Hi & Hcur & Him).
  apply tx_bind_Ret in H as (c & db1 & [Hc ->]%lift_exn_Ret & H). apply tx_mret in H as [[= Hb] ->]. destruct c; [|discriminate Hb].
  split; [done|]. apply filter_one in Ho as [Hin Hid]. bool_simpl. split; [done..| |eauto 10].
  exists beat, o. split_and!; try done. unfold reconciled. split_and!; try done; [by destruct (wi_ended_at o)|eauto].
Qed.

Lemma workers_None now l db db' :
  workers_failure now l db = (Ret None, db') → ∀ w, w ∈ l → serving now db w.
Proof.
  induction l as [|w l IH]; intros H w' Hw'; [by apply elem_of_nil in Hw'|]. cbn [workers_failure] in H.
  destruct (negb _) eqn:He in H; [by apply tx_mret in H as [[=] _]|].
  destruct (negb _) eqn:Hh in H; [by apply tx_mret in H as [[=] _]|].
  apply tx_bind_Ret in H as ([m|] & db1 & Hf & H).
  { destruct (dict_get m _FAILURE_CODES); [by apply tx_mret in H as [[=] _]|done]. }
  bool_simpl. apply readiness_None in Hf as [-> Hs]; [|done..]. apply elem_of_cons in Hw' as [->|Hw']; [done|]. by apply IH.
Qed.

Lemma failure_None sc now db db' :
  _failure sc now db = (Ret None, db') → sc = true ∧ rows db T_workers ≠ [] ∧ ∀ w, w ∈ rows db T_workers → serving now db w.
Proof.
  unfold _failure. destruct sc; cbn [negb]; [|by intros [= _]]. intros H. tx_step H. split; [done|].
  rewrite filter_true in H. set (leb := λ a b, String.leb (wk_worker_id a) (wk_worker_id b)) in *.
  assert (py_sorted leb (rows db T_workers) ≠ []) as Hne by (intros E; rewrite E in H; by apply tx_mret in H as [[=] _]).
  assert (workers_failure now (py_sorted leb (rows db T_workers)) db = (Ret None, db')) as Hw by (by destruct (py_sorted leb _)).
  split; [by intros E; rewrite E in Hne|]. intros w Hin. eapply workers_None; [exact Hw|]. by apply py_sorted_elem.
Qed.

Lemma serving_frame now db db' :
  (∀ t, t ≠ T_idempotency_records → rows db' t = rows db t) → ∀ w, serving now db' w → serving now db w.
Proof.
  intros Hr w [He Hh (beat & n & Hb & Hf & Hc & (Hn & Hi & Hend & Hd & s & Hs & Hsn) & Hck) (i & images & Hin & Hcur & Him & Hcap)].
  split; try done.
  - exists beat, n. split_and!; try done. rewrite Hr in Hn by done. unfold reconciled. split_and!; try done. exists s. split; [|done].
    eapply snapshot_frame; [|exact Hs]. symmetry. by apply Hr.
  - exists i, images. by rewrite <- Hr.
Qed.

(** C18: With the readiness proof of the server, a request moves the operational mode in two
    ways only: it closes admission, or it reopens normal operation with the schema
    current, at least one worker known, and every worker serving.
    Writes are never frozen and a freeze is never left this way. *)
Theorem reopens_with_serving_workers settings sc now q probe t clock t' clock' db r db' current row :
  update_global_policy settings (ReadinessRecoveryProofProvider sc now) q probe t clock t' clock' db = (Ret r, db') →
  List.filter pv_is_current (rows db T_policy_versions) = [current] →
  List.filter pv_is_current (rows db' T_policy_versions) = [row] →
  pv_operational_mode row = pv_operational_mode current ∨
  (pv_operational_mode current = NORMAL ∧ pv_operational_mode row = ADMISSION_OFF) ∨
  (pv_operational_mode current = ADMISSION_OFF ∧ pv_operational_mode row = NORMAL ∧ sc = true ∧ rows db T_workers ≠ [] ∧
   ∀ w, w ∈ rows db T_workers → serving now db w).
Proof.
  intros H Hcur Hrow. destruct (global_request_Ret _ _ _ _ _ _ _ _ _ _ _ H) as (target & sr & t1 & c1 & Ho & _).
  destruct (update_global_Ret _ _ _ _ _ _ _ _ _ _ Ho) as [Hsame|(current' & row' & _ & Hp & _)].
  { left. rewrite Hsame, Hcur in Hrow by done. by injection Hrow as <-. }
  destruct Hp as [Hcur' _ Hrow' Hrows _ Hmode _]. rewrite Hcur in Hcur'. injection Hcur' as <-.
  rewrite Hrows, List.filter_app, (retired_filter _ _ current) in Hrow by done. subst row'. injection Hrow as <-.
  destruct Hmode as [?|(db1 & Hr & Hm)]; [by left|]. right. cbn [pv_operational_mode] in *.
  destruct (pv_operational_mode current), (default _ target); cbn in Hm; try done; [by left| |by destruct Hm].
  right. destruct Hm as [_ Hm]. destruct (_failure sc now db1) as [[[m|]|e] db2] eqn:Hf; try discriminate Hm.
  apply failure_None in Hf as (-> & Hne & Hall). rewrite Hr in Hne, Hall by done. split_and!; try done.
  intros w Hw. eapply serving_frame; [exact Hr|]. by apply Hall.
Qed.

(** ** Samples *)

(** The worker of the sample run once it was shown its one allocation, whose container it
    observes. *)
Definition session_db : DB :=
  set_rows T_worker_credentials
    [MkCredentialRow "00000000-0000-7000-8000-000000000000" "w" "digest" ["worker:local"] (seconds 100) None]
  (set_rows T_worker_incarnations [MkIncarnationRow "inc" "w" 1 None None "nonce" 0 None (Some "1") (Some "id-1") true None]
  (set_rows T_container_identities [MkContainerRow "t1" "job" "id-0" "id-1" "id-3" 1 "container" "sha256:runtime" 2000000 None None]
     system_dispatched)).
Definition session_header : HeartbeatHeader :=
  {| hh_worker_id := "w"; hh_credential := "00000000-0000-7000-8000-000000000000.AAAAAAAAAAAAAAAAAAAAAAAAAAAAAAAAAAAAAAAAAAA";
     hh_callback_id := "callback"; hh_payload_hash := sample_hash; hh_auth := seconds 10; hh_now := seconds 10; hh_clock := seconds 10 |}.
Definition session_request : HeartbeatRequest :=
  {| hb_worker_incarnation_id := "inc"; hb_observed_health := "READY"; hb_reconcile_complete := true;
     hb_inventory :=
       {| iv_architecture := "linux/amd64"; iv_host_cpu_millis := 8000; iv_host_memory_bytes := 8589934592; iv_cpu_millis := 4000;
          iv_memory_bytes := 1073741824; iv_gpu_count := 0;
          iv_runtime := {| rc_docker_version := "27"; rc_oci_runtime := "runc"; rc_oci_runtime_version := "1"; rc_cgroups_version := 2;
                           rc_kernel_release := "6"; rc_seccomp_available := true |};
          iv_adapters := []; iv_images := [{| ic_image_digest := "sha256:image"; ic_architecture := "linux/amd64"; ic_verified := true |}];
          iv_frameworks := []; iv_gpu_devices := []; iv_discovered_at := "2026-01-01T00:00:00Z" |};
     hb_observed_containers := [{| ct_container_id := "container"; ct_runtime_identity_digest := "sha256:runtime" |}] |}.

Local Notation session_beat := (heartbeat (λ _, "digest") (λ _, "sha256:inventory") session_header session_request true session_db).
Definition session_worker : WorkerRow := MkWorkerRow "w" "ENABLED" "READY" (Some "inc") (Some 2) (Some 10000000) (Some 10000000) 2.

Lemma session_beat_run : ∃ ack, session_beat = (Ret ack, session_beat.2).
Proof. eexists. apply ret_of. vm_compute. reflexivity. Qed.
Lemma session_beat_workers : rows session_beat.2 T_workers = [session_worker].
Proof. vm_compute. reflexivity. Qed.
Lemma session_fresh :
  List.filter (same_callback (hh_worker_id session_header) "workerHeartbeat" (hh_callback_id session_header))
    (rows session_db T_callback_receipts) = [].
Proof. vm_compute. reflexivity. Qed.

(** The sample worker becomes READY with its allocation accounted for. *)
Lemma ready_worker_accounted_witness : ready_worker session_header session_request true session_beat.2 session_worker.
Proof.
  destruct session_beat_run as [ack H]. apply (ready_worker_accounted _ _ _ _ _ _ _ _ _ H session_fresh); [|done..].
  rewrite session_beat_workers. by apply list_elem_of_singleton.
Defined.

(** A closed system with that worker. *)
Definition session_tables : DB → DB := λ db,
  set_rows T_workers (rows session_beat.2 T_workers)
  (set_rows T_worker_incarnations (rows session_beat.2 T_worker_incarnations)
  (set_rows T_worker_inventories (rows session_beat.2 T_worker_inventories)
  (set_rows T_allocations (rows session_beat.2 T_allocations) db))).
Definition closed_db : DB := session_tables (sample_policy_db ADMISSION_OFF).
Definition session_reopen : GlobalPolicyRequest :=
  {| gq_principal := sample_operator; gq_expected_version := VersionPrecondition (Some (etag 3));
     gq_outstanding_limit := None; gq_operational_mode := Some "NORMAL";
     gq_idempotency_key := "0123456789abcdef"; gq_request_hash := sample_hash |}.
Local Notation session_opened :=
  (update_global_policy system_settings (ReadinessRecoveryProofProvider true (seconds 30)) session_reopen (Some true)
     sample_policy_times 1 sample_policy_times 1 closed_db).
Lemma session_opened_run : ∃ r, session_opened = (Ret r, session_opened.2).
Proof. eexists. apply ret_of. vm_compute. reflexivity. Qed.
Lemma session_closed_policy : List.filter pv_is_current (rows closed_db T_policy_versions) = [MkPolicyRow 3 ADMISSION_OFF true 100].
Proof. vm_compute. reflexivity. Qed.
Lemma session_closed_workers : rows closed_db T_workers = [session_worker].
Proof. vm_compute. reflexivity. Qed.
Lemma session_opened_policy : List.filter pv_is_current (rows session_opened.2 T_policy_versions) = [MkPolicyRow 4 NORMAL true 100].
Proof. vm_compute. reflexivity. Qed.

(** The sample system reopens, its worker serving. *)
Lemma reopens_with_serving_workers_witness : serving (seconds 30) closed_db session_worker.
Proof.
  destruct session_opened_run as [r H].
  destruct (reopens_with_serving_workers _ _ _ _ _ _ _ _ _ _ _ _ _ _ H session_closed_policy session_opened_policy)
    as [[=]|[[[=] _]|(_ & _ & _ & _ & Hw)]]. apply Hw. rewrite session_closed_workers. by apply list_elem_of_singleton.
Defined.
